(* ===== verification/_CoqProject ===== *)
-Q . S2P
Prelude.v
Domain.v
Layout.v
Format.v
Wire.v
Segment.v
Frame.v
Pack.v
Backend.v
CatalogIndex.v
Catalog.v
Placement.v
View.v
ViewProofs.v
ViewDemo.v
Manifest.v
ManifestProofs.v
ManifestDemo.v
Active.v
Store.v
StoreProofs.v
StoreRead.v
StoreCommit.v
StoreDemo.v
Sealed.v
SealedProofs.v
SealedDemo.v
Cache.v
CacheProofs.v
CacheDemo.v
Seal.v
SealProofs.v
Retention.v
RetentionTrace.v
RetentionPlan.v
RetentionProofs.v
RetentionViews.v
RetentionDemo.v
Maintenance.v
Samples.v
SamplesProofs.v
SamplesDemo.v
Prepared.v
Draft.v
PreparedProofs.v
InstallProofs.v
RepackProofs.v
Work.v
WorkProofs.v
WorkDemo.v
Vfs.v
VfsProofs.v
VfsDemo.v
Relocate.v
RelocateProofs.v
RelocateDemo.v
Seeds.v
SeedsProofs.v
SeedsDemo.v
