(* ===== verification/Prelude.v ===== *)
(** * A verified model of zsqlite's storage engine

    zsqlite (src/) stores a SQLite database as compressed, content-addressed objects with a
    small writable file in front. The pages SQLite writes go to an _active file_; sealing
    moves them into _frames_ (compressed groups of pages) collected in _packs_, and a
    _manifest_ names the frame slot of every page of a sealed _view_. A conditional
    _catalog root_ in a storage backend names everything else. This library translates that
    engine, component by component, into executable definitions and proves what makes it
    correct.

    ** The parts and where they are modelled

    - Prelude.v: machine integers with their checked operations, byte strings and
      little-endian fields, the result type and its notations, the hash interface, tactics
      and hint databases shared by all files.
    - Domain.v (domain.rs): validated values; Layout.v (layout.rs, dictionary.rs): persisted
      policies; Format.v (format.rs): the sectors and record headers of active files.
    - Wire.v (storage/wire.rs): the bulk and the streaming decoder, two instances of one
      interface ([Wire], laws [WireLaws]); compressed envelopes.
    - Segment.v (storage/segment.rs), Frame.v (storage/frame.rs), Pack.v (storage/pack.rs):
      the immutable containers, their encoders, decoders and authentication.
    - Backend.v (storage/adapter.rs): the storage trait as a class of operations
      ([StorageBackend]) with the laws its documentation states ([BackendLaws],
      [BackendLive]), and the in-memory backend, which satisfies them.
    - CatalogIndex.v, Catalog.v (storage/catalog.rs): log-structured indexes and the
      conditional root that publishes them.
    - Placement.v (storage/placement.rs): where packs live inside blobs; batched reads.
    - View.v, ViewProofs.v, ViewDemo.v (storage/view.rs): resolved views, their checkpoint
      and delta records, hashes and validation.
    - Manifest.v, ManifestProofs.v, ManifestDemo.v (storage/view.rs, storage/objects.rs):
      staging, finalizing and loading manifests through a chain of parents.
    - Active.v (store.rs, fs.rs): opening an active file. Store.v with StoreProofs.v,
      StoreRead.v, StoreCommit.v and StoreDemo.v (store.rs): the page store: reads, writes,
      truncation, publication, rollback, reload, bootstrap.
    - Sealed.v, SealedProofs.v, SealedDemo.v (storage/view.rs, storage/placement.rs,
      storage/objects.rs): pinned views and the verified read of a sealed page.
    - Cache.v, CacheProofs.v, CacheDemo.v (storage/cache.rs, statistics.rs): the page cache.
    - Seal.v, SealProofs.v (storage/objects.rs): attachments and the two publications around
      the rename that installs a new active file, with their recovery.
    - Retention.v (storage/retention.rs, with the inventory and deletion sessions of
      storage/objects.rs and storage/adapter.rs and the estimates of storage/repack.rs): named
      retentions, the trace of what is live, the collector, destruction. RetentionTrace.v says
      what must be kept, RetentionPlan.v what the collector plans, RetentionProofs.v and
      RetentionViews.v what it leaves; RetentionDemo.v runs it.
    - Maintenance.v (storage/maintenance_read.rs): the windows through which maintenance reads
      packs. Samples.v, SamplesProofs.v, SamplesDemo.v (storage/samples.rs): the reservoir of
      pages that dictionaries are trained on, and the choice of a dictionary.
    - Prepared.v (storage/prepared.rs, parallel.rs, seal.rs, with compression.rs's worker counts):
      what a seal or a repack prepares without the lock, its frames encoded on worker threads, and
      what it installs. PreparedProofs.v says what a prepared seal holds, Draft.v and
      InstallProofs.v what the installed view shows, RepackProofs.v that a repack shows the same.
    - Work.v, WorkProofs.v, WorkDemo.v (store.rs, with storage/repack.rs's choice of packs): taking
      and finishing the maintenance work of an open database; compaction.
    - Vfs.v, VfsProofs.v, VfsDemo.v (vfs/runtime.rs, vfs.rs): the open file that SQLite sees: its
      callbacks, and when a transaction or a WAL checkpoint is published or rolled back.
    - Relocate.v, RelocateProofs.v, RelocateDemo.v (storage/placement.rs): copying packs into a new
      blob and preferring it. Seeds.v, SeedsProofs.v, SeedsDemo.v (storage/seed.rs): the first
      dictionary of a new database, chosen among those of related ones.

    The page store reads sealed pages through the class [SealedView] of Store.v, and its
    theorems assume of it only that pages within the size can be read ([view_ok]); the
    pinned view of Sealed.v is an instance, and SealedProofs.v discharges that contract from
    what the catalog stores. The cache stands between the two; CacheProofs.v shows that it
    can be left out of the store's model. [Work] runs over the same store with a [PinnedView] as its
    base, beside one catalog, so that its theorems follow a page from the active file
    into a pack; [Vfs] drives the store for any base. The [*Demo.v] files evaluate the components together on a
    concrete database and hold the witnesses of the theorems.

    ** State, errors and effects

    An operation that fails returns [result StoreError]; an operation with state returns the
    state it leaves behind on every path, errors included ([sm] in Store.v, pairs elsewhere).
    An active file is its bytes; a backend is an abstract state with operations; a [BTreeMap]
    is a [gmap] listed in key order; unsigned integers are [Z] with the code's checked or
    wrapping operation written out. Texts of error messages are dropped.

    Parameters stand for code outside the repository: the hash functions ([Hashes]:
    BLAKE3 and CRC-32, of which only the output widths are assumed, in [HashesOk]),
    zstd ([ZstdLib]; [ZstdOk] says that decompression inverts compression within the
    bounds), the backend ([StorageBackend] with its laws, [Collectable] for inventory and
    deletion), the parent VFS of SQLite ([ParentVfs], of which nothing is assumed), the host's threads
    ([Workers], [Host]), the temporary file of the cache ([CacheFile]; nothing is assumed of the bytes it
    returns), and what the coordination directory and the database path hold ([Local]: the
    active file, the attachment record, and the lease files with whether a reader holds them). No hash is assumed to be
    injective: where integrity rests on collision resistance the theorem concludes "..., or
    two different byte strings with the same hash" ([collision]).

    ** What the theorems show

    - Page store: a write, a truncation and a read are the operations on a plain file image
      ([write_at_is_file_write], [truncate_is_file_truncate], [read_at_returns_image]); a
      rollback restores the published image; a publication commits the image and a reload of
      the file presents it; two defects of the code are stated exactly
      ([partial_write_past_truncation_forgets], [truncate_to_nothing_refused]).
    - Active file: the scan of the records is exact and the newest valid state sector wins.
    - Sealed views: a delta reconstructs its view, the logical hash binds it, a loaded
      manifest is the one its identity names, loading terminates on any stored chain, and a
      finalized manifest loads back as the draft. Reads of sealed pages are authentic
      whatever the backend returns, and succeed when the frames are stored.
    - Cache: reads through it are transparent, its linked list refines a least-recently-used
      list, it stays within its budget in every reachable state, and it never holds a page
      the active file shadows.
    - SQLite's view: a transaction through the VFS is a transaction on a plain file, rolled back
      or published as a whole ([vfs_transaction_refines_file]); a failed write never reports
      contention and rolls back; and whatever files are open and whatever callbacks come, every
      checkpoint lease and every pending write has an open file that owns it
      ([obligations_have_owner]).
    - Sealing: each seal operation publishes one transition of an abstract protocol or
      nothing, and recovery after an interruption anywhere settles it. Sealing the commits of an
      open database, repacking and compaction change no page ([sealing_keeps_image],
      [repack_keeps_pages], [compaction_keeps_pages]); work that went stale while it was prepared
      is refused. Encoding on any number of threads gives what one thread gives; maintenance reads
      through windows give the records themselves, within stated bounds. Relocated packs are found
      at their new place with the bytes they had ([relocation_keeps_packs]).
    - Dictionaries: the reservoir holds the pages of lowest digests whatever their order, and a
      trained dictionary is adopted only when the held-out pages say it pays. The pool of related
      databases is the lowest digests of the union of their reservoirs, although each is read only
      up to the cutoff ([pool_is_lowest_of_related]), and a seed from them repays its own bytes
      ([seed_repays]).
    - Collection: whatever fails on the way, nothing is deleted that a root, a lease or an
      index needs; every rooted view opens and reads as before; and a collection with budget to
      spare leaves only what is needed. A retention can be released only with its token.
    - Records and containers: every codec is canonical (accepts exactly what its encoder
      writes) or round-trips, and what verifies can be trusted.
    - Catalog: publication is a compare-and-swap, a published state loads back, index chains
      are sound and durable. Placement: batched and direct reads agree, written blobs
      authenticate.

    ** Fuel and bounds

    Loops that are not structural take fuel and return [None] when it runs out, and each has
    a proof that its fuel is enough: streaming a pack (fuel: its length, [pack_copy_terminates]),
    batched reads of the store (the number of bytes, [read_at_returns_image]), batch reads of
    the cache (the number of pages, [read_many_authentic]), loading a manifest chain
    ([LOAD_FUEL] = 66, two more than the depth limit of 64, [load_metadata_terminates]), listing
    a backend (one more than the number of stored objects, [inventory_lemma]), trimming the
    reservoir (the number of its pages, [trim_loop_lemma]) and the
    pool (likewise, [pool_trim_lemma]). Chunked
    reads take one round per 64 MiB chunk, index chains at most [MAX_DEPTH] = 64 records,
    both bounds of the code itself.

    ** Not modelled

    Advisory locks and the interleaving of processes; directory syncs, renames and the
    filesystem backend (effects of the operating system); changing the layout of a
    database, leases and reference counts of handles; the deadlines and pauses of background work, which are answers
    of the host; opening and deleting a database by path, the registration of the VFS, its C
    pointers and its scheduler; conversion through SQLite, the command-line programs, counters and
    fault injection. *)

From stdpp Require Import base strings gmap list sorting.
From Stdlib Require Import ZArith Lia.
Open Scope Z_scope.

(** ** Machine integers

    An unsigned w-bit integer is a [Z] kept in range by the checks of the code.
    [usize] is the 64-bit one of the supported native targets. *)

Definition U16_MAX : Z := 2 ^ 16 - 1.
Definition U32_MAX : Z := 2 ^ 32 - 1.
Definition U64_MAX : Z := 2 ^ 64 - 1.

Definition is_u8 (v : Z) : Prop := 0 <= v < 256.
Definition is_u16 (v : Z) : Prop := 0 <= v < 65536.
Definition is_u32 (v : Z) : Prop := 0 <= v < 4294967296.
Definition is_u64 (v : Z) : Prop := 0 <= v < 18446744073709551616.

(** [u64::checked_add], [u64::checked_mul], [u64::checked_sub],
    [u64::saturating_add], [usize::saturating_sub]. *)
Definition checked_add (a b : Z) : option Z :=
  if a + b <=? U64_MAX then Some (a + b) else None.
Definition checked_mul (a b : Z) : option Z :=
  if a * b <=? U64_MAX then Some (a * b) else None.
Definition checked_sub (a b : Z) : option Z :=
  if b <=? a then Some (a - b) else None.
Definition saturating_add (a b : Z) : Z := Z.min (a + b) U64_MAX.
Definition saturating_sub (a b : Z) : Z := Z.max (a - b) 0.

Definition is_multiple_of (a b : Z) : bool :=
  if b =? 0 then a =? 0 else a mod b =? 0.

(** [is_power_of_two] of a positive word: exactly one bit is set. *)
Definition is_power_of_two (v : Z) : bool :=
  (0 <? v) && (Z.land v (v - 1) =? 0).

(** ** Fallible code

    [Result<A, E>] with the early return of [?]. *)

Inductive result (E A : Type) : Type :=
| Ok (a : A)
| Err (e : E).
Arguments Ok {E A} a.
Arguments Err {E A} e.

Definition rbind {E A B} (c : result E A) (k : A -> result E B) : result E B :=
  match c with
  | Ok a => k a
  | Err e => Err e
  end.

Definition map_err {E F A} (f : E -> F) (c : result E A) : result F A :=
  match c with
  | Ok a => Ok a
  | Err e => Err (f e)
  end.

Definition rmap {E A B} (f : A -> B) (c : result E A) : result E B :=
  match c with
  | Ok a => Ok (f a)
  | Err e => Err e
  end.

Definition ok_or {E A} (o : option A) (e : E) : result E A :=
  match o with
  | Some a => Ok a
  | None => Err e
  end.

Definition is_ok {E A} (c : result E A) : bool :=
  match c with Ok _ => true | Err _ => false end.

Declare Scope result_scope.
Delimit Scope result_scope with result.
Open Scope result_scope.

Notation "'let*' x ':=' c 'in' k" := (rbind c (fun x => k))
  (at level 10, x pattern, c at level 200, k at level 200,
   format "'[v' 'let*'  x  ':='  c  'in' '/' k ']'") : result_scope.
Notation "'fail_if' b 'with' e ;; k" := (if b then Err e else k)
  (at level 10, b at level 200, e at level 99, k at level 200,
   format "'[v' 'fail_if'  b  'with'  e  ;; '/' k ']'") : result_scope.

(** Loops over a finite sequence whose body may fail. *)
Fixpoint mfold {E A S} (f : S -> A -> result E S) (s : S) (l : list A) : result E S :=
  match l with
  | [] => Ok s
  | a :: l' => let* s' := f s a in mfold f s' l'
  end.

Fixpoint mmap {E A B} (f : A -> result E B) (l : list A) : result E (list B) :=
  match l with
  | [] => Ok []
  | a :: l' => let* b := f a in let* bs := mmap f l' in Ok (b :: bs)
  end.

(** ** Bytes *)

Abbreviation byte := Z (only parsing).
Abbreviation bytes := (list Z) (only parsing).

Definition zlen {A} (l : list A) : Z := Z.of_nat (length l).
Definition zeros (n : Z) : bytes := replicate (Z.to_nat n) 0.
Definition all_zero (l : bytes) : bool := forallb (fun b => b =? 0) l.
Abbreviation is_bytes l := (Forall is_u8 l).

(** [&l[a..b]] *)
Definition slice {A} (l : list A) (a b : Z) : list A :=
  take (Z.to_nat (b - a)) (drop (Z.to_nat a) l).

(** [l[i]] *)
Definition byte_at (l : bytes) (i : Z) : byte := nth (Z.to_nat i) l 0.

(** [l[a..a + bs.len()].copy_from_slice(bs)]; never changes the length. *)
Fixpoint overlay {A} (bs l : list A) : list A :=
  match bs, l with
  | b :: bs', _ :: l' => b :: overlay bs' l'
  | _, _ => l
  end.
Definition put {A} (l : list A) (a : Z) (bs : list A) : list A :=
  take (Z.to_nat a) l ++ overlay bs (drop (Z.to_nat a) l).

(** [to_le_bytes] and [from_le_bytes]. *)
Fixpoint le_bytes (n : nat) (v : Z) : bytes :=
  match n with
  | O => []
  | S n' => v mod 256 :: le_bytes n' (v / 256)
  end.
Fixpoint le_val (l : bytes) : Z :=
  match l with
  | [] => 0
  | b :: l' => b + 256 * le_val l'
  end.

(** The bytes of an ASCII literal, [b"..."]. *)
Definition ascii (s : String.string) : bytes :=
  map (fun c => Z.of_N (Ascii.N_of_ascii c)) (String.list_ascii_of_string s).

Definition bytes_eqb (a b : bytes) : bool := bool_decide (a = b).

(** ** Sorting

    [sort_unstable] and the order of a [BTreeMap]'s keys: insertion sort by a
    boolean comparison. *)
Fixpoint insert_sorted {A} (leb : A -> A -> bool) (x : A) (l : list A) : list A :=
  match l with
  | [] => [x]
  | y :: l' => if leb x y then x :: l else y :: insert_sorted leb x l'
  end.
Definition isort {A} (leb : A -> A -> bool) (l : list A) : list A :=
  foldr (insert_sorted leb) [] l.

(** ** Third-party hash functions

    crc32fast and blake3 are parameters of the model; the code relies on a
    checksum being a [u32] and on a digest being 32 bytes. *)

Class Hashes : Type := {
  crc32 : bytes -> Z;
  blake3 : bytes -> bytes;
}.
Class HashesOk (H : Hashes) : Prop := {
  crc32_u32 : forall b, is_u32 (crc32 b);
  blake3_length : forall b, zlen (blake3 b) = 32;
  blake3_bytes : forall b, is_bytes (blake3 b);
}.

(** A concrete instance (a polynomial checksum and its 32-byte expansion), for
    witnesses that evaluate the definitions. *)
Definition sum_hash (b : bytes) : Z := fold_left (fun h x => (h * 131 + x + 1) mod 4294967291) b 7.
Definition demo_hashes : Hashes := {|
  crc32 := sum_hash;
  blake3 b := le_bytes 32 (sum_hash b * 257 + 1);
|}.

(** ** Lemmas of the error monad and of checked arithmetic *)

Lemma checked_add_Some a b c :
  checked_add a b = Some c <-> c = a + b /\ a + b <= U64_MAX.
Proof. unfold checked_add; destruct (Z.leb_spec (a + b) U64_MAX); naive_solver lia. Qed.

Lemma checked_mul_Some a b c :
  checked_mul a b = Some c <-> c = a * b /\ a * b <= U64_MAX.
Proof. unfold checked_mul; destruct (Z.leb_spec (a * b) U64_MAX); naive_solver lia. Qed.

Lemma checked_sub_Some a b c :
  checked_sub a b = Some c <-> c = a - b /\ b <= a.
Proof. unfold checked_sub; destruct (Z.leb_spec b a); naive_solver lia. Qed.

Lemma rbind_Ok {E A B} (c : result E A) (k : A -> result E B) b :
  rbind c k = Ok b <-> exists a, c = Ok a /\ k a = Ok b.
Proof. destruct c; naive_solver. Qed.

Lemma map_err_Ok {E F A} (f : E -> F) (c : result E A) a :
  map_err f c = Ok a <-> c = Ok a.
Proof. destruct c; naive_solver. Qed.

Lemma ok_or_Ok {E A} (o : option A) (e : E) a :
  ok_or o e = Ok a <-> o = Some a.
Proof. destruct o; naive_solver. Qed.

Lemma rmap_Ok {E A B} (f : A -> B) (c : result E A) b :
  rmap f c = Ok b <-> exists a, c = Ok a /\ f a = b.
Proof. destruct c; naive_solver. Qed.

Lemma fail_if_Ok {E A} (b : bool) (e : E) (k : result E A) v :
  (if b then Err e else k) = Ok v <-> b = false /\ k = Ok v.
Proof. destruct b; naive_solver. Qed.

Lemma mmap_Ok {E A B} (f : A -> result E B) l bs :
  mmap f l = Ok bs <-> Forall2 (fun a b => f a = Ok b) l bs.
Proof.
  revert bs; induction l as [|a l IH]; intros bs; simpl.
  - split; [intros [= <-]; constructor | intros H; inversion H; done].
  - rewrite rbind_Ok; split.
    + intros (b & Hb & H); apply rbind_Ok in H as (bs' & Hbs & [= <-]).
      constructor; [done | by apply IH].
    + intros H; inversion H as [|? b ? bs' Hb Hbs]; subst.
      exists b; split; [done |]. apply IH in Hbs. by rewrite Hbs.
Qed.

Lemma mmap_each {E A C} (f : A -> result E C) l cs a : mmap f l = Ok cs -> a ∈ l -> exists c, f a = Ok c.
Proof.
  intros Em Ha. apply mmap_Ok in Em. apply list_elem_of_lookup in Ha as [i Hi].
  destruct (Forall2_lookup_l _ _ _ _ _ Em Hi) as (c & _ & Hc). eauto.
Qed.

Lemma mmap_total {E A C} (f : A -> result E C) l : (forall a, a ∈ l -> exists c, f a = Ok c) -> exists cs, mmap f l = Ok cs.
Proof.
  induction l as [|a l IH]; intros Hl; [by eexists|]. cbn [mmap]. destruct (Hl a ltac:(by left)) as [c ->].
  destruct IH as [cs ->]; [intros; apply Hl; by right|]. by eexists.
Qed.

Lemma mmap_ext_in {E A C} (f1 f2 : A -> result E C) l : (forall a, a ∈ l -> f1 a = f2 a) -> mmap f1 l = mmap f2 l.
Proof.
  induction l as [|a l IH]; intros Hl; [done|]. cbn [mmap]. rewrite (Hl a) by (by left).
  rewrite IH by (intros; apply Hl; by right). done.
Qed.

Lemma mmap_app {E A C} (f : A -> result E C) l k :
  mmap f (l ++ k) = let* a := mmap f l in let* b := mmap f k in Ok (a ++ b).
Proof.
  induction l as [|x l IH]; cbn [app mmap]; [by destruct (mmap f k)|]. rewrite IH. destruct (f x); [|done]. cbn [rbind].
  destruct (mmap f l); [|done]. cbn [rbind]. by destruct (mmap f k).
Qed.

Lemma mfold_app {E A S} (f : S -> A -> result E S) l1 l2 s :
  mfold f s (l1 ++ l2) = let* s1 := mfold f s l1 in mfold f s1 l2.
Proof.
  revert s. induction l1 as [|a l1 IH]; intros s; cbn [app mfold]; [done|].
  destruct (f s a) as [s1|e]; cbn [rbind]; [apply IH|done].
Qed.

Lemma mfold_inv {E A S} (f : S -> A -> result E S) (P : list A -> S -> Prop) l s s' :
  P [] s -> (forall done a s s', P done s -> f s a = Ok s' -> P (done ++ [a]) s') ->
  mfold f s l = Ok s' -> P l s'.
Proof.
  intros H0 Hstep. revert s' H0. induction l as [|a l IH] using rev_ind; intros s' H0 Hf; cbn in Hf.
  - by injection Hf as <-.
  - rewrite mfold_app in Hf. apply rbind_Ok in Hf as (s1 & H1 & H2). cbn in H2.
    apply rbind_Ok in H2 as (s2 & H2 & H3). injection H3 as <-. eauto.
Qed.

Lemma elem_of_snoc {A} (l : list A) x y : y ∈ l ++ [x] <-> y = x \/ y ∈ l.
Proof. rewrite elem_of_app, list_elem_of_singleton. tauto. Qed.

Lemma last_Some_inv {A} (l : list A) x : last l = Some x -> exists k, l = k ++ [x] /\ removelast l = k.
Proof.
  intros E. apply last_Some in E as [k ->]. exists k. split; [done|]. apply removelast_last.
Qed.

Lemma Ok_inj {E A} (a b : A) : @Ok E A a = Ok b -> a = b.
Proof. by intros [= ->]. Qed.

Lemma Some_inj_eq {A} (a b : A) : Some a = Some b -> a = b.
Proof. by intros [= ->]. Qed.

(** [inv_ok] turns an equation [... = Ok _] about a chain of binds, guards and
    conversions into the facts that made every step succeed. *)
Ltac inv_ok_step :=
  match goal with
  | H : Ok (_, _) = Ok (_, _) |- _ =>
      let H2 := fresh "Hst" in apply Ok_inj, pair_equal_spec in H as [H H2]
  | H : Ok _ = Ok _ |- _ => apply Ok_inj in H
  | H : (_, _) = (_, _) |- _ =>
      let H2 := fresh "Hst" in apply pair_equal_spec in H as [H H2]
  | H : Err _ = Ok _ |- _ => discriminate H
  | H : Some _ = Some _ |- _ => apply Some_inj_eq in H
  | H : None = Some _ |- _ => discriminate H
  | H : rbind _ _ = Ok _ |- _ =>
      let a := fresh "a" in let Ha := fresh "Hok" in
      apply rbind_Ok in H as (a & Ha & H); cbn beta in H
  | H : map_err _ _ = Ok _ |- _ => apply map_err_Ok in H
  | H : ok_or _ _ = Ok _ |- _ => apply ok_or_Ok in H
  | H : (if _ then Err _ else _) = Ok _ |- _ =>
      let Hb := fresh "Hguard" in apply fail_if_Ok in H as [Hb H]
  end.
Ltac inv_ok := repeat inv_ok_step.

(** Splits boolean guards into facts [lia] understands. *)
Ltac bools :=
  repeat match goal with
  | H : _ || _ = false |- _ => apply orb_false_elim in H as [? H]
  | H : _ && _ = true |- _ => apply andb_true_iff in H as [? H]
  | H : negb _ = true |- _ => apply negb_true_iff in H
  | H : negb _ = false |- _ => apply negb_false_iff in H
  | H : bool_decide _ = true |- _ => apply bool_decide_eq_true in H
  | H : bool_decide _ = false |- _ => apply bool_decide_eq_false in H
  end.

(** ** Lemmas of byte slices

    Lengths are rewritten to their value by [lens]; [slices] pushes a slice
    through a chain of [put]s to the one that wrote it. *)

Create HintDb bytedb.
Create Rewrite HintDb zlens.

Lemma zlen_nonneg {A} (l : list A) : 0 <= zlen l.
Proof. unfold zlen; lia. Qed.

Lemma zlen_nil {A} : zlen (@nil A) = 0.
Proof. done. Qed.

Lemma zlen_cons {A} (x : A) l : zlen (x :: l) = 1 + zlen l.
Proof. unfold zlen; simpl length; lia. Qed.

Lemma zlen_app {A} (l k : list A) : zlen (l ++ k) = zlen l + zlen k.
Proof. unfold zlen; rewrite length_app; lia. Qed.

Lemma length_overlay {A} (bs l : list A) : length (overlay bs l) = length l.
Proof. revert l; induction bs as [|b bs IH]; intros [|x l]; simpl; auto. Qed.

Lemma zlen_put {A} (l : list A) a bs : zlen (put l a bs) = zlen l.
Proof.
  unfold zlen, put.
  rewrite length_app, length_overlay, length_take, length_drop; lia.
Qed.

Lemma zlen_zeros n : 0 <= n -> zlen (zeros n) = n.
Proof. intros; unfold zlen, zeros; rewrite length_replicate; lia. Qed.

Lemma length_le_bytes n v : length (le_bytes n v) = n.
Proof. revert v; induction n; intros; simpl; auto. Qed.

Lemma zlen_le_bytes n v : zlen (le_bytes n v) = Z.of_nat n.
Proof. unfold zlen; by rewrite length_le_bytes. Qed.

Lemma zlen_slice {A} (l : list A) a b :
  0 <= a -> a <= b -> b <= zlen l -> zlen (slice l a b) = b - a.
Proof. intros; unfold zlen, slice in *; rewrite length_take, length_drop; lia. Qed.

#[export] Hint Rewrite @zlen_put @zlen_app @zlen_cons @zlen_nil zlen_le_bytes : zlens.
#[export] Hint Rewrite zlen_zeros using lia : zlens.

Ltac lens := autorewrite with zlens in *.

Lemma slice_nil_ge {A} (l : list A) a b : b <= a -> slice l a b = [].
Proof. intros; unfold slice; by replace (Z.to_nat (b - a)) with O by lia. Qed.

Lemma slice_all {A} (l : list A) n : zlen l = n -> slice l 0 n = l.
Proof.
  intros <-; unfold slice, zlen.
  rewrite Z.sub_0_r, Nat2Z.id; simpl; by rewrite drop_0, take_ge.
Qed.

Lemma slice_app_split {A} (l : list A) a b c :
  0 <= a -> a <= b -> b <= c -> slice l a c = slice l a b ++ slice l b c.
Proof.
  intros; unfold slice.
  replace (Z.to_nat (c - a)) with (Z.to_nat (b - a) + Z.to_nat (c - b))%nat by lia.
  rewrite <- take_take_drop. f_equal. rewrite drop_drop. f_equal. f_equal. lia.
Qed.

Lemma take_overlay {A} (bs l : list A) :
  (length bs <= length l)%nat -> take (length bs) (overlay bs l) = bs.
Proof.
  revert l; induction bs as [|b bs IH]; intros [|x l]; simpl; try lia; auto.
  intros; f_equal; apply IH; lia.
Qed.

Lemma overlay_full {A} (bs l : list A) : zlen l = zlen bs -> overlay bs l = bs.
Proof.
  unfold zlen. intros Hl. rewrite <- (take_ge (overlay bs l) (length bs)) by (rewrite length_overlay; lia).
  apply take_overlay. lia.
Qed.

Lemma drop_overlay {A} (bs l : list A) n :
  (length bs <= n)%nat -> drop n (overlay bs l) = drop n l.
Proof.
  revert l n; induction bs as [|b bs IH]; intros [|x l] [|n]; simpl; intros; try lia; auto.
  apply IH; lia.
Qed.

Lemma slice_put_same {A} (l : list A) a b bs :
  0 <= a -> b = a + zlen bs -> b <= zlen l -> slice (put l a bs) a b = bs.
Proof.
  intros; subst; unfold slice, put, zlen in *.
  rewrite drop_app_length' by (rewrite length_take; lia).
  replace (Z.to_nat (a + Z.of_nat (length bs) - a)) with (length bs) by lia.
  apply take_overlay. rewrite length_drop; lia.
Qed.

Lemma slice_put_before {A} (l : list A) a a' b bs :
  0 <= a -> b <= a' -> slice (put l a' bs) a b = slice l a b.
Proof.
  intros; unfold slice, put.
  destruct (decide (b <= a)); [by replace (Z.to_nat (b - a)) with O by lia|].
  destruct (decide (Z.to_nat a <= length (take (Z.to_nat a') l))%nat) as [Hle|Hgt].
  - rewrite drop_app_le by done.
    rewrite skipn_firstn_comm, take_app.
    rewrite take_take, length_take, length_drop.
    destruct (decide (Z.to_nat b <= length l)%nat).
    + replace (Z.to_nat (b - a) - _)%nat with O by lia.
      rewrite take_0, app_nil_r. f_equal; lia.
    + rewrite (drop_ge l (Z.to_nat a')) by lia. destruct bs; simpl;
        rewrite ?take_nil, ?app_nil_r; rewrite !take_ge; rewrite ?length_drop; try done; lia.
  - rewrite length_take in Hgt.
    rewrite (drop_ge l (Z.to_nat a)) by lia.
    rewrite (drop_ge l (Z.to_nat a')) by lia.
    destruct bs; simpl; rewrite app_nil_r, drop_ge by (rewrite length_take; lia); done.
Qed.

Lemma slice_put_after {A} (l : list A) a a' b bs :
  0 <= a' -> a' + zlen bs <= a -> slice (put l a' bs) a b = slice l a b.
Proof.
  intros; unfold slice, put, zlen in *. f_equal.
  destruct (decide (Z.to_nat a' <= length l)%nat).
  - rewrite drop_app_ge by (rewrite length_take; lia).
    rewrite length_take, drop_overlay by lia.
    rewrite drop_drop. f_equal; lia.
  - rewrite (drop_ge l (Z.to_nat a')) by lia.
    rewrite take_ge by lia. destruct bs; simpl; by rewrite app_nil_r.
Qed.

Lemma slice_zeros n a b :
  0 <= a -> b <= n -> slice (zeros n) a b = zeros (b - a).
Proof.
  intros; unfold slice, zeros. rewrite drop_replicate, take_replicate. f_equal; lia.
Qed.

Lemma slice_slice {A} (l : list A) a b c d :
  0 <= a -> 0 <= c -> d <= b - a -> slice (slice l a b) c d = slice l (a + c) (a + d).
Proof.
  intros; unfold slice.
  rewrite skipn_firstn_comm, take_take, drop_drop. f_equal; [lia|]. f_equal; lia.
Qed.

Lemma slice_mid {A} (p q s : list A) a b :
  a = zlen p -> b = zlen p + zlen q -> slice (p ++ q ++ s) a b = q.
Proof.
  intros -> ->. unfold slice, zlen. rewrite Nat2Z.id, drop_app_length.
  replace (Z.to_nat (Z.of_nat (length p) + Z.of_nat (length q) - Z.of_nat (length p)))
    with (length q) by lia. apply take_app_length.
Qed.

Lemma slice_at {A} (b x : list A) offset a c :
  0 <= offset <= zlen b -> slice b offset (zlen b) = x -> 0 <= a -> c <= zlen x ->
  slice b (offset + a) (offset + c) = slice x a c.
Proof.
  intros Ho <- Ha Hc. rewrite zlen_slice in Hc by lia. by rewrite slice_slice by lia.
Qed.

Lemma byte_at_slice l i : 0 <= i < zlen l -> slice l i (i + 1) = [byte_at l i].
Proof.
  intros; unfold slice, byte_at, zlen in *.
  replace (Z.to_nat (i + 1 - i)) with 1%nat by lia.
  destruct (lookup_lt_is_Some_2 l (Z.to_nat i)) as [x Hx]; [lia|].
  rewrite (drop_S _ x) by done. simpl. rewrite take_0.
  by rewrite (nth_lookup_Some _ _ _ _ Hx).
Qed.

Lemma byte_at_of_slice l i x : slice l i (i + 1) = [x] -> byte_at l i = x.
Proof.
  unfold slice, byte_at. replace (Z.to_nat (i + 1 - i)) with 1%nat by lia. intros H.
  destruct (drop (Z.to_nat i) l) as [|y k] eqn:E; simpl in H; [done|].
  injection H as ->.
  rewrite <- (take_drop (Z.to_nat i) l), E.
  assert (length (take (Z.to_nat i) l) = Z.to_nat i) as Hl.
  { rewrite length_take. apply (f_equal length) in E.
    rewrite length_drop in E; simpl in E; lia. }
  rewrite app_nth2 by lia. by rewrite Hl, Nat.sub_diag.
Qed.

Lemma byte_at_put_ne l a bs i :
  0 <= a -> 0 <= i -> i < a \/ a + zlen bs <= i -> i < zlen l ->
  byte_at (put l a bs) i = byte_at l i.
Proof.
  intros. apply byte_at_of_slice.
  destruct H1; [rewrite slice_put_before by lia | rewrite slice_put_after by lia];
    by apply byte_at_slice.
Qed.

Lemma byte_at_put_eq l i x : 0 <= i < zlen l -> byte_at (put l i [x]) i = x.
Proof.
  intros. apply byte_at_of_slice. apply slice_put_same; rewrite ?zlen_cons, ?zlen_nil; lia.
Qed.

Lemma byte_at_zeros n i : byte_at (zeros n) i = 0.
Proof.
  unfold byte_at, zeros. generalize (Z.to_nat n) as m, (Z.to_nat i) as k.
  induction m; intros [|k]; simpl; auto.
Qed.

(** Two arrays are equal when their slices between the cut points are. *)
Fixpoint slices_agree {A} (a : Z) (cuts : list Z) (l k : list A) : Prop :=
  match cuts with
  | [] => slice l a (zlen l) = slice k a (zlen l)
  | c :: cs => a <= c /\ slice l a c = slice k a c /\ slices_agree c cs l k
  end.

Lemma drop_slice_end {A} (l : list A) a n :
  0 <= a -> zlen l = n -> slice l a n = drop (Z.to_nat a) l.
Proof. intros ? <-; unfold slice, zlen. apply take_ge. rewrite length_drop; lia. Qed.

Lemma slices_agree_drop {A} cuts (l k : list A) a :
  0 <= a -> zlen l = zlen k -> slices_agree a cuts l k ->
  drop (Z.to_nat a) l = drop (Z.to_nat a) k.
Proof.
  revert a; induction cuts as [|c cs IH]; intros a Ha Hl; simpl.
  - by rewrite !drop_slice_end.
  - intros (Hc & He & Hs). apply IH in Hs; [|lia|done].
    rewrite <- (take_drop (Z.to_nat (c - a)) (drop (Z.to_nat a) l)).
    rewrite <- (take_drop (Z.to_nat (c - a)) (drop (Z.to_nat a) k)).
    unfold slice in He. rewrite He, !drop_drop. f_equal.
    by replace (Z.to_nat a + Z.to_nat (c - a))%nat with (Z.to_nat c) by lia.
Qed.

Lemma slices_agree_eq {A} cuts (l k : list A) :
  zlen l = zlen k -> slices_agree 0 cuts l k -> l = k.
Proof. intros Hl H. by apply (slices_agree_drop cuts l k 0) in H. Qed.

(** The same for a prefix: the slices up to the last cut point. *)
Fixpoint slices_upto {A} (a : Z) (cuts : list Z) (l k : list A) : Prop :=
  match cuts with
  | [] => True
  | c :: cs => a <= c /\ slice l a c = slice k a c /\ slices_upto c cs l k
  end.

Definition final_cut (a : Z) (cuts : list Z) : Z := fold_left (fun _ c => c) cuts a.

Lemma slices_upto_last {A} cuts (l k : list A) a :
  0 <= a -> slices_upto a cuts l k ->
  a <= final_cut a cuts /\ slice l a (final_cut a cuts) = slice k a (final_cut a cuts).
Proof.
  revert a; induction cuts as [|c cs IH]; intros a Ha; simpl.
  - intros _. split; [lia|]. by rewrite !slice_nil_ge by lia.
  - intros (Hc & He & Hs). apply IH in Hs as [Hle Hs]; [|lia]. split; [lia|].
    rewrite (slice_app_split l a c), (slice_app_split k a c) by lia. by rewrite He, Hs.
Qed.

Lemma all_zero_spec l : all_zero l = true <-> l = zeros (zlen l).
Proof.
  unfold all_zero, zeros, zlen. rewrite Nat2Z.id, forallb_forall. split.
  - intros H. symmetry; apply replicate_as_elem_of. split; [done|].
    intros y Hy. apply list_elem_of_In, H in Hy. lia.
  - intros -> x Hx. apply list_elem_of_In, elem_of_replicate in Hx as [-> _]. done.
Qed.

Lemma all_zero_zeros n : all_zero (zeros n) = true.
Proof.
  unfold all_zero, zeros. apply forallb_forall.
  intros x Hx. apply list_elem_of_In, elem_of_replicate in Hx as [-> _]. done.
Qed.

Lemma bytes_eqb_true a b : bytes_eqb a b = true <-> a = b.
Proof. apply bool_decide_eq_true. Qed.

Lemma bytes_eqb_false a b : bytes_eqb a b = false <-> a <> b.
Proof. apply bool_decide_eq_false. Qed.

Lemma bytes_eqb_refl a : bytes_eqb a a = true.
Proof. by apply bytes_eqb_true. Qed.

(** [bools], with byte comparisons turned into equations. *)
Ltac guards :=
  bools;
  repeat match goal with
  | H : bytes_eqb _ _ = true |- _ => apply bytes_eqb_true in H
  | H : bytes_eqb _ _ = false |- _ => apply bytes_eqb_false in H
  end.

Lemma is_bytes_slice l a b : is_bytes l -> is_bytes (slice l a b).
Proof. intros; unfold slice. by apply Forall_take, Forall_drop. Qed.

Lemma is_bytes_zeros n : is_bytes (zeros n).
Proof. apply Forall_replicate. unfold is_u8; lia. Qed.

Lemma byte_at_u8 l i : is_bytes l -> is_u8 (byte_at l i).
Proof.
  intros H; unfold byte_at. destruct (nth_in_or_default (Z.to_nat i) l 0) as [Hin| ->].
  - rewrite Forall_forall in H. apply H. by apply list_elem_of_In.
  - unfold is_u8; lia.
Qed.

(** The decidable form, for concrete arrays. *)
Definition bytes_check (l : bytes) : bool := forallb (fun b => (0 <=? b) && (b <? 256)) l.

Lemma bytes_check_ok l : bytes_check l = true -> is_bytes l.
Proof.
  unfold bytes_check. rewrite forallb_forall, Forall_forall. intros H x Hx.
  apply list_elem_of_In, H in Hx. unfold is_u8. lia.
Qed.

Lemma is_bytes_overlay bs l : is_bytes bs -> is_bytes l -> is_bytes (overlay bs l).
Proof.
  revert l; induction bs as [|b bs IH]; intros [|y l] Hb Hl; simpl; auto.
  inversion Hl; inversion Hb; subst; auto.
Qed.

Lemma is_bytes_put l a bs : is_bytes l -> is_bytes bs -> is_bytes (put l a bs).
Proof.
  intros; unfold put. apply Forall_app; split; [by apply Forall_take|].
  by apply is_bytes_overlay; [|apply Forall_drop].
Qed.

(** ** Little-endian integers *)

Lemma is_bytes_le_bytes n v : is_bytes (le_bytes n v).
Proof.
  revert v; induction n; intros; simpl; constructor; auto.
  unfold is_u8; apply Z.mod_pos_bound; lia.
Qed.

Lemma le_val_bytes n v : le_val (le_bytes n v) = v mod 256 ^ Z.of_nat n.
Proof.
  revert v; induction n as [|n IH]; intros; simpl le_val.
  - by rewrite Z.mod_1_r.
  - rewrite IH, Nat2Z.inj_succ, Z.pow_succ_r by lia.
    rewrite Z.rem_mul_r; lia.
Qed.

Lemma le_val_bytes_small n v : 0 <= v < 256 ^ Z.of_nat n -> le_val (le_bytes n v) = v.
Proof. intros; rewrite le_val_bytes. by apply Z.mod_small. Qed.

Lemma le_val_bound l : is_bytes l -> 0 <= le_val l < 256 ^ zlen l.
Proof.
  induction 1 as [|b l Hb Hl IH]; [done|].
  rewrite zlen_cons, Z.pow_add_r, Z.pow_1_r by (unfold zlen; lia).
  cbn [le_val]. unfold is_u8 in Hb. lia.
Qed.

Lemma le_bytes_val l n : is_bytes l -> length l = n -> le_bytes n (le_val l) = l.
Proof.
  intros H; revert n; induction H as [|b l Hb Hl IH]; intros [|n]; simpl; try done.
  intros [= Hn]. unfold is_u8 in Hb. f_equal.
  - rewrite Z.mul_comm, Z.mod_add by lia. apply Z.mod_small; lia.
  - rewrite Z.mul_comm, Z.div_add by lia. rewrite Z.div_small by lia. by apply IH.
Qed.

Lemma le_val_u16 l : is_bytes l -> zlen l = 2 -> is_u16 (le_val l).
Proof. intros H Hl; apply le_val_bound in H; rewrite Hl in H; unfold is_u16; lia. Qed.

Lemma le_val_u32 l : is_bytes l -> zlen l = 4 -> is_u32 (le_val l).
Proof. intros H Hl; apply le_val_bound in H; rewrite Hl in H; unfold is_u32; lia. Qed.

Lemma le_val_u64 l : is_bytes l -> zlen l = 8 -> is_u64 (le_val l).
Proof. intros H Hl; apply le_val_bound in H; rewrite Hl in H; unfold is_u64; lia. Qed.

Lemma le_val_zeros n : le_val (zeros n) = 0.
Proof. unfold zeros; induction (Z.to_nat n); simpl; lia. Qed.

Lemma le_bytes_0 n : le_bytes n 0 = zeros (Z.of_nat n).
Proof.
  unfold zeros; rewrite Nat2Z.id. induction n; simpl; [done|].
  by rewrite Z.mod_0_l, Z.div_0_l, IHn by lia.
Qed.

#[export] Hint Resolve is_bytes_slice is_bytes_zeros is_bytes_le_bytes is_bytes_put
  byte_at_u8 zlen_nonneg : bytedb.

Lemma sum_hash_bound b : 0 <= sum_hash b < 4294967291.
Proof.
  unfold sum_hash. rewrite <- (reverse_involutive b). generalize (reverse b) as r.
  induction r as [|x r IH]; [simpl; lia|].
  rewrite reverse_cons, fold_left_app. simpl. apply Z.mod_pos_bound; lia.
Qed.

Lemma demo_hashes_ok : HashesOk demo_hashes.
Proof.
  split; intros b; cbn [crc32 blake3 demo_hashes].
  - pose proof (sum_hash_bound b). unfold is_u32; lia.
  - apply zlen_le_bytes.
  - apply is_bytes_le_bytes.
Qed.

Lemma is_bytes_ascii s : is_bytes (ascii s).
Proof.
  unfold ascii. apply Forall_forall. intros x Hx%list_elem_of_fmap.
  destruct Hx as (c & -> & _). pose proof (Ascii.N_ascii_bounded c). unfold is_u8; lia.
Qed.
#[export] Hint Resolve is_bytes_ascii blake3_bytes : bytedb.

Arguments slice : simpl never.
Arguments ascii : simpl never.
Arguments put : simpl never.
Arguments zeros : simpl never.
Arguments zlen : simpl never.
Arguments byte_at : simpl never.
Arguments le_bytes : simpl never.
Arguments le_val : simpl never.
Arguments bytes_eqb : simpl never.
Arguments all_zero : simpl never.

Ltac len_side := autorewrite with zlens; lia.

(** Evaluates reads of an array built by [put]s on constant offsets. *)
Ltac slices_step :=
  match goal with
  | |- context [slice (put ?l ?a ?bs) ?c ?d] =>
      first [ rewrite (slice_put_same l a d bs) by len_side
            | rewrite (slice_put_before l c a d bs) by len_side
            | rewrite (slice_put_after l c a d bs) by len_side ]
  | |- context [byte_at (put ?l ?a [?x]) ?a] =>
      rewrite (byte_at_put_eq l a x) by len_side
  | |- context [byte_at (put ?l ?a ?bs) ?c] =>
      rewrite (byte_at_put_ne l a bs c) by len_side
  | |- context [slice (zeros ?n) ?a ?b] => rewrite (slice_zeros n a b) by lia
  | |- context [byte_at (zeros ?n) ?a] => rewrite (byte_at_zeros n a)
  end.
Ltac slices := repeat slices_step.

(** A fixed-offset record is a sequence of writes [(offset, width, bytes)] over
    an array; [read_back] finds the write that last covered a field. *)
Definition write : Type := Z * Z * bytes.

Definition writes (o : bytes) (ws : list write) : bytes :=
  fold_left (fun o '(a, _, bs) => put o a bs) ws o.

Definition write_fits (n : Z) (w : write) : Prop :=
  let '(a, k, bs) := w in zlen bs = k /\ 0 <= a /\ a + k <= n.

Fixpoint read_rev (base : bytes) (rws : list write) (a b : Z) : bytes :=
  match rws with
  | [] => slice base a b
  | (o, w, bs) :: r =>
      if (o =? a) && (o + w =? b) then bs
      else if (b <=? o) || (o + w <=? a) then read_rev base r a b
      else slice (writes base (reverse rws)) a b
  end.

Lemma writes_snoc o ws a w bs : writes o (ws ++ [(a, w, bs)]) = put (writes o ws) a bs.
Proof. unfold writes. by rewrite fold_left_app. Qed.

Lemma zlen_writes o ws : zlen (writes o ws) = zlen o.
Proof.
  induction ws as [|[[a w] bs] ws IH] using rev_ind; [done|].
  by rewrite writes_snoc, zlen_put.
Qed.

Lemma read_back base ws a b :
  0 <= a -> Forall (write_fits (zlen base)) ws ->
  slice (writes base ws) a b = read_rev base (reverse ws) a b.
Proof.
  intros Ha Hf. apply Forall_reverse in Hf.
  rewrite <- (reverse_involutive ws) at 1.
  induction Hf as [|[[o w] bs] r (Hw & Ho & Hn) _ IH]; [done|]. simpl.
  rewrite reverse_cons, writes_snoc.
  destruct ((o =? a) && (o + w =? b)) eqn:E1.
  { bools. assert (a = o) as -> by lia. apply slice_put_same; rewrite ?zlen_writes; lia. }
  destruct ((b <=? o) || (o + w <=? a)) eqn:E2; [|done].
  rewrite <- IH. apply orb_true_iff in E2 as [|].
  - apply slice_put_before; lia.
  - apply slice_put_after; lia.
Qed.

Lemma byte_at_read_back base ws i x :
  0 <= i -> Forall (write_fits (zlen base)) ws ->
  read_rev base (reverse ws) i (i + 1) = [x] -> byte_at (writes base ws) i = x.
Proof. intros ? ? H. apply byte_at_of_slice. by rewrite read_back. Qed.

Lemma is_bytes_writes base ws :
  is_bytes base -> Forall (fun w : write => is_bytes w.2) ws -> is_bytes (writes base ws).
Proof.
  intros Hb H. induction ws as [|[[a w] bs] ws IH] using rev_ind; [done|].
  apply Forall_app in H as [H1 H2]. inversion H2; subst.
  rewrite writes_snoc. apply is_bytes_put; auto.
Qed.

Arguments writes : simpl never.

(** ** Lemmas of sorting *)

Lemma insert_sorted_perm {A} (leb : A -> A -> bool) x l : insert_sorted leb x l ≡ₚ x :: l.
Proof.
  induction l as [|y l IH]; simpl; [done|]. destruct (leb x y); [done|].
  rewrite IH. apply Permutation_swap.
Qed.

Lemma isort_perm {A} (leb : A -> A -> bool) l : isort leb l ≡ₚ l.
Proof.
  induction l as [|x l IH]; simpl; [done|]. by rewrite insert_sorted_perm, IH.
Qed.

Section Sorting.
Context {A : Type} (leb : A -> A -> bool).
Context (leb_total : forall a b, leb a b = true \/ leb b a = true).
Context (leb_trans : forall a b c, leb a b = true -> leb b c = true -> leb a c = true).

Lemma insert_sorted_sorted x l :
  StronglySorted (fun a b => leb a b = true) l ->
  StronglySorted (fun a b => leb a b = true) (insert_sorted leb x l).
Proof.
  induction 1 as [|y l Hl IH Hy]; simpl; [by repeat constructor|].
  destruct (leb x y) eqn:E.
  - constructor; [by constructor|]. constructor; [done|].
    eapply Forall_impl; [exact Hy|]. intros z Hz. by eapply leb_trans.
  - constructor; [done|]. rewrite insert_sorted_perm. constructor; [|done].
    destruct (leb_total x y); congruence.
Qed.

Lemma isort_sorted l : StronglySorted (fun a b => leb a b = true) (isort leb l).
Proof. induction l; simpl; [constructor|]. by apply insert_sorted_sorted. Qed.

(** The head of the sorted list is a least element. *)
Lemma isort_head l x :
  head (isort leb l) = Some x -> x ∈ l /\ forall y, y ∈ l -> leb x y = true.
Proof.
  pose proof (isort_sorted l) as Hs. pose proof (isort_perm leb l) as Hp.
  destruct (isort leb l) as [|z k]; [done|]. intros [= ->]. inversion Hs; subst.
  split; [rewrite <- Hp; by left|]. intros y Hy. rewrite <- Hp in Hy.
  apply elem_of_cons in Hy as [->|Hy].
  - destruct (leb_total x x); done.
  - rewrite Forall_forall in *. auto.
Qed.

Lemma isort_head_None l : head (isort leb l) = None <-> l = [].
Proof.
  pose proof (isort_perm leb l) as Hp. destruct (isort leb l) as [|z k]; simpl.
  - split; [|done]. intros _. by apply Permutation_nil in Hp.
  - split; [done|]. intros ->. symmetry in Hp. by apply Permutation_nil in Hp.
Qed.
End Sorting.
