(* ===== verification/Domain.v ===== *)
(** Validated storage values (src/src/domain.rs).

    Every newtype of the source with a private field is a [Z] (or a record of
    such) that only its constructor function produces; the predicates [*_ok]
    state what a constructor establishes. The macro-generated 32-byte
    identities are [Digest]s: byte lists of length 32. *)

From S2P Require Import Prelude.
From stdpp Require Import base strings gmap list sorting.
From Stdlib Require Import ZArith Lia.
Open Scope Z_scope.

(** ** Error values *)

Inductive ValueError : Set := ValueErr.

Inductive FormatError : Set :=
| FTruncated
| FVersion
| FInvalid
| FChecksum
| FDigest
| FTooLarge.

(** Failures of a backend call (src/src/storage/adapter.rs), without their messages. *)
Inductive BackendError : Set :=
| BIo
| BTransport
| BMissing
| BIdentityMismatch
| BInvalidData
| BRange
| BStale
| BUncertain
| BWrongNamespace.

Inductive StoreError : Set :=
| Backend (e : BackendError)
| NoSealedHead
| StaleAttachment
| Value (e : ValueError)
| PublicationUncertain
| Io
| Format (e : FormatError)
| MissingSidecar
| IdentityMismatch
| Corrupt (offset : Z)
| Busy
| UnknownPageSize
| InvalidPageSize (size : Z)
| InvalidPageLength (page_no actual expected : Z)
| PageChecksumError (page_no : Z)
| Range
| Zstd
| NotZsqlite
| ReadOnly
| DestinationExists
| RetentionExists
| InvalidStandardDatabase
| Unsupported
| InvalidConfiguration.

#[export] Instance ValueError_eq_dec : EqDecision ValueError.
Proof. solve_decision. Defined.
#[export] Instance FormatError_eq_dec : EqDecision FormatError.
Proof. solve_decision. Defined.
#[export] Instance BackendError_eq_dec : EqDecision BackendError.
Proof. solve_decision. Defined.
#[export] Instance StoreError_eq_dec : EqDecision StoreError.
Proof. solve_decision. Defined.

(** [?] on a [Result<_, ValueError>] or a [Result<_, FormatError>] inside a
    function that returns [StoreError]. *)
Definition value {A} (c : result ValueError A) : result StoreError A := map_err Value c.
Definition format {A} (c : result FormatError A) : result StoreError A := map_err Format c.
Definition range {A} (o : option A) : result StoreError A := ok_or o Range.

(** ** Identities *)

Abbreviation Digest := (list Z) (only parsing).
Definition digest_ok (d : Digest) : Prop := zlen d = 32 /\ is_bytes d.
Definition ZERO_DIGEST : Digest := zeros 32.

(** Derived [Ord] of a 32-byte identity: lexicographic order of its bytes. *)
Fixpoint digest_compare (a b : Digest) : comparison :=
  match a, b with
  | [], [] => Eq
  | [], _ :: _ => Lt
  | _ :: _, [] => Gt
  | x :: a', y :: b' =>
      match Z.compare x y with Eq => digest_compare a' b' | c => c end
  end.
Definition digest_leb (a b : Digest) : bool :=
  match digest_compare a b with Gt => false | _ => true end.
Definition digest_ltb (a b : Digest) : bool :=
  match digest_compare a b with Lt => true | _ => false end.

(** ** Page sizes, page numbers, transaction ids *)

Definition PageSize_new (b : Z) : result ValueError Z :=
  fail_if negb ((512 <=? b) && (b <=? 65536)) || negb (is_power_of_two b)
    with ValueErr ;;
  ok_or (if b =? 0 then None else Some b) ValueErr.

Definition PageNumber_new (number : Z) : result ValueError Z :=
  fail_if number =? U32_MAX with ValueErr ;;
  ok_or (if number =? 0 then None else Some number) ValueErr.

Definition PageNumber_offset (page size : Z) : result ValueError Z :=
  ok_or (checked_mul (page - 1) size) ValueErr.

Definition TransactionId_new (v : Z) : result ValueError Z :=
  ok_or (if v =? 0 then None else Some v) ValueErr.

Definition TransactionId_next (v : Z) : result ValueError Z :=
  let* n := ok_or (checked_add v 1) ValueErr in
  TransactionId_new n.

Record TransactionSpan : Set := mkSpan { span_begin : Z; span_end : Z }.

Definition TransactionSpan_new (b e : Z) : result ValueError TransactionSpan :=
  fail_if e <? b with ValueErr ;;
  Ok (mkSpan b e).

Record SegmentCoverage : Set := mkCoverage { cov_full : TransactionSpan; cov_begin : Z }.

Definition SegmentCoverage_new (full : TransactionSpan) (b : Z)
    : result ValueError SegmentCoverage :=
  fail_if (b <? span_begin full) || (span_end full <? b) with ValueErr ;;
  Ok (mkCoverage full b).

Definition represented (c : SegmentCoverage) : TransactionSpan :=
  mkSpan (cov_begin c) (span_end (cov_full c)).

(** ** Byte ranges and sizes *)

Record StoredRange : Set := mkRange { sr_offset : Z; sr_length : Z; sr_end : Z }.

Definition StoredRange_new (offset length : Z) : result ValueError StoredRange :=
  let* e := ok_or (checked_add offset length) ValueErr in
  Ok (mkRange offset length e).

Definition StoredRange_within (r : StoredRange) (object_size : Z)
    : result ValueError StoredRange :=
  fail_if object_size <? sr_end r with ValueErr ;;
  Ok r.

Record LogicalBytes : Set := mkLogical { lb_bytes : Z; lb_page_size : Z }.

Definition LogicalBytes_new (b page_size : Z) : result ValueError LogicalBytes :=
  fail_if negb (is_multiple_of b page_size) || (U32_MAX <=? b / page_size)
    with ValueErr ;;
  Ok (mkLogical b page_size).

Definition lb_pages (l : LogicalBytes) : Z := lb_bytes l / lb_page_size l.

Record FrameShape : Set := mkShape { fs_page_size : Z; fs_pages : Z }.

Definition MAX_FRAME_BYTES : Z := 8 * 1024 * 1024.

Definition FrameShape_new (page_size pages : Z) : result ValueError FrameShape :=
  let* pages := ok_or (if pages =? 0 then None else Some pages) ValueErr in
  fail_if MAX_FRAME_BYTES <? pages * page_size with ValueErr ;;
  Ok (mkShape page_size pages).

Definition decoded (s : FrameShape) : Z := fs_pages s * fs_page_size s.

Definition FrameShape_slot (s : FrameShape) (index : Z) : result ValueError Z :=
  if index <? fs_pages s then Ok index else Err ValueErr.

(** ** Payload encodings *)

Inductive CompressionDictionary : Set :=
| NoDictionary
| Shared (id : Digest).

Inductive PayloadEncoding : Set :=
| Raw
| Zstandard (dictionary : CompressionDictionary).

#[export] Instance TransactionSpan_eq_dec : EqDecision TransactionSpan.
Proof. solve_decision. Defined.
#[export] Instance SegmentCoverage_eq_dec : EqDecision SegmentCoverage.
Proof. solve_decision. Defined.
#[export] Instance StoredRange_eq_dec : EqDecision StoredRange.
Proof. solve_decision. Defined.
#[export] Instance LogicalBytes_eq_dec : EqDecision LogicalBytes.
Proof. solve_decision. Defined.
#[export] Instance FrameShape_eq_dec : EqDecision FrameShape.
Proof. solve_decision. Defined.
#[export] Instance CompressionDictionary_eq_dec : EqDecision CompressionDictionary.
Proof. solve_decision. Defined.
#[export] Instance PayloadEncoding_eq_dec : EqDecision PayloadEncoding.
Proof. solve_decision. Defined.

(** ** What the constructors establish *)

Definition page_size_ok (s : Z) : Prop :=
  exists k, 9 <= k <= 16 /\ s = 2 ^ k.
Definition page_number_ok (n : Z) : Prop := 1 <= n < U32_MAX.
Definition txid_ok (t : Z) : Prop := 1 <= t <= U64_MAX.
Definition span_ok (s : TransactionSpan) : Prop :=
  txid_ok (span_begin s) /\ txid_ok (span_end s) /\ span_begin s <= span_end s.
Definition coverage_ok (c : SegmentCoverage) : Prop :=
  span_ok (cov_full c) /\ span_begin (cov_full c) <= cov_begin c <= span_end (cov_full c).
Definition logical_ok (l : LogicalBytes) : Prop :=
  page_size_ok (lb_page_size l) /\ 0 <= lb_bytes l /\
  lb_bytes l = lb_pages l * lb_page_size l /\ lb_pages l < U32_MAX.
Definition shape_ok (s : FrameShape) : Prop :=
  page_size_ok (fs_page_size s) /\ 1 <= fs_pages s /\
  decoded s <= MAX_FRAME_BYTES.

(** ** Lemmas *)

Lemma value_Ok {A} (c : result ValueError A) a : value c = Ok a <-> c = Ok a.
Proof. apply map_err_Ok. Qed.
Lemma format_Ok {A} (c : result FormatError A) a : format c = Ok a <-> c = Ok a.
Proof. apply map_err_Ok. Qed.
Lemma range_Ok {A} (o : option A) a : range o = Ok a <-> o = Some a.
Proof. apply ok_or_Ok. Qed.

(** Extends [inv_ok] with the error conversions. *)
Ltac inv_all :=
  repeat (inv_ok; match goal with
  | H : value _ = Ok _ |- _ => apply value_Ok in H
  | H : format _ = Ok _ |- _ => apply format_Ok in H
  | H : range _ = Ok _ |- _ => apply range_Ok in H
  end); inv_ok.

Lemma is_power_of_two_spec v :
  is_power_of_two v = true <-> exists k, 0 <= k /\ v = 2 ^ k.
Proof.
  unfold is_power_of_two. rewrite andb_true_iff, Z.ltb_lt, Z.eqb_eq. split.
  - intros [Hv Hl]. exists (Z.log2 v). split; [apply Z.log2_nonneg|].
    destruct (Z.log2_spec v Hv) as [H1 H2].
    destruct (Z.eq_dec v (2 ^ Z.log2 v)) as [E|E]; [done|exfalso].
    assert (Z.testbit (Z.land v (v - 1)) (Z.log2 v) = true) as Hb; [|by rewrite Hl, Z.bits_0 in Hb].
    rewrite Z.land_spec, Z.bit_log2 by done. simpl.
    assert (Z.log2 (v - 1) = Z.log2 v) as <-.
    { apply Z.log2_unique; [apply Z.log2_nonneg|lia]. }
    apply Z.bit_log2. pose proof (Z.pow_pos_nonneg 2 (Z.log2 v) ltac:(lia) (Z.log2_nonneg v)). lia.
  - intros (k & Hk & ->). split; [apply Z.pow_pos_nonneg; lia|].
    replace (2 ^ k - 1) with (Z.ones k) by (rewrite Z.ones_equiv; lia).
    rewrite Z.land_ones by lia. by rewrite Z.mod_same by (apply Z.pow_nonzero; lia).
Qed.

Lemma page_size_ok_bounds s : page_size_ok s -> 512 <= s <= 65536.
Proof.
  intros (k & Hk & ->). change 512 with (2 ^ 9). change 65536 with (2 ^ 16).
  split; apply Z.pow_le_mono_r; lia.
Qed.

Lemma page_size_ok_div s : page_size_ok s -> s mod 512 = 0.
Proof.
  intros (k & Hk & ->). replace k with (9 + (k - 9)) by lia.
  rewrite Z.pow_add_r by lia. change (2 ^ 9) with 512.
  by rewrite Z.mul_comm, Z.mod_mul.
Qed.

Lemma PageSize_new_spec b s : PageSize_new b = Ok s <-> s = b /\ page_size_ok b.
Proof.
  unfold PageSize_new. rewrite fail_if_Ok, orb_false_iff, !negb_false_iff, andb_true_iff.
  rewrite is_power_of_two_spec, ok_or_Ok, !Z.leb_le. split.
  - intros [[Hb (k & Hk & ->)] Hs].
    destruct (Z.eqb_spec (2 ^ k) 0); [done|]. injection Hs as <-.
    split; [done|]. exists k. split; [|done].
    change 512 with (2 ^ 9) in Hb. change 65536 with (2 ^ 16) in Hb.
    rewrite <- !Z.pow_le_mono_r_iff in Hb by lia. lia.
  - intros [-> Hok]. pose proof (page_size_ok_bounds _ Hok).
    destruct Hok as (k & Hk & ->). split; [split; [lia|exists k; lia]|].
    destruct (Z.eqb_spec (2 ^ k) 0); [lia|done].
Qed.

Lemma PageNumber_new_spec n p :
  0 <= n <= U32_MAX -> PageNumber_new n = Ok p <-> p = n /\ page_number_ok n.
Proof.
  intros Hn. unfold PageNumber_new, page_number_ok. rewrite fail_if_Ok, ok_or_Ok.
  unfold U32_MAX in *. destruct (Z.eqb_spec n 0), (Z.eqb_spec n (2 ^ 32 - 1));
    (split; [intros [? H]; inv_ok; subst|intros [-> ?]]); try done; try lia.
Qed.

Lemma TransactionId_new_spec v t :
  0 <= v <= U64_MAX -> TransactionId_new v = Ok t <-> t = v /\ txid_ok v.
Proof.
  intros Hv. unfold TransactionId_new, txid_ok. rewrite ok_or_Ok.
  destruct (Z.eqb_spec v 0); (split; [intros H; inv_ok; subst|intros [-> ?]]); try done; lia.
Qed.

Lemma TransactionId_next_spec v t :
  txid_ok v -> TransactionId_next v = Ok t <-> t = v + 1 /\ v < U64_MAX.
Proof.
  intros Hv. unfold TransactionId_next, TransactionId_new, txid_ok in *.
  rewrite rbind_Ok. split.
  - intros (a & Ha & Ht). inv_ok. apply checked_add_Some in Ha as [-> ?].
    destruct (Z.eqb_spec (v + 1) 0); inv_ok; lia.
  - intros [-> ?]. exists (v + 1). rewrite ok_or_Ok, checked_add_Some.
    split; [lia|]. destruct (Z.eqb_spec (v + 1) 0); [lia|done].
Qed.

Lemma TransactionSpan_new_ok b e s :
  txid_ok b -> txid_ok e -> TransactionSpan_new b e = Ok s <-> s = mkSpan b e /\ span_ok s.
Proof.
  intros Hb He. unfold TransactionSpan_new, span_ok. rewrite fail_if_Ok, Z.ltb_ge.
  split; [intros [? [= <-]]; simpl; auto | intros [-> (_ & _ & ?)]; auto].
Qed.

Lemma SegmentCoverage_new_ok full b c :
  span_ok full -> SegmentCoverage_new full b = Ok c <-> c = mkCoverage full b /\ coverage_ok c.
Proof.
  intros Hf. unfold SegmentCoverage_new, coverage_ok.
  rewrite fail_if_Ok, orb_false_iff, !Z.ltb_ge.
  split; [intros [? [= <-]]; simpl; auto | intros [-> [_ ?]]; simpl in *; auto].
Qed.

(** The constructors on valid inputs, in the form a decoder calls them. *)
Lemma TransactionId_new_fwd t : txid_ok t -> value (TransactionId_new t) = Ok t.
Proof. intros Ht. apply value_Ok, TransactionId_new_spec; unfold txid_ok in *; (lia || done). Qed.

Lemma TransactionSpan_new_fwd b e : b <= e -> value (TransactionSpan_new b e) = Ok (mkSpan b e).
Proof. intros. unfold TransactionSpan_new. by rewrite (proj2 (Z.ltb_ge _ _)). Qed.

Lemma SegmentCoverage_new_fwd f b :
  span_begin f <= b <= span_end f -> value (SegmentCoverage_new f b) = Ok (mkCoverage f b).
Proof. intros. unfold SegmentCoverage_new. by rewrite !(proj2 (Z.ltb_ge _ _)) by lia. Qed.

Lemma represented_ok c : coverage_ok c -> span_ok (represented c).
Proof. destruct c as [[b e] r]; unfold coverage_ok, span_ok, txid_ok; simpl; lia. Qed.

Lemma page_offset_total p s :
  page_number_ok p -> page_size_ok s ->
  PageNumber_offset p s = Ok ((p - 1) * s) /\ (p - 1) * s + s <= U64_MAX.
Proof.
  intros Hp Hs%page_size_ok_bounds. unfold page_number_ok, U32_MAX, U64_MAX in *.
  assert ((p - 1) * s + s <= 2 ^ 64 - 1) by nia.
  split; [|done]. unfold PageNumber_offset.
  apply ok_or_Ok, checked_mul_Some. split; [done|unfold U64_MAX; lia].
Qed.

Lemma LogicalBytes_new_spec b s l :
  0 <= b -> page_size_ok s ->
  LogicalBytes_new b s = Ok l <-> l = mkLogical b s /\ logical_ok l.
Proof.
  intros Hb Hs. pose proof (page_size_ok_bounds _ Hs).
  unfold LogicalBytes_new, is_multiple_of, logical_ok, lb_pages.
  destruct (Z.eqb_spec s 0); [lia|].
  rewrite fail_if_Ok, orb_false_iff, negb_false_iff, Z.eqb_eq, Z.leb_gt.
  pose proof (Z.div_mod b s ltac:(lia)). split.
  - intros [[? ?] [= <-]]. simpl. repeat split; try done; lia.
  - intros [-> (? & ? & ? & ?)]; simpl in *. repeat split; try done; lia.
Qed.

(** [LogicalBytes::pages] returns a [u32]: its [expect] never fails. *)
Lemma lb_pages_u32 l : logical_ok l -> 0 <= lb_pages l < U32_MAX.
Proof.
  intros (Hs%page_size_ok_bounds & Hb & _ & Hp). split; [|done].
  apply Z.div_pos; lia.
Qed.

Lemma FrameShape_new_spec ps n s :
  0 <= n -> page_size_ok ps ->
  FrameShape_new ps n = Ok s <-> s = mkShape ps n /\ shape_ok s.
Proof.
  intros Hn Hs. unfold FrameShape_new, shape_ok, decoded. split.
  - intros H. inv_ok. destruct (Z.eqb_spec n 0); inv_ok; subst. simpl.
    repeat split; try done; lia.
  - intros [-> (_ & ? & ?)]; simpl in *. destruct (Z.eqb_spec n 0); [lia|]. simpl.
    destruct (Z.ltb_spec MAX_FRAME_BYTES (n * ps)); [lia|done].
Qed.

Lemma StoredRange_new_spec o n r :
  StoredRange_new o n = Ok r <-> r = mkRange o n (o + n) /\ o + n <= U64_MAX.
Proof.
  unfold StoredRange_new. rewrite rbind_Ok. split.
  - intros (e & He & [= <-]). apply ok_or_Ok, checked_add_Some in He as [-> ?]. done.
  - intros [-> ?]. exists (o + n). by rewrite ok_or_Ok, checked_add_Some.
Qed.

Lemma digest_compare_refl a : digest_compare a a = Eq.
Proof. induction a; simpl; [done|]. by rewrite Z.compare_refl. Qed.

Lemma digest_compare_eq a b : digest_compare a b = Eq <-> a = b.
Proof.
  split; [|intros ->; apply digest_compare_refl].
  revert b; induction a as [|x a IH]; intros [|y b]; simpl; try done.
  destruct (Z.compare_spec x y); try done. intros ?%IH. by subst.
Qed.

Lemma digest_compare_antisym a b : digest_compare b a = CompOpp (digest_compare a b).
Proof.
  revert b; induction a as [|x a IH]; intros [|y b]; simpl; try done.
  rewrite Z.compare_antisym. destruct (Z.compare x y); simpl; auto.
Qed.

Lemma digest_compare_lt_trans a b c :
  digest_compare a b = Lt -> digest_compare b c = Lt -> digest_compare a c = Lt.
Proof.
  revert b c; induction a as [|x a IH]; intros [|y b] [|z c]; simpl; try done.
  destruct (Z.compare_spec x y), (Z.compare_spec y z); try done; subst; intros;
    repeat match goal with
    | |- context [Z.compare ?u ?v] => destruct (Z.compare_spec u v)
    end; try lia; try done; eauto.
Qed.

Lemma digest_ltb_lt a b : digest_ltb a b = true <-> digest_compare a b = Lt.
Proof. unfold digest_ltb; destruct (digest_compare a b); naive_solver. Qed.

Lemma digest_ltb_irrefl a : digest_ltb a a = false.
Proof. unfold digest_ltb. by rewrite digest_compare_refl. Qed.

Lemma digest_ltb_trans a b c :
  digest_ltb a b = true -> digest_ltb b c = true -> digest_ltb a c = true.
Proof. rewrite !digest_ltb_lt. apply digest_compare_lt_trans. Qed.

Lemma digest_leb_total a b : digest_leb a b = true \/ digest_leb b a = true.
Proof.
  unfold digest_leb. rewrite (digest_compare_antisym a b).
  destruct (digest_compare a b); simpl; auto.
Qed.

Lemma digest_leb_ltb a b : digest_leb a b = negb (digest_ltb b a).
Proof.
  unfold digest_leb, digest_ltb. rewrite (digest_compare_antisym a b).
  by destruct (digest_compare a b).
Qed.

Lemma PageNumber_new_fwd n : page_number_ok n -> value (PageNumber_new n) = Ok n.
Proof.
  intros Hn. apply value_Ok, PageNumber_new_spec; unfold page_number_ok in *; (lia || done).
Qed.

Lemma PageSize_new_fwd s : page_size_ok s -> value (PageSize_new s) = Ok s.
Proof. intros Hs. by apply value_Ok, PageSize_new_spec. Qed.

Lemma FrameShape_new_fwd s : shape_ok s ->
  value (FrameShape_new (fs_page_size s) (fs_pages s)) = Ok s.
Proof.
  intros Hs. pose proof Hs as (Hp & Hn & _). apply value_Ok, FrameShape_new_spec; [lia|done|].
  by destruct s.
Qed.
