(* ===== verification/Layout.v ===== *)
(** Persisted policies: frame/pack/cache layout (src/src/layout.rs) and the
    dictionary training limits (src/src/dictionary.rs). *)

From S2P Require Import Prelude Domain.
From stdpp Require Import base strings gmap list sorting.
From Stdlib Require Import ZArith Lia.
Open Scope Z_scope.

(** ** Layout policy *)

Inductive CacheCapacity : Set :=
| Automatic
| FixedCache (b : Z).

Definition CacheCapacity_resolve (c : CacheCapacity) (logical_bytes : Z)
    (available_bytes : option Z) : Z :=
  match c with
  | FixedCache b => b
  | Automatic =>
      let target := logical_bytes / 5 in
      let disk_cap :=
        match available_bytes with None => target | Some b => b / 2 end in
      Z.min target disk_cap
  end.

Inductive FrameLayout : Set :=
| FixedFrames (b : Z)
| PageFrames.

Record LayoutPolicy : Set := mkLayout {
  lp_frames : FrameLayout;
  lp_pack_target : Z;
  lp_zstd_level : Z;
  lp_cache : CacheCapacity;
  lp_maintenance_input : Z;
  lp_deletion_budget : Z;
}.

#[export] Instance CacheCapacity_eq_dec : EqDecision CacheCapacity.
Proof. solve_decision. Defined.
#[export] Instance FrameLayout_eq_dec : EqDecision FrameLayout.
Proof. solve_decision. Defined.
#[export] Instance LayoutPolicy_eq_dec : EqDecision LayoutPolicy.
Proof. solve_decision. Defined.

Definition LayoutPolicy_default : LayoutPolicy := {|
  lp_frames := PageFrames;
  lp_pack_target := 4 * 1024 * 1024;
  lp_zstd_level := 3;
  lp_cache := Automatic;
  lp_maintenance_input := 64 * 1024 * 1024;
  lp_deletion_budget := 8;
|}.

Definition fixed (p : LayoutPolicy) (b : Z) : result ValueError LayoutPolicy :=
  fail_if (b <? 512) || (8 * 1024 * 1024 <? b) || negb (is_power_of_two b)
    with ValueErr ;;
  Ok (mkLayout (FixedFrames b) (lp_pack_target p) (lp_zstd_level p) (lp_cache p)
        (lp_maintenance_input p) (lp_deletion_budget p)).

Definition with_pack_target (p : LayoutPolicy) (b : Z) : result ValueError LayoutPolicy :=
  fail_if b =? 0 with ValueErr ;;
  Ok (mkLayout (lp_frames p) b (lp_zstd_level p) (lp_cache p)
        (lp_maintenance_input p) (lp_deletion_budget p)).

Definition with_level (p : LayoutPolicy) (level : Z) : result ValueError LayoutPolicy :=
  fail_if negb ((1 <=? level) && (level <=? 22)) with ValueErr ;;
  Ok (mkLayout (lp_frames p) (lp_pack_target p) level (lp_cache p)
        (lp_maintenance_input p) (lp_deletion_budget p)).

Definition set_cache (p : LayoutPolicy) (c : CacheCapacity) : LayoutPolicy :=
  mkLayout (lp_frames p) (lp_pack_target p) (lp_zstd_level p) c
    (lp_maintenance_input p) (lp_deletion_budget p).

(** [bytes.as_usize()?] of [with_cache] cannot fail on a 64-bit target. *)
Definition with_cache (p : LayoutPolicy) (b : Z) : result ValueError LayoutPolicy :=
  fail_if U64_MAX <? b with ValueErr ;;
  Ok (set_cache p (FixedCache b)).

Definition with_automatic_cache (p : LayoutPolicy) : LayoutPolicy := set_cache p Automatic.

Definition with_maintenance (p : LayoutPolicy) (input deletions : Z)
    : result ValueError LayoutPolicy :=
  fail_if 64 * 1024 * 1024 <? input with ValueErr ;;
  Ok (mkLayout (lp_frames p) (lp_pack_target p) (lp_zstd_level p) (lp_cache p)
        input deletions).

Definition frame_bytes (p : LayoutPolicy) (size : Z) : Z :=
  match lp_frames p with
  | PageFrames => size
  | FixedFrames b => Z.max b size
  end.

Definition put_u64 (o : bytes) (offset v : Z) : bytes := put o offset (le_bytes 8 v).
Definition get_u64 (i : bytes) (offset : Z) : Z := le_val (slice i offset (offset + 8)).

Definition LayoutPolicy_encode (p : LayoutPolicy) : bytes :=
  let o := zeros 128 in
  let frame := match lp_frames p with PageFrames => 0 | FixedFrames b => b end in
  let o := put_u64 o 0 frame in
  let o := put_u64 o 8 (lp_zstd_level p) in
  let mode := match lp_cache p with Automatic => 0 | FixedCache _ => 1 end in
  let cache := match lp_cache p with Automatic => 0 | FixedCache b => b end in
  let o := put_u64 o 16 cache in
  let o := put_u64 o 24 (lp_maintenance_input p) in
  let o := put_u64 o 32 (lp_deletion_budget p) in
  let o := put_u64 o 40 (lp_pack_target p) in
  put_u64 o 48 mode.

(** [i32::try_from] of a [u64]. *)
Definition try_i32 (v : Z) : result ValueError Z :=
  if v <=? 2 ^ 31 - 1 then Ok v else Err ValueErr.

Definition LayoutPolicy_decode (i : bytes) : result ValueError LayoutPolicy :=
  fail_if negb (all_zero (slice i 56 128)) with ValueErr ;;
  let get := get_u64 i in
  let* level := try_i32 (get 8) in
  let* p := with_level LayoutPolicy_default level in
  let* p := with_maintenance p (get 24) (get 32) in
  let* p := with_pack_target p (get 40) in
  let* c := (if (get 48 =? 0) && (get 16 =? 0) then Ok Automatic
             else if get 48 =? 1 then Ok (FixedCache (get 16))
             else Err ValueErr) in
  let p := set_cache p c in
  if negb (get 0 =? 0) then fixed p (get 0) else Ok p.

(** What every constructible policy satisfies. *)
Definition layout_ok (p : LayoutPolicy) : Prop :=
  match lp_frames p with
  | PageFrames => True
  | FixedFrames b => exists k, 9 <= k <= 23 /\ b = 2 ^ k
  end /\
  1 <= lp_pack_target p <= U64_MAX /\
  1 <= lp_zstd_level p <= 22 /\
  match lp_cache p with Automatic => True | FixedCache b => 0 <= b <= U64_MAX end /\
  0 <= lp_maintenance_input p <= 64 * 1024 * 1024 /\
  0 <= lp_deletion_budget p <= U64_MAX.

(** ** Dictionary policy *)

Definition MAX_DICTIONARY_BYTES : Z := 768 * 1024.
Definition MAX_SAMPLE_BYTES : Z := 96 * 1024 * 1024.

Definition DictionaryCapacity_new (b : Z) : result StoreError Z :=
  fail_if negb ((8192 <=? b) && (b <=? MAX_DICTIONARY_BYTES)) with InvalidConfiguration ;;
  range (if b =? 0 then None else Some b).

Definition SampleBudget_new (b : Z) : result StoreError Z :=
  fail_if U64_MAX <? b with Range ;;
  fail_if negb ((1024 * 1024 <=? b) && (b <=? MAX_SAMPLE_BYTES)) with InvalidConfiguration ;;
  range (if b =? 0 then None else Some b).

Inductive DictionaryTraining : Set :=
| TrainingDisabled
| UpTo (capacity : Z).

Record DictionaryPolicy : Set := mkDictPolicy {
  dp_training : DictionaryTraining;
  dp_samples : Z;
}.

Definition DictionaryPolicy_new (dictionary_bytes sample_bytes : Z)
    : result StoreError DictionaryPolicy :=
  let* training :=
    (if dictionary_bytes =? 0 then Ok TrainingDisabled
     else rmap UpTo (DictionaryCapacity_new dictionary_bytes)) in
  let* samples := SampleBudget_new sample_bytes in
  Ok (mkDictPolicy training samples).

Definition dictionary_bytes (p : DictionaryPolicy) : Z :=
  match dp_training p with TrainingDisabled => 0 | UpTo c => c end.

Definition TIERS : list Z := [8; 16; 32; 64; 128; 256; 512; 768].

Definition candidates (p : DictionaryPolicy) (training_bytes : Z) : list Z :=
  let limit := Z.min (training_bytes / 100) (dictionary_bytes p) in
  let sizes := filter (fun b => b <= limit) (map (fun kib => kib * 1024) TIERS) in
  let maximum := dictionary_bytes p in
  let sizes :=
    if (8192 <=? maximum) && (maximum <=? limit) && negb (bool_decide (maximum ∈ sizes))
    then merge_sort Z.le (sizes ++ [maximum])
    else sizes in
  omap (fun b => match DictionaryCapacity_new b with Ok c => Some c | Err _ => None end)
    (take 2 (reverse sizes)).

(** The sizes a policy may train: the tiers and its own capacity. *)
Definition supported_size (p : DictionaryPolicy) (b : Z) : Prop :=
  8192 <= b <= MAX_DICTIONARY_BYTES /\ b <= dictionary_bytes p /\
  (b ∈ map (fun kib => kib * 1024) TIERS \/ b = dictionary_bytes p).

Definition dict_policy_ok (p : DictionaryPolicy) : Prop :=
  match dp_training p with
  | TrainingDisabled => True
  | UpTo c => 8192 <= c <= MAX_DICTIONARY_BYTES
  end /\ 1024 * 1024 <= dp_samples p <= MAX_SAMPLE_BYTES.

(** ** Layout policy: the 128-byte record *)

Lemma get_put_u64_eq o a v :
  0 <= a -> a + 8 <= zlen o -> 0 <= v <= U64_MAX -> get_u64 (put_u64 o a v) a = v.
Proof.
  intros. unfold get_u64, put_u64. rewrite slice_put_same by len_side.
  apply le_val_bytes_small. unfold U64_MAX in *. simpl. lia.
Qed.

Lemma get_put_u64_ne o a b v :
  0 <= a -> 0 <= b -> a + 8 <= b \/ b + 8 <= a -> get_u64 (put_u64 o a v) b = get_u64 o b.
Proof.
  intros. unfold get_u64, put_u64.
  destruct H1; [rewrite slice_put_after by len_side | rewrite slice_put_before by len_side]; done.
Qed.

Lemma zlen_put_u64 o a v : zlen (put_u64 o a v) = zlen o.
Proof. apply zlen_put. Qed.
#[export] Hint Rewrite zlen_put_u64 : zlens.

Lemma get_u64_u64 i a : is_bytes i -> 0 <= a -> a + 8 <= zlen i -> 0 <= get_u64 i a <= U64_MAX.
Proof.
  intros. unfold get_u64.
  pose proof (le_val_u64 (slice i a (a + 8)) ltac:(auto with bytedb) ltac:(rewrite zlen_slice; lia)).
  unfold is_u64, U64_MAX in *; lia.
Qed.

Lemma slice_get_u64 i a b :
  is_bytes i -> 0 <= a -> b = a + 8 -> b <= zlen i -> slice i a b = le_bytes 8 (get_u64 i a).
Proof.
  intros ? ? -> ?. unfold get_u64. symmetry. apply le_bytes_val; [auto with bytedb|].
  pose proof (zlen_slice i a (a + 8)). unfold zlen in *. lia.
Qed.

Ltac u64s :=
  repeat match goal with
  | |- context [get_u64 (put_u64 ?o ?a ?v) ?a] =>
      rewrite (get_put_u64_eq o a v) by (first [len_side | by auto])
  | |- context [get_u64 (put_u64 ?o ?a ?v) ?b] =>
      rewrite (get_put_u64_ne o a b v) by lia
  end.

Lemma zlen_LayoutPolicy_encode p : zlen (LayoutPolicy_encode p) = 128.
Proof. unfold LayoutPolicy_encode. lens. done. Qed.
#[export] Hint Rewrite zlen_LayoutPolicy_encode : zlens.

Lemma is_bytes_LayoutPolicy_encode p : is_bytes (LayoutPolicy_encode p).
Proof. unfold LayoutPolicy_encode, put_u64. auto 20 with bytedb. Qed.
#[export] Hint Resolve is_bytes_LayoutPolicy_encode : bytedb.

Lemma fixed_frame_power b :
  (exists k, 9 <= k <= 23 /\ b = 2 ^ k) <->
  (b <? 512) || (8 * 1024 * 1024 <? b) || negb (is_power_of_two b) = false.
Proof.
  rewrite !orb_false_iff, negb_false_iff, is_power_of_two_spec, !Z.ltb_ge. split.
  - intros (k & Hk & ->). change 512 with (2 ^ 9). change (8 * 1024 * 1024) with (2 ^ 23).
    rewrite <- !Z.pow_le_mono_r_iff by lia. split; [lia|]. exists k; lia.
  - intros [Hb (k & Hk & ->)]. change 512 with (2 ^ 9) in Hb.
    change (8 * 1024 * 1024) with (2 ^ 23) in Hb.
    rewrite <- !Z.pow_le_mono_r_iff in Hb by lia. exists k; lia.
Qed.

Lemma layout_tail_zero p : all_zero (slice (LayoutPolicy_encode p) 56 128) = true.
Proof.
  unfold LayoutPolicy_encode, put_u64. slices. apply all_zero_zeros.
Qed.

Lemma layout_roundtrip_lemma p :
  layout_ok p -> LayoutPolicy_decode (LayoutPolicy_encode p) = Ok p.
Proof.
  intros (Hf & Ht & Hl & Hc & Hm & Hd). unfold LayoutPolicy_decode.
  rewrite layout_tail_zero; simpl negb; cbv iota.
  assert (0 <= match lp_frames p with PageFrames => 0 | FixedFrames b => b end <= U64_MAX /\
          match lp_frames p with PageFrames => 0 | FixedFrames b => b end <= U64_MAX) as [Hfr _].
  { destruct (lp_frames p); unfold U64_MAX; [|lia].
    apply fixed_frame_power in Hf. bools; lia. }
  assert (0 <= match lp_cache p with Automatic => 0 | FixedCache b => b end <= U64_MAX) as Hcr.
  { destruct (lp_cache p); unfold U64_MAX in *; lia. }
  assert (0 <= match lp_cache p with Automatic => 0 | FixedCache _ => 1 end <= U64_MAX) as Hmode.
  { destruct (lp_cache p); unfold U64_MAX in *; lia. }
  assert (0 <= lp_zstd_level p <= U64_MAX) by (unfold U64_MAX in *; lia).
  assert (0 <= lp_maintenance_input p <= U64_MAX) by (unfold U64_MAX in *; lia).
  unfold LayoutPolicy_encode. u64s.
  destruct p as [fr tgt lvl cache mi db]; simpl in *.
  unfold try_i32. destruct (Z.leb_spec lvl (2 ^ 31 - 1)); [|lia]. simpl.
  unfold with_level. destruct (Z.leb_spec 1 lvl), (Z.leb_spec lvl 22); try lia. simpl.
  unfold with_maintenance. destruct (Z.ltb_spec (64 * 1024 * 1024) mi); [lia|]. simpl.
  unfold with_pack_target. destruct (Z.eqb_spec tgt 0); [lia|]. simpl.
  destruct cache, fr; simpl; try done.
  all: apply fixed_frame_power in Hf as Hf'; unfold fixed; rewrite Hf';
       bools; destruct (Z.eqb_spec b 0); try lia; try done.
  all: destruct (Z.eqb_spec b0 0); try lia; done.
Qed.

Lemma LayoutPolicy_decode_sound i p :
  is_bytes i -> zlen i = 128 -> LayoutPolicy_decode i = Ok p ->
  layout_ok p /\ LayoutPolicy_encode p = i.
Proof.
  intros Hi Hl H. unfold LayoutPolicy_decode, try_i32, with_level, with_maintenance,
    with_pack_target, set_cache in H.
  assert (forall a, 0 <= a -> a + 8 <= 128 -> 0 <= get_u64 i a <= U64_MAX) as Hr.
  { intros; apply get_u64_u64; auto; lia. }
  pose proof (Hr 0 ltac:(lia) ltac:(lia)). pose proof (Hr 8 ltac:(lia) ltac:(lia)).
  pose proof (Hr 16 ltac:(lia) ltac:(lia)). pose proof (Hr 24 ltac:(lia) ltac:(lia)).
  pose proof (Hr 32 ltac:(lia) ltac:(lia)). pose proof (Hr 40 ltac:(lia) ltac:(lia)).
  pose proof (Hr 48 ltac:(lia) ltac:(lia)).
  inv_ok. bools. destruct (_ <=? 2 ^ 31 - 1); inv_ok. subst. simpl in *.
  apply all_zero_spec in Hguard. rewrite zlen_slice in Hguard by lia.
  assert (match a3 with Automatic => get_u64 i 48 = 0 /\ get_u64 i 16 = 0
          | FixedCache b => get_u64 i 48 = 1 /\ get_u64 i 16 = b end) as Hc.
  { destruct (Z.eqb_spec (get_u64 i 48) 0), (Z.eqb_spec (get_u64 i 16) 0),
      (Z.eqb_spec (get_u64 i 48) 1); simpl in Hok3; inv_ok; subst; auto; lia. }
  clear Hok3. rename a3 into c.
  assert (exists fr, p = mkLayout fr (get_u64 i 40) (get_u64 i 8) c (get_u64 i 24) (get_u64 i 32) /\
    match fr with PageFrames => get_u64 i 0 = 0
                | FixedFrames b => get_u64 i 0 = b /\ exists k, 9 <= k <= 23 /\ b = 2 ^ k end)
    as (fr & -> & Hf).
  { destruct (Z.eqb_spec (get_u64 i 0) 0); simpl in H.
    - inv_ok. exists PageFrames. by rewrite H.
    - unfold fixed in H. apply fail_if_Ok in H as [Hp%fixed_frame_power H]. inv_ok.
      eexists (FixedFrames _). split; [by rewrite <- H|]. done. }
  clear H Hr. split.
  - unfold layout_ok; simpl. bools. repeat split; try lia; destruct fr, c; naive_solver lia.
  - symmetry. apply (slices_agree_eq [8; 16; 24; 32; 40; 48; 56]); [lens; done|].
    unfold LayoutPolicy_encode, put_u64. simpl. rewrite Hl.
    repeat (split; [lia|split]); slices.
    all: try (rewrite slice_get_u64 by (done || lia); f_equal; destruct fr, c; naive_solver lia).
    rewrite Hguard; done.
Qed.

(** ** Dictionary policy *)

Lemma DictionaryCapacity_new_spec b c :
  DictionaryCapacity_new b = Ok c <-> c = b /\ 8192 <= b <= MAX_DICTIONARY_BYTES.
Proof.
  unfold DictionaryCapacity_new. rewrite fail_if_Ok, negb_false_iff, andb_true_iff, !Z.leb_le.
  rewrite range_Ok. unfold MAX_DICTIONARY_BYTES.
  destruct (Z.eqb_spec b 0); (split; [intros [? H]; inv_ok; subst | intros [-> ?]]);
    repeat split; try done; lia.
Qed.

Lemma SampleBudget_new_spec b c :
  SampleBudget_new b = Ok c <-> c = b /\ 1024 * 1024 <= b <= MAX_SAMPLE_BYTES.
Proof.
  unfold SampleBudget_new.
  rewrite !fail_if_Ok, negb_false_iff, andb_true_iff, !Z.leb_le, Z.ltb_ge.
  rewrite range_Ok. unfold MAX_SAMPLE_BYTES, U64_MAX.
  destruct (Z.eqb_spec b 0); (split; [intros (? & ? & H); inv_ok; subst | intros [-> ?]]);
    repeat split; try done; lia.
Qed.

Lemma DictionaryPolicy_new_ok d s p :
  DictionaryPolicy_new d s = Ok p ->
  dict_policy_ok p /\ dictionary_bytes p = d /\ dp_samples p = s.
Proof.
  unfold DictionaryPolicy_new. intros H. inv_ok. subst.
  apply SampleBudget_new_spec in Hok0 as [-> ?].
  unfold dict_policy_ok, dictionary_bytes; simpl.
  destruct (Z.eqb_spec d 0); inv_ok; subst; [auto|].
  apply rmap_Ok in Hok as (c & Hc & <-). apply DictionaryCapacity_new_spec in Hc as [-> ?]. auto.
Qed.

(** The ascending list of trainable sizes, before the two largest are taken. *)
Lemma merge_sort_lt_sorted (l : list Z) :
  NoDup l -> StronglySorted Z.lt (merge_sort Z.le l).
Proof.
  intros Hn. assert (NoDup (merge_sort Z.le l)) as Hn' by (by rewrite merge_sort_Permutation).
  pose proof (StronglySorted_merge_sort Z.le l) as Hs.
  induction Hs as [|x k Hs IH Hx]; constructor; inversion Hn'; subst; auto.
  rewrite Forall_forall in *. intros y Hy. specialize (Hx y Hy).
  assert (x <> y) by (intros ->; done). lia.
Qed.

Lemma top_two_spec (l : list Z) :
  StronglySorted Z.lt l ->
  let r := take 2 (reverse l) in
  (length r <= 2)%nat /\ StronglySorted Z.gt r /\ (forall x, x ∈ r -> x ∈ l) /\
  (forall x, x ∈ l -> x ∈ r \/ (length r = 2%nat /\ forall y, y ∈ r -> x < y)).
Proof.
  intros Hs. induction l as [|b l _] using rev_ind.
  { split_and!; [simpl; lia|constructor|set_solver|set_solver]. }
  induction l as [|a l _] using rev_ind.
  { split_and!; [simpl; lia|repeat constructor|set_solver|set_solver]. }
  rewrite !reverse_app; simpl.
  assert (a < b) as Hab by (eapply StronglySorted_app_1_elem_of; [exact Hs| |]; set_solver).
  rewrite <- app_assoc in Hs. split_and!.
  - lia.
  - repeat constructor; lia.
  - intros x Hx. set_solver.
  - intros x Hx. destruct (decide (x = a)) as [->|]; [set_solver|].
    destruct (decide (x = b)) as [->|]; [set_solver|].
    assert (x ∈ l) as Hxl by set_solver. right. split; [done|]. intros y Hy.
    eapply StronglySorted_app_1_elem_of; [exact Hs|done|set_solver].
Qed.

Lemma tiers_sorted : StronglySorted Z.lt (map (fun kib => kib * 1024) TIERS).
Proof. cbn. repeat constructor; lia. Qed.

Lemma StronglySorted_filter_lt (P : Z -> Prop) `{!forall x, Decision (P x)} (l : list Z) :
  StronglySorted Z.lt l -> StronglySorted Z.lt (filter P l).
Proof.
  induction 1 as [|x l Hs IH Hx]; [constructor|].
  rewrite filter_cons. case_decide; [|done]. constructor; [done|].
  rewrite Forall_forall in *. intros y Hy. apply Hx. by apply list_elem_of_filter in Hy as [_ ?].
Qed.

Lemma StronglySorted_lt_NoDup (l : list Z) : StronglySorted Z.lt l -> NoDup l.
Proof.
  induction 1 as [|x l Hs IH Hx]; constructor; [|done].
  rewrite Forall_forall in Hx. intros Hin. specialize (Hx x Hin). lia.
Qed.

Lemma omap_capacity (l : list Z) :
  (forall b, b ∈ l -> 8192 <= b <= MAX_DICTIONARY_BYTES) ->
  omap (fun b => match DictionaryCapacity_new b with Ok c => Some c | Err _ => None end) l = l.
Proof.
  induction l as [|b l IH]; intros H; [done|]. simpl.
  assert (DictionaryCapacity_new b = Ok b) as ->
    by (apply DictionaryCapacity_new_spec; split; [done|apply H; set_solver]).
  f_equal. apply IH. intros; apply H; set_solver.
Qed.

Lemma tier_bounds (b : Z) : b ∈ map (fun kib => kib * 1024) TIERS -> 8192 <= b <= MAX_DICTIONARY_BYTES.
Proof. unfold MAX_DICTIONARY_BYTES. cbn. set_unfold. lia. Qed.

(** ** Claims *)

(** The 128-byte layout record is a canonical encoding: decoding a record
    yields a policy exactly when the policy is one the setters can build and the
    record is its encoding (so encode/decode round-trip, and no two records
    decode to the same policy). *)
Theorem layout_record_canonical i p :
  is_bytes i -> zlen i = 128 ->
  LayoutPolicy_decode i = Ok p <-> layout_ok p /\ LayoutPolicy_encode p = i.
Proof.
  intros Hi Hl. split; [by apply LayoutPolicy_decode_sound|].
  intros [Hp <-]. by apply layout_roundtrip_lemma.
Qed.

Definition demo_layout : LayoutPolicy :=
  mkLayout (FixedFrames 16384) 1048576 19 (FixedCache 65536) 4096 2.

Lemma layout_record_canonical_witness :
  LayoutPolicy_decode (LayoutPolicy_encode demo_layout) = Ok demo_layout.
Proof.
  apply (layout_record_canonical (LayoutPolicy_encode demo_layout) demo_layout).
  - apply bytes_check_ok. vm_compute. reflexivity.
  - reflexivity.
  - split; [|reflexivity]. unfold layout_ok, demo_layout, U64_MAX. cbn.
    split_and!; try lia. exists 14. lia.
Defined.

(** The dictionary sizes worth training on a sample of [t] bytes: at most
    two, strictly decreasing, each an allowed size of at most a hundredth of the
    sample; and any other allowed size that small is below both. *)
Theorem dictionary_candidates_largest_two p t :
  dict_policy_ok p ->
  let cs := candidates p t in
  (length cs <= 2)%nat /\ StronglySorted Z.gt cs /\
  (forall c, c ∈ cs -> supported_size p c /\ 100 * c <= t) /\
  (forall b, supported_size p b -> 100 * b <= t ->
     b ∈ cs \/ (length cs = 2%nat /\ forall c, c ∈ cs -> b < c)).
Proof.
  intros [Hp _]. unfold candidates.
  set (limit := Z.min (t / 100) (dictionary_bytes p)).
  set (tiers := filter (fun b => b <= limit) _).
  set (sizes := if (8192 <=? dictionary_bytes p) && _ && _ then _ else tiers). cbv zeta.
  assert (forall b, 8192 <= b -> b <= limit <-> 100 * b <= t /\ b <= dictionary_bytes p) as Hlim.
  { intros b Hb. subst limit. pose proof (Z.div_mod t 100). pose proof (Z.mod_pos_bound t 100). lia. }
  assert (StronglySorted Z.lt tiers) as Hst by apply StronglySorted_filter_lt, tiers_sorted.
  assert (StronglySorted Z.lt sizes) as Hss.
  { subst sizes. destruct (_ && _ && _) eqn:E; [|done]. bools.
    apply merge_sort_lt_sorted, NoDup_app.
    split_and!; [by apply StronglySorted_lt_NoDup|set_solver|apply NoDup_singleton]. }
  assert (forall b, b ∈ sizes <-> supported_size p b /\ 100 * b <= t) as Hin.
  { intros b. assert (b ∈ sizes <-> b ∈ tiers \/ (b = dictionary_bytes p /\ 8192 <= b <= limit)) as ->.
    { subst sizes. destruct (_ && _ && _) eqn:E.
      - rewrite merge_sort_Permutation. bools. rewrite elem_of_app, list_elem_of_singleton.
        split; [intros [?| ->]; [auto|right; split; [done|lia]]|intros [?|[? _]]; auto].
      - split; [auto|]. intros [?|[-> ?]]; [done|].
        rewrite !andb_false_iff, negb_false_iff, bool_decide_eq_true in E. naive_solver lia. }
    subst tiers. rewrite list_elem_of_filter. unfold supported_size. split.
    - intros [[H1 H2]|[-> H1]].
      + pose proof (tier_bounds _ H2). apply Hlim in H1; [|lia].
        split_and!; [lia|lia|lia|by left|lia].
      + destruct H1 as [H0 H1]. apply Hlim in H1; [|done].
        assert (dictionary_bytes p <= MAX_DICTIONARY_BYTES)
          by (unfold dictionary_bytes in *; destruct (dp_training p); lia).
        split_and!; [lia|lia|lia|by right|lia].
    - intros [(H1 & H2 & [H3|H3]) H4]; [left|right]; split; try done.
      + apply Hlim; lia.
      + split; [lia|]. apply Hlim; lia. }
  destruct (top_two_spec sizes Hss) as (H1 & H2 & H3 & H4).
  rewrite omap_capacity by (intros b Hb; apply H3, Hin in Hb as [[? _] _]; done).
  split_and!; [done|done|intros c Hc; by apply Hin, H3|].
  intros b Hb1 Hb2. apply H4, Hin. done.
Qed.

Lemma dictionary_candidates_largest_two_witness :
  let p := mkDictPolicy (UpTo 20000) (2 * 1024 * 1024) in
  candidates p 1700000 = [16384; 8192] /\ (length (candidates p 1700000) <= 2)%nat.
Proof.
  intros p. split; [vm_compute; reflexivity|].
  apply (dictionary_candidates_largest_two p 1700000).
  unfold dict_policy_ok, MAX_DICTIONARY_BYTES, MAX_SAMPLE_BYTES; cbn; lia.
Defined.
