(* ===== verification/Format.v ===== *)
(** V1 wire records of the active file and of the frame envelope
    (src/src/format.rs): the two 4 KiB sectors of an active file, the 24-byte
    record header, and lowercase hexadecimal digests. A [&'static str] carried
    by [FormatError::Invalid] is diagnostic text and is dropped. *)

From S2P Require Import Prelude Domain Layout.
From stdpp Require Import base strings gmap list sorting.
From Stdlib Require Import ZArith Lia.
Open Scope Z_scope.

Definition FORMAT_VERSION : Z := 1.
Definition SECTOR_SIZE : Z := 4096.
Definition ACTIVE_HEADER_SIZE : Z := SECTOR_SIZE.
Definition ACTIVE_STATE_SIZE : Z := SECTOR_SIZE.
Definition ACTIVE_METADATA_SIZE : Z := ACTIVE_HEADER_SIZE + 2 * ACTIVE_STATE_SIZE.
Definition FRAME_HEADER_SIZE : Z := 24.
Definition MAX_FRAME_PAYLOAD : Z := 8 * 1024 * 1024.

Definition ACTIVE_MAGIC : bytes := ascii "ZSQLAC01".
Definition FRAME_MAGIC : bytes := ascii "PFR1".
Definition ACTIVE_STATE_MAGIC : bytes := ascii "ZSQLAS01".

Inductive Codec : Set := CodecRaw | CodecZstd.

#[export] Instance Codec_eq_dec : EqDecision Codec.
Proof. solve_decision. Defined.

Definition Codec_byte (c : Codec) : Z :=
  match c with CodecRaw => 0 | CodecZstd => 1 end.
Definition Codec_try_from (v : Z) : result FormatError Codec :=
  if v =? 0 then Ok CodecRaw else if v =? 1 then Ok CodecZstd else Err FInvalid.

Record StoragePolicyRecord : Set := mkPolicy {
  pol_rollover_bytes : Z;
  pol_dictionary_bytes : Z;
  pol_sample_bytes : Z;
}.

Record ActiveHeader : Set := mkActiveHeader {
  ah_attachment_id : Digest;
  ah_database_id : Digest;
  ah_page_size : Z;
  ah_start_txid : Z;
  ah_base_history : Digest;
  ah_parent_physical_digest : Digest;
  ah_base_logical_size : Z;
  ah_policy : StoragePolicyRecord;
  ah_layout : LayoutPolicy;
  ah_source_bytes : Z;
  ah_source_header_digest : Digest;
}.

Record ActiveState : Set := mkActiveState {
  as_database_id : Digest;
  as_sequence : Z;
  as_txid : Z;
  as_logical_size : Z;
  as_page_size : Z;
  as_history : Digest;
  as_commit_unix : Z;
  as_first_commit_unix : Z;
  as_record_count : Z;
  as_truncate_pages : option Z;
}.

Record FrameHeader : Set := mkFrameHeader {
  fh_page_no : Z;
  fh_codec : Codec;
  fh_dictionary_index : Z;
  fh_stored_len : Z;
  fh_raw_len : Z;
}.

#[export] Instance StoragePolicyRecord_eq_dec : EqDecision StoragePolicyRecord.
Proof. solve_decision. Defined.
#[export] Instance ActiveHeader_eq_dec : EqDecision ActiveHeader.
Proof. solve_decision. Defined.
#[export] Instance ActiveState_eq_dec : EqDecision ActiveState.
Proof. solve_decision. Defined.
#[export] Instance FrameHeader_eq_dec : EqDecision FrameHeader.
Proof. solve_decision. Defined.

Definition put_u16 (o : bytes) (offset v : Z) : bytes := put o offset (le_bytes 2 v).
Definition put_u32 (o : bytes) (offset v : Z) : bytes := put o offset (le_bytes 4 v).
Definition get_u16 (i : bytes) (offset : Z) : Z := le_val (slice i offset (offset + 2)).
Definition get_u32 (i : bytes) (offset : Z) : Z := le_val (slice i offset (offset + 4)).

Definition valid_page_size (size : Z) : bool :=
  (512 <=? size) && (size <=? 65536) && is_power_of_two size.

Definition valid_policy (p : StoragePolicyRecord) : bool :=
  ((pol_rollover_bytes p =? 0) || (1024 * 1024 <=? pol_rollover_bytes p)) &&
  is_ok (DictionaryPolicy_new (pol_dictionary_bytes p) (pol_sample_bytes p)).

(** [put_policy] writes the 48 bytes that start at [base]. *)
Definition put_policy (o : bytes) (base : Z) (p : StoragePolicyRecord) : bytes :=
  let o := put_u64 o (base + 8) (pol_rollover_bytes p) in
  let o := put_u32 o (base + 16) (pol_dictionary_bytes p) in
  put_u64 o (base + 20) (pol_sample_bytes p).

Definition get_policy (i : bytes) : StoragePolicyRecord :=
  mkPolicy (get_u64 i 8) (get_u32 i 16) (get_u64 i 20).

Definition nibble (v : Z) : result FormatError Z :=
  if (48 <=? v) && (v <=? 57) then Ok (v - 48)
  else if (97 <=? v) && (v <=? 102) then Ok (v - 97 + 10)
  else Err FInvalid.

Definition hex_digit (v : Z) : Z := if v <? 10 then 48 + v else 97 + (v - 10).

(** [write!("{byte:02x}")] of every byte. *)
Definition hex (d : Digest) : bytes :=
  flat_map (fun b => [hex_digit (Z.shiftr b 4); hex_digit (Z.land b 15)]) d.

Fixpoint parse_pairs (v : bytes) : result FormatError bytes :=
  match v with
  | a :: b :: v' =>
      let* h := nibble a in
      let* l := nibble b in
      let* rest := parse_pairs v' in
      Ok (Z.lor (Z.shiftl h 4) l :: rest)
  | _ => Ok []
  end.

Definition parse_hex_digest (v : bytes) : result FormatError Digest :=
  fail_if negb (zlen v =? 64) with FInvalid ;;
  parse_pairs v.

Section WithHashes.
Context `{Hashes}.

Definition digest (i : bytes) : Digest := blake3 i.

Definition genesis_history : Digest := digest (ascii "zsqlite/sealed-lineage/v1/genesis").

Definition put_sector_checksum (o : bytes) : bytes :=
  put_u32 o (SECTOR_SIZE - 4) (crc32 (slice o 0 (SECTOR_SIZE - 4))).

Definition check_sector (i magic : bytes) : result FormatError unit :=
  fail_if negb (bytes_eqb (slice i 0 8) magic) with FInvalid ;;
  fail_if negb (get_u16 i 8 =? FORMAT_VERSION) with FVersion ;;
  fail_if negb (get_u32 i (SECTOR_SIZE - 4) =? crc32 (slice i 0 (SECTOR_SIZE - 4)))
    with FChecksum ;;
  Ok tt.

Definition put_record_checksum (n : Z) (o : bytes) : bytes :=
  put_u32 o (n - 4) (crc32 (slice o 0 (n - 4))).

Definition check_record (n : Z) (i : bytes) : result FormatError unit :=
  fail_if negb (get_u32 i (n - 4) =? crc32 (slice i 0 (n - 4))) with FChecksum ;;
  Ok tt.

(** *** Active state sector *)

Definition ActiveState_encode (s : ActiveState) : bytes :=
  let o := zeros ACTIVE_STATE_SIZE in
  let o := put o 0 ACTIVE_STATE_MAGIC in
  let o := put_u16 o 8 FORMAT_VERSION in
  let o := put o 16 (as_database_id s) in
  let o := put_u64 o 48 (as_sequence s) in
  let o := put_u64 o 56 (as_txid s) in
  let o := put_u64 o 64 (as_logical_size s) in
  let o := put_u32 o 72 (as_page_size s) in
  let o := put o 80 (as_history s) in
  let o := put_u64 o 112 (as_commit_unix s) in
  let o := put_u64 o 120 (as_record_count s) in
  let o := match as_truncate_pages s with
           | Some pages => put_u32 (put o 128 [1]) 132 pages
           | None => o
           end in
  let o := put_u64 o 136 (as_first_commit_unix s) in
  put_sector_checksum o.

Definition state_invalid (i : bytes) (s : ActiveState) : bool :=
  (as_sequence s =? 0)
  || ((as_page_size s =? 0) && negb (as_logical_size s =? 0))
  || (negb (as_page_size s =? 0) &&
      (negb (valid_page_size (as_page_size s)) ||
       negb (is_multiple_of (as_logical_size s) (as_page_size s))))
  || negb (all_zero (slice i 10 16))
  || negb (all_zero (slice i 76 80))
  || match as_truncate_pages s with
     | None => false
     | Some pages =>
         (as_page_size s =? 0) || (as_logical_size s / as_page_size s <? pages)
     end
  || negb (all_zero (slice i 129 132))
  || negb (all_zero (slice i 144 (ACTIVE_STATE_SIZE - 4))).

Definition ActiveState_decode (i : bytes) : result FormatError ActiveState :=
  let* _ := check_sector i ACTIVE_STATE_MAGIC in
  let* truncate :=
    (if (byte_at i 128 =? 0) && (get_u32 i 132 =? 0) then Ok None
     else if byte_at i 128 =? 1 then Ok (Some (get_u32 i 132))
     else Err FInvalid) in
  let s := {|
    as_database_id := slice i 16 48;
    as_sequence := get_u64 i 48;
    as_txid := get_u64 i 56;
    as_logical_size := get_u64 i 64;
    as_page_size := get_u32 i 72;
    as_history := slice i 80 112;
    as_commit_unix := get_u64 i 112;
    as_first_commit_unix := get_u64 i 136;
    as_record_count := get_u64 i 120;
    as_truncate_pages := truncate;
  |} in
  fail_if state_invalid i s with FInvalid ;;
  Ok s.

(** *** Active header sector *)

Definition ActiveHeader_encode (h : ActiveHeader) : bytes :=
  let o := zeros SECTOR_SIZE in
  let o := put o 0 ACTIVE_MAGIC in
  let o := put_u16 o 8 FORMAT_VERSION in
  let o := put o 16 (ah_database_id h) in
  let o := put_u32 o 64 (ah_page_size h) in
  let o := put_u64 o 72 (ah_start_txid h) in
  let o := put o 80 (ah_base_history h) in
  let o := put o 112 (ah_parent_physical_digest h) in
  let o := put_u64 o 144 (ah_base_logical_size h) in
  let o := put_policy o 208 (ah_policy h) in
  let o := put o 256 (LayoutPolicy_encode (ah_layout h)) in
  let o := put o 384 (ah_attachment_id h) in
  let o := put_u64 o 416 (ah_source_bytes h) in
  let o := put o 424 (ah_source_header_digest h) in
  put_sector_checksum o.

Definition header_invalid (i : bytes) (h : ActiveHeader) : bool :=
  (ah_start_txid h =? 0)
  || negb (all_zero (slice i 10 16))
  || negb (all_zero (slice i 48 64))
  || negb (all_zero (slice i 68 72))
  || negb (all_zero (slice i 152 208))
  || negb (valid_policy (ah_policy h))
  || (negb (ah_page_size h =? 0) && negb (valid_page_size (ah_page_size h)))
  || ((ah_page_size h =? 0) && negb (ah_base_logical_size h =? 0))
  || (negb (ah_page_size h =? 0) &&
      negb (is_multiple_of (ah_base_logical_size h) (ah_page_size h)))
  || xorb (ah_start_txid h =? 1) (bytes_eqb (ah_parent_physical_digest h) ZERO_DIGEST)
  || ((ah_start_txid h =? 1) && negb (bytes_eqb (ah_base_history h) genesis_history))
  || negb (all_zero (slice i 236 256))
  || xorb (ah_source_bytes h =? 0) (bytes_eqb (ah_source_header_digest h) ZERO_DIGEST)
  || (negb (ah_source_bytes h =? 0) &&
      ((ah_page_size h =? 0)
       || negb (is_multiple_of (ah_source_bytes h) (ah_page_size h))
       || negb (ah_start_txid h =? 1)))
  || negb (all_zero (slice i 456 (ACTIVE_HEADER_SIZE - 4))).

Definition ActiveHeader_decode (i : bytes) : result FormatError ActiveHeader :=
  let* _ := check_sector i ACTIVE_MAGIC in
  let* layout := map_err (fun _ => FInvalid) (LayoutPolicy_decode (slice i 256 384)) in
  let h := {|
    ah_attachment_id := slice i 384 416;
    ah_database_id := slice i 16 48;
    ah_page_size := get_u32 i 64;
    ah_start_txid := get_u64 i 72;
    ah_base_history := slice i 80 112;
    ah_parent_physical_digest := slice i 112 144;
    ah_base_logical_size := get_u64 i 144;
    ah_policy := get_policy (slice i 208 256);
    ah_layout := layout;
    ah_source_bytes := get_u64 i 416;
    ah_source_header_digest := slice i 424 456;
  |} in
  fail_if header_invalid i h with FInvalid ;;
  Ok h.

(** *** Frame record header *)

Definition record_len (h : FrameHeader) : Z := FRAME_HEADER_SIZE + fh_stored_len h.

Definition FrameHeader_encode (h : FrameHeader) : bytes :=
  let o := zeros FRAME_HEADER_SIZE in
  let o := put o 0 FRAME_MAGIC in
  let o := put_u32 o 4 (fh_page_no h) in
  let o := put o 8 [Codec_byte (fh_codec h)] in
  let o := put_u16 o 10 (fh_dictionary_index h) in
  let o := put_u32 o 12 (fh_stored_len h) in
  let o := put_u32 o 16 (fh_raw_len h) in
  put_record_checksum FRAME_HEADER_SIZE o.

Definition FrameHeader_decode (i : bytes) : result FormatError FrameHeader :=
  fail_if negb (bytes_eqb (slice i 0 4) FRAME_MAGIC) with FInvalid ;;
  let* _ := check_record FRAME_HEADER_SIZE i in
  let* codec := Codec_try_from (byte_at i 8) in
  let h := {|
    fh_page_no := get_u32 i 4;
    fh_codec := codec;
    fh_dictionary_index := get_u16 i 10;
    fh_stored_len := get_u32 i 12;
    fh_raw_len := get_u32 i 16;
  |} in
  fail_if (fh_page_no h =? 0)
    || negb (byte_at i 9 =? 0)
    || (fh_raw_len h <? 512)
    || (MAX_FRAME_PAYLOAD <? fh_raw_len h)
    || negb (is_multiple_of (fh_raw_len h) 512)
    || (fh_stored_len h =? 0)
    || (fh_raw_len h <? fh_stored_len h)
    || (MAX_FRAME_PAYLOAD <? fh_stored_len h)
    || (bool_decide (fh_codec h = CodecRaw) &&
        (negb (fh_dictionary_index h =? U16_MAX)
         || negb (fh_stored_len h =? fh_raw_len h)))
    with FInvalid ;;
  Ok h.

End WithHashes.

(** ** Well-typed and valid records *)

Definition policy_ok (p : StoragePolicyRecord) : Prop :=
  is_u64 (pol_rollover_bytes p) /\ is_u32 (pol_dictionary_bytes p) /\
  is_u64 (pol_sample_bytes p) /\ valid_policy p = true.

Definition frame_header_ok (h : FrameHeader) : Prop :=
  1 <= fh_page_no h <= U32_MAX /\
  is_u16 (fh_dictionary_index h) /\
  512 <= fh_raw_len h <= MAX_FRAME_PAYLOAD /\ fh_raw_len h mod 512 = 0 /\
  1 <= fh_stored_len h <= fh_raw_len h /\
  (fh_codec h = CodecRaw ->
     fh_dictionary_index h = U16_MAX /\ fh_stored_len h = fh_raw_len h).

Definition active_state_ok (s : ActiveState) : Prop :=
  digest_ok (as_database_id s) /\ digest_ok (as_history s) /\
  1 <= as_sequence s <= U64_MAX /\ is_u64 (as_txid s) /\ is_u64 (as_logical_size s) /\
  is_u64 (as_commit_unix s) /\ is_u64 (as_first_commit_unix s) /\ is_u64 (as_record_count s) /\
  ((as_page_size s = 0 /\ as_logical_size s = 0) \/
   (page_size_ok (as_page_size s) /\ as_logical_size s mod as_page_size s = 0)) /\
  match as_truncate_pages s with
  | None => True
  | Some t => as_page_size s <> 0 /\ 0 <= t <= as_logical_size s / as_page_size s /\ is_u32 t
  end.

Definition active_header_ok `{Hashes} (h : ActiveHeader) : Prop :=
  digest_ok (ah_attachment_id h) /\ digest_ok (ah_database_id h) /\
  digest_ok (ah_base_history h) /\ digest_ok (ah_parent_physical_digest h) /\
  digest_ok (ah_source_header_digest h) /\
  policy_ok (ah_policy h) /\ layout_ok (ah_layout h) /\
  1 <= ah_start_txid h <= U64_MAX /\ is_u64 (ah_base_logical_size h) /\ is_u64 (ah_source_bytes h) /\
  ((ah_page_size h = 0 /\ ah_base_logical_size h = 0) \/
   (page_size_ok (ah_page_size h) /\ ah_base_logical_size h mod ah_page_size h = 0)) /\
  (ah_start_txid h = 1 <-> ah_parent_physical_digest h = ZERO_DIGEST) /\
  (ah_start_txid h = 1 -> ah_base_history h = genesis_history) /\
  (ah_source_bytes h = 0 <-> ah_source_header_digest h = ZERO_DIGEST) /\
  (ah_source_bytes h <> 0 ->
     page_size_ok (ah_page_size h) /\ ah_source_bytes h mod ah_page_size h = 0 /\
     ah_start_txid h = 1).

(** ** Lemmas *)

Lemma zlen_ACTIVE_MAGIC : zlen ACTIVE_MAGIC = 8.
Proof. done. Qed.
Lemma zlen_ACTIVE_STATE_MAGIC : zlen ACTIVE_STATE_MAGIC = 8.
Proof. done. Qed.
Lemma zlen_FRAME_MAGIC : zlen FRAME_MAGIC = 4.
Proof. done. Qed.
Lemma zlen_put_u16 o a v : zlen (put_u16 o a v) = zlen o.
Proof. apply zlen_put. Qed.
Lemma zlen_put_u32 o a v : zlen (put_u32 o a v) = zlen o.
Proof. apply zlen_put. Qed.
Lemma zlen_put_policy o a p : zlen (put_policy o a p) = zlen o.
Proof. unfold put_policy. by rewrite zlen_put_u64, zlen_put_u32, zlen_put_u64. Qed.
#[export] Hint Rewrite zlen_ACTIVE_MAGIC zlen_ACTIVE_STATE_MAGIC zlen_FRAME_MAGIC
  zlen_put_u16 zlen_put_u32 zlen_put_policy : zlens.

Lemma get_u16_u16 i a : is_bytes i -> 0 <= a -> a + 2 <= zlen i -> is_u16 (get_u16 i a).
Proof. intros. apply le_val_u16; [auto with bytedb|rewrite zlen_slice; lia]. Qed.
Lemma get_u32_u32 i a : is_bytes i -> 0 <= a -> a + 4 <= zlen i -> is_u32 (get_u32 i a).
Proof. intros. apply le_val_u32; [auto with bytedb|rewrite zlen_slice; lia]. Qed.

Lemma get_u64_is i a : is_bytes i -> 0 <= a -> a + 8 <= zlen i -> is_u64 (get_u64 i a).
Proof. intros. apply le_val_u64; [auto with bytedb|rewrite zlen_slice; lia]. Qed.

Lemma le_val_2 v : is_u16 v -> le_val (le_bytes 2 v) = v.
Proof. intros. by apply le_val_bytes_small. Qed.
Lemma le_val_4 v : is_u32 v -> le_val (le_bytes 4 v) = v.
Proof. intros. by apply le_val_bytes_small. Qed.
Lemma le_val_8 v : is_u64 v -> le_val (le_bytes 8 v) = v.
Proof. intros. by apply le_val_bytes_small. Qed.

Lemma le_bytes_slice n i a b :
  is_bytes i -> 0 <= a -> b = a + Z.of_nat n -> b <= zlen i ->
  le_bytes n (le_val (slice i a b)) = slice i a b.
Proof.
  intros ? ? -> ?. apply le_bytes_val; [auto with bytedb|].
  pose proof (zlen_slice i a (a + Z.of_nat n)). unfold zlen in *. lia.
Qed.

Ltac le_slice := apply le_bytes_slice; (done || lia).

Lemma valid_page_size_spec s : valid_page_size s = true <-> page_size_ok s.
Proof.
  pose proof (PageSize_new_spec s s) as Hs. unfold PageSize_new in Hs.
  unfold valid_page_size. rewrite fail_if_Ok, orb_false_iff, !negb_false_iff in Hs.
  rewrite andb_true_iff. split.
  - intros [Ha Hb]. apply Hs. split; [done|].
    destruct (Z.eqb_spec s 0); [bools; lia|done].
  - intros Hok. apply (proj2 Hs (conj eq_refl Hok)).
Qed.

Lemma zlen_digest d : digest_ok d -> zlen d = 32.
Proof. by intros []. Qed.

(** Positions of the fields of a sector read back what was written. *)
Ltac fields :=
  unfold get_u16, get_u32, get_u64, put_policy, put_u16, put_u32, put_u64; slices.

(** Every write of a record has its declared width and lies inside the array. *)
Ltac write_fit :=
  repeat (apply Forall_cons_2; [cbn [write_fits]; split; [autorewrite with zlens; (done || lia)|lia]|]);
  apply Forall_nil_2.

Section FormatLemmas.
Context `{HH : Hashes} {HOK : HashesOk HH}.

Lemma slice_put_sector o a b :
  0 <= a -> b <= SECTOR_SIZE - 4 -> slice (put_sector_checksum o) a b = slice o a b.
Proof. intros. unfold put_sector_checksum, put_u32. apply slice_put_before; done. Qed.

Lemma byte_at_put_sector o a :
  zlen o = SECTOR_SIZE -> 0 <= a < SECTOR_SIZE - 4 ->
  byte_at (put_sector_checksum o) a = byte_at o a.
Proof. intros. unfold put_sector_checksum, put_u32. apply byte_at_put_ne; lia. Qed.

Lemma check_sector_put o magic :
  zlen o = SECTOR_SIZE -> slice o 0 8 = magic -> slice o 8 10 = le_bytes 2 FORMAT_VERSION ->
  check_sector (put_sector_checksum o) magic = Ok tt.
Proof.
  intros Hl Hm Hv. unfold check_sector, get_u16, get_u32.
  rewrite slice_put_sector, Hm, bytes_eqb_refl by (unfold SECTOR_SIZE; lia). simpl negb; cbv iota.
  rewrite slice_put_sector by (unfold SECTOR_SIZE; lia).
  change (8 + 2) with 10. rewrite Hv, le_val_2 by (unfold is_u16, FORMAT_VERSION; lia).
  rewrite Z.eqb_refl; simpl negb; cbv iota.
  rewrite (slice_put_sector o 0 (SECTOR_SIZE - 4)) by (unfold SECTOR_SIZE; lia).
  unfold put_sector_checksum, put_u32, SECTOR_SIZE in *. rewrite slice_put_same by len_side.
  rewrite le_val_4 by apply crc32_u32. by rewrite Z.eqb_refl.
Qed.

Lemma check_sector_inv i magic u :
  is_bytes i -> zlen i = SECTOR_SIZE -> check_sector i magic = Ok u ->
  slice i 0 8 = magic /\ slice i 8 10 = le_bytes 2 FORMAT_VERSION /\
  slice i 4092 4096 = le_bytes 4 (crc32 (slice i 0 4092)).
Proof.
  intros Hb Hl H. unfold check_sector, get_u16, get_u32 in H. inv_ok. bools.
  change (SECTOR_SIZE - 4) with 4092 in *. change (8 + 2) with 10 in *.
  change (4092 + 4) with 4096 in *. unfold SECTOR_SIZE in *.
  apply bytes_eqb_true in Hguard. apply Z.eqb_eq in Hguard0, Hguard1.
  split_and!; [done| |].
  - rewrite <- Hguard0. symmetry. apply le_bytes_slice; [done|lia|lia|lia].
  - rewrite <- Hguard1. symmetry. apply le_bytes_slice; [done|lia|lia|lia].
Qed.

(** A record is rebuilt exactly when its prefix is and its trailing checksum
    was the one of that prefix. *)
Lemma put_record_checksum_canon n o i :
  zlen i = n -> zlen o = n -> 4 <= n ->
  slice o 0 (n - 4) = slice i 0 (n - 4) ->
  slice i (n - 4) n = le_bytes 4 (crc32 (slice i 0 (n - 4))) ->
  put_record_checksum n o = i.
Proof.
  intros Hi Ho Hn Hp Hc. unfold put_record_checksum, put_u32.
  apply (slices_agree_eq [n - 4]); [by rewrite zlen_put, Hi|].
  simpl. rewrite zlen_put, Ho. split_and!; [lia| |].
  - by rewrite slice_put_before, Hp by lia.
  - rewrite slice_put_same by len_side. by rewrite Hp, Hc.
Qed.

Lemma zlen_put_sector o : zlen (put_sector_checksum o) = zlen o.
Proof. apply zlen_put_u32. Qed.

Lemma zlen_ActiveState_encode s : zlen (ActiveState_encode s) = SECTOR_SIZE.
Proof.
  unfold ActiveState_encode. rewrite zlen_put_sector, zlen_put_u64.
  destruct (as_truncate_pages s); lens; done.
Qed.

Lemma zlen_ActiveHeader_encode h : zlen (ActiveHeader_encode h) = SECTOR_SIZE.
Proof. unfold ActiveHeader_encode. rewrite zlen_put_sector. lens. done. Qed.

Lemma zlen_FrameHeader_encode h : zlen (FrameHeader_encode h) = FRAME_HEADER_SIZE.
Proof. unfold FrameHeader_encode, put_record_checksum. lens. done. Qed.

Lemma is_bytes_put_u32 o a v : is_bytes o -> is_bytes (put_u32 o a v).
Proof. unfold put_u32. auto with bytedb. Qed.

Lemma is_bytes_FrameHeader_encode h : is_bytes (FrameHeader_encode h).
Proof.
  unfold FrameHeader_encode, put_record_checksum, put_u32, put_u16.
  assert (is_bytes [Codec_byte (fh_codec h)]).
  { constructor; [|constructor]. destruct (fh_codec h); unfold is_u8; simpl; lia. }
  assert (is_bytes FRAME_MAGIC) by apply is_bytes_ascii.
  auto 20 with bytedb.
Qed.

(** *** Frame header *)

Lemma Codec_try_from_byte c : Codec_try_from (Codec_byte c) = Ok c.
Proof. by destruct c. Qed.

Lemma Codec_try_from_inv v c : Codec_try_from v = Ok c -> v = Codec_byte c.
Proof.
  unfold Codec_try_from. destruct (Z.eqb_spec v 0), (Z.eqb_spec v 1); intros H; inv_ok; subst; done.
Qed.

Lemma frame_header_roundtrip_lemma h :
  frame_header_ok h -> FrameHeader_decode (FrameHeader_encode h) = Ok h.
Proof.
  intros (Hp & Hd & Hr & Hm & Hs & Hraw). unfold FrameHeader_decode.
  remember (FrameHeader_encode h) as e.
  assert (slice e 0 4 = FRAME_MAGIC) as ->
    by (subst e; unfold FrameHeader_encode, put_record_checksum, FRAME_HEADER_SIZE; fields; done).
  rewrite bytes_eqb_refl; simpl negb; cbv iota.
  assert (check_record FRAME_HEADER_SIZE e = Ok tt) as ->.
  { subst e. unfold check_record, FrameHeader_encode, put_record_checksum, FRAME_HEADER_SIZE.
    fields. rewrite le_val_4 by apply crc32_u32. by rewrite Z.eqb_refl. }
  simpl rbind.
  assert (byte_at e 8 = Codec_byte (fh_codec h) /\ byte_at e 9 = 0 /\ get_u32 e 4 = fh_page_no h /\
    get_u16 e 10 = fh_dictionary_index h /\ get_u32 e 12 = fh_stored_len h /\
    get_u32 e 16 = fh_raw_len h) as (E1 & E2 & E3 & E4 & E5 & E6).
  { unfold U32_MAX, MAX_FRAME_PAYLOAD in *. subst e.
    unfold FrameHeader_encode, put_record_checksum, FRAME_HEADER_SIZE. fields.
    rewrite !le_val_4, le_val_2 by (unfold is_u16, is_u32 in *; lia). done. }
  rewrite E1, Codec_try_from_byte. simpl rbind. cbv zeta. rewrite E2, E3, E4, E5, E6.
  clear Heqe e E1 E2 E3 E4 E5 E6. destruct h as [p c d s r]; simpl in *.
  match goal with |- (if ?b then _ else _) = _ => assert (b = false) as ->; [|done] end.
  unfold is_multiple_of, MAX_FRAME_PAYLOAD, U32_MAX, is_u16 in *.
  rewrite !orb_false_iff. repeat split; try (apply Z.eqb_neq; lia); try lia.
  - simpl. lia.
  - destruct c; simpl; [|done]. destruct Hraw as [-> ->]; [done|].
    by rewrite !Z.eqb_refl.
Qed.

Lemma FrameHeader_decode_sound_lemma i h :
  is_bytes i -> zlen i = FRAME_HEADER_SIZE -> FrameHeader_decode i = Ok h ->
  frame_header_ok h /\ FrameHeader_encode h = i.
Proof.
  intros Hb Hl H. unfold FrameHeader_decode, check_record in H.
  inv_ok. subst h. apply Codec_try_from_inv in Hok0 as Hc.
  unfold FRAME_HEADER_SIZE in *. simpl fh_page_no in *. simpl fh_codec in *.
  simpl fh_raw_len in *. simpl fh_stored_len in *. simpl fh_dictionary_index in *.
  rewrite !orb_false_iff in Hguard0.
  destruct Hguard0 as [[[[[[[[G1 G2] G3] G4] G5] G6] G7] G8] G9].
  pose proof (get_u32_u32 i 4 Hb ltac:(lia) ltac:(lia)).
  pose proof (get_u32_u32 i 12 Hb ltac:(lia) ltac:(lia)).
  pose proof (get_u32_u32 i 16 Hb ltac:(lia) ltac:(lia)).
  pose proof (get_u16_u16 i 10 Hb ltac:(lia) ltac:(lia)).
  bools. unfold is_multiple_of in G5. simpl in G5. apply Z.eqb_eq in G2.
  unfold is_u32, U32_MAX in *. split.
  - unfold frame_header_ok, U32_MAX; simpl. split_and!; try done; try lia.
    intros Hraw. rewrite bool_decide_true in G9 by done. simpl in G9. bools. lia.
  - apply Z.eqb_eq in Hguard1. apply bytes_eqb_true in Hguard.
    unfold FrameHeader_encode. unfold FRAME_HEADER_SIZE. apply put_record_checksum_canon.
    { done. } { lens. done. } { lia. }
    2:{ change (24 - 4) with 20 in *. unfold get_u32 in Hguard1. rewrite <- Hguard1. symmetry. le_slice. }
    apply (slices_upto_last [4; 8; 9; 10; 12; 16; 20] _ _ 0); [lia|].
    simpl slices_upto. repeat (split; [lia|split]); fields; try done.
    + le_slice.
    + change 9 with (8 + 1). rewrite byte_at_slice by lia. simpl. by rewrite Hc.
    + change 10 with (9 + 1). rewrite byte_at_slice by lia. by rewrite G2.
    + le_slice.
    + le_slice.
    + le_slice.
Qed.

(** *** Active state sector *)

(** The writes that build the sector before its checksum. A committed truncation
    writes its flag and page count; without one both stay zero. *)
Definition state_writes (s : ActiveState) : list write :=
  [(0, 8, ACTIVE_STATE_MAGIC); (8, 2, le_bytes 2 FORMAT_VERSION);
   (16, 32, as_database_id s); (48, 8, le_bytes 8 (as_sequence s));
   (56, 8, le_bytes 8 (as_txid s)); (64, 8, le_bytes 8 (as_logical_size s));
   (72, 4, le_bytes 4 (as_page_size s)); (80, 32, as_history s);
   (112, 8, le_bytes 8 (as_commit_unix s)); (120, 8, le_bytes 8 (as_record_count s))] ++
  match as_truncate_pages s with
  | Some pages => [(128, 1, [1]); (132, 4, le_bytes 4 pages)]
  | None => []
  end ++
  [(136, 8, le_bytes 8 (as_first_commit_unix s))].

Lemma put_sector_record o : put_sector_checksum o = put_record_checksum SECTOR_SIZE o.
Proof. done. Qed.

Lemma ActiveState_encode_writes s :
  ActiveState_encode s = put_record_checksum SECTOR_SIZE (writes (zeros 4096) (state_writes s)).
Proof.
  unfold ActiveState_encode, state_writes, put_u16, put_u32, put_u64, ACTIVE_STATE_SIZE.
  rewrite put_sector_record. change SECTOR_SIZE with 4096.
  destruct (as_truncate_pages s); unfold writes; cbn [fold_left app]; reflexivity.
Qed.

Lemma state_writes_fit s :
  digest_ok (as_database_id s) -> digest_ok (as_history s) ->
  Forall (write_fits (zlen (zeros 4096))) (state_writes s).
Proof.
  intros Hd%zlen_digest Hh%zlen_digest. unfold state_writes.
  rewrite (zlen_zeros 4096) by lia.
  destruct (as_truncate_pages s); simpl app; write_fit.
Qed.

(** What a valid state sector says of its fields. *)
Lemma state_invalid_spec i s :
  state_invalid i s = false ->
  as_sequence s <> 0 /\
  ((as_page_size s = 0 /\ as_logical_size s = 0) \/
   (page_size_ok (as_page_size s) /\ as_logical_size s mod as_page_size s = 0)) /\
  (forall t, as_truncate_pages s = Some t ->
     as_page_size s <> 0 /\ t <= as_logical_size s / as_page_size s) /\
  slice i 10 16 = zeros (zlen (slice i 10 16)) /\ slice i 76 80 = zeros (zlen (slice i 76 80)) /\
  slice i 129 132 = zeros (zlen (slice i 129 132)) /\
  slice i 144 4092 = zeros (zlen (slice i 144 4092)).
Proof.
  unfold state_invalid. rewrite !orb_false_iff.
  intros [[[[[[[H1 H2] H3] H4] H5] H6] H7] H8]. bools.
  change (ACTIVE_STATE_SIZE - 4) with 4092 in H8.
  repeat match goal with H : all_zero _ = true |- _ => apply all_zero_spec in H end.
  split_and!; try done; [lia| |].
  - destruct (Z.eqb_spec (as_page_size s) 0) as [E|E]; simpl in H2, H3; [left; lia|right].
    apply orb_false_iff in H3 as [Hv Hm]. bools. apply valid_page_size_spec in Hv.
    unfold is_multiple_of in Hm. rewrite (proj2 (Z.eqb_neq _ _) E) in Hm. split; [done|lia].
  - intros t Ht. rewrite Ht in H6. apply orb_false_iff in H6. lia.
Qed.

Lemma state_invalid_ok i s :
  active_state_ok s ->
  slice i 10 16 = zeros 6 -> slice i 76 80 = zeros 4 -> slice i 129 132 = zeros 3 ->
  slice i 144 4092 = zeros 3948 ->
  state_invalid i s = false.
Proof.
  intros (_ & _ & Hs & _ & _ & _ & _ & _ & Hp & Ht) Z1 Z2 Z3 Z4. unfold state_invalid.
  change (ACTIVE_STATE_SIZE - 4) with 4092. rewrite Z1, Z2, Z3, Z4, !all_zero_zeros.
  simpl negb. rewrite !orb_false_r, !orb_false_iff. split_and!.
  - lia.
  - destruct Hp as [[-> ->]|[Hp _]]; [done|].
    apply page_size_ok_bounds in Hp. destruct (Z.eqb_spec (as_page_size s) 0); [lia|done].
  - destruct Hp as [[-> ->]|[Hp Hm]]; [done|].
    rewrite (proj2 (valid_page_size_spec _) Hp). apply page_size_ok_bounds in Hp.
    unfold is_multiple_of.
    destruct (Z.eqb_spec (as_page_size s) 0); [done|]. simpl. by rewrite Hm.
  - destruct (as_truncate_pages s); [|done]. apply orb_false_iff. lia.
Qed.

(** Fields of a checksummed sector built by a list of writes. *)
Lemma sector_field ws a b v :
  Forall (write_fits (zlen (zeros 4096))) ws -> 0 <= a -> b <= 4092 ->
  read_rev (zeros 4096) (reverse ws) a b = v ->
  slice (put_record_checksum SECTOR_SIZE (writes (zeros 4096) ws)) a b = v.
Proof.
  intros Hf Ha Hb <-. rewrite <- put_sector_record, slice_put_sector by (unfold SECTOR_SIZE; lia).
  by apply read_back.
Qed.

Lemma sector_gap ws a b :
  Forall (write_fits (zlen (zeros 4096))) ws -> 0 <= a -> b <= 4092 ->
  read_rev (zeros 4096) (reverse ws) a b = slice (zeros 4096) a b ->
  slice (put_record_checksum SECTOR_SIZE (writes (zeros 4096) ws)) a b = zeros (b - a).
Proof. intros. rewrite <- slice_zeros with (n := 4096) by lia. by apply sector_field. Qed.

Lemma sector_byte ws i v :
  Forall (write_fits (zlen (zeros 4096))) ws -> 0 <= i < 4092 ->
  read_rev (zeros 4096) (reverse ws) i (i + 1) = [v] ->
  byte_at (put_record_checksum SECTOR_SIZE (writes (zeros 4096) ws)) i = v.
Proof. intros. apply byte_at_of_slice. apply sector_field; (done || lia). Qed.

Lemma sector_check ws magic :
  Forall (write_fits (zlen (zeros 4096))) ws ->
  read_rev (zeros 4096) (reverse ws) 0 8 = magic ->
  read_rev (zeros 4096) (reverse ws) 8 10 = le_bytes 2 FORMAT_VERSION ->
  check_sector (put_record_checksum SECTOR_SIZE (writes (zeros 4096) ws)) magic = Ok tt.
Proof.
  intros. rewrite <- put_sector_record. apply check_sector_put.
  - rewrite zlen_writes. by apply zlen_zeros.
  - by rewrite read_back.
  - by rewrite read_back.
Qed.

Lemma sector_u32 ws a v :
  Forall (write_fits (zlen (zeros 4096))) ws -> 0 <= a <= 4088 -> is_u32 v ->
  read_rev (zeros 4096) (reverse ws) a (a + 4) = le_bytes 4 v ->
  get_u32 (put_record_checksum SECTOR_SIZE (writes (zeros 4096) ws)) a = v.
Proof.
  intros W Ha Hv H. unfold get_u32.
  rewrite (sector_field ws a (a + 4) (le_bytes 4 v)) by (done || lia). by apply le_val_4.
Qed.

Lemma sector_u64 ws a v :
  Forall (write_fits (zlen (zeros 4096))) ws -> 0 <= a <= 4084 -> is_u64 v ->
  read_rev (zeros 4096) (reverse ws) a (a + 8) = le_bytes 8 v ->
  get_u64 (put_record_checksum SECTOR_SIZE (writes (zeros 4096) ws)) a = v.
Proof.
  intros W Ha Hv H. unfold get_u64.
  rewrite (sector_field ws a (a + 8) (le_bytes 8 v)) by (done || lia). by apply le_val_8.
Qed.

Lemma state_truncate_field s (e := put_record_checksum SECTOR_SIZE (writes (zeros 4096) (state_writes s))) :
  Forall (write_fits (zlen (zeros 4096))) (state_writes s) ->
  (forall t, as_truncate_pages s = Some t -> is_u32 t) ->
  byte_at e 128 = match as_truncate_pages s with Some _ => 1 | None => 0 end /\
  get_u32 e 132 = default 0 (as_truncate_pages s).
Proof.
  intros W Ht. subst e. split.
  - apply sector_byte; [done|lia|]. unfold state_writes. by destruct (as_truncate_pages s).
  - apply sector_u32; [done|lia| |].
    + destruct (as_truncate_pages s); simpl; [by apply Ht|unfold is_u32; lia].
    + unfold state_writes. by destruct (as_truncate_pages s).
Qed.

Lemma active_state_roundtrip_lemma s :
  active_state_ok s -> ActiveState_decode (ActiveState_encode s) = Ok s.
Proof.
  intros Hs. pose proof Hs as (Hd & Hh & Hq & Ht & Hl & Hc & Hf & Hr & Hp & Htr).
  pose proof (state_writes_fit s Hd Hh) as W.
  assert (is_u32 (as_page_size s)) as Hp32.
  { destruct Hp as [[-> _]|[Hp%page_size_ok_bounds _]]; unfold is_u32; lia. }
  assert (is_u64 (as_sequence s)) by (unfold is_u64, U64_MAX in *; lia).
  assert (forall t, as_truncate_pages s = Some t -> is_u32 t) as Htu
    by (intros t E; rewrite E in Htr; apply Htr).
  destruct (state_truncate_field s W Htu) as [Eb Ew].
  rewrite ActiveState_encode_writes. unfold ActiveState_decode. rewrite Eb, Ew.
  rewrite sector_check; [|done|unfold state_writes; by destruct (as_truncate_pages s)..].
  cbn [rbind].
  replace (if (match as_truncate_pages s with Some _ => 1 | None => 0 end =? 0) && _ then _ else _)
    with (@Ok FormatError _ (as_truncate_pages s)) by by destruct (as_truncate_pages s).
  cbn [rbind]. cbv zeta.
  rewrite (sector_field (state_writes s) 16 48 (as_database_id s)), (sector_u64 (state_writes s) 48 (as_sequence s)),
    (sector_u64 (state_writes s) 56 (as_txid s)), (sector_u64 (state_writes s) 64 (as_logical_size s)),
    (sector_u32 (state_writes s) 72 (as_page_size s)), (sector_field (state_writes s) 80 112 (as_history s)),
    (sector_u64 (state_writes s) 112 (as_commit_unix s)), (sector_u64 (state_writes s) 136 (as_first_commit_unix s)),
    (sector_u64 (state_writes s) 120 (as_record_count s));
    try done; try lia; try (unfold state_writes; by destruct (as_truncate_pages s)).
  rewrite state_invalid_ok; [by destruct s|by destruct s|..];
    (apply sector_gap; [done|lia|lia|unfold state_writes; by destruct (as_truncate_pages s)]).
Qed.

(** A decoded sector is rebuilt when every field read from it is the write at
    that offset. *)
Lemma sector_canon i ws cuts :
  zlen i = 4096 -> Forall (write_fits (zlen (zeros 4096))) ws ->
  slice i 4092 4096 = le_bytes 4 (crc32 (slice i 0 4092)) ->
  final_cut 0 cuts = 4092 -> slices_upto 0 cuts (writes (zeros 4096) ws) i ->
  put_record_checksum SECTOR_SIZE (writes (zeros 4096) ws) = i.
Proof.
  intros Hl Hw Hc Hf Hs. apply put_record_checksum_canon.
  - done.
  - rewrite zlen_writes. by apply zlen_zeros.
  - unfold SECTOR_SIZE; lia.
  - apply slices_upto_last in Hs as [_ Hs]; [|lia]. by rewrite Hf in Hs.
  - done.
Qed.

Lemma slice_digest_ok i a :
  is_bytes i -> 0 <= a -> a + 32 <= zlen i -> digest_ok (slice i a (a + 32)).
Proof. intros. split; [rewrite zlen_slice; lia|auto with bytedb]. Qed.

Lemma ActiveState_decode_ok i s :
  is_bytes i -> zlen i = 4096 -> ActiveState_decode i = Ok s ->
  active_state_ok s /\
  (slice i 0 8 = ACTIVE_STATE_MAGIC /\ slice i 8 10 = le_bytes 2 FORMAT_VERSION /\
   slice i 4092 4096 = le_bytes 4 (crc32 (slice i 0 4092))) /\
  state_invalid i s = false /\
  (as_database_id s = slice i 16 48 /\ as_sequence s = get_u64 i 48 /\ as_txid s = get_u64 i 56 /\
   as_logical_size s = get_u64 i 64 /\ as_page_size s = get_u32 i 72 /\
   as_history s = slice i 80 112 /\ as_commit_unix s = get_u64 i 112 /\
   as_first_commit_unix s = get_u64 i 136 /\ as_record_count s = get_u64 i 120) /\
  byte_at i 128 = (match as_truncate_pages s with Some _ => 1 | None => 0 end) /\
  get_u32 i 132 = default 0 (as_truncate_pages s).
Proof.
  intros Hb Hl H. unfold ActiveState_decode in H. inv_ok.
  apply check_sector_inv in Hok as Hcheck; [|done|done].
  assert (byte_at i 128 = (match a0 with Some _ => 1 | None => 0 end) /\
          get_u32 i 132 = default 0 a0) as [Ht1 Ht2].
  { destruct (Z.eqb_spec (byte_at i 128) 0), (Z.eqb_spec (get_u32 i 132) 0),
      (Z.eqb_spec (byte_at i 128) 1); simpl in Hok0; inv_ok; subst; simpl; try done; lia. }
  apply state_invalid_spec in Hguard as Hspec.
  destruct Hspec as (Hq & Hp & Htr & _). subst s. simpl in *.
  split; [|split; [exact Hcheck|split; [exact Hguard|split; [done|done]]]].
  pose proof (fun a h1 h2 => get_u64_is i a Hb h1 h2) as H64.
  pose proof (fun a h1 h2 => get_u32_u32 i a Hb h1 h2) as H32.
  pose proof (H64 48 ltac:(lia) ltac:(lia)) as H48. unfold is_u64 in H48.
  unfold active_state_ok, U64_MAX; simpl.
  split_and!; try lia; try (apply H64; lia); try done; try (by apply (slice_digest_ok i); lia || done).
  destruct a0 as [t|]; [|done]. specialize (Htr t eq_refl). simpl in Ht2. subst t.
  pose proof (H32 132 ltac:(lia) ltac:(lia)) as H132. unfold is_u32 in *. lia.
Qed.

Lemma le_bytes_get_u64 i a b :
  is_bytes i -> 0 <= a -> b = a + 8 -> b <= zlen i -> le_bytes 8 (get_u64 i a) = slice i a b.
Proof. intros ? ? -> ?. unfold get_u64. le_slice. Qed.
Lemma le_bytes_get_u32 i a b :
  is_bytes i -> 0 <= a -> b = a + 4 -> b <= zlen i -> le_bytes 4 (get_u32 i a) = slice i a b.
Proof. intros ? ? -> ?. unfold get_u32. le_slice. Qed.

Lemma active_state_canonical_lemma i s :
  is_bytes i -> zlen i = 4096 -> ActiveState_decode i = Ok s ->
  active_state_ok s /\ ActiveState_encode s = i.
Proof.
  intros Hb Hl H. apply ActiveState_decode_ok in H as (Hok & (Hm & Hv & Hc) & Hinv & F & Ht1 & Ht2);
    [|done|done]. split; [done|].
  destruct F as (F1 & F2 & F3 & F4 & F5 & F6 & F7 & F8 & F9).
  apply state_invalid_spec in Hinv as (_ & _ & _ & Z1 & Z2 & Z3 & Z4).
  rewrite !zlen_slice in Z1, Z2, Z3, Z4 by lia.
  rewrite ActiveState_encode_writes. pose proof Hok as (Hd & Hh & _).
  apply (sector_canon i _ [8; 10; 16; 48; 56; 64; 72; 76; 80; 112; 120; 128; 129; 132; 136; 144; 4092]);
    [done|by apply state_writes_fit|done|done|].
  assert (slice i 128 129 = [match as_truncate_pages s with Some _ => 1 | None => 0 end]) as Hf1.
  { rewrite <- Ht1. apply (byte_at_slice i 128). lia. }
  assert (slice i 132 136 = le_bytes 4 (default 0 (as_truncate_pages s))) as Hf2.
  { rewrite <- Ht2. symmetry. apply le_bytes_get_u32; (done || lia). }
  pose proof (state_writes_fit s Hd Hh) as W.
  simpl slices_upto. rewrite !read_back by (done || lia).
  unfold state_writes. rewrite F1, F2, F3, F4, F5, F6, F7, F8, F9, Z1, Z2, Z3, Z4, Hf1, Hf2, Hm, Hv.
  destruct (as_truncate_pages s); cbn -[slice zeros Z.sub le_bytes get_u64 get_u32];
    rewrite ?slice_zeros by lia;
    split_and!; try lia; try done; try (apply le_bytes_get_u64; (done || lia));
    try (apply le_bytes_get_u32; (done || lia)).
Qed.

(** *** Active header sector *)

Definition header_writes (h : ActiveHeader) : list write :=
  [(0, 8, ACTIVE_MAGIC); (8, 2, le_bytes 2 FORMAT_VERSION); (16, 32, ah_database_id h);
   (64, 4, le_bytes 4 (ah_page_size h)); (72, 8, le_bytes 8 (ah_start_txid h));
   (80, 32, ah_base_history h); (112, 32, ah_parent_physical_digest h);
   (144, 8, le_bytes 8 (ah_base_logical_size h));
   (216, 8, le_bytes 8 (pol_rollover_bytes (ah_policy h)));
   (224, 4, le_bytes 4 (pol_dictionary_bytes (ah_policy h)));
   (228, 8, le_bytes 8 (pol_sample_bytes (ah_policy h)));
   (256, 128, LayoutPolicy_encode (ah_layout h)); (384, 32, ah_attachment_id h);
   (416, 8, le_bytes 8 (ah_source_bytes h)); (424, 32, ah_source_header_digest h)].

Lemma ActiveHeader_encode_writes h :
  ActiveHeader_encode h = put_record_checksum SECTOR_SIZE (writes (zeros 4096) (header_writes h)).
Proof.
  unfold ActiveHeader_encode, header_writes, put_policy, put_u16, put_u32, put_u64.
  rewrite put_sector_record. change SECTOR_SIZE with 4096.
  unfold writes; cbn [fold_left]. reflexivity.
Qed.

Lemma header_writes_fit h :
  digest_ok (ah_attachment_id h) -> digest_ok (ah_database_id h) ->
  digest_ok (ah_base_history h) -> digest_ok (ah_parent_physical_digest h) ->
  digest_ok (ah_source_header_digest h) ->
  Forall (write_fits (zlen (zeros 4096))) (header_writes h).
Proof.
  intros H1%zlen_digest H2%zlen_digest H3%zlen_digest H4%zlen_digest H5%zlen_digest.
  unfold header_writes. rewrite (zlen_zeros 4096) by lia. write_fit.
Qed.

Lemma multiple_page_size n p :
  page_size_ok p -> is_multiple_of n p = true <-> n mod p = 0.
Proof.
  intros Hp%page_size_ok_bounds. unfold is_multiple_of. destruct (Z.eqb_spec p 0); lia.
Qed.

Lemma iff_digest_guard n c d :
  xorb (n =? c) (bytes_eqb d ZERO_DIGEST) = false <-> (n = c <-> d = ZERO_DIGEST).
Proof.
  destruct (Z.eqb_spec n c), (bytes_eqb d ZERO_DIGEST) eqn:E;
    rewrite ?bytes_eqb_true, ?bytes_eqb_false in E; naive_solver.
Qed.

Lemma genesis_guard n d :
  (n =? 1) && negb (bytes_eqb d genesis_history) = false <-> (n = 1 -> d = genesis_history).
Proof.
  destruct (Z.eqb_spec n 1), (bytes_eqb d genesis_history) eqn:E;
    rewrite ?bytes_eqb_true, ?bytes_eqb_false in E; naive_solver.
Qed.

Lemma page_guard p n :
  negb (p =? 0) && negb (valid_page_size p) = false /\
  (p =? 0) && negb (n =? 0) = false /\
  negb (p =? 0) && negb (is_multiple_of n p) = false <->
  (p = 0 /\ n = 0) \/ (page_size_ok p /\ n mod p = 0).
Proof.
  destruct (Z.eqb_spec p 0) as [->|E]; simpl.
  - rewrite negb_false_iff, Z.eqb_eq. split; [by left; naive_solver|].
    intros [[_ ->]|[Hp%page_size_ok_bounds _]]; [done|lia].
  - rewrite !negb_false_iff, valid_page_size_spec. split.
    + intros (Hp & _ & Hm). right. by rewrite multiple_page_size in Hm.
    + intros [[-> _]|[Hp Hm]]; [done|]. by rewrite multiple_page_size.
Qed.

Lemma source_guard n p t :
  p = 0 \/ page_size_ok p ->
  negb (n =? 0) && ((p =? 0) || negb (is_multiple_of n p) || negb (t =? 1)) = false <->
  (n <> 0 -> page_size_ok p /\ n mod p = 0 /\ t = 1).
Proof.
  intros HP. destruct (Z.eqb_spec n 0) as [->|E]; simpl; [naive_solver|].
  rewrite !orb_false_iff, !negb_false_iff, Z.eqb_neq, Z.eqb_eq. split.
  - intros [[Hp Hm] Ht] _. destruct HP; [done|]. by rewrite multiple_page_size in Hm.
  - intros (Hp & Hm & Ht); [done|]. rewrite multiple_page_size by done.
    apply page_size_ok_bounds in Hp. lia.
Qed.

(** The guards of the header decoder, stated on the record. *)
Lemma header_invalid_spec i h :
  header_invalid i h = false <->
  ah_start_txid h <> 0 /\ valid_policy (ah_policy h) = true /\
  ((ah_page_size h = 0 /\ ah_base_logical_size h = 0) \/
   (page_size_ok (ah_page_size h) /\ ah_base_logical_size h mod ah_page_size h = 0)) /\
  (ah_start_txid h = 1 <-> ah_parent_physical_digest h = ZERO_DIGEST) /\
  (ah_start_txid h = 1 -> ah_base_history h = genesis_history) /\
  (ah_source_bytes h = 0 <-> ah_source_header_digest h = ZERO_DIGEST) /\
  (ah_source_bytes h <> 0 ->
     page_size_ok (ah_page_size h) /\ ah_source_bytes h mod ah_page_size h = 0 /\
     ah_start_txid h = 1) /\
  (all_zero (slice i 10 16) = true /\ all_zero (slice i 48 64) = true /\
   all_zero (slice i 68 72) = true /\ all_zero (slice i 152 208) = true /\
   all_zero (slice i 236 256) = true /\ all_zero (slice i 456 4092) = true).
Proof.
  unfold header_invalid. change (ACTIVE_HEADER_SIZE - 4) with 4092.
  rewrite !orb_false_iff, !iff_digest_guard, genesis_guard.
  rewrite !(negb_false_iff (all_zero _)), (negb_false_iff (valid_policy _)), Z.eqb_neq.
  pose proof (page_guard (ah_page_size h) (ah_base_logical_size h)) as HA.
  pose proof (source_guard (ah_source_bytes h) (ah_page_size h) (ah_start_txid h)) as HB.
  split.
  - intros [[[[[[[[[[[[[[G1 G2] G3] G4] G5] G6] G7] G8] G9] G10] G11] G12] G13] G14] G15].
    assert (HP := proj1 HA (conj G7 (conj G8 G9))).
    split_and!; try done; try apply G10; try apply G13.
    apply HB; [|done]. naive_solver.
  - intros (G1 & G2 & HP & G3 & G4 & G5 & G6 & G7 & G8 & G9 & G10 & G11 & G12).
    pose proof (proj2 HA HP) as (? & ? & ?).
    split_and!; try done; try apply G3; try apply G5.
    apply HB; [|done]. naive_solver.
Qed.

Lemma header_policy_field h (e := put_record_checksum SECTOR_SIZE (writes (zeros 4096) (header_writes h))) :
  Forall (write_fits (zlen (zeros 4096))) (header_writes h) -> policy_ok (ah_policy h) ->
  get_policy (slice e 208 256) = ah_policy h.
Proof.
  intros W (H1 & H2 & H3 & _). unfold get_policy, get_u64, get_u32.
  rewrite !slice_slice by lia. subst e.
  change (208 + 8) with 216. change (208 + (8 + 8)) with 224. change (208 + 16) with 224.
  change (208 + (16 + 4)) with 228. change (208 + 20) with 228. change (208 + (20 + 8)) with 236.
  destruct (ah_policy h) as [r d s] eqn:E; simpl in *.
  rewrite (sector_field (header_writes h) 216 224 (le_bytes 8 r)),
    (sector_field (header_writes h) 224 228 (le_bytes 4 d)),
    (sector_field (header_writes h) 228 236 (le_bytes 8 s));
    try done; try (unfold header_writes; by rewrite E).
  by rewrite !le_val_8, le_val_4.
Qed.

Lemma active_header_roundtrip_lemma h :
  active_header_ok h -> ActiveHeader_decode (ActiveHeader_encode h) = Ok h.
Proof.
  intros (H1 & H2 & H3 & H4 & H5 & Hpol & Hlay & Ht & Hl & Hs & Hp & Hpar & Hgen & Hsd & Hsrc).
  pose proof (header_writes_fit h H1 H2 H3 H4 H5) as W.
  assert (is_u32 (ah_page_size h)).
  { destruct Hp as [[-> _]|[Hq%page_size_ok_bounds _]]; unfold is_u32; lia. }
  assert (is_u64 (ah_start_txid h)) by (unfold is_u64, U64_MAX in *; lia).
  rewrite ActiveHeader_encode_writes. unfold ActiveHeader_decode.
  rewrite sector_check, (sector_field (header_writes h) 256 384 (LayoutPolicy_encode (ah_layout h)))
    by (done || lia).
  cbn [rbind]. rewrite layout_roundtrip_lemma by done. cbn [map_err rbind]. cbv zeta.
  rewrite (header_policy_field h) by done.
  rewrite (sector_field (header_writes h) 384 416 (ah_attachment_id h)),
    (sector_field (header_writes h) 16 48 (ah_database_id h)),
    (sector_u32 (header_writes h) 64 (ah_page_size h)), (sector_u64 (header_writes h) 72 (ah_start_txid h)),
    (sector_field (header_writes h) 80 112 (ah_base_history h)),
    (sector_field (header_writes h) 112 144 (ah_parent_physical_digest h)),
    (sector_u64 (header_writes h) 144 (ah_base_logical_size h)),
    (sector_u64 (header_writes h) 416 (ah_source_bytes h)),
    (sector_field (header_writes h) 424 456 (ah_source_header_digest h)) by (done || lia).
  replace (header_invalid _ _) with false; [by destruct h|].
  symmetry. apply header_invalid_spec; simpl. destruct Hpol as (_ & _ & _ & Hval).
  split_and!; try done; try apply Hpar; try apply Hsd; try lia.
  all: rewrite sector_gap by (done || lia); apply all_zero_zeros.
Qed.

Lemma get_policy_at i :
  get_policy (slice i 208 256) = mkPolicy (get_u64 i 216) (get_u32 i 224) (get_u64 i 228).
Proof. unfold get_policy, get_u64, get_u32. by rewrite !slice_slice by lia. Qed.

(** A decoded header is valid, and is rebuilt byte for byte except in the
    retired rollover timer (bytes 208..216), which the decoder does not read. *)
Lemma active_header_sound_lemma i h :
  is_bytes i -> zlen i = 4096 -> ActiveHeader_decode i = Ok h ->
  active_header_ok h /\ (slice i 208 216 = zeros 8 -> ActiveHeader_encode h = i).
Proof.
  intros Hb Hl H. unfold ActiveHeader_decode in H. inv_ok.
  apply check_sector_inv in Hok as (Hm & Hv & Hc); [|done|done].
  apply LayoutPolicy_decode_sound in Hok0 as [Hlay Henc];
    [|auto with bytedb|rewrite zlen_slice; lia].
  apply header_invalid_spec in Hguard as (Ht & Hpol & Hp & Hpar & Hgen & Hsd & Hsrc & Hz).
  rewrite get_policy_at in *.
  pose proof (fun a h1 h2 => get_u64_is i a Hb h1 h2) as H64.
  pose proof (fun a h1 h2 => get_u32_u32 i a Hb h1 h2) as H32.
  assert (forall a, 0 <= a -> a + 32 <= 4096 -> digest_ok (slice i a (a + 32))) as Hdig
    by (intros; apply slice_digest_ok; lia || done).
  assert (active_header_ok h) as Hok'.
  { subst h; simpl in *. unfold active_header_ok, policy_ok, U64_MAX; simpl.
    pose proof (H64 72 ltac:(lia) ltac:(lia)) as H72. unfold is_u64 in H72.
    split_and!; try done; try (apply H64; lia); try (apply H32; lia); try lia;
      try apply Hpar; try apply Hsd; try (apply Hdig; lia). }
  split; [done|]. intros Htimer. rewrite ActiveHeader_encode_writes.
  pose proof Hok' as (D1 & D2 & D3 & D4 & D5 & _).
  pose proof (header_writes_fit h D1 D2 D3 D4 D5) as W.
  apply (sector_canon i _ [8; 10; 16; 48; 64; 68; 72; 80; 112; 144; 152; 208; 216; 224; 228; 236; 256;
    384; 416; 424; 456; 4092]); [done|done|done|done|].
  destruct Hz as (Z1 & Z2 & Z3 & Z4 & Z5 & Z6).
  apply all_zero_spec in Z1, Z2, Z3, Z4, Z5, Z6.
  rewrite zlen_slice in Z1, Z2, Z3, Z4, Z5, Z6 by lia.
  simpl slices_upto. rewrite !read_back by (done || lia). unfold header_writes.
  rewrite Z1, Z2, Z3, Z4, Z5, Z6, Htimer, Hm, Hv, <- Henc. clear -H Hb Hl. subst h.
  cbn -[slice zeros Z.sub le_bytes get_u64 get_u32 LayoutPolicy_encode]. rewrite ?slice_zeros by lia.
  split_and!; try lia; try done; try (apply le_bytes_get_u64; (done || lia));
    try (apply le_bytes_get_u32; (done || lia)).
Qed.
End FormatLemmas.

(** *** Hexadecimal digests *)

Lemma hex_digit_nibble v : 0 <= v < 16 -> nibble (hex_digit v) = Ok v.
Proof.
  intros Hv. unfold nibble, hex_digit. destruct (Z.ltb_spec v 10).
  - replace ((48 <=? 48 + v) && (48 + v <=? 57)) with true by (symmetry; lia). f_equal; lia.
  - replace ((48 <=? 97 + (v - 10)) && (97 + (v - 10) <=? 57)) with false by (symmetry; lia).
    replace ((97 <=? 97 + (v - 10)) && (97 + (v - 10) <=? 102)) with true by (symmetry; lia).
    f_equal; lia.
Qed.

Lemma nibble_hex_digit c v : nibble c = Ok v -> 0 <= v < 16 /\ hex_digit v = c.
Proof.
  unfold nibble, hex_digit.
  destruct ((48 <=? c) && (c <=? 57)) eqn:E1; [intros [= <-]; bools|
    destruct ((97 <=? c) && (c <=? 102)) eqn:E2; [intros [= <-]; bools|done]].
  - destruct (Z.ltb_spec (c - 48) 10); lia.
  - destruct (Z.ltb_spec (c - 97 + 10) 10); lia.
Qed.

Lemma nibbles_byte h l : 0 <= h < 16 -> 0 <= l < 16 ->
  Z.lor (Z.shiftl h 4) l = 16 * h + l.
Proof.
  intros Hh Hl.
  assert (forallb (fun h => forallb (fun l => Z.lor (Z.shiftl h 4) l =? 16 * h + l)
            (map Z.of_nat (seq 0 16))) (map Z.of_nat (seq 0 16)) = true) as H by done.
  rewrite forallb_forall in H. specialize (H h).
  rewrite forallb_forall in H. apply Z.eqb_eq, H;
    apply in_map_iff; [exists (Z.to_nat h)|exists (Z.to_nat l)]; rewrite in_seq; lia.
Qed.

Lemma byte_nibbles b : is_u8 b -> Z.shiftr b 4 = b / 16 /\ Z.land b 15 = b mod 16.
Proof.
  intros. change 15 with (Z.ones 4). by rewrite Z.land_ones, Z.shiftr_div_pow2 by lia.
Qed.

Lemma parse_pairs_hex d : is_bytes d -> parse_pairs (hex d) = Ok d.
Proof.
  induction 1 as [|b d Hb Hd IH]; [done|].
  change (hex (b :: d)) with (hex_digit (Z.shiftr b 4) :: hex_digit (Z.land b 15) :: hex d).
  destruct (byte_nibbles b Hb) as [E1 E2]. rewrite E1, E2. unfold is_u8 in Hb. simpl.
  pose proof (Z.div_mod b 16 ltac:(lia)). pose proof (Z.mod_pos_bound b 16 ltac:(lia)).
  rewrite !hex_digit_nibble by lia. simpl. rewrite IH; simpl.
  rewrite nibbles_byte by lia. do 2 f_equal. lia.
Qed.

Lemma length_hex d : length (hex d) = (2 * length d)%nat.
Proof. unfold hex. induction d; simpl; lia. Qed.

Lemma hex_roundtrip_lemma d : digest_ok d -> parse_hex_digest (hex d) = Ok d.
Proof.
  intros [Hl Hb]. unfold parse_hex_digest. rewrite parse_pairs_hex by done.
  unfold zlen in *. rewrite length_hex.
  rewrite (proj2 (Z.eqb_eq _ _)); [done|]. lia.
Qed.

Lemma parse_pairs_sound n v d :
  length v = (2 * n)%nat -> parse_pairs v = Ok d -> length d = n /\ is_bytes d /\ hex d = v.
Proof.
  revert v d; induction n as [|n IH]; intros v d Hl H.
  - destruct v; [|done]. simpl in H. inv_ok. subst d. by repeat constructor.
  - destruct v as [|x [|y v]]; simpl in Hl; try lia. simpl in H. inv_ok. subst d.
    apply nibble_hex_digit in Hok as [Hx <-], Hok0 as [Hy <-].
    apply IH in Hok1 as (Hn & Hb & He); [|lia].
    rewrite nibbles_byte by done. assert (is_u8 (16 * a + a0)) as H8 by (unfold is_u8; lia).
    split; [simpl; lia|]. split; [by constructor|].
    change (hex (16 * a + a0 :: a1)) with
      (hex_digit (Z.shiftr (16 * a + a0) 4) :: hex_digit (Z.land (16 * a + a0) 15) :: hex a1).
    destruct (byte_nibbles _ H8) as [-> ->]. rewrite He.
    pose proof (Z.div_mod (16 * a + a0) 16 ltac:(lia)).
    pose proof (Z.mod_pos_bound (16 * a + a0) 16 ltac:(lia)).
    f_equal; [f_equal; lia|]. f_equal. f_equal. lia.
Qed.

Lemma parse_hex_sound_lemma v d : parse_hex_digest v = Ok d -> digest_ok d /\ hex d = v.
Proof.
  unfold parse_hex_digest. intros H. inv_ok. bools. unfold zlen in *.
  apply (parse_pairs_sound 32) in H as (Hn & Hb & He); [|lia].
  split; [|done]. split; [unfold zlen; lia|done].
Qed.

(** ** Claims *)

(** C38. The header sector of an active file: a sector whose retired timer field
    (bytes 208..216) is zero decodes to a header exactly when the header
    satisfies the format's invariants and the sector is its encoding. *)
Theorem active_header_canonical {HH : Hashes} {HOK : HashesOk HH} i h :
  is_bytes i -> zlen i = ACTIVE_HEADER_SIZE ->
  ActiveHeader_decode i = Ok h /\ slice i 208 216 = zeros 8 <->
  active_header_ok h /\ ActiveHeader_encode h = i.
Proof.
  intros Hi Hl. split.
  - intros [Hd Hz]. destruct (active_header_sound_lemma i h Hi Hl Hd) as [Hok He]. auto.
  - intros [Hok <-]. split; [by apply active_header_roundtrip_lemma|].
    destruct Hok as (H1 & H2 & H3 & H4 & H5 & _).
    pose proof (header_writes_fit h H1 H2 H3 H4 H5) as W.
    rewrite ActiveHeader_encode_writes. by rewrite sector_gap by (done || lia).
Qed.

(** The digest of 32 equal bytes. *)
Definition demo_digest (b : Z) : Digest := replicate 32 b.

Definition demo_header : ActiveHeader := {|
  ah_attachment_id := demo_digest 1;
  ah_database_id := demo_digest 2;
  ah_page_size := 512;
  ah_start_txid := 1;
  ah_base_history := @genesis_history demo_hashes;
  ah_parent_physical_digest := ZERO_DIGEST;
  ah_base_logical_size := 0;
  ah_policy := mkPolicy 0 0 1048576;
  ah_layout := demo_layout;
  ah_source_bytes := 0;
  ah_source_header_digest := ZERO_DIGEST;
|}.

Lemma demo_digest_ok b : is_u8 b -> digest_ok (demo_digest b).
Proof. intros. split; [done|]. by apply Forall_replicate. Qed.

Lemma demo_layout_ok : layout_ok demo_layout.
Proof. unfold layout_ok, demo_layout, U64_MAX. cbn. split_and!; try lia. exists 14. lia. Qed.

Lemma page_size_512 : page_size_ok 512.
Proof. exists 9. lia. Qed.

Lemma demo_header_ok : @active_header_ok demo_hashes demo_header.
Proof.
  unfold active_header_ok, demo_header, policy_ok, U64_MAX, is_u64, is_u32; cbn -[genesis_history].
  pose proof (demo_digest_ok 0 ltac:(unfold is_u8; lia)) as Hz.
  split_and!; try done; try lia; try (apply demo_digest_ok; unfold is_u8; lia);
    try apply demo_layout_ok.
  - split; [apply demo_hashes_ok|apply demo_hashes_ok].
  - right. split; [apply page_size_512|done].
Qed.

Lemma active_header_canonical_witness :
  @ActiveHeader_decode demo_hashes (@ActiveHeader_encode demo_hashes demo_header) = Ok demo_header.
Proof.
  apply (@active_header_canonical demo_hashes demo_hashes_ok
           (@ActiveHeader_encode demo_hashes demo_header) demo_header).
  - apply bytes_check_ok. vm_compute. reflexivity.
  - vm_compute. reflexivity.
  - split; [apply demo_header_ok|reflexivity].
Defined.

(** The state sector of an active file is a canonical encoding: it decodes
    to a state exactly when the state is well formed (sizes page-aligned, any
    truncation mark within the file) and the sector is its encoding. *)
Theorem active_state_canonical {HH : Hashes} {HOK : HashesOk HH} i s :
  is_bytes i -> zlen i = ACTIVE_STATE_SIZE ->
  ActiveState_decode i = Ok s <-> active_state_ok s /\ ActiveState_encode s = i.
Proof.
  intros Hi Hl. split; [by apply active_state_canonical_lemma|].
  intros [Hok <-]. by apply active_state_roundtrip_lemma.
Qed.

Definition demo_state : ActiveState := {|
  as_database_id := demo_digest 2;
  as_sequence := 3;
  as_txid := 2;
  as_logical_size := 2048;
  as_page_size := 512;
  as_history := @genesis_history demo_hashes;
  as_commit_unix := 7;
  as_first_commit_unix := 5;
  as_record_count := 4;
  as_truncate_pages := Some 3;
|}.

Lemma demo_state_ok : active_state_ok demo_state.
Proof.
  unfold active_state_ok, demo_state, U64_MAX, is_u64, is_u32; cbn -[genesis_history Z.div].
  split_and!; try done; try lia; try (apply demo_digest_ok; unfold is_u8; lia).
  - split; apply demo_hashes_ok.
  - right. split; [apply page_size_512|done].
Qed.

Lemma active_state_canonical_witness :
  @ActiveState_decode demo_hashes (@ActiveState_encode demo_hashes demo_state) = Ok demo_state.
Proof.
  apply (@active_state_canonical demo_hashes demo_hashes_ok
           (@ActiveState_encode demo_hashes demo_state) demo_state).
  - apply bytes_check_ok. vm_compute. reflexivity.
  - vm_compute. reflexivity.
  - split; [apply demo_state_ok|reflexivity].
Defined.

(** The 24-byte frame record header is a canonical encoding: it decodes
    exactly when its lengths, codec and dictionary index are consistent (a raw
    record stores the whole frame and names no dictionary). *)
Theorem frame_header_canonical {HH : Hashes} {HOK : HashesOk HH} i h :
  is_bytes i -> zlen i = FRAME_HEADER_SIZE ->
  FrameHeader_decode i = Ok h <-> frame_header_ok h /\ FrameHeader_encode h = i.
Proof.
  intros Hi Hl. split; [by apply FrameHeader_decode_sound_lemma|].
  intros [Hok <-]. by apply frame_header_roundtrip_lemma.
Qed.

Definition demo_frame_header : FrameHeader := mkFrameHeader 9 CodecZstd 3 700 1024.

Lemma frame_header_canonical_witness :
  @FrameHeader_decode demo_hashes (@FrameHeader_encode demo_hashes demo_frame_header) = Ok demo_frame_header.
Proof.
  apply (@frame_header_canonical demo_hashes demo_hashes_ok
           (@FrameHeader_encode demo_hashes demo_frame_header) demo_frame_header).
  - apply bytes_check_ok. vm_compute. reflexivity.
  - vm_compute. reflexivity.
  - split; [|reflexivity].
    unfold frame_header_ok, demo_frame_header, U32_MAX, is_u16, MAX_FRAME_PAYLOAD; cbn.
    split_and!; (done || lia).
Defined.

(** Digest names: a string parses to a digest exactly when it is that
    digest's 64 lowercase hexadecimal characters. *)
Theorem hex_digest_canonical v d :
  parse_hex_digest v = Ok d <-> digest_ok d /\ hex d = v.
Proof.
  split; [apply parse_hex_sound_lemma|]. intros [Hd <-]. by apply hex_roundtrip_lemma.
Qed.
