(* ===== verification/Wire.v ===== *)
(** Bounded wire decoding (src/src/storage/wire.rs).

    [Decoder] walks a byte slice; [ReadDecoder] walks a byte stream of a declared
    length and hashes what it reads. Both are states of the same decoding monad
    [dm], and both implement the interface [Wire], whose laws ([WireLaws]) are
    what the record decoders of the other components are proved against: an
    operation [reads] the bytes its encoder wrote, and whatever a decoder accepts
    is a prefix of the remaining input ([parses]). zstd is a parameter. *)

From S2P Require Import Prelude Domain.
From stdpp Require Import base strings gmap list sorting.
From Stdlib Require Import ZArith Lia.
Open Scope Z_scope.

(** ** The decoding monad *)

Definition dm (S A : Type) : Type := S -> result StoreError (A * S).

Definition dret {S A} (a : A) : dm S A := fun s => Ok (a, s).
Definition dbind {S A B} (m : dm S A) (k : A -> dm S B) : dm S B :=
  fun s => let* p := m s in k (fst p) (snd p).
Definition dlift {S A} (c : result StoreError A) : dm S A :=
  fun s => let* a := c in Ok (a, s).
Definition dfail_if {S} (b : bool) (e : StoreError) : dm S unit :=
  fun s => if b then Err e else Ok (tt, s).

Notation "'do' x '<-' m ';;' k" := (dbind m (fun x => k))
  (at level 10, x pattern, m at level 99, k at level 200,
   format "'[v' 'do'  x  '<-'  m  ;; '/' k ']'") : result_scope.

(** A loop that runs a decoder once per element of a bounded count. *)
Fixpoint drepeat {S A} (n : nat) (m : dm S A) : dm S (list A) :=
  match n with
  | O => dret []
  | S n' => do a <- m ;; do l <- drepeat n' m ;; dret (a :: l)
  end.

(** [wire.take(n)] and [wire.array::<N>()], the primitives of both decoders. *)
Class Wire (S : Type) : Type := {
  wire_take : Z -> dm S bytes;
  wire_array : Z -> dm S bytes;
}.

Definition wire_u8 {W} `{Wire W} : dm W Z := do b <- wire_take 1 ;; dret (byte_at b 0).
Definition wire_u32 {W} `{Wire W} : dm W Z := do b <- wire_array 4 ;; dret (le_val b).
Definition wire_u64 {W} `{Wire W} : dm W Z := do b <- wire_array 8 ;; dret (le_val b).

(** [u32_bytes] and [u64_bytes] append to the output. *)
Definition u32_bytes (v : Z) : bytes := le_bytes 4 v.
Definition u64_bytes (v : Z) : bytes := le_bytes 8 v.

(** ** The slice decoder *)

Record Decoder : Set := mkDecoder { d_bytes : bytes; d_position : Z }.

Definition Decoder_new (b : bytes) : Decoder := mkDecoder b 0.

Definition Decoder_take (count : Z) : dm Decoder bytes := fun d =>
  let* stop := range (checked_add (d_position d) count) in
  fail_if zlen (d_bytes d) <? stop with Corrupt (d_position d) ;;
  Ok (slice (d_bytes d) (d_position d) stop, mkDecoder (d_bytes d) stop).

(** The conversion to an array of the taken length cannot fail. *)
Definition Decoder_array (n : Z) : dm Decoder bytes :=
  do b <- Decoder_take n ;;
  do _ <- dfail_if (negb (zlen b =? n)) Range ;;
  dret b.

#[export] Instance Decoder_wire : Wire Decoder :=
  {| wire_take := Decoder_take; wire_array := Decoder_array |}.

Definition Decoder_finish (d : Decoder) : result StoreError unit :=
  if d_position d =? zlen (d_bytes d) then Ok tt else Err (Corrupt (d_position d)).

(** ** The stream decoder

    [reader] is what the underlying [Read] still yields, and whether it then
    ends cleanly or with an error; the hasher is the bytes fed to it. *)

Record ReadDecoder : Set := mkReadDecoder {
  rd_reader : bytes;
  rd_clean : bool;
  rd_length : Z;
  rd_position : Z;
  rd_hash : bytes;
  rd_expected : option Digest;
}.

Definition ReadDecoder_new (reader : bytes) (clean : bool) (length : Z) : ReadDecoder :=
  mkReadDecoder reader clean length 0 [] None.

Definition ReadDecoder_read_exact (n : Z) : dm ReadDecoder bytes := fun r =>
  let* stop := range (checked_add (rd_position r) n) in
  fail_if rd_length r <? stop with Corrupt (rd_position r) ;;
  fail_if zlen (rd_reader r) <? n with Corrupt (rd_position r) ;;
  let output := slice (rd_reader r) 0 n in
  let hash := match rd_expected r with
              | Some _ => rd_hash r ++ output
              | None => rd_hash r
              end in
  Ok (output, mkReadDecoder (drop (Z.to_nat n) (rd_reader r)) (rd_clean r) (rd_length r)
                stop hash (rd_expected r)).

Definition ReadDecoder_take (count : Z) : dm ReadDecoder bytes := fun r =>
  fail_if rd_length r - rd_position r <? count with Corrupt (rd_position r) ;;
  ReadDecoder_read_exact count r.

#[export] Instance ReadDecoder_wire : Wire ReadDecoder :=
  {| wire_take := ReadDecoder_take; wire_array := ReadDecoder_read_exact |}.

(** ** Compressed envelopes *)

(** zstd: one-shot compression and decompression with an optional dictionary (the
    empty one is none), and the streaming decoder, which yields bytes and then
    ends cleanly or not. *)
Class ZstdLib : Type := {
  zcompress : Z -> bytes -> bytes -> option bytes;
  zdecompress : bytes -> bytes -> Z -> option bytes;
  zstream : bytes -> option (bytes * bool);
}.

(** What the code relies on: decompression into a sufficient buffer inverts
    compression, never exceeds the buffer, a compressed record is never empty, and
    the stream decoder yields the content of one compressed record. *)
Class ZstdOk (Z0 : ZstdLib) : Prop := {
  zdecompress_compress : forall level dict raw c capacity,
    zcompress level dict raw = Some c -> zlen raw <= capacity ->
    zdecompress dict c capacity = Some raw;
  zdecompress_capacity : forall dict c capacity raw,
    zdecompress dict c capacity = Some raw -> zlen raw <= capacity;
  zdecompress_bytes : forall dict c capacity raw,
    zdecompress dict c capacity = Some raw -> is_bytes raw;
  zcompress_bytes : forall level dict raw c,
    zcompress level dict raw = Some c -> is_bytes c /\ 1 <= zlen c;
  zstream_compress : forall level raw c,
    zcompress level [] raw = Some c -> zstream c = Some (raw, true);
  zstream_bytes : forall c raw clean, zstream c = Some (raw, clean) -> is_bytes raw;
}.

Definition zstd {A} (o : option A) : result StoreError A := ok_or o Domain.Zstd.

Section Envelopes.
Context `{Hashes, ZstdLib}.

Definition ReadDecoder_finish (r : ReadDecoder) : result StoreError unit :=
  let corrupt := Corrupt (rd_position r) in
  fail_if negb (rd_position r =? rd_length r) with corrupt ;;
  fail_if (zlen (rd_reader r) =? 0) && negb (rd_clean r) with corrupt ;;
  fail_if negb (zlen (rd_reader r) =? 0) with corrupt ;;
  fail_if match rd_expected r with
          | Some expected => negb (bytes_eqb (blake3 (rd_hash r)) expected)
          | None => false
          end with corrupt ;;
  Ok tt.

Definition envelope (magic raw : bytes) : result StoreError bytes :=
  let* compressed := zstd (zcompress 3 [] raw) in
  Ok (magic ++ u64_bytes (zlen raw) ++ blake3 raw ++ compressed).

(** The fields of an envelope: declared length, digest, compressed bytes. *)
Definition envelope_fields (magic : bytes) (limit encoded_len : Z)
    : dm Decoder (Z * Digest * bytes) :=
  do m <- wire_take 8 ;;
  do _ <- dfail_if (negb (bytes_eqb m magic)) (Corrupt 0) ;;
  do length <- wire_u64 ;;
  do _ <- dfail_if (limit <? length) Range ;;
  do hash <- wire_array 32 ;;
  do n <- dlift (range (checked_sub encoded_len 48)) ;;
  do compressed <- wire_take n ;;
  dret (length, hash, compressed).

Definition open_envelope (magic encoded : bytes) (limit : Z) : result StoreError bytes :=
  let* p := envelope_fields magic limit (zlen encoded) (Decoder_new encoded) in
  let '(length, hash, compressed) := fst p in
  let* raw := zstd (zdecompress [] compressed length) in
  fail_if negb (zlen raw =? length) || negb (bytes_eqb (blake3 raw) hash) with Corrupt 0 ;;
  Ok raw.

Definition open_envelope_reader (magic encoded : bytes) (limit : Z)
    : result StoreError ReadDecoder :=
  let* p := envelope_fields magic limit (zlen encoded) (Decoder_new encoded) in
  let '(length, hash, compressed) := fst p in
  let* s := zstd (zstream compressed) in
  let d := ReadDecoder_new (fst s) (snd s) length in
  Ok (mkReadDecoder (rd_reader d) (rd_clean d) (rd_length d) (rd_position d) (rd_hash d)
        (Some hash)).

End Envelopes.

(** A concrete library for witnesses: runs of one byte are stored as their length,
    anything else as it is; inputs that are not bytes are refused. *)
Definition demo_compress (raw : bytes) : option bytes :=
  if negb (bytes_check raw && (zlen raw <=? U64_MAX)) then None
  else match raw with
       | x :: rest => if forallb (Z.eqb x) rest then Some (1 :: x :: le_bytes 8 (zlen raw))
                      else Some (0 :: raw)
       | [] => Some [0]
       end.

Definition demo_expand (c : bytes) : option bytes :=
  match c with
  | 0 :: raw => if bytes_check raw then Some raw else None
  | 1 :: x :: n => if bytes_check [x] then Some (replicate (Z.to_nat (le_val n)) x) else None
  | _ => None
  end.

Definition demo_zstd : ZstdLib := {|
  zcompress _ _ raw := demo_compress raw;
  zdecompress _ c capacity :=
    match demo_expand c with
    | Some raw => if zlen raw <=? capacity then Some raw else None
    | None => None
    end;
  zstream c := match demo_expand c with Some raw => Some (raw, true) | None => None end;
|}.

(** ** Interface laws *)

Class WireView (S : Type) : Type := {
  remaining : S -> bytes;
  wire_ok : S -> Prop;
}.

(** [m] consumes exactly [x] and returns [a], whatever follows. *)
Definition reads {W} `{WireView W} {A} (m : dm W A) (x : bytes) (a : A) : Prop :=
  forall s rest, wire_ok s -> remaining s = x ++ rest ->
  exists s', m s = Ok (a, s') /\ wire_ok s' /\ remaining s' = rest.

(** What [m] returns was a prefix of the input, related to it by [P]. *)
Definition parses {W} `{WireView W} {A} (m : dm W A) (P : A -> bytes -> Prop) : Prop :=
  forall s a s', wire_ok s -> m s = Ok (a, s') ->
  exists x, remaining s = x ++ remaining s' /\ wire_ok s' /\ P a x.

Class WireLaws (S : Type) `{Wire S, WireView S} : Prop := {
  reads_take : forall x, is_bytes x -> reads (wire_take (zlen x)) x x;
  reads_array : forall x, is_bytes x -> reads (wire_array (zlen x)) x x;
  parses_take : forall n, 0 <= n -> parses (wire_take n) (fun b x => b = x /\ zlen x = n /\ is_bytes x);
  parses_array : forall n, 0 <= n -> parses (wire_array n) (fun b x => b = x /\ zlen x = n /\ is_bytes x);
}.

#[export] Instance Decoder_view : WireView Decoder := {|
  remaining d := drop (Z.to_nat (d_position d)) (d_bytes d);
  wire_ok d := 0 <= d_position d <= zlen (d_bytes d) /\ zlen (d_bytes d) <= U64_MAX /\
               is_bytes (d_bytes d);
|}.

(** The stream decoder over a stream that yields [total] and then ends ([clean] or
    not): what it has hashed and what is left are that stream, and what remains for
    it is bounded by the declared length [len]. Only a decoder that expects a digest
    hashes what it has consumed. *)
Definition stream_view (total : bytes) (clean : bool) (len : Z) (expected : option Digest)
    : WireView ReadDecoder := {|
  remaining r := take (Z.to_nat (len - rd_position r)) (rd_reader r);
  wire_ok r := rd_expected r = expected /\ rd_clean r = clean /\ rd_length r = len /\
               (exists consumed, consumed ++ rd_reader r = total /\ rd_position r = zlen consumed /\
                  (is_Some expected -> rd_hash r = consumed)) /\
               rd_position r <= len <= U64_MAX /\ is_bytes total;
|}.

(** ** Lemmas *)

Section Laws.
Context {W : Type} `{WireLaws W}.

Lemma reads_ret {A} (a : A) : reads (dret a) [] a.
Proof. intros s rest Hs Hr. by exists s. Qed.

Lemma reads_bind {A B} (m : dm W A) (k : A -> dm W B) x y a b :
  reads m x a -> reads (k a) y b -> reads (dbind m k) (x ++ y) b.
Proof.
  intros Hm Hk s rest Hs Hr. rewrite <- (assoc_L (++)) in Hr.
  destruct (Hm s _ Hs Hr) as (s1 & E1 & Hs1 & Hr1).
  destruct (Hk s1 _ Hs1 Hr1) as (s2 & E2 & Hs2 & Hr2).
  exists s2. split; [|done]. unfold dbind. rewrite E1. exact E2.
Qed.

(** A step that consumes nothing. *)
Lemma reads_bind_nil {A B} (m : dm W A) (k : A -> dm W B) y a b :
  reads m [] a -> reads (k a) y b -> reads (dbind m k) y b.
Proof. apply (reads_bind m k [] y). Qed.

Lemma reads_bind_end {A B} (m : dm W A) (k : A -> dm W B) x a b :
  reads m x a -> reads (k a) [] b -> reads (dbind m k) x b.
Proof. intros Hm Hk. rewrite <- (app_nil_r x). by eapply reads_bind. Qed.

Lemma reads_guard e b (k : unit -> dm W e) y v err :
  b = false -> reads (k tt) y v -> reads (dbind (dfail_if b err) k) y v.
Proof. intros -> Hk s rest Hs Hr. destruct (Hk s rest Hs Hr) as (s' & E & ?). by exists s'. Qed.

Lemma reads_lift {A B} (c : result StoreError A) (k : A -> dm W B) a y b :
  c = Ok a -> reads (k a) y b -> reads (dbind (dlift c) k) y b.
Proof. intros -> Hk s rest Hs Hr. destruct (Hk s rest Hs Hr) as (s' & E & ?). by exists s'. Qed.

Lemma reads_map {A B} (m : dm W A) (f : A -> B) x a :
  reads m x a -> reads (do v <- m ;; dret (f v)) x (f a).
Proof.
  intros Hm s rest Hs Hr. destruct (Hm s rest Hs Hr) as (s' & E & ?).
  exists s'. split; [|done]. unfold dbind. by rewrite E.
Qed.

Lemma reads_u32 v : is_u32 v -> reads wire_u32 (u32_bytes v) v.
Proof.
  intros Hv. unfold wire_u32. rewrite <- (le_val_bytes_small 4 v) at 2 by done.
  apply (reads_map (wire_array 4)). pose proof (reads_array (u32_bytes v)) as R.
  unfold u32_bytes in *. rewrite zlen_le_bytes in R. apply R, is_bytes_le_bytes.
Qed.

Lemma reads_u64 v : is_u64 v -> reads wire_u64 (u64_bytes v) v.
Proof.
  intros Hv. unfold wire_u64. rewrite <- (le_val_bytes_small 8 v) at 2 by done.
  apply (reads_map (wire_array 8)). pose proof (reads_array (u64_bytes v)) as R.
  unfold u64_bytes in *. rewrite zlen_le_bytes in R. apply R, is_bytes_le_bytes.
Qed.

Lemma reads_u8 v : is_u8 v -> reads wire_u8 [v] v.
Proof.
  intros Hv. unfold wire_u8. apply (reads_map (wire_take 1) (fun b => byte_at b 0) [v] [v]).
  apply (reads_take [v]). by constructor.
Qed.

Lemma reads_digest d : digest_ok d -> reads (wire_array 32) d d.
Proof. intros [Hl Hb]. rewrite <- Hl. by apply reads_array. Qed.

Lemma reads_exact n x : zlen x = n -> is_bytes x -> reads (wire_take n) x x.
Proof. intros <- Hb. by apply reads_take. Qed.

Lemma reads_repeat {A} (m : dm W A) (enc : A -> bytes) l n :
  n = length l -> Forall (fun a => reads m (enc a) a) l ->
  reads (drepeat n m) (concat (map enc l)) l.
Proof.
  intros -> Hl. induction Hl as [|a l Ha Hl IH]; simpl; [apply reads_ret|].
  eapply reads_bind; [exact Ha|]. rewrite <- (app_nil_r (concat _)).
  eapply reads_bind; [exact IH|]. apply reads_ret.
Qed.

Lemma parses_weaken {A} (m : dm W A) (P Q : A -> bytes -> Prop) :
  parses m P -> (forall a x, P a x -> Q a x) -> parses m Q.
Proof. intros Hm HPQ s a s' Hs E. destruct (Hm s a s' Hs E) as (x & ? & ? & ?). eauto. Qed.

Lemma parses_ret {A} (a : A) : parses (dret a) (fun b x => b = a /\ x = []).
Proof. intros s b s' Hs [= <- <-]. by exists []. Qed.

Lemma parses_bind {A B} (m : dm W A) (k : A -> dm W B) P Q :
  parses m P -> (forall a, parses (k a) (Q a)) ->
  parses (dbind m k) (fun b z => exists a x y, z = x ++ y /\ P a x /\ Q a b y).
Proof.
  intros Hm Hk s b s' Hs E. unfold dbind in E. inv_ok. destruct a as [a s1]; simpl in *.
  destruct (Hm s a s1 Hs Hok) as (x & Hx & Hs1 & HP).
  destruct (Hk a s1 b s' Hs1 E) as (y & Hy & Hs2 & HQ).
  exists (x ++ y). rewrite Hx, Hy, (assoc_L (++)). split; [done|]. split; [done|]. by exists a, x, y.
Qed.

(** One step of a decoder, in the style the record decoders are verified: the
    rest is checked against the input with the consumed prefix put back. *)
Lemma parses_step {A B} (m : dm W A) (k : A -> dm W B) P Q :
  parses m P -> (forall a x, P a x -> parses (k a) (fun b y => Q b (x ++ y))) ->
  parses (dbind m k) Q.
Proof.
  intros Hm Hk s b s' Hs E. unfold dbind in E. inv_ok. destruct a as [a s1]; simpl in *.
  destruct (Hm s a s1 Hs Hok) as (x & Hx & Hs1 & HP).
  destruct (Hk a x HP s1 b s' Hs1 E) as (y & Hy & Hs2 & HQ).
  exists (x ++ y). by rewrite Hx, Hy, (assoc_L (++)).
Qed.

Lemma parses_end {A} (a : A) (Q : A -> bytes -> Prop) : Q a [] -> parses (dret a) Q.
Proof. intros HQ s b s' Hs [= <- <-]. by exists []. Qed.

Lemma parses_lift {A} (c : result StoreError A) : parses (dlift c) (fun a x => c = Ok a /\ x = []).
Proof. intros s a s' Hs E. unfold dlift in E. inv_ok. subst. by exists []. Qed.

Lemma parses_guard b err : parses (dfail_if b err) (fun _ x => b = false /\ x = []).
Proof. intros s a s' Hs E. unfold dfail_if in E. destruct b; [done|]. inv_ok. subst. by exists []. Qed.

Lemma parses_guard_step {B} b err (k : unit -> dm W B) Q :
  (b = false -> parses (k tt) Q) -> parses (dbind (dfail_if b err) k) Q.
Proof.
  intros Hk. eapply parses_step; [apply parses_guard|]. intros [] x [Hb ->]. by apply Hk.
Qed.

Lemma parses_lift_step {A B} (c : result StoreError A) (k : A -> dm W B) Q :
  (forall a, c = Ok a -> parses (k a) Q) -> parses (dbind (dlift c) k) Q.
Proof.
  intros Hk. eapply parses_step; [apply parses_lift|]. intros a x [Hb ->]. by apply Hk.
Qed.

Lemma parses_u32 : parses wire_u32 (fun v x => is_u32 v /\ x = u32_bytes v).
Proof.
  unfold wire_u32. eapply parses_weaken.
  { apply parses_bind; [apply parses_array; lia|intros b; apply parses_ret]. }
  intros v z (b & x & y & -> & (-> & Hl & Hb) & -> & ->). rewrite app_nil_r.
  split; [by apply le_val_u32|]. unfold u32_bytes. symmetry. apply le_bytes_val; [done|].
  unfold zlen in Hl. lia.
Qed.

Lemma parses_u64 : parses wire_u64 (fun v x => is_u64 v /\ x = u64_bytes v).
Proof.
  unfold wire_u64. eapply parses_weaken.
  { apply parses_bind; [apply parses_array; lia|intros b; apply parses_ret]. }
  intros v z (b & x & y & -> & (-> & Hl & Hb) & -> & ->). rewrite app_nil_r.
  split; [by apply le_val_u64|]. unfold u64_bytes. symmetry. apply le_bytes_val; [done|].
  unfold zlen in Hl. lia.
Qed.

Lemma parses_u8 : parses wire_u8 (fun v x => is_u8 v /\ x = [v]).
Proof.
  unfold wire_u8. eapply parses_weaken.
  { apply parses_bind; [apply parses_take; lia|intros b; apply parses_ret]. }
  intros v z (b & x & y & -> & (-> & Hl & Hb) & -> & ->). rewrite app_nil_r.
  destruct x as [|v [|? ?]]; unfold zlen in Hl; simpl in Hl; try lia.
  split; [|done]. by inversion Hb.
Qed.

Lemma parses_digest : parses (wire_array 32) (fun d x => digest_ok d /\ x = d).
Proof.
  eapply parses_weaken; [apply parses_array; lia|]. intros d x (-> & Hl & Hb). by split.
Qed.

Lemma parses_repeat {A} (m : dm W A) (P : A -> bytes -> Prop) n :
  parses m P ->
  parses (drepeat n m) (fun l x => length l = n /\ exists xs, Forall2 P l xs /\ x = concat xs).
Proof.
  intros Hm. induction n as [|n IH]; simpl.
  - eapply parses_weaken; [apply parses_ret|]. intros l x [-> ->]. split; [done|]. by exists [].
  - eapply parses_weaken.
    { apply parses_bind; [exact Hm|intros a]. apply parses_bind; [exact IH|intros l; apply parses_ret]. }
    intros l z (a & x & y & -> & Ha & l' & x' & y' & -> & (Hn & xs & Hxs & ->) & -> & ->).
    rewrite app_nil_r. split; [simpl; lia|]. exists (x :: xs). split; [by constructor|done].
Qed.
End Laws.

(** *** The slice decoder satisfies the interface *)

Lemma Decoder_take_reads x : is_bytes x -> reads (Decoder_take (zlen x)) x x.
Proof.
  intros Hx d rest (Hp & Hl & Hb) Hr. unfold Decoder_take. simpl in Hr.
  assert (zlen x + zlen rest = zlen (d_bytes d) - d_position d) as Hlen.
  { rewrite <- zlen_app, <- Hr. unfold zlen in *. rewrite length_drop. lia. }
  pose proof (zlen_nonneg rest). pose proof (zlen_nonneg x).
  rewrite (proj2 (checked_add_Some _ _ _)) by (split; [done|lia]). simpl.
  rewrite (proj2 (Z.ltb_ge _ _)) by lia.
  eexists; split; [|split].
  - f_equal. f_equal. unfold slice. rewrite Hr.
    replace (Z.to_nat (d_position d + zlen x - d_position d)) with (length x) by (unfold zlen; lia).
    apply take_app_length.
  - simpl. split; [lia|done].
  - simpl. replace (Z.to_nat (d_position d + zlen x)) with
      (Z.to_nat (d_position d) + length x)%nat by (unfold zlen in *; lia).
    rewrite <- drop_drop, Hr. apply drop_app_length.
Qed.

Lemma Decoder_take_parses n :
  0 <= n -> parses (Decoder_take n) (fun b x => b = x /\ zlen x = n /\ is_bytes x).
Proof.
  intros Hn d b d' (Hp & Hl & Hb) E. unfold Decoder_take in E. inv_all. bools. subst d'.
  apply checked_add_Some in Hok as [-> Hle]. exists b. subst b. simpl.
  split_and!; try lia; try done.
  - unfold slice. rewrite <- (take_drop (Z.to_nat n) (drop _ _)) at 1. f_equal.
    + f_equal. lia.
    + rewrite drop_drop. f_equal. lia.
  - rewrite zlen_slice by lia. lia.
  - auto with bytedb.
Qed.

#[export] Instance Decoder_laws : WireLaws Decoder.
Proof.
  split.
  - apply Decoder_take_reads.
  - intros x Hx. simpl. unfold Decoder_array.
    eapply reads_bind_end; [by apply Decoder_take_reads|].
    apply reads_guard; [by rewrite Z.eqb_refl|apply reads_ret].
  - apply Decoder_take_parses.
  - intros n Hn. simpl. unfold Decoder_array. eapply parses_weaken.
    { apply parses_bind; [by apply Decoder_take_parses|intros b].
      apply parses_bind; [apply parses_guard|intros u; apply parses_ret]. }
    simpl. intros a z (b & x & y & -> & (-> & Hx) & [] & u & v & E & (_ & Eu) & -> & Ev).
    subst y u v. by rewrite app_nil_r.
Qed.

(** *** The stream decoder satisfies the interface *)

Section Stream.
Context (total : bytes) (clean : bool) (len : Z) (expected : option Digest).
#[local] Existing Instance stream_view.
Abbreviation view := (stream_view total clean len expected).

Lemma ReadDecoder_exact_reads x :
  is_bytes x -> @reads _ view _ (ReadDecoder_read_exact (zlen x)) x x.
Proof.
  intros Hx r rest (He & Hc & Hn & (used & Ht & Hp & Hh) & Hl & Hb) Hr. simpl in Hr.
  unfold ReadDecoder_read_exact.
  assert (zlen x + zlen rest <= zlen (rd_reader r) /\ zlen x + zlen rest <= len - rd_position r)
    as [Hle1 Hle2].
  { rewrite <- zlen_app, <- Hr. unfold zlen. rewrite length_take. lia. }
  pose proof (zlen_nonneg rest). pose proof (zlen_nonneg x). pose proof (zlen_nonneg used).
  rewrite (proj2 (checked_add_Some _ _ _)) by (split; [done|lia]). simpl.
  rewrite (proj2 (Z.ltb_ge (rd_length r) _)), (proj2 (Z.ltb_ge (zlen (rd_reader r)) _)) by lia.
  assert (take (length x) (rd_reader r) = x) as Htk.
  { apply (f_equal (take (length x))) in Hr. rewrite take_take, take_app_length in Hr.
    rewrite Nat.min_l in Hr by (unfold zlen in *; lia). done. }
  assert (slice (rd_reader r) 0 (zlen x) = x) as Hsl.
  { unfold slice. rewrite drop_0. replace (Z.to_nat (zlen x - 0)) with (length x)
      by (unfold zlen; lia). done. }
  rewrite Hsl. eexists; split; [done|]. split.
  - simpl. split_and!; try done; try lia. exists (used ++ x). rewrite zlen_app. split_and!; [|lia|].
    + rewrite <- Ht, <- (assoc_L (++)). f_equal.
      unfold zlen. rewrite Nat2Z.id, <- Htk at 1. apply take_drop.
    + intros Hs. rewrite He, <- (Hh Hs). by destruct Hs as [? ->].
  - simpl. apply (f_equal (drop (length x))) in Hr. rewrite drop_app_length in Hr.
    rewrite <- Hr, skipn_firstn_comm. unfold zlen. rewrite Nat2Z.id. f_equal. lia.
Qed.

Lemma ReadDecoder_exact_parses n :
  0 <= n ->
  @parses _ view _ (ReadDecoder_read_exact n) (fun b x => b = x /\ zlen x = n /\ is_bytes x).
Proof.
  intros Hn r b r' (He & Hc & Hlen & (used & Ht & Hp & Hh) & Hl & Hb) E.
  unfold ReadDecoder_read_exact in E. inv_all. bools.
  apply checked_add_Some in Hok as [-> Hle]. exists b.
  subst r'. subst b. simpl.
  assert (is_bytes (rd_reader r)) by (rewrite <- Ht in Hb; by apply Forall_app in Hb as [_ Hb]).
  assert (slice (rd_reader r) 0 n = take (Z.to_nat n) (rd_reader r)) as ->
    by (unfold slice; by rewrite drop_0, Z.sub_0_r).
  assert (zlen (take (Z.to_nat n) (rd_reader r)) = n) as Hz
    by (unfold zlen in *; rewrite length_take; lia).
  split; [|split_and!; try done; try lia].
  - replace (Z.to_nat (len - rd_position r))
      with (Z.to_nat n + Z.to_nat (len - (rd_position r + n)))%nat by lia.
    by rewrite <- take_take_drop.
  - exists (used ++ take (Z.to_nat n) (rd_reader r)).
    rewrite <- (assoc_L (++)), take_drop, zlen_app. split_and!; [done|lia|].
    intros Hs. rewrite He, <- (Hh Hs). by destruct Hs as [? ->].
  - by apply Forall_take.
Qed.

Lemma ReadDecoder_laws : @WireLaws ReadDecoder ReadDecoder_wire view.
Proof.
  split.
  - intros x Hx r rest Hr Hrest. simpl. unfold ReadDecoder_take.
    pose proof Hr as (_ & _ & Hn & _ & Hpos & _). simpl in Hrest.
    apply (f_equal zlen) in Hrest as Hz. rewrite zlen_app in Hz.
    unfold zlen in Hz at 1. rewrite length_take in Hz.
    pose proof (zlen_nonneg rest). rewrite (proj2 (Z.ltb_ge _ _)) by lia.
    by apply ReadDecoder_exact_reads.
  - apply ReadDecoder_exact_reads.
  - intros n Hn r b r' Hr E. simpl in E. unfold ReadDecoder_take in E. inv_ok.
    by apply (ReadDecoder_exact_parses n Hn).
  - apply ReadDecoder_exact_parses.
Qed.

(** Finishing accepts exactly a stream that ended cleanly at the declared length
    with the expected digest, when one is expected. *)
Lemma ReadDecoder_finish_spec `{Hashes} r u :
  @wire_ok _ view r ->
  ReadDecoder_finish r = Ok u <->
  @remaining _ view r = [] /\ clean = true /\ zlen total = len /\
  (forall d, expected = Some d -> blake3 total = d).
Proof.
  intros (He & Hc & Hlen & (used & Ht & Hp & Hh) & Hl & Hb). unfold ReadDecoder_finish. simpl.
  rewrite He, Hc, Hlen.
  assert (zlen total = rd_position r + zlen (rd_reader r)) as Hz by (rewrite <- Ht, zlen_app; lia).
  destruct u. split.
  - intros E. inv_ok. bools. assert (rd_reader r = []) as Hn.
    { apply length_zero_iff_nil. unfold zlen in *. lia. }
    rewrite Hn in *. rewrite app_nil_r in Ht. subst used.
    rewrite zlen_nil in *. split; [by rewrite take_nil|]. split; [by destruct clean|].
    split; [lia|]. intros d ->. rewrite (Hh ltac:(eauto)) in Hguard2. bools.
    by apply bytes_eqb_true.
  - intros (Hr & -> & Hlt & Hbl).
    assert (rd_reader r = []) as Hn.
    { apply (f_equal length) in Hr. rewrite length_take in Hr. apply length_zero_iff_nil.
      unfold zlen in *. simpl in Hr. lia. }
    rewrite Hn in *. rewrite app_nil_r in Ht. subst used.
    rewrite zlen_nil in *. rewrite (proj2 (Z.eqb_eq (rd_position r) len)) by lia.
    destruct expected as [d|]; [|done]. by rewrite (Hh ltac:(eauto)), (Hbl d), bytes_eqb_refl.
Qed.
End Stream.

(** *** Whole records *)

Lemma Decoder_new_ok b : zlen b <= U64_MAX -> is_bytes b -> wire_ok (Decoder_new b).
Proof. intros. simpl. pose proof (zlen_nonneg b). split; [lia|done]. Qed.

Lemma Decoder_finish_spec d u :
  wire_ok d -> Decoder_finish d = Ok u <-> remaining d = [].
Proof.
  intros (Hp & Hl & Hb). unfold Decoder_finish. simpl. destruct u. rewrite <- length_zero_iff_nil, length_drop.
  unfold zlen in *. destruct (Z.eqb_spec (d_position d) (Z.of_nat (length (d_bytes d)))).
  - split; [lia|done].
  - split; [done|lia].
Qed.

(** Decoding a record and finishing: what is read is the whole input. *)
Lemma reads_whole {A} (m : dm Decoder A) x a :
  reads m x a -> zlen x <= U64_MAX -> is_bytes x ->
  exists d, m (Decoder_new x) = Ok (a, d) /\ Decoder_finish d = Ok tt.
Proof.
  intros Hm Hl Hb. destruct (Hm (Decoder_new x) []) as (d & E & Hd & Hr).
  - by apply Decoder_new_ok.
  - simpl. by rewrite app_nil_r.
  - exists d. split; [done|]. by apply Decoder_finish_spec.
Qed.

Lemma parses_whole {A} (m : dm Decoder A) P x a d u :
  parses m P -> zlen x <= U64_MAX -> is_bytes x ->
  m (Decoder_new x) = Ok (a, d) -> Decoder_finish d = Ok u -> P a x.
Proof.
  intros Hm Hl Hb E Hf. destruct (Hm _ _ _ (Decoder_new_ok x Hl Hb) E) as (y & Hy & Hd & HP).
  apply Decoder_finish_spec in Hf; [|done]. rewrite Hf, app_nil_r in Hy. simpl in Hy.
  rewrite drop_0 in Hy. by subst y.
Qed.

(** *** The concrete compression library meets its specification *)

Lemma bytes_check_true l : bytes_check l = true <-> is_bytes l.
Proof.
  unfold bytes_check. rewrite forallb_forall, Forall_forall. unfold is_u8.
  split; intros Hl x Hx; [apply list_elem_of_In, Hl in Hx|apply list_elem_of_In in Hx; specialize (Hl x Hx)]; lia.
Qed.

Lemma demo_expand_compress raw c : demo_compress raw = Some c -> demo_expand c = Some raw.
Proof.
  unfold demo_compress. destruct (bytes_check raw && _) eqn:Eb; [|done]. bools. simpl negb. cbv iota.
  destruct raw as [|x rest]; [by intros [= <-]|].
  destruct (forallb (Z.eqb x) rest) eqn:Er; intros E; inv_ok; subst c; cbn [demo_expand];
    [|by rewrite H].
  assert (bytes_check [x] = true) as ->.
  { apply bytes_check_true. apply bytes_check_true in H. inversion H; subst. by constructor. }
  rewrite le_val_bytes_small.
  - f_equal. unfold zlen. rewrite Nat2Z.id. apply replicate_as_elem_of. split; [done|].
    intros y [->|Hy]%elem_of_cons; [done|]. rewrite forallb_forall in Er.
    apply list_elem_of_In, Er in Hy. lia.
  - change (256 ^ Z.of_nat 8) with (U64_MAX + 1). pose proof (zlen_nonneg (x :: rest)). lia.
Qed.

Lemma demo_compress_bytes raw c : demo_compress raw = Some c -> is_bytes c /\ 1 <= zlen c.
Proof.
  unfold demo_compress. destruct (bytes_check raw && _) eqn:Eb; [|done]. bools. simpl negb. cbv iota.
  apply bytes_check_true in H. assert (is_u8 0 /\ is_u8 1) as [H0 H1] by (unfold is_u8; lia).
  destruct raw as [|x rest]; [intros [= <-]; by repeat constructor|].
  pose proof (zlen_nonneg rest).
  destruct (forallb (Z.eqb x) rest); intros E; inv_ok; subst c; rewrite !zlen_cons, ?zlen_le_bytes.
  - split; [|lia]. inversion H; subst. do 2 (constructor; [done|]). apply is_bytes_le_bytes.
  - split; [by constructor|lia].
Qed.

Lemma demo_expand_bytes c raw : demo_expand c = Some raw -> is_bytes raw.
Proof.
  unfold demo_expand. intros E. repeat case_match; simplify_eq; try done.
  - by apply bytes_check_true.
  - apply Forall_replicate.
    match goal with H : bytes_check [_] = true |- _ => apply bytes_check_true in H; by inversion H end.
Qed.

Lemma demo_zstd_ok : ZstdOk demo_zstd.
Proof.
  split; cbn [zcompress zdecompress zstream demo_zstd].
  - intros _ _ raw c capacity Hc Hl. rewrite (demo_expand_compress raw c Hc).
    by rewrite (proj2 (Z.leb_le _ _) Hl).
  - intros _ c capacity raw E. repeat case_match; simplify_eq. lia.
  - intros _ c capacity raw E. repeat case_match; simplify_eq. by eapply demo_expand_bytes.
  - intros _ _ raw c. apply demo_compress_bytes.
  - intros _ raw c Hc. by rewrite (demo_expand_compress raw c Hc).
  - intros c raw clean E. repeat case_match; simplify_eq. by eapply demo_expand_bytes.
Qed.

(** *** Envelopes *)

Section EnvelopeLemmas.
Context {H : Hashes} {HOK : HashesOk H} {Z0 : ZstdLib} {ZOK : ZstdOk Z0}.

Lemma envelope_fields_reads magic limit n len hash c :
  zlen magic = 8 -> is_bytes magic -> is_u64 len -> len <= limit -> digest_ok hash ->
  is_bytes c -> n = 48 + zlen c ->
  reads (envelope_fields magic limit n) (magic ++ u64_bytes len ++ hash ++ c) (len, hash, c).
Proof.
  intros Hm Hmb Hlen Hlim Hh Hc ->. unfold envelope_fields.
  eapply reads_bind; [by apply reads_exact|].
  apply reads_guard; [by rewrite bytes_eqb_refl|].
  eapply reads_bind; [by apply reads_u64|].
  apply reads_guard; [lia|].
  eapply reads_bind; [by apply reads_digest|].
  eapply (reads_lift _ _ (zlen c)).
  { apply range_Ok, checked_sub_Some. pose proof (zlen_nonneg c). lia. }
  eapply reads_bind_end; [by apply reads_exact|]. apply reads_ret.
Qed.

Lemma envelope_fields_run magic limit len hash c (e := magic ++ u64_bytes len ++ hash ++ c) :
  zlen magic = 8 -> is_bytes magic -> is_u64 len -> len <= limit -> digest_ok hash ->
  is_bytes c -> zlen c <= U64_MAX - 48 ->
  exists d, envelope_fields magic limit (zlen e) (Decoder_new e) = Ok (len, hash, c, d).
Proof.
  intros Hm Hmb Hlen Hlim [Hh Hhb] Hc Hcl.
  assert (zlen e = 48 + zlen c) as He
    by (subst e; unfold u64_bytes; rewrite !zlen_app, zlen_le_bytes; lia).
  destruct (reads_whole (envelope_fields magic limit (zlen e)) e (len, hash, c)) as (d & Hd & _).
  - apply envelope_fields_reads; done.
  - lia.
  - subst e. rewrite !Forall_app. unfold u64_bytes. auto with bytedb.
  - by exists d.
Qed.

(** Fields of anything the opener accepts: the declared length is within the
    caller's limit and the rest of the input is the compressed record. *)
Lemma envelope_fields_parses magic limit n :
  parses (envelope_fields magic limit n)
    (fun r x => exists len hash c, r = (len, hash, c) /\ x = magic ++ u64_bytes len ++ hash ++ c /\
       zlen magic = 8 /\ is_u64 len /\ len <= limit /\ digest_ok hash /\ zlen c = n - 48 /\
       is_bytes c).
Proof.
  unfold envelope_fields.
  eapply parses_step; [apply parses_take; lia|]. intros m x (-> & Hm8 & _).
  apply parses_guard_step. intros Hm%negb_false_iff%bytes_eqb_true. subst x.
  eapply parses_step; [apply parses_u64|]. intros len x (Hlen & ->).
  apply parses_guard_step. intros Hlim.
  eapply parses_step; [apply parses_digest|]. intros hash x (Hh & ->).
  apply parses_lift_step. intros k [-> Hk]%range_Ok%checked_sub_Some.
  eapply parses_step; [apply parses_take; lia|]. intros c x (-> & Hc & Hcb).
  apply parses_end. exists len, hash, x. rewrite app_nil_r. split_and!; (done || lia).
Qed.

Lemma envelope_bytes magic raw e : is_bytes magic -> envelope magic raw = Ok e -> is_bytes e.
Proof.
  intros Hm E. unfold envelope in E. inv_ok. unfold zstd in Hok. inv_ok. subst e.
  rewrite !Forall_app. split_and!; [done|apply is_bytes_le_bytes|apply blake3_bytes|].
  by apply (zcompress_bytes 3 [] raw).
Qed.

Lemma envelope_roundtrip_lemma magic raw e limit :
  zlen magic = 8 -> is_bytes magic -> zlen raw <= limit -> zlen raw <= U64_MAX ->
  envelope magic raw = Ok e -> is_bytes e -> zlen e <= U64_MAX ->
  open_envelope magic e limit = Ok raw.
Proof.
  intros Hm Hmb Hlim Hraw E Hb Hl. unfold envelope in E. inv_ok. unfold zstd in Hok. inv_ok.
  subst e. rewrite !Forall_app in Hb. destruct Hb as (_ & _ & _ & Hc).
  assert (digest_ok (blake3 raw)) as Hh by (split; [apply blake3_length|apply blake3_bytes]).
  unfold u64_bytes in Hl. rewrite !zlen_app, zlen_le_bytes, blake3_length in Hl.
  destruct (envelope_fields_run magic limit (zlen raw) (blake3 raw) a) as (d & Hd);
    [done|done| |done|done|done|lia|].
  { pose proof (zlen_nonneg raw). unfold is_u64, U64_MAX in *. lia. }
  unfold open_envelope. rewrite Hd. simpl.
  rewrite (zdecompress_compress 3 [] raw a) by (done || lia). simpl.
  by rewrite Z.eqb_refl, bytes_eqb_refl.
Qed.

Lemma open_envelope_bytes magic e limit raw :
  zlen e <= U64_MAX -> is_bytes e -> open_envelope magic e limit = Ok raw ->
  is_bytes raw /\ zlen raw <= limit.
Proof.
  intros Hl Hb E. unfold open_envelope in E. inv_ok. destruct a as [[[len hash] c] d]; simpl in *.
  inv_ok. unfold zstd in Hok0. inv_ok. bools. subst raw. split; [by eapply zdecompress_bytes|].
  destruct (envelope_fields_parses _ _ _ _ _ _ (Decoder_new_ok e Hl Hb) Hok)
    as (x & _ & _ & len' & hash' & c' & Er & _ & _ & _ & Hlim & _). injection Er as <- <- <-. lia.
Qed.

(** Anything the bulk opener accepts is the decompression of the compressed part,
    within the limit, and hashes to the digest the envelope carries. *)
Theorem open_envelope_sound magic e limit raw :
  zlen e <= U64_MAX -> is_bytes e -> open_envelope magic e limit = Ok raw ->
  zlen raw <= limit /\
  exists c, e = magic ++ u64_bytes (zlen raw) ++ blake3 raw ++ c /\
            zdecompress [] c (zlen raw) = Some raw.
Proof.
  intros Hl Hb E. unfold open_envelope in E. inv_ok. destruct a as [[[len hash] c] d]; simpl in *.
  inv_ok. unfold zstd in Hok0. inv_ok. apply orb_false_iff in Hguard as [H1 H2]. bools.
  apply bytes_eqb_true in H2. assert (zlen a = len) as <- by lia. subst raw hash.
  destruct (envelope_fields_parses _ _ _ _ _ _ (Decoder_new_ok e Hl Hb) Hok)
    as (x & Hx & Hd & len' & hash' & c' & Er & -> & Hm & Hlen & Hlim & Hh & Hc & Hcb).
  injection Er as <- <- <-.
  split; [done|]. exists c. split; [|done].
  change (remaining (Decoder_new e)) with e in Hx.
  assert (remaining d = []) as Hnil; [|by rewrite Hnil, app_nil_r in Hx].
  apply length_zero_iff_nil. apply (f_equal zlen) in Hx. unfold u64_bytes in Hx.
  rewrite !zlen_app, zlen_le_bytes in Hx. destruct Hh as [Hh _]. unfold zlen in *. lia.
Qed.

(** The streaming opener hands any record decoder the same bytes as the bulk one:
    a decoder that reads [raw] reads it from the stream, and finishing accepts. *)
Lemma open_reader_reads magic raw e limit :
  zlen magic = 8 -> is_bytes magic -> zlen raw <= limit -> zlen raw <= U64_MAX -> is_bytes raw ->
  envelope magic raw = Ok e -> is_bytes e -> zlen e <= U64_MAX ->
  exists r, open_envelope_reader magic e limit = Ok r /\ rd_length r = zlen raw /\
    forall A (m : dm ReadDecoder A) a,
      @reads _ (stream_view raw true (zlen raw) (Some (blake3 raw))) _ m raw a ->
      exists r', m r = Ok (a, r') /\ ReadDecoder_finish r' = Ok tt.
Proof.
  intros Hm Hmb Hlim Hraw Hrb E Hb Hl. unfold envelope in E. inv_ok. unfold zstd in Hok. inv_ok.
  subst e. rewrite !Forall_app in Hb. destruct Hb as (_ & _ & _ & Hc).
  assert (digest_ok (blake3 raw)) as Hh by (split; [apply blake3_length|apply blake3_bytes]).
  unfold u64_bytes in Hl. rewrite !zlen_app, zlen_le_bytes, blake3_length in Hl.
  pose proof (zlen_nonneg raw).
  destruct (envelope_fields_run magic limit (zlen raw) (blake3 raw) a) as (d & Hd);
    [done|done| |done|done|done|lia|].
  { unfold is_u64, U64_MAX in *. lia. }
  unfold open_envelope_reader. rewrite Hd. simpl.
  rewrite (zstream_compress 3 raw a Hok). simpl. eexists; split; [done|]. split; [done|].
  intros A m v Hr. destruct (Hr (mkReadDecoder raw true (zlen raw) 0 [] (Some (blake3 raw))) [])
    as (r' & E & Hok' & Hrem).
  - simpl. split_and!; try (done || lia). exists []. done.
  - simpl. rewrite app_nil_r, Z.sub_0_r. apply take_ge. unfold zlen. lia.
  - exists r'. split; [done|].
    apply (ReadDecoder_finish_spec raw true (zlen raw) (Some (blake3 raw))); [done|].
    split_and!; try done. by intros ? [= ->].
Qed.

(** A sealed record survives its envelope, through both openers: the bulk one
    returns the record, and the streaming one hands any decoder that reads the
    record exactly its bytes, then accepts the end, the length and the digest. *)
Theorem envelope_roundtrip magic raw e limit :
  zlen magic = 8 -> is_bytes magic -> is_bytes raw -> zlen raw <= limit -> zlen raw <= U64_MAX ->
  envelope magic raw = Ok e -> zlen e <= U64_MAX ->
  open_envelope magic e limit = Ok raw /\
  exists r, open_envelope_reader magic e limit = Ok r /\
    forall A (m : dm ReadDecoder A) a,
      @reads _ (stream_view raw true (zlen raw) (Some (blake3 raw))) _ m raw a ->
      exists r', m r = Ok (a, r') /\ ReadDecoder_finish r' = Ok tt.
Proof.
  intros Hm Hmb Hrb Hlim Hraw He Hl. pose proof (envelope_bytes magic raw e Hmb He) as Hb.
  split; [by eapply envelope_roundtrip_lemma|].
  destruct (open_reader_reads magic raw e limit) as (r & Hr & _ & Hm'); try done. by exists r.
Qed.
End EnvelopeLemmas.

Definition demo_magic : bytes := ascii "ZSQLDM01".

Definition demo_envelope : bytes :=
  demo_magic ++ u64_bytes 3 ++ @blake3 demo_hashes [9; 8; 7] ++ [0; 9; 8; 7].

Lemma open_envelope_sound_witness :
  @open_envelope demo_hashes demo_zstd demo_magic demo_envelope 16 = Ok [9; 8; 7] /\
  exists c, demo_envelope = demo_magic ++ u64_bytes 3 ++ @blake3 demo_hashes [9; 8; 7] ++ c.
Proof.
  assert (@open_envelope demo_hashes demo_zstd demo_magic demo_envelope 16 = Ok [9; 8; 7]) as He
    by (vm_compute; reflexivity).
  split; [exact He|].
  destruct (@open_envelope_sound demo_hashes demo_zstd demo_magic demo_envelope 16 [9; 8; 7])
    as (_ & c & Hc & _); [vm_compute; discriminate| |exact He|].
  - apply bytes_check_ok. vm_compute. reflexivity.
  - exists c. exact Hc.
Defined.

Lemma envelope_roundtrip_witness :
  @envelope demo_hashes demo_zstd demo_magic [9; 8; 7] = Ok demo_envelope /\
  @open_envelope demo_hashes demo_zstd demo_magic demo_envelope 16 = Ok [9; 8; 7].
Proof.
  assert (@envelope demo_hashes demo_zstd demo_magic [9; 8; 7] = Ok demo_envelope) as He
    by (vm_compute; reflexivity).
  split; [exact He|].
  apply (@envelope_roundtrip demo_hashes demo_hashes_ok demo_zstd demo_zstd_ok
           demo_magic [9; 8; 7] demo_envelope 16).
  - reflexivity.
  - apply bytes_check_ok. reflexivity.
  - apply bytes_check_ok. reflexivity.
  - vm_compute. discriminate.
  - vm_compute. discriminate.
  - exact He.
  - vm_compute. discriminate.
Defined.
