(* ===== verification/Segment.v ===== *)
(** Segment containers (src/src/storage/segment.rs): the 128-byte header, the
    container around a manifest record, segment file names and the selection of the
    physical segment that represents a logical endpoint. *)

From S2P Require Import Prelude Domain Format Wire.
From stdpp Require Import base strings gmap list sorting.
From Stdlib Require Import ZArith Lia.
Open Scope Z_scope.

Definition HEADER_SIZE : Z := 128.
Definition LIMIT : Z := 512 * 1024 * 1024.
Definition SEGMENT_MAGIC : bytes := ascii "ZSEG0001".
Definition END_MAGIC : bytes := ascii "ZEND0001".

Definition is_container (magic : bytes) : bool := bytes_eqb magic SEGMENT_MAGIC.

Record ParentRef : Set := mkParentRef { pr_hash : Digest; pr_txid : Z }.

Inductive Parent : Set :=
| Checkpoint
| Previous (reference : ParentRef).

Record Header : Set := mkHeader {
  hd_coverage : SegmentCoverage;
  hd_logical_hash : Digest;
  hd_parent : Parent;
}.

#[export] Instance ParentRef_eq_dec : EqDecision ParentRef.
Proof. solve_decision. Defined.
#[export] Instance Parent_eq_dec : EqDecision Parent.
Proof. solve_decision. Defined.
#[export] Instance Header_eq_dec : EqDecision Header.
Proof. solve_decision. Defined.

Definition Header_new (coverage : SegmentCoverage) (logical_hash : Digest) (parent : Parent)
    : result StoreError Header :=
  let* expected :=
    match parent with
    | Checkpoint => Ok (span_begin (cov_full coverage))
    | Previous reference =>
        fail_if (pr_txid reference <? span_begin (cov_full coverage))
                || (span_end (cov_full coverage) <? pr_txid reference) with Range ;;
        if pr_txid reference =? span_end (cov_full coverage) then Ok (pr_txid reference)
        else value (TransactionId_next (pr_txid reference))
    end in
  fail_if negb (span_begin (represented coverage) =? expected) with Range ;;
  Ok (mkHeader coverage logical_hash parent).

Definition Header_encode (h : Header) : bytes :=
  let b := zeros HEADER_SIZE in
  let b := put b 0 SEGMENT_MAGIC in
  let b := put b 16 (le_bytes 8 (span_begin (cov_full (hd_coverage h)))) in
  let b := put b 24 (le_bytes 8 (span_end (cov_full (hd_coverage h)))) in
  let b := put b 64 (le_bytes 8 (span_begin (represented (hd_coverage h)))) in
  let b := put b 80 (hd_logical_hash h) in
  match hd_parent h with
  | Previous parent =>
      let b := put b 9 [1] in
      let b := put b 32 (pr_hash parent) in
      put b 72 (le_bytes 8 (pr_txid parent))
  | Checkpoint => b
  end.

Definition Header_decode (b : bytes) : result StoreError Header :=
  fail_if negb (is_container (slice b 0 8)) || negb (byte_at b 8 =? 0) with Corrupt 0 ;;
  fail_if negb (all_zero (slice b 10 16 ++ slice b 112 128)) with Corrupt 0 ;;
  let* parent :=
    (if (byte_at b 9 =? 0) && all_zero (slice b 32 64 ++ slice b 72 80) then Ok Checkpoint
     else if byte_at b 9 =? 1 then
       let* txid := value (TransactionId_new (le_val (slice b 72 80))) in
       Ok (Previous (mkParentRef (slice b 32 64) txid))
     else Err (Corrupt 0)) in
  let* first := value (TransactionId_new (le_val (slice b 16 24))) in
  let* last := value (TransactionId_new (le_val (slice b 24 32))) in
  let* span := value (TransactionSpan_new first last) in
  let* rep := value (TransactionId_new (le_val (slice b 64 72))) in
  let* coverage := value (SegmentCoverage_new span rep) in
  Header_new coverage (slice b 80 112) parent.

(** *** File names: [{:016x}-{:016x}-{hex}-{hex}.segment] *)

Fixpoint hex_be (n : nat) (v : Z) : bytes :=
  match n with
  | O => []
  | S n' => hex_be n' (v / 16) ++ [hex_digit (v mod 16)]
  end.
Definition DASH : Z := 45.
Definition SUFFIX : bytes := ascii ".segment".

Definition filename (h : Header) (id : Digest) : bytes :=
  hex_be 16 (span_begin (represented (hd_coverage h))) ++ [DASH] ++
  hex_be 16 (span_end (cov_full (hd_coverage h))) ++ [DASH] ++
  hex (hd_logical_hash h) ++ [DASH] ++ hex id ++ SUFFIX.

Definition strip_suffix (suffix v : bytes) : option bytes :=
  let n := zlen v - zlen suffix in
  if (0 <=? n) && bytes_eqb (slice v n (zlen v)) suffix then Some (slice v 0 n) else None.

(** [str::split] at a one-byte separator. *)
Fixpoint split (sep : Z) (v : bytes) : list bytes :=
  match v with
  | [] => [[]]
  | c :: v' =>
      if c =? sep then [] :: split sep v'
      else match split sep v' with
           | f :: fs => (c :: f) :: fs
           | [] => [[c]]
           end
  end.

(** [u64::from_str_radix(_, 16)] and [u8::from_str_radix(_, 16)]: an optional [+],
    then digits of either case, without overflow. *)
Definition radix_digit (c : Z) : option Z :=
  if (48 <=? c) && (c <=? 57) then Some (c - 48)
  else if (97 <=? c) && (c <=? 102) then Some (c - 87)
  else if (65 <=? c) && (c <=? 70) then Some (c - 55)
  else None.

Fixpoint radix_digits (max acc : Z) (v : bytes) : option Z :=
  match v with
  | [] => Some acc
  | c :: v' =>
      match radix_digit c with
      | Some d => if acc * 16 + d <=? max then radix_digits max (acc * 16 + d) v' else None
      | None => None
      end
  end.

Definition from_str_radix (max : Z) (v : bytes) : option Z :=
  match v with
  | [] => None
  | [c] => if (c =? 43) || (c =? 45) then None else radix_digits max 0 v
  | c :: v' => if c =? 43 then radix_digits max 0 v' else radix_digits max 0 v
  end.

Fixpoint parse_hex_pairs (v : bytes) : result StoreError bytes :=
  match v with
  | a :: b :: v' =>
      let* x := ok_or (from_str_radix 255 [a; b]) (Corrupt 0) in
      let* rest := parse_hex_pairs v' in
      Ok (x :: rest)
  | _ => Ok []
  end.

Definition parse_hex (v : bytes) : result StoreError Digest :=
  fail_if negb (zlen v =? 64) || negb (forallb (fun c => c <? 128) v) with Corrupt 0 ;;
  parse_hex_pairs v.

Definition parse_filename (name : bytes) : result StoreError Digest :=
  let* bare := ok_or (strip_suffix SUFFIX name) (Corrupt 0) in
  match split DASH bare with
  | [f0; f1; f2; f3] =>
      fail_if negb (zlen f0 =? 16) || negb (zlen f1 =? 16) with Corrupt 0 ;;
      let* n0 := ok_or (from_str_radix U64_MAX f0) (Corrupt 0) in
      let* first := value (TransactionId_new n0) in
      let* n1 := ok_or (from_str_radix U64_MAX f1) (Corrupt 0) in
      let* last := value (TransactionId_new n1) in
      let* span := value (TransactionSpan_new first last) in
      let* logical_hash := parse_hex f2 in
      let* physical := parse_hex f3 in
      let* coverage := value (SegmentCoverage_new span (span_begin span)) in
      let* header := Header_new coverage logical_hash Checkpoint in
      fail_if negb (bytes_eqb (filename header physical) name) with Corrupt 0 ;;
      Ok physical
  | _ => Err (Corrupt 0)
  end.

(** *** Containers *)

Record Container : Set := mkContainer {
  ct_header : Header;
  ct_footer : bytes;
  ct_id : Digest;
}.

Section WithHashes.
Context `{Hashes}.

(** [read_exact_at] of a file of these bytes; every read of [read] is in range. *)
Definition read_exact_at (file : bytes) (offset n : Z) : result StoreError bytes :=
  fail_if zlen file <? offset + n with Io ;;
  Ok (slice file offset (offset + n)).

Definition read (file : bytes) : result StoreError Container :=
  let length := zlen file in
  fail_if negb ((HEADER_SIZE + 16 <=? length) && (length <=? LIMIT)) with Range ;;
  let* encoded := read_exact_at file 0 HEADER_SIZE in
  let* header := Header_decode encoded in
  let* tail := read_exact_at file (length - 16) 16 in
  fail_if negb (bytes_eqb (slice tail 8 16) END_MAGIC) with Corrupt (length - 16) ;;
  let offset := le_val (slice tail 0 8) in
  fail_if negb (offset =? HEADER_SIZE) with Range ;;
  let* footer := read_exact_at file offset (length - 16 - offset) in
  Ok (mkContainer header footer (blake3 (encoded ++ footer))).

Definition read_bytes (b : bytes) : result StoreError Container :=
  fail_if negb ((HEADER_SIZE + 16 <=? zlen b) && (zlen b <=? LIMIT)) with Range ;;
  let encoded := slice b 0 HEADER_SIZE in
  let* header := Header_decode encoded in
  let tail := slice b (zlen b - 16) (zlen b) in
  fail_if negb (bytes_eqb (slice tail 8 16) END_MAGIC)
          || negb (le_val (slice tail 0 8) =? HEADER_SIZE) with Corrupt 0 ;;
  let id := blake3 (encoded ++ slice b HEADER_SIZE (zlen b - 16)) in
  let stop := zlen b - 16 in
  Ok (mkContainer header (slice b HEADER_SIZE stop) id).

End WithHashes.

(** *** Endpoint discovery *)

Definition candidate : Type := Z * bool * Digest.

(** Derived tuple order: begin, then checkpoint before delta, then identity. *)
Definition candidate_leb (a b : candidate) : bool :=
  let '(x, p, i) := a in
  let '(y, q, j) := b in
  if x <? y then true else if y <? x then false
  else if xorb p q then q
  else digest_leb i j.

(** One catalog row; [Some] when it names the endpoint and was not seen. *)
Definition endpoint_candidate (endpoint : ParentRef) (seen : list Digest) (row : bytes * bytes)
    : result StoreError (option candidate) :=
  let '(key, encoded) := row in
  fail_if negb (zlen key =? 32) with Corrupt 0 ;;
  fail_if negb (zlen encoded =? HEADER_SIZE) with Corrupt 0 ;;
  let* header := Header_decode encoded in
  Ok (if bytes_eqb (hd_logical_hash header) (pr_hash endpoint)
         && (span_end (cov_full (hd_coverage header)) =? pr_txid endpoint)
         && negb (bool_decide (key ∈ seen))
      then Some (span_begin (represented (hd_coverage header)),
                 match hd_parent header with Checkpoint => false | Previous _ => true end, key)
      else None).

Definition find_endpoint (rows : list (bytes * bytes)) (endpoint : ParentRef) (seen : list Digest)
    : result StoreError (option Digest) :=
  let* found := mmap (endpoint_candidate endpoint seen) rows in
  Ok (option_map snd (head (isort candidate_leb (omap id found)))).

Definition resolve_parent (rows : list (bytes * bytes)) (parent : ParentRef) (seen : list Digest)
    : result StoreError Digest :=
  let* found := find_endpoint rows parent seen in
  ok_or found (Corrupt 0).

(** ** What a header constructor establishes *)

Definition parent_ok (c : SegmentCoverage) (p : Parent) : Prop :=
  match p with
  | Checkpoint => cov_begin c = span_begin (cov_full c)
  | Previous r =>
      digest_ok (pr_hash r) /\
      span_begin (cov_full c) <= pr_txid r <= span_end (cov_full c) /\
      cov_begin c = Z.min (pr_txid r + 1) (span_end (cov_full c))
  end.

Definition header_ok (h : Header) : Prop :=
  coverage_ok (hd_coverage h) /\ digest_ok (hd_logical_hash h) /\
  parent_ok (hd_coverage h) (hd_parent h).

(** ** Lemmas *)

(** *** Headers *)

Lemma Header_new_spec c l p h :
  coverage_ok c -> digest_ok l -> (forall r, p = Previous r -> digest_ok (pr_hash r)) ->
  Header_new c l p = Ok h <-> h = mkHeader c l p /\ parent_ok c p.
Proof.
  intros ((Hb & He & Hle) & Hc) Hl Hp. unfold Header_new, parent_ok.
  destruct p as [|[d t]]; simpl.
  - destruct (Z.eqb_spec (cov_begin c) (span_begin (cov_full c))); simpl; split.
    + intros E. by inv_ok.
    + by intros [-> _].
    + done.
    + naive_solver.
  - specialize (Hp _ eq_refl). simpl in Hp.
    destruct ((t <? span_begin (cov_full c)) || (span_end (cov_full c) <? t)) eqn:Er.
    { apply orb_true_iff in Er. split; [done|]. intros (_ & _ & ? & _). lia. }
    apply orb_false_iff in Er.
    assert (((if t =? span_end (cov_full c) then Ok t else value (TransactionId_next t))
      : result StoreError Z) = Ok (Z.min (t + 1) (span_end (cov_full c)))) as ->.
    { destruct (Z.eqb_spec t (span_end (cov_full c))); [f_equal; lia|].
      apply value_Ok, TransactionId_next_spec; unfold txid_ok in *; lia. }
    simpl. destruct (Z.eqb_spec (cov_begin c) (Z.min (t + 1) (span_end (cov_full c)))); simpl; split.
    + intros E. inv_ok. split; [done|]. split; [done|lia].
    + by intros [-> _].
    + done.
    + naive_solver.
Qed.

Definition header_writes128 (h : Header) : list write :=
  [(0, 8, SEGMENT_MAGIC);
   (16, 8, le_bytes 8 (span_begin (cov_full (hd_coverage h))));
   (24, 8, le_bytes 8 (span_end (cov_full (hd_coverage h))));
   (64, 8, le_bytes 8 (span_begin (represented (hd_coverage h))));
   (80, 32, hd_logical_hash h)] ++
  match hd_parent h with
  | Previous p => [(9, 1, [1]); (32, 32, pr_hash p); (72, 8, le_bytes 8 (pr_txid p))]
  | Checkpoint => []
  end.

Lemma Header_encode_writes h : Header_encode h = writes (zeros 128) (header_writes128 h).
Proof.
  unfold Header_encode, header_writes128, HEADER_SIZE.
  destruct (hd_parent h); unfold writes; cbn [fold_left app]; reflexivity.
Qed.

Lemma zlen_SEGMENT_MAGIC : zlen SEGMENT_MAGIC = 8.
Proof. done. Qed.
#[local] Hint Rewrite zlen_SEGMENT_MAGIC : zlens.

Lemma header_writes128_fit h :
  header_ok h -> Forall (write_fits (zlen (zeros 128))) (header_writes128 h).
Proof.
  intros (_ & Hl%zlen_digest & Hp). unfold header_writes128, parent_ok in *.
  rewrite (zlen_zeros 128) by lia. destruct (hd_parent h) as [|p]; simpl app; [write_fit|].
  destruct Hp as [Hp%zlen_digest _]. write_fit.
Qed.

Lemma zlen_Header_encode h : zlen (Header_encode h) = 128.
Proof. rewrite Header_encode_writes, zlen_writes. by apply zlen_zeros. Qed.

Lemma txid_u64 t : txid_ok t -> is_u64 t.
Proof. unfold txid_ok, is_u64, U64_MAX. lia. Qed.

Lemma segment_header_roundtrip_lemma h :
  header_ok h -> Header_decode (Header_encode h) = Ok h.
Proof.
  intros Hok. pose proof (header_writes128_fit h Hok) as W. pose proof Hok as (Hcov & Hl & Hp).
  pose proof Hcov as ((Hb & He & Hle) & Hc).
  assert (forall a b v, 0 <= a -> read_rev (zeros 128) (reverse (header_writes128 h)) a b = v ->
            slice (Header_encode h) a b = v) as F.
  { intros a b v Ha <-. rewrite Header_encode_writes. by apply read_back. }
  assert (forall a v, 0 <= a -> read_rev (zeros 128) (reverse (header_writes128 h)) a (a + 1) = [v] ->
            byte_at (Header_encode h) a = v) as FB.
  { intros a v Ha E. apply byte_at_of_slice. by apply F. }
  unfold Header_decode, header_writes128, is_container in *.
  rewrite (F 0 8 SEGMENT_MAGIC), (FB 8 0), (F 10 16 (zeros 6)), (F 112 128 (zeros 16)),
    (F 16 24 (le_bytes 8 (span_begin (cov_full (hd_coverage h))))),
    (F 24 32 (le_bytes 8 (span_end (cov_full (hd_coverage h))))),
    (F 64 72 (le_bytes 8 (span_begin (represented (hd_coverage h))))),
    (F 80 112 (hd_logical_hash h)) by (lia || by destruct (hd_parent h)).
  rewrite bytes_eqb_refl, !le_val_8 by (apply txid_u64; unfold txid_ok in *; simpl; lia).
  simpl negb. cbv iota. change (all_zero (zeros 6 ++ zeros 16)) with true. simpl negb. cbv iota.
  assert ((if (byte_at (Header_encode h) 9 =? 0) &&
              all_zero (slice (Header_encode h) 32 64 ++ slice (Header_encode h) 72 80)
           then Ok Checkpoint
           else if byte_at (Header_encode h) 9 =? 1 then
             let* txid := value (TransactionId_new (le_val (slice (Header_encode h) 72 80))) in
             Ok (Previous (mkParentRef (slice (Header_encode h) 32 64) txid))
           else Err (Corrupt 0)) = Ok (hd_parent h)) as ->.
  { destruct (hd_parent h) as [|[d t]] eqn:Ep; simpl in Hp.
    - rewrite (FB 9 0), (F 32 64 (zeros 32)), (F 72 80 (zeros 8)) by (lia || done). done.
    - rewrite (FB 9 1), (F 32 64 d), (F 72 80 (le_bytes 8 t)) by (lia || done). simpl.
      destruct Hp as (Hd & Ht & _). assert (txid_ok t) by (unfold txid_ok in *; lia).
      rewrite le_val_8 by by apply txid_u64. by rewrite TransactionId_new_fwd. }
  cbn [rbind]. rewrite TransactionId_new_fwd by done. cbn [rbind].
  rewrite TransactionId_new_fwd by done. cbn [rbind].
  rewrite TransactionSpan_new_fwd by done. cbn [rbind].
  rewrite TransactionId_new_fwd by (unfold txid_ok in *; simpl; lia). cbn [rbind].
  rewrite SegmentCoverage_new_fwd by (simpl; lia). cbn [rbind].
  destruct h as [[[f e] b] l p]; simpl in *. apply Header_new_spec; try done.
  by intros r ->; apply Hp.
Qed.

(** The parent fields of a decoded header. *)
Definition decoded_parent (b : bytes) (parent : Parent) : Prop :=
  byte_at b 9 = (match parent with Previous _ => 1 | Checkpoint => 0 end) /\
  slice b 32 64 = (match parent with Previous r => pr_hash r | Checkpoint => zeros 32 end) /\
  slice b 72 80 = (match parent with Previous r => le_bytes 8 (pr_txid r) | Checkpoint => zeros 8 end) /\
  forall r, parent = Previous r -> digest_ok (pr_hash r).

Lemma slice_u64 b a : is_bytes b -> 0 <= a -> a + 8 <= zlen b -> is_u64 (le_val (slice b a (a + 8))).
Proof. intros. apply le_val_u64; [auto with bytedb|rewrite zlen_slice; lia]. Qed.

Lemma TransactionId_new_inv v t : is_u64 v -> TransactionId_new v = Ok t -> t = v /\ txid_ok v.
Proof. intros Hv. apply TransactionId_new_spec. unfold is_u64, U64_MAX in *. lia. Qed.

Lemma all_zero_app_slices b i j k l :
  0 <= i -> i <= j -> j <= zlen b -> 0 <= k -> k <= l -> l <= zlen b ->
  all_zero (slice b i j ++ slice b k l) = true ->
  slice b i j = zeros (j - i) /\ slice b k l = zeros (l - k).
Proof.
  intros. unfold all_zero in *. rewrite forallb_app in *. bools.
  match goal with H : forallb _ (slice b i j) = true, H' : forallb _ (slice b k l) = true |- _ =>
    apply all_zero_spec in H, H'; rewrite zlen_slice in H, H' by lia; done end.
Qed.

Lemma decode_parent_inv b parent :
  is_bytes b -> zlen b = 128 ->
  (if (byte_at b 9 =? 0) && all_zero (slice b 32 64 ++ slice b 72 80) then Ok Checkpoint
   else if byte_at b 9 =? 1 then
     let* txid := value (TransactionId_new (le_val (slice b 72 80))) in
     Ok (Previous (mkParentRef (slice b 32 64) txid))
   else Err (Corrupt 0)) = Ok parent -> decoded_parent b parent.
Proof.
  intros Hb Hl E. unfold decoded_parent.
  destruct ((byte_at b 9 =? 0) && all_zero (slice b 32 64 ++ slice b 72 80)) eqn:E0.
  - inv_ok. subst parent. bools. apply all_zero_app_slices in E0 as [-> ->]; try lia.
    split_and!; try done; lia.
  - destruct (Z.eqb_spec (byte_at b 9) 1); [|done]. inv_all. subst parent.
    apply TransactionId_new_inv in Hok as [-> Ht]; [|apply (slice_u64 b 72); done || lia].
    simpl. split_and!; try done.
    + symmetry. le_slice.
    + intros r [= <-]. apply (slice_digest_ok b 32); done || lia.
Qed.

(** The header rebuilt from the fields of [b] is [b]. *)
Lemma header_rebuild b parent (h := mkHeader
    (mkCoverage (mkSpan (le_val (slice b 16 24)) (le_val (slice b 24 32))) (le_val (slice b 64 72)))
    (slice b 80 112) parent) :
  is_bytes b -> zlen b = 128 -> header_ok h -> decoded_parent b parent ->
  slice b 0 8 = SEGMENT_MAGIC -> byte_at b 8 = 0 -> slice b 10 16 = zeros 6 ->
  slice b 112 128 = zeros 16 -> Header_encode h = b.
Proof.
  intros Hb Hl Hok (P9 & P32 & P72 & _) Hm H8 Z1 Z2.
  pose proof (header_writes128_fit _ Hok) as W. rewrite Header_encode_writes. symmetry.
  apply (slices_agree_eq [8; 9; 10; 16; 24; 32; 64; 72; 80; 112]).
  { rewrite zlen_writes. by rewrite zlen_zeros. }
  assert (slice b 8 9 = [0]) as S8 by (rewrite <- H8; apply (byte_at_slice b 8); lia).
  assert (slice b 9 10 = [byte_at b 9]) as S9 by (apply (byte_at_slice b 9); lia).
  simpl slices_agree. rewrite Hl, !read_back by (done || lia).
  rewrite S8, S9, P9, P32, P72, Hm, Z1, Z2. unfold header_writes128, h.
  destruct parent; cbn -[slice zeros Z.sub le_bytes]; rewrite ?slice_zeros by lia;
    split_and!; try lia; try done; symmetry; le_slice.
Qed.

Lemma segment_header_canonical_lemma b h :
  is_bytes b -> zlen b = 128 -> Header_decode b = Ok h -> header_ok h /\ Header_encode h = b.
Proof.
  intros Hb Hl E. unfold Header_decode, is_container in E. inv_all.
  apply orb_false_iff in Hguard as [Hm H8]. bools.
  apply bytes_eqb_true in Hm. apply Z.eqb_eq in H8.
  apply decode_parent_inv in Hok as Hpar; [|done|done].
  apply all_zero_app_slices in Hguard0 as [Z1 Z2]; try lia.
  apply TransactionId_new_inv in Hok0 as [-> Hf]; [|apply (slice_u64 b 16); done || lia].
  apply TransactionId_new_inv in Hok1 as [-> He]; [|apply (slice_u64 b 24); done || lia].
  apply TransactionSpan_new_ok in Hok2 as [-> Hs]; [|done|done].
  apply TransactionId_new_inv in Hok3 as [-> Hr]; [|apply (slice_u64 b 64); done || lia].
  apply SegmentCoverage_new_ok in Hok4 as [-> Hc]; [|done].
  assert (digest_ok (slice b 80 112)) as Hd by (apply (slice_digest_ok b 80); done || lia).
  apply Header_new_spec in E as [-> Hp]; [|done|done|apply Hpar].
  assert (header_ok (mkHeader (mkCoverage (mkSpan (le_val (slice b 16 24)) (le_val (slice b 24 32)))
    (le_val (slice b 64 72))) (slice b 80 112) a)) as Hok' by (split_and!; done).
  split; [done|]. by apply header_rebuild.
Qed.

(** *** File names *)

Lemma length_hex_be n v : length (hex_be n v) = n.
Proof. revert v; induction n; intros; simpl; [done|]. rewrite length_app, IHn. simpl. lia. Qed.

Lemma radix_digit_hex d : 0 <= d < 16 -> radix_digit (hex_digit d) = Some d.
Proof.
  intros Hd. unfold hex_digit, radix_digit. destruct (Z.ltb_spec d 10).
  - rewrite (proj2 (andb_true_iff _ _)) by lia. f_equal. lia.
  - rewrite (proj2 (andb_false_iff (48 <=? _) _)) by lia.
    rewrite (proj2 (andb_true_iff _ _)) by lia. f_equal. lia.
Qed.

Lemma hex_digit_range d : 0 <= d < 16 -> 48 <= hex_digit d <= 102 /\ hex_digit d <> DASH.
Proof. intros. unfold hex_digit, DASH. destruct (Z.ltb_spec d 10); lia. Qed.

Lemma radix_digits_app max acc u v :
  radix_digits max acc (u ++ v) =
  match radix_digits max acc u with Some a => radix_digits max a v | None => None end.
Proof.
  revert acc; induction u as [|c u IH]; intros acc; simpl; [done|].
  destruct (radix_digit c); [|done]. destruct (_ <=? max); [apply IH|done].
Qed.

Lemma radix_digits_hex_be n max v :
  0 <= v < 16 ^ Z.of_nat n -> v <= max -> radix_digits max 0 (hex_be n v) = Some v.
Proof.
  revert v; induction n as [|n IH]; intros v Hv Hmax.
  { simpl in *. f_equal. lia. }
  rewrite Nat2Z.inj_succ, Z.pow_succ_r in Hv by lia.
  pose proof (Z.div_mod v 16 ltac:(lia)). pose proof (Z.mod_pos_bound v 16 ltac:(lia)).
  simpl. rewrite radix_digits_app, IH; [| |lia].
  - simpl. rewrite radix_digit_hex by lia. rewrite (proj2 (Z.leb_le _ _)) by lia. f_equal. lia.
  - split; [lia|]. apply Z.div_lt_upper_bound; lia.
Qed.

Lemma hex_be_chars n v : 0 <= v -> Forall (fun c => 48 <= c <= 102 /\ c <> DASH) (hex_be n v).
Proof.
  revert v; induction n as [|n IH]; intros v Hv; simpl; [constructor|].
  pose proof (Z.mod_pos_bound v 16 ltac:(lia)).
  apply Forall_app. split; [apply IH; apply Z.div_pos; lia|].
  constructor; [by apply hex_digit_range|constructor].
Qed.

Lemma from_str_radix_plain max v :
  Forall (fun c => 48 <= c <= 102 /\ c <> DASH) v -> v <> [] ->
  from_str_radix max v = radix_digits max 0 v.
Proof.
  intros Hv Hn. destruct v as [|c [|d v]]; [done|..]; inversion Hv; subst; unfold from_str_radix, DASH in *.
  - destruct (Z.eqb_spec c 43), (Z.eqb_spec c 45); try lia. done.
  - destruct (Z.eqb_spec c 43); [lia|done].
Qed.

Lemma from_str_radix_hex_be v :
  txid_ok v -> from_str_radix U64_MAX (hex_be 16 v) = Some v.
Proof.
  unfold txid_ok, U64_MAX. intros Hv.
  rewrite from_str_radix_plain; [|apply hex_be_chars; lia|].
  - apply radix_digits_hex_be; simpl; lia.
  - intros E. apply (f_equal length) in E. by rewrite length_hex_be in E.
Qed.

Lemma hex_chars d : is_bytes d -> Forall (fun c => 48 <= c <= 102 /\ c <> DASH) (hex d).
Proof.
  induction 1 as [|b d Hb Hd IH]; [constructor|].
  change (hex (b :: d)) with (hex_digit (Z.shiftr b 4) :: hex_digit (Z.land b 15) :: hex d).
  destruct (byte_nibbles b Hb) as [-> ->]. unfold is_u8 in Hb.
  pose proof (Z.div_mod b 16 ltac:(lia)). pose proof (Z.mod_pos_bound b 16 ltac:(lia)).
  constructor; [apply hex_digit_range; lia|]. constructor; [apply hex_digit_range; lia|done].
Qed.

Lemma parse_hex_pairs_hex d : is_bytes d -> parse_hex_pairs (hex d) = Ok d.
Proof.
  induction 1 as [|b d Hb Hd IH]; [done|].
  change (hex (b :: d)) with (hex_digit (Z.shiftr b 4) :: hex_digit (Z.land b 15) :: hex d).
  destruct (byte_nibbles b Hb) as [E1 E2]. rewrite E1, E2. unfold is_u8 in Hb.
  pose proof (Z.div_mod b 16 ltac:(lia)). pose proof (Z.mod_pos_bound b 16 ltac:(lia)).
  cbn [parse_hex_pairs]. rewrite from_str_radix_plain; [|repeat constructor; apply hex_digit_range; lia|done].
  cbn [radix_digits]. rewrite !radix_digit_hex by lia.
  rewrite !(proj2 (Z.leb_le _ _)) by lia. cbn [ok_or rbind]. rewrite IH. cbn [rbind].
  do 2 f_equal. lia.
Qed.

Lemma parse_hex_hex d : digest_ok d -> parse_hex (hex d) = Ok d.
Proof.
  intros [Hl Hb]. unfold parse_hex. rewrite parse_hex_pairs_hex by done.
  assert (zlen (hex d) = 64) as -> by (unfold zlen in *; rewrite length_hex; lia).
  assert (forallb (fun c => c <? 128) (hex d) = true) as ->; [|done].
  apply forallb_forall. intros c Hc. apply list_elem_of_In in Hc.
  pose proof (hex_chars d Hb) as Hf. rewrite Forall_forall in Hf. specialize (Hf c Hc). lia.
Qed.

Lemma split_field f rest :
  Forall (fun c => 48 <= c <= 102 /\ c <> DASH) f ->
  split DASH (f ++ DASH :: rest) = f :: split DASH rest.
Proof.
  induction 1 as [|c f Hc Hf IH]; [done|].
  cbn [app split]. rewrite IH. destruct (Z.eqb_spec c DASH); [lia|done].
Qed.

Lemma split_last f : Forall (fun c => 48 <= c <= 102 /\ c <> DASH) f -> split DASH f = [f].
Proof.
  induction 1 as [|c f Hc Hf IH]; [done|]. cbn [split]. rewrite IH.
  destruct (Z.eqb_spec c DASH); [lia|done].
Qed.

Lemma strip_suffix_app v suffix : strip_suffix suffix (v ++ suffix) = Some v.
Proof.
  unfold strip_suffix. rewrite zlen_app. pose proof (zlen_nonneg v). pose proof (zlen_nonneg suffix).
  replace (zlen v + zlen suffix - zlen suffix) with (zlen v) by lia.
  rewrite (proj2 (Z.leb_le _ _)) by lia.
  assert (slice (v ++ suffix) (zlen v) (zlen v + zlen suffix) = suffix) as ->.
  { unfold slice, zlen. rewrite Nat2Z.id, drop_app_length. apply take_ge. lia. }
  rewrite bytes_eqb_refl. simpl. f_equal. unfold slice, zlen.
  rewrite Z.sub_0_r, Nat2Z.id, drop_0. apply take_app_length.
Qed.

Lemma filename_ext h1 h2 id :
  span_begin (represented (hd_coverage h1)) = span_begin (represented (hd_coverage h2)) ->
  span_end (cov_full (hd_coverage h1)) = span_end (cov_full (hd_coverage h2)) ->
  hd_logical_hash h1 = hd_logical_hash h2 -> filename h1 id = filename h2 id.
Proof. intros E1 E2 E3. unfold filename. by rewrite E1, E2, E3. Qed.

(** Every segment's file name parses back to the segment's identity. *)
Theorem segment_filename_roundtrip h id :
  header_ok h -> digest_ok id -> parse_filename (filename h id) = Ok id.
Proof.
  intros (((Hb & He & Hle) & Hc) & Hl & _) Hid. pose proof Hl as [_ Hlb]. pose proof Hid as [_ Hib].
  unfold parse_filename. unfold filename at 1. rewrite !(assoc_L (++)), strip_suffix_app.
  cbn [ok_or rbind]. rewrite <- !(assoc_L (++)). set (r := span_begin (represented (hd_coverage h))).
  assert (txid_ok r) as Hr by (subst r; unfold txid_ok in *; simpl; lia).
  cbn [app]. rewrite !split_field, split_last;
    [|by apply hex_chars|by apply hex_chars|apply hex_be_chars; unfold txid_ok in *; lia..].
  unfold zlen at 1 2. rewrite !length_hex_be. change (Z.of_nat 16 =? 16) with true. cbn [negb orb].
  rewrite !from_str_radix_hex_be by done. cbn [ok_or rbind].
  rewrite !TransactionId_new_fwd by done. cbn [rbind].
  rewrite TransactionSpan_new_fwd by (subst r; simpl; lia). cbn [rbind].
  rewrite !parse_hex_hex by done. cbn [rbind].
  rewrite SegmentCoverage_new_fwd by (subst r; simpl; lia). cbn [rbind span_begin].
  unfold Header_new. cbn [rbind cov_full span_begin represented cov_begin].
  rewrite Z.eqb_refl. cbn [negb rbind].
  rewrite (filename_ext _ h id) by done. by rewrite bytes_eqb_refl.
Qed.

(** *** Containers *)

Section ContainerLemmas.
Context `{Hashes}.

(** Reading a file in pieces and reading it whole accept the same containers. *)
Lemma read_read_bytes_lemma b c : read b = Ok c <-> read_bytes b = Ok c.
Proof.
  unfold read, read_bytes, read_exact_at, HEADER_SIZE, LIMIT.
  destruct (negb _) eqn:Eg; [done|]. apply negb_false_iff in Eg. bools.
  rewrite !(proj2 (Z.ltb_ge _ _)) by lia. cbn [rbind]. change (0 + 128) with 128.
  destruct (Header_decode (slice b 0 128)) as [h|e]; cbn [rbind]; [|done].
  replace (zlen b - 16 + 16) with (zlen b) by lia.
  set (tail := slice b (zlen b - 16) (zlen b)).
  destruct (bytes_eqb (slice tail 8 16) END_MAGIC); cbn [negb orb]; [|done].
  destruct (Z.eqb_spec (le_val (slice tail 0 8)) 128) as [E|]; cbn [negb orb]; [|done].
  rewrite !E, (proj2 (Z.ltb_ge _ _)) by lia. cbn [rbind].
  by replace (128 + (zlen b - 16 - 128)) with (zlen b - 16) by lia.
Qed.

(** A container is the header, the footer and the trailer, and is identified by
    the digest of the first two. *)
Definition container_bytes (h : Header) (footer : bytes) : bytes :=
  Header_encode h ++ footer ++ le_bytes 8 HEADER_SIZE ++ END_MAGIC.

Lemma read_bytes_sound_lemma b c :
  is_bytes b -> read_bytes b = Ok c ->
  header_ok (ct_header c) /\ b = container_bytes (ct_header c) (ct_footer c) /\
  ct_id c = blake3 (Header_encode (ct_header c) ++ ct_footer c).
Proof.
  intros Hb E. unfold read_bytes, HEADER_SIZE, LIMIT in E. inv_ok. bools.
  apply segment_header_canonical_lemma in Hok as [Hh Henc];
    [|auto with bytedb|rewrite zlen_slice; lia].
  subst c. simpl. rewrite Henc. split; [done|]. split; [|done].
  match goal with H1 : bytes_eqb _ _ = true |- _ => apply bytes_eqb_true in H1; rename H1 into Hm end.
  rewrite !slice_slice in * by lia.
  unfold container_bytes, HEADER_SIZE. rewrite Henc.
  replace (zlen b - 16 + 8) with (zlen b - 8) in Hm by lia.
  replace (zlen b - 16 + 16) with (zlen b) in Hm by lia.
  assert (le_bytes 8 128 = slice b (zlen b - 16) (zlen b - 8)) as ->.
  { apply Z.eqb_eq in Hguard0. rewrite <- Hguard0.
    replace (zlen b - 16 + 0) with (zlen b - 16) by lia.
    replace (zlen b - 16 + 8) with (zlen b - 8) by lia. le_slice. }
  rewrite <- Hm, <- !slice_app_split by lia. symmetry. by apply slice_all.
Qed.

Lemma read_bytes_container_lemma h footer :
  header_ok h -> zlen footer <= LIMIT - 144 ->
  read_bytes (container_bytes h footer) =
  Ok (mkContainer h footer (blake3 (Header_encode h ++ footer))).
Proof.
  intros Hh Hf. unfold read_bytes. set (b := container_bytes h footer).
  pose proof (zlen_Header_encode h) as Hhl. pose proof (zlen_nonneg footer).
  assert (zlen b = 144 + zlen footer) as Hl.
  { subst b. unfold container_bytes. rewrite !zlen_app, zlen_le_bytes, Hhl.
    change (zlen END_MAGIC) with 8. lia. }
  unfold LIMIT, HEADER_SIZE in *. rewrite (proj2 (andb_true_iff _ _)) by lia. cbn [negb].
  assert (forall p m s, b = p ++ m ++ s -> slice b (zlen p) (zlen p + zlen m) = m) as Hcut.
  { intros p m s ->. by apply slice_mid. }
  assert (slice b 0 128 = Header_encode h) as ->.
  { rewrite <- Hhl. apply (Hcut [] (Header_encode h) _ eq_refl). }
  rewrite segment_header_roundtrip_lemma by done. cbn [rbind]. rewrite !slice_slice by lia.
  assert (slice b 128 (zlen b - 16) = footer) as Hfoot.
  { pose proof (Hcut (Header_encode h) footer _ eq_refl) as E. rewrite Hhl in E.
    by replace (zlen b - 16) with (128 + zlen footer) by lia. }
  assert (slice b (zlen b - 16 + 0) (zlen b - 16 + 8) = le_bytes 8 128) as ->.
  { pose proof (Hcut (Header_encode h ++ footer) (le_bytes 8 128) END_MAGIC) as E.
    rewrite zlen_app, Hhl, zlen_le_bytes in E.
    replace (zlen b - 16 + 0) with (128 + zlen footer) by lia.
    replace (zlen b - 16 + 8) with (128 + zlen footer + 8) by lia.
    apply E. subst b. unfold container_bytes. by rewrite <- !(assoc_L (++)). }
  assert (slice b (zlen b - 16 + 8) (zlen b - 16 + 16) = END_MAGIC) as ->.
  { pose proof (Hcut (Header_encode h ++ footer ++ le_bytes 8 128) END_MAGIC []) as E.
    rewrite !zlen_app, Hhl, zlen_le_bytes in E.
    replace (zlen b - 16 + 8) with (128 + (zlen footer + Z.of_nat 8)) by lia.
    replace (zlen b - 16 + 16) with (128 + (zlen footer + Z.of_nat 8) + 8) by lia.
    apply E. subst b. unfold container_bytes. by rewrite app_nil_r, <- !(assoc_L (++)). }
  rewrite bytes_eqb_refl, le_val_8 by (unfold is_u64; lia). simpl. by rewrite Hfoot.
Qed.

(** Segment containers: a file is accepted exactly when it is a valid header,
    a footer and the trailer, laid out end to end within the size limit; the
    container read is those two parts, identified by their digest; and reading
    the file in pieces accepts the same containers as reading it whole. *)
Theorem container_canonical b c :
  is_bytes b ->
  (read b = Ok c <-> read_bytes b = Ok c) /\
  (read_bytes b = Ok c <->
   header_ok (ct_header c) /\ b = container_bytes (ct_header c) (ct_footer c) /\
   zlen b <= LIMIT /\ ct_id c = blake3 (Header_encode (ct_header c) ++ ct_footer c)).
Proof.
  intros Hb. split; [apply read_read_bytes_lemma|]. split.
  - intros E. destruct (read_bytes_sound_lemma b c Hb E) as (Hh & Hbytes & Hid).
    split_and!; try done. unfold read_bytes in E. inv_ok. bools. lia.
  - intros (Hh & -> & Hl & Hid). rewrite read_bytes_container_lemma; [|done|].
    + rewrite <- Hid. by destruct c.
    + revert Hl. unfold container_bytes. rewrite !zlen_app, zlen_Header_encode, zlen_le_bytes.
      change (zlen END_MAGIC) with 8. lia.
Qed.
End ContainerLemmas.

(** *** Endpoint discovery *)

Lemma candidate_leb_total a b : candidate_leb a b = true \/ candidate_leb b a = true.
Proof.
  destruct a as [[x p] i], b as [[y q] j]; simpl.
  destruct (Z.ltb_spec x y), (Z.ltb_spec y x); try lia; auto.
  destruct p, q; simpl; auto; apply digest_leb_total.
Qed.

Lemma digest_leb_trans a b c :
  digest_leb a b = true -> digest_leb b c = true -> digest_leb a c = true.
Proof.
  rewrite !digest_leb_ltb, !negb_true_iff. intros H1 H2. apply not_true_iff_false. intros H3.
  apply digest_ltb_lt in H3.
  destruct (digest_compare a b) eqn:E.
  - apply digest_compare_eq in E. subst. apply digest_ltb_lt in H3. congruence.
  - pose proof (digest_compare_lt_trans _ _ _ H3 E) as Hlt. apply digest_ltb_lt in Hlt. congruence.
  - rewrite digest_compare_antisym in E. destruct (digest_compare b a) eqn:E2; try done.
    apply digest_ltb_lt in E2. congruence.
Qed.

Lemma candidate_leb_trans a b c :
  candidate_leb a b = true -> candidate_leb b c = true -> candidate_leb a c = true.
Proof.
  destruct a as [[x p] i], b as [[y q] j], c as [[z r] k]; simpl.
  destruct (Z.ltb_spec x y), (Z.ltb_spec y x), (Z.ltb_spec y z), (Z.ltb_spec z y),
    (Z.ltb_spec x z), (Z.ltb_spec z x); try lia; try done.
  destruct p, q, r; simpl; try done; apply digest_leb_trans.
Qed.

(** Rows that name the endpoint and were not visited. *)
Definition names_endpoint (endpoint : ParentRef) (seen : list Digest) (row : bytes * bytes)
    (c : candidate) : Prop :=
  endpoint_candidate endpoint seen row = Ok (Some c).

(** Endpoint discovery picks, among the catalog rows that name the endpoint
    and were not visited, the least one (widest coverage first, then a checkpoint
    before a delta, then the smallest identity), and finds none only when no row
    names it. *)
Theorem find_endpoint_least rows endpoint seen found :
  find_endpoint rows endpoint seen = Ok found ->
  match found with
  | Some id => exists row b p, row ∈ rows /\ names_endpoint endpoint seen row (b, p, id) /\
      (forall row' c, row' ∈ rows -> names_endpoint endpoint seen row' c ->
         candidate_leb (b, p, id) c = true)
  | None => forall row c, row ∈ rows -> ~ names_endpoint endpoint seen row c
  end.
Proof.
  unfold find_endpoint. intros E. inv_ok. apply mmap_Ok in Hok. rename a into opts.
  assert (forall row c, row ∈ rows -> names_endpoint endpoint seen row c -> c ∈ omap id opts) as Hin.
  { intros row c Hr Hc. apply list_elem_of_omap. exists (Some c). split; [|done].
    apply list_elem_of_lookup in Hr as [i Hi].
    destruct (Forall2_lookup_l _ _ _ _ _ Hok Hi) as (o & Ho & Eo).
    rewrite Hc in Eo. inv_ok. subst o. by eapply list_elem_of_lookup_2. }
  subst found. destruct (head (isort candidate_leb (omap id opts))) as [[[b p] i]|] eqn:Eh; simpl.
  - apply isort_head in Eh as [Hm Hle]; [|apply candidate_leb_total|apply candidate_leb_trans].
    apply list_elem_of_omap in Hm as (o & Ho & Eo). simpl in Eo. subst o.
    apply list_elem_of_lookup in Ho as [k Hk].
    destruct (Forall2_lookup_r _ _ _ _ _ Hok Hk) as (row & Hr & Er).
    exists row, b, p. split; [by eapply list_elem_of_lookup_2|]. split; [done|].
    intros row' c Hr' Hc. eapply Hle, Hin; done.
  - apply isort_head_None in Eh. intros row c Hr Hc. specialize (Hin row c Hr Hc).
    rewrite Eh in Hin. by apply elem_of_nil in Hin.
Qed.

(** The 128-byte segment header is a canonical encoding: it decodes exactly
    when its transaction span, represented suffix and parent are consistent. *)
Theorem segment_header_canonical b h :
  is_bytes b -> zlen b = HEADER_SIZE ->
  Header_decode b = Ok h <-> header_ok h /\ Header_encode h = b.
Proof.
  intros Hb Hl. split; [by apply segment_header_canonical_lemma|].
  intros [Hh <-]. by apply segment_header_roundtrip_lemma.
Qed.

(** ** Witnesses *)

Definition demo_segment_header : Header :=
  mkHeader (mkCoverage (mkSpan 3 9) 6) (demo_digest 4) (Previous (mkParentRef (demo_digest 5) 5)).

Lemma demo_segment_header_ok : header_ok demo_segment_header.
Proof.
  unfold header_ok, demo_segment_header, coverage_ok, span_ok, txid_ok, parent_ok, U64_MAX; cbn.
  split_and!; try lia; apply demo_digest_ok; unfold is_u8; lia.
Qed.

Lemma segment_header_canonical_witness :
  Header_decode (Header_encode demo_segment_header) = Ok demo_segment_header.
Proof.
  apply (segment_header_canonical (Header_encode demo_segment_header) demo_segment_header).
  - apply bytes_check_ok. vm_compute. reflexivity.
  - vm_compute. reflexivity.
  - split; [apply demo_segment_header_ok|reflexivity].
Defined.

Lemma segment_filename_roundtrip_witness :
  parse_filename (filename demo_segment_header (demo_digest 7)) = Ok (demo_digest 7).
Proof.
  apply (segment_filename_roundtrip demo_segment_header (demo_digest 7)).
  - apply demo_segment_header_ok.
  - apply demo_digest_ok. unfold is_u8; lia.
Defined.

Lemma container_canonical_witness :
  let b := container_bytes demo_segment_header [1; 2; 3] in
  let c := mkContainer demo_segment_header [1; 2; 3]
             (@blake3 demo_hashes (Header_encode demo_segment_header ++ [1; 2; 3])) in
  @read demo_hashes b = Ok c.
Proof.
  intros b c. destruct (@container_canonical demo_hashes b c) as [E1 E2].
  - apply bytes_check_ok. vm_compute. reflexivity.
  - apply E1, E2. split; [apply demo_segment_header_ok|].
    split; [reflexivity|]. split; [vm_compute; discriminate|reflexivity].
Defined.

(** Two rows name the endpoint; the wider one wins. *)
Lemma find_endpoint_least_witness :
  let wide := mkHeader (mkCoverage (mkSpan 3 9) 3) (demo_digest 4) Checkpoint in
  let rows := [(demo_digest 8, Header_encode demo_segment_header); (demo_digest 9, Header_encode wide)] in
  let endpoint := mkParentRef (demo_digest 4) 9 in
  find_endpoint rows endpoint [] = Ok (Some (demo_digest 9)) /\
  exists row b p, row ∈ rows /\ names_endpoint endpoint [] row (b, p, demo_digest 9).
Proof.
  intros wide rows endpoint.
  assert (find_endpoint rows endpoint [] = Ok (Some (demo_digest 9))) as E
    by (vm_compute; reflexivity).
  split; [exact E|].
  destruct (find_endpoint_least rows endpoint [] (Some (demo_digest 9)) E)
    as (row & b & p & Hr & Hn & _).
  exists row, b, p. split; [exact Hr|exact Hn].
Defined.
