(* ===== verification/Frame.v ===== *)
(** Frames (src/src/storage/frame.rs): page versions and their checksums, the
    self-identifying frame metadata record, verification of a payload against it
    and the encoder that builds both. zstd is a parameter ([ZstdLib]); a prepared
    compressor or decompressor is its dictionary and level. *)

From S2P Require Import Prelude Domain Format Wire.
From stdpp Require Import base strings gmap list sorting.
From Stdlib Require Import ZArith Lia.
Open Scope Z_scope.

Record PageVersion : Set := mkPageVersion {
  pv_page : Z;
  pv_txid : Z;
  pv_checksum : Digest;
}.

Record FrameMetadata : Set := mkFrameMetadata {
  fm_id : Digest;
  fm_shape : FrameShape;
  fm_encoding : PayloadEncoding;
  fm_payload_bytes : Z;
  fm_payload_hash : Digest;
  fm_pages : list PageVersion;
}.

(** Bytes admitted to a cache only after the payload and every slot verify. *)
Record VerifiedFrame : Set := mkVerified { vf_id : Digest; vf_bytes : bytes }.

(** Stored bytes authenticated against their metadata. *)
Record EncodedFrame : Set := mkEncoded { ef_metadata : FrameMetadata; ef_payload : bytes }.

#[export] Instance PageVersion_eq_dec : EqDecision PageVersion.
Proof. solve_decision. Defined.
#[export] Instance FrameMetadata_eq_dec : EqDecision FrameMetadata.
Proof. solve_decision. Defined.

Definition FRAME_RECORD_MAGIC : bytes := ascii "ZFRAME01".

Definition PageVersion_encode (p : PageVersion) : bytes :=
  u32_bytes (pv_page p) ++ u64_bytes (pv_txid p) ++ pv_checksum p.

Definition PageVersion_decode : dm Decoder PageVersion :=
  do n <- wire_u32 ;;
  do page <- dlift (value (PageNumber_new n)) ;;
  do t <- wire_u64 ;;
  do txid <- dlift (value (TransactionId_new t)) ;;
  do checksum <- wire_array 32 ;;
  dret (mkPageVersion page txid checksum).

Definition is_shared (e : PayloadEncoding) : bool :=
  match e with Zstandard (Shared _) => true | _ => false end.

Definition record_header (m : FrameMetadata) : result StoreError FrameHeader :=
  let '(codec, dictionary_index) :=
    match fm_encoding m with
    | Raw => (CodecRaw, U16_MAX)
    | Zstandard NoDictionary => (CodecZstd, U16_MAX)
    | Zstandard (Shared _) => (CodecZstd, 0)
    end in
  let* first := range (head (fm_pages m)) in
  fail_if U32_MAX <? fm_payload_bytes m with Range ;;
  fail_if U32_MAX <? decoded (fm_shape m) with Range ;;
  Ok (mkFrameHeader (pv_page first) codec dictionary_index (fm_payload_bytes m)
        (decoded (fm_shape m))).

Definition encoded_len (m : FrameMetadata) : Z :=
  57 + zlen (fm_pages m) * 44 + (if is_shared (fm_encoding m) then 32 else 0).

Definition encode_encoding (e : PayloadEncoding) : bytes :=
  match e with
  | Raw => [0]
  | Zstandard NoDictionary => [1]
  | Zstandard (Shared id) => [2] ++ id
  end.

Definition FrameMetadata_encode (m : FrameMetadata) : bytes :=
  FRAME_RECORD_MAGIC ++
  u32_bytes (fs_page_size (fm_shape m)) ++
  u32_bytes (fs_pages (fm_shape m)) ++
  encode_encoding (fm_encoding m) ++
  u64_bytes (fm_payload_bytes m) ++
  fm_payload_hash m ++
  concat (map PageVersion_encode (fm_pages m)).

Definition decode_encoding : dm Decoder PayloadEncoding :=
  do tag <- wire_u8 ;;
  if tag =? 0 then dret Raw
  else if tag =? 1 then dret (Zstandard NoDictionary)
  else if tag =? 2 then do id <- wire_array 32 ;; dret (Zstandard (Shared id))
  else dlift (Err (Corrupt 0)).

(** The loop over the declared page count; a repeated page is rejected. *)
Fixpoint decode_pages (n : nat) (distinct : gset Z) : dm Decoder (list PageVersion) :=
  match n with
  | O => dret []
  | S n' =>
      do page <- PageVersion_decode ;;
      do _ <- dfail_if (bool_decide (pv_page page ∈ distinct)) (Corrupt 0) ;;
      do rest <- decode_pages n' ({[pv_page page]} ∪ distinct) ;;
      dret (page :: rest)
  end.

Definition decode_body (expected : Digest) : dm Decoder FrameMetadata :=
  do magic <- wire_take 8 ;;
  do _ <- dfail_if (negb (bytes_eqb magic FRAME_RECORD_MAGIC)) (Corrupt 0) ;;
  do s <- wire_u32 ;;
  do size <- dlift (value (PageSize_new s)) ;;
  do n <- wire_u32 ;;
  do shape <- dlift (value (FrameShape_new size n)) ;;
  do encoding <- decode_encoding ;;
  do payload_bytes <- wire_u64 ;;
  do _ <- dfail_if ((payload_bytes =? 0)
                    || (decoded shape <? payload_bytes)
                    || (bool_decide (encoding = Raw) && negb (payload_bytes =? decoded shape)))
            (Corrupt 0) ;;
  do payload_hash <- wire_array 32 ;;
  do pages <- decode_pages (Z.to_nat (fs_pages shape)) ∅ ;;
  dret (mkFrameMetadata expected shape encoding payload_bytes payload_hash pages).

(** [chunks_exact] *)
Definition chunks_exact (size : Z) (raw : bytes) : list bytes :=
  map (fun i => slice raw (Z.of_nat i * size) (Z.of_nat i * size + size))
      (seq 0 (Z.to_nat (zlen raw / size))).

(** The dictionary context of an encoder: none, or an identity and its bytes. *)
Record FrameEncoder : Set := mkEncoder {
  fe_level : Z;
  fe_dictionary : CompressionDictionary;
  fe_bytes : bytes;
}.

Definition FrameEncoder_new (level : Z) (dictionary : option (Digest * bytes)) : FrameEncoder :=
  match dictionary with
  | None => mkEncoder level NoDictionary []
  | Some (id, b) => mkEncoder level (Shared id) b
  end.

Section WithLibraries.
Context `{Hashes, ZstdLib}.

Definition checksum (page txid : Z) (b : bytes) : Digest :=
  blake3 (ascii "zsqlite/page/v1" ++ le_bytes 4 page ++ le_bytes 8 txid ++ b).

Definition PageVersion_verified (page txid : Z) (b : bytes) : PageVersion :=
  mkPageVersion page txid (checksum page txid b).

Definition FrameMetadata_decode (b : bytes) (expected : Digest) : result StoreError FrameMetadata :=
  fail_if negb (bytes_eqb (blake3 b) expected) with Corrupt 0 ;;
  let* p := decode_body expected (Decoder_new b) in
  let* _ := Decoder_finish (snd p) in
  Ok (fst p).

Definition authenticate_payload (m : FrameMetadata) (payload : bytes) : result StoreError unit :=
  fail_if negb (zlen payload =? fm_payload_bytes m)
          || negb (bytes_eqb (blake3 payload) (fm_payload_hash m)) with Corrupt 0 ;;
  Ok tt.

(** [DecodingDictionary::decode] is decompression with the dictionary's bytes. *)
Definition decode_payload (m : FrameMetadata) (payload : bytes) (dictionaries : gmap Digest bytes)
    : result StoreError bytes :=
  match fm_encoding m with
  | Raw => Ok payload
  | Zstandard NoDictionary => zstd (zdecompress [] payload (decoded (fm_shape m)))
  | Zstandard (Shared id) =>
      let* d := ok_or (dictionaries !! id) (Corrupt 0) in
      zstd (zdecompress d payload (decoded (fm_shape m)))
  end.

Definition verify_slot (u : unit) (slot : PageVersion * bytes) : result StoreError unit :=
  let '(version, page) := slot in
  fail_if negb (bytes_eqb (checksum (pv_page version) (pv_txid version) page) (pv_checksum version))
    with PageChecksumError (pv_page version) ;;
  Ok u.

Definition verify_payload (m : FrameMetadata) (payload : bytes) (dictionaries : gmap Digest bytes)
    : result StoreError VerifiedFrame :=
  let* _ := authenticate_payload m payload in
  let* raw := decode_payload m payload dictionaries in
  fail_if negb (zlen raw =? decoded (fm_shape m)) with Corrupt 0 ;;
  let* _ := mfold verify_slot tt
              (zip (fm_pages m) (chunks_exact (fs_page_size (fm_shape m)) raw)) in
  Ok (mkVerified (fm_id m) raw).

Definition EncodedFrame_authenticated (m : FrameMetadata) (payload : bytes)
    : result StoreError EncodedFrame :=
  let* _ := authenticate_payload m payload in
  Ok (mkEncoded m payload).

Definition EncodedFrame_verified (m : FrameMetadata) (payload : bytes)
    (dictionaries : gmap Digest bytes) : result StoreError (EncodedFrame * VerifiedFrame) :=
  let* d := verify_payload m payload dictionaries in
  Ok (mkEncoded m payload, d).

(** Four windows including both ends of the frame. *)
Definition probe_sample (raw : bytes) : bytes :=
  let window := Z.min (zlen raw / 16) 1024 in
  concat (map (fun index => let start := (zlen raw - window) * index / 3 in
                            slice raw start (start + window)) [0; 1; 2; 3]).

Definition worth_compressing (e : FrameEncoder) (raw : bytes) : result StoreError bool :=
  if zlen raw <? 4096 then Ok true
  else
    let sample := probe_sample raw in
    let* compressed := zstd (zcompress (fe_level e) (fe_bytes e) sample) in
    Ok (zlen compressed <? zlen sample).

(** The loop of [build]: checks every page and concatenates the bytes. *)
Definition build_page (size : Z) (acc : list PageVersion * bytes) (p : PageVersion * bytes)
    : result StoreError (list PageVersion * bytes) :=
  let '(version, b) := p in
  fail_if negb (zlen b =? size)
          || negb (bytes_eqb (checksum (pv_page version) (pv_txid version) b) (pv_checksum version))
    with PageChecksumError (pv_page version) ;;
  Ok (fst acc ++ [version], snd acc ++ b).

(** The payload is the compressed frame only when that is smaller, counting the
    identity of a shared dictionary. *)
Definition choose_encoding (e : FrameEncoder) (raw : bytes)
    : result StoreError (PayloadEncoding * bytes) :=
  let* worth := worth_compressing e raw in
  if worth then
    let* compressed := zstd (zcompress (fe_level e) (fe_bytes e) raw) in
    let overhead := match fe_dictionary e with Shared _ => 32 | NoDictionary => 0 end in
    let cost := saturating_add (zlen compressed) overhead in
    Ok (if cost <? zlen raw then (Zstandard (fe_dictionary e), compressed) else (Raw, raw))
  else Ok (Raw, raw).

Definition build (e : FrameEncoder) (size : Z) (pages : list (PageVersion * bytes))
    : result StoreError EncodedFrame :=
  fail_if U32_MAX <? zlen pages with Range ;;
  let* shape := value (FrameShape_new size (zlen pages)) in
  let* acc := mfold (build_page size) ([], []) pages in
  let '(versions, raw) := acc in
  let* choice := choose_encoding e raw in
  let '(encoding, payload) := choice in
  let m := mkFrameMetadata (zeros 32) shape encoding (zlen payload) (blake3 payload) versions in
  let m := mkFrameMetadata (blake3 (FrameMetadata_encode m)) shape encoding (zlen payload)
             (blake3 payload) versions in
  Ok (mkEncoded m payload).

End WithLibraries.

(** ** What a decoded metadata record satisfies *)

Definition page_version_ok (p : PageVersion) : Prop :=
  page_number_ok (pv_page p) /\ txid_ok (pv_txid p) /\ digest_ok (pv_checksum p).

Definition encoding_ok (e : PayloadEncoding) : Prop :=
  match e with Zstandard (Shared id) => digest_ok id | _ => True end.

Definition metadata_ok `{Hashes} (m : FrameMetadata) : Prop :=
  fm_id m = blake3 (FrameMetadata_encode m) /\
  shape_ok (fm_shape m) /\ encoding_ok (fm_encoding m) /\
  1 <= fm_payload_bytes m <= decoded (fm_shape m) /\
  (fm_encoding m = Raw -> fm_payload_bytes m = decoded (fm_shape m)) /\
  digest_ok (fm_payload_hash m) /\
  zlen (fm_pages m) = fs_pages (fm_shape m) /\
  Forall page_version_ok (fm_pages m) /\ NoDup (map pv_page (fm_pages m)).

(** ** Lemmas *)

Lemma shape_ok_bounds s : shape_ok s ->
  512 <= fs_page_size s <= 65536 /\ 1 <= fs_pages s <= 16384 /\ 512 <= decoded s <= MAX_FRAME_BYTES.
Proof.
  intros (Hp%page_size_ok_bounds & Hn & Hd). unfold decoded, MAX_FRAME_BYTES in *. nia.
Qed.

(** *** Encoding and decoding of the metadata record *)

Lemma reads_PageVersion p : page_version_ok p -> reads PageVersion_decode (PageVersion_encode p) p.
Proof.
  intros (Hp & Ht & Hc). unfold PageVersion_decode, PageVersion_encode.
  unfold page_number_ok, U32_MAX in Hp.
  eapply reads_bind; [apply reads_u32; unfold is_u32; lia|].
  eapply reads_lift; [by apply PageNumber_new_fwd|].
  eapply reads_bind; [apply reads_u64; unfold txid_ok, U64_MAX, is_u64 in *; lia|].
  eapply reads_lift; [by apply TransactionId_new_fwd|].
  eapply reads_bind_end; [by apply reads_digest|]. destruct p. apply reads_ret.
Qed.

Lemma parses_PageVersion :
  parses PageVersion_decode (fun p x => page_version_ok p /\ x = PageVersion_encode p).
Proof.
  unfold PageVersion_decode.
  eapply parses_step; [apply parses_u32|]. intros n x (Hn & ->).
  apply parses_lift_step. intros page [-> Hp]%value_Ok%PageNumber_new_spec;
    [|unfold is_u32, U32_MAX in *; lia].
  eapply parses_step; [apply parses_u64|]. intros t x (Ht & ->).
  apply parses_lift_step. intros txid [-> Htx]%value_Ok%TransactionId_new_spec;
    [|unfold is_u64, U64_MAX in *; lia].
  eapply parses_step; [apply parses_digest|]. intros c x (Hc & ->).
  apply parses_end. split; [done|]. unfold PageVersion_encode. simpl. by rewrite app_nil_r.
Qed.

Lemma reads_encoding e : encoding_ok e -> reads decode_encoding (encode_encoding e) e.
Proof.
  intros He. unfold decode_encoding. destruct e as [|[|id]]; simpl in He; cbn [encode_encoding].
  - eapply reads_bind_end; [apply reads_u8; unfold is_u8; lia|]. apply reads_ret.
  - eapply reads_bind_end; [apply reads_u8; unfold is_u8; lia|]. apply reads_ret.
  - eapply reads_bind; [apply reads_u8; unfold is_u8; lia|]. cbn [Z.eqb Pos.eqb].
    eapply reads_bind_end; [by apply reads_digest|]. apply reads_ret.
Qed.

Lemma parses_encoding : parses decode_encoding (fun e x => encoding_ok e /\ x = encode_encoding e).
Proof.
  unfold decode_encoding. eapply parses_step; [apply parses_u8|]. intros tag x (Ht & ->).
  destruct (Z.eqb_spec tag 0) as [->|]; [by apply parses_end|].
  destruct (Z.eqb_spec tag 1) as [->|]; [by apply parses_end|].
  destruct (Z.eqb_spec tag 2) as [->|].
  - eapply parses_step; [apply parses_digest|]. intros id x (Hid & ->).
    apply parses_end. simpl. by rewrite app_nil_r.
  - by intros s a s' _ ?.
Qed.

Lemma reads_pages l distinct :
  Forall page_version_ok l -> NoDup (map pv_page l) ->
  (forall p, p ∈ l -> pv_page p ∉ distinct) ->
  reads (decode_pages (length l) distinct) (concat (map PageVersion_encode l)) l.
Proof.
  revert distinct; induction l as [|p l IH]; intros distinct Hok Hnd Hd; [apply reads_ret|].
  inversion Hok; subst. cbn [map] in Hnd. apply NoDup_cons in Hnd as [Hp Hnd].
  cbn [length decode_pages map concat].
  eapply reads_bind; [by apply reads_PageVersion|].
  apply reads_guard; [apply bool_decide_eq_false, Hd; by left|].
  eapply reads_bind_end; [apply IH|apply reads_ret]; [done|done|].
  intros q Hq [Hqp%elem_of_singleton|Hqd]%elem_of_union.
  - apply Hp. rewrite <- Hqp. by apply list_elem_of_fmap_2.
  - by apply (Hd q); [right|].
Qed.

Lemma parses_pages n distinct :
  parses (decode_pages n distinct) (fun l x => length l = n /\ Forall page_version_ok l /\
    NoDup (map pv_page l) /\ (forall p, p ∈ l -> pv_page p ∉ distinct) /\
    x = concat (map PageVersion_encode l)).
Proof.
  revert distinct; induction n as [|n IH]; intros distinct.
  - apply parses_end. split_and!; try done; simpl; try constructor.
    by intros ? ?%elem_of_nil.
  - cbn [decode_pages]. eapply parses_step; [apply parses_PageVersion|]. intros p x (Hp & ->).
    apply parses_guard_step. intros Hd%bool_decide_eq_false.
    eapply parses_step; [apply IH|]. intros l x (Hl & Hok & Hnd & Hdl & ->).
    apply parses_end. rewrite app_nil_r. split_and!; try done.
    + simpl. lia.
    + by constructor.
    + cbn [map]. apply NoDup_cons. split; [|done]. intros (q & Hq & Hin)%list_elem_of_fmap.
      apply (Hdl q Hin). rewrite <- Hq. set_solver.
    + intros q [->|Hq]%elem_of_cons; [done|]. specialize (Hdl q Hq). set_solver.
Qed.

Section FrameLemmas.
Context {H : Hashes} {HOK : HashesOk H}.

Lemma reads_metadata m : metadata_ok m -> reads (decode_body (fm_id m)) (FrameMetadata_encode m) m.
Proof.
  intros (_ & Hs & He & Hpb & Hraw & Hh & Hn & Hpv & Hnd).
  unfold decode_body, FrameMetadata_encode. pose proof (shape_ok_bounds _ Hs) as (B1 & B2 & B3).
  unfold MAX_FRAME_BYTES in *.
  eapply reads_bind; [by apply reads_exact; [|apply is_bytes_ascii]|].
  apply reads_guard; [by rewrite bytes_eqb_refl|].
  eapply reads_bind; [apply reads_u32; unfold is_u32; lia|].
  eapply reads_lift; [apply PageSize_new_fwd, Hs|].
  eapply reads_bind; [apply reads_u32; unfold is_u32; lia|].
  eapply reads_lift; [by apply FrameShape_new_fwd|].
  eapply reads_bind; [by apply reads_encoding|].
  eapply reads_bind; [apply reads_u64; unfold is_u64; lia|].
  apply reads_guard.
  { rewrite !orb_false_iff. split_and!; [lia|lia|].
    case_bool_decide; simpl; [|done]. rewrite Hraw by done. by rewrite Z.eqb_refl. }
  eapply reads_bind; [by apply reads_digest|].
  apply (reads_bind_end _ _ _ (fm_pages m)); [|destruct m; apply reads_ret].
  replace (Z.to_nat (fs_pages (fm_shape m))) with (length (fm_pages m)) by (unfold zlen in Hn; lia).
  apply reads_pages; [done|done|]. intros p _. set_solver.
Qed.

Lemma parses_metadata id :
  parses (decode_body id) (fun m x => fm_id m = id /\ x = FrameMetadata_encode m /\
    shape_ok (fm_shape m) /\ encoding_ok (fm_encoding m) /\
    1 <= fm_payload_bytes m <= decoded (fm_shape m) /\
    (fm_encoding m = Raw -> fm_payload_bytes m = decoded (fm_shape m)) /\
    digest_ok (fm_payload_hash m) /\
    zlen (fm_pages m) = fs_pages (fm_shape m) /\
    Forall page_version_ok (fm_pages m) /\ NoDup (map pv_page (fm_pages m))).
Proof.
  unfold decode_body.
  eapply parses_step; [apply parses_take; lia|]. intros magic x (-> & _ & _).
  apply parses_guard_step. intros Hm%negb_false_iff%bytes_eqb_true. subst x.
  eapply parses_step; [apply parses_u32|]. intros s x (Hs & ->).
  apply parses_lift_step. intros size [-> Hps]%value_Ok%PageSize_new_spec.
  eapply parses_step; [apply parses_u32|]. intros n x (Hn & ->).
  apply parses_lift_step.
  intros shape [-> Hsh]%value_Ok%FrameShape_new_spec; [|unfold is_u32 in Hn; lia|done].
  eapply parses_step; [apply parses_encoding|]. intros e x (He & ->).
  eapply parses_step; [apply parses_u64|]. intros pb x (Hpb & ->).
  apply parses_guard_step. rewrite !orb_false_iff. intros [[G1 G2] G3].
  eapply parses_step; [apply parses_digest|]. intros h x (Hh & ->).
  eapply parses_step; [apply parses_pages|]. intros l x (Hl & Hok & Hnd & _ & ->).
  apply parses_end. cbn [fm_id fm_shape fm_encoding fm_payload_bytes fm_payload_hash fm_pages
    fs_pages fs_page_size] in *. unfold is_u32, is_u64 in *.
  unfold FrameMetadata_encode. cbn [fm_id fm_shape fm_encoding fm_payload_bytes fm_payload_hash
    fm_pages fs_pages fs_page_size].
  split_and!; try done; try lia.
  - by rewrite app_nil_r.
  - intros ->. rewrite bool_decide_true in G3 by done. simpl in G3. bools. lia.
  - unfold zlen. lia.
Qed.

Lemma zlen_encode m :
  encoding_ok (fm_encoding m) -> digest_ok (fm_payload_hash m) ->
  Forall page_version_ok (fm_pages m) -> zlen (FrameMetadata_encode m) = encoded_len m.
Proof.
  intros He [Hh _] Hp. unfold FrameMetadata_encode, encoded_len, u32_bytes, u64_bytes.
  rewrite !zlen_app, !zlen_le_bytes, Hh. change (zlen FRAME_RECORD_MAGIC) with 8.
  assert (zlen (concat (map PageVersion_encode (fm_pages m))) = zlen (fm_pages m) * 44) as ->.
  { induction Hp as [|p l (_ & _ & Hc & _) Hl IH]; [done|]. cbn [map concat].
    rewrite zlen_app, IH, zlen_cons. unfold PageVersion_encode, u32_bytes, u64_bytes.
    rewrite !zlen_app, !zlen_le_bytes. lia. }
  assert (zlen (encode_encoding (fm_encoding m)) = 1 + (if is_shared (fm_encoding m) then 32 else 0)) as ->.
  { destruct (fm_encoding m) as [|[|id]]; try done. simpl in *. rewrite zlen_cons. destruct He. lia. }
  lia.
Qed.

Lemma is_bytes_encode m :
  encoding_ok (fm_encoding m) -> digest_ok (fm_payload_hash m) ->
  Forall page_version_ok (fm_pages m) -> is_bytes (FrameMetadata_encode m).
Proof.
  intros He [_ Hh] Hp. unfold FrameMetadata_encode, u32_bytes, u64_bytes. rewrite !Forall_app.
  split_and!; auto with bytedb; [apply is_bytes_ascii| |].
  - destruct (fm_encoding m) as [|[|id]]; simpl in *; repeat constructor; unfold is_u8; try lia. apply He.
  - induction Hp as [|p l (_ & _ & _ & Hc) Hl IH]; [constructor|]. cbn [map concat].
    apply Forall_app. split; [|done]. unfold PageVersion_encode, u32_bytes, u64_bytes.
    rewrite !Forall_app. auto with bytedb.
Qed.

Lemma metadata_small m : metadata_ok m -> zlen (FrameMetadata_encode m) <= 1024 * 1024.
Proof.
  intros (_ & Hs & He & _ & _ & Hh & Hn & Hp & _). rewrite zlen_encode by done.
  pose proof (shape_ok_bounds _ Hs). unfold encoded_len. destruct (is_shared _); lia.
Qed.

Lemma frame_metadata_roundtrip_lemma m :
  metadata_ok m -> FrameMetadata_decode (FrameMetadata_encode m) (fm_id m) = Ok m.
Proof.
  intros Hm. pose proof Hm as (Hid & _ & He & _ & _ & Hh & _ & Hp & _).
  unfold FrameMetadata_decode. rewrite <- Hid, bytes_eqb_refl. cbn [negb].
  destruct (reads_whole _ _ _ (reads_metadata m Hm)) as (d & E & Hf).
  - pose proof (metadata_small m Hm). unfold U64_MAX. lia.
  - by apply is_bytes_encode.
  - rewrite E. cbn [rbind fst snd]. by rewrite Hf.
Qed.

Lemma frame_metadata_canonical_lemma b id m :
  is_bytes b -> zlen b <= U64_MAX -> FrameMetadata_decode b id = Ok m ->
  metadata_ok m /\ fm_id m = id /\ FrameMetadata_encode m = b.
Proof.
  intros Hb Hl E. unfold FrameMetadata_decode in E. inv_ok. bools.
  destruct a as [m' d]; cbn [fst snd] in *. subst m'.
  apply bytes_eqb_true in Hguard.
  pose proof (parses_whole _ _ _ _ _ _ (parses_metadata id) Hl Hb Hok Hok0)
    as (Hid & Henc & Hrest). rewrite <- Henc. split; [|done].
  split; [|done]. rewrite Hid, <- Henc. done.
Qed.

(** The record header of valid metadata is a valid frame header. *)
Lemma record_header_lemma m :
  metadata_ok m -> exists h, record_header m = Ok h /\ frame_header_ok h /\
    fh_stored_len h = fm_payload_bytes m /\ fh_raw_len h = decoded (fm_shape m).
Proof.
  intros (_ & Hsh & He & Hpb & Hraw & _ & Hn & Hp & _). unfold record_header.
  pose proof (shape_ok_bounds _ Hsh) as (B1 & B2 & B3). pose proof Hsh as (Hps%page_size_ok_div & _ & _).
  destruct (fm_pages m) as [|p l] eqn:Ep; [rewrite zlen_nil in Hn; lia|].
  inversion Hp as [|? ? (Hpn & _) ?]; subst. unfold page_number_ok, MAX_FRAME_BYTES, U32_MAX in *.
  assert (decoded (fm_shape m) mod 512 = 0) as Hmod.
  { unfold decoded. rewrite Z.mul_mod, Hps, Z.mul_0_r by lia. done. }
  destruct (match fm_encoding m with Raw => _ | Zstandard _ => _ end) as [c d] eqn:Ec.
  cbn [head range ok_or rbind]. unfold U32_MAX. rewrite !(proj2 (Z.ltb_ge _ _)) by lia.
  eexists. split; [done|]. cbn [fh_stored_len fh_raw_len]. split; [|done].
  unfold frame_header_ok, MAX_FRAME_PAYLOAD, is_u16, U32_MAX, U16_MAX; cbn.
  destruct (fm_encoding m) as [|[|id]]; injection Ec as <- <-; split_and!; try lia; try done.
  intros _. by rewrite Hraw.
Qed.

(** *** Building and verifying a frame *)

Context {Z0 : ZstdLib} {ZOK : ZstdOk Z0}.

Definition page_intact (size : Z) (p : PageVersion * bytes) : Prop :=
  zlen p.2 = size /\ checksum (pv_page p.1) (pv_txid p.1) p.2 = pv_checksum p.1.

Lemma build_pages_spec size pages vs raw vs' raw' :
  mfold (build_page size) (vs, raw) pages = Ok (vs', raw') ->
  vs' = vs ++ map fst pages /\ raw' = raw ++ concat (map snd pages) /\
  Forall (page_intact size) pages.
Proof.
  revert vs raw; induction pages as [|[v b] pages IH]; intros vs raw E; cbn [mfold] in E.
  - inv_ok. subst. cbn. by rewrite !app_nil_r.
  - inv_ok. unfold build_page in Hok. inv_ok. apply orb_false_iff in Hguard as [G1 G2]. bools.
    apply bytes_eqb_true in G2. cbn [fst snd] in *. subst a.
    apply IH in E as (-> & -> & Hf). cbn [map concat fst snd]. rewrite <- !(assoc_L (++)).
    split_and!; [done|done|]. constructor; [|done]. split; [simpl; lia|done].
Qed.

Lemma build_pages_run size pages vs raw :
  Forall (page_intact size) pages ->
  mfold (build_page size) (vs, raw) pages = Ok (vs ++ map fst pages, raw ++ concat (map snd pages)).
Proof.
  intros Hf. revert vs raw; induction Hf as [|[v b] pages [Hl Hc] Hf IH]; intros vs raw; cbn [mfold].
  - cbn. by rewrite !app_nil_r.
  - unfold build_page at 1. cbn [fst snd] in *. rewrite Hl, Hc, Z.eqb_refl, bytes_eqb_refl. cbn [negb orb rbind].
    rewrite IH. cbn [map concat fst snd]. by rewrite <- !(assoc_L (++)).
Qed.

Lemma zlen_concat size (bs : list bytes) :
  Forall (fun b => zlen b = size) bs -> zlen (concat bs) = zlen bs * size.
Proof.
  induction 1 as [|b bs Hb Hbs IH]; [done|]. cbn [concat]. rewrite zlen_app, zlen_cons. lia.
Qed.

Lemma slice_concat size (bs : list bytes) i b :
  0 < size -> Forall (fun b => zlen b = size) bs -> bs !! i = Some b ->
  slice (concat bs) (Z.of_nat i * size) (Z.of_nat i * size + size) = b.
Proof.
  intros Hs Hbs Hi. apply list_elem_of_split_length in Hi as (pre & post & -> & ->).
  apply Forall_app in Hbs as [Hpre Hpost]. inversion Hpost; subst.
  rewrite concat_app. cbn [concat]. pose proof (zlen_concat _ _ Hpre) as Hl. unfold zlen in *.
  unfold slice. rewrite <- Hl, Nat2Z.id, drop_app_length.
  replace (Z.to_nat _) with (length b) by lia. apply take_app_length.
Qed.

Lemma chunks_exact_concat size (bs : list bytes) :
  0 < size -> Forall (fun b => zlen b = size) bs -> chunks_exact size (concat bs) = bs.
Proof.
  intros Hs Hbs. unfold chunks_exact. rewrite (zlen_concat size bs Hbs), Z.div_mul by lia.
  unfold zlen at 1. rewrite Nat2Z.id. apply list_eq. intros i.
  destruct (bs !! i) as [b|] eqn:E.
  - rewrite list_lookup_fmap, lookup_seq_lt by (by eapply lookup_lt_Some). simpl.
    f_equal. by apply slice_concat.
  - rewrite list_lookup_fmap, lookup_seq_ge; [done|]. by apply lookup_ge_None.
Qed.

Lemma verify_slots_spec l :
  mfold verify_slot tt l = Ok tt <->
  Forall (fun p => checksum (pv_page p.1) (pv_txid p.1) p.2 = pv_checksum p.1) l.
Proof.
  induction l as [|[v b] l IH]; cbn [mfold]; [split; [constructor|done]|].
  rewrite rbind_Ok, Forall_cons. split.
  - intros ([] & E & El). unfold verify_slot in E. inv_ok. bools. apply bytes_eqb_true in Hguard.
    split; [done|by apply IH].
  - intros [Hb Hl]. exists tt. split; [|by apply IH]. unfold verify_slot. cbn [fst snd] in Hb.
    by rewrite Hb, bytes_eqb_refl.
Qed.

Definition encoder_ok (e : FrameEncoder) (dictionaries : gmap Digest bytes) : Prop :=
  match fe_dictionary e with
  | NoDictionary => fe_bytes e = []
  | Shared id => digest_ok id /\ dictionaries !! id = Some (fe_bytes e)
  end.

(** Whatever encoding is chosen, it is no larger than the frame and it decodes. *)
Lemma choose_encoding_spec e dictionaries raw enc payload m :
  encoder_ok e dictionaries -> 1 <= zlen raw -> zlen raw <= U64_MAX ->
  choose_encoding e raw = Ok (enc, payload) ->
  fm_encoding m = enc -> decoded (fm_shape m) = zlen raw ->
  1 <= zlen payload <= zlen raw /\ (enc = Raw -> payload = raw) /\ encoding_ok enc /\
  decode_payload m payload dictionaries = Ok raw.
Proof.
  intros He Hr Hm E Henc Hd. unfold choose_encoding in E. inv_ok.
  assert (fm_encoding m = Raw -> decode_payload m raw dictionaries = Ok raw) as Hraw.
  { unfold decode_payload. by intros ->. }
  destruct a; inv_ok; [rename a into c|subst enc payload; split_and!; (done || lia || auto)].
  unfold zstd in Hok0. inv_ok. pose proof (zcompress_bytes _ _ _ _ Hok0) as [Hcb Hcl].
  unfold encoder_ok in He.
  destruct (saturating_add _ _ <? _) eqn:El; inv_ok; [|subst enc payload; split_and!; (done || lia || auto)].
  subst payload. unfold saturating_add, U64_MAX in *. unfold decode_payload.
  destruct (fe_dictionary e) as [|id]; rewrite Henc, <- E, Hd.
  - rewrite He in *. rewrite (zdecompress_compress (fe_level e) [] raw c) by (done || lia).
    split_and!; try done; lia.
  - destruct He as [Hid Hdict]. rewrite Hdict. cbn [ok_or rbind].
    rewrite (zdecompress_compress (fe_level e) (fe_bytes e) raw c) by (done || lia).
    split_and!; try done; lia.
Qed.

Lemma build_lemma e dictionaries size pages f :
  encoder_ok e dictionaries -> page_size_ok size ->
  Forall (fun p => page_version_ok p.1) pages -> NoDup (map (pv_page ∘ fst) pages) ->
  build e size pages = Ok f ->
  metadata_ok (ef_metadata f) /\ fm_pages (ef_metadata f) = map fst pages /\
  fs_page_size (fm_shape (ef_metadata f)) = size /\
  verify_payload (ef_metadata f) (ef_payload f) dictionaries =
    Ok (mkVerified (fm_id (ef_metadata f)) (concat (map snd pages))).
Proof.
  intros He Hps Hp Hnd E. unfold build in E. inv_all. destruct a0 as [vs raw].
  inv_ok. destruct a0 as [enc payload]. inv_ok. subst f. cbn [ef_metadata ef_payload fm_id fm_pages].
  apply FrameShape_new_spec in Hok as [-> Hsh]; [|apply zlen_nonneg|done].
  apply build_pages_spec in Hok0 as (-> & -> & Hint). rewrite !app_nil_l in *.
  pose proof (shape_ok_bounds _ Hsh) as (B1 & B2 & B3). cbn [fs_page_size fs_pages] in *.
  assert (Forall (fun b => zlen b = size) (map snd pages)) as Hsz.
  { apply Forall_fmap. eapply Forall_impl; [exact Hint|]. by intros p [? _]. }
  assert (zlen (concat (map snd pages)) = decoded (mkShape size (zlen pages))) as Hraw.
  { rewrite (zlen_concat size _ Hsz). unfold decoded, zlen. simpl. by rewrite length_fmap. }
  unfold MAX_FRAME_BYTES in *.
  destruct (choose_encoding_spec e dictionaries (concat (map snd pages)) enc payload
    (mkFrameMetadata [] (mkShape size (zlen pages)) enc 0 [] [])) as
    (Hpl & Hr & Heok & Hdec); [done|lia|unfold U64_MAX; lia|done|done|done|].
  split_and!; try done.
  - split_and!; cbn [fm_id fm_shape fm_encoding fm_payload_bytes fm_payload_hash fm_pages fs_pages];
      try done; try lia.
    + intros Eraw. by rewrite (Hr Eraw).
    + split; [apply blake3_length|apply blake3_bytes].
    + unfold zlen. by rewrite length_fmap.
    + by apply Forall_fmap.
    + change (map pv_page (map fst pages)) with (pv_page <$> (fst <$> pages)).
      by rewrite <- list_fmap_compose.
  - unfold verify_payload, authenticate_payload. cbn [fm_payload_bytes fm_payload_hash].
    rewrite Z.eqb_refl, bytes_eqb_refl. cbn [negb orb rbind].
    unfold decode_payload in *. cbn [fm_encoding fm_shape] in *. rewrite Hdec. cbn [rbind].
    rewrite Hraw, Z.eqb_refl. cbn [negb fm_pages fs_page_size fm_id].
    rewrite chunks_exact_concat by (done || lia).
    rewrite (proj2 (verify_slots_spec _)); [done|].
    clear -Hint. induction Hint as [|p l [_ Hc] Hl IH]; [constructor|]. constructor; done.
Qed.

(** What the encoder builds verifies: the metadata of a built frame is valid,
    lists the given pages in order, and its payload (compressed or raw, whichever
    was chosen) verifies to the concatenation of the page bytes. *)
Theorem build_verifies e dictionaries size pages f :
  encoder_ok e dictionaries -> page_size_ok size ->
  Forall (fun p => page_version_ok p.1 /\ is_bytes p.2) pages -> NoDup (map (pv_page ∘ fst) pages) ->
  build e size pages = Ok f ->
  metadata_ok (ef_metadata f) /\ fm_pages (ef_metadata f) = map fst pages /\
  fs_page_size (fm_shape (ef_metadata f)) = size /\
  verify_payload (ef_metadata f) (ef_payload f) dictionaries =
    Ok (mkVerified (fm_id (ef_metadata f)) (concat (map snd pages))).
Proof.
  intros He Hs Hp. apply build_lemma; [done..|]. eapply Forall_impl; [exact Hp|]. by intros p [? _].
Qed.

Lemma verify_payload_lemma m payload dictionaries v :
  metadata_ok m -> verify_payload m payload dictionaries = Ok v ->
  blake3 payload = fm_payload_hash m /\ vf_id v = fm_id m /\
  zlen (vf_bytes v) = decoded (fm_shape m) /\
  forall i p, fm_pages m !! i = Some p ->
    checksum (pv_page p) (pv_txid p)
      (slice (vf_bytes v) (Z.of_nat i * fs_page_size (fm_shape m))
             (Z.of_nat i * fs_page_size (fm_shape m) + fs_page_size (fm_shape m))) = pv_checksum p.
Proof.
  intros (_ & Hsh & _ & _ & _ & _ & Hn & _) E. unfold verify_payload, authenticate_payload in E.
  inv_ok. bools. destruct a1. apply verify_slots_spec in Hok1. subst v. cbn [vf_id vf_bytes].
  apply bytes_eqb_true in Hguard0. apply Z.eqb_eq in Hguard.
  split_and!; try done. intros i p Hi.
  pose proof (shape_ok_bounds _ Hsh) as (B1 & _). rewrite Forall_lookup in Hok1.
  specialize (Hok1 i (p, slice a0 (Z.of_nat i * fs_page_size (fm_shape m))
             (Z.of_nat i * fs_page_size (fm_shape m) + fs_page_size (fm_shape m)))).
  cbn [fst snd] in Hok1. apply Hok1. apply lookup_zip_Some. split; [done|].
  unfold chunks_exact. rewrite list_lookup_fmap, lookup_seq_lt; [done|].
  rewrite Hguard. unfold decoded. rewrite Z.div_mul by lia.
  apply lookup_lt_Some in Hi. unfold zlen in Hn. lia.
Qed.

(** Verified bytes can be trusted: a payload that verifies against valid
    metadata hashes to the recorded digest, decodes to exactly the frame's size,
    and every page slot carries bytes its checksum was computed from. *)
Theorem verify_payload_sound m payload dictionaries v :
  metadata_ok m -> verify_payload m payload dictionaries = Ok v ->
  blake3 payload = fm_payload_hash m /\ vf_id v = fm_id m /\
  zlen (vf_bytes v) = decoded (fm_shape m) /\
  forall i p, fm_pages m !! i = Some p ->
    checksum (pv_page p) (pv_txid p)
      (slice (vf_bytes v) (Z.of_nat i * fs_page_size (fm_shape m))
             (Z.of_nat i * fs_page_size (fm_shape m) + fs_page_size (fm_shape m))) = pv_checksum p.
Proof. apply verify_payload_lemma. Qed.

(** The probe reads four in-range windows of at most 1 KiB and at most a quarter
    of the frame in total. *)
Lemma probe_sample_lemma raw :
  4096 <= zlen raw ->
  zlen (probe_sample raw) = 4 * Z.min (zlen raw / 16) 1024 /\
  zlen (probe_sample raw) <= 4096 /\ 4 * zlen (probe_sample raw) <= zlen raw.
Proof.
  intros Hl. unfold probe_sample. set (w := Z.min (zlen raw / 16) 1024).
  pose proof (Z.div_mod (zlen raw) 16 ltac:(lia)). pose proof (Z.mod_pos_bound (zlen raw) 16 ltac:(lia)).
  assert (0 <= w /\ 16 * w <= zlen raw /\ w <= 1024) as (W1 & W2 & W3) by lia.
  cbn [map concat]. rewrite app_nil_r, 3!zlen_app.
  assert (forall i, 0 <= i <= 3 -> zlen (slice raw ((zlen raw - w) * i / 3)
            ((zlen raw - w) * i / 3 + w)) = w) as Hw.
  { intros i Hi. assert (0 <= (zlen raw - w) * i / 3 <= zlen raw - w).
    { split; [apply Z.div_pos; nia|]. apply Z.div_le_upper_bound; nia. }
    rewrite zlen_slice; lia. }
  rewrite !Hw by lia. lia.
Qed.

(** The frame metadata record is a canonical, self-identifying encoding: it
    decodes under an identity exactly when that identity is its digest, the
    metadata is valid and the record is its encoding. *)
Theorem frame_metadata_canonical b id m :
  is_bytes b -> zlen b <= U64_MAX ->
  FrameMetadata_decode b id = Ok m <->
  metadata_ok m /\ fm_id m = id /\ FrameMetadata_encode m = b.
Proof.
  intros Hb Hl. split; [by apply frame_metadata_canonical_lemma|].
  intros (Hm & <- & <-). by apply frame_metadata_roundtrip_lemma.
Qed.
End FrameLemmas.

(** ** Witnesses *)

(** Two pages of one frame, the second one compressible, built without a
    dictionary. *)
Definition demo_page (k : Z) : bytes := map (fun i => Z.of_nat i mod k) (seq 0 512).

Definition demo_pages : list (PageVersion * bytes) :=
  [(@PageVersion_verified demo_hashes 4 7 (demo_page 251), demo_page 251);
   (@PageVersion_verified demo_hashes 2 9 (demo_page 1), demo_page 1)].

Definition demo_encoder : FrameEncoder := FrameEncoder_new 3 None.

Definition demo_frame : EncodedFrame := Eval vm_compute in
  match @build demo_hashes demo_zstd demo_encoder 512 demo_pages with
  | Ok f => f
  | Err _ => mkEncoded (mkFrameMetadata [] (mkShape 0 0) Raw 0 [] []) []
  end.

Lemma demo_build : @build demo_hashes demo_zstd demo_encoder 512 demo_pages = Ok demo_frame.
Proof. vm_compute. reflexivity. Qed.

Lemma demo_pages_ok :
  Forall (fun p => page_version_ok p.1 /\ is_bytes p.2) demo_pages /\
  NoDup (map (pv_page ∘ fst) demo_pages).
Proof.
  split.
  - repeat (apply Forall_cons; split);
      [split; [split_and!|apply bytes_check_ok; reflexivity]..|constructor];
      unfold page_number_ok, txid_ok, U32_MAX, U64_MAX; try (cbn; lia);
      split; apply demo_hashes_ok.
  - apply (bool_decide_unpack _). vm_compute. done.
Qed.

Lemma build_verifies_witness :
  @verify_payload demo_hashes demo_zstd (ef_metadata demo_frame) (ef_payload demo_frame) ∅ =
  Ok (mkVerified (fm_id (ef_metadata demo_frame)) (demo_page 251 ++ demo_page 1)).
Proof.
  destruct (@build_verifies demo_hashes demo_hashes_ok demo_zstd demo_zstd_ok
              demo_encoder ∅ 512 demo_pages demo_frame) as (_ & _ & _ & E).
  - reflexivity.
  - apply page_size_512.
  - apply demo_pages_ok.
  - apply demo_pages_ok.
  - apply demo_build.
  - rewrite E. reflexivity.
Defined.

Lemma demo_metadata_ok : @metadata_ok demo_hashes (ef_metadata demo_frame).
Proof.
  pose proof demo_pages_ok as [Hp Hn]. unfold metadata_ok.
  assert (fm_pages (ef_metadata demo_frame) = map fst demo_pages) as Hpg by (vm_compute; reflexivity).
  assert (fm_shape (ef_metadata demo_frame) = mkShape 512 2) as Hsh by (vm_compute; reflexivity).
  assert (fm_encoding (ef_metadata demo_frame) = Raw) as He by (vm_compute; reflexivity).
  assert (fm_payload_bytes (ef_metadata demo_frame) = 1024) as Hl by (vm_compute; reflexivity).
  rewrite Hsh, He, Hl, Hpg. split_and!.
  - vm_compute. reflexivity.
  - unfold shape_ok, MAX_FRAME_BYTES, decoded. cbn [fs_page_size fs_pages].
    split_and!; [apply page_size_512|lia|lia].
  - exact I.
  - lia.
  - unfold decoded. cbn [fs_page_size fs_pages]. lia.
  - intros _. reflexivity.
  - split; [vm_compute; reflexivity|apply bytes_check_ok; vm_compute; reflexivity].
  - reflexivity.
  - apply Forall_fmap. eapply Forall_impl; [exact Hp|]. by intros p [? _].
  - change (map pv_page (map fst demo_pages)) with (pv_page <$> (fst <$> demo_pages)).
    by rewrite <- list_fmap_compose.
Qed.

Lemma verify_payload_sound_witness :
  @verify_payload demo_hashes demo_zstd (ef_metadata demo_frame) (ef_payload demo_frame) ∅ =
    Ok (mkVerified (fm_id (ef_metadata demo_frame)) (demo_page 251 ++ demo_page 1)) /\
  @blake3 demo_hashes (ef_payload demo_frame) = fm_payload_hash (ef_metadata demo_frame).
Proof.
  assert (@verify_payload demo_hashes demo_zstd (ef_metadata demo_frame) (ef_payload demo_frame) ∅ =
    Ok (mkVerified (fm_id (ef_metadata demo_frame)) (demo_page 251 ++ demo_page 1))) as E
    by (vm_compute; reflexivity).
  split; [exact E|].
  destruct (@verify_payload_sound demo_hashes demo_zstd (ef_metadata demo_frame) (ef_payload demo_frame)
              ∅ _ demo_metadata_ok E) as [Hh _]. exact Hh.
Defined.

Lemma frame_metadata_canonical_witness :
  @FrameMetadata_decode demo_hashes (FrameMetadata_encode (ef_metadata demo_frame))
    (fm_id (ef_metadata demo_frame)) = Ok (ef_metadata demo_frame).
Proof.
  apply (@frame_metadata_canonical demo_hashes demo_hashes_ok (FrameMetadata_encode (ef_metadata demo_frame))
           (fm_id (ef_metadata demo_frame)) (ef_metadata demo_frame)).
  - apply bytes_check_ok. vm_compute. reflexivity.
  - vm_compute. discriminate.
  - split; [apply demo_metadata_ok|split; reflexivity].
Defined.
