(* ===== verification/Pack.v ===== *)
(** Packs (src/src/storage/pack.rs): the identity of a pack commits to the frame
    identities and their positions; [copy] streams a pack, authenticates it and
    derives that identity. The reader is a function [read offset n]; the writer is
    an in-memory sink that accepts every write. *)

From S2P Require Import Prelude Domain Format Wire Segment Frame.
From stdpp Require Import base strings gmap list sorting.
From Stdlib Require Import ZArith Lia.
Open Scope Z_scope.

Definition PACK_HEADER : bytes := put (zeros HEADER_SIZE) 0 (ascii "ZPACK001").
Definition BUFFER : Z := 1024 * 1024.

(** A [Hasher] is the bytes it has been fed. *)
Record Identity : Set := mkIdentity {
  id_hash : bytes;
  id_offset : Z;
  id_frames : Z;
}.

Definition Identity_new : Identity :=
  mkIdentity (ascii "zsqlite/pack/v1" ++ [0] ++ PACK_HEADER) (zlen PACK_HEADER) 0.

Definition Identity_frame (i : Identity) (m : FrameMetadata) : result StoreError Identity :=
  let* length :=
    range (l ← checked_add 36 (encoded_len m);
           l ← checked_add l FRAME_HEADER_SIZE;
           checked_add l (fm_payload_bytes m)) in
  let hash := id_hash i ++ fm_id m ++ le_bytes 8 (id_offset i) ++ le_bytes 8 length in
  let* offset := range (checked_add (id_offset i) length) in
  let* frames := range (checked_add (id_frames i) 1) in
  Ok (mkIdentity hash offset frames).

Section WithLibraries.
Context `{Hashes}.

Definition Identity_finish (i : Identity) (length : Z) : result StoreError Digest :=
  fail_if negb (length =? id_offset i) || (id_frames i =? 0) with Corrupt length ;;
  Ok (blake3 (id_hash i ++ le_bytes 8 (id_frames i) ++ le_bytes 8 length)).

Definition reader : Type := Z -> Z -> result StoreError bytes.

(** The payload loop: at most one buffer at a time; returns what was read. [None]
    means the fuel ran out. *)
Fixpoint copy_payload (fuel : nat) (rd : reader) (offset stop : Z) (acc : bytes)
    : option (result StoreError bytes) :=
  if stop <=? offset then Some (Ok acc)
  else match fuel with
       | O => None
       | S fuel' =>
           let amount := Z.min (stop - offset) BUFFER in
           match rd offset amount with
           | Ok b => copy_payload fuel' rd (offset + amount) stop (acc ++ b)
           | Err e => Some (Err e)
           end
       end.

(** The part of one iteration before the payload: metadata and record header. *)
Definition copy_metadata (rd : reader) (length offset : Z)
    : result StoreError (FrameMetadata * bytes * Z) :=
  fail_if length - offset <? 36 with Corrupt offset ;;
  let* prefix := rd offset 36 in
  let count := le_val (slice prefix 0 4) in
  fail_if 1024 * 1024 <? count with Range ;;
  let record_length := 36 + count + FRAME_HEADER_SIZE in
  fail_if length - offset <? record_length with Corrupt offset ;;
  let id := slice prefix 4 36 in
  let* encoded := rd (offset + 36) count in
  let* metadata := FrameMetadata_decode encoded id in
  let* record := rd (offset + 36 + count) FRAME_HEADER_SIZE in
  let* h := record_header metadata in
  fail_if negb (bytes_eqb record (FrameHeader_encode h)) with Corrupt offset ;;
  Ok (metadata, prefix ++ encoded ++ record, offset + record_length).

Fixpoint copy_loop (fuel : nat) (rd : reader) (length : Z) (payloads : bool)
    (offset : Z) (identity : Identity) (output : bytes)
    : option (result StoreError (Digest * bytes)) :=
  if length <=? offset then
    Some (let* id := Identity_finish identity length in Ok (id, output))
  else match fuel with
       | O => None
       | S fuel' =>
           match copy_metadata rd length offset with
           | Err e => Some (Err e)
           | Ok (metadata, written, offset) =>
               match checked_add offset (fm_payload_bytes metadata) with
               | None => Some (Err Range)
               | Some payload_end =>
                   if length <? payload_end then Some (Err (Corrupt offset))
                   else
                     match (if payloads
                            then copy_payload (Z.to_nat (payload_end - offset)) rd offset
                                   payload_end []
                            else Some (Ok [])) with
                     | None => None
                     | Some (Err e) => Some (Err e)
                     | Some (Ok b) =>
                         if payloads && negb (bytes_eqb (blake3 b) (fm_payload_hash metadata))
                         then Some (Err (Corrupt payload_end))
                         else
                           match Identity_frame identity metadata with
                           | Err e => Some (Err e)
                           | Ok identity =>
                               copy_loop fuel' rd length payloads payload_end identity
                                 (output ++ written ++ b)
                           end
                     end
               end
           end
       end.

Definition copy (rd : reader) (length : Z) (payloads : bool)
    : option (result StoreError (Digest * bytes)) :=
  if length <? zlen PACK_HEADER then Some (Err (Corrupt 0))
  else match rd 0 (zlen PACK_HEADER) with
       | Err e => Some (Err e)
       | Ok header =>
           if negb (bytes_eqb header PACK_HEADER) then Some (Err (Corrupt 0))
           else copy_loop (Z.to_nat length) rd length payloads (zlen PACK_HEADER) Identity_new header
       end.

(** A pack is its header and one record per frame. *)
Definition frame_record (f : EncodedFrame) : bytes :=
  u32_bytes (zlen (FrameMetadata_encode (ef_metadata f))) ++ fm_id (ef_metadata f) ++
  FrameMetadata_encode (ef_metadata f) ++
  match record_header (ef_metadata f) with Ok h => FrameHeader_encode h | Err _ => [] end ++
  ef_payload f.

Definition pack_bytes (frames : list EncodedFrame) : bytes :=
  PACK_HEADER ++ concat (map frame_record frames).

(** The identity over a frame sequence. *)
Definition pack_id (frames : list EncodedFrame) : result StoreError Digest :=
  let* i := mfold Identity_frame Identity_new (map ef_metadata frames) in
  Identity_finish i (zlen (pack_bytes frames)).

End WithLibraries.

Definition frame_ok `{Hashes} (f : EncodedFrame) : Prop :=
  metadata_ok (ef_metadata f) /\ zlen (ef_payload f) = fm_payload_bytes (ef_metadata f).

Definition frame_intact `{Hashes} (f : EncodedFrame) : Prop :=
  frame_ok f /\ blake3 (ef_payload f) = fm_payload_hash (ef_metadata f).

(** ** Lemmas *)

Lemma zlen_PACK_HEADER : zlen PACK_HEADER = 128.
Proof. done. Qed.

Section PackLemmas.
Context {H : Hashes} {HOK : HashesOk H}.

(** [rd] serves every in-range read of [b]. *)
Definition serves (rd : reader) (b : bytes) : Prop :=
  forall offset n, 0 <= offset -> 0 <= n -> offset + n <= zlen b ->
    rd offset n = Ok (slice b offset (offset + n)).

Lemma read_exact_serves b : serves (read_exact_at b) b.
Proof. intros o n Ho Hn Hle. unfold read_exact_at. by rewrite (proj2 (Z.ltb_ge _ _)). Qed.

Lemma copy_payload_lemma fuel rd b offset stop acc :
  serves rd b -> 0 <= offset -> offset <= stop -> stop <= zlen b -> (Z.to_nat (stop - offset) <= fuel)%nat ->
  copy_payload fuel rd offset stop acc = Some (Ok (acc ++ slice b offset stop)).
Proof.
  intros Hrd. revert offset acc; induction fuel as [|fuel IH]; intros offset acc H0 H1 H2 Hf; cbn [copy_payload].
  - rewrite (proj2 (Z.leb_le _ _)) by lia. by rewrite slice_nil_ge, app_nil_r by lia.
  - destruct (Z.leb_spec stop offset); [by rewrite slice_nil_ge, app_nil_r by lia|].
    assert (0 < BUFFER) by (unfold BUFFER; lia).
    set (amount := Z.min (stop - offset) BUFFER) in *.
    rewrite (Hrd offset) by lia. rewrite IH by lia. rewrite <- (assoc_L (++)).
    by rewrite <- slice_app_split by lia.
Qed.

(** The fixed part of a record as bytes. *)
Definition record_prefix (m : FrameMetadata) : bytes :=
  u32_bytes (zlen (FrameMetadata_encode m)) ++ fm_id m ++ FrameMetadata_encode m ++
  match record_header m with Ok h => FrameHeader_encode h | Err _ => [] end.

Lemma frame_record_prefix f : frame_record f = record_prefix (ef_metadata f) ++ ef_payload f.
Proof. unfold frame_record, record_prefix. by rewrite <- !(assoc_L (++)). Qed.

Lemma metadata_id_ok m : metadata_ok m -> digest_ok (fm_id m).
Proof. intros (-> & _). split; [apply blake3_length|apply blake3_bytes]. Qed.

Lemma metadata_encode_len m : metadata_ok m -> zlen (FrameMetadata_encode m) = encoded_len m.
Proof. intros (_ & _ & He & _ & _ & Hh & _ & Hp & _). by apply zlen_encode. Qed.

Lemma zlen_record_prefix m : metadata_ok m -> zlen (record_prefix m) = 60 + encoded_len m.
Proof.
  intros Hm. unfold record_prefix, u32_bytes. rewrite !zlen_app, zlen_le_bytes.
  destruct (metadata_id_ok m Hm) as [-> _]. rewrite metadata_encode_len by done.
  destruct (record_header_lemma m Hm) as (h & -> & _). rewrite zlen_FrameHeader_encode.
  unfold FRAME_HEADER_SIZE. lia.
Qed.

Lemma encoded_len_bounds m : metadata_ok m -> 57 <= encoded_len m <= 1024 * 1024.
Proof.
  intros Hm. pose proof (metadata_small m Hm). rewrite metadata_encode_len in * by done.
  split; [|done]. unfold encoded_len. pose proof (zlen_nonneg (fm_pages m)). destruct (is_shared _); lia.
Qed.

Lemma copy_metadata_sound b offset m w o :
  is_bytes b -> zlen b <= U64_MAX -> 0 <= offset ->
  copy_metadata (read_exact_at b) (zlen b) offset = Ok (m, w, o) ->
  metadata_ok m /\ w = record_prefix m /\ w = slice b offset o /\ o = offset + 60 + encoded_len m /\
  o <= zlen b.
Proof.
  intros Hb Hl Ho E. unfold copy_metadata, FRAME_HEADER_SIZE in E. inv_ok.
  unfold read_exact_at in Hok, Hok0, Hok2. inv_ok. bools. subst.
  set (p := slice b offset (offset + 36)) in *.
  assert (zlen p = 36) as Hpl by (subst p; rewrite zlen_slice; lia).
  assert (is_bytes p) as Hpb by (subst p; auto with bytedb).
  assert (is_u32 (le_val (slice p 0 4))) as Hc by (apply le_val_u32; [auto with bytedb|rewrite zlen_slice; lia]).
  unfold is_u32 in Hc. set (count := le_val (slice p 0 4)) in *.
  apply frame_metadata_canonical_lemma in Hok1 as (Hm & Hid & Henc);
    [|auto with bytedb|rewrite zlen_slice; lia].
  match goal with H : bytes_eqb _ _ = true |- _ => apply bytes_eqb_true in H; rename H into Hrec end.
  assert (encoded_len m = count) as Hcount.
  { rewrite <- metadata_encode_len by done. rewrite Henc, zlen_slice; lia. }
  assert (p ++ slice b (offset + 36) (offset + 36 + count) ++
    slice b (offset + 36 + count) (offset + 36 + count + 24) =
    slice b offset (offset + (36 + count + 24))) as Hw.
  { subst p. rewrite <- !slice_app_split by lia. f_equal. lia. }
  split_and!; try done; try lia.
  assert (u32_bytes count ++ slice p 4 36 = p) as Hp.
  { unfold u32_bytes, count. rewrite (le_bytes_slice 4 p 0 4) by (done || lia).
    rewrite <- slice_app_split by lia. by apply slice_all. }
  unfold record_prefix. rewrite Hok3, <- Hrec, Henc, Hid.
  replace (zlen (slice b (offset + 36) (offset + 36 + count))) with count by (rewrite zlen_slice; lia).
  rewrite <- Hp at 1. by rewrite <- !(assoc_L (++)).
Qed.

(** The pieces of a record that starts at [offset]. *)
Lemma record_pieces b offset m h rest :
  0 <= offset <= zlen b -> metadata_ok m -> record_header m = Ok h ->
  slice b offset (zlen b) = record_prefix m ++ rest ->
  let n := encoded_len m in
  zlen b = offset + 60 + n + zlen rest /\
  slice b offset (offset + 36) = u32_bytes n ++ fm_id m /\
  slice b (offset + 36) (offset + 36 + n) = FrameMetadata_encode m /\
  slice b (offset + 36 + n) (offset + 36 + n + 24) = FrameHeader_encode h /\
  slice b (offset + 60 + n) (zlen b) = rest.
Proof.
  intros Ho Hm Eh Hs n. destruct (metadata_id_ok m Hm) as [Hid _].
  pose proof (metadata_encode_len m Hm) as Hel. fold n in Hel.
  pose proof (zlen_FrameHeader_encode h) as Hfl. unfold FRAME_HEADER_SIZE in Hfl.
  set (x := record_prefix m ++ rest) in *.
  assert (x = (u32_bytes n ++ fm_id m) ++ FrameMetadata_encode m ++ FrameHeader_encode h ++ rest) as Hx.
  { subst x. unfold record_prefix. rewrite Hel, Eh. by rewrite <- !(assoc_L (++)). }
  assert (zlen (u32_bytes n ++ fm_id m) = 36) as Hp by (unfold u32_bytes; rewrite zlen_app, zlen_le_bytes; lia).
  assert (zlen x = 60 + n + zlen rest) as Hxl by (rewrite Hx, !zlen_app in *; lia).
  assert (zlen b = offset + zlen x) as Hbl by (rewrite <- Hs, zlen_slice; lia).
  pose proof (zlen_nonneg rest). pose proof (zlen_nonneg (FrameMetadata_encode m)).
  assert (forall p q s u v, x = p ++ q ++ s -> u = offset + zlen p -> v = u + zlen q ->
    slice b u v = q) as Hcut.
  { intros p q s u v E -> ->. pose proof (zlen_nonneg p). pose proof (zlen_nonneg s).
    apply (f_equal zlen) in E as El. rewrite !zlen_app in El.
    rewrite <- Z.add_assoc, (slice_at b x) by (done || lia). rewrite E. by apply slice_mid. }
  split; [lia|]. split; [|split; [|split]].
  - eapply (Hcut [] _ _); [by rewrite Hx|rewrite zlen_nil; lia|lia].
  - eapply (Hcut (u32_bytes n ++ fm_id m)); [exact Hx|lia|lia].
  - eapply (Hcut ((u32_bytes n ++ fm_id m) ++ FrameMetadata_encode m)); [|rewrite zlen_app; lia|lia].
    by rewrite Hx, <- !(assoc_L (++)).
  - eapply (Hcut (((u32_bytes n ++ fm_id m) ++ FrameMetadata_encode m) ++ FrameHeader_encode h) _ []);
      [|rewrite !zlen_app in *; lia|lia].
    by rewrite Hx, app_nil_r, <- !(assoc_L (++)).
Qed.

Lemma copy_metadata_run rd b offset m rest :
  serves rd b -> 0 <= offset <= zlen b -> metadata_ok m ->
  slice b offset (zlen b) = record_prefix m ++ rest ->
  copy_metadata rd (zlen b) offset =
    Ok (m, record_prefix m, offset + 60 + encoded_len m).
Proof.
  intros Hrd Ho Hm Hs. destruct (record_header_lemma m Hm) as (h & Eh & _).
  destruct (record_pieces b offset m h rest Ho Hm Eh Hs) as (Hz & P1 & P2 & P3 & _).
  pose proof (encoded_len_bounds m Hm) as Hel. pose proof (zlen_nonneg rest).
  destruct (metadata_id_ok m Hm) as [Hid _].
  unfold copy_metadata, FRAME_HEADER_SIZE. rewrite (proj2 (Z.ltb_ge _ _)) by lia.
  rewrite Hrd, P1 by lia. cbn [rbind].
  assert (slice (u32_bytes (encoded_len m) ++ fm_id m) 0 4 = u32_bytes (encoded_len m)) as ->
    by (apply (slice_mid []); done).
  assert (slice (u32_bytes (encoded_len m) ++ fm_id m) 4 36 = fm_id m) as ->.
  { rewrite <- (app_nil_r (fm_id m)) at 1.
    apply slice_mid; unfold u32_bytes; rewrite zlen_le_bytes; lia. }
  unfold u32_bytes at 1 2 3 4 5. rewrite !le_val_4 by (unfold is_u32; lia).
  rewrite !(proj2 (Z.ltb_ge _ _)) by lia.
  rewrite Hrd, P2 by lia. cbn [rbind].
  rewrite frame_metadata_roundtrip_lemma by done. cbn [rbind].
  rewrite Hrd, P3 by lia. cbn [rbind]. rewrite Eh. cbn [rbind].
  rewrite bytes_eqb_refl. cbn [negb]. do 2 f_equal; [|lia].
  unfold record_prefix. rewrite Eh, metadata_encode_len by done.
  by rewrite <- !(assoc_L (++)).
Qed.

(** What the loop accepted is a sequence of records, all authenticated; with
    payloads, the output is the input. *)
Lemma copy_loop_sound fuel b payloads offset i out id out' :
  is_bytes b -> zlen b <= U64_MAX -> 0 <= offset <= zlen b ->
  copy_loop fuel (read_exact_at b) (zlen b) payloads offset i out = Some (Ok (id, out')) ->
  exists frames i', slice b offset (zlen b) = concat (map frame_record frames) /\
    Forall frame_ok frames /\ (payloads = true -> Forall frame_intact frames) /\
    (payloads = true -> out' = out ++ slice b offset (zlen b)) /\
    mfold Identity_frame i (map ef_metadata frames) = Ok i' /\ Identity_finish i' (zlen b) = Ok id.
Proof.
  intros Hb Hl. revert offset i out; induction fuel as [|fuel IH]; intros offset i out Ho E;
    cbn [copy_loop] in E; destruct (Z.leb_spec (zlen b) offset); try done.
  1,2: injection E as E; inv_ok; subst; exists [], i; rewrite slice_nil_ge by lia;
    cbn [map concat mfold]; rewrite app_nil_r; split_and!; done || constructor.
  destruct (copy_metadata _ _ _) as [[[m w] o]|] eqn:Em; [|by simplify_eq].
  apply copy_metadata_sound in Em as (Hm & Hw & Hws & -> & Hob); [|done|done|lia].
  pose proof (encoded_len_bounds m Hm). pose proof Hm as (_ & _ & _ & Hpb & _).
  destruct (checked_add _ _) as [stop|] eqn:Es; [|by simplify_eq].
  apply checked_add_Some in Es as [-> _]. set (o := offset + 60 + encoded_len m) in *.
  destruct (Z.ltb_spec (zlen b) (o + fm_payload_bytes m)); [by simplify_eq|].
  set (f := mkEncoded m (slice b o (o + fm_payload_bytes m))).
  assert (frame_ok f) as Hf by (split; [done|]; subst f; simpl; rewrite zlen_slice; lia).
  assert (slice b offset (zlen b) = frame_record f ++ slice b (o + fm_payload_bytes m) (zlen b)) as Hcut.
  { rewrite frame_record_prefix. subst f. cbn [ef_metadata ef_payload]. rewrite <- Hw, Hws, <- !slice_app_split by lia. done. }
  destruct payloads; cbn [andb] in E.
  - rewrite (copy_payload_lemma _ _ b) in E by (apply read_exact_serves || lia). rewrite app_nil_l in E.
    destruct (negb _) eqn:Eh; [by simplify_eq|]. apply negb_false_iff, bytes_eqb_true in Eh.
    destruct (Identity_frame i m) as [i1|] eqn:Ei; [|by simplify_eq].
    apply IH in E as (fs & i' & Hc & Hfo & Hfi & Hout & Hid & Hfin); [|lia].
    exists (f :: fs), i'. cbn [map concat mfold ef_metadata f]. rewrite Ei. cbn [rbind].
    rewrite Hcut, Hc. split_and!; try done.
    + by constructor.
    + intros _. constructor; [by split|by apply Hfi].
    + intros _. rewrite Hout by done. rewrite Hc, frame_record_prefix. subst f. cbn [ef_metadata ef_payload].
      rewrite <- Hw, <- !(assoc_L (++)). done.
  - destruct (Identity_frame i m) as [i1|] eqn:Ei; [|by simplify_eq].
    apply IH in E as (fs & i' & Hc & Hfo & Hfi & Hout & Hid & Hfin); [|lia].
    exists (f :: fs), i'. cbn [map concat mfold ef_metadata f]. rewrite Ei. cbn [rbind].
    rewrite Hcut, Hc. split_and!; try done. by constructor.
Qed.

(** Conversely every such sequence is accepted, with enough fuel for one step per
    record. *)
Lemma copy_loop_run fuel rd b payloads offset i out frames i' id :
  serves rd b -> 0 <= offset <= zlen b -> zlen b <= U64_MAX -> (Z.to_nat (zlen b - offset) <= fuel)%nat ->
  slice b offset (zlen b) = concat (map frame_record frames) ->
  Forall frame_ok frames -> (payloads = true -> Forall frame_intact frames) ->
  mfold Identity_frame i (map ef_metadata frames) = Ok i' -> Identity_finish i' (zlen b) = Ok id ->
  exists out', copy_loop fuel rd (zlen b) payloads offset i out = Some (Ok (id, out')).
Proof.
  intros Hrd. revert offset i out frames; induction fuel as [|fuel IH];
    intros offset i out frames Ho Hl Hf Hs Hok Hint Hid Hfin; cbn [copy_loop].
  all: destruct (Z.leb_spec (zlen b) offset) as [Hend|Hmore]; try lia.
  1,2: rewrite slice_nil_ge in Hs by lia; destruct frames as [|f fs];
    [cbn [map mfold] in Hid; inv_ok; subst; rewrite Hfin; by eexists|];
    exfalso; apply (f_equal zlen) in Hs; cbn [map concat] in Hs; inversion Hok as [|? ? [Hm _] _]; subst;
    rewrite frame_record_prefix, !zlen_app, zlen_nil in Hs; pose proof (zlen_record_prefix _ Hm);
    pose proof (encoded_len_bounds _ Hm); pose proof (zlen_nonneg (ef_payload f));
    pose proof (zlen_nonneg (concat (map frame_record fs))); lia.
  destruct frames as [|f fs].
  { apply (f_equal zlen) in Hs. cbn [map concat] in Hs. rewrite zlen_slice, zlen_nil in Hs by lia. lia. }
  inversion Hok as [|? ? Hf1 Hfs]; subst. pose proof Hf1 as [Hm Hpl].
  cbn [map concat] in Hs. rewrite frame_record_prefix, <- (assoc_L (++)) in Hs.
  destruct (record_header_lemma _ Hm) as (h & Eh & _).
  destruct (record_pieces b offset _ h _ Ho Hm Eh Hs) as (Hz & _ & _ & _ & Hrest).
  rewrite (copy_metadata_run rd b offset _ _ Hrd Ho Hm Hs).
  pose proof (encoded_len_bounds _ Hm). pose proof Hm as (_ & _ & _ & Hpb & _).
  set (o := offset + 60 + encoded_len (ef_metadata f)) in *.
  rewrite zlen_app in Hz. pose proof (zlen_nonneg (concat (map frame_record fs))).
  rewrite (proj2 (checked_add_Some o _ _)) by (split; [done|lia]).
  rewrite (proj2 (Z.ltb_ge _ _)) by lia.
  assert (slice b o (o + fm_payload_bytes (ef_metadata f)) = ef_payload f /\
          slice b (o + fm_payload_bytes (ef_metadata f)) (zlen b) = concat (map frame_record fs)) as [Hp Hr].
  { rewrite <- Hpl. split.
    - replace o with (o + 0) at 1 by lia.
      rewrite (slice_at b _ o 0 (zlen (ef_payload f)) ltac:(lia) Hrest) by (rewrite ?zlen_app; lia).
      by apply (slice_mid []).
    - replace (zlen b) with (o + (zlen (ef_payload f) + zlen (concat (map frame_record fs)))) by lia.
      rewrite (slice_at b _ o _ _ ltac:(lia) Hrest) by (rewrite ?zlen_app; lia).
      rewrite <- (app_nil_r (concat _)) at 1. by apply slice_mid. }
  cbn [map mfold] in Hid. inv_ok. rewrite Hok0.
  destruct payloads; cbn [andb].
  - rewrite (copy_payload_lemma _ _ b) by (done || lia). rewrite app_nil_l, Hp.
    specialize (Hint eq_refl). inversion Hint as [|? ? [_ Hb1] Hint']; subst.
    rewrite Hb1, bytes_eqb_refl. cbn [negb]. apply (IH _ _ _ fs); try done; lia.
  - apply (IH _ _ _ fs); try done; lia.
Qed.

Lemma pack_copy_sound_lemma b payloads id out :
  is_bytes b -> zlen b <= U64_MAX ->
  copy (read_exact_at b) (zlen b) payloads = Some (Ok (id, out)) ->
  exists frames, b = pack_bytes frames /\ Forall frame_ok frames /\
    (payloads = true -> Forall frame_intact frames /\ out = b) /\ pack_id frames = Ok id.
Proof.
  intros Hb Hl E. unfold copy in E. rewrite zlen_PACK_HEADER in E.
  destruct (Z.ltb_spec (zlen b) 128); [done|]. rewrite (read_exact_serves b) in E by lia.
  destruct (negb _) eqn:Eh; [done|]. apply negb_false_iff, bytes_eqb_true in Eh.
  change (0 + 128) with 128 in *.
  apply copy_loop_sound in E as (fs & i' & Hc & Hfo & Hfi & Hout & Hid & Hfin); [|done|done|lia].
  assert (b = pack_bytes fs) as Hbp.
  { unfold pack_bytes. rewrite <- Eh, <- Hc, <- slice_app_split by lia. symmetry. by apply slice_all. }
  exists fs. split_and!; try done.
  - intros ->. split; [by apply Hfi|]. rewrite Hout by done. rewrite Hc, Eh. by symmetry.
  - unfold pack_id. rewrite Hid. cbn [rbind]. by rewrite <- Hbp.
Qed.

Lemma pack_copy_run_lemma rd frames payloads id :
  serves rd (pack_bytes frames) ->
  Forall frame_ok frames -> (payloads = true -> Forall frame_intact frames) ->
  zlen (pack_bytes frames) <= U64_MAX -> pack_id frames = Ok id ->
  exists out, copy rd (zlen (pack_bytes frames)) payloads =
    Some (Ok (id, out)).
Proof.
  intros Hrd Hok Hint Hl Hid. unfold pack_id in Hid. inv_ok. set (b := pack_bytes frames) in *.
  pose proof (zlen_nonneg (concat (map frame_record frames))).
  assert (zlen b = 128 + zlen (concat (map frame_record frames))) as Hbl
    by (subst b; unfold pack_bytes; by rewrite zlen_app, zlen_PACK_HEADER).
  unfold copy. rewrite zlen_PACK_HEADER, (proj2 (Z.ltb_ge _ _)), Hrd by lia.
  change (0 + 128) with 128.
  assert (slice b 0 128 = PACK_HEADER) as -> by (apply (slice_mid []); done).
  rewrite bytes_eqb_refl. cbn [negb].
  apply (copy_loop_run _ _ _ _ _ _ _ frames a); try done; try lia.
  pose proof (slice_mid PACK_HEADER (concat (map frame_record frames)) [] 128 (zlen b)) as E.
  rewrite app_nil_r in E. apply E; [done|]. by rewrite zlen_PACK_HEADER.
Qed.

(** Streaming a pack accepts exactly the packs: a file is accepted under an
    identity when and only when it is the pack header followed by the records of
    authentic frames whose identities and positions hash to that identity; with
    payloads, every payload matches its digest and what is written is the file. *)
Theorem pack_copy_exact b payloads id :
  is_bytes b -> zlen b <= U64_MAX ->
  (exists out, copy (read_exact_at b) (zlen b) payloads = Some (Ok (id, out)) /\
               (payloads = true -> out = b)) <->
  (exists frames, b = pack_bytes frames /\ Forall frame_ok frames /\
     (payloads = true -> Forall frame_intact frames) /\ pack_id frames = Ok id).
Proof.
  intros Hb Hl. split.
  - intros (out & E & _). apply pack_copy_sound_lemma in E as (fs & -> & Hf & Hi & Hid); [|done..].
    exists fs. split_and!; try done. intros Hp. by apply Hi.
  - intros (fs & -> & Hf & Hi & Hid).
    destruct (pack_copy_run_lemma _ fs payloads id (read_exact_serves _) Hf Hi Hl Hid) as [out E].
    exists out. split; [done|]. intros Hp.
    apply pack_copy_sound_lemma in E as (fs' & Hfs' & Hok' & Ho & Hid'); [|done..]. by apply Ho.
Qed.

(** A reader that returns what was asked for. *)
Definition reader_exact (rd : reader) : Prop :=
  forall offset n b, rd offset n = Ok b -> zlen b = n /\ is_bytes b.

Lemma copy_payload_total fuel rd offset stop acc :
  (Z.to_nat (stop - offset) <= fuel)%nat -> copy_payload fuel rd offset stop acc <> None.
Proof.
  revert offset acc; induction fuel as [|fuel IH]; intros offset acc Hf; cbn [copy_payload];
    destruct (Z.leb_spec stop offset); try done; [lia|].
  destruct (rd _ _); [|done]. apply IH. unfold BUFFER. lia.
Qed.

(** Every iteration moves past at least one record header and one payload byte. *)
Lemma copy_metadata_advances rd length offset m w o :
  reader_exact rd -> copy_metadata rd length offset = Ok (m, w, o) ->
  offset < o /\ 1 <= fm_payload_bytes m.
Proof.
  intros Hrd E. unfold copy_metadata, FRAME_HEADER_SIZE in E. inv_ok. bools.
  destruct (Hrd _ _ _ Hok) as [Hl Hb]. destruct (Hrd _ _ _ Hok0) as [Hl0 Hb0].
  pose proof (le_val_u32 (slice a 0 4) ltac:(auto with bytedb) ltac:(rewrite zlen_slice; lia)) as Hc.
  unfold is_u32 in Hc. apply frame_metadata_canonical_lemma in Hok1 as (Hm & _); [|done|unfold U64_MAX; lia].
  destruct Hm as (_ & _ & _ & Hp & _). subst. lia.
Qed.

Lemma copy_loop_total fuel rd length payloads offset i out :
  reader_exact rd -> (Z.to_nat (length - offset) <= fuel)%nat ->
  copy_loop fuel rd length payloads offset i out <> None.
Proof.
  intros Hrd. revert offset i out; induction fuel as [|fuel IH]; intros offset i out Hf; cbn [copy_loop];
    destruct (Z.leb_spec length offset); try done; [lia|].
  destruct (copy_metadata _ _ _) as [[[m w] o]|] eqn:Em; [|done].
  apply copy_metadata_advances in Em as [Ho Hp]; [|done].
  destruct (checked_add _ _) as [stop|] eqn:Es; [|done]. apply checked_add_Some in Es as [-> _].
  destruct (_ <? _); [done|].
  destruct (if payloads then _ else _) as [[b|]|] eqn:Ec; [|done|].
  - destruct (_ && _); [done|]. destruct (Identity_frame i m); [|done]. apply IH. lia.
  - destruct payloads; [|done]. exfalso. by eapply copy_payload_total; [|exact Ec].
Qed.

(** Streaming terminates on every input: over any reader, of any content and
    failing anywhere, the copy returns (accepting or refusing) within the declared
    length's worth of iterations. *)
Theorem pack_copy_terminates rd length payloads :
  reader_exact rd -> exists r, copy rd length payloads = Some r.
Proof.
  intros Hrd. unfold copy. destruct (_ <? _) eqn:El; [by eexists|]. rewrite zlen_PACK_HEADER in *.
  destruct (rd 0 _); [|by eexists]. destruct (negb _); [by eexists|].
  destruct (copy_loop _ _ _ _ _ _ _) eqn:E; [by eexists|]. exfalso.
  eapply copy_loop_total; [done| |exact E]. lia.
Qed.
End PackLemmas.

(** ** Witnesses *)

Definition demo_pack : bytes := Eval vm_compute in @pack_bytes demo_hashes [demo_frame].

Definition demo_pack_id : Digest := Eval vm_compute in
  match @pack_id demo_hashes [demo_frame] with Ok id => id | Err _ => [] end.

Lemma pack_copy_exact_witness :
  exists out, @copy demo_hashes (read_exact_at demo_pack) (zlen demo_pack) true =
    Some (Ok (demo_pack_id, out)) /\ (true = true -> out = demo_pack).
Proof.
  apply (@pack_copy_exact demo_hashes demo_hashes_ok demo_pack true demo_pack_id).
  - apply bytes_check_ok. vm_compute. reflexivity.
  - vm_compute. discriminate.
  - exists [demo_frame].
    assert (@frame_ok demo_hashes demo_frame) as Hf.
    { split; [apply demo_metadata_ok|vm_compute; reflexivity]. }
    split; [vm_compute; reflexivity|]. split; [apply Forall_singleton; exact Hf|].
    split; [|vm_compute; reflexivity].
    intros _. apply Forall_singleton. split; [exact Hf|vm_compute; reflexivity].
Defined.

(** Reads of the demonstration pack that are in range; others fail. *)
Definition demo_reader : reader := fun offset n =>
  if (0 <=? offset) && (0 <=? n) then read_exact_at demo_pack offset n else Err Io.

(** The declared length is past the end, so the second record's read fails. *)
Lemma pack_copy_terminates_witness :
  @copy demo_hashes demo_reader 5000 true = Some (Err Io) /\
  exists r, @copy demo_hashes demo_reader 5000 true = Some r.
Proof.
  split; [vm_compute; reflexivity|].
  apply (@pack_copy_terminates demo_hashes demo_reader 5000 true).
  intros offset n b E. unfold demo_reader, read_exact_at in E.
  destruct (_ && _) eqn:Eg; [|discriminate]. inv_ok. bools. subst b.
  split; [rewrite zlen_slice; lia|apply is_bytes_slice, bytes_check_ok; vm_compute; reflexivity].
Defined.
