(* ===== verification/Backend.v ===== *)
(** The storage backend (src/src/storage/adapter.rs): object keys and their names,
    the root record, ranged reads and the conditional root.

    [StorageBackend] is the trait as a record of operations on a backend state;
    [BackendLaws] is the contract its documentation states, and [BackendLive] that
    reads of stored objects succeed. The in-memory backend of the source is
    modelled as [MemoryBackend] and satisfies both. *)

From S2P Require Import Prelude Domain Format Segment.
From stdpp Require Import base strings gmap list sorting.
From Stdlib Require Import ZArith Lia.
Open Scope Z_scope.

Definition MAX_BATCH_BYTES : Z := 64 * 1024 * 1024.
Definition MAX_ROOT_BYTES : Z := 64 * 1024.

(** ** Object keys *)

Inductive ObjectKey : Set :=
| Blob (id : Digest)
| Manifest (id : Digest)
| Dictionary (id : Digest)
| Index (id : Digest).

#[export] Instance ObjectKey_eq_dec : EqDecision ObjectKey.
Proof. solve_decision. Defined.
#[export] Instance ObjectKey_countable : Countable ObjectKey.
Proof.
  refine (inj_countable'
    (fun k => match k with Blob d => (0, d) | Manifest d => (1, d)
                         | Dictionary d => (2, d) | Index d => (3, d) end)
    (fun p => match p with (0, d) => Blob d | (1, d) => Manifest d
                         | (2, d) => Dictionary d | (_, d) => Index d end) _).
  by intros [].
Defined.

Definition DOT : Z := 46.

Definition key_id (k : ObjectKey) : Digest :=
  match k with Blob d | Manifest d | Dictionary d | Index d => d end.

Definition key_extension (k : ObjectKey) : bytes :=
  match k with
  | Blob _ => ascii "blob"
  | Manifest _ => ascii "segment"
  | Dictionary _ => ascii "dict"
  | Index _ => ascii "index"
  end.

Definition ObjectKey_name (k : ObjectKey) : bytes := hex (key_id k) ++ [DOT] ++ key_extension k.

(** [str::split_once] at a one-byte separator. *)
Fixpoint split_once (sep : Z) (v : bytes) : option (bytes * bytes) :=
  match v with
  | [] => None
  | c :: v' =>
      if c =? sep then Some ([], v')
      else match split_once sep v' with
           | Some (a, b) => Some (c :: a, b)
           | None => None
           end
  end.

Definition ObjectKey_parse (name : bytes) : result BackendError ObjectKey :=
  let* p := ok_or (split_once DOT name) BInvalidData in
  let* id := map_err (fun _ => BInvalidData) (parse_hex (fst p)) in
  if bytes_eqb (snd p) (ascii "blob") then Ok (Blob id)
  else if bytes_eqb (snd p) (ascii "segment") then Ok (Manifest id)
  else if bytes_eqb (snd p) (ascii "dict") then Ok (Dictionary id)
  else if bytes_eqb (snd p) (ascii "index") then Ok (Index id)
  else Err BInvalidData.

(** ** Root records *)

Definition Revision : Type := bytes.

Definition Revision_new (b : bytes) : result BackendError Revision :=
  fail_if (zlen b =? 0) || (256 <? zlen b) with BRange ;;
  Ok b.

Record RootRecord : Set := mkRoot { rr_revision : list Z; rr_bytes : bytes }.

Definition RootRecord_new (revision : Revision) (b : bytes) : result BackendError RootRecord :=
  fail_if MAX_ROOT_BYTES <? zlen b with BRange ;;
  Ok (mkRoot revision b).

Definition HEAD_MAGIC : bytes := ascii "ZHEAD001".

Section WithHashes.
Context `{Hashes}.

Definition from_file_bytes (b : bytes) : result BackendError RootRecord :=
  fail_if (zlen b <? 72) || (MAX_ROOT_BYTES + 72 <? zlen b)
          || negb (bytes_eqb (slice b 0 8) HEAD_MAGIC)
          || negb (bytes_eqb (blake3 (slice b 0 (zlen b - 32))) (slice b (zlen b - 32) (zlen b)))
    with BInvalidData ;;
  let* revision := Revision_new (slice b 8 40) in
  RootRecord_new revision (slice b 40 (zlen b - 32)).

(** What the filesystem backend writes to [catalog-head]. *)
Definition head_file (revision : Revision) (b : bytes) : bytes :=
  let encoded := HEAD_MAGIC ++ revision ++ b in
  encoded ++ blake3 encoded.

End WithHashes.

Inductive Publication : Set :=
| Applied (revision : list Z)
| Stale
| Uncertain.

(** ** Ranges *)

Record ObjectRange : Set := mkObjectRange { or_key : ObjectKey; or_range : StoredRange }.

Definition ObjectRange_new (key : ObjectKey) (r : StoredRange) : result BackendError ObjectRange :=
  fail_if sr_length r =? 0 with BRange ;;
  Ok (mkObjectRange key r).

Definition batch_total (requests : list ObjectRange) : result BackendError Z :=
  mfold (fun total r => ok_or (checked_add total (sr_length (or_range r))) BRange) 0 requests.

Definition check_batch (requests : list ObjectRange) : result BackendError unit :=
  fail_if (zlen requests =? 0) || (4096 <? zlen requests) with BRange ;;
  let* total := batch_total requests in
  fail_if MAX_BATCH_BYTES <? total with BRange ;;
  Ok tt.

(** ** The trait *)

Class StorageBackend (B : Type) : Type := {
  read_ranges : B -> list ObjectRange -> result BackendError (list bytes);
  stat : B -> ObjectKey -> result BackendError (option Z);
  read_root : B -> result BackendError (option RootRecord);
  backend_put : B -> ObjectKey -> bytes -> result BackendError unit * B;
  compare_exchange_root : B -> option Revision -> bytes -> result BackendError Publication * B;
  contents : B -> gmap ObjectKey bytes;
  root : B -> option RootRecord;
}.

(** [expected] is the revision of the current root. *)
Definition root_is `{StorageBackend B} (b : B) (expected : option Revision) : Prop :=
  option_map rr_revision (root b) = expected.

Class BackendLaws (B : Type) `{StorageBackend B} : Prop := {
  (** Results correspond one-for-one to requests with exact lengths. *)
  read_ranges_exact : forall b requests results,
    read_ranges b requests = Ok results ->
    Forall2 (fun r v => exists o, contents b !! or_key r = Some o /\
               sr_end (or_range r) <= zlen o /\
               v = slice o (sr_offset (or_range r)) (sr_end (or_range r))) requests results;
  stat_exact : forall b k n, stat b k = Ok n -> n = option_map zlen (contents b !! k);
  read_root_exact : forall b r, read_root b = Ok r -> r = root b;
  (** A successful put is durable, never replaces different bytes, and leaves every
      other object and the root alone; a failed one installs nothing else. *)
  put_ok : forall b k v b', backend_put b k v = (Ok tt, b') ->
    contents b' = <[k := v]> (contents b) /\ (forall o, contents b !! k = Some o -> o = v) /\
    root b' = root b;
  put_err : forall b k v e b', backend_put b k v = (Err e, b') ->
    (contents b' = contents b \/ contents b' = <[k := v]> (contents b) /\ contents b !! k = None) /\
    root b' = root b;
  (** Root publication is conditional on the expected revision. *)
  cas_applied : forall b expected v rev b',
    compare_exchange_root b expected v = (Ok (Applied rev), b') ->
    root_is b expected /\ root b' = Some (mkRoot rev v) /\ contents b' = contents b;
  cas_stale : forall b expected v b',
    compare_exchange_root b expected v = (Ok Stale, b') ->
    root b' = root b /\ contents b' = contents b;
  cas_other : forall b expected v r b',
    compare_exchange_root b expected v = (r, b') -> r = Ok Uncertain \/ (exists e, r = Err e) ->
    contents b' = contents b /\
    (root b' = root b \/ root_is b expected /\ exists rev, root b' = Some (mkRoot rev v));
}.

(** The root and stored objects can be read. *)
Class BackendLive (B : Type) `{StorageBackend B} : Prop := {
  read_root_live : forall b, read_root b = Ok (root b);
  stat_live : forall b k, stat b k = Ok (option_map zlen (contents b !! k));
  read_ranges_live : forall b requests,
    check_batch requests = Ok tt ->
    Forall (fun r => exists o, contents b !! or_key r = Some o /\
              sr_end (or_range r) <= zlen o) requests ->
    exists results, read_ranges b requests = Ok results;
}.

(** ** The in-memory backend

    Random revision tokens are drawn from a supply, the only source of freshness. *)

Record MemoryBackend : Set := mkMemory {
  mb_objects : gmap ObjectKey bytes;
  mb_root : option RootRecord;
  mb_nonce : nat;
}.

Definition nonce (n : nat) : bytes := le_bytes 32 (Z.of_nat n + 1).

Definition Memory_read_range (m : MemoryBackend) (r : ObjectRange) : result BackendError bytes :=
  let* b := ok_or (mb_objects m !! or_key r) BMissing in
  fail_if zlen b <? sr_end (or_range r) with BRange ;;
  Ok (slice b (sr_offset (or_range r)) (sr_end (or_range r))).

Definition Memory_read_ranges (m : MemoryBackend) (requests : list ObjectRange)
    : result BackendError (list bytes) :=
  let* _ := check_batch requests in
  mmap (Memory_read_range m) requests.

Definition Memory_stat (m : MemoryBackend) (k : ObjectKey) : result BackendError (option Z) :=
  Ok (option_map zlen (mb_objects m !! k)).

(** [put] streams into a writer and finishes it. *)
Definition Memory_put (m : MemoryBackend) (k : ObjectKey) (b : bytes)
    : result BackendError unit * MemoryBackend :=
  if zlen b =? 0 then (Err BRange, m)
  else match mb_objects m !! k with
       | Some existing => (if bytes_eqb existing b then Ok tt else Err BIdentityMismatch, m)
       | None => (Ok tt, mkMemory (<[k := b]> (mb_objects m)) (mb_root m) (mb_nonce m))
       end.

Definition Memory_compare_exchange_root (m : MemoryBackend) (expected : option Revision) (b : bytes)
    : result BackendError Publication * MemoryBackend :=
  if negb (bool_decide (option_map rr_revision (mb_root m) = expected)) then (Ok Stale, m)
  else match Revision_new (nonce (mb_nonce m)) with
       | Err e => (Err e, m)
       | Ok revision =>
           match RootRecord_new revision b with
           | Err e => (Err e, m)
           | Ok r => (Ok (Applied revision), mkMemory (mb_objects m) (Some r) (S (mb_nonce m)))
           end
       end.

#[export] Instance Memory_backend : StorageBackend MemoryBackend := {|
  read_ranges := Memory_read_ranges;
  stat := Memory_stat;
  read_root m := Ok (mb_root m);
  backend_put := Memory_put;
  compare_exchange_root := Memory_compare_exchange_root;
  contents := mb_objects;
  root := mb_root;
|}.

(** ** Lemmas *)

Lemma split_once_app sep a b :
  Forall (fun c => c <> sep) a -> split_once sep (a ++ sep :: b) = Some (a, b).
Proof.
  induction 1 as [|c a Hc Ha IH]; cbn [app split_once]; [by rewrite Z.eqb_refl|].
  rewrite (proj2 (Z.eqb_neq _ _) Hc). by rewrite IH.
Qed.

Lemma object_key_roundtrip_lemma k :
  digest_ok (key_id k) -> ObjectKey_parse (ObjectKey_name k) = Ok k.
Proof.
  intros Hd. pose proof Hd as [_ Hb]. unfold ObjectKey_parse, ObjectKey_name. cbn [app].
  rewrite split_once_app.
  - cbn [ok_or rbind fst snd]. rewrite parse_hex_hex by done. by destruct k.
  - eapply Forall_impl; [by apply hex_chars|]. unfold DOT. intros; lia.
Qed.

Lemma root_file_roundtrip_lemma {H : Hashes} {HOK : HashesOk H} revision b :
  zlen revision = 32 -> zlen b <= MAX_ROOT_BYTES ->
  from_file_bytes (head_file revision b) = Ok (mkRoot revision b).
Proof.
  intros Hr Hb. unfold from_file_bytes, head_file.
  set (e := HEAD_MAGIC ++ revision ++ b). pose proof (zlen_nonneg b).
  assert (zlen e = 40 + zlen b) as He by (subst e; rewrite !zlen_app, Hr; change (zlen HEAD_MAGIC) with 8; lia).
  rewrite zlen_app, blake3_length. replace (zlen e + 32 - 32) with (zlen e) by lia.
  assert (slice (e ++ blake3 e) 0 (zlen e) = e) as -> by (apply (slice_mid []); done).
  assert (slice (e ++ blake3 e) (zlen e) (zlen e + 32) = blake3 e) as ->.
  { rewrite <- (app_nil_r (blake3 e)) at 1. apply slice_mid; rewrite ?blake3_length; done. }
  assert (slice (e ++ blake3 e) 0 8 = HEAD_MAGIC) as ->.
  { subst e. rewrite <- !(assoc_L (++)). by apply (slice_mid []). }
  assert (slice (e ++ blake3 e) 8 40 = revision) as ->.
  { subst e. rewrite <- !(assoc_L (++)). apply slice_mid; [done|]. rewrite Hr. done. }
  assert (slice (e ++ blake3 e) 40 (zlen e) = b) as ->.
  { subst e. rewrite <- (assoc_L (++)), <- (assoc_L (++)), (assoc_L (++) HEAD_MAGIC).
    apply slice_mid; rewrite !zlen_app, ?Hr; change (zlen HEAD_MAGIC) with 8; lia. }
  rewrite !bytes_eqb_refl. unfold MAX_ROOT_BYTES in *.
  rewrite (proj2 (Z.ltb_ge (zlen e + 32) 72)), (proj2 (Z.ltb_ge _ (zlen e + 32))) by lia.
  cbn [negb orb]. unfold Revision_new, RootRecord_new. rewrite Hr. cbn [rbind Z.eqb Z.ltb Z.compare orb].
  unfold MAX_ROOT_BYTES. simpl. by rewrite (proj2 (Z.ltb_ge _ _)) by lia.
Qed.

#[export] Instance Memory_laws : BackendLaws MemoryBackend.
Proof.
  split; cbn [read_ranges stat read_root backend_put compare_exchange_root contents root Memory_backend].
  - intros b requests results E. unfold Memory_read_ranges in E. inv_ok. apply mmap_Ok in E.
    eapply Forall2_impl; [exact E|]. intros r v Hr. unfold Memory_read_range in Hr. inv_ok.
    exists a0. split; [done|]. split; [lia|done].
  - intros b k n E. unfold Memory_stat in E. by inv_ok.
  - intros b r E. by inv_ok.
  - intros b k v b' E. unfold Memory_put in E. destruct (zlen v =? 0); [done|].
    destruct (mb_objects b !! k) as [o|] eqn:Ek; inv_ok.
    + destruct (bytes_eqb o v) eqn:Eb; [|done]. apply bytes_eqb_true in Eb. subst.
      split_and!; [by rewrite insert_id|by intros ? [= ->]|done].
    + subst b'. split_and!; done.
  - intros b k v e b' E. unfold Memory_put in E. destruct (zlen v =? 0); [inv_ok; subst; auto|].
    destruct (mb_objects b !! k) as [o|] eqn:Ek; inv_ok; [subst; auto|done].
  - intros b expected v rev b' E. unfold Memory_compare_exchange_root in E.
    case_bool_decide; cbn [negb] in E; [|by inv_ok].
    destruct (Revision_new _) as [rv|]; [|by inv_ok].
    unfold RootRecord_new in E. destruct (_ <? zlen v); [by inv_ok|].
    inv_ok. simplify_eq. done.
  - intros b expected v b' E. unfold Memory_compare_exchange_root in E.
    case_bool_decide; cbn [negb] in E; [|by inv_ok; subst].
    destruct (Revision_new _) as [rv|]; [|by inv_ok].
    destruct (RootRecord_new _ _); by inv_ok.
  - intros b expected v r b' E Hr. unfold Memory_compare_exchange_root in E.
    case_bool_decide; cbn [negb] in E; [|inv_ok; subst; naive_solver].
    destruct (Revision_new _) as [rv|]; [|inv_ok; subst; auto].
    unfold RootRecord_new in E. destruct (_ <? zlen v); [inv_ok; subst; auto|].
    inv_ok. subst. naive_solver.
Qed.

#[export] Instance Memory_live : BackendLive MemoryBackend.
Proof.
  split; cbn [read_ranges read_root root stat contents Memory_backend].
  - done.
  - done.
  - intros b requests Hc Hr. unfold Memory_read_ranges. rewrite Hc. cbn [rbind].
    clear Hc. induction Hr as [|r l (o & Ho & He) Hl [results IH]]; [by eexists|].
    cbn [mmap]. unfold Memory_read_range at 1. rewrite Ho. cbn [ok_or rbind].
    rewrite (proj2 (Z.ltb_ge _ _)) by done. cbn [rbind]. rewrite IH. by eexists.
Qed.

(** ** Claims *)

(** An object's file name parses back to its key, and the names of distinct
    keys differ. *)
Theorem object_key_roundtrip k :
  digest_ok (key_id k) ->
  ObjectKey_parse (ObjectKey_name k) = Ok k /\
  forall k', digest_ok (key_id k') -> ObjectKey_name k' = ObjectKey_name k -> k' = k.
Proof.
  intros Hk. split; [by apply object_key_roundtrip_lemma|]. intros k' Hk' E.
  apply object_key_roundtrip_lemma in Hk, Hk'. rewrite E, Hk in Hk'. by inv_ok.
Qed.

Lemma object_key_roundtrip_witness :
  ObjectKey_parse (ObjectKey_name (Manifest (demo_digest 171))) = Ok (Manifest (demo_digest 171)).
Proof.
  apply (object_key_roundtrip (Manifest (demo_digest 171))).
  apply demo_digest_ok. unfold is_u8; lia.
Defined.

(** The [catalog-head] file is accepted exactly when it is the magic, a
    32-byte revision, a root record within its bound, and the digest of all of
    that; the record read is the one it carries. *)
Theorem root_file_canonical {H : Hashes} {HOK : HashesOk H} file r :
  from_file_bytes file = Ok r <->
  zlen (rr_revision r) = 32 /\ zlen (rr_bytes r) <= MAX_ROOT_BYTES /\
  file = head_file (rr_revision r) (rr_bytes r).
Proof.
  split.
  - intros E. unfold from_file_bytes in E. inv_ok. bools. unfold Revision_new in Hok. inv_ok. subst a.
    unfold RootRecord_new in E. inv_ok. subst r. cbn [rr_revision rr_bytes].
    match goal with H1 : bytes_eqb _ HEAD_MAGIC = true |- _ => apply bytes_eqb_true in H1; rename H1 into Hm end.
    match goal with H1 : bytes_eqb (blake3 _) _ = true |- _ => apply bytes_eqb_true in H1; rename H1 into Hd end.
    split; [rewrite zlen_slice; lia|]. split; [unfold MAX_ROOT_BYTES in *; lia|].
    unfold head_file. rewrite <- Hm, <- !slice_app_split by lia. rewrite Hd, <- slice_app_split by lia.
    symmetry. by apply slice_all.
  - intros (Hr & Hb & ->). rewrite root_file_roundtrip_lemma by done. by destruct r.
Qed.

(** The in-memory backend implements the storage contract the catalog and the
    placement reads rely on: exact ranged reads, puts that are durable and never
    replace different bytes, and a conditional root; and its reads succeed. *)
Theorem memory_backend_implements_contract :
  BackendLaws MemoryBackend /\ BackendLive MemoryBackend.
Proof. split; [apply Memory_laws|apply Memory_live]. Qed.

Lemma root_file_canonical_witness :
  @from_file_bytes demo_hashes (@head_file demo_hashes (demo_digest 3) [1; 2]) =
  Ok (mkRoot (demo_digest 3) [1; 2]).
Proof.
  apply (@root_file_canonical demo_hashes demo_hashes_ok
           (@head_file demo_hashes (demo_digest 3) [1; 2]) (mkRoot (demo_digest 3) [1; 2])).
  split; [reflexivity|]. split; [vm_compute; discriminate|reflexivity].
Defined.
