(* ===== verification/CatalogIndex.v ===== *)
(** Catalog indexes (src/src/storage/catalog.rs): immutable, log-structured index
    objects in a storage backend.

    An [Index] is a map whose persistent form is a chain of compressed records,
    newest first, each naming its parent; after [CHECKPOINT_DEPTH] records a flush
    writes the whole map instead. A [BTreeMap] is a [gmap] listed in key order. *)

From S2P Require Import Prelude Domain Layout Format Wire Segment Backend.
From stdpp Require Import base strings gmap list sorting.
From Stdlib Require Import ZArith Lia.
Open Scope Z_scope.

Definition INDEX_LIMIT : Z := 64 * 1024 * 1024.
Definition MAX_DEPTH : Z := 64.
Definition CHECKPOINT_DEPTH : Z := 16.
Definition INDEX_MAGIC : bytes := ascii "ZINDEX01".

Definition backend {A} (c : result BackendError A) : result StoreError A := map_err Domain.Backend c.

(** Iteration of a [BTreeMap] in key order. *)
Definition sorted_list {V} (m : gmap (list Z) V) : list (list Z * V) :=
  isort (fun a b => digest_leb a.1 b.1) (map_to_list m).

(** ** Reads and writes of whole objects *)

Section Access.
Context `{StorageBackend B}.

Definition read_range (b : B) (key : ObjectKey) (r : StoredRange) : result StoreError bytes :=
  if sr_length r =? 0 then Ok []
  else
    let* request := backend (ObjectRange_new key r) in
    let* batch := backend (read_ranges b [request]) in
    match batch with
    | [v] => if zlen v =? sr_length r then Ok v else Err (Domain.Backend BInvalidData)
    | _ => Err (Domain.Backend BInvalidData)
    end.

(** The chunked loop of [read_all] (native chunk size); [None] means out of fuel. *)
Fixpoint read_chunks (fuel : nat) (b : B) (key : ObjectKey) (length offset : Z) (acc : bytes)
    : option (result StoreError bytes) :=
  if length <=? offset then Some (Ok acc)
  else match fuel with
       | O => None
       | S fuel' =>
           let count := Z.min (length - offset) MAX_BATCH_BYTES in
           match (let* r := value (StoredRange_new offset count) in read_range b key r) with
           | Err e => Some (Err e)
           | Ok v => read_chunks fuel' b key length (offset + count) (acc ++ v)
           end
       end.

(** One chunk per 64 MiB, and one more: enough fuel for any length. *)
Definition read_fuel (length : Z) : nat := S (Z.to_nat (length / MAX_BATCH_BYTES)).

Definition read_all (b : B) (key : ObjectKey) (limit : Z) : result StoreError bytes :=
  let* n := backend (stat b key) in
  let* length := ok_or n (Domain.Backend BMissing) in
  fail_if (length =? 0) || (limit <? length) with Range ;;
  match read_chunks (read_fuel length) b key length 0 [] with
  | Some r => r
  | None => Err Range
  end.

Definition put_bytes (b : B) (key : ObjectKey) (v : bytes) : result StoreError unit * B :=
  let '(r, b') := backend_put b key v in (backend r, b').

End Access.

(** ** Index records *)

Definition read_id : dm Decoder (option Digest) :=
  do tag <- wire_u8 ;;
  if tag =? 0 then dret None
  else if tag =? 1 then do id <- wire_array 32 ;; dret (Some id)
  else dlift (Err (Corrupt 0)).

Definition write_id (id : option Digest) : bytes :=
  match id with Some d => [1] ++ d | None => [0] end.

Definition item : Type := list Z * option bytes.

Definition encode_item (i : item) : bytes :=
  u32_bytes (zlen i.1) ++ i.1 ++
  match i.2 with Some v => [1] ++ u32_bytes (zlen v) ++ v | None => [0] end.

Definition decode_value : dm Decoder (option bytes) :=
  do tag <- wire_u8 ;;
  if tag =? 0 then dret None
  else if tag =? 1 then
    do length <- wire_u32 ;;
    do v <- wire_take length ;;
    dret (Some v)
  else dlift (Err (Corrupt 0)).

(** The loop over the declared count; keys must increase strictly. *)
Fixpoint decode_items (n : nat) (previous : option (list Z)) : dm Decoder (list item) :=
  match n with
  | O => dret []
  | S n' =>
      do key_length <- wire_u32 ;;
      do _ <- dfail_if ((key_length =? 0) || (256 <? key_length)) Range ;;
      do key <- wire_take key_length ;;
      do _ <- dfail_if (match previous with Some p => digest_leb key p | None => false end)
                (Corrupt 0) ;;
      do v <- decode_value ;;
      do rest <- decode_items n' (Some key) ;;
      dret ((key, v) :: rest)
  end.

Definition decode_record (raw_len : Z) : dm Decoder (option Digest * list item) :=
  do next <- read_id ;;
  do count <- wire_u32 ;;
  do _ <- dfail_if (raw_len / 9 <? count) Range ;;
  do items <- decode_items (Z.to_nat count) None ;;
  dret (next, items).

(** One whole record: decoded and finished. *)
Definition open_record (raw : bytes) : result StoreError (option Digest * list item) :=
  let* p := decode_record (zlen raw) (Decoder_new raw) in
  let* _ := Decoder_finish (snd p) in
  Ok (fst p).

Definition encode_record (parent : option Digest) (items : list item) : bytes :=
  write_id parent ++ u32_bytes (zlen items) ++ concat (map encode_item items).

(** [resolved.entry(key).or_insert(value)] *)
Definition or_insert (m : gmap (list Z) (option bytes)) (i : item) : gmap (list Z) (option bytes) :=
  match m !! i.1 with Some _ => m | None => <[i.1 := i.2]> m end.

(** ** Indexes *)

Record Index : Type := mkIndex {
  ix_head : option Digest;
  ix_objects : gset (list Z);
  ix_entries : gmap (list Z) bytes;
  ix_dirty : gmap (list Z) (option bytes);
  ix_depth : Z;
}.

Definition Index_default : Index := mkIndex None ∅ ∅ ∅ 0.

Section Indexes.
Context `{Hashes, ZstdLib, StorageBackend B}.

(** The loop of [load]: one record per step, at most [MAX_DEPTH]. *)
Fixpoint load_chain (fuel : nat) (b : B) (next : option Digest) (objects : gset (list Z))
    (resolved : gmap (list Z) (option bytes)) (decoded_bytes depth : Z)
    : result StoreError (gset (list Z) * gmap (list Z) (option bytes) * Z) :=
  match next with
  | None => Ok (objects, resolved, depth)
  | Some id =>
      fail_if (MAX_DEPTH <=? depth) || bool_decide (id ∈ objects) with Range ;;
      match fuel with
      | O => Err Range
      | S fuel' =>
          let* v := read_all b (Backend.Index id) INDEX_LIMIT in
          fail_if negb (bytes_eqb (blake3 v) id) with Corrupt 0 ;;
          let* raw := open_envelope INDEX_MAGIC v (INDEX_LIMIT - decoded_bytes) in
          let* record := open_record raw in
          load_chain fuel' b (fst record) ({[id]} ∪ objects)
            (fold_left or_insert (snd record) resolved) (decoded_bytes + zlen raw) (depth + 1)
      end
  end.

Definition Index_load (b : B) (head : option Digest) : result StoreError Index :=
  let* p := load_chain (Z.to_nat MAX_DEPTH) b head ∅ ∅ 0 0 in
  let '(objects, resolved, depth) := p in
  Ok (mkIndex head objects (omap id resolved) ∅ depth).

Definition Index_insert (ix : Index) (key v : bytes) : Index :=
  if bool_decide (ix_entries ix !! key = Some v) then ix
  else mkIndex (ix_head ix) (ix_objects ix) (<[key := v]> (ix_entries ix))
         (<[key := Some v]> (ix_dirty ix)) (ix_depth ix).

Definition Index_remove (ix : Index) (key : bytes) : Index :=
  match ix_entries ix !! key with
  | None => ix
  | Some _ => mkIndex (ix_head ix) (ix_objects ix) (delete key (ix_entries ix))
                (<[key := None]> (ix_dirty ix)) (ix_depth ix)
  end.

Definition flush_records (ix : Index) (checkpoint : bool) : list item :=
  if checkpoint then map (fun p => (p.1, Some p.2)) (sorted_list (ix_entries ix))
  else sorted_list (ix_dirty ix).

Definition item_fits (i : item) : bool :=
  negb (zlen i.1 =? 0) && (zlen i.1 <=? 256) &&
  match i.2 with Some v => zlen v <=? U32_MAX | None => true end.

Definition flush_checkpoint (ix : Index) : bool :=
  bool_decide (ix_head ix = None) || (CHECKPOINT_DEPTH <=? ix_depth ix).

Definition Index_flush (b : B) (ix : Index) : result StoreError Index * B :=
  if bool_decide (ix_dirty ix = ∅) && (ix_depth ix <? CHECKPOINT_DEPTH) then (Ok ix, b)
  else
    let checkpoint := flush_checkpoint ix in
    let records := flush_records ix checkpoint in
    if U32_MAX <? zlen records then (Err Range, b)
    else if negb (forallb item_fits records) then (Err Range, b)
    else
      let raw := encode_record (if checkpoint then None else ix_head ix) records in
      if INDEX_LIMIT <? zlen raw then (Err Range, b)
      else
        match envelope INDEX_MAGIC raw with
        | Err e => (Err e, b)
        | Ok v =>
            let id := blake3 v in
            match put_bytes b (Backend.Index id) v with
            | (Err e, b') => (Err e, b')
            | (Ok _, b') =>
                let objects := if checkpoint then ∅ else ix_objects ix in
                let depth := if checkpoint then 0 else ix_depth ix in
                (Ok (mkIndex (Some id) ({[id]} ∪ objects) (ix_entries ix) ∅ (depth + 1)), b')
            end
        end.

End Indexes.

(** ** The abstract index: a chain of records and the map it resolves to *)

Record link : Type := mkLink { lk_id : Digest; lk_raw : bytes; lk_items : list item }.

(** [chain objects head links]: following the parents from [head] reads [links]. *)
Inductive chain `{Hashes, ZstdLib} (objects : gmap ObjectKey bytes)
    : option Digest -> list link -> Prop :=
| chain_nil : chain objects None []
| chain_cons id v raw parent items links :
    objects !! Backend.Index id = Some v ->
    blake3 v = id -> 1 <= zlen v <= INDEX_LIMIT ->
    open_envelope INDEX_MAGIC v INDEX_LIMIT = Ok raw ->
    open_record raw = Ok (parent, items) ->
    chain objects parent links ->
    chain objects (Some id) (mkLink id raw items :: links).

(** The newest record that mentions a key decides it. *)
Definition resolve_from (m : gmap (list Z) (option bytes)) (links : list link)
    : gmap (list Z) (option bytes) :=
  fold_left (fun m l => fold_left or_insert (lk_items l) m) links m.
Definition resolve : list link -> gmap (list Z) (option bytes) := resolve_from ∅.

Definition chain_bytes (links : list link) : Z := foldr (fun l n => zlen (lk_raw l) + n) 0 links.

(** An index in memory: its persistent chain with the unflushed changes applied. *)
Definition index_ok `{Hashes, ZstdLib} (objects : gmap ObjectKey bytes) (ix : Index) : Prop :=
  exists links, chain objects (ix_head ix) links /\
    ix_objects ix = list_to_set (map lk_id links) /\ ix_depth ix = zlen links /\
    forall k, ix_entries ix !! k =
      match ix_dirty ix !! k with Some v => v | None => mjoin (resolve links !! k) end.

(** ** Lemmas *)

Lemma backend_Ok {A} (c : result BackendError A) a : backend c = Ok a <-> c = Ok a.
Proof. apply map_err_Ok. Qed.

(** *** Sorted listings *)

Section SortedList.
Context {V : Type}.
Implicit Types m : gmap (list Z) V.

Lemma sorted_list_perm m : sorted_list m ≡ₚ map_to_list m.
Proof. apply isort_perm. Qed.

Lemma sorted_list_elem m k v : (k, v) ∈ sorted_list m <-> m !! k = Some v.
Proof. rewrite sorted_list_perm. apply elem_of_map_to_list. Qed.

Lemma sorted_list_NoDup m : NoDup (map fst (sorted_list m)).
Proof.
  assert (map fst (sorted_list m) ≡ₚ map fst (map_to_list m)) as ->
    by (apply Permutation_map, sorted_list_perm).
  apply NoDup_fst_map_to_list.
Qed.

Lemma sorted_list_sorted m :
  StronglySorted (fun a b => digest_leb a.1 b.1 = true) (sorted_list m).
Proof.
  apply isort_sorted.
  - intros. apply digest_leb_total.
  - intros a b c. apply digest_leb_trans.
Qed.
End SortedList.

(** Strictly increasing keys, as a listing without duplicates has. *)
Definition increasing {V} (l : list (list Z * V)) : Prop :=
  StronglySorted (fun a b => digest_leb b.1 a.1 = false) l.

Lemma digest_leb_antisym a b : digest_leb a b = true -> digest_leb b a = true -> a = b.
Proof.
  unfold digest_leb. rewrite (digest_compare_antisym a b).
  destruct (digest_compare a b) eqn:E; simpl; try done. intros _ _. by apply digest_compare_eq.
Qed.

Lemma sorted_increasing {V} (l : list (list Z * V)) :
  StronglySorted (fun a b => digest_leb a.1 b.1 = true) l -> NoDup (map fst l) -> increasing l.
Proof.
  induction 1 as [|a l Hl IH Ha]; intros Hnd; [constructor|].
  cbn [map] in Hnd. apply NoDup_cons in Hnd as [Hn Hnd]. constructor; [by apply IH|].
  rewrite Forall_forall in *. intros b Hb. apply not_true_iff_false. intros Hba.
  apply Hn. assert (a.1 = b.1) as -> by (apply digest_leb_antisym; auto).
  by apply list_elem_of_fmap_2.
Qed.

(** *** Record codec *)

Lemma reads_id id : (forall d, id = Some d -> digest_ok d) -> reads read_id (write_id id) id.
Proof.
  intros Hd. unfold read_id, write_id. destruct id as [d|].
  - eapply reads_bind; [apply reads_u8; unfold is_u8; lia|]. cbn [Z.eqb Pos.eqb].
    eapply reads_bind_end; [by apply reads_digest, Hd|]. apply reads_ret.
  - eapply reads_bind_end; [apply reads_u8; unfold is_u8; lia|]. apply reads_ret.
Qed.

Definition item_ok (i : item) : Prop :=
  1 <= zlen i.1 <= 256 /\ is_bytes i.1 /\
  match i.2 with Some v => zlen v <= U32_MAX /\ is_bytes v | None => True end.

Lemma reads_value v :
  (forall w, v = Some w -> zlen w <= U32_MAX /\ is_bytes w) ->
  reads decode_value (match v with Some w => [1] ++ u32_bytes (zlen w) ++ w | None => [0] end) v.
Proof.
  intros Hv. unfold decode_value. destruct v as [w|].
  - destruct (Hv w eq_refl) as [Hl Hb].
    eapply reads_bind; [apply reads_u8; unfold is_u8; lia|]. cbn [Z.eqb Pos.eqb].
    eapply reads_bind.
    { apply reads_u32. pose proof (zlen_nonneg w). unfold is_u32, U32_MAX in *. lia. }
    eapply reads_bind_end; [by apply reads_exact|]. apply reads_ret.
  - eapply reads_bind_end; [apply reads_u8; unfold is_u8; lia|]. apply reads_ret.
Qed.

Lemma reads_items l previous :
  Forall item_ok l -> increasing l ->
  (forall p i, previous = Some p -> i ∈ l -> digest_leb i.1 p = false) ->
  reads (decode_items (length l) previous) (concat (map encode_item l)) l.
Proof.
  revert previous; induction l as [|[k v] l IH]; intros previous Hok Hinc Hp; [apply reads_ret|].
  inversion Hok as [|? ? (Hk & Hkb & Hv) Hok']; subst. inversion Hinc as [|? ? Hinc' Hall]; subst.
  cbn [fst snd] in *. cbn [length decode_items map concat]. unfold encode_item at 1. cbn [fst snd].
  rewrite <- !(assoc_L (++)).
  eapply reads_bind; [apply reads_u32; unfold is_u32; lia|].
  apply reads_guard; [apply orb_false_iff; lia|].
  eapply reads_bind; [by apply reads_exact|].
  apply reads_guard; [destruct previous; [|done]; by apply (Hp _ (k, v)); [|left]|].
  eapply reads_bind; [apply reads_value; by intros w ->|].
  eapply reads_bind_end; [|apply reads_ret]. apply IH; [done|done|].
  intros p i [= <-] Hi. rewrite Forall_forall in Hall. by apply (Hall i).
Qed.

Lemma reads_record parent items :
  (forall d, parent = Some d -> digest_ok d) -> Forall item_ok items -> increasing items ->
  zlen items <= U32_MAX -> 9 * zlen items <= zlen (encode_record parent items) ->
  reads (decode_record (zlen (encode_record parent items))) (encode_record parent items) (parent, items).
Proof.
  intros Hp Hok Hinc Hn H9. unfold decode_record. unfold encode_record at 2.
  pose proof (zlen_nonneg items).
  eapply reads_bind; [by apply reads_id|].
  eapply reads_bind; [apply reads_u32; unfold is_u32, U32_MAX in *; lia|].
  apply reads_guard.
  { apply Z.ltb_ge. apply Z.div_le_lower_bound; lia. }
  eapply reads_bind_end; [|apply reads_ret].
  replace (Z.to_nat (zlen items)) with (length items) by (unfold zlen; lia).
  by apply reads_items.
Qed.

Lemma is_bytes_encode_record parent items :
  (forall d, parent = Some d -> digest_ok d) -> Forall item_ok items ->
  is_bytes (encode_record parent items).
Proof.
  intros Hp Hok. unfold encode_record, u32_bytes. rewrite !Forall_app. split_and!; auto with bytedb.
  - destruct parent as [d|]; simpl; repeat constructor; unfold is_u8; try lia. by apply Hp.
  - induction Hok as [|i l (_ & Hk & Hv) Hl IH]; [constructor|]. cbn [map concat].
    unfold encode_item, u32_bytes. rewrite !Forall_app. split_and!; auto with bytedb.
    destruct i.2; (constructor; [unfold is_u8; lia|]); [|constructor].
    apply Forall_app. split; auto with bytedb. apply Hv.
Qed.

Lemma open_record_run parent items :
  (forall d, parent = Some d -> digest_ok d) -> Forall item_ok items -> increasing items ->
  zlen items <= U32_MAX -> 9 * zlen items <= zlen (encode_record parent items) ->
  zlen (encode_record parent items) <= U64_MAX ->
  open_record (encode_record parent items) = Ok (parent, items).
Proof.
  intros Hp Hok Hinc Hn H9 Hl. unfold open_record.
  destruct (reads_whole _ _ _ (reads_record parent items Hp Hok Hinc Hn H9)) as (d & E & Hf).
  - done.
  - by apply is_bytes_encode_record.
  - rewrite E. cbn [rbind fst snd]. by rewrite Hf.
Qed.

(** *** Resolution *)

Lemma or_insert_lookup m i k :
  or_insert m i !! k =
  match m !! k with Some v => Some v | None => if decide (i.1 = k) then Some i.2 else None end.
Proof.
  unfold or_insert. destruct (m !! i.1) eqn:E.
  - destruct (m !! k) eqn:Ek; [done|]. destruct (decide (i.1 = k)) as [<-|]; [congruence|done].
  - destruct (decide (i.1 = k)) as [<-|Hne].
    + by rewrite lookup_insert, E, decide_True.
    + rewrite lookup_insert_ne by done. by destruct (m !! k).
Qed.

Lemma or_insert_all_Some l m k v : m !! k = Some v -> fold_left or_insert l m !! k = Some v.
Proof.
  revert m; induction l as [|i l IH]; intros m Hm; simpl; [done|]. apply IH.
  by rewrite or_insert_lookup, Hm.
Qed.

(** A record without duplicate keys inserts exactly its items where absent. *)
Lemma or_insert_all_lookup l m k :
  NoDup (map fst l) ->
  fold_left or_insert l m !! k =
  match m !! k with
  | Some v => Some v
  | None => (list_to_map l : gmap (list Z) (option bytes)) !! k
  end.
Proof.
  revert m; induction l as [|[k' v'] l IH]; intros m Hnd; simpl.
  { rewrite lookup_empty. by destruct (m !! k). }
  cbn [map] in Hnd. apply NoDup_cons in Hnd as [Hn Hnd]. rewrite IH by done.
  rewrite or_insert_lookup. cbn [fst snd]. destruct (m !! k) eqn:Em; [done|].
  destruct (decide (k' = k)) as [<-|Hne].
  - by rewrite lookup_insert, decide_True.
  - by rewrite lookup_insert_ne.
Qed.

Lemma resolve_from_lookup links m k :
  resolve_from m links !! k =
  match m !! k with Some v => Some v | None => resolve links !! k end.
Proof.
  revert m; induction links as [|l links IH]; intros m; simpl.
  { unfold resolve; simpl. rewrite lookup_empty. by destruct (m !! k). }
  unfold resolve. cbn [resolve_from fold_left]. fold (resolve_from (fold_left or_insert (lk_items l) m) links).
  fold (resolve_from (fold_left or_insert (lk_items l) ∅) links). rewrite !IH.
  assert (forall m', fold_left or_insert (lk_items l) m' !! k =
    match m' !! k with Some v => Some v | None => fold_left or_insert (lk_items l) ∅ !! k end) as Hl.
  { clear. intros m'. generalize (lk_items l) as its. intros its.
    destruct (m' !! k) eqn:E; [by apply or_insert_all_Some|].
    assert (forall (a b : gmap (list Z) (option bytes)), a !! k = b !! k ->
      fold_left or_insert its a !! k = fold_left or_insert its b !! k) as Hc.
    { induction its as [|i its IH]; intros a b Hab; simpl; [done|]. apply IH.
      rewrite !or_insert_lookup. by rewrite Hab. }
    apply Hc. by rewrite E, lookup_empty. }
  rewrite Hl. by destruct (m !! k).
Qed.

Lemma resolve_cons l links k :
  NoDup (map fst (lk_items l)) ->
  resolve (l :: links) !! k =
  match (list_to_map (lk_items l) : gmap (list Z) (option bytes)) !! k with
  | Some v => Some v
  | None => resolve links !! k
  end.
Proof.
  intros Hnd. unfold resolve at 1. cbn [resolve_from fold_left].
  fold (resolve_from (fold_left or_insert (lk_items l) ∅) links).
  rewrite resolve_from_lookup, or_insert_all_lookup by done. by rewrite lookup_empty.
Qed.

Lemma sorted_list_to_map {V} (m : gmap (list Z) V) : list_to_map (sorted_list m) = m.
Proof.
  rewrite <- (list_to_map_to_list m) at 2. apply list_to_map_proper.
  - apply sorted_list_NoDup.
  - apply sorted_list_perm.
Qed.

(** *** Chains *)

Section Chains.
Context {H : Hashes} {HOK : HashesOk H} {Z0 : ZstdLib} {ZOK : ZstdOk Z0}.

Lemma chain_functional objects head l1 l2 :
  chain objects head l1 -> chain objects head l2 -> l1 = l2.
Proof.
  intros H1. revert l2; induction H1 as [|id v raw parent items links Hv Hid Hl Ho Hr Hc IH];
    intros l2 H2; inversion H2 as [|? v2 raw2 parent2 items2 links2 Hv2 _ _ Ho2 Hr2 Hc2]; subst; [done|].
  rewrite Hv in Hv2. injection Hv2 as <-. rewrite Ho in Ho2. apply Ok_inj in Ho2. subst raw2.
  rewrite Hr in Hr2. apply Ok_inj, pair_equal_spec in Hr2 as [-> ->].
  by rewrite (IH links2 Hc2).
Qed.

(** Every object of a chain heads the rest of it. *)
Lemma chain_suffix objects head links l :
  chain objects head links -> l ∈ links ->
  exists pre post, links = pre ++ l :: post /\ chain objects (Some (lk_id l)) (l :: post).
Proof.
  induction 1 as [|id v raw parent items links Hv Hid Hl Ho Hr Hc IH]; [by intros ?%elem_of_nil|].
  intros [->|Hin]%elem_of_cons.
  - exists [], links. split; [done|]. by econstructor.
  - destruct (IH Hin) as (pre & post & -> & Hp). by exists (mkLink id raw items :: pre), post.
Qed.

Lemma chain_NoDup objects head links : chain objects head links -> NoDup (map lk_id links).
Proof.
  induction 1 as [|id v raw parent items links Hv Hid Hl Ho Hr Hc IH]; [constructor|].
  cbn [map lk_id]. apply NoDup_cons. split; [|done]. intros (l & Hl' & Hin)%list_elem_of_fmap.
  destruct (chain_suffix _ _ _ _ Hc Hin) as (pre & post & Epp & Hp).
  assert (chain objects (Some id) (mkLink id raw items :: links)) as Hfull by (by econstructor).
  rewrite Hl' in Hfull. pose proof (chain_functional _ _ _ _ Hfull Hp) as E.
  injection E as _ E. apply (f_equal length) in E, Epp. rewrite length_app in Epp. simpl in Epp. lia.
Qed.

Lemma chain_mono objects objects' head links :
  (forall id v, objects !! Backend.Index id = Some v -> objects' !! Backend.Index id = Some v) ->
  chain objects head links -> chain objects' head links.
Proof. intros Hsub. induction 1; [constructor|]. econstructor; eauto. Qed.

(** Opening with any limit that admits the content gives the same content. *)
Lemma envelope_fields_limit magic l1 l2 n d len hash c d' :
  envelope_fields magic l1 n d = Ok (len, hash, c, d') -> len <= l2 ->
  envelope_fields magic l2 n d = Ok (len, hash, c, d').
Proof.
  intros E Hl. unfold envelope_fields, dbind in *. inv_ok. rewrite Hok. cbn [rbind].
  rewrite Hok0. cbn [rbind]. rewrite Hok1. cbn [rbind].
  unfold dfail_if in Hok2 |- *. destruct (l1 <? fst a1); [done|]. apply Ok_inj in Hok2. subst a2.
  assert (a1.1 = len) as Hlen by (unfold dret in E; inv_ok; done).
  rewrite (proj2 (Z.ltb_ge _ _)) by lia. cbn [rbind]. rewrite Hok3. cbn [rbind].
  rewrite Hok4. cbn [rbind]. rewrite Hok5. exact E.
Qed.

Lemma open_envelope_limit magic v l1 l2 raw :
  open_envelope magic v l1 = Ok raw -> zlen raw <= l2 -> open_envelope magic v l2 = Ok raw.
Proof.
  intros E Hr. unfold open_envelope in *. inv_ok. destruct a as [[[len hash] c] d]. cbn [fst] in *.
  assert (zlen raw = len) as Hlen.
  { clear Hok. inv_ok. subst. apply orb_false_iff in Hguard as [G1 _]. bools. lia. }
  rewrite (envelope_fields_limit _ _ l2 _ _ _ _ _ _ Hok) by lia. exact E.
Qed.

Lemma open_envelope_bound magic v limit raw :
  open_envelope magic v limit = Ok raw -> zlen raw <= limit.
Proof.
  intros E. unfold open_envelope in E. inv_ok. destruct a as [[[len hash] c] d]. cbn [fst] in *.
  inv_ok. subst. apply orb_false_iff in Hguard as [G1 _]. bools.
  unfold envelope_fields, dbind in Hok. inv_ok.
  unfold dfail_if in Hok4. destruct (limit <? fst a1) eqn:El; [done|].
  unfold dret in Hok. inv_ok. lia.
Qed.

(** *** Whole-object reads *)

Context {B : Type} `{BE : StorageBackend B} `{BL : !BackendLaws B} `{BV : !BackendLive B}.

Lemma read_range_exact (b : B) key r v :
  0 < sr_length r -> sr_end r = sr_offset r + sr_length r -> 0 <= sr_offset r ->
  read_range b key r = Ok v ->
  exists o, contents b !! key = Some o /\ sr_end r <= zlen o /\ v = slice o (sr_offset r) (sr_end r).
Proof.
  intros Hl He Ho E. unfold read_range in E. rewrite (proj2 (Z.eqb_neq _ _)) in E by lia. inv_ok.
  apply backend_Ok in Hok. unfold ObjectRange_new in Hok. inv_ok. subst a.
  apply backend_Ok in Hok0. apply read_ranges_exact in Hok0.
  inversion Hok0 as [|? ? ? l (o & H1 & H2 & H3) Hn]; subst. inversion Hn; subst.
  cbn [or_key or_range] in *. destruct (zlen _ =? _); [|done]. inv_ok. by exists o.
Qed.

Lemma read_range_live (b : B) key o r :
  0 < sr_length r <= MAX_BATCH_BYTES -> sr_end r = sr_offset r + sr_length r -> 0 <= sr_offset r ->
  contents b !! key = Some o -> sr_end r <= zlen o ->
  read_range b key r = Ok (slice o (sr_offset r) (sr_end r)).
Proof.
  intros Hl He Ho Hk Hle. unfold read_range, ObjectRange_new.
  rewrite (proj2 (Z.eqb_neq _ _)) by lia. cbn [backend map_err rbind].
  destruct (read_ranges_live b [mkObjectRange key r]) as [results E].
  - unfold check_batch, batch_total. cbn [mfold or_range]. unfold MAX_BATCH_BYTES in Hl.
    rewrite (proj2 (checked_add_Some 0 (sr_length r) (sr_length r))) by (unfold U64_MAX; lia).
    change (zlen [mkObjectRange key r]) with 1. cbn [Z.eqb Z.ltb Z.compare orb ok_or rbind].
    unfold MAX_BATCH_BYTES. by rewrite (proj2 (Z.ltb_ge (64 * 1024 * 1024) _)) by lia.
  - constructor; [|constructor]. by exists o.
  - rewrite E. cbn [backend map_err rbind]. apply read_ranges_exact in E.
    inversion E as [|? v ? l (o' & H1 & H2 & H3) Hn]; subst. inversion Hn; subst.
    cbn [or_key or_range] in *. rewrite Hk in H1. injection H1 as <-.
    rewrite zlen_slice by lia. by rewrite (proj2 (Z.eqb_eq _ _)) by lia.
Qed.

Lemma read_chunks_exact fuel (b : B) key length offset acc v :
  0 <= offset <= length -> length <= U64_MAX ->
  read_chunks fuel b key length offset acc = Some (Ok v) ->
  v = acc /\ offset = length \/
  exists o, contents b !! key = Some o /\ length <= zlen o /\ v = acc ++ slice o offset length.
Proof.
  revert offset acc; induction fuel as [|fuel IH]; intros offset acc Ho Hlen E; cbn [read_chunks] in E;
    destruct (Z.leb_spec length offset); try done; try (injection E as <-; left; split; [done|lia]).
  assert (0 < MAX_BATCH_BYTES) by (unfold MAX_BATCH_BYTES; lia).
  remember (Z.min (length - offset) MAX_BATCH_BYTES) as count eqn:Hcount.
  destruct (rbind _ _) as [w|] eqn:Ew; [|by simplify_eq]. inv_all.
  apply StoredRange_new_spec in Hok as [-> Hm]. right.
  apply read_range_exact in Ew as (o & Hk & Hz & ->); cbn [sr_length sr_end sr_offset] in *; [|lia..].
  apply IH in E as [[-> <-]|(o' & Hk' & Hz' & ->)]; [| |lia|done].
  - exists o. split; [done|]. split; [lia|done].
  - exists o'. rewrite Hk in Hk'. injection Hk' as <-. split; [done|]. split; [done|].
    rewrite <- (assoc_L (++)). by rewrite <- slice_app_split by lia.
Qed.

Lemma read_chunks_live fuel (b : B) key length offset acc o :
  0 <= offset <= length -> length <= U64_MAX -> contents b !! key = Some o -> length <= zlen o ->
  length - offset <= Z.of_nat fuel * MAX_BATCH_BYTES ->
  read_chunks fuel b key length offset acc = Some (Ok (acc ++ slice o offset length)).
Proof.
  assert (0 < MAX_BATCH_BYTES) as HM by (unfold MAX_BATCH_BYTES; lia).
  revert offset acc; induction fuel as [|fuel IH]; intros offset acc Ho Hlen Hk Hz Hf; cbn [read_chunks];
    destruct (Z.leb_spec length offset); try (by rewrite slice_nil_ge, app_nil_r by lia); try lia.
  remember (Z.min (length - offset) MAX_BATCH_BYTES) as count eqn:Hcount.
  assert (offset + count <= U64_MAX) as Hm by lia.
  rewrite (proj2 (value_Ok _ _) (proj2 (StoredRange_new_spec offset count _) (conj eq_refl Hm))).
  cbn [rbind]. rewrite (read_range_live b key o) by (cbn [sr_length sr_end sr_offset]; (done || lia)).
  rewrite IH by (done || lia). cbn [sr_offset sr_end]. rewrite <- (assoc_L (++)).
  by rewrite <- slice_app_split by lia.
Qed.

Lemma read_all_exact (b : B) key limit v :
  limit <= U64_MAX -> read_all b key limit = Ok v ->
  contents b !! key = Some v /\ 1 <= zlen v <= limit.
Proof.
  intros Hlim E. unfold read_all in E. inv_ok. apply backend_Ok, stat_exact in Hok. subst a.
  destruct (contents b !! key) as [o|] eqn:Ek; [|done]. cbn [option_map] in *. inv_ok. subst a0.
  apply orb_false_iff in Hguard. pose proof (zlen_nonneg o).
  destruct (read_chunks _ _ _ _ _ _) as [r|] eqn:Er; [|done]. subst r.
  apply read_chunks_exact in Er as [[-> ?]|(o' & Hk & Hz & ->)]; [lia| |lia|lia].
  rewrite Ek in Hk. injection Hk as <-. rewrite app_nil_l, slice_all by done. split; [done|lia].
Qed.

Lemma read_all_live (b : B) key limit v :
  limit <= U64_MAX -> contents b !! key = Some v -> 1 <= zlen v <= limit -> read_all b key limit = Ok v.
Proof.
  intros Hlim Hk Hl. unfold read_all. rewrite stat_live, Hk. cbn [backend map_err rbind option_map ok_or].
  rewrite (proj2 (orb_false_iff _ _)) by lia.
  rewrite (read_chunks_live _ b key (zlen v) 0 [] v); [|lia|lia|done|lia|].
  - by rewrite app_nil_l, slice_all.
  - unfold read_fuel. assert (0 < MAX_BATCH_BYTES) by (unfold MAX_BATCH_BYTES; lia).
    pose proof (Z.div_mod (zlen v) MAX_BATCH_BYTES ltac:(lia)).
    pose proof (Z.mod_pos_bound (zlen v) MAX_BATCH_BYTES ltac:(lia)).
    pose proof (Z.div_pos (zlen v) MAX_BATCH_BYTES ltac:(lia) ltac:(lia)). nia.
Qed.

(** *** Loading *)

Lemma load_chain_sound fuel (b : B) next objects resolved n depth objects' resolved' depth' :
  0 <= n ->
  load_chain fuel b next objects resolved n depth = Ok (objects', resolved', depth') ->
  exists links, chain (contents b) next links /\
    objects' = list_to_set (map lk_id links) ∪ objects /\
    resolved' = resolve_from resolved links /\ depth' = depth + zlen links /\
    (depth <= MAX_DEPTH -> depth' <= MAX_DEPTH).
Proof.
  revert next objects resolved n depth; induction fuel as [|fuel IH];
    intros next objects resolved n depth Hn E; cbn [load_chain] in E; destruct next as [id|].
  1,3: inv_ok; try done.
  2,3: inv_ok; subst; exists []; split_and!; [constructor|set_solver|done|rewrite zlen_nil; lia|lia].
  inv_ok. apply orb_false_iff in Hguard as [G1 G2]. bools. apply bytes_eqb_true in Hguard0.
  apply read_all_exact in Hok as [Hk Hl]; [|unfold INDEX_LIMIT, U64_MAX; lia].
  pose proof (zlen_nonneg a0). destruct a1 as [parent items].
  apply IH in E as (links & Hc & -> & -> & -> & Hd); [|lia].
  exists (mkLink id a0 items :: links). split_and!.
  - econstructor; try done. apply (open_envelope_limit _ _ _ _ _ Hok0).
    apply open_envelope_bound in Hok0. lia.
  - cbn [map lk_id list_to_set]. set_solver.
  - done.
  - rewrite zlen_cons. lia.
  - intros _. apply Hd. lia.
Qed.

Lemma load_chain_live fuel (b : B) next links objects resolved n depth :
  chain (contents b) next links -> 0 <= n ->
  (forall l, l ∈ links -> lk_id l ∉ objects) ->
  (length links <= fuel)%nat -> depth + zlen links <= MAX_DEPTH ->
  n + chain_bytes links <= INDEX_LIMIT ->
  load_chain fuel b next objects resolved n depth =
  Ok (list_to_set (map lk_id links) ∪ objects, resolve_from resolved links, depth + zlen links).
Proof.
  intros Hc. pose proof (chain_NoDup _ _ _ Hc) as Hnd. revert fuel objects resolved n depth Hnd.
  induction Hc as [|id v raw parent items links Hk Hid Hl Ho Hr Hc IH];
    intros fuel objects resolved n depth Hnd Hn Hobj Hf Hd Hb.
  { destruct fuel; cbn; rewrite (left_id_L ∅ (∪)), Z.add_0_r; done. }
  rewrite zlen_cons in *. pose proof (zlen_nonneg links). cbn [map lk_id chain_bytes foldr lk_raw] in *.
  fold (chain_bytes links) in Hb. apply NoDup_cons in Hnd as [Hni Hnd].
  assert (0 <= chain_bytes links) as Hcb.
  { clear. induction links as [|l links IH]; simpl; [lia|]. pose proof (zlen_nonneg (lk_raw l)).
    unfold chain_bytes in *. lia. }
  destruct fuel as [|fuel]; [simpl in Hf; lia|]. cbn [load_chain].
  rewrite (proj2 (orb_false_iff _ _)); [|split; [lia|]; apply bool_decide_eq_false; by apply (Hobj (mkLink id raw items)); left].
  rewrite (read_all_live b _ _ v) by (done || unfold INDEX_LIMIT, U64_MAX in *; lia). cbn [rbind].
  rewrite Hid, bytes_eqb_refl. cbn [negb].
  rewrite (open_envelope_limit _ _ _ (INDEX_LIMIT - n) _ Ho) by lia. cbn [rbind].
  rewrite Hr. cbn [rbind fst snd]. pose proof (zlen_nonneg raw).
  rewrite IH; try done; try lia.
  - cbn [list_to_set]. f_equal. f_equal; [f_equal; set_solver|lia].
  - intros l Hin. specialize (Hobj l ltac:(by right)).
    assert (lk_id l <> id); [|set_solver]. intros <-. apply Hni. by apply list_elem_of_fmap_2.
  - simpl in Hf. lia.
Qed.

(** Whatever an index load accepts is the chain of records that starts at the
    requested head, each stored under its own digest, without a cycle, within the
    depth limit, and the map they resolve to (the newest record of a key wins). *)
Theorem index_load_sound (b : B) head ix :
  Index_load b head = Ok ix ->
  ix_head ix = head /\ index_ok (contents b) ix /\ ix_dirty ix = ∅ /\ ix_depth ix <= MAX_DEPTH.
Proof.
  intros E. unfold Index_load in E. inv_ok. destruct a as [[objects resolved] depth]. inv_ok. subst ix.
  apply load_chain_sound in Hok as (links & Hc & -> & -> & -> & Hd); [|lia].
  cbn [ix_head ix_dirty ix_depth]. split_and!; try done; [|apply Hd; unfold MAX_DEPTH; lia].
  exists links. cbn [ix_head ix_objects ix_entries ix_dirty ix_depth].
  split_and!; try done; try lia; [set_solver|]. intros k. rewrite lookup_empty, lookup_omap.
  by unfold resolve.
Qed.

(** A clean index within the limits of [load] is reloaded exactly. *)
Definition index_fits (b : B) (ix : Index) : Prop :=
  forall links, chain (contents b) (ix_head ix) links ->
    zlen links <= MAX_DEPTH /\ chain_bytes links <= INDEX_LIMIT.

Lemma index_load_live_lemma (b : B) ix :
  index_ok (contents b) ix -> ix_dirty ix = ∅ -> index_fits b ix ->
  Index_load b (ix_head ix) = Ok ix.
Proof.
  intros (links & Hc & Ho & Hd & He) Hdirty Hfit. destruct (Hfit _ Hc) as [Hf1 Hf2].
  unfold Index_load. rewrite (load_chain_live _ b _ links); [|done|lia|set_solver| |lia|lia].
  2:{ unfold zlen, MAX_DEPTH in *. lia. }
  cbn [rbind]. destruct ix as [h o e d n]; cbn [ix_head ix_objects ix_entries ix_dirty ix_depth] in *.
  subst. f_equal. f_equal; [set_solver|].
  apply map_eq. intros k. rewrite lookup_omap, He, lookup_empty. by unfold resolve.
Qed.

(** *** Updates and flushes *)

Lemma index_insert_lemma objects ix key v :
  index_ok objects ix -> index_ok objects (Index_insert ix key v) /\
  ix_entries (Index_insert ix key v) = <[key := v]> (ix_entries ix).
Proof.
  intros (links & Hc & Ho & Hd & He). unfold Index_insert. case_bool_decide as Hk.
  - split; [by exists links|]. by rewrite insert_id.
  - split; [|done]. exists links. cbn [ix_head ix_objects ix_entries ix_dirty ix_depth].
    split_and!; try done. intros k. destruct (decide (key = k)) as [<-|Hne].
    + by rewrite !lookup_insert, !decide_True.
    + rewrite !lookup_insert_ne by done. apply He.
Qed.

Lemma index_remove_lemma objects ix key :
  index_ok objects ix -> index_ok objects (Index_remove ix key) /\
  ix_entries (Index_remove ix key) = delete key (ix_entries ix).
Proof.
  intros (links & Hc & Ho & Hd & He). unfold Index_remove.
  destruct (ix_entries ix !! key) eqn:Hk.
  - split; [|done]. exists links. cbn [ix_head ix_objects ix_entries ix_dirty ix_depth].
    split_and!; try done. intros k. destruct (decide (key = k)) as [<-|Hne].
    + by rewrite lookup_insert, decide_True, lookup_delete, decide_True.
    + rewrite lookup_insert_ne, lookup_delete_ne by done. apply He.
  - split; [by exists links|]. by rewrite delete_id.
Qed.

(** Keys, values and identities are byte strings, as the types of the code say. *)
Definition index_bytes (ix : Index) : Prop :=
  (forall k v, ix_entries ix !! k = Some v -> is_bytes k /\ is_bytes v) /\
  (forall k, is_Some (ix_dirty ix !! k) -> is_bytes k) /\
  (forall k v, ix_dirty ix !! k = Some (Some v) -> is_bytes v) /\
  (forall d, ix_head ix = Some d -> digest_ok d).

(** The bounds a reader of the flushed record applies and the writer does not. *)
Definition flush_fits (ix : Index) : Prop :=
  let records := flush_records ix (flush_checkpoint ix) in
  let raw := encode_record (if flush_checkpoint ix then None else ix_head ix) records in
  9 * zlen records <= zlen raw /\
  forall v, envelope INDEX_MAGIC raw = Ok v -> zlen v <= INDEX_LIMIT.

Lemma flush_records_ok ix :
  index_bytes ix -> forallb item_fits (flush_records ix (flush_checkpoint ix)) = true ->
  Forall item_ok (flush_records ix (flush_checkpoint ix)) /\
  increasing (flush_records ix (flush_checkpoint ix)).
Proof.
  intros (Hb1 & Hb2 & Hb3 & _) Hf. rewrite forallb_forall in Hf. split.
  - rewrite Forall_forall. intros [k v] Hin. pose proof (Hf (k, v) (proj1 (list_elem_of_In _ _) Hin)) as Hfit.
    unfold item_fits in Hfit. cbn [fst snd] in Hfit. unfold item_ok. cbn [fst snd].
    pose proof (zlen_nonneg k). assert (is_bytes k /\ (forall w, v = Some w -> is_bytes w)) as [Hk Hv].
    { unfold flush_records in Hin. destruct (flush_checkpoint ix).
      - apply list_elem_of_fmap in Hin as ([k' v'] & [= -> ->] & Hin). apply sorted_list_elem, Hb1 in Hin.
        split; [apply Hin|]. intros w [= <-]. apply Hin.
      - apply sorted_list_elem in Hin. split; [apply Hb2; by eexists|]. intros w ->. by eapply Hb3. }
    bools. split; [lia|]. split; [done|]. destruct v; [|done]. split; [lia|by apply Hv].
  - unfold flush_records. destruct (flush_checkpoint ix).
    + apply sorted_increasing.
      * generalize (sorted_list_sorted (ix_entries ix)). generalize (sorted_list (ix_entries ix)) as l.
        induction 1 as [|a l Hl IH Ha]; cbn [map]; constructor; [done|].
        apply Forall_fmap. eapply Forall_impl; [exact Ha|done].
      * generalize (sorted_list_NoDup (ix_entries ix)). by rewrite map_map.
    + apply sorted_increasing; [apply sorted_list_sorted|apply sorted_list_NoDup].
Qed.

Lemma increasing_NoDup {V} (l : list (list Z * V)) : increasing l -> NoDup (map fst l).
Proof.
  induction 1 as [|a l Hl IH Ha]; cbn [map]; [constructor|]. apply NoDup_cons. split; [|done].
  intros (b & Hb & Hin)%list_elem_of_fmap. rewrite Forall_forall in Ha. specialize (Ha b Hin).
  rewrite Hb in Ha. destruct (digest_leb_total b.1 b.1); congruence.
Qed.

(** The entries a flushed record resolves to are the entries in memory. *)
Lemma flush_resolves ix id raw links k :
  (forall k, ix_entries ix !! k =
     match ix_dirty ix !! k with Some v => v | None => mjoin (resolve links !! k) end) ->
  NoDup (map fst (flush_records ix (flush_checkpoint ix))) ->
  ix_entries ix !! k =
  mjoin (resolve (mkLink id raw (flush_records ix (flush_checkpoint ix)) ::
                  if flush_checkpoint ix then [] else links) !! k).
Proof.
  intros He Hnd. rewrite resolve_cons by done. cbn [lk_items]. unfold flush_records in *.
  destruct (flush_checkpoint ix).
  - assert ((list_to_map (map (fun p => (p.1, Some p.2)) (sorted_list (ix_entries ix))) :
      gmap (list Z) (option bytes)) = Some <$> ix_entries ix) as ->.
    { rewrite <- (sorted_list_to_map (ix_entries ix)) at 2. generalize (sorted_list (ix_entries ix)) as l.
      induction l as [|[a b] l IH]; cbn; [by rewrite fmap_empty|]. by rewrite fmap_insert, IH. }
    rewrite lookup_fmap. by destruct (ix_entries ix !! k).
  - rewrite sorted_list_to_map, He. by destruct (ix_dirty ix !! k).
Qed.

Lemma index_flush_lemma (b : B) ix ix' b' :
  index_ok (contents b) ix -> index_bytes ix -> flush_fits ix ->
  Index_flush b ix = (Ok ix', b') ->
  index_ok (contents b') ix' /\ ix_entries ix' = ix_entries ix /\ ix_dirty ix' = ∅ /\
  (ix_depth ix <= CHECKPOINT_DEPTH -> ix_depth ix' <= CHECKPOINT_DEPTH) /\
  (forall key v, contents b !! key = Some v -> contents b' !! key = Some v) /\ root b' = root b.
Proof.
  intros (links & Hc & Hob & Hd & He) Hbytes [H9 Hlim] E. unfold Index_flush in E.
  destruct (bool_decide (ix_dirty ix = ∅) && _) eqn:Eskip.
  { inv_ok. subst. bools. split_and!; try done. by exists links. }
  destruct (_ <? zlen _) eqn:En; [by inv_ok|]. destruct (negb _) eqn:Efit; [by inv_ok|].
  apply negb_false_iff in Efit. destruct (INDEX_LIMIT <? _) eqn:El; [by inv_ok|].
  destruct (envelope INDEX_MAGIC _) as [v|] eqn:Ev; [|by inv_ok].
  destruct (flush_records_ok ix Hbytes Efit) as [Hitems Hinc].
  pose proof (increasing_NoDup _ Hinc) as Hnd.
  set (items := flush_records ix (flush_checkpoint ix)) in *.
  set (parent := if flush_checkpoint ix then None else ix_head ix) in *.
  assert (forall d, parent = Some d -> digest_ok d) as Hparent.
  { intros d. unfold parent. destruct (flush_checkpoint ix); [done|]. apply Hbytes. }
  unfold put_bytes in E. destruct (backend_put b _ v) as [[[]|] b1] eqn:Ep; cbn [backend map_err] in E; [|by inv_ok].
  apply put_ok in Ep as (Hcont & Hsame & Hroot). inv_ok. subst ix' b1.
  cbn [ix_head ix_entries ix_dirty ix_depth ix_objects].
  assert (forall key w, contents b !! key = Some w -> contents b' !! key = Some w) as Hmono.
  { intros key w Hw. rewrite Hcont. destruct (decide (Backend.Index (blake3 v) = key)) as [<-|Hne].
    - rewrite lookup_insert, decide_True by done. f_equal. symmetry. by apply Hsame.
    - by rewrite lookup_insert_ne. }
  unfold INDEX_LIMIT in El. pose proof (Hlim v eq_refl) as Hvl.
  assert (is_bytes v /\ 1 <= zlen v) as [Hvb Hv1].
  { unfold envelope in Ev. inv_ok. unfold zstd in Hok. inv_ok. apply zcompress_bytes in Hok as [Hcb Hc1].
    subst v. rewrite !Forall_app, !zlen_app, blake3_length. unfold u64_bytes. rewrite zlen_le_bytes.
    split; [split_and!; auto with bytedb; apply is_bytes_ascii|].
    pose proof (zlen_nonneg INDEX_MAGIC). lia. }
  assert (chain (contents b') (Some (blake3 v)) (mkLink (blake3 v) (encode_record parent items) items ::
    if flush_checkpoint ix then [] else links)) as Hchain.
  { econstructor.
    - rewrite Hcont, lookup_insert, decide_True by done. done.
    - done.
    - lia.
    - apply (envelope_roundtrip_lemma INDEX_MAGIC (encode_record parent items) v INDEX_LIMIT);
        try done; try apply is_bytes_ascii; unfold INDEX_LIMIT, U64_MAX in *; lia.
    - apply open_record_run; try done; unfold U64_MAX, U32_MAX in *; lia.
    - unfold parent. destruct (flush_checkpoint ix); [constructor|].
      eapply chain_mono; [|exact Hc]. intros; by apply Hmono. }
  split_and!; try done.
  - eexists. split; [exact Hchain|]. split_and!.
    + cbn [ix_objects map list_to_set lk_id]. destruct (flush_checkpoint ix); [done|]. by rewrite Hob.
    + rewrite zlen_cons. cbn [ix_depth]. destruct (flush_checkpoint ix); [done|]. rewrite Hd. lia.
    + intros k. cbn [ix_dirty ix_entries]. rewrite lookup_empty. by apply flush_resolves.
  - intros _. unfold flush_checkpoint, CHECKPOINT_DEPTH in *.
    destruct (bool_decide (ix_head ix = None) || (16 <=? ix_depth ix)) eqn:Ec; [lia|].
    apply orb_false_iff in Ec. lia.
Qed.

(** Updates refine map update: after an insertion or a removal the entries are
    the updated map and the in-memory index still equals its persistent chain with
    the pending changes applied. *)
Theorem index_updates_refine_map objects ix key v :
  index_ok objects ix ->
  index_ok objects (Index_insert ix key v) /\
  ix_entries (Index_insert ix key v) = <[key := v]> (ix_entries ix) /\
  index_ok objects (Index_remove ix key) /\
  ix_entries (Index_remove ix key) = delete key (ix_entries ix).
Proof.
  intros Hi. destruct (index_insert_lemma objects ix key v Hi), (index_remove_lemma objects ix key Hi).
  by split_and!.
Qed.


(** The chain from a head is unique. *)
Lemma chain_det objects head l1 l2 : chain objects head l1 -> chain objects head l2 -> l1 = l2.
Proof.
  intros H1. revert l2. induction H1 as [|id v raw parent items links Hv Hid Hl Ho Hr Hc IH];
    intros l2 H2; inversion H2; simplify_eq; [done|].
  assert (raw0 = raw) as -> by congruence. assert ((parent0, items0) = (parent, items)) as [= -> ->] by congruence.
  f_equal. by apply IH.
Qed.
End Chains.

(** ** Witnesses *)

Definition demo_index : Index := Index_insert Index_default [1] [2; 3].
Definition demo_memory : MemoryBackend := mkMemory ∅ None 0.

Lemma demo_index_ok {H : Hashes} {Z0 : ZstdLib} objects : index_ok objects Index_default.
Proof. exists []. split_and!; try done. constructor. Qed.

Definition demo_raw : bytes := encode_record None [([1], Some [2; 3])].
Definition demo_object : bytes :=
  INDEX_MAGIC ++ u64_bytes (zlen demo_raw) ++ @blake3 demo_hashes demo_raw ++ 0 :: demo_raw.
Definition demo_head : Digest := Eval vm_compute in @blake3 demo_hashes demo_object.
Definition demo_flushed : Index := mkIndex (Some demo_head) {[demo_head]} {[ [1] := [2; 3] ]} ∅ 1.
Definition demo_stored : MemoryBackend := mkMemory {[ Backend.Index demo_head := demo_object ]} None 0.

Lemma index_updates_refine_map_witness :
  ix_entries (Index_remove demo_index [1]) = ∅.
Proof.
  destruct (@index_updates_refine_map demo_hashes demo_zstd ∅ demo_index [1] [9]) as (_ & _ & _ & E).
  - apply (@index_updates_refine_map demo_hashes demo_zstd ∅ Index_default [1] [2; 3]).
    apply demo_index_ok.
  - rewrite E. reflexivity.
Defined.

Lemma demo_flush :
  @Index_flush demo_hashes demo_zstd MemoryBackend _ demo_memory demo_index = (Ok demo_flushed, demo_stored).
Proof. vm_compute. reflexivity. Qed.

Lemma demo_chain :
  @chain demo_hashes demo_zstd (contents demo_stored) (Some demo_head)
    [mkLink demo_head demo_raw [([1], Some [2; 3])]].
Proof.
  apply (@chain_cons demo_hashes demo_zstd _ demo_head demo_object demo_raw None).
  - vm_compute. reflexivity.
  - vm_compute. reflexivity.
  - split; vm_compute; discriminate.
  - vm_compute. reflexivity.
  - vm_compute. reflexivity.
  - constructor.
Qed.

Lemma index_load_sound_witness :
  @index_ok demo_hashes demo_zstd (contents demo_stored) demo_flushed.
Proof.
  apply (@index_load_sound demo_hashes demo_hashes_ok demo_zstd demo_zstd_ok MemoryBackend _ _ _ demo_stored (Some demo_head) demo_flushed).
  vm_compute. reflexivity.
Defined.

