(* ===== verification/Catalog.v ===== *)
(** The catalog state (src/src/storage/catalog.rs): branch heads, the single
    conditional namespace root, loading and publication. *)

From S2P Require Import Prelude Domain Layout Format Wire Segment Backend CatalogIndex.
From stdpp Require Import base strings gmap list sorting.
From Stdlib Require Import ZArith Lia.
Open Scope Z_scope.

(** ** Branch heads and the namespace root *)

Record Head : Set := mkHead {
  hd_attachment : option Digest;
  hd_sealed : option ActiveHeader;
  hd_pending : option ActiveHeader;
}.

#[export] Instance Head_eq_dec : EqDecision Head.
Proof. solve_decision. Defined.

Definition Head_default : Head := mkHead None None None.

Record State : Type := mkState {
  st_revision : option (list Z);
  st_database : option Digest;
  st_attachment : option Digest;
  st_sealed : option ActiveHeader;
  st_pending : option ActiveHeader;
  st_placements : Index;
  st_endpoints : Index;
  st_retentions : Index;
  st_advisory : Index;
  st_uncertain : bool;
  st_heads : Index;
  st_selected : bytes;
}.

Definition set_heads (s : State) (ix : Index) : State :=
  mkState (st_revision s) (st_database s) (st_attachment s) (st_sealed s) (st_pending s)
    (st_placements s) (st_endpoints s) (st_retentions s) (st_advisory s) (st_uncertain s) ix (st_selected s).
Definition set_placements (s : State) (ix : Index) : State :=
  mkState (st_revision s) (st_database s) (st_attachment s) (st_sealed s) (st_pending s)
    ix (st_endpoints s) (st_retentions s) (st_advisory s) (st_uncertain s) (st_heads s) (st_selected s).
Definition set_endpoints (s : State) (ix : Index) : State :=
  mkState (st_revision s) (st_database s) (st_attachment s) (st_sealed s) (st_pending s)
    (st_placements s) ix (st_retentions s) (st_advisory s) (st_uncertain s) (st_heads s) (st_selected s).
Definition set_retentions (s : State) (ix : Index) : State :=
  mkState (st_revision s) (st_database s) (st_attachment s) (st_sealed s) (st_pending s)
    (st_placements s) (st_endpoints s) ix (st_advisory s) (st_uncertain s) (st_heads s) (st_selected s).
Definition set_advisory (s : State) (ix : Index) : State :=
  mkState (st_revision s) (st_database s) (st_attachment s) (st_sealed s) (st_pending s)
    (st_placements s) (st_endpoints s) (st_retentions s) ix (st_uncertain s) (st_heads s) (st_selected s).
Definition set_revision (s : State) (r : option (list Z)) (uncertain : bool) : State :=
  mkState r (st_database s) (st_attachment s) (st_sealed s) (st_pending s)
    (st_placements s) (st_endpoints s) (st_retentions s) (st_advisory s) uncertain (st_heads s) (st_selected s).

Definition BRANCH_MAGIC : bytes := ascii "ZBRANCH1".
Definition CATALOG_MAGIC : bytes := ascii "ZCAT0001".

(** [validate_head] (src/src/storage/handle.rs). *)
Definition head_byte (c : Z) : bool :=
  ((48 <=? c) && (c <=? 57)) || ((65 <=? c) && (c <=? 90)) || ((97 <=? c) && (c <=? 122))
  || (c =? 46) || (c =? 95) || (c =? 45).
Definition validate_head (name : bytes) : result StoreError unit :=
  fail_if (zlen name =? 0) || (128 <? zlen name) || negb (forallb head_byte name)
    with InvalidConfiguration ;;
  Ok tt.

(** [str::from_utf8]: the well-formed byte sequences of the Unicode standard. *)
Definition utf8_tail (b : Z) : bool := (128 <=? b) && (b <=? 191).
Definition utf8_second3 (a b : Z) : bool :=
  if a =? 224 then (160 <=? b) && (b <=? 191)
  else if a =? 237 then (128 <=? b) && (b <=? 159)
  else (225 <=? a) && (a <=? 239) && utf8_tail b.
Definition utf8_second4 (a b : Z) : bool :=
  if a =? 240 then (144 <=? b) && (b <=? 191)
  else if a =? 244 then (128 <=? b) && (b <=? 143)
  else (241 <=? a) && (a <=? 243) && utf8_tail b.

Fixpoint from_utf8 (v : bytes) : bool :=
  match v with
  | [] => true
  | a :: v1 =>
      if a <? 128 then from_utf8 v1
      else match v1 with
           | [] => false
           | b :: v2 =>
               if (194 <=? a) && (a <=? 223) then utf8_tail b && from_utf8 v2
               else match v2 with
                    | [] => false
                    | c :: v3 =>
                        if (224 <=? a) && (a <=? 239)
                        then utf8_second3 a b && utf8_tail c && from_utf8 v3
                        else match v3 with
                             | [] => false
                             | d :: v4 => utf8_second4 a b && utf8_tail c && utf8_tail d && from_utf8 v4
                             end
                    end
           end
  end.

Section States.
Context `{Hashes, ZstdLib, StorageBackend B}.

Definition write_header (h : option ActiveHeader) : bytes :=
  match h with Some h => [1] ++ ActiveHeader_encode h | None => [0] end.

Definition read_header : dm Decoder (option ActiveHeader) :=
  do tag <- wire_u8 ;;
  if tag =? 0 then dret None
  else if tag =? 1 then
    do b <- wire_array SECTOR_SIZE ;;
    do h <- dlift (format (ActiveHeader_decode b)) ;;
    dret (Some h)
  else dlift (Err (Corrupt 0)).

Definition Head_encode (h : Head) : bytes :=
  BRANCH_MAGIC ++ write_id (hd_attachment h) ++ write_header (hd_sealed h) ++
  write_header (hd_pending h).

Definition head_body : dm Decoder Head :=
  do magic <- wire_take 8 ;;
  do _ <- dfail_if (negb (bytes_eqb magic BRANCH_MAGIC)) (Corrupt 0) ;;
  do attachment <- read_id ;;
  do sealed <- read_header ;;
  do pending <- read_header ;;
  dret (mkHead attachment sealed pending).

Definition header_foreign (database : option Digest) (h : ActiveHeader) : bool :=
  negb (bool_decide (database = Some (ah_database_id h)))
  || bytes_eqb (ah_parent_physical_digest h) ZERO_DIGEST.

Definition Head_decode (b : bytes) (database : option Digest) : result StoreError Head :=
  let* p := head_body (Decoder_new b) in
  let h := fst p in
  let* _ := Decoder_finish (snd p) in
  fail_if existsb (header_foreign database) (option_list (hd_sealed h) ++ option_list (hd_pending h))
    with IdentityMismatch ;;
  Ok h.

Definition encode_root (s : State) : bytes :=
  let b := CATALOG_MAGIC ++ write_id (st_database s) ++
    concat (map (fun ix => write_id (ix_head ix))
      [st_placements s; st_endpoints s; st_retentions s; st_advisory s; st_heads s]) in
  b ++ blake3 b.

Definition root_body : dm Decoder (option Digest * list (option Digest)) :=
  do database <- read_id ;;
  do placements <- read_id ;;
  do endpoints <- read_id ;;
  do retentions <- read_id ;;
  do advisory <- read_id ;;
  do heads <- read_id ;;
  dret (database, [placements; endpoints; retentions; advisory; heads]).

Definition check_head (database : option Digest) (p : list Z * bytes) : result StoreError unit :=
  fail_if negb (from_utf8 (fst p)) with Corrupt 0 ;;
  let* _ := validate_head (fst p) in
  let* _ := Head_decode (snd p) database in
  Ok tt.

Definition load_for (b : B) (selected : bytes) : result StoreError State :=
  let* r := backend (read_root b) in
  match r with
  | None => Ok (mkState None None None None None Index_default Index_default Index_default
                  Index_default false Index_default selected)
  | Some r =>
      let v := rr_bytes r in
      fail_if (zlen v <? 40) || negb (bytes_eqb (slice v 0 8) CATALOG_MAGIC)
              || negb (bytes_eqb (blake3 (slice v 0 (zlen v - 32))) (slice v (zlen v - 32) (zlen v)))
        with Corrupt 0 ;;
      let* p := root_body (Decoder_new (slice v 8 (zlen v - 32))) in
      match fst p with
      | (database, [placements; endpoints; retentions; advisory; hs]) =>
          let* heads := Index_load b hs in
          let* _ := Decoder_finish (snd p) in
          let* _ := mmap (check_head database) (sorted_list (ix_entries heads)) in
          let* head := match ix_entries heads !! selected with
                       | Some e => Head_decode e database
                       | None => Ok Head_default
                       end in
          let* placements := Index_load b placements in
          let* endpoints := Index_load b endpoints in
          let* retentions := Index_load b retentions in
          let* advisory := Index_load b advisory in
          Ok (mkState (Some (rr_revision r)) database (hd_attachment head) (hd_sealed head)
                (hd_pending head) placements endpoints retentions advisory false heads selected)
      | _ => Err (Corrupt 0)
      end
  end.

Definition all_heads (s : State) : result StoreError (list Head) :=
  mmap (fun p => Head_decode (snd p) (st_database s)) (sorted_list (ix_entries (st_heads s))).

Definition has_pending (s : State) : result StoreError bool :=
  let* heads := all_heads s in
  Ok (existsb (fun h => bool_decide (is_Some (hd_pending h))) heads).

(** The branch entry of the selected head. *)
Definition update_heads (s : State) : State :=
  let name := if bytes_eqb (st_selected s) [] then ascii "main" else st_selected s in
  if bool_decide (is_Some (st_attachment s)) || bool_decide (is_Some (st_sealed s))
     || bool_decide (is_Some (st_pending s))
  then set_heads s (Index_insert (st_heads s) name
         (Head_encode (mkHead (st_attachment s) (st_sealed s) (st_pending s))))
  else set_heads s (Index_remove (st_heads s) name).

(** [self.<index>.flush(backend)?] *)
Definition flush_one (get : State -> Index) (set : State -> Index -> State)
    (acc : result StoreError unit * State * B) : result StoreError unit * State * B :=
  match acc with
  | (Ok _, s, b) =>
      match Index_flush b (get s) with
      | (Ok ix, b') => (Ok tt, set s ix, b')
      | (Err e, b') => (Err e, s, b')
      end
  | _ => acc
  end.

Definition flush_all (b : B) (s : State) : result StoreError unit * State * B :=
  flush_one st_advisory set_advisory
    (flush_one st_retentions set_retentions
      (flush_one st_endpoints set_endpoints
        (flush_one st_placements set_placements
          (flush_one st_heads set_heads (Ok tt, s, b))))).

Definition publish (b : B) (s : State) : result StoreError unit * State * B :=
  if st_uncertain s then (Err (Domain.Backend BUncertain), s, b)
  else
    match flush_all b (update_heads s) with
    | (Err e, s, b) => (Err e, s, b)
    | (Ok _, s, b) =>
        match compare_exchange_root b (st_revision s) (encode_root s) with
        | (Err e, b) => (Err (Domain.Backend e), set_revision s (st_revision s) true, b)
        | (Ok (Applied revision), b) => (Ok tt, set_revision s (Some revision) (st_uncertain s), b)
        | (Ok Stale, b) => (Err (Domain.Backend BStale), set_revision s (st_revision s) true, b)
        | (Ok Uncertain, b) => (Err (Domain.Backend BUncertain), set_revision s (st_revision s) true, b)
        end
    end.

Definition publish_confirmed (b : B) (s : State) : result StoreError unit * State * B :=
  match publish b s with
  | (Err (Domain.Backend BUncertain), s, b) =>
      match read_root b with
      | Err e => (Err (Domain.Backend e), s, b)
      | Ok (Some r) =>
          if bytes_eqb (rr_bytes r) (encode_root s)
          then (Ok tt, set_revision s (Some (rr_revision r)) false, b)
          else (Err (Domain.Backend BUncertain), s, b)
      | Ok None => (Err (Domain.Backend BUncertain), s, b)
      end
  | other => other
  end.

End States.

(** ** Lemmas *)

Section StateLemmas.
Context {H : Hashes} {HOK : HashesOk H} {Z0 : ZstdLib} {ZOK : ZstdOk Z0}.

(** *** Head codec *)

Lemma is_bytes_ActiveHeader_encode h : active_header_ok h -> is_bytes (ActiveHeader_encode h).
Proof.
  intros (H1 & H2 & H3 & H4 & H5 & _). destruct H1 as [_ H1], H2 as [_ H2], H3 as [_ H3], H4 as [_ H4], H5 as [_ H5].
  unfold ActiveHeader_encode, put_sector_checksum, put_policy, put_u32, put_u64, put_u16.
  assert (is_bytes (LayoutPolicy_encode (ah_layout h))) by apply is_bytes_LayoutPolicy_encode.
  assert (is_bytes ACTIVE_MAGIC) by apply is_bytes_ascii.
  auto 40 with bytedb.
Qed.

Lemma reads_header h :
  (forall x, h = Some x -> active_header_ok x) -> reads read_header (write_header h) h.
Proof.
  intros Hh. unfold read_header, write_header. destruct h as [x|].
  - specialize (Hh x eq_refl). eapply reads_bind; [apply reads_u8; unfold is_u8; lia|]. cbn [Z.eqb Pos.eqb].
    eapply reads_bind_end.
    { rewrite <- (zlen_ActiveHeader_encode x). apply reads_array, is_bytes_ActiveHeader_encode, Hh. }
    eapply reads_lift; [apply format_Ok; by apply active_header_roundtrip_lemma|]. apply reads_ret.
  - eapply reads_bind_end; [apply reads_u8; unfold is_u8; lia|]. apply reads_ret.
Qed.

Definition head_ok (database : option Digest) (h : Head) : Prop :=
  (forall d, hd_attachment h = Some d -> digest_ok d) /\
  (forall x, x ∈ option_list (hd_sealed h) ++ option_list (hd_pending h) ->
     active_header_ok x /\ database = Some (ah_database_id x) /\
     ah_parent_physical_digest x <> ZERO_DIGEST).

Lemma head_sealed_in h x :
  hd_sealed h = Some x -> x ∈ option_list (hd_sealed h) ++ option_list (hd_pending h).
Proof. intros ->. apply elem_of_app. left. by left. Qed.
Lemma head_pending_in h x :
  hd_pending h = Some x -> x ∈ option_list (hd_sealed h) ++ option_list (hd_pending h).
Proof. intros ->. apply elem_of_app. right. by left. Qed.

Lemma reads_head h database : head_ok database h -> reads head_body (Head_encode h) h.
Proof.
  intros [Ha Hx]. unfold head_body, Head_encode.
  eapply reads_bind; [by apply reads_exact; [|apply is_bytes_ascii]|].
  apply reads_guard; [by rewrite bytes_eqb_refl|].
  eapply reads_bind; [by apply reads_id|].
  eapply reads_bind; [apply reads_header; intros x E; by apply Hx, head_sealed_in|].
  eapply reads_bind_end; [apply reads_header; intros x E; by apply Hx, head_pending_in|].
  destruct h. apply reads_ret.
Qed.

Lemma zlen_is_bytes_head h database :
  head_ok database h -> is_bytes (Head_encode h) /\ zlen (Head_encode h) <= 8235.
Proof.
  intros [Ha Hx]. unfold Head_encode.
  assert (forall o, (forall x, o = Some x -> active_header_ok x) ->
    is_bytes (write_header o) /\ zlen (write_header o) <= 4097) as Hw.
  { intros [x|] Ho; cbn [write_header].
    - rewrite zlen_app, zlen_ActiveHeader_encode. split; [|done].
      apply Forall_app. split; [repeat constructor; unfold is_u8; lia|].
      by apply is_bytes_ActiveHeader_encode, Ho.
    - split; [repeat constructor; unfold is_u8; lia|done]. }
  destruct (Hw (hd_sealed h)) as [S1 S2]; [intros x E; by apply Hx, head_sealed_in|].
  destruct (Hw (hd_pending h)) as [P1 P2]; [intros x E; by apply Hx, head_pending_in|].
  assert (is_bytes (write_id (hd_attachment h)) /\ zlen (write_id (hd_attachment h)) <= 33) as [A1 A2].
  { destruct (hd_attachment h) as [d|]; cbn [write_id].
    - destruct (Ha d eq_refl) as [Hl Hb]. rewrite zlen_app, Hl. split; [|done].
      apply Forall_app. split; [repeat constructor; unfold is_u8; lia|done].
    - split; [repeat constructor; unfold is_u8; lia|done]. }
  rewrite !Forall_app, !zlen_app. change (zlen BRANCH_MAGIC) with 8.
  split; [|lia]. split_and!; try done. apply is_bytes_ascii.
Qed.

Lemma head_roundtrip_lemma h database :
  head_ok database h -> Head_decode (Head_encode h) database = Ok h.
Proof.
  intros Hok. unfold Head_decode. destruct (zlen_is_bytes_head h database Hok) as [Hb Hl].
  destruct (reads_whole _ _ _ (reads_head h database Hok)) as (d & E & Hf);
    [unfold U64_MAX; lia|done|].
  rewrite E. cbn [rbind fst snd]. rewrite Hf. cbn [rbind].
  assert (existsb (header_foreign database)
    (option_list (hd_sealed h) ++ option_list (hd_pending h)) = false) as ->; [|done].
  apply not_true_iff_false. rewrite existsb_exists. intros (x & Hin & Hf').
  apply list_elem_of_In in Hin. destruct Hok as [_ Hx]. destruct (Hx x Hin) as (_ & -> & Hz).
  unfold header_foreign in Hf'. rewrite bool_decide_true in Hf' by done. cbn [negb orb] in Hf'.
  by apply bytes_eqb_true in Hf'.
Qed.

(** *** Publication *)

Context {B : Type} `{BE : StorageBackend B} `{BL : !BackendLaws B}.

(** A flush never touches the root and never removes or replaces an object. *)
Definition only_adds (b b' : B) : Prop :=
  root b' = root b /\ forall key v, contents b !! key = Some v -> contents b' !! key = Some v.

Lemma only_adds_refl b : only_adds b b.
Proof. by split. Qed.
Lemma only_adds_trans b1 b2 b3 : only_adds b1 b2 -> only_adds b2 b3 -> only_adds b1 b3.
Proof. intros [R1 C1] [R2 C2]. split; [congruence|auto]. Qed.

Lemma put_only_adds b key v r b' : backend_put b key v = (r, b') -> only_adds b b'.
Proof.
  intros E. destruct r as [[]|e].
  - apply put_ok in E as (Hc & Hs & Hr). split; [done|]. intros k w Hw. rewrite Hc.
    destruct (decide (key = k)) as [<-|]; [|by rewrite lookup_insert_ne].
    rewrite lookup_insert, decide_True by done. f_equal. symmetry. by apply Hs.
  - apply put_err in E as [[Hc|[Hc Hn]] Hr]; (split; [done|]); intros k w Hw; rewrite Hc; [done|].
    rewrite lookup_insert_ne; [done|]. intros <-. congruence.
Qed.

Lemma flush_only_adds b ix r b' : Index_flush b ix = (r, b') -> only_adds b b'.
Proof.
  intros E. unfold Index_flush in E.
  repeat match type of E with
  | (if ?c then _ else _) = _ => destruct c; [inv_ok; subst; apply only_adds_refl|]
  end.
  destruct (envelope _ _) as [v|]; [|inv_ok; subst; apply only_adds_refl].
  unfold put_bytes in E. destruct (backend_put b _ v) as [r0 b0] eqn:Ep.
  apply put_only_adds in Ep. destruct (backend r0); inv_ok; by subst.
Qed.

(** The setters and getters of the five flushed fields. *)
Definition keeps_revision (set : State -> Index -> State) : Prop :=
  forall s ix, st_revision (set s ix) = st_revision s /\ st_uncertain (set s ix) = st_uncertain s.

Lemma flush_one_spec get set r s b r' s' b' :
  keeps_revision set -> flush_one get set (r, s, b) = (r', s', b') ->
  only_adds b b' /\ st_revision s' = st_revision s /\ st_uncertain s' = st_uncertain s.
Proof.
  intros Hk E. unfold flush_one in E. destruct r as [u|e].
  - destruct (Index_flush b (get s)) as [[ix|e] b1] eqn:Ef; apply flush_only_adds in Ef; inv_ok; subst;
      (split; [done|]); [apply Hk|done].
  - inv_ok. subst. split; [apply only_adds_refl|done].
Qed.

Lemma flush_all_spec b s r s' b' :
  flush_all b s = (r, s', b') ->
  only_adds b b' /\ st_revision s' = st_revision s /\ st_uncertain s' = st_uncertain s.
Proof.
  unfold flush_all. intros E.
  repeat match type of E with context [flush_one ?g ?t (Ok tt, s, b)] =>
    destruct (flush_one g t (Ok tt, s, b)) as [[r1 s1] b1] eqn:E1 end.
  apply flush_one_spec in E1 as (A1 & R1 & U1); [|done].
  destruct (flush_one st_placements _ _) as [[r2 s2] b2] eqn:E2.
  apply flush_one_spec in E2 as (A2 & R2 & U2); [|done].
  destruct (flush_one st_endpoints _ _) as [[r3 s3] b3] eqn:E3.
  apply flush_one_spec in E3 as (A3 & R3 & U3); [|done].
  destruct (flush_one st_retentions _ _) as [[r4 s4] b4] eqn:E4.
  apply flush_one_spec in E4 as (A4 & R4 & U4); [|done].
  apply flush_one_spec in E as (A5 & R5 & U5); [|done].
  split; [|split; congruence]. eauto 10 using only_adds_trans.
Qed.

(** Neither updates nor flushes touch the branch fields of the state. *)
Lemma flush_one_fields get set s b r' s' b' :
  (forall s ix, st_selected (set s ix) = st_selected s /\ st_attachment (set s ix) = st_attachment s /\
                st_sealed (set s ix) = st_sealed s /\ st_pending (set s ix) = st_pending s) ->
  forall r, flush_one get set (r, s, b) = (r', s', b') ->
  st_selected s' = st_selected s /\ st_attachment s' = st_attachment s /\
  st_sealed s' = st_sealed s /\ st_pending s' = st_pending s.
Proof.
  intros Hk r E. unfold flush_one in E. destruct r as [u|e].
  - destruct (Index_flush b (get s)) as [[ix|e] b1]; inv_ok; subst; [apply Hk|done].
  - inv_ok. by subst.
Qed.

Lemma flush_all_selected b s r s' b' :
  flush_all b s = (r, s', b') ->
  st_selected s' = st_selected s /\ st_attachment s' = st_attachment s /\
  st_sealed s' = st_sealed s /\ st_pending s' = st_pending s.
Proof.
  unfold flush_all. intros E.
  destruct (flush_one st_heads _ _) as [[r1 s1] b1] eqn:E1.
  destruct (flush_one st_placements _ _) as [[r2 s2] b2] eqn:E2.
  destruct (flush_one st_endpoints _ _) as [[r3 s3] b3] eqn:E3.
  destruct (flush_one st_retentions _ _) as [[r4 s4] b4] eqn:E4.
  apply flush_one_fields in E1 as (? & ? & ? & ?), E2 as (? & ? & ? & ?), E3 as (? & ? & ? & ?),
    E4 as (? & ? & ? & ?), E as (? & ? & ? & ?); try done.
  split_and!; congruence.
Qed.

Lemma update_heads_fields s :
  st_attachment (update_heads s) = st_attachment s /\ st_sealed (update_heads s) = st_sealed s /\
  st_pending (update_heads s) = st_pending s.
Proof. unfold update_heads. by destruct (_ || _). Qed.

Lemma update_heads_spec s :
  st_revision (update_heads s) = st_revision s /\ st_uncertain (update_heads s) = st_uncertain s.
Proof. unfold update_heads. by destruct (_ || _). Qed.

Lemma publish_lemma b s r s' b' :
  publish b s = (r, s', b') ->
  (forall key v, contents b !! key = Some v -> contents b' !! key = Some v) /\
  match r with
  | Ok _ => st_uncertain s' = false /\ root_is b (st_revision s) /\
      exists rev, root b' = Some (mkRoot rev (encode_root s')) /\ st_revision s' = Some rev
  | Err _ =>
      root b' = root b \/
      (root_is b (st_revision s) /\ st_uncertain s' = true /\
       exists rev, root b' = Some (mkRoot rev (encode_root s')))
  end.
Proof.
  intros E. unfold publish in E. destruct (st_uncertain s) eqn:Eu; [inv_ok; subst; auto|].
  destruct (flush_all b (update_heads s)) as [[r1 s1] b1] eqn:Ef.
  apply flush_all_spec in Ef as ([Hroot Hadd] & Hrev & Hunc).
  destruct (update_heads_spec s) as [Hr0 Hu0]. rewrite Hr0 in Hrev. rewrite Hu0 in Hunc.
  destruct r1 as [u|e]; [|inv_ok; subst; auto].
  destruct (compare_exchange_root b1 (st_revision s1) (encode_root s1)) as [rc b2] eqn:Ec.
  assert (forall rev u, encode_root (set_revision s1 rev u) = encode_root s1) as Henc by done.
  unfold root_is. rewrite <- Hrev, <- Hroot.
  destruct rc as [[rev| |]|e]; inv_ok; subst r s' b'.
  - apply cas_applied in Ec as (His & Hr & Hc). rewrite Hc. split; [done|].
    split; [simpl; congruence|]. split; [done|]. by exists rev.
  - apply cas_stale in Ec as (Hr & Hc). rewrite Hc. split; [done|]. left. congruence.
  - apply cas_other in Ec as (Hc & [Hr|[Hi [rev Hr]]]); [| |by left].
    + rewrite Hc. split; [done|]. left. congruence.
    + rewrite Hc. split; [done|]. right. split; [done|]. split; [done|]. by exists rev.
  - apply cas_other in Ec as (Hc & [Hr|[Hi [rev Hr]]]); [| |right; by eexists].
    + rewrite Hc. split; [done|]. left. congruence.
    + rewrite Hc. split; [done|]. right. split; [done|]. split; [done|]. by exists rev.
Qed.

(** A state whose outcome is unknown refuses to publish until it is reloaded. *)
Lemma publish_uncertain b s : st_uncertain s = true ->
  publish b s = (Err (Domain.Backend BUncertain), s, b).
Proof. intros Hu. unfold publish. by rewrite Hu. Qed.

(** A confirmed publication reports success only when the backend's root is
    this catalog's encoding and the state holds that root's revision, also when the
    first attempt's outcome was unknown and the root had to be read back. *)
Theorem publish_confirmed_holds_root b s s' b' :
  publish_confirmed b s = (Ok tt, s', b') ->
  st_uncertain s' = false /\
  exists rev, root b' = Some (mkRoot rev (encode_root s')) /\ st_revision s' = Some rev.
Proof.
  intros E. unfold publish_confirmed in E. destruct (publish b s) as [[r1 s1] b1] eqn:Ep.
  destruct r1 as [u|e].
  - inv_ok. subst. apply publish_lemma in Ep as (_ & Hu & _ & rev & Hr & Hs). split; [done|]. by exists rev.
  - destruct e as [be| | | | | | | | | | | | | | | | | | | | | | |]; try by inv_ok.
    destruct be; try by inv_ok.
    destruct (read_root b1) as [[rr|]|] eqn:Er; try by inv_ok.
    apply read_root_exact in Er. destruct (bytes_eqb _ _) eqn:Eb; [|by inv_ok].
    apply bytes_eqb_true in Eb. inv_ok. subst. split; [done|].
    exists (rr_revision rr). split; [|done]. rewrite <- Er. destruct rr. simpl in *. by subst.
Qed.

(** *** A published catalog is the one a reader loads *)

Lemma index_ok_mono b b' ix :
  only_adds b b' -> index_ok (contents b) ix -> index_ok (contents b') ix.
Proof.
  intros [_ Ha] (links & Hc & Hr). exists links. split; [|done].
  eapply chain_mono; [|exact Hc]. intros; by apply Ha.
Qed.

Definition flushable (b : B) (ix : Index) : Prop :=
  index_ok (contents b) ix /\ index_bytes ix /\ flush_fits ix.

(** [ix'] is [ix] with every change persisted. *)
Definition flushed (b : B) (ix ix' : Index) : Prop :=
  index_ok (contents b) ix' /\ ix_entries ix' = ix_entries ix /\ ix_dirty ix' = ∅ /\
  forall d, ix_head ix' = Some d -> digest_ok d.

Lemma flushed_mono b b' ix ix' : only_adds b b' -> flushed b ix ix' -> flushed b' ix ix'.
Proof. intros Ha (Hi & ?). split; [by eapply index_ok_mono|done]. Qed.

Lemma flushable_mono b b' ix : only_adds b b' -> flushable b ix -> flushable b' ix.
Proof. intros Ha (Hi & ?). split; [by eapply index_ok_mono|done]. Qed.

Lemma flush_step get set s b s' b' :
  flushable b (get s) -> flush_one get set (Ok tt, s, b) = (Ok tt, s', b') ->
  exists ix, s' = set s ix /\ flushed b' (get s) ix /\ only_adds b b'.
Proof.
  intros (Hi & Hb & Hf) E. unfold flush_one in E.
  destruct (Index_flush b (get s)) as [[ix|e] b1] eqn:Ef; [|by inv_ok]. inv_ok. subst.
  exists ix. split; [done|]. pose proof (flush_only_adds _ _ _ _ Ef) as Ha. split; [|done].
  assert (forall d, ix_head ix = Some d -> digest_ok d) as Hd.
  { unfold Index_flush in Ef.
    destruct (bool_decide _ && _); [inv_ok; subst; apply Hb|].
    destruct (_ <? _); [by inv_ok|]. destruct (negb _); [by inv_ok|]. destruct (_ <? _); [by inv_ok|].
    destruct (envelope _ _); [|by inv_ok]. destruct (put_bytes _ _ _) as [[[]|] ?]; inv_ok; subst.
    intros d [= <-]. split; [apply blake3_length|apply blake3_bytes]. }
  apply index_flush_lemma in Ef as (Hi' & He & Hdirty & _); [|done..]. by split.
Qed.

Definition all_flushable (b : B) (s : State) : Prop :=
  flushable b (st_heads s) /\ flushable b (st_placements s) /\ flushable b (st_endpoints s) /\
  flushable b (st_retentions s) /\ flushable b (st_advisory s).

Definition all_flushed (b : B) (s s' : State) : Prop :=
  flushed b (st_heads s) (st_heads s') /\ flushed b (st_placements s) (st_placements s') /\
  flushed b (st_endpoints s) (st_endpoints s') /\ flushed b (st_retentions s) (st_retentions s') /\
  flushed b (st_advisory s) (st_advisory s').

Lemma flush_one_Ok get set acc s' b' :
  flush_one get set acc = (Ok tt, s', b') -> exists s b, acc = (Ok tt, s, b).
Proof. destruct acc as [[[[]|] s] b]; intros E; [by eexists _, _|done]. Qed.

Lemma flush_all_Ok b s s' b' :
  all_flushable b s -> flush_all b s = (Ok tt, s', b') ->
  all_flushed b' s s' /\ st_database s' = st_database s.
Proof.
  intros (F1 & F2 & F3 & F4 & F5) E. unfold flush_all in E.
  destruct (flush_one_Ok _ _ _ _ _ E) as (s4 & b4 & E4). rewrite E4 in E.
  destruct (flush_one_Ok _ _ _ _ _ E4) as (s3 & b3 & E3). rewrite E3 in E4.
  destruct (flush_one_Ok _ _ _ _ _ E3) as (s2 & b2 & E2). rewrite E2 in E3.
  destruct (flush_one_Ok _ _ _ _ _ E2) as (s1 & b1 & E1). rewrite E1 in E2.
  apply flush_step in E1 as (i1 & -> & C1 & A1); [|done].
  apply flush_step in E2 as (i2 & -> & C2 & A2); [|by eapply flushable_mono].
  pose proof (only_adds_trans _ _ _ A1 A2) as A12.
  apply flush_step in E3 as (i3 & -> & C3 & A3); [|by eapply flushable_mono].
  pose proof (only_adds_trans _ _ _ A12 A3) as A13.
  apply flush_step in E4 as (i4 & -> & C4 & A4); [|by eapply flushable_mono].
  pose proof (only_adds_trans _ _ _ A13 A4) as A14.
  apply flush_step in E as (i5 & -> & C5 & A5); [|by eapply flushable_mono].
  split; [|done]. split_and!.
  - eapply flushed_mono; [|exact C1]. eauto 10 using only_adds_trans.
  - eapply flushed_mono; [|exact C2]. eauto 10 using only_adds_trans.
  - eapply flushed_mono; [|exact C3]. eauto 10 using only_adds_trans.
  - by eapply flushed_mono; [|exact C4].
  - exact C5.
Qed.

Definition root_ids (s : State) : list (option Digest) :=
  map ix_head [st_placements s; st_endpoints s; st_retentions s; st_advisory s; st_heads s].

Definition root_ids_ok (s : State) : Prop :=
  (forall d, st_database s = Some d -> digest_ok d) /\
  forall id d, id ∈ root_ids s -> id = Some d -> digest_ok d.

Lemma reads_root s : root_ids_ok s ->
  reads root_body (write_id (st_database s) ++ concat (map write_id (root_ids s)))
    (st_database s, root_ids s).
Proof.
  intros [Hd Hi]. unfold root_body, root_ids in *. cbn [map concat] in *.
  eapply reads_bind; [by apply reads_id|].
  do 4 (eapply reads_bind; [apply reads_id; intros; eapply Hi; [|done]; set_solver|]).
  eapply reads_bind; [apply reads_id; intros; eapply Hi; [|done]; set_solver|]. apply reads_ret.
Qed.

Lemma zlen_write_id id :
  (forall d, id = Some d -> digest_ok d) -> 1 <= zlen (write_id id) <= 33 /\ is_bytes (write_id id).
Proof.
  intros Hd. destruct id as [d|]; cbn [write_id].
  - destruct (Hd d eq_refl) as [Hl Hb]. rewrite zlen_app, Hl. split; [change (zlen [1]) with 1; lia|].
    apply Forall_app. split; [repeat constructor; unfold is_u8; lia|done].
  - split; [change (zlen [0]) with 1; lia|repeat constructor; unfold is_u8; lia].
Qed.

Lemma root_payload_bounds s (p := write_id (st_database s) ++ concat (map write_id (root_ids s))) :
  root_ids_ok s -> 6 <= zlen p <= 198 /\ is_bytes p.
Proof.
  intros [Hd Hi]. destruct (zlen_write_id _ Hd) as [D1 D2].
  assert (forall l, (forall id d, id ∈ l -> id = Some d -> digest_ok d) ->
    zlen l <= zlen (concat (map write_id l)) <= 33 * zlen l /\ is_bytes (concat (map write_id l))) as Hl.
  { induction l as [|id l IH]; intros Hl; cbn [map concat]; [by rewrite zlen_nil|].
    destruct (zlen_write_id id) as [I1 I2]; [intros d; apply Hl; by left|].
    destruct IH as [L1 L2]; [intros id' d Hin; apply Hl; by right|].
    rewrite zlen_app, zlen_cons. split; [lia|]. by apply Forall_app. }
  destruct (Hl (root_ids s) Hi) as [L1 L2]. change (zlen (root_ids s)) with 5 in L1.
  subst p. rewrite zlen_app. split; [lia|]. by apply Forall_app.
Qed.

(** Reading back an encoded root yields its identities. *)
Lemma root_roundtrip_lemma s (v := encode_root s) :
  root_ids_ok s ->
  zlen v <? 40 = false /\ slice v 0 8 = CATALOG_MAGIC /\
  blake3 (slice v 0 (zlen v - 32)) = slice v (zlen v - 32) (zlen v) /\
  exists d, root_body (Decoder_new (slice v 8 (zlen v - 32))) = Ok (st_database s, root_ids s, d) /\
            Decoder_finish d = Ok tt.
Proof.
  intros Hok. destruct (root_payload_bounds s Hok) as [Hp Hpb].
  set (p := write_id (st_database s) ++ concat (map write_id (root_ids s))) in *.
  assert (v = (CATALOG_MAGIC ++ p) ++ blake3 (CATALOG_MAGIC ++ p)) as Hv.
  { reflexivity. }
  set (m := CATALOG_MAGIC ++ p) in *.
  assert (zlen m = 8 + zlen p) as Hm by (subst m; rewrite zlen_app; done).
  assert (zlen v = zlen m + 32) as Hvl by (rewrite Hv, zlen_app, blake3_length; lia).
  replace (zlen v - 32) with (zlen m) by lia.
  assert (slice v 0 (zlen m) = m) as E1 by (rewrite Hv; apply (slice_mid []); done).
  assert (slice v (zlen m) (zlen v) = blake3 m) as E2.
  { rewrite Hvl, Hv. rewrite <- (app_nil_r (blake3 m)) at 1. apply slice_mid; [done|]. by rewrite blake3_length. }
  assert (slice v 0 8 = CATALOG_MAGIC) as E3.
  { rewrite Hv. subst m. rewrite <- !(assoc_L (++)). by apply (slice_mid []). }
  assert (slice v 8 (zlen m) = p) as E4.
  { rewrite Hm, Hv. subst m. rewrite <- !(assoc_L (++)). by apply slice_mid. }
  rewrite E1, E2, E3, E4. split; [lia|]. split; [done|]. split; [done|].
  destruct (reads_whole _ _ _ (reads_root s Hok)) as (d & E & Hf); [|done|by exists d].
  fold p. unfold U64_MAX. lia.
Qed.

Context `{BV : !BackendLive B}.

Definition all_fit (b : B) (s : State) : Prop :=
  index_fits b (st_heads s) /\ index_fits b (st_placements s) /\ index_fits b (st_endpoints s) /\
  index_fits b (st_retentions s) /\ index_fits b (st_advisory s).

Lemma load_published b s s' rev head (name := st_selected s) :
  all_flushed b s s' -> all_fit b s' -> root_ids_ok s' ->
  read_root b = Ok (Some (mkRoot rev (encode_root s'))) ->
  (forall n e, ix_entries (st_heads s) !! n = Some e -> check_head (st_database s') (n, e) = Ok tt) ->
  match ix_entries (st_heads s) !! name with
  | Some e => Head_decode e (st_database s')
  | None => Ok Head_default
  end = Ok head ->
  load_for b name =
  Ok (mkState (Some rev) (st_database s') (hd_attachment head) (hd_sealed head) (hd_pending head)
        (st_placements s') (st_endpoints s') (st_retentions s') (st_advisory s') false (st_heads s') name).
Proof.
  intros (C1 & C2 & C3 & C4 & C5) (T1 & T2 & T3 & T4 & T5) Hids Hroot Hheads Hhead.
  assert (forall ix ix', flushed b ix ix' -> index_fits b ix' -> Index_load b (ix_head ix') = Ok ix') as Hload.
  { intros ix ix' (Hi & _ & Hd & _) Hf. by apply index_load_live_lemma. }
  destruct (root_roundtrip_lemma s' Hids) as (R1 & R2 & R3 & d & R4 & R5).
  unfold load_for. rewrite Hroot. cbn [backend map_err rbind rr_bytes rr_revision].
  rewrite R1, R2, R3, !bytes_eqb_refl. cbn [negb orb]. rewrite R4. cbn [rbind fst snd root_ids map].
  rewrite (Hload _ _ C1 T1). cbn [rbind]. rewrite R5. cbn [rbind].
  destruct C1 as (_ & He & _ & _). rewrite He.
  assert (exists us, mmap (check_head (st_database s')) (sorted_list (ix_entries (st_heads s))) = Ok us) as [us ->].
  { assert (Forall (fun p => check_head (st_database s') p = Ok tt)
      (sorted_list (ix_entries (st_heads s)))) as Hall.
    { rewrite Forall_forall. intros [n e] Hin. by apply Hheads, sorted_list_elem. }
    induction Hall as [|p l Hp Hl [us IH]]; cbn [mmap]; [by eexists|]. rewrite Hp, IH. by eexists. }
  cbn [rbind]. fold name. rewrite Hhead. cbn [rbind].
  rewrite (Hload _ _ C2 T2), (Hload _ _ C3 T3), (Hload _ _ C4 T4), (Hload _ _ C5 T5). done.
Qed.

(** C40. Publication is a compare-and-swap of the root: it never removes or changes
    a stored object; it succeeds only against the revision the state was loaded at
    and then the root is the state's encoding; when it fails the root is untouched,
    or was swapped from that revision with the state marked uncertain; and an
    uncertain state publishes nothing. *)
Theorem publish_is_compare_and_swap b s r s' b' :
  publish b s = (r, s', b') ->
  (forall key v, contents b !! key = Some v -> contents b' !! key = Some v) /\
  (st_uncertain s = true -> r = Err (Domain.Backend BUncertain) /\ s' = s /\ b' = b) /\
  match r with
  | Ok _ => st_uncertain s' = false /\ root_is b (st_revision s) /\
      exists rev, root b' = Some (mkRoot rev (encode_root s')) /\ st_revision s' = Some rev
  | Err _ =>
      root b' = root b \/
      (root_is b (st_revision s) /\ st_uncertain s' = true /\
       exists rev, root b' = Some (mkRoot rev (encode_root s')))
  end.
Proof.
  intros E. destruct (publish_lemma b s r s' b' E) as [Hc Hr]. split_and!; [done| |done].
  intros Hu. rewrite publish_uncertain in E by done. by inv_ok.
Qed.

(** What a successful publication did: the flush, then the swap. *)
Lemma publish_Ok_inv b s s' b' :
  publish b s = (Ok tt, s', b') ->
  exists s1 b1 rev, flush_all b (update_heads s) = (Ok tt, s1, b1) /\
    s' = set_revision s1 (Some rev) false /\ contents b' = contents b1 /\
    root b' = Some (mkRoot rev (encode_root s')).
Proof.
  intros E. unfold publish in E. destruct (st_uncertain s) eqn:Eu; [by inv_ok|].
  destruct (flush_all b (update_heads s)) as [[[[]|e] s1] b1] eqn:Ef; [|by inv_ok].
  pose proof (flush_all_spec _ _ _ _ _ Ef) as (_ & _ & Hunc).
  destruct (update_heads_spec s) as [_ Hu0].
  destruct (compare_exchange_root _ _ _) as [[[rev| |]|e] b2] eqn:Ec; inv_ok; try done.
  apply cas_applied in Ec as (_ & Hr & Hc). subst s' b2. exists s1, b1, rev.
  split_and!; try done. f_equal. congruence.
Qed.

(** The branch entries after the selected head is updated. *)
Definition heads_ok (s : State) : Prop :=
  validate_head (st_selected s) = Ok tt /\
  head_ok (st_database s) (mkHead (st_attachment s) (st_sealed s) (st_pending s)) /\
  forall n e, ix_entries (st_heads s) !! n = Some e -> n <> st_selected s ->
    check_head (st_database s) (n, e) = Ok tt.

(** A valid head name is ASCII. *)
Lemma validate_head_utf8 name u : validate_head name = Ok u -> from_utf8 name = true.
Proof.
  unfold validate_head. intros E. inv_ok. bools. clear -Hguard.
  induction name as [|c name IH]; [done|]. cbn [forallb] in Hguard. bools.
  cbn [from_utf8]. replace (c <? 128) with true; [by apply IH|].
  match goal with Hc : head_byte c = true |- _ => unfold head_byte in Hc; rewrite !orb_true_iff in Hc end.
  symmetry. lia.
Qed.

Lemma update_heads_entries s :
  st_selected s <> [] ->
  ix_entries (st_heads (update_heads s)) =
    partial_alter (fun _ => if bool_decide (mkHead (st_attachment s) (st_sealed s) (st_pending s) = Head_default)
                            then None
                            else Some (Head_encode (mkHead (st_attachment s) (st_sealed s) (st_pending s))))
      (st_selected s) (ix_entries (st_heads s)) /\
  st_database (update_heads s) = st_database s /\ st_selected (update_heads s) = st_selected s.
Proof.
  intros Hn. unfold update_heads. rewrite (proj2 (bytes_eqb_false _ _) Hn).
  assert (bool_decide (is_Some (st_attachment s)) || bool_decide (is_Some (st_sealed s))
     || bool_decide (is_Some (st_pending s)) =
     negb (bool_decide (mkHead (st_attachment s) (st_sealed s) (st_pending s) = Head_default))) as ->.
  { destruct (st_attachment s), (st_sealed s), (st_pending s);
      repeat case_bool_decide; try done; unfold is_Some in *; naive_solver. }
  case_bool_decide; cbn [negb]; (split; [|done]).
  - cbn [st_heads set_heads]. unfold Index_remove. destruct (ix_entries (st_heads s) !! _) eqn:Ek; [done|].
    by rewrite <- (delete_id _ _ Ek) at 1.
  - cbn [st_heads set_heads]. unfold Index_insert. case_bool_decide as Ek; [|done].
    by rewrite <- (insert_id _ _ _ Ek) at 1.
Qed.

(** Durability of the catalog: a client that opens the namespace after a
    successful publication loads exactly the published state, indexes, branch heads
    and revision included, provided the records are within the readers' bounds. *)
Theorem publish_then_load b s s' b' :
  all_flushable b (update_heads s) -> heads_ok s ->
  (forall d, st_database s = Some d -> digest_ok d) ->
  publish b s = (Ok tt, s', b') -> all_fit b' s' ->
  load_for b' (st_selected s) = Ok s'.
Proof.
  intros Hfl (Hname & Hhead & Hothers) Hdb E Hfit.
  assert (st_selected s <> []) as Hne.
  { intros En. rewrite En in Hname. done. }
  destruct (update_heads_entries s Hne) as (He & Hd & Hsel).
  destruct (publish_Ok_inv b s s' b' E) as (s1 & b1 & rev & Ef & Hs' & Hc & Hroot).
  destruct (flush_all_Ok _ _ _ _ Hfl Ef) as [Hall Hdb1]. rewrite Hd in Hdb1.
  pose proof (flush_all_selected _ _ _ _ _ Ef) as (Hsel1 & Ha1 & Hse1 & Hp1).
  destruct (update_heads_fields s) as (Ha0 & Hse0 & Hp0).
  assert (all_flushed b' (update_heads s) s') as Hall'.
  { subst s'. unfold all_flushed, flushed in *. rewrite Hc. exact Hall. }
  assert (st_database s' = st_database s) as Hdb' by (by subst s').
  assert (root_ids_ok s') as Hids.
  { split; [by rewrite Hdb'|]. destruct Hall' as (F1 & F2 & F3 & F4 & F5). intros i d Hin ->.
    unfold root_ids in Hin. cbn [map] in Hin.
    repeat (apply elem_of_cons in Hin as [Hx|Hin]); try (by apply elem_of_nil in Hin);
      symmetry in Hx; [apply F2 in Hx|apply F3 in Hx|apply F4 in Hx|apply F5 in Hx|apply F1 in Hx]; done. }
  rewrite <- Hsel, (load_published b' (update_heads s) s' rev
    (mkHead (st_attachment s) (st_sealed s) (st_pending s)));
    [|done|done|done|by rewrite read_root_live, Hroot| |].
  - f_equal. subst s'. cbn [set_revision st_revision st_database st_attachment st_sealed st_pending
      st_placements st_endpoints st_retentions st_advisory st_uncertain st_heads st_selected
      hd_attachment hd_sealed hd_pending]. unfold set_revision. congruence.
  - intros n e Hn. rewrite He in Hn. rewrite Hdb'. destruct (decide (n = st_selected s)) as [->|Hnn].
    + rewrite lookup_partial_alter, decide_True in Hn by done. case_bool_decide; [done|]. injection Hn as <-.
      unfold check_head. cbn [fst snd]. rewrite (validate_head_utf8 _ _ Hname), Hname. cbn [negb rbind].
      by rewrite head_roundtrip_lemma.
    + rewrite lookup_partial_alter_ne in Hn by done. by apply Hothers.
  - rewrite He, Hsel, lookup_partial_alter, decide_True, Hdb' by done.
    case_bool_decide as Hdef; [by rewrite Hdef|]. by apply head_roundtrip_lemma.
Qed.
End StateLemmas.

(** ** Witnesses *)

(** A new database whose main branch is attached, published to an empty backend. *)
Definition demo_catalog : State :=
  mkState None (Some (demo_digest 2)) (Some (demo_digest 1)) None None
    Index_default Index_default Index_default Index_default false Index_default (ascii "main").

Definition demo_branch : bytes := Head_encode (mkHead (Some (demo_digest 1)) None None) (H := demo_hashes).
Definition demo_branch_raw : bytes := encode_record None [(ascii "main", Some demo_branch)].
Definition demo_branch_object : bytes :=
  INDEX_MAGIC ++ u64_bytes (zlen demo_branch_raw) ++ @blake3 demo_hashes demo_branch_raw ++
  0 :: demo_branch_raw.
Definition demo_branch_head : Digest := Eval vm_compute in @blake3 demo_hashes demo_branch_object.
Definition demo_heads : Index :=
  mkIndex (Some demo_branch_head) {[demo_branch_head]} {[ ascii "main" := demo_branch ]} ∅ 1.
Definition demo_published : State :=
  mkState (Some (nonce 0)) (Some (demo_digest 2)) (Some (demo_digest 1)) None None
    Index_default Index_default Index_default Index_default false demo_heads (ascii "main").
Definition demo_catalog_store : MemoryBackend :=
  mkMemory {[ Backend.Index demo_branch_head := demo_branch_object ]}
    (Some (mkRoot (nonce 0) (@encode_root demo_hashes demo_published))) 1.

Lemma demo_publish :
  @publish demo_hashes demo_zstd MemoryBackend _ demo_memory demo_catalog =
  (Ok tt, demo_published, demo_catalog_store).
Proof. vm_compute. reflexivity. Qed.

Lemma publish_is_compare_and_swap_witness :
  root_is demo_memory None /\
  exists rev, root demo_catalog_store = Some (mkRoot rev (@encode_root demo_hashes demo_published)).
Proof.
  destruct (@publish_is_compare_and_swap demo_hashes demo_zstd MemoryBackend _ _
              demo_memory demo_catalog (Ok tt) demo_published demo_catalog_store demo_publish)
    as (_ & _ & _ & Hr & rev & Hroot & _).
  split; [exact Hr|]. exists rev. exact Hroot.
Defined.

Lemma publish_confirmed_holds_root_witness :
  exists rev, root demo_catalog_store = Some (mkRoot rev (@encode_root demo_hashes demo_published)).
Proof.
  destruct (@publish_confirmed_holds_root demo_hashes demo_zstd MemoryBackend _ _
              demo_memory demo_catalog demo_published demo_catalog_store) as (_ & rev & Hroot & _).
  - unfold publish_confirmed. rewrite demo_publish. reflexivity.
  - exists rev. exact Hroot.
Defined.

Lemma demo_branch_chain :
  @chain demo_hashes demo_zstd (contents demo_catalog_store) (Some demo_branch_head)
    [mkLink demo_branch_head demo_branch_raw [(ascii "main", Some demo_branch)]].
Proof.
  apply (@chain_cons demo_hashes demo_zstd _ demo_branch_head demo_branch_object demo_branch_raw None).
  - vm_compute. reflexivity.
  - vm_compute. reflexivity.
  - split; vm_compute; discriminate.
  - vm_compute. reflexivity.
  - vm_compute. reflexivity.
  - constructor.
Qed.

(** An index that was never changed has nothing to flush. *)
Lemma flushable_default {H : Hashes} {Z0 : ZstdLib} {B} `{StorageBackend B} (b : B) :
  (forall v, envelope INDEX_MAGIC (encode_record None []) = Ok v -> zlen v <= INDEX_LIMIT) ->
  flushable b Index_default.
Proof.
  intros He. split; [apply demo_index_ok|]. split; [|split; [vm_compute; discriminate|exact He]].
  by split_and!; intros; rewrite ?lookup_empty in *; try done;
    match goal with H1 : is_Some _ |- _ => destruct H1 end.
Qed.

Lemma fits_default {H : Hashes} {Z0 : ZstdLib} {B} `{StorageBackend B} (b : B) :
  index_fits b Index_default.
Proof. intros links Hc. inversion Hc. subst. vm_compute. split; discriminate. Qed.

Lemma publish_then_load_witness :
  @load_for demo_hashes demo_zstd MemoryBackend _ demo_catalog_store (ascii "main") = Ok demo_published.
Proof.
  apply (@publish_then_load demo_hashes demo_hashes_ok demo_zstd demo_zstd_ok MemoryBackend _ _ _
           demo_memory demo_catalog demo_published demo_catalog_store).
  - assert (forall v, @envelope demo_hashes demo_zstd INDEX_MAGIC (encode_record None []) = Ok v ->
      zlen v <= INDEX_LIMIT) as He.
    { intros v Hv. vm_compute in Hv. injection Hv as <-. vm_compute. discriminate. }
    assert (update_heads demo_catalog (H := demo_hashes) =
      set_heads demo_catalog (Index_insert Index_default (ascii "main") demo_branch)) as -> by reflexivity.
    split; [|split_and!; apply flushable_default; exact He].
    split; [apply index_insert_lemma, demo_index_ok|].
    cbn [set_heads st_heads]. unfold Index_insert. cbn [Index_default ix_entries ix_dirty ix_head].
    rewrite lookup_empty, bool_decide_false by done. split.
    + unfold index_bytes. cbn [ix_entries ix_dirty ix_head]. split_and!; [intros k v|intros k|intros k v|done].
      * intros [[<- <-]|[_ Hx]]%lookup_insert_Some; [|by rewrite lookup_empty in Hx].
        split; apply bytes_check_ok; vm_compute; reflexivity.
      * intros [v [[<- _]|[_ Hx]]%lookup_insert_Some]; [|by rewrite lookup_empty in Hx].
        apply bytes_check_ok. vm_compute. reflexivity.
      * intros [[<- [= <-]]|[_ Hx]]%lookup_insert_Some; [|by rewrite lookup_empty in Hx].
        apply bytes_check_ok. vm_compute. reflexivity.
    + split; [vm_compute; discriminate|]. intros v Hv. vm_compute in Hv. injection Hv as <-.
      vm_compute. discriminate.
  - split; [vm_compute; reflexivity|]. split; [|intros n e Hn; cbn in Hn; by rewrite lookup_empty in Hn].
    split; [|intros x Hx; by apply elem_of_nil in Hx].
    intros d [= <-]. apply demo_digest_ok. unfold is_u8; lia.
  - intros d [= <-]. apply demo_digest_ok. unfold is_u8; lia.
  - exact demo_publish.
  - split; [|split_and!; apply fits_default].
    intros links Hl. rewrite (chain_det _ _ _ _ Hl demo_branch_chain). split; vm_compute; discriminate.
Defined.
