(* ===== verification/Placement.v ===== *)
(** Physical placement (src/src/storage/placement.rs): pack-relative and
    blob-relative ranges, the representations of a pack, batched reads through a
    placement snapshot, and the self-describing blob container. *)

From S2P Require Import Prelude Domain Format Wire Segment Frame Pack Backend CatalogIndex.
From stdpp Require Import base strings gmap list sorting.
From Stdlib Require Import ZArith Lia.
Open Scope Z_scope.

Definition BLOB_HEADER : Z := 32.

(** ** Ranges and extents *)

Record PackRange : Set := mkPackRange { pk_offset : Z; pk_length : Z }.

Definition PackRange_new (offset length : Z) : result ValueError PackRange :=
  fail_if length =? 0 with ValueErr ;;
  let* _ := ok_or (checked_add offset length) ValueErr in
  Ok (mkPackRange offset length).

Definition PackRange_within (r : PackRange) (size : Z) : result ValueError PackRange :=
  fail_if match checked_add (pk_offset r) (pk_length r) with
          | Some stop => size <? stop
          | None => true
          end with ValueErr ;;
  Ok r.

Definition PackRange_end (r : PackRange) : Z := pk_offset r + pk_length r.

Definition PackRange_stored (r : StoredRange) : result StoreError PackRange :=
  value (PackRange_new (sr_offset r) (sr_length r)).

Record BlobExtent : Set := mkExtent {
  be_blob : Digest;
  be_offset : Z;
  be_length : Z;
  be_blob_length : Z;
}.

#[export] Instance BlobExtent_eq_dec : EqDecision BlobExtent.
Proof. solve_decision. Defined.

Definition BlobExtent_new (blob : Digest) (offset length blob_length pack_length : Z)
    : result ValueError BlobExtent :=
  fail_if (length =? 0) || negb (length =? pack_length)
          || match checked_add offset length with
             | Some stop => blob_length <? stop
             | None => true
             end with ValueErr ;;
  Ok (mkExtent blob offset length blob_length).

Definition BlobExtent_locate (e : BlobExtent) (r : PackRange) : result StoreError StoredRange :=
  fail_if match checked_add (pk_offset r) (pk_length r) with
          | Some stop => be_length e <? stop
          | None => true
          end with Range ;;
  let* start := range (checked_add (be_offset e) (pk_offset r)) in
  value (StoredRange_new start (pk_length r)).

(** ** Representations of a pack *)

Record Representation : Set := mkRepresentation { rp_id : Digest; rp_extent : BlobExtent }.

Record Placements : Set := mkPlacements {
  pl_pack : Digest;
  pl_length : Z;
  pl_cohort : Digest;
  pl_representations : list Representation;
}.

Definition PLACE_MAGIC : bytes := ascii "ZPLACE01".

Section WithHashes.
Context `{Hashes}.

Definition Representation_new (pack : Digest) (e : BlobExtent) : Representation :=
  mkRepresentation
    (blake3 (ascii "zsqlite/representation/v1" ++ pack ++ be_blob e ++
             le_bytes 8 (be_offset e) ++ le_bytes 8 (be_length e))) e.

(** [&self.representations[0]] *)
Definition preferred (p : Placements) : option Representation := head (pl_representations p).

(** The newest representation is first; at most 64 are kept. *)
Definition Placements_add (p : Placements) (e : BlobExtent) : result StoreError Placements :=
  fail_if negb (be_length e =? pl_length p) with IdentityMismatch ;;
  let r := Representation_new (pl_pack p) e in
  let others := List.filter (fun old => negb (bytes_eqb (rp_id old) (rp_id r))) (pl_representations p) in
  let all := r :: others in
  fail_if 64 <? zlen all with Range ;;
  Ok (mkPlacements (pl_pack p) (pl_length p) (pl_cohort p) all).

Definition encode_representation (r : Representation) : bytes :=
  rp_id r ++ be_blob (rp_extent r) ++ u64_bytes (be_offset (rp_extent r)) ++
  u64_bytes (be_length (rp_extent r)) ++ u64_bytes (be_blob_length (rp_extent r)).

Definition Placements_encode (p : Placements) : bytes :=
  PLACE_MAGIC ++ pl_pack p ++ u64_bytes (pl_length p) ++ pl_cohort p ++
  u32_bytes (zlen (pl_representations p)) ++
  concat (map encode_representation (pl_representations p)).

Fixpoint decode_representations (n : nat) (pack : Digest) (length : Z) (ids : gset (list Z))
    : dm Decoder (list Representation) :=
  match n with
  | O => dret []
  | S n' =>
      do id <- wire_array 32 ;;
      do blob <- wire_array 32 ;;
      do offset <- wire_u64 ;;
      do len <- wire_u64 ;;
      do blob_length <- wire_u64 ;;
      do extent <- dlift (value (BlobExtent_new blob offset len blob_length length)) ;;
      do _ <- dfail_if ((be_offset extent <? BLOB_HEADER)
                        || negb (bytes_eqb (rp_id (Representation_new pack extent)) id)
                        || bool_decide (id ∈ ids)) (Corrupt 0) ;;
      do rest <- decode_representations n' pack length ({[id]} ∪ ids) ;;
      dret (mkRepresentation id extent :: rest)
  end.

Definition placements_body (pack : Digest) : dm Decoder Placements :=
  do magic <- wire_take 8 ;;
  do _ <- dfail_if (negb (bytes_eqb magic PLACE_MAGIC)) (Corrupt 0) ;;
  do p <- wire_array 32 ;;
  do _ <- dfail_if (negb (bytes_eqb p pack)) (Corrupt 0) ;;
  do length <- wire_u64 ;;
  do cohort <- wire_array 32 ;;
  do count <- wire_u32 ;;
  do _ <- dfail_if ((count =? 0) || (64 <? count)) Range ;;
  do representations <- decode_representations (Z.to_nat count) pack length ∅ ;;
  dret (mkPlacements pack length cohort representations).

Definition Placements_decode (pack : Digest) (b : bytes) : result StoreError Placements :=
  let* p := placements_body pack (Decoder_new b) in
  let* _ := Decoder_finish (snd p) in
  Ok (fst p).

End WithHashes.

(** ** Batched reads through a placement snapshot *)

(** [PlacementPin::locate]'s result: the preferred extent and the blob range. *)
Record LocatedRange : Set := mkLocated { lr_extent : BlobExtent; lr_range : StoredRange }.

Definition pin : Type := gmap (list Z) Placements.

Definition pin_locate (p : pin) (pack : Digest) (r : PackRange) : result StoreError LocatedRange :=
  let* placements := ok_or (p !! pack) (Corrupt 0) in
  let* representation := ok_or (preferred placements) (Corrupt 0) in
  let* located := BlobExtent_locate (rp_extent representation) r in
  Ok (mkLocated (rp_extent representation) located).

Definition total_length (requests : list LocatedRange) : result StoreError Z :=
  mfold (fun total r => range (checked_add total (sr_length (lr_range r)))) 0 requests.

Definition located_leb (a b : nat * LocatedRange) : bool :=
  let x := be_blob (lr_extent (snd a)) in
  let y := be_blob (lr_extent (snd b)) in
  match digest_compare x y with
  | Lt => true
  | Gt => false
  | Eq => sr_offset (lr_range (snd a)) <=? sr_offset (lr_range (snd b))
  end.

(** The requests with their positions, stably sorted by blob and offset. *)
Definition order (requests : list LocatedRange) : list (nat * LocatedRange) :=
  isort located_leb (imap pair requests).

(** One step of the merge: extend the last range when it touches the request. *)
Definition merge_step (acc : list ObjectRange * list (nat * nat)) (p : nat * LocatedRange)
    : result StoreError (list ObjectRange * list (nat * nat)) :=
  let '(merged, slots) := acc in
  let '(index, request) := p in
  let key := Blob (be_blob (lr_extent request)) in
  let push :=
    let* r := backend (ObjectRange_new key (lr_range request)) in
    Ok (merged ++ [r], slots ++ [(index, length merged)]) in
  match last merged with
  | Some previous =>
      if bool_decide (or_key previous = key)
         && (sr_offset (lr_range request) <=? sr_end (or_range previous))
      then
        let start := sr_offset (or_range previous) in
        let stop := Z.max (sr_end (or_range previous)) (sr_end (lr_range request)) in
        let* joined := value (StoredRange_new start (stop - start)) in
        let* r := backend (ObjectRange_new key joined) in
        Ok (removelast merged ++ [r], slots ++ [(index, (length merged - 1)%nat)])
      else push
  | None => push
  end.

(** Copies the answer of one slot into the result of its request. *)
Definition fill_slot (requests : list LocatedRange) (merged : list ObjectRange) (answers : list bytes)
    (out : list bytes) (slot : nat * nat) : result StoreError (list bytes) :=
  let '(index, k) := slot in
  match requests !! index, merged !! k, answers !! k with
  | Some request, Some m, Some b =>
      let start := sr_offset (lr_range request) - sr_offset (or_range m) in
      let* stop := range (checked_add start (sr_length (lr_range request))) in
      fail_if zlen b <? stop with Range ;;
      Ok (<[index := slice b start stop]> out)
  | _, _, _ => Err Range
  end.

Definition pin_read_ranges `{StorageBackend B} (b : B) (requests : list LocatedRange)
    : result StoreError (list bytes) :=
  fail_if (zlen requests =? 0) || (4096 <? zlen requests) with Range ;;
  let* total := total_length requests in
  fail_if MAX_BATCH_BYTES <? total with Range ;;
  let* acc := mfold merge_step ([], []) (order requests) in
  let '(merged, slots) := acc in
  let* answers := backend (read_ranges b merged) in
  fail_if negb (length answers =? length merged)%nat
          || existsb (fun p => negb (zlen (fst p) =? sr_length (or_range (snd p)))) (zip answers merged)
    with Domain.Backend BInvalidData ;;
  mfold (fill_slot requests merged answers) (replicate (length requests) []) slots.

(** ** The blob container *)

Definition BLOB_MAGIC : bytes := ascii "ZBLOB001".
Definition BLOB_END : bytes := ascii "ZBEND001".
Definition BINDEX_MAGIC : bytes := ascii "ZBINDEX1".

(** The streaming writer: what has been written, and the packs completed so far. *)
Record BlobWriter : Type := mkBlobWriter {
  bw_bytes : bytes;
  bw_offset : Z;
  bw_ranges : gmap (list Z) (Z * Z);
}.

Definition BlobWriter_new : BlobWriter :=
  mkBlobWriter (put (zeros 32) 0 BLOB_MAGIC) 32 ∅.

(** [write_all] to a writer that accepts every byte. *)
Definition BlobWriter_write (w : BlobWriter) (b : bytes) : result StoreError BlobWriter :=
  let* _ := ok_or (checked_add (bw_offset w) (zlen b)) Io in
  Ok (mkBlobWriter (bw_bytes w ++ b) (bw_offset w + zlen b) (bw_ranges w)).

Definition complete_pack (w : BlobWriter) (pack : Digest) (start : Z) : result StoreError BlobWriter :=
  fail_if (4096 <=? Z.of_nat (size (bw_ranges w))) || bool_decide (is_Some (bw_ranges w !! pack))
          || (bw_offset w <=? start) with Range ;;
  Ok (mkBlobWriter (bw_bytes w) (bw_offset w)
        (<[pack := (start, bw_offset w - start)]> (bw_ranges w))).

Section Blobs.
Context `{Hashes}.

Definition blob_identity (footer : bytes) (length : Z) : Digest :=
  blake3 (ascii "zsqlite/blob/v1" ++ [0] ++ footer ++ le_bytes 8 length).

Definition encode_extent_row (row : list Z * (Z * Z)) : bytes :=
  row.1 ++ u64_bytes row.2.1 ++ u64_bytes row.2.2.

Definition blob_footer (ranges : gmap (list Z) (Z * Z)) : bytes :=
  BINDEX_MAGIC ++ u32_bytes (zlen (sorted_list ranges)) ++
  concat (map encode_extent_row (sorted_list ranges)).

(** Returns the identity, the finished object and the extent of every pack. *)
Definition BlobWriter_finish (w : BlobWriter)
    : result StoreError (Digest * bytes * list (list Z * BlobExtent)) :=
  fail_if bool_decide (bw_ranges w = ∅) with Range ;;
  let footer := blob_footer (bw_ranges w) in
  let* length := range (checked_add (bw_offset w) (zlen footer + 48)) in
  let blob := blob_identity footer length in
  let* w1 := BlobWriter_write w (footer ++ blake3 footer) in
  let* w2 := BlobWriter_write w1 (le_bytes 8 (bw_offset w)) in
  let* w3 := BlobWriter_write w2 BLOB_END in
  let* extents := mmap (fun row =>
      let* e := value (BlobExtent_new blob (fst (snd row)) (snd (snd row)) length (snd (snd row))) in
      Ok (fst row, e)) (sorted_list (bw_ranges w)) in
  Ok (blob, bw_bytes w3, extents).

(** The loop over the declared extents: increasing packs, each authenticated. *)
Fixpoint decode_extents (n : nat) (blob : Digest) (b : bytes) (footer_offset : Z)
    (previous : option (list Z)) : dm Decoder (list (list Z * BlobExtent)) :=
  match n with
  | O => dret []
  | S n' =>
      do pack <- wire_array 32 ;;
      do offset <- wire_u64 ;;
      do length <- wire_u64 ;;
      do extent <- dlift (value (BlobExtent_new blob offset length (zlen b) length)) ;;
      do _ <- dfail_if ((offset <? BLOB_HEADER) || (footer_offset <? offset + length)
                        || match previous with Some p => digest_leb pack p | None => false end)
                (Corrupt 0) ;;
      let payload := slice b offset (offset + length) in
      do derived <- dlift (match copy (fun o k =>
                                 let* stop := range (checked_add o k) in
                                 fail_if zlen payload <? stop with Range ;;
                                 Ok (slice payload o stop)) (zlen payload) true with
                           | Some r => r
                           | None => Err Range
                           end) ;;
      do _ <- dfail_if (negb (bytes_eqb (fst derived) pack)) (Corrupt 0) ;;
      do rest <- decode_extents n' blob b footer_offset (Some pack) ;;
      dret ((pack, extent) :: rest)
  end.

(** Extents in offset order cover the payload area without gap or overlap. *)
Definition contiguous (extents : list BlobExtent) : option Z :=
  fold_left (fun acc e => match acc with
                          | Some stop => if be_offset e =? stop then Some (stop + be_length e) else None
                          | None => None
                          end)
    (isort (fun a b => be_offset a <=? be_offset b) extents) (Some BLOB_HEADER).

Definition index_body (blob : Digest) (b : bytes) (footer_offset : Z)
    : dm Decoder (list (list Z * BlobExtent)) :=
  do magic <- wire_take 8 ;;
  do _ <- dfail_if (negb (bytes_eqb magic BINDEX_MAGIC)) (Corrupt 0) ;;
  do count <- wire_u32 ;;
  do _ <- dfail_if ((count =? 0) || (4096 <? count)) Range ;;
  decode_extents (Z.to_nat count) blob b footer_offset None.

Definition authenticate (blob : Digest) (b : bytes) : result StoreError (list (list Z * BlobExtent)) :=
  fail_if (zlen b <? 92) || negb (bytes_eqb (slice b 0 8) BLOB_MAGIC)
          || negb (all_zero (slice b 8 32)) with Corrupt 0 ;;
  let tail := slice b (zlen b - 16) (zlen b) in
  let footer_offset := le_val (slice tail 0 8) in
  fail_if negb (bytes_eqb (slice tail 8 16) BLOB_END) || (footer_offset <? 32) with Corrupt 0 ;;
  fail_if zlen b - 16 <? footer_offset with Range ;;
  let footer := slice b footer_offset (zlen b - 16) in
  let n := zlen footer in
  fail_if (n <? 44) || negb (bytes_eqb (blake3 (slice footer 0 (n - 32))) (slice footer (n - 32) n))
    with Corrupt 0 ;;
  fail_if negb (bytes_eqb (blob_identity (slice footer 0 (n - 32)) (zlen b)) blob) with Corrupt 0 ;;
  let* p := index_body blob b footer_offset (Decoder_new (slice footer 0 (n - 32))) in
  let* _ := Decoder_finish (snd p) in
  match contiguous (map snd (fst p)) with
  | Some stop => if stop =? footer_offset then Ok (fst p) else Err (Corrupt 0)
  | None => Err (Corrupt 0)
  end.

End Blobs.

(** ** Lemmas *)

Lemma PackRange_new_spec o n r :
  0 <= n -> PackRange_new o n = Ok r <-> r = mkPackRange o n /\ 1 <= n /\ o + n <= U64_MAX.
Proof.
  intros Hn. unfold PackRange_new. rewrite fail_if_Ok, rbind_Ok. split.
  - intros (G & a & Ha & [= <-]). apply ok_or_Ok, checked_add_Some in Ha as [-> ?]. split; [done|lia].
  - intros (-> & H1 & H2). split; [lia|]. exists (o + n). by rewrite ok_or_Ok, checked_add_Some.
Qed.

Definition extent_ok (e : BlobExtent) : Prop :=
  digest_ok (be_blob e) /\ 0 <= be_offset e /\ 1 <= be_length e /\
  be_offset e + be_length e <= be_blob_length e <= U64_MAX.

Lemma BlobExtent_new_spec blob o n t p e :
  0 <= n -> 0 <= o -> t <= U64_MAX ->
  BlobExtent_new blob o n t p = Ok e <-> e = mkExtent blob o n t /\ 1 <= n /\ n = p /\ o + n <= t.
Proof.
  intros Hn Ho Ht. unfold BlobExtent_new. rewrite fail_if_Ok, !orb_false_iff. split.
  - intros (((G1 & G2) & G3) & [= <-]). bools.
    destruct (checked_add o n) as [z|] eqn:E; [|done]. apply checked_add_Some in E as [-> ?].
    split; [done|lia].
  - intros (-> & H1 & -> & H3). split; [|done].
    assert (checked_add o p = Some (o + p)) as -> by (apply checked_add_Some; lia).
    rewrite Z.eqb_refl. split_and!; [lia|done|lia].
Qed.

(** A pack range that is located lies inside its extent of the blob. *)
Lemma locate_lemma e r s :
  extent_ok e -> 0 <= pk_offset r -> 1 <= pk_length r ->
  BlobExtent_locate e r = Ok s <->
  pk_offset r + pk_length r <= be_length e /\
  s = mkRange (be_offset e + pk_offset r) (pk_length r) (be_offset e + pk_offset r + pk_length r).
Proof.
  intros (_ & He1 & He2 & He3) Ho Hl. unfold BlobExtent_locate. rewrite fail_if_Ok. split.
  - intros (G & E). inv_all. apply checked_add_Some in Hok as [-> ?].
    apply StoredRange_new_spec in E as [-> ?].
    destruct (checked_add _ _) as [z|] eqn:E; [|done]. apply checked_add_Some in E as [-> ?]. split; [lia|done].
  - intros [Hle ->].
    assert (checked_add (pk_offset r) (pk_length r) = Some (pk_offset r + pk_length r)) as ->
      by (apply checked_add_Some; lia).
    split; [lia|].
    assert (checked_add (be_offset e) (pk_offset r) = Some (be_offset e + pk_offset r)) as ->
      by (apply checked_add_Some; lia).
    cbn [range ok_or rbind]. apply value_Ok, StoredRange_new_spec. split; [done|lia].
Qed.

(** *** Batched reads equal direct reads *)

Definition range_ok (r : StoredRange) : Prop :=
  0 <= sr_offset r /\ 0 <= sr_length r /\ sr_end r = sr_offset r + sr_length r.

(** [m] covers [r]: same blob, and the whole range. *)
Definition covers (m : ObjectRange) (r : LocatedRange) : Prop :=
  or_key m = Blob (be_blob (lr_extent r)) /\ range_ok (or_range m) /\
  sr_offset (or_range m) <= sr_offset (lr_range r) /\ sr_end (lr_range r) <= sr_end (or_range m).

(** What the merge maintains: every slot refers to a merged range that covers its
    request, and the last merged range starts before the requests to come. *)
Definition merge_inv (requests : list LocatedRange) (merged : list ObjectRange)
    (slots : list (nat * nat)) (rest : list (nat * LocatedRange)) : Prop :=
  (forall i k, (i, k) ∈ slots -> exists r m, requests !! i = Some r /\ merged !! k = Some m /\ covers m r) /\
  (forall m, last merged = Some m -> range_ok (or_range m)) /\
  (forall m i r, last merged = Some m -> (i, r) ∈ rest ->
     or_key m = Blob (be_blob (lr_extent r)) -> sr_offset (or_range m) <= sr_offset (lr_range r)).

Lemma last_app_removelast {A} (l : list A) x : last l = Some x -> l = removelast l ++ [x].
Proof.
  destruct l as [|a l] using rev_ind; [done|]. rewrite last_snoc. intros [= ->].
  by rewrite removelast_last.
Qed.

Lemma located_leb_same a b :
  located_leb a b = true -> be_blob (lr_extent (snd a)) = be_blob (lr_extent (snd b)) ->
  sr_offset (lr_range (snd a)) <= sr_offset (lr_range (snd b)).
Proof. unfold located_leb. intros E Hb. rewrite Hb, digest_compare_refl in E. lia. Qed.

Lemma merge_push requests merged slots i r rest :
  requests !! i = Some r -> range_ok (lr_range r) ->
  Forall (fun b => located_leb (i, r) b = true) rest ->
  merge_inv requests merged slots ((i, r) :: rest) ->
  merge_inv requests (merged ++ [mkObjectRange (Blob (be_blob (lr_extent r))) (lr_range r)])
    (slots ++ [(i, length merged)]) rest.
Proof.
  intros Hi Hr Hs (Hsl & _ & _). split_and!.
  - intros i' k [Hin|Hin%list_elem_of_singleton]%elem_of_app.
    + destruct (Hsl i' k Hin) as (r' & m & H1 & H2 & H3). exists r', m. split_and!; try done.
      by apply lookup_app_l_Some.
    + injection Hin as -> ->. exists r, (mkObjectRange (Blob (be_blob (lr_extent r))) (lr_range r)).
      split; [done|]. split; [|split_and!; try done; apply Hr].
      rewrite lookup_app_r, Nat.sub_diag by lia. done.
  - intros m. rewrite last_snoc. by intros [= <-].
  - intros m j r'. rewrite last_snoc. intros [= <-] Hin. cbn. intros [= Hb].
    rewrite Forall_forall in Hs. specialize (Hs _ Hin). by apply (located_leb_same _ _ Hs).
Qed.

Lemma merge_extend requests merged slots i r rest m joined :
  requests !! i = Some r -> range_ok (lr_range r) ->
  merge_inv requests merged slots ((i, r) :: rest) -> last merged = Some m ->
  or_key m = Blob (be_blob (lr_extent r)) ->
  joined = mkRange (sr_offset (or_range m))
    (Z.max (sr_end (or_range m)) (sr_end (lr_range r)) - sr_offset (or_range m))
    (sr_offset (or_range m) + (Z.max (sr_end (or_range m)) (sr_end (lr_range r)) - sr_offset (or_range m))) ->
  merge_inv requests (removelast merged ++ [mkObjectRange (Blob (be_blob (lr_extent r))) joined])
    (slots ++ [(i, (length merged - 1)%nat)]) rest.
Proof.
  intros Hi Hr (Hsl & Hl & Hrest) Hm Hk ->. specialize (Hl m Hm) as (L1 & L2 & L3).
  specialize (Hrest m) as Hrest'. pose proof (Hrest' i r Hm ltac:(by left) Hk) as Hle.
  destruct Hr as (R1 & R2 & R3). pose proof (last_app_removelast _ _ Hm) as Hsplit.
  set (pre := removelast merged) in *.
  assert (length merged - 1 = length pre)%nat as -> by (rewrite Hsplit, length_app; simpl; lia).
  split_and!.
  - intros i' k [Hin|Hin%list_elem_of_singleton]%elem_of_app.
    + destruct (Hsl i' k Hin) as (r' & m' & H1 & H2 & (K1 & K2 & K3 & K4)).
      rewrite Hsplit in H2. apply lookup_app_Some in H2 as [H2|[Hge H2]].
      * exists r', m'. split_and!; try done. by apply lookup_app_l_Some.
      * destruct (k - length pre)%nat eqn:Ek; [|done]. injection H2 as ->.
        eexists r', _. split; [done|]. split.
        { rewrite lookup_app_r, Ek by done. done. }
        unfold covers, range_ok. cbn [or_key or_range sr_offset sr_length sr_end].
        split_and!; try lia. by rewrite <- Hk.
    + injection Hin as -> ->. eexists r, _. split; [done|]. split.
      { rewrite lookup_app_r, Nat.sub_diag by lia. done. }
      unfold covers, range_ok. cbn [or_key or_range sr_offset sr_length sr_end]. split_and!; try lia; done.
  - intros m'. rewrite last_snoc. intros [= <-]. unfold range_ok.
    cbn [or_range sr_offset sr_length sr_end]. lia.
  - intros m' j r'. rewrite last_snoc. intros [= <-] Hin. cbn. intros Hb.
    apply (Hrest' j r' Hm); [by right|]. by rewrite Hk.
Qed.

Lemma merge_step_inv requests merged slots i r rest m1 s1 :
  requests !! i = Some r -> range_ok (lr_range r) ->
  Forall (fun b => located_leb (i, r) b = true) rest ->
  merge_inv requests merged slots ((i, r) :: rest) ->
  merge_step (merged, slots) (i, r) = Ok (m1, s1) ->
  merge_inv requests m1 s1 rest /\ map fst s1 = map fst slots ++ [i].
Proof.
  intros Hi Hr Hall Hinv E. unfold merge_step in E.
  assert (forall m1 s1, (let* r0 := backend (ObjectRange_new (Blob (be_blob (lr_extent r))) (lr_range r)) in
    Ok (merged ++ [r0], slots ++ [(i, length merged)])) = Ok (m1, s1) ->
    merge_inv requests m1 s1 rest /\ map fst s1 = map fst slots ++ [i]) as Hpush.
  { intros m2 s2 E2. inv_ok. apply backend_Ok in Hok. unfold ObjectRange_new in Hok. inv_ok. subst.
    split; [by apply merge_push|]. by rewrite map_app. }
  destruct (last merged) as [m|] eqn:El; [|by apply Hpush].
  destruct (bool_decide _ && _) eqn:Ec; [|by apply Hpush]. bools. inv_all.
  apply StoredRange_new_spec in Hok as [-> _]. apply backend_Ok in Hok0.
  unfold ObjectRange_new in Hok0. inv_ok. subst.
  split; [by eapply merge_extend|]. by rewrite map_app.
Qed.

Lemma merge_fold requests rest : forall merged slots merged' slots',
  Forall (fun p => requests !! fst p = Some (snd p) /\ range_ok (lr_range (snd p))) rest ->
  StronglySorted (fun a b => located_leb a b = true) rest ->
  merge_inv requests merged slots rest ->
  mfold merge_step (merged, slots) rest = Ok (merged', slots') ->
  (forall i k, (i, k) ∈ slots' -> exists r m, requests !! i = Some r /\ merged' !! k = Some m /\ covers m r) /\
  map fst slots' = map fst slots ++ map fst rest.
Proof.
  induction rest as [|[i r] rest IH]; intros merged slots merged' slots' Hok Hs Hinv E; cbn [mfold] in E.
  { inv_ok. subst. split; [apply Hinv|]. by rewrite app_nil_r. }
  inversion Hok as [|? ? [Hi Hr] Hok']; subst. inversion Hs as [|? ? Hs' Hall]; subst. cbn [fst snd] in *.
  inv_ok. destruct a as [m1 s1].
  destruct (merge_step_inv requests merged slots i r rest m1 s1 Hi Hr Hall Hinv Hok0) as [Hinv1 Hmap].
  apply IH in E as [E1 E2]; [|done|done|done]. split; [done|].
  rewrite E2, Hmap, <- (assoc_L (++)). done.
Qed.

Lemma located_leb_total a b : located_leb a b = true \/ located_leb b a = true.
Proof.
  unfold located_leb. rewrite (digest_compare_antisym (be_blob (lr_extent (snd a)))).
  destruct (digest_compare _ _); simpl; auto.
  destruct (Z.leb_spec (sr_offset (lr_range a.2)) (sr_offset (lr_range b.2))); [by left|right; lia].
Qed.

Lemma located_leb_trans a b c :
  located_leb a b = true -> located_leb b c = true -> located_leb a c = true.
Proof.
  unfold located_leb.
  destruct (digest_compare (be_blob (lr_extent a.2)) (be_blob (lr_extent b.2))) eqn:E1; try done;
  destruct (digest_compare (be_blob (lr_extent b.2)) (be_blob (lr_extent c.2))) eqn:E2; try done.
  - apply digest_compare_eq in E1, E2. rewrite E1, E2, digest_compare_refl. lia.
  - apply digest_compare_eq in E1. by rewrite E1, E2.
  - apply digest_compare_eq in E2. by rewrite <- E2, E1.
  - by rewrite (digest_compare_lt_trans _ _ _ E1 E2).
Qed.

Lemma order_sorted requests : StronglySorted (fun a b => located_leb a b = true) (order requests).
Proof. apply isort_sorted; [apply located_leb_total|apply located_leb_trans]. Qed.

Lemma order_elem requests i r : (i, r) ∈ order requests <-> requests !! i = Some r.
Proof.
  unfold order. rewrite isort_perm. rewrite list_elem_of_lookup. split.
  - intros [j Hj]. rewrite list_lookup_imap in Hj. destruct (requests !! j) eqn:E; [|done].
    simpl in Hj. by simplify_eq.
  - intros Hr. exists i. by rewrite list_lookup_imap, Hr.
Qed.

(** The bytes a request stands for. *)
Definition direct_read (objects : gmap ObjectKey bytes) (r : LocatedRange) (v : bytes) : Prop :=
  exists o, objects !! Blob (be_blob (lr_extent r)) = Some o /\ sr_end (lr_range r) <= zlen o /\
    v = slice o (sr_offset (lr_range r)) (sr_end (lr_range r)).

Section ReadRanges.
Context {B : Type} `{BE : StorageBackend B} `{BL : !BackendLaws B}.

Lemma fill_slot_spec (b : B) requests merged answers out i k out' :
  read_ranges b merged = Ok answers ->
  (exists r m, requests !! i = Some r /\ merged !! k = Some m /\ covers m r /\ range_ok (lr_range r)) ->
  fill_slot requests merged answers out (i, k) = Ok out' ->
  exists r v, requests !! i = Some r /\ direct_read (contents b) r v /\ out' = <[i := v]> out.
Proof.
  intros Hread (r & m & Hi & Hk & (C1 & (M1 & M2 & M3) & C3 & C4) & (R1 & R2 & R3)) E.
  unfold fill_slot in E. rewrite Hi, Hk in E. apply read_ranges_exact in Hread.
  destruct (Forall2_lookup_l _ _ _ _ _ Hread Hk) as (v & Hv & o & Ho & Hoe & ->).
  rewrite Hv in E. inv_all. apply checked_add_Some in Hok as [-> _].
  exists r. eexists. split; [done|]. split; [|done]. exists o. rewrite <- C1. split; [done|]. split; [lia|].
  rewrite slice_slice by lia. f_equal; lia.
Qed.

Lemma fill_fold (b : B) requests merged answers slots : forall out out',
  read_ranges b merged = Ok answers ->
  (forall i k, (i, k) ∈ slots -> exists r m, requests !! i = Some r /\ merged !! k = Some m /\
     covers m r /\ range_ok (lr_range r)) ->
  mfold (fill_slot requests merged answers) out slots = Ok out' ->
  length out = length requests ->
  length out' = length requests /\
  (forall i r, i ∈ map fst slots -> requests !! i = Some r ->
     exists v, out' !! i = Some v /\ direct_read (contents b) r v) /\
  (forall i, i ∉ map fst slots -> out' !! i = out !! i).
Proof.
  induction slots as [|[i k] slots IH]; intros out out' Hread Hs E Hlen; cbn [mfold] in E.
  { inv_ok. subst. split; [done|]. split; [|done]. intros ? ? Hin. by apply elem_of_nil in Hin. }
  inv_ok. apply (fill_slot_spec b) in Hok as (r & v & Hi & Hd & ->); [|done|apply Hs; by left].
  apply IH in E as (L & S1 & S2); [|done|intros; apply Hs; by right|by rewrite length_insert].
  split; [done|]. split.
  - intros j r' Hj Hr'. cbn [map fst] in Hj. destruct (decide (j ∈ map fst slots)) as [Hin|Hnin].
    + by apply S1.
    + apply elem_of_cons in Hj as [->|]; [|done]. rewrite Hi in Hr'. injection Hr' as <-.
      exists v. split; [|done]. rewrite S2 by done. apply list_lookup_insert_eq.
      rewrite Hlen. by eapply lookup_lt_Some.
  - intros j Hj. cbn [map fst] in Hj. rewrite S2 by set_solver. apply list_lookup_insert_ne. set_solver.
Qed.

Lemma read_ranges_lemma (b : B) requests out :
  Forall (fun r => range_ok (lr_range r)) requests ->
  pin_read_ranges b requests = Ok out ->
  Forall2 (direct_read (contents b)) requests out.
Proof.
  intros Hok E. unfold pin_read_ranges in E. inv_ok. destruct a0 as [merged slots]. inv_ok.
  apply backend_Ok in Hok2.
  assert (Forall (fun p => requests !! fst p = Some (snd p) /\ range_ok (lr_range (snd p))) (order requests)) as Hord.
  { rewrite Forall_forall. intros [i r] Hin. apply order_elem in Hin. cbn [fst snd]. split; [done|].
    by eapply Forall_lookup_1 in Hok. }
  destruct (merge_fold requests (order requests) [] [] merged slots) as [Hs Hmap].
  { done. } { apply order_sorted. }
  { split_and!; [intros ? ? Hin; by apply elem_of_nil in Hin|done|done]. } { done. }
  apply (fill_fold b) in E as (Hlen & Hin & _); [| done | | by rewrite length_replicate].
  2:{ intros i k Hik. destruct (Hs i k Hik) as (r & m & H1 & H2 & H3). exists r, m. split_and!; try done.
      by eapply Forall_lookup_1 in Hok. }
  apply Forall2_same_length_lookup_2; [done|].
  intros i r v Hr Hv. destruct (Hin i r) as (v' & Hv' & Hd); [|done|].
  - rewrite Hmap. cbn [map app]. apply (list_elem_of_fmap_2 fst _ (i, r)). by apply order_elem.
  - rewrite Hv in Hv'. by injection Hv' as ->.
Qed.

(** *** Reads of stored ranges succeed *)

Context `{BV : !BackendLive B}.

(** A range of a stored blob, nonempty and addressable. *)
Definition stored_range (b : B) (key : ObjectKey) (r : StoredRange) : Prop :=
  range_ok r /\ 1 <= sr_length r /\ sr_end r <= U64_MAX /\
  exists o, contents b !! key = Some o /\ sr_end r <= zlen o.

Definition stored_request (b : B) (r : LocatedRange) : Prop :=
  stored_range b (Blob (be_blob (lr_extent r))) (lr_range r).

Definition merged_total (l : list ObjectRange) : Z := foldr (fun m n => sr_length (or_range m) + n) 0 l.
Definition request_total (l : list LocatedRange) : Z := foldr (fun r n => sr_length (lr_range r) + n) 0 l.

Lemma merged_total_app l k : merged_total (l ++ k) = merged_total l + merged_total k.
Proof. induction l as [|m l IH]; cbn; [done|]. unfold merged_total in *. lia. Qed.

Lemma merged_total_lower b l : Forall (fun m => stored_range b (or_key m) (or_range m)) l -> 0 <= merged_total l.
Proof. induction 1 as [|m l (_ & Hm & _) _ IH]; cbn; [done|]. unfold merged_total in *. lia. Qed.

(** One merge step succeeds, keeps every merged range stored, and adds no more
    than the request's length. *)
Lemma merge_step_live (b : B) merged slots i r rest requests :
  stored_request b r -> Forall (fun m => stored_range b (or_key m) (or_range m)) merged ->
  merge_inv requests merged slots ((i, r) :: rest) ->
  exists merged' slots', merge_step (merged, slots) (i, r) = Ok (merged', slots') /\
    Forall (fun m => stored_range b (or_key m) (or_range m)) merged' /\ merged' <> [] /\
    zlen merged' <= zlen merged + 1 /\ merged_total merged' <= merged_total merged + sr_length (lr_range r).
Proof.
  intros Hr Hm (_ & _ & Hinv). pose proof Hr as ((R1 & R2 & R3) & R4 & R5 & o & Ho & R6).
  unfold merge_step.
  assert (forall l, Forall (fun m => stored_range b (or_key m) (or_range m)) l ->
    exists merged' slots', (let* r0 := backend (ObjectRange_new (Blob (be_blob (lr_extent r))) (lr_range r)) in
      Ok (l ++ [r0], slots ++ [(i, length l)])) = Ok (merged', slots') /\
    Forall (fun m => stored_range b (or_key m) (or_range m)) merged' /\ merged' <> [] /\
    zlen merged' <= zlen l + 1 /\ merged_total merged' <= merged_total l + sr_length (lr_range r)) as Hpush.
  { intros l Hl. unfold ObjectRange_new. rewrite (proj2 (Z.eqb_neq _ _)) by lia. cbn [backend map_err rbind].
    eexists _, _. split; [done|]. split; [apply Forall_app; split; [done|]; by apply Forall_singleton|].
    split; [by destruct l|]. rewrite zlen_app, merged_total_app. cbn. change (zlen [_]) with 1. lia. }
  destruct (last merged) as [m|] eqn:El; [|by apply Hpush].
  destruct (bool_decide _ && _) eqn:Ec; [|by apply Hpush]. bools. clear Hpush.
  pose proof (last_app_removelast _ _ El) as Hsplit. set (pre := removelast merged) in *.
  rewrite Hsplit in Hm. apply Forall_app in Hm as [Hpre Hlast]. apply Forall_inv in Hlast.
  destruct Hlast as ((M1 & M2 & M3) & M4 & M5 & o' & Ho' & M6).
  match goal with Hk : or_key m = _ |- _ => rename Hk into Hkey end.
  specialize (Hinv m i r eq_refl ltac:(by left) Hkey).
  set (joined := mkRange (sr_offset (or_range m))
    (Z.max (sr_end (or_range m)) (sr_end (lr_range r)) - sr_offset (or_range m))
    (sr_offset (or_range m) + (Z.max (sr_end (or_range m)) (sr_end (lr_range r)) - sr_offset (or_range m)))).
  rewrite (proj2 (value_Ok _ joined)) by (apply StoredRange_new_spec; split; [done|lia]).
  cbn [rbind]. unfold ObjectRange_new. cbn [joined sr_length]. rewrite (proj2 (Z.eqb_neq _ _)) by lia.
  cbn [backend map_err rbind]. eexists _, _. split; [done|]. fold joined.
  rewrite Hsplit, !zlen_app, !merged_total_app. cbn [merged_total foldr or_range]. split_and!.
  - apply Forall_app. split; [done|]. apply Forall_singleton. rewrite Hkey in Ho'.
    unfold stored_range, range_ok. cbn [or_key or_range joined sr_offset sr_length sr_end].
    split_and!; try lia. exists o'. split; [done|]. rewrite Ho in Ho'. injection Ho' as <-. lia.
  - by destruct pre.
  - change (zlen [_]) with 1. lia.
  - cbn [joined sr_length]. lia.
Qed.

Lemma merge_live (b : B) requests rest : forall merged slots,
  Forall (fun p => requests !! fst p = Some (snd p) /\ range_ok (lr_range (snd p)) /\ stored_request b (snd p)) rest ->
  StronglySorted (fun a b => located_leb a b = true) rest ->
  merge_inv requests merged slots rest ->
  Forall (fun m => stored_range b (or_key m) (or_range m)) merged ->
  exists merged' slots', mfold merge_step (merged, slots) rest = Ok (merged', slots') /\
    Forall (fun m => stored_range b (or_key m) (or_range m)) merged' /\
    (merged <> [] \/ rest <> [] -> merged' <> []) /\
    zlen merged' <= zlen merged + zlen rest /\
    merged_total merged' <= merged_total merged + request_total (map snd rest).
Proof.
  induction rest as [|[i r] rest IH]; intros merged slots Hok Hs Hinv Hm; cbn [mfold].
  { exists merged, slots. split_and!; try done; [intros [|]; done|change (zlen (@nil (nat * LocatedRange))) with 0; lia|cbn; lia]. }
  inversion Hok as [|? ? (Hi & Hr & Hst) Hok']; subst. inversion Hs as [|? ? Hs' Hall]; subst. cbn [fst snd] in *.
  destruct (merge_step_live b merged slots i r rest requests Hst Hm Hinv) as (m1 & s1 & E1 & F1 & N1 & L1 & T1).
  rewrite E1. cbn [rbind].
  assert (merge_inv requests m1 s1 rest) as Hinv1.
  { by eapply merge_step_inv. }
  destruct (IH m1 s1 Hok' Hs' Hinv1 F1) as (m2 & s2 & E2 & F2 & N2 & L2 & T2).
  exists m2, s2. rewrite zlen_cons. cbn [map request_total foldr snd]. split_and!; try done.
  - intros _. apply N2. by left.
  - lia.
  - unfold request_total in *. lia.
Qed.

Lemma fill_live (b : B) requests merged answers slots : forall out,
  read_ranges b merged = Ok answers ->
  Forall (fun m => stored_range b (or_key m) (or_range m)) merged ->
  (forall i k, (i, k) ∈ slots -> exists r m, requests !! i = Some r /\ merged !! k = Some m /\
     covers m r /\ range_ok (lr_range r)) ->
  exists out', mfold (fill_slot requests merged answers) out slots = Ok out'.
Proof.
  induction slots as [|[i k] slots IH]; intros out Hread Hm Hs; cbn [mfold]; [by eexists|].
  destruct (Hs i k) as (r & m & Hi & Hk & (C1 & (M1 & M2 & M3) & C3 & C4) & (R1 & R2 & R3)); [by left|].
  unfold fill_slot at 1. rewrite Hi, Hk. pose proof (read_ranges_exact _ _ _ Hread) as Hex.
  destruct (Forall2_lookup_l _ _ _ _ _ Hex Hk) as (v & Hv & o & Ho & Hoe & ->). rewrite Hv.
  pose proof (Forall_lookup_1 _ _ _ _ Hm Hk) as (_ & _ & Hmax & _).
  rewrite (proj2 (checked_add_Some _ _ _)) by (split; [done|lia]). cbn [range ok_or rbind].
  rewrite zlen_slice, (proj2 (Z.ltb_ge _ _)) by lia. cbn [rbind].
  apply IH; try done. intros; apply Hs. by right.
Qed.

Lemma batch_total_live b : forall l acc,
  Forall (fun m => stored_range b (or_key m) (or_range m)) l -> acc + merged_total l <= U64_MAX ->
  mfold (fun total r => ok_or (checked_add total (sr_length (or_range r))) BRange) acc l =
  Ok (acc + merged_total l).
Proof.
  induction l as [|m l IH]; intros acc Hl Hmax; cbn [mfold]; [cbn; by rewrite Z.add_0_r|].
  inversion Hl as [|? ? Hm Hl']; subst. pose proof (merged_total_lower b l Hl') as H0.
  cbn [merged_total foldr] in Hmax. fold (merged_total l) in Hmax.
  rewrite (proj2 (checked_add_Some _ _ _)) by (split; [done|lia]). cbn [ok_or rbind].
  rewrite IH by (done || lia). cbn [merged_total foldr]. fold (merged_total l). f_equal. lia.
Qed.

Lemma total_length_live b : forall l acc,
  Forall (stored_request b) l -> acc + request_total l <= U64_MAX ->
  mfold (fun total r => range (checked_add total (sr_length (lr_range r)))) acc l =
  Ok (acc + request_total l) /\ 0 <= request_total l.
Proof.
  induction l as [|r l IH]; intros acc Hl Hmax; cbn [mfold]; [cbn; split; [by rewrite Z.add_0_r|done]|].
  inversion Hl as [|? ? (_ & Hr & _) Hl']; subst. cbn [request_total foldr] in Hmax. fold (request_total l) in Hmax.
  assert (0 <= request_total l) as H0.
  { clear -Hl'. induction Hl' as [|x l (_ & Hx & _) _ IH]; cbn; [done|]. unfold request_total in *. lia. }
  rewrite (proj2 (checked_add_Some _ _ _)) by (split; [done|lia]). cbn [range ok_or rbind].
  destruct (IH (acc + sr_length (lr_range r)) Hl') as [-> _]; [lia|].
  cbn [request_total foldr]. fold (request_total l). split; [f_equal; lia|lia].
Qed.

Lemma request_total_perm l k : l ≡ₚ k -> request_total l = request_total k.
Proof. induction 1; cbn; unfold request_total in *; lia. Qed.

Lemma order_requests requests : map snd (order requests) ≡ₚ requests /\ length (order requests) = length requests.
Proof.
  unfold order. rewrite isort_perm, length_imap. split; [|done].
  assert (map snd (imap pair requests) = requests) as Hm; [|by rewrite Hm].
  apply list_eq. intros i. rewrite list_lookup_fmap, list_lookup_imap. by destruct (requests !! i).
Qed.

Lemma read_ranges_complete (b : B) requests :
  1 <= zlen requests <= 4096 -> request_total requests <= MAX_BATCH_BYTES ->
  Forall (stored_request b) requests -> exists out, pin_read_ranges b requests = Ok out.
Proof.
  intros Hn Ht Hst. unfold pin_read_ranges, MAX_BATCH_BYTES in *.
  rewrite (proj2 (orb_false_iff _ _)) by lia. unfold total_length.
  destruct (total_length_live b requests 0 Hst) as [-> H0]; [unfold U64_MAX; lia|].
  cbn [rbind]. rewrite (proj2 (Z.ltb_ge _ _)) by lia.
  destruct (order_requests requests) as [Hperm Hlen].
  assert (Forall (fun p => requests !! fst p = Some (snd p) /\ range_ok (lr_range (snd p)) /\
    stored_request b (snd p)) (order requests)) as Hord.
  { rewrite Forall_forall. intros [i r] Hin. apply order_elem in Hin. cbn [fst snd].
    pose proof (Forall_lookup_1 _ _ _ _ Hst Hin) as Hr. split_and!; try done. apply Hr. }
  destruct (merge_live b requests (order requests) [] []) as (merged & slots & E & Hm & Hne & Hl & Htot);
    [done|apply order_sorted| |constructor|].
  { split_and!; [intros ? ? Hin; by apply elem_of_nil in Hin|done|done]. }
  rewrite E. cbn [rbind]. rewrite (request_total_perm _ _ Hperm) in Htot.
  unfold zlen at 2 3 in Hl. rewrite Hlen in Hl. fold (zlen requests) in Hl. cbn [length merged_total foldr] in Hl, Htot.
  assert (merged <> []) as Hne'.
  { apply Hne. right. intros Hnil. rewrite Hnil in Hlen. unfold zlen in Hn. cbn in Hlen. lia. }
  assert (check_batch merged = Ok tt) as Hc.
  { unfold check_batch, batch_total, MAX_BATCH_BYTES. rewrite (batch_total_live b) by (done || unfold U64_MAX; lia).
    assert (1 <= zlen merged) by (destruct merged; [done|]; rewrite zlen_cons; pose proof (zlen_nonneg merged); lia).
    rewrite (proj2 (orb_false_iff _ _)) by lia. cbn [rbind]. by rewrite (proj2 (Z.ltb_ge _ _)) by lia. }
  destruct (read_ranges_live b merged Hc) as [answers Hread].
  { eapply Forall_impl; [exact Hm|]. intros m (_ & _ & _ & o & Ho & Hoe). by exists o. }
  rewrite Hread. cbn [backend map_err rbind]. pose proof (read_ranges_exact _ _ _ Hread) as Hex.
  rewrite <- (Forall2_length _ _ _ Hex), Nat.eqb_refl. cbn [negb orb].
  assert (existsb (fun p => negb (zlen (fst p) =? sr_length (or_range (snd p)))) (zip answers merged) = false) as ->.
  { apply not_true_iff_false. rewrite existsb_exists. intros ([v m] & Hin & Hv). cbn [fst snd] in Hv.
    apply list_elem_of_In, list_elem_of_lookup in Hin as [k Hk]. apply lookup_zip_Some in Hk as [Ha Hk].
    destruct (Forall2_lookup_l _ _ _ _ _ Hex Hk) as (v' & Hv' & o & Ho & Hoe & ->).
    cbn [fst] in Ha. rewrite Hv' in Ha. injection Ha as <-.
    destruct (Forall_lookup_1 _ _ _ _ Hm Hk) as ((M1 & M2 & M3) & _).
    rewrite zlen_slice in Hv by lia. apply negb_true_iff in Hv. lia. }
  destruct (merge_fold requests (order requests) [] [] merged slots) as [Hs _];
    [|apply order_sorted| |done|].
  { eapply Forall_impl; [exact Hord|]. naive_solver. }
  { split_and!; [intros ? ? Hin; by apply elem_of_nil in Hin|done|done]. }
  apply (fill_live b); try done. intros i k Hik. destruct (Hs i k Hik) as (r & m & H1 & H2 & H3).
  exists r, m. split_and!; try done. by apply (Forall_lookup_1 _ _ _ _ Hst H1).
Qed.

(** A batch of page-frame reads, sorted, merged into fewer backend ranges and
    cut apart again, returns for every request exactly the bytes of its blob range,
    in request order; and it succeeds whenever the requested ranges are stored and
    the batch is within the request and byte limits. *)
Theorem batched_reads_equal_direct_reads (b : B) requests :
  Forall (fun r => range_ok (lr_range r)) requests ->
  (forall out, pin_read_ranges b requests = Ok out -> Forall2 (direct_read (contents b)) requests out) /\
  (1 <= zlen requests <= 4096 -> request_total requests <= MAX_BATCH_BYTES ->
   Forall (stored_request b) requests -> exists out, pin_read_ranges b requests = Ok out).
Proof.
  intros Hok. split; [intros out; by apply read_ranges_lemma|apply read_ranges_complete].
Qed.
End ReadRanges.

(** *** Placement records *)

Section PlacementLemmas.
Context {H : Hashes} {HOK : HashesOk H}.

Definition representation_ok (pack : Digest) (length : Z) (r : Representation) : Prop :=
  r = Representation_new pack (rp_extent r) /\ extent_ok (rp_extent r) /\
  be_length (rp_extent r) = length /\ BLOB_HEADER <= be_offset (rp_extent r).

Definition placements_ok (p : Placements) : Prop :=
  digest_ok (pl_pack p) /\ is_u64 (pl_length p) /\ digest_ok (pl_cohort p) /\
  1 <= zlen (pl_representations p) <= 64 /\
  Forall (representation_ok (pl_pack p) (pl_length p)) (pl_representations p) /\
  NoDup (map rp_id (pl_representations p)).

Lemma reads_representations l pack length ids :
  Forall (representation_ok pack length) l -> NoDup (map rp_id l) ->
  (forall r, r ∈ l -> rp_id r ∉ ids) ->
  reads (decode_representations (base.length l) pack length ids)
    (concat (map encode_representation l)) l.
Proof.
  revert ids; induction l as [|r l IH]; intros ids Hok Hnd Hids; [apply reads_ret|].
  inversion Hok as [|? ? (Hr & He & Hl & Ho) Hok']; subst. cbn [map] in Hnd. apply NoDup_cons in Hnd as [Hn Hnd].
  pose proof He as (Hb & E1 & E2 & E3). unfold U64_MAX in *.
  assert (digest_ok (rp_id r)) as Hid by (rewrite Hr; split; [apply blake3_length|apply blake3_bytes]).
  cbn [base.length decode_representations map concat]. unfold encode_representation at 1.
  rewrite <- !(assoc_L (++)).
  eapply reads_bind; [by apply reads_digest|].
  eapply reads_bind; [by apply reads_digest|].
  eapply reads_bind; [apply reads_u64; unfold is_u64; lia|].
  eapply reads_bind; [apply reads_u64; unfold is_u64; lia|].
  eapply reads_bind; [apply reads_u64; unfold is_u64; lia|].
  apply (reads_lift _ _ (rp_extent r)).
  { apply value_Ok, BlobExtent_new_spec; [lia|lia|unfold U64_MAX; lia|].
    split; [by destruct (rp_extent r)|lia]. }
  apply reads_guard.
  { rewrite !orb_false_iff. split_and!; [lia| |apply bool_decide_eq_false, Hids; by left].
    rewrite <- Hr. by rewrite bytes_eqb_refl. }
  eapply reads_bind_end; [|destruct r; apply reads_ret]. apply IH; [done|done|].
  intros q Hq [Hqr%elem_of_singleton|Hqi]%elem_of_union.
  - apply Hn. rewrite <- Hqr. by apply list_elem_of_fmap_2.
  - apply (Hids q); [by right|done].
Qed.

Lemma placements_bytes p : placements_ok p ->
  is_bytes (Placements_encode p) /\ zlen (Placements_encode p) <= 8192.
Proof.
  intros ([P1 P2] & _ & [C1 C2] & Hn & Hr & _). unfold Placements_encode, u64_bytes, u32_bytes.
  assert (forall l, Forall (representation_ok (pl_pack p) (pl_length p)) l ->
    is_bytes (concat (map encode_representation l)) /\
    zlen (concat (map encode_representation l)) = 88 * zlen l) as Hl.
  { induction 1 as [|r l (Hr' & ([B1 B2] & _) & _) Hl [IH1 IH2]]; [done|]. cbn [map concat].
    assert (zlen (rp_id r) = 32 /\ is_bytes (rp_id r)) as [I1 I2]
      by (rewrite Hr'; split; [apply blake3_length|apply blake3_bytes]).
    rewrite Forall_app, zlen_app, zlen_cons.
    unfold encode_representation at 1 3, u64_bytes. rewrite !Forall_app, !zlen_app, !zlen_le_bytes.
    split; [|lia]. split_and!; auto with bytedb. }
  destruct (Hl _ Hr) as [L1 L2]. rewrite !Forall_app, !zlen_app, !zlen_le_bytes.
  change (zlen PLACE_MAGIC) with 8. split; [|lia].
  split_and!; auto with bytedb. apply is_bytes_ascii.
Qed.

Lemma placements_roundtrip_lemma p :
  placements_ok p -> Placements_decode (pl_pack p) (Placements_encode p) = Ok p.
Proof.
  intros Hok. destruct (placements_bytes p Hok) as [Hb Hl].
  pose proof Hok as (Hp & Hlen & Hc & Hn & Hr & Hnd). unfold Placements_decode.
  assert (reads (placements_body (pl_pack p)) (Placements_encode p) p) as R.
  { unfold placements_body, Placements_encode.
    eapply reads_bind; [by apply reads_exact; [|apply is_bytes_ascii]|].
    apply reads_guard; [by rewrite bytes_eqb_refl|].
    eapply reads_bind; [by apply reads_digest|].
    apply reads_guard; [by rewrite bytes_eqb_refl|].
    eapply reads_bind; [by apply reads_u64|].
    eapply reads_bind; [by apply reads_digest|].
    eapply reads_bind; [apply reads_u32; unfold is_u32; lia|].
    apply reads_guard; [apply orb_false_iff; lia|].
    apply (reads_bind_end _ _ _ (pl_representations p)); [|destruct p; apply reads_ret].
    replace (Z.to_nat (zlen (pl_representations p))) with (length (pl_representations p)) by (unfold zlen; lia).
    apply reads_representations; [done|done|]. intros; set_solver. }
  destruct (reads_whole _ _ _ R) as (d & E & Hf); [unfold U64_MAX; lia|done|].
  rewrite E. cbn [rbind fst snd]. by rewrite Hf.
Qed.

(** Adding an extent makes it the preferred one, keeps every other once, and
    preserves the record's validity. *)
Lemma placements_add_lemma p e p' :
  placements_ok p \/ pl_representations p = [] /\ digest_ok (pl_pack p) /\ is_u64 (pl_length p) /\
    digest_ok (pl_cohort p) ->
  extent_ok e -> BLOB_HEADER <= be_offset e -> Placements_add p e = Ok p' ->
  placements_ok p' /\ preferred p' = Some (Representation_new (pl_pack p) e) /\
  pl_pack p' = pl_pack p /\ pl_length p' = pl_length p /\ pl_cohort p' = pl_cohort p /\
  forall r, r ∈ pl_representations p -> rp_id r <> rp_id (Representation_new (pl_pack p) e) ->
    r ∈ pl_representations p'.
Proof.
  intros Hok He Ho E. unfold Placements_add in E. inv_ok. bools. subst p'.
  set (r := Representation_new (pl_pack p) e) in *.
  set (others := List.filter _ (pl_representations p)) in *.
  cbn [pl_pack pl_length pl_cohort pl_representations preferred head].
  assert (Forall (representation_ok (pl_pack p) (pl_length p)) (pl_representations p) /\
    NoDup (map rp_id (pl_representations p)) /\ digest_ok (pl_pack p) /\ is_u64 (pl_length p) /\
    digest_ok (pl_cohort p)) as (Hf & Hnd & Hp & Hl & Hc).
  { destruct Hok as [(?&?&?&?&?&?)|(-> & ?)]; [done|]. split; [constructor|]. split; [constructor|done]. }
  assert (forall x, x ∈ others <-> x ∈ pl_representations p /\ rp_id x <> rp_id r) as Hoth.
  { intros x. unfold others. rewrite list_elem_of_In, filter_In, <- list_elem_of_In, negb_true_iff, bytes_eqb_false. done. }
  split; [|split_and!; try done; intros x Hx Hne; right; by apply Hoth].
  pose proof (zlen_nonneg others). rewrite zlen_cons in *. unfold placements_ok.
  cbn [pl_pack pl_length pl_cohort pl_representations]. rewrite zlen_cons.
  split_and!; try done; try lia.
  - constructor.
    + split_and!; try done. unfold r. cbn [rp_extent Representation_new]. lia.
    + rewrite Forall_forall in *. intros x Hx. apply Hf. by apply Hoth.
  - cbn [map]. apply NoDup_cons. split.
    + intros (x & Hx & Hin)%list_elem_of_fmap. apply Hoth in Hin as [_ Hne]. by rewrite Hx in Hne.
    + clear -Hnd. unfold others. induction (pl_representations p) as [|x l IH]; simpl; [constructor|].
      cbn [map] in Hnd. apply NoDup_cons in Hnd as [Hn Hnd].
      destruct (negb _); [|by apply IH]. cbn [map]. apply NoDup_cons. split; [|by apply IH].
      intros (y & Hy & Hin)%list_elem_of_fmap. apply Hn. rewrite Hy. apply list_elem_of_fmap_2.
      rewrite list_elem_of_In, filter_In, <- list_elem_of_In in Hin. apply Hin.
Qed.

(** Recording a new extent of a pack makes it the preferred representation,
    keeps every other one, preserves the record's invariants (identities derived
    from their extents, no duplicates, at most 64), and the updated record
    survives its encoding. *)
Theorem placements_add_preferred p e p' :
  placements_ok p \/ pl_representations p = [] /\ digest_ok (pl_pack p) /\ is_u64 (pl_length p) /\
    digest_ok (pl_cohort p) ->
  extent_ok e -> BLOB_HEADER <= be_offset e -> Placements_add p e = Ok p' ->
  placements_ok p' /\ preferred p' = Some (Representation_new (pl_pack p) e) /\
  (forall r, r ∈ pl_representations p -> rp_id r <> rp_id (Representation_new (pl_pack p) e) ->
     r ∈ pl_representations p') /\
  Placements_decode (pl_pack p) (Placements_encode p') = Ok p'.
Proof.
  intros Hp He Ho E. destruct (placements_add_lemma p e p' Hp He Ho E) as (Hok & Hpref & Hpk & _ & _ & Hkeep).
  split_and!; try done. rewrite <- Hpk. by apply placements_roundtrip_lemma.
Qed.
End PlacementLemmas.

(** *** Blob containers *)

Section BlobLemmas.
Context {H : Hashes} {HOK : HashesOk H}.

(** A pack as a blob stores it: its identity and its frames. *)
Definition stored_pack : Type := Digest * list EncodedFrame.

Definition stored_ok (p : stored_pack) : Prop :=
  digest_ok p.1 /\ pack_id p.2 = Ok p.1 /\ Forall frame_intact p.2 /\
  is_bytes (pack_bytes p.2) /\ zlen (pack_bytes p.2) <= U64_MAX.

(** Streaming a pack and recording it, as relocation does for every pack. *)
Definition write_pack (w : BlobWriter) (p : stored_pack) : result StoreError BlobWriter :=
  let* w1 := BlobWriter_write w (pack_bytes p.2) in
  complete_pack w1 p.1 (bw_offset w).

(** The rows of packs written from [offset] on. *)
Fixpoint pack_rows (offset : Z) (packs : list stored_pack) : list (list Z * (Z * Z)) :=
  match packs with
  | [] => []
  | p :: ps => (p.1, (offset, zlen (pack_bytes p.2))) :: pack_rows (offset + zlen (pack_bytes p.2)) ps
  end.

Definition blob_body (packs : list stored_pack) : bytes :=
  put (zeros 32) 0 BLOB_MAGIC ++ concat (map (fun p => pack_bytes p.2) packs).

Definition writer_inv (w : BlobWriter) (packs : list stored_pack) : Prop :=
  bw_bytes w = blob_body packs /\ bw_offset w = zlen (blob_body packs) /\ bw_offset w <= U64_MAX /\
  NoDup (map fst packs) /\ Z.of_nat (size (bw_ranges w)) <= 4096 /\
  map_to_list (bw_ranges w) ≡ₚ pack_rows 32 packs.

Lemma pack_rows_app offset ps p :
  pack_rows offset (ps ++ [p]) =
  pack_rows offset ps ++
  [(p.1, (offset + zlen (concat (map (fun p => pack_bytes p.2) ps)), zlen (pack_bytes p.2)))].
Proof.
  revert offset; induction ps as [|q ps IH]; intros offset; cbn [app pack_rows map concat].
  - by rewrite Z.add_0_r.
  - rewrite IH, zlen_app. cbn [app]. do 5 f_equal. lia.
Qed.

Lemma pack_rows_fst offset ps : map fst (pack_rows offset ps) = map fst ps.
Proof. revert offset; induction ps as [|p ps IH]; intros; cbn; [done|]. by rewrite IH. Qed.

Lemma zlen_blob_body ps :
  zlen (blob_body ps) = 32 + zlen (concat (map (fun p => pack_bytes p.2) ps)).
Proof. unfold blob_body. by rewrite zlen_app. Qed.

Lemma writer_new_inv : writer_inv BlobWriter_new [].
Proof.
  split_and!; try done. constructor.
Qed.

Lemma write_pack_inv w packs p w' :
  writer_inv w packs -> write_pack w p = Ok w' -> writer_inv w' (packs ++ [p]).
Proof.
  intros (Hb & Ho & Hm & Hnd & Hs & Hr) E. unfold write_pack, BlobWriter_write, complete_pack in E.
  inv_ok. subst. apply checked_add_Some in Hok0 as [-> Hle]. cbn [bw_ranges bw_offset bw_bytes] in *.
  apply orb_false_iff in Hguard as [Hg Hgo]. apply orb_false_iff in Hg as [Hgs Hgd]. bools.
  assert (bw_ranges w !! p.1 = None) as Hnone by (destruct (bw_ranges w !! p.1); [by destruct Hgd|done]).
  assert (blob_body (packs ++ [p]) = blob_body packs ++ pack_bytes p.2) as Hbody.
  { unfold blob_body. rewrite map_app, concat_app. cbn [map concat]. by rewrite app_nil_r, (assoc_L (++)). }
  unfold writer_inv. cbn [bw_ranges bw_offset bw_bytes]. rewrite Hbody, zlen_app.
  split_and!; try lia; try congruence.
  - rewrite map_app. cbn [map]. apply NoDup_app. split; [done|]. split; [|apply NoDup_singleton].
    intros x Hx ->%list_elem_of_singleton.
    assert (p.1 ∈ map fst (pack_rows 32 packs)) as ([k v] & Hk & Hin)%list_elem_of_fmap
      by (rewrite pack_rows_fst; exact Hx).
    rewrite <- Hr in Hin. apply elem_of_map_to_list in Hin. cbn [fst] in Hk. congruence.
  - rewrite map_size_insert_None by done. lia.
  - rewrite map_to_list_insert by done. rewrite pack_rows_app, Hr.
    rewrite <- Permutation_cons_append.
    replace (bw_offset w + zlen (pack_bytes p.2) - bw_offset w) with (zlen (pack_bytes p.2)) by lia.
    by rewrite Ho, zlen_blob_body.
Qed.

Lemma write_packs_inv packs : forall w w' done,
  writer_inv w done -> mfold write_pack w packs = Ok w' -> writer_inv w' (done ++ packs).
Proof.
  induction packs as [|p ps IH]; intros w w' dn Hw E; cbn [mfold] in E.
  - inv_ok. subst. by rewrite app_nil_r.
  - inv_ok. apply (write_pack_inv _ dn) in Hok; [|done]. apply (IH _ _ (dn ++ [p])) in E; [|done].
    by rewrite <- (assoc_L (++)) in E.
Qed.

(** Each row locates its pack's bytes in the blob. *)
Lemma pack_rows_slice packs tail offset pre k o n :
  zlen pre = offset -> (k, (o, n)) ∈ pack_rows offset packs ->
  exists p, p ∈ packs /\ p.1 = k /\ n = zlen (pack_bytes p.2) /\ offset <= o /\
    o + n <= offset + zlen (concat (map (fun p => pack_bytes p.2) packs)) /\
    slice (pre ++ concat (map (fun p => pack_bytes p.2) packs) ++ tail) o (o + n) = pack_bytes p.2.
Proof.
  revert offset pre; induction packs as [|p ps IH]; intros offset pre Hp Hin; cbn [pack_rows] in Hin;
    [by apply elem_of_nil in Hin|].
  pose proof (zlen_nonneg (pack_bytes p.2)).
  pose proof (zlen_nonneg (concat (map (fun p => pack_bytes p.2) ps))).
  cbn [map concat]. rewrite zlen_app. apply elem_of_cons in Hin as [E|Hin].
  - injection E as -> -> ->. exists p. split_and!; [by left|done..|lia| |].
    { lia. }
    rewrite <- !(assoc_L (++)). apply slice_mid; lia.
  - destruct (IH (offset + zlen (pack_bytes p.2)) (pre ++ pack_bytes p.2) ltac:(rewrite zlen_app; lia) Hin) as (q & Q1 & Q2 & Q3 & Q4 & Q5 & Q6).
    exists q. split_and!; try done; try lia; [by right|]. rewrite <- Q6. by rewrite <- !(assoc_L (++)).
Qed.

(** Lists sorted by offset, one strictly, are equal when they are permutations. *)
Lemma sorted_offset_unique (l1 l2 : list BlobExtent) :
  StronglySorted (fun a b => (be_offset a <=? be_offset b) = true) l1 ->
  StronglySorted (fun a b => be_offset a < be_offset b) l2 -> l1 ≡ₚ l2 -> l1 = l2.
Proof.
  intros H1 H2. revert l1 H1; induction H2 as [|x l2 Hl2 IH Hx]; intros l1 H1 Hp.
  { by apply Permutation_nil_r in Hp. }
  destruct l1 as [|y l1]; [by apply Permutation_nil_cons in Hp|]. inversion H1 as [|? ? H1' Hy]; subst.
  assert (y = x) as ->.
  { assert (y ∈ x :: l2) as Hyin by (rewrite <- Hp; by left).
    apply elem_of_cons in Hyin as [|Hyin]; [done|]. rewrite Forall_forall in Hx, Hy. specialize (Hx y Hyin).
    assert (x ∈ y :: l1) as Hxin by (rewrite Hp; by left).
    apply elem_of_cons in Hxin as [|Hxin]; [done|]. specialize (Hy x Hxin). lia. }
  f_equal. apply IH; [done|]. by apply Permutation_cons_inv in Hp.
Qed.

Definition row_extent (blob : Digest) (total : Z) (row : list Z * (Z * Z)) : BlobExtent :=
  mkExtent blob row.2.1 row.2.2 total.

Lemma contiguous_rows blob total offset packs :
  Forall (fun p => 1 <= zlen (pack_bytes p.2)) packs ->
  let extents := map (row_extent blob total) (pack_rows offset packs) in
  StronglySorted (fun a b => be_offset a < be_offset b) extents /\
  Forall (fun e => offset <= be_offset e) extents /\
  fold_left (fun acc e => match acc with
                          | Some stop => if be_offset e =? stop then Some (stop + be_length e) else None
                          | None => None
                          end) extents (Some offset) =
  Some (offset + zlen (concat (map (fun p => pack_bytes p.2) packs))).
Proof.
  intros Hp. revert offset; induction Hp as [|p ps Hp Hps IH]; intros offset; cbn [pack_rows map concat].
  { cbn. rewrite Z.add_0_r. split_and!; [constructor|constructor|done]. }
  specialize (IH (offset + zlen (pack_bytes p.2))) as (S & F & L).
  cbn [fold_left row_extent be_offset be_length snd fst]. rewrite Z.eqb_refl, L, zlen_app. split_and!.
  - constructor; [done|]. eapply Forall_impl; [exact F|]. cbn. intros; lia.
  - constructor; [cbn; lia|]. eapply Forall_impl; [exact F|]. cbn. intros; lia.
  - f_equal. lia.
Qed.

(** A row whose bytes in [b] are an intact pack of that identity, before the footer. *)
Definition row_good (b : bytes) (footer_offset : Z) (row : list Z * (Z * Z)) : Prop :=
  digest_ok row.1 /\ 32 <= row.2.1 /\ 1 <= row.2.2 /\ row.2.1 + row.2.2 <= footer_offset /\
  exists frames, slice b row.2.1 (row.2.1 + row.2.2) = pack_bytes frames /\ pack_id frames = Ok row.1 /\
    Forall frame_intact frames.

Lemma payload_serves payload :
  zlen payload <= U64_MAX ->
  serves (fun o k => let* stop := range (checked_add o k) in
                     fail_if zlen payload <? stop with Range ;; Ok (slice payload o stop)) payload.
Proof.
  intros Hl o n Ho Hn Hle. assert (checked_add o n = Some (o + n)) as -> by (apply checked_add_Some; lia).
  cbn [range ok_or rbind]. by rewrite (proj2 (Z.ltb_ge _ _)).
Qed.

Lemma reads_extents blob b footer_offset rows previous :
  footer_offset <= zlen b -> zlen b <= U64_MAX -> Forall (row_good b footer_offset) rows ->
  increasing rows -> (forall p r, previous = Some p -> r ∈ rows -> digest_leb r.1 p = false) ->
  reads (decode_extents (length rows) blob b footer_offset previous)
    (concat (map encode_extent_row rows)) (map (fun r => (r.1, row_extent blob (zlen b) r)) rows).
Proof.
  intros Hf Hb. revert previous; induction rows as [|[k [o n]] rows IH]; intros previous Hok Hinc Hp;
    [apply reads_ret|].
  inversion Hok as [|? ? (Hk & Ho & Hn & Hle & frames & Hs & Hid & Hint) Hok']; subst.
  inversion Hinc as [|? ? Hinc' Hall]; subst. cbn [fst snd] in *.
  cbn [length decode_extents map concat]. unfold encode_extent_row at 1. cbn [fst snd].
  rewrite <- !(assoc_L (++)). unfold U64_MAX in *.
  eapply reads_bind; [by apply reads_digest|].
  eapply reads_bind; [apply reads_u64; unfold is_u64; lia|].
  eapply reads_bind; [apply reads_u64; unfold is_u64; lia|].
  apply (reads_lift _ _ (mkExtent blob o n (zlen b))).
  { apply value_Ok, BlobExtent_new_spec; [lia|lia|unfold U64_MAX; lia|]. split; [done|lia]. }
  apply reads_guard.
  { rewrite !orb_false_iff. unfold BLOB_HEADER. split_and!; [lia|lia|].
    destruct previous as [p|]; [|done]. apply (Hp p (k, (o, n))); [done|by left]. }
  rewrite Hs.
  assert (zlen (pack_bytes frames) <= U64_MAX) as Hfl
    by (rewrite <- Hs, zlen_slice by lia; unfold U64_MAX; lia).
  edestruct (pack_copy_run_lemma _ frames true k (payload_serves _ Hfl)) as (out & E); [|done|done|done|].
  { eapply Forall_impl; [exact Hint|]. by intros f [? _]. }
  apply (reads_lift _ _ (k, out)); [by rewrite E|].
  apply reads_guard; [cbn [fst]; by rewrite bytes_eqb_refl|].
  eapply reads_bind_end; [|apply reads_ret]. apply IH; [done|done|].
  intros p r [= <-] Hr. rewrite Forall_forall in Hall. by apply Hall.
Qed.

Lemma contiguous_run blob total packs rows :
  Forall (fun p => 1 <= zlen (pack_bytes p.2)) packs -> rows ≡ₚ pack_rows 32 packs ->
  contiguous (map (row_extent blob total) rows) = Some (zlen (blob_body packs)).
Proof.
  intros Hp Hr. destruct (contiguous_rows blob total 32 packs Hp) as (S & _ & L).
  unfold contiguous, BLOB_HEADER. rewrite (sorted_offset_unique (isort _ _) _ ltac:(apply isort_sorted; intros; lia) S).
  - by rewrite L, zlen_blob_body.
  - rewrite isort_perm. by apply Permutation_map.
Qed.

Lemma writer_rows_good w packs tail :
  writer_inv w packs -> Forall stored_ok packs ->
  Forall (row_good (blob_body packs ++ tail) (bw_offset w)) (sorted_list (bw_ranges w)).
Proof.
  intros (_ & Ho & _ & _ & _ & Hr) Hok. rewrite Forall_forall. intros [k [o n]] Hin.
  rewrite sorted_list_perm, Hr in Hin.
  destruct (pack_rows_slice packs tail 32 (put (zeros 32) 0 BLOB_MAGIC) k o n eq_refl Hin)
    as (p & Hp & <- & -> & H1 & H2 & Hs).
  rewrite Forall_forall in Hok. destruct (Hok p Hp) as (Hd & Hid & Hint & _ & _).
  assert (1 <= zlen (pack_bytes p.2)).
  { unfold pack_bytes. rewrite zlen_app, zlen_PACK_HEADER. pose proof (zlen_nonneg (concat (map frame_record p.2))). lia. }
  unfold row_good. cbn [fst snd]. rewrite Ho, zlen_blob_body. split_and!; try done.
  exists p.2. split; [|done]. unfold blob_body. by rewrite <- (assoc_L (++)).
Qed.

Lemma rows_bytes (l : list (list Z * (Z * Z))) b fo :
  Forall (row_good b fo) l ->
  is_bytes (concat (map encode_extent_row l)) /\ zlen (concat (map encode_extent_row l)) = 48 * zlen l.
Proof.
  induction 1 as [|r l ([D1 D2] & _) Hl [IH1 IH2]]; [done|]. cbn [map concat].
  rewrite Forall_app, zlen_app, zlen_cons. unfold encode_extent_row at 1 3, u64_bytes.
  rewrite !Forall_app, !zlen_app, !zlen_le_bytes. split; [|lia]. split_and!; auto with bytedb.
Qed.

Lemma zlen_blob_footer ranges b fo :
  Forall (row_good b fo) (sorted_list ranges) ->
  is_bytes (blob_footer ranges) /\ zlen (blob_footer ranges) = 12 + 48 * zlen (sorted_list ranges).
Proof.
  intros Hr. destruct (rows_bytes _ _ _ Hr) as [B L]. unfold blob_footer, u32_bytes.
  rewrite !Forall_app, !zlen_app, L, zlen_le_bytes. change (zlen BINDEX_MAGIC) with 8. split; [|lia].
  split_and!; auto with bytedb. apply is_bytes_ascii.
Qed.

Lemma index_body_run blob b ranges fo :
  fo <= zlen b -> zlen b <= U64_MAX -> 1 <= zlen (sorted_list ranges) <= 4096 ->
  Forall (row_good b fo) (sorted_list ranges) ->
  exists d, index_body blob b fo (Decoder_new (blob_footer ranges)) =
    Ok (map (fun r => (r.1, row_extent blob (zlen b) r)) (sorted_list ranges), d) /\
    Decoder_finish d = Ok tt.
Proof.
  intros Hf Hb Hn Hok. destruct (zlen_blob_footer _ _ _ Hok) as [FB FL].
  apply reads_whole; [|unfold U64_MAX; lia|done]. unfold index_body, blob_footer.
  eapply reads_bind; [by apply reads_exact; [|apply is_bytes_ascii]|].
  apply reads_guard; [by rewrite bytes_eqb_refl|].
  eapply reads_bind; [apply reads_u32; unfold is_u32; lia|].
  apply reads_guard; [apply orb_false_iff; lia|].
  replace (Z.to_nat (zlen (sorted_list ranges))) with (length (sorted_list ranges)) by (unfold zlen; lia).
  apply reads_extents; try done. apply sorted_increasing; [apply sorted_list_sorted|apply sorted_list_NoDup].
Qed.


Lemma finish_shape w blob b extents :
  BlobWriter_finish w = Ok (blob, b, extents) ->
  let footer := blob_footer (bw_ranges w) in
  let total := bw_offset w + (zlen footer + 48) in
  bw_ranges w <> ∅ /\ total <= U64_MAX /\ blob = blob_identity footer total /\
  b = bw_bytes w ++ footer ++ blake3 footer ++ le_bytes 8 (bw_offset w) ++ BLOB_END /\
  map fst extents = map fst (sorted_list (bw_ranges w)) /\
  Forall2 (fun row p => value (BlobExtent_new blob row.2.1 row.2.2 total row.2.2) = Ok p.2)
    (sorted_list (bw_ranges w)) extents.
Proof.
  intros E. unfold BlobWriter_finish in E. remember (blob_footer (bw_ranges w)) as footer eqn:Ef.
  unfold BlobWriter_write in E. inv_ok. subst. cbn [bw_bytes bw_offset bw_ranges] in *. inv_all.
  match goal with X : checked_add (bw_offset w) (_ + 48) = Some _ |- _ =>
    apply checked_add_Some in X as [X ?]; subst end. cbn zeta.
  match goal with X : mmap _ _ = Ok _ |- _ => apply mmap_Ok in X; rename X into Hm end.
  split_and!; [by apply bool_decide_eq_false in Hguard|done|done|by rewrite <- !(assoc_L (++))| |].
  - induction Hm as [|x y l k Hxy Hm IH]; [done|]. cbn [map].
    apply rbind_Ok in Hxy as (e & _ & [= <-]). cbn [fst]. by rewrite IH.
  - eapply Forall2_impl; [exact Hm|]. cbn beta. intros x y (e & He & [= <-])%rbind_Ok. exact He.
Qed.

Lemma extents_of_rows blob total rows extents :
  Forall (fun r => 1 <= r.2.2 /\ 0 <= r.2.1) rows -> total <= U64_MAX -> map fst extents = map fst rows ->
  Forall2 (fun row p => value (BlobExtent_new blob row.2.1 row.2.2 total row.2.2) = Ok p.2) rows extents ->
  extents = map (fun r => (r.1, row_extent blob total r)) rows.
Proof.
  intros Hr Ht Hf H2. induction H2 as [|r [k e] rows es Hre H2 IH]; [done|]. cbn [map fst snd] in *.
  inversion Hr; subst. injection Hf as -> Hf. rewrite <- IH by done. f_equal. f_equal.
  apply value_Ok, BlobExtent_new_spec in Hre; [|lia|lia|done]. by destruct Hre as [-> _].
Qed.

(** The fixed-position checks of [authenticate], on a file of the writer's shape. *)
Lemma authenticate_shape blob packs footer b :
  let fo := zlen (blob_body packs) in
  b = blob_body packs ++ footer ++ blake3 footer ++ le_bytes 8 fo ++ BLOB_END ->
  zlen b <= U64_MAX -> 12 <= zlen footer -> blob = blob_identity footer (zlen b) ->
  authenticate blob b =
    let* p := index_body blob b fo (Decoder_new footer) in
    let* _ := Decoder_finish (snd p) in
    match contiguous (map snd (fst p)) with
    | Some stop => if stop =? fo then Ok (fst p) else Err (Corrupt 0)
    | None => Err (Corrupt 0)
    end.
Proof.
  intros fo Hb Hl Hf Hid.
  assert (zlen b = fo + zlen footer + 48) as Hz.
  { rewrite Hb, !zlen_app, blake3_length, zlen_le_bytes. change (zlen BLOB_END) with 8. unfold fo. lia. }
  assert (32 <= fo) as H32.
  { unfold fo. rewrite zlen_blob_body. pose proof (zlen_nonneg (concat (map (fun p => pack_bytes p.2) packs))). lia. }
  assert (slice b (zlen b - 16) (zlen b) = le_bytes 8 fo ++ BLOB_END) as Htail.
  { rewrite Hz, Hb. rewrite <- (app_nil_r (le_bytes 8 fo ++ BLOB_END)) at 1.
    rewrite !(assoc_L (++)), <- (assoc_L (++) _ (le_bytes 8 fo)), <- (assoc_L (++) _ _ []).
    apply slice_mid; rewrite !zlen_app, blake3_length; fold fo; [lia|].
    rewrite zlen_le_bytes. change (zlen BLOB_END) with 8. lia. }
  assert (slice b fo (zlen b - 16) = footer ++ blake3 footer) as Hfoot.
  { rewrite Hz, Hb. rewrite (assoc_L (++) footer). apply slice_mid; [done|].
    rewrite zlen_app, blake3_length. fold fo. lia. }
  assert (slice b 0 32 = put (zeros 32) 0 BLOB_MAGIC) as Hhead.
  { rewrite Hb. unfold blob_body. rewrite <- (assoc_L (++)). by apply (slice_mid []). }
  assert (slice b 0 8 = BLOB_MAGIC /\ slice b 8 32 = zeros 24) as [H8 H24].
  { pose proof (slice_slice b 0 32 0 8 ltac:(lia) ltac:(lia) ltac:(lia)) as E1.
    pose proof (slice_slice b 0 32 8 32 ltac:(lia) ltac:(lia) ltac:(lia)) as E2.
    rewrite Hhead in E1, E2. by split. }
  unfold authenticate. rewrite H8, H24, Htail.
  assert (slice (le_bytes 8 fo ++ BLOB_END) 0 8 = le_bytes 8 fo) as ->
    by (apply (slice_mid []); [done|by rewrite zlen_le_bytes]).
  assert (slice (le_bytes 8 fo ++ BLOB_END) 8 16 = BLOB_END) as ->.
  { rewrite <- (app_nil_r BLOB_END) at 1. apply slice_mid; by rewrite zlen_le_bytes. }
  rewrite le_val_bytes_small by (unfold U64_MAX in *; lia). rewrite Hfoot, zlen_app, blake3_length.
  replace (zlen footer + 32 - 32) with (zlen footer) by lia.
  assert (slice (footer ++ blake3 footer) 0 (zlen footer) = footer) as -> by (by apply (slice_mid [])).
  assert (slice (footer ++ blake3 footer) (zlen footer) (zlen footer + 32) = blake3 footer) as ->.
  { rewrite <- (app_nil_r (blake3 footer)) at 1. apply slice_mid; by rewrite ?blake3_length. }
  rewrite <- Hid, !bytes_eqb_refl. cbn [negb orb].
  rewrite !(proj2 (Z.ltb_ge _ _)) by lia. done.
Qed.

(** A relocated blob authenticates: after any sequence of intact packs is
    streamed into a writer and the writer finishes, authentication of the object
    under the derived identity re-derives every pack's identity and returns the
    same extents the writer reported. *)
Theorem blob_roundtrip packs w blob b extents :
  Forall stored_ok packs -> mfold write_pack BlobWriter_new packs = Ok w ->
  BlobWriter_finish w = Ok (blob, b, extents) -> authenticate blob b = Ok extents.
Proof.
  intros Hok Hw E. apply (write_packs_inv _ _ _ []) in Hw; [|apply writer_new_inv]. cbn [app] in Hw.
  pose proof Hw as (Hbytes & Ho & Hmax & _ & Hsize & Hr).
  apply finish_shape in E as (Hne & Ht & Hid & Hb & Hfst & Hext). rewrite Hbytes, Ho in Hb.
  pose proof (writer_rows_good w packs (blob_footer (bw_ranges w) ++ blake3 (blob_footer (bw_ranges w)) ++
    le_bytes 8 (zlen (blob_body packs)) ++ BLOB_END) Hw Hok) as Hgood. rewrite <- Hb, Ho in Hgood.
  destruct (zlen_blob_footer _ _ _ Hgood) as [FB FL].
  set (footer := blob_footer (bw_ranges w)) in *. set (rows := sorted_list (bw_ranges w)) in *.
  assert (zlen rows = Z.of_nat (size (bw_ranges w))) as Hrows
    by (unfold rows, zlen; by rewrite sorted_list_perm, length_map_to_list).
  assert (size (bw_ranges w) <> O) as Hsz by (by intros ?%map_size_empty_iff).
  assert (zlen b = bw_offset w + (zlen footer + 48)) as Hz.
  { rewrite Hb, !zlen_app, blake3_length, zlen_le_bytes. change (zlen BLOB_END) with 8. lia. }
  rewrite <- Hz in Ht, Hid, Hext.
  rewrite (authenticate_shape blob packs footer b Hb Ht ltac:(lia) Hid).
  destruct (index_body_run blob b (bw_ranges w) (zlen (blob_body packs))) as (d & Ed & Hd);
    [lia|done|fold rows; lia|done|]. fold footer in Ed. cbn zeta. rewrite Ed. cbn [rbind fst snd]. rewrite Hd. cbn [rbind]. rewrite map_map. cbn [snd].
  rewrite (contiguous_run blob (zlen b) packs).
  - rewrite Z.eqb_refl. fold rows. f_equal. symmetry. apply extents_of_rows; try done.
    eapply Forall_impl; [exact Hgood|]. intros r (_ & ? & ? & _). lia.
  - clear. induction packs as [|p ps IH]; constructor; [|done]. unfold pack_bytes.
    rewrite zlen_app, zlen_PACK_HEADER. pose proof (zlen_nonneg (concat (map frame_record p.2))). lia.
  - by rewrite sorted_list_perm.
Qed.
End BlobLemmas.

(** ** Witnesses *)

Definition demo_extent : BlobExtent := mkExtent (demo_digest 6) 32 100 200.

Lemma demo_extent_ok : extent_ok demo_extent.
Proof.
  unfold extent_ok, demo_extent, U64_MAX; cbn. split_and!; try lia.
  apply demo_digest_ok. unfold is_u8; lia.
Qed.

(** Three requests of one blob, out of order; the first and last overlap. *)
Definition demo_requests : list LocatedRange :=
  [mkLocated demo_extent (mkRange 40 20 60); mkLocated demo_extent (mkRange 100 8 108);
   mkLocated demo_extent (mkRange 32 10 42)].

Definition demo_blobs : MemoryBackend :=
  mkMemory {[ Blob (demo_digest 6) := map Z.of_nat (seq 0 200) ]} None 0.

Lemma batched_reads_equal_direct_reads_witness :
  exists out, pin_read_ranges demo_blobs demo_requests = Ok out /\
    out !! 1%nat = Some [100; 101; 102; 103; 104; 105; 106; 107].
Proof.
  destruct (@batched_reads_equal_direct_reads MemoryBackend _ _ _ demo_blobs demo_requests) as [Hs Hl].
  - repeat (apply Forall_cons; split; [unfold range_ok; cbn; lia|]). constructor.
  - destruct Hl as [out E].
    + vm_compute. split; discriminate.
    + vm_compute. discriminate.
    + repeat (apply Forall_cons; split;
        [split; [unfold range_ok; cbn; lia|]; unfold U64_MAX; cbn; split_and!; try lia;
         eexists; split; [vm_compute; reflexivity|vm_compute; discriminate]|]). constructor.
    + exists out. split; [exact E|]. specialize (Hs out E). vm_compute in E. injection E as <-. reflexivity.
Defined.

Lemma placements_add_preferred_witness :
  let p := mkPlacements (demo_digest 3) 100 (demo_digest 5) [] in
  let p' := mkPlacements (demo_digest 3) 100 (demo_digest 5)
              [@Representation_new demo_hashes (demo_digest 3) demo_extent] in
  @Placements_decode demo_hashes (demo_digest 3) (Placements_encode p') = Ok p'.
Proof.
  intros p p'.
  destruct (@placements_add_preferred demo_hashes demo_hashes_ok p demo_extent p') as (_ & _ & _ & E).
  - right. split; [reflexivity|].
    split; [apply demo_digest_ok; unfold is_u8; lia|]. split; [unfold is_u64; cbn; lia|].
    apply demo_digest_ok. unfold is_u8; lia.
  - apply demo_extent_ok.
  - vm_compute. discriminate.
  - vm_compute. reflexivity.
  - exact E.
Defined.

Definition demo_written : BlobWriter :=
  mkBlobWriter (put (zeros 32) 0 BLOB_MAGIC ++ demo_pack) (32 + zlen demo_pack)
    {[ demo_pack_id := (32, zlen demo_pack) ]}.

Lemma demo_write_pack :
  mfold (@write_pack demo_hashes) BlobWriter_new [(demo_pack_id, [demo_frame])] = Ok demo_written.
Proof. vm_compute. reflexivity. Qed.

Lemma blob_roundtrip_witness :
  exists blob b extents, @BlobWriter_finish demo_hashes demo_written = Ok (blob, b, extents) /\
    @authenticate demo_hashes blob b = Ok extents.
Proof.
  destruct (@BlobWriter_finish demo_hashes demo_written) as [[[blob b] extents]|e] eqn:E;
    [|vm_compute in E; discriminate].
  exists blob, b, extents. split; [reflexivity|].
  apply (@blob_roundtrip demo_hashes demo_hashes_ok [(demo_pack_id, [demo_frame])] demo_written blob b extents).
  - apply Forall_cons. split; [|constructor]. split; [|split; [|split; [|split]]].
    + split; [vm_compute; reflexivity|apply bytes_check_ok; vm_compute; reflexivity].
    + vm_compute. reflexivity.
    + apply Forall_cons. split; [|constructor]. split; [|vm_compute; reflexivity].
      split; [apply demo_metadata_ok|vm_compute; reflexivity].
    + apply bytes_check_ok. vm_compute. reflexivity.
    + vm_compute. discriminate.
  - exact demo_write_pack.
  - exact E.
Defined.
