(* ===== verification/View.v ===== *)
(** Sealed views (src/src/storage/view.rs): the page map of a sealed database, its
    checkpoint and delta records, and the segment footers that carry them.

    [ViewMetadata] is a resolved view: which frame slot holds each page, and where
    each frame is stored. A checkpoint manifest holds a whole view; a run holds the
    pages that changed since a parent view ([MetadataRun_between]) and is applied to the parent
    when it is loaded ([MetadataRun_apply]). *)

From S2P Require Import Prelude Domain Format Wire Segment Frame Pack Backend CatalogIndex Placement.
From stdpp Require Import base strings gmap list sorting.
From Stdlib Require Import ZArith Lia.
Open Scope Z_scope.

Definition VIEW_LIMIT : Z := 512 * 1024 * 1024.
Definition MAX_RUN_DEPTH : Z := 64.
Definition RUN_PREFIX : Z := 92.
Definition VIEW_MAGIC : bytes := ascii "ZVIEW001".
Definition RUN_MAGIC : bytes := ascii "ZRUN0001".
Definition FOOT_MAGIC : bytes := ascii "ZFOOT001".

(** ** Data *)

Record FrameLocation : Set := mkLocation {
  fl_pack : Digest;
  fl_payload : PackRange;
  fl_metadata : FrameMetadata;
}.

Record StoredPage : Set := mkStored { sp_frame : Digest; sp_slot : Z }.

#[export] Instance PackRange_eq_dec : EqDecision PackRange.
Proof. solve_decision. Defined.
#[export] Instance FrameLocation_eq_dec : EqDecision FrameLocation.
Proof. solve_decision. Defined.
#[export] Instance StoredPage_eq_dec : EqDecision StoredPage.
Proof. solve_decision. Defined.

Record ViewMetadata : Type := mkView {
  vm_database : Digest;
  vm_lineage : Digest;
  vm_size : LogicalBytes;
  vm_txid : Z;
  vm_history : Digest;
  vm_parent_seal : option Digest;
  vm_frames : gmap (list Z) FrameLocation;
  vm_pages : gmap Z StoredPage;
  vm_preferred : list Digest;
}.

Record ValidatedMetadata : Type := mkValidated {
  vd_view : ViewMetadata;
  vd_span : TransactionSpan;
  vd_ancestors : list Digest;
  vd_decoded_bytes : Z;
  vd_parent : Parent;
}.

Definition set_maps (v : ViewMetadata) (frames : gmap (list Z) FrameLocation)
    (pages : gmap Z StoredPage) : ViewMetadata :=
  mkView (vm_database v) (vm_lineage v) (vm_size v) (vm_txid v) (vm_history v) (vm_parent_seal v)
    frames pages (vm_preferred v).

(** Iteration of a [BTreeMap] or [BTreeSet] keyed by page number. *)
Definition sorted_pages {A} (m : gmap Z A) : list (Z * A) :=
  isort (fun a b => a.1 <=? b.1) (map_to_list m).
Definition sorted_numbers (s : gset Z) : list Z := isort Z.leb (elements s).

(** ** The resolved view *)

Definition ViewMetadata_empty (database lineage : Digest) (size : LogicalBytes) (txid : Z)
    (history : Digest) : ViewMetadata :=
  mkView database lineage size txid history None ∅ ∅ [].

(** The version a page entry names; [frames[..]] and [pages()[..]] of the source are
    in range in every well-formed view. *)
Definition page_version (v : ViewMetadata) (p : StoredPage) : option PageVersion :=
  match vm_frames v !! sp_frame p with
  | Some location => fm_pages (fl_metadata location) !! Z.to_nat (sp_slot p)
  | None => None
  end.

Definition page_versions (v : ViewMetadata) : list PageVersion :=
  omap (fun e => page_version v e.2) (sorted_pages (vm_pages v)).

Definition is_live (v : ViewMetadata) (version : PageVersion) (frame : Digest) : bool :=
  match vm_pages v !! pv_page version with
  | Some location => bytes_eqb (sp_frame location) frame
  | None => false
  end.

Definition remove_above (v : ViewMetadata) (last : Z) : ViewMetadata :=
  set_maps v (vm_frames v) (filter (fun e => e.1 <= last) (vm_pages v)).

Definition remove_page (v : ViewMetadata) (page : Z) : ViewMetadata :=
  set_maps v (vm_frames v) (delete page (vm_pages v)).

Definition live_frames (v : ViewMetadata) : gset (list Z) :=
  list_to_set (map (fun e => sp_frame e.2) (map_to_list (vm_pages v))).

Definition retain_frames (v : ViewMetadata) : ViewMetadata :=
  set_maps v (filter (fun e => e.1 ∈ live_frames v) (vm_frames v)) (vm_pages v).

(** The loop of [insert]: the checks and the slot of each page of the frame. *)
Definition insert_slot (size : LogicalBytes) (txid : Z) (metadata : FrameMetadata)
    (pages : gmap Z StoredPage) (e : Z * PageVersion) : result StoreError (gmap Z StoredPage) :=
  let '(index, page) := e in
  fail_if (lb_pages size <? pv_page page) || (txid <? pv_txid page) with Corrupt 0 ;;
  fail_if U32_MAX <? index with Range ;;
  let* slot := value (FrameShape_slot (fm_shape metadata) index) in
  Ok (<[pv_page page := mkStored (fm_id metadata) slot]> pages).

Definition ViewMetadata_insert (v : ViewMetadata) (location : FrameLocation)
    : result StoreError ViewMetadata :=
  let m := fl_metadata location in
  fail_if negb (fs_page_size (fm_shape m) =? lb_page_size (vm_size v)) with IdentityMismatch ;;
  let* pages := mfold (insert_slot (vm_size v) (vm_txid v) m) (vm_pages v)
                  (imap (fun i p => (Z.of_nat i, p)) (fm_pages m)) in
  Ok (set_maps v (<[fm_id m := location]> (vm_frames v)) pages).

Definition packs (v : ViewMetadata) : gset (list Z) :=
  list_to_set (map (fun e => fl_pack e.2) (map_to_list (vm_frames v))).

Definition shared_dictionary (location : FrameLocation) : option Digest :=
  match fm_encoding (fl_metadata location) with
  | Zstandard (Shared id) => Some id
  | _ => None
  end.

Definition dictionaries (v : ViewMetadata) : gset (list Z) :=
  list_to_set (omap (fun e => shared_dictionary e.2) (map_to_list (vm_frames v)) ++ vm_preferred v).

Definition seal_bytes (parent : option Digest) : bytes := default ZERO_DIGEST parent.

(** ** Physical ranges *)

Definition payloads (v : ViewMetadata) (pack : Digest) : list PackRange :=
  omap (fun e => if bytes_eqb (fl_pack e.2) pack then Some (fl_payload e.2) else None)
    (sorted_list (vm_frames v)).

Fixpoint overlapping (l : list PackRange) : bool :=
  match l with
  | a :: ((b :: _) as l') => (pk_offset b <? PackRange_end a) || overlapping l'
  | _ => false
  end.

(** No two frames of a pack overlap. *)
Definition validate_frame_ranges (v : ViewMetadata) : result StoreError unit :=
  fail_if existsb (fun pack => overlapping (isort (fun a b => pk_offset a <=? pk_offset b) (payloads v pack)))
            (elements (packs v))
    with Corrupt 0 ;;
  Ok tt.

(** ** Structural validation *)

Definition validate_page (v : ViewMetadata) (used : gset (list Z)) (e : Z * StoredPage)
    : result StoreError (gset (list Z)) :=
  let '(page, stored) := e in
  let* location := ok_or (vm_frames v !! sp_frame stored) (Corrupt 0) in
  let* version := ok_or (fm_pages (fl_metadata location) !! Z.to_nat (sp_slot stored)) (Corrupt 0) in
  fail_if negb (pv_page version =? page) || (vm_txid v <? pv_txid version)
          || (lb_pages (vm_size v) <? page) with Corrupt 0 ;;
  Ok ({[sp_frame stored]} ∪ used).

Definition validate_frame (v : ViewMetadata) (length : Z) (e : Digest * FrameLocation)
    : result StoreError Z :=
  let '(id, location) := e in
  let m := fl_metadata location in
  fail_if negb (bytes_eqb id (fm_id m))
          || negb (fs_page_size (fm_shape m) =? lb_page_size (vm_size v))
          || negb (pk_length (fl_payload location) =? fm_payload_bytes m) with Corrupt 0 ;;
  range (checked_add length (76 + encoded_len m)).

Definition validate (v : ViewMetadata) : result StoreError ValidatedMetadata :=
  fail_if (4 <? zlen (vm_preferred v)) || negb (bool_decide (NoDup (vm_preferred v))) with Corrupt 0 ;;
  let* used := mfold (validate_page v) ∅ (sorted_pages (vm_pages v)) in
  fail_if negb (Z.of_nat (size used) =? Z.of_nat (size (vm_frames v))) with Corrupt 0 ;;
  let* preferred := range (checked_mul (zlen (vm_preferred v)) 32) in
  let* length := range (checked_add 192 preferred) in
  let* pages := range (checked_mul (Z.of_nat (size (vm_pages v))) 40) in
  let* length := range (checked_add length pages) in
  let* length := mfold (validate_frame v) length (sorted_list (vm_frames v)) in
  fail_if VIEW_LIMIT <? length with Range ;;
  let* _ := validate_frame_ranges v in
  let* span := value (TransactionSpan_new (vm_txid v) (vm_txid v)) in
  Ok (mkValidated v span [] length Checkpoint).

(** ** Identities *)

Section WithHashes.
Context `{Hashes}.

Definition content_root (v : ViewMetadata) : Digest :=
  blake3 (concat (map (fun p => le_bytes 4 (pv_page p) ++ le_bytes 8 (pv_txid p) ++ pv_checksum p)
                      (page_versions v))).

(** [sealed_lineage]: the logical hash of the parent view, when there is one. *)
Definition sealed_lineage (v : ViewMetadata) (parent : option Digest) : ViewMetadata :=
  let history :=
    blake3 (ascii "zsqlite/sealed-lineage/v1" ++ [0] ++ vm_database v ++ vm_lineage v ++
            le_bytes 8 (vm_txid v) ++ le_bytes 4 (lb_page_size (vm_size v)) ++
            le_bytes 8 (lb_bytes (vm_size v)) ++ seal_bytes parent ++ content_root v) in
  mkView (vm_database v) (vm_lineage v) (vm_size v) (vm_txid v) history parent
    (vm_frames v) (vm_pages v) (vm_preferred v).

Definition logical_hash_for (v : ViewMetadata) (root : Digest) : Digest :=
  blake3 (ascii "zsqlite/logical-view/v1" ++ vm_database v ++ vm_lineage v ++
          le_bytes 4 (lb_page_size (vm_size v)) ++ le_bytes 8 (lb_bytes (vm_size v)) ++
          le_bytes 8 (vm_txid v) ++ vm_history v ++ seal_bytes (vm_parent_seal v) ++ root).

Definition logical_hash (v : ViewMetadata) : Digest := logical_hash_for v (content_root v).

(** ** The checkpoint record *)

Definition encode_frame (e : Digest * FrameLocation) : result StoreError bytes :=
  let encoded := FrameMetadata_encode (fl_metadata e.2) in
  fail_if U32_MAX <? zlen encoded with Range ;;
  Ok (e.1 ++ fl_pack e.2 ++ u64_bytes (pk_offset (fl_payload e.2)) ++ u32_bytes (zlen encoded) ++ encoded).

Definition encode_page (e : Z * StoredPage) : result StoreError bytes :=
  fail_if U32_MAX <? sp_slot e.2 with Range ;;
  Ok (u32_bytes e.1 ++ sp_frame e.2 ++ u32_bytes (sp_slot e.2)).

Definition encode_raw (v : ViewMetadata) : result StoreError bytes :=
  let fixed := vm_database v ++ vm_lineage v ++ u32_bytes (lb_page_size (vm_size v)) ++
    u64_bytes (lb_bytes (vm_size v)) ++ u64_bytes (vm_txid v) ++ vm_history v ++
    seal_bytes (vm_parent_seal v) ++ content_root v in
  fail_if U32_MAX <? zlen (vm_preferred v) with Range ;;
  fail_if U32_MAX <? Z.of_nat (size (vm_frames v)) with Range ;;
  let* frames := mmap encode_frame (sorted_list (vm_frames v)) in
  fail_if U32_MAX <? Z.of_nat (size (vm_pages v)) with Range ;;
  let* pages := mmap encode_page (sorted_pages (vm_pages v)) in
  let raw := fixed ++ u32_bytes (zlen (vm_preferred v)) ++ concat (vm_preferred v) ++
    u32_bytes (Z.of_nat (size (vm_frames v))) ++ concat frames ++
    u32_bytes (Z.of_nat (size (vm_pages v))) ++ concat pages in
  fail_if VIEW_LIMIT <? zlen raw with Range ;;
  Ok raw.

Fixpoint decode_preferred {W} `{Wire W} (n : nat) (acc : list Digest) : dm W (list Digest) :=
  match n with
  | O => dret acc
  | S n' =>
      do id <- wire_array 32 ;;
      do _ <- dfail_if (bool_decide (id ∈ acc)) (Corrupt 0) ;;
      decode_preferred n' (acc ++ [id])
  end.

Definition decode_frame {W} `{Wire W} (page_size : Z) : dm W (Digest * FrameLocation) :=
  do id <- wire_array 32 ;;
  do pack <- wire_array 32 ;;
  do offset <- wire_u64 ;;
  do length <- wire_u32 ;;
  do _ <- dfail_if (89 + (8 * 1024 * 1024 / page_size) * 44 <? length) Range ;;
  do encoded <- wire_take length ;;
  do metadata <- dlift (FrameMetadata_decode encoded id) ;;
  do stored <- dlift (value (StoredRange_new offset (fm_payload_bytes metadata))) ;;
  do payload <- dlift (PackRange_stored stored) ;;
  dret (id, mkLocation pack payload metadata).

Fixpoint decode_frames {W} `{Wire W} (n : nat) (page_size : Z) (frames : gmap (list Z) FrameLocation)
    : dm W (gmap (list Z) FrameLocation) :=
  match n with
  | O => dret frames
  | S n' =>
      do e <- decode_frame page_size ;;
      do _ <- dfail_if (bool_decide (is_Some (frames !! e.1))) (Corrupt 0) ;;
      decode_frames n' page_size (<[e.1 := e.2]> frames)
  end.

Fixpoint decode_page_map {W} `{Wire W} (n : nat) (frames : gmap (list Z) FrameLocation)
    (pages : gmap Z StoredPage) : dm W (gmap Z StoredPage) :=
  match n with
  | O => dret pages
  | S n' =>
      do number <- wire_u32 ;;
      do page <- dlift (value (PageNumber_new number)) ;;
      do frame <- wire_array 32 ;;
      do location <- dlift (ok_or (frames !! frame) (Corrupt 0)) ;;
      do index <- wire_u32 ;;
      do slot <- dlift (value (FrameShape_slot (fm_shape (fl_metadata location)) index)) ;;
      do _ <- dfail_if (bool_decide (is_Some (pages !! page))) (Corrupt 0) ;;
      decode_page_map n' frames (<[page := mkStored frame slot]> pages)
  end.

(** The draft and the content root read from a record of [raw_length] bytes. *)
Definition view_body {W} `{Wire W} (raw_length : Z) : dm W (ViewMetadata * Digest) :=
  do database <- wire_array 32 ;;
  do lineage <- wire_array 32 ;;
  do s <- wire_u32 ;;
  do page_size <- dlift (value (PageSize_new s)) ;;
  do b <- wire_u64 ;;
  do size <- dlift (value (LogicalBytes_new b page_size)) ;;
  do t <- wire_u64 ;;
  do txid <- dlift (value (TransactionId_new t)) ;;
  do history <- wire_array 32 ;;
  do parent <- wire_array 32 ;;
  do root <- wire_array 32 ;;
  do preferred <- wire_u32 ;;
  do _ <- dfail_if (4 <? preferred) (Corrupt 0) ;;
  do ids <- decode_preferred (Z.to_nat preferred) [] ;;
  do frames <- wire_u32 ;;
  do _ <- dfail_if (raw_length / 64 <? frames) Range ;;
  do locations <- decode_frames (Z.to_nat frames) page_size ∅ ;;
  do pages <- wire_u32 ;;
  do _ <- dfail_if ((lb_pages size <? pages) || (raw_length / 40 <? pages)) Range ;;
  do map <- decode_page_map (Z.to_nat pages) locations ∅ ;;
  dret (mkView database lineage size txid history
          (if bytes_eqb parent ZERO_DIGEST then None else Some parent) locations map ids, root).

Section WithZstd.
Context `{ZstdLib}.

Definition decode_reader (wire : ReadDecoder) : result StoreError ValidatedMetadata :=
  let raw_length := rd_length wire in
  let* p := view_body raw_length wire in
  let '((view, root), wire) := p in
  let* _ := ReadDecoder_finish wire in
  let* validated := validate view in
  fail_if negb (vd_decoded_bytes validated =? raw_length)
          || negb (bytes_eqb root (content_root (vd_view validated))) with Corrupt 0 ;;
  Ok validated.

Definition ViewMetadata_encode (v : ViewMetadata) : result StoreError bytes :=
  let* raw := encode_raw v in
  envelope VIEW_MAGIC raw.

Definition ViewMetadata_decode (encoded : bytes) : result StoreError ValidatedMetadata :=
  let* wire := open_envelope_reader VIEW_MAGIC encoded VIEW_LIMIT in
  decode_reader wire.

Definition decode_raw (raw : bytes) : result StoreError ValidatedMetadata :=
  decode_reader (ReadDecoder_new raw true (zlen raw)).

End WithZstd.
End WithHashes.

(** ** Delta records *)

Record MetadataRun : Type := mkRun {
  mr_parent : ParentRef;
  mr_root : Digest;
  mr_span : TransactionSpan;
  mr_patch : ValidatedMetadata;
  mr_removed : gset Z;
}.

Inductive ManifestRecord : Type :=
| CheckpointRecord (view : ValidatedMetadata)
| RunRecord (run : MetadataRun).

Definition run_decoded_bytes (run : MetadataRun) : Z :=
  RUN_PREFIX + Z.of_nat (size (mr_removed run)) * 4 + vd_decoded_bytes (mr_patch run).

Section Runs.
Context `{Hashes, ZstdLib}.

(** The pages of [target] whose slot or whose frame's location differs in [source]. *)
Definition changed_pages (source target : ViewMetadata) : gmap Z StoredPage :=
  filter (fun e => vm_pages source !! e.1 <> Some e.2 \/
                   vm_frames source !! sp_frame e.2 <> vm_frames target !! sp_frame e.2)
    (vm_pages target).

(** The frames of [target] that [pages] name. *)
Definition frames_of (target : ViewMetadata) (pages : gmap Z StoredPage)
    : gmap (list Z) FrameLocation :=
  filter (fun e => e.1 ∈ (list_to_set (map (fun p => sp_frame p.2) (map_to_list pages)) : gset (list Z)))
    (vm_frames target).

Definition removed_pages (source target : ViewMetadata) : gset Z :=
  filter (fun page => page <= lb_pages (vm_size target) /\ vm_pages target !! page = None)
    (dom (vm_pages source)).

Definition run_patch (source target : ViewMetadata) : ViewMetadata :=
  let pages := changed_pages source target in
  mkView (vm_database target) (vm_lineage target) (vm_size target) (vm_txid target)
    (vm_history target) (vm_parent_seal target) (frames_of target pages) pages (vm_preferred target).

Definition MetadataRun_between (source : ValidatedMetadata) (target : ViewMetadata)
    : result StoreError MetadataRun :=
  let from := vd_view source in
  let* span := value (TransactionSpan_new (span_begin (vd_span source)) (vm_txid target)) in
  let* patch := validate (run_patch from target) in
  Ok (mkRun (mkParentRef (logical_hash from) (vm_txid from)) (content_root target) span patch
        (removed_pages from target)).

(** The fields before the patch. *)
Definition run_prefix (run : MetadataRun) : bytes :=
  pr_hash (mr_parent run) ++ u64_bytes (pr_txid (mr_parent run)) ++ mr_root run ++
  u64_bytes (span_begin (mr_span run)) ++ u64_bytes (span_end (mr_span run)) ++
  u32_bytes (Z.of_nat (size (mr_removed run))) ++
  concat (map u32_bytes (sorted_numbers (mr_removed run))).

Definition MetadataRun_encode (run : MetadataRun) : result StoreError bytes :=
  fail_if U32_MAX <? Z.of_nat (size (mr_removed run)) with Range ;;
  let* patch := encode_raw (vd_view (mr_patch run)) in
  let raw := run_prefix run ++ patch in
  fail_if VIEW_LIMIT <? zlen raw with Range ;;
  envelope RUN_MAGIC raw.

(** The removed pages, strictly increasing. *)
Fixpoint decode_removed (n : nat) (last : option Z) (removed : gset Z) : dm Decoder (gset Z) :=
  match n with
  | O => dret removed
  | S n' =>
      do number <- wire_u32 ;;
      do page <- dlift (value (PageNumber_new number)) ;;
      do _ <- dfail_if match last with Some l => page <=? l | None => false end (Corrupt 0) ;;
      decode_removed n' (Some page) ({[page]} ∪ removed)
  end.

(** The fields before the patch, and how many pages are removed. *)
Definition run_fields (raw_length : Z) : dm Decoder (ParentRef * Digest * TransactionSpan * gset Z * Z) :=
  do hash <- wire_array 32 ;;
  do t <- wire_u64 ;;
  do txid <- dlift (value (TransactionId_new t)) ;;
  do root <- wire_array 32 ;;
  do b <- wire_u64 ;;
  do first <- dlift (value (TransactionId_new b)) ;;
  do e <- wire_u64 ;;
  do final <- dlift (value (TransactionId_new e)) ;;
  do span <- dlift (value (TransactionSpan_new first final)) ;;
  do count <- wire_u32 ;;
  do _ <- dfail_if (saturating_sub raw_length RUN_PREFIX / 4 <? count) Range ;;
  do removed <- decode_removed (Z.to_nat count) None ∅ ;;
  dret (mkParentRef hash txid, root, span, removed, count).

Definition run_body (raw_length : Z) : dm Decoder (ParentRef * Digest * TransactionSpan * gset Z * bytes) :=
  do p <- run_fields raw_length ;;
  let '(parent, root, span, removed, count) := p in
  do patch <- wire_take (raw_length - RUN_PREFIX - count * 4) ;;
  dret (parent, root, span, removed, patch).

(** A removed page beyond the new size, or one the patch also holds. *)
Definition removed_invalid (v : ViewMetadata) (removed : gset Z) : bool :=
  existsb (fun page => (lb_pages (vm_size v) <? page) || bool_decide (is_Some (vm_pages v !! page)))
    (elements removed).

Definition MetadataRun_decode (b : bytes) : result StoreError MetadataRun :=
  let* raw := open_envelope RUN_MAGIC b VIEW_LIMIT in
  let* p := run_body (zlen raw) (Decoder_new raw) in
  let '((parent, root, span, removed, encoded), wire) := p in
  let* patch := decode_raw encoded in
  let* _ := Decoder_finish wire in
  fail_if negb (span_end span =? vm_txid (vd_view patch))
          || removed_invalid (vd_view patch) removed with Corrupt 0 ;;
  Ok (mkRun parent root span patch removed).

(** The page map after a run: pages past the new size and removed pages are gone,
    the patch overrides the rest, and frames no page uses are dropped. *)
Definition patched (base patch : ViewMetadata) (removed : gset Z) : ViewMetadata :=
  let v := mkView (vm_database base) (vm_lineage base) (vm_size patch) (vm_txid patch)
             (vm_history patch) (vm_parent_seal patch) (vm_frames base) (vm_pages base)
             (vm_preferred patch) in
  let v := remove_above v (lb_pages (vm_size v)) in
  let v := foldl remove_page v (sorted_numbers removed) in
  retain_frames (set_maps v (vm_frames patch ∪ vm_frames v) (vm_pages patch ∪ vm_pages v)).

Definition MetadataRun_apply (run : MetadataRun) (parent_id : Digest) (base : ValidatedMetadata)
    : result StoreError ValidatedMetadata :=
  let b := vd_view base in
  let p := vd_view (mr_patch run) in
  fail_if negb (bytes_eqb (pr_hash (mr_parent run)) (logical_hash b))
          || negb (pr_txid (mr_parent run) =? vm_txid b)
          || negb (bytes_eqb (vm_database b) (vm_database p))
          || negb (bytes_eqb (vm_lineage b) (vm_lineage p))
          || negb (lb_page_size (vm_size b) =? lb_page_size (vm_size p))
          || negb (span_end (mr_span run) =? vm_txid p)
          || (vm_txid p <? vm_txid b)
          || ((vm_txid p =? vm_txid b)
              && (negb (bool_decide (vm_size p = vm_size b))
                  || negb (bytes_eqb (vm_history p) (vm_history b))
                  || negb (bytes_eqb (mr_root run) (content_root b)))) with IdentityMismatch ;;
  let* decoded_bytes := range (checked_add (vd_decoded_bytes base) (run_decoded_bytes run)) in
  fail_if (MAX_RUN_DEPTH <=? zlen (vd_ancestors base))
          || bool_decide (parent_id ∈ vd_ancestors base)
          || (VIEW_LIMIT <? decoded_bytes) with Range ;;
  let v := patched b p (mr_removed run) in
  let* _ := validate_frame_ranges v in
  fail_if negb (bytes_eqb (content_root v) (mr_root run)) with Corrupt 0 ;;
  Ok (mkValidated v (mr_span run) (parent_id :: vd_ancestors base) decoded_bytes
        (Previous (mr_parent run))).

Definition ManifestRecord_decode (b : bytes) : result StoreError ManifestRecord :=
  if bytes_eqb (slice b 0 8) VIEW_MAGIC && (8 <=? zlen b) then
    let* v := ViewMetadata_decode b in Ok (CheckpointRecord v)
  else if bytes_eqb (slice b 0 8) RUN_MAGIC && (8 <=? zlen b) then
    let* r := MetadataRun_decode b in Ok (RunRecord r)
  else Err (Corrupt 0).

(** The root, and the record that follows it in a segment's footer. *)
Definition footer_body : dm Decoder (Digest * bytes) :=
  do root <- wire_array 32 ;;
  do length <- wire_u32 ;;
  do encoded <- wire_take length ;;
  dret (root, encoded).

Definition with_coverage (patch : ValidatedMetadata) (span : TransactionSpan) (decoded_bytes : Z)
    : ValidatedMetadata :=
  mkValidated (vd_view patch) span (vd_ancestors patch) decoded_bytes (vd_parent patch).

(** The checks of the decoded record against the header, by kind. *)
Definition check_kind (header : Header) (root : Digest) (record : ManifestRecord)
    : result StoreError ValidatedMetadata :=
  match record with
  | CheckpointRecord patch =>
      fail_if negb (bool_decide (hd_parent header = Checkpoint)) with IdentityMismatch ;;
      Ok patch
  | RunRecord run =>
      fail_if negb (bool_decide (hd_parent header = Previous (mr_parent run)))
              || negb (bool_decide (cov_full (hd_coverage header) = mr_span run))
              || negb (bytes_eqb (mr_root run) root) with IdentityMismatch ;;
      Ok (mr_patch run)
  end.

Definition from_segment (container : Container) (budget : Z) : result StoreError ManifestRecord :=
  let* raw := open_envelope FOOT_MAGIC (ct_footer container) (Z.min budget VIEW_LIMIT) in
  let header := ct_header container in
  let* p := footer_body (Decoder_new raw) in
  let '((root, encoded), wire) := p in
  fail_if zlen encoded <? 16 with Range ;;
  let inner_size := le_val (slice encoded 8 16) in
  let* total := range (match checked_add (zlen raw) inner_size with
                       | Some size => checked_add size RUN_PREFIX
                       | None => None
                       end) in
  fail_if budget <? total with Range ;;
  let* record := ManifestRecord_decode encoded in
  let* _ := Decoder_finish wire in
  let* patch := check_kind header root record in
  let* _ := validate_frame_ranges (vd_view patch) in
  fail_if negb (vm_txid (vd_view patch) =? span_end (cov_full (hd_coverage header)))
    with IdentityMismatch ;;
  fail_if negb (bytes_eqb (logical_hash_for (vd_view patch) root) (hd_logical_hash header))
    with IdentityMismatch ;;
  let patch := with_coverage patch (cov_full (hd_coverage header)) (total - RUN_PREFIX) in
  match record with
  | CheckpointRecord _ =>
      fail_if negb (bytes_eqb (content_root (vd_view patch)) root) with Corrupt 0 ;;
      Ok (CheckpointRecord patch)
  | RunRecord run =>
      fail_if existsb (fun page => bool_decide (is_Some (vm_pages (vd_view patch) !! page)))
                (elements (mr_removed run)) with Corrupt 0 ;;
      Ok (RunRecord (mkRun (mr_parent run) (mr_root run) (mr_span run) patch (mr_removed run)))
  end.

End Runs.
