(* ===== verification/ViewProofs.v ===== *)
(** Correctness of sealed views: what validation establishes, the codec of the
    checkpoint and delta records, and the algebra of deltas. *)

From S2P Require Import Prelude Domain Format Wire Segment Frame Pack Backend CatalogIndex Placement View.
From stdpp Require Import base strings gmap list sorting.
From Stdlib Require Import ZArith Lia.
Open Scope Z_scope.

(** ** Listings of page maps *)

Section Listings.
Context {A : Type}.
Implicit Types m : gmap Z A.

Lemma sorted_pages_perm m : sorted_pages m ≡ₚ map_to_list m.
Proof. apply isort_perm. Qed.

Lemma sorted_pages_elem m k v : (k, v) ∈ sorted_pages m <-> m !! k = Some v.
Proof. rewrite sorted_pages_perm. apply elem_of_map_to_list. Qed.

Lemma sorted_pages_NoDup m : NoDup (map fst (sorted_pages m)).
Proof.
  assert (map fst (sorted_pages m) ≡ₚ map fst (map_to_list m)) as ->
    by (apply Permutation_map, sorted_pages_perm).
  apply NoDup_fst_map_to_list.
Qed.

Lemma length_sorted_pages m : length (sorted_pages m) = size m.
Proof. rewrite sorted_pages_perm. apply length_map_to_list. Qed.
End Listings.

(** Inserting a listing without duplicates, entry by entry. *)
Lemma foldl_insert_lookup `{Countable K} {A} (l : list (K * A)) (m : gmap K A) k :
  NoDup (map fst l) ->
  foldl (fun m e => <[e.1 := e.2]> m) m l !! k =
  match (list_to_map l : gmap K A) !! k with Some v => Some v | None => m !! k end.
Proof.
  revert m. induction l as [|[k' v] l IH]; intros m Hnd; [done|].
  cbn [map fst] in Hnd. apply NoDup_cons in Hnd as [Hn Hnd]. cbn [foldl fst snd].
  rewrite IH, list_to_map_cons by done. destruct (decide (k = k')) as [->|Hne].
  - rewrite !lookup_insert_eq.
    by rewrite (not_elem_of_list_to_map_1 l k').
  - by rewrite !lookup_insert_ne by done.
Qed.

Lemma foldl_insert_all `{Countable K} {A} (l : list (K * A)) (m : gmap K A) :
  l ≡ₚ map_to_list m -> foldl (fun m e => <[e.1 := e.2]> m) ∅ l = m.
Proof.
  intros Hp. assert (NoDup (map fst l)) as Hnd.
  { assert (map fst l ≡ₚ map fst (map_to_list m)) as -> by by apply Permutation_map.
    apply NoDup_fst_map_to_list. }
  apply map_eq. intros k. rewrite foldl_insert_lookup by done. rewrite lookup_empty.
  rewrite (list_to_map_proper l (map_to_list m)) by done. rewrite list_to_map_to_list.
  by destruct (m !! k).
Qed.

(** Two entries of a strongly sorted list are related one way or the other. *)
Lemma sorted_pair {A} (R : relation A) l a b k :
  StronglySorted R l -> l ≡ₚ a :: b :: k -> R a b \/ R b a.
Proof.
  intros Hs Hp. assert (a ∈ l) as Ha by (rewrite Hp; left).
  apply list_elem_of_split in Ha as (l1 & l2 & ->).
  assert (b ∈ l1 ++ l2) as Hb.
  { rewrite <- Permutation_middle in Hp. apply Permutation_cons_inv in Hp. rewrite Hp. left. }
  apply StronglySorted_app in Hs as (H1 & _ & H2). apply elem_of_app in Hb as [Hb|Hb].
  - right. apply H1; [done|left].
  - left. inversion H2 as [|? ? _ HF]; subst. rewrite Forall_forall in HF. by apply HF.
Qed.

(** ** What validation establishes *)

(** A page entry names a slot of a frame of the view that holds that page, at a
    version no newer than the view, within the view's size. *)
Definition page_fits (v : ViewMetadata) (e : Z * StoredPage) : Prop :=
  exists location version,
    vm_frames v !! sp_frame e.2 = Some location /\
    fm_pages (fl_metadata location) !! Z.to_nat (sp_slot e.2) = Some version /\
    pv_page version = e.1 /\ pv_txid version <= vm_txid v /\ e.1 <= lb_pages (vm_size v).

Definition frame_fits (v : ViewMetadata) (e : Digest * FrameLocation) : Prop :=
  fm_id (fl_metadata e.2) = e.1 /\
  fs_page_size (fm_shape (fl_metadata e.2)) = lb_page_size (vm_size v) /\
  pk_length (fl_payload e.2) = fm_payload_bytes (fl_metadata e.2).

Definition frame_length (e : Digest * FrameLocation) : Z := 76 + encoded_len (fl_metadata e.2).
Definition frames_length (l : list (Digest * FrameLocation)) : Z := foldr (fun e n => frame_length e + n) 0 l.

(** The bytes of the record that encodes a view. *)
Definition record_length (v : ViewMetadata) : Z :=
  192 + 32 * zlen (vm_preferred v) + 40 * Z.of_nat (size (vm_pages v)) +
  frames_length (sorted_list (vm_frames v)).

Definition disjoint_frames (v : ViewMetadata) : Prop :=
  forall a b la lb, a <> b -> vm_frames v !! a = Some la -> vm_frames v !! b = Some lb ->
    fl_pack la = fl_pack lb ->
    PackRange_end (fl_payload la) <= pk_offset (fl_payload lb) \/
    PackRange_end (fl_payload lb) <= pk_offset (fl_payload la).

(** The structure of a resolved view. *)
Record view_shape (v : ViewMetadata) : Prop := {
  shape_preferred : NoDup (vm_preferred v) /\ zlen (vm_preferred v) <= 4;
  shape_pages : forall n p, vm_pages v !! n = Some p -> page_fits v (n, p);
  shape_frames : forall id l, vm_frames v !! id = Some l -> frame_fits v (id, l);
  shape_used : forall id l, vm_frames v !! id = Some l -> exists n p, vm_pages v !! n = Some p /\ sp_frame p = id;
  shape_disjoint : disjoint_frames v;
}.

Lemma encoded_len_pos m : 57 <= encoded_len m.
Proof. unfold encoded_len. pose proof (zlen_nonneg (fm_pages m)). destruct (is_shared _); lia. Qed.

Lemma frames_length_nonneg l : 0 <= frames_length l.
Proof.
  induction l as [|e l IH]; simpl; [done|]. unfold frame_length.
  pose proof (encoded_len_pos (fl_metadata e.2)). lia.
Qed.

Lemma validate_pages_sound v l used used' :
  mfold (validate_page v) used l = Ok used' ->
  Forall (page_fits v) l /\ used' = list_to_set (map (fun e => sp_frame e.2) l) ∪ used.
Proof.
  revert used. induction l as [|[n p] l IH]; intros used E; cbn [mfold] in E.
  - inv_ok. subst. split; [constructor|]. set_solver.
  - inv_ok. unfold validate_page in Hok. inv_ok. bools. subst a.
    apply IH in E as [HF ->]. split.
    + constructor; [|done]. exists a0, a1. cbn. split_and!; try done; lia.
    + cbn [map list_to_set foldr]. set_solver.
Qed.

Lemma validate_frames_sound v l n n' :
  mfold (validate_frame v) n l = Ok n' ->
  Forall (frame_fits v) l /\ n' = n + frames_length l.
Proof.
  revert n. induction l as [|[id loc] l IH]; intros n E; cbn [mfold] in E.
  - inv_ok. subst. split; [constructor|]. simpl. lia.
  - inv_ok. unfold validate_frame in Hok. inv_all. guards. apply checked_add_Some in Hok as [-> _].
    apply IH in E as [HF ->]. split.
    + constructor; [|done]. split_and!; cbn; (done || lia).
    + unfold frames_length. cbn [foldr]. fold (frames_length l). unfold frame_length. cbn [snd]. lia.
Qed.

Lemma overlapping_sorted l :
  Forall (fun r => 0 <= pk_length r) l -> overlapping l = false ->
  StronglySorted (fun a b => PackRange_end a <= pk_offset b) l.
Proof.
  induction l as [|a [|b l] IH]; intros Hp Ho; [constructor|repeat constructor|].
  cbn [overlapping] in Ho. apply orb_false_elim in Ho as [Hab Ho].
  inversion Hp as [|? ? Ha Hp']; subst. specialize (IH Hp' Ho). constructor; [done|].
  inversion IH as [|? ? _ HF]; subst. inversion Hp' as [|? ? Hb _]; subst. constructor; [lia|].
  eapply Forall_impl; [exact HF|]. intros c Hc. cbn in Hc. unfold PackRange_end in *. lia.
Qed.

Lemma payloads_perm v a b la lb :
  a <> b -> vm_frames v !! a = Some la -> vm_frames v !! b = Some lb -> fl_pack la = fl_pack lb ->
  exists k, payloads v (fl_pack la) ≡ₚ fl_payload la :: fl_payload lb :: k.
Proof.
  intros Hne Ha Hb Hp. unfold payloads.
  assert (map_to_list (vm_frames v) ≡ₚ (a, la) :: (b, lb) :: map_to_list (delete b (delete a (vm_frames v)))) as HP.
  { rewrite (map_to_list_delete (delete a (vm_frames v)) b lb) by by rewrite lookup_delete_ne.
    by rewrite (map_to_list_delete _ a la). }
  eexists. rewrite sorted_list_perm, HP. cbn [omap list_omap snd].
  by rewrite <- Hp, bytes_eqb_refl.
Qed.

Lemma validate_ranges_sound v :
  (forall id l, vm_frames v !! id = Some l -> 0 <= pk_length (fl_payload l)) ->
  validate_frame_ranges v = Ok tt -> disjoint_frames v.
Proof.
  intros Hpos E a b la lb Hne Ha Hb Hp. unfold validate_frame_ranges in E. inv_ok.
  assert (overlapping (isort (fun a b => pk_offset a <=? pk_offset b) (payloads v (fl_pack la))) = false) as Ho.
  { apply not_true_iff_false. intros Ho. apply not_true_iff_false in Hguard. apply Hguard.
    apply existsb_exists. exists (fl_pack la). split; [|done].
    apply list_elem_of_In, elem_of_elements. unfold packs. apply elem_of_list_to_set, list_elem_of_fmap.
    exists (a, la). split; [done|]. by apply elem_of_map_to_list. }
  destruct (payloads_perm v a b la lb) as (k & HP); try done.
  apply overlapping_sorted in Ho.
  - rewrite <- (isort_perm (fun a b => pk_offset a <=? pk_offset b)) in HP.
    destruct (sorted_pair _ _ _ _ _ Ho HP); auto.
  - rewrite isort_perm. apply Forall_forall. intros r Hr. unfold payloads in Hr.
    apply list_elem_of_omap in Hr as ([id l] & Hin & Hr). apply sorted_list_elem in Hin.
    cbn in Hr. destruct (bytes_eqb _ _); [|done]. injection Hr as <-. by eapply Hpos.
Qed.

Lemma validate_sound v m :
  (forall id l, vm_frames v !! id = Some l -> 0 <= fm_payload_bytes (fl_metadata l)) ->
  validate v = Ok m ->
  view_shape v /\ record_length v <= VIEW_LIMIT /\
  m = mkValidated v (mkSpan (vm_txid v) (vm_txid v)) [] (record_length v) Checkpoint.
Proof.
  intros Hpos E. unfold validate in E. inv_all. bools.
  repeat match goal with
  | H : checked_mul _ _ = Some _ |- _ => apply checked_mul_Some in H as [-> _]
  | H : checked_add _ _ = Some _ |- _ => apply checked_add_Some in H as [-> _]
  | H : TransactionSpan_new _ _ = Ok _ |- _ => unfold TransactionSpan_new in H; inv_ok
  end.
  apply validate_pages_sound in Hok as [Hpages ->].
  apply validate_frames_sound in Hok4 as [Hframes ->]. subst m a6. rewrite Forall_forall in Hpages. rewrite Forall_forall in Hframes.
  assert (forall n p, vm_pages v !! n = Some p -> page_fits v (n, p)) as Hp
    by (intros; by apply Hpages, sorted_pages_elem).
  assert (forall id l, vm_frames v !! id = Some l -> frame_fits v (id, l)) as Hf
    by (intros; by apply Hframes, sorted_list_elem).
  set (used := list_to_set _ ∪ ∅) in Hguard0.
  assert (used ⊆ dom (vm_frames v)) as Hsub.
  { intros id [Hid|?]%elem_of_union; [|set_solver]. apply elem_of_list_to_set, list_elem_of_fmap in Hid as ([n p] & -> & Hin).
    apply sorted_pages_elem, Hp in Hin as (l & _ & Hl & _). by apply elem_of_dom. }
  assert (used = dom (vm_frames v)) as Hused.
  { apply set_subseteq_size_eq; [done|]. rewrite size_dom. lia. }
  unfold record_length. split; [split|split].
  - split; [done|lia].
  - done.
  - done.
  - intros id l Hl. assert (id ∈ used) as Hid by (rewrite Hused; by apply elem_of_dom).
    apply elem_of_union in Hid as [Hid|?]; [|set_solver].
    apply elem_of_list_to_set, list_elem_of_fmap in Hid as ([n p] & -> & Hin).
    apply sorted_pages_elem in Hin. by exists n, p.
  - apply validate_ranges_sound; [|by destruct a5]. intros id l Hl.
    destruct (Hf id l Hl) as (_ & _ & Hlen). cbn in Hlen. rewrite Hlen. by eapply Hpos.
  - lia.
  - f_equal. lia.
Qed.

(** ** The fields of a view, as they are read *)

Section Codec.
Context {HH : Hashes} {HOK : HashesOk HH}.

Record location_ok (e : Digest * FrameLocation) : Prop := {
  location_id : digest_ok e.1 /\ fm_id (fl_metadata e.2) = e.1;
  location_pack : digest_ok (fl_pack e.2);
  location_metadata : metadata_ok (fl_metadata e.2);
  location_payload : 0 <= pk_offset (fl_payload e.2) /\ PackRange_end (fl_payload e.2) <= U64_MAX /\
    pk_length (fl_payload e.2) = fm_payload_bytes (fl_metadata e.2);
}.

Definition entry_ok (e : Z * StoredPage) : Prop :=
  page_number_ok e.1 /\ digest_ok (sp_frame e.2) /\ is_u32 (sp_slot e.2).

Definition seal_ok (parent : option Digest) : Prop :=
  match parent with Some d => digest_ok d /\ d <> ZERO_DIGEST | None => True end.

Record view_fields (v : ViewMetadata) : Prop := {
  fields_database : digest_ok (vm_database v);
  fields_lineage : digest_ok (vm_lineage v);
  fields_size : logical_ok (vm_size v);
  fields_txid : txid_ok (vm_txid v);
  fields_history : digest_ok (vm_history v);
  fields_seal : seal_ok (vm_parent_seal v);
  fields_frames : forall id l, vm_frames v !! id = Some l -> location_ok (id, l);
  fields_pages : forall n p, vm_pages v !! n = Some p -> entry_ok (n, p);
  fields_preferred : Forall digest_ok (vm_preferred v);
}.

Lemma seal_bytes_ok parent : seal_ok parent -> digest_ok (seal_bytes parent).
Proof.
  destruct parent as [d|]; [by intros [? _]|]. intros _. split; [done|]. apply is_bytes_zeros.
Qed.

Lemma seal_bytes_inv parent :
  seal_ok parent -> (if bytes_eqb (seal_bytes parent) ZERO_DIGEST then None else Some (seal_bytes parent)) = parent.
Proof.
  destruct parent as [d|]; [|intros _; change (seal_bytes None) with ZERO_DIGEST; by rewrite bytes_eqb_refl].
  intros [_ Hne]. change (seal_bytes (Some d)) with d. by rewrite (proj2 (bytes_eqb_false _ _) Hne).
Qed.

Lemma content_root_ok v : digest_ok (content_root v).
Proof. split; [apply blake3_length|apply blake3_bytes]. Qed.

Section Reading.
Context {W : Type} {WI : Wire W} {WV : WireView W} {WL : WireLaws W}.

Lemma reads_preferred l acc :
  NoDup (acc ++ l) -> Forall digest_ok l ->
  reads (decode_preferred (length l) acc) (concat l) (acc ++ l).
Proof.
  revert acc. induction l as [|d l IH]; intros acc Hnd Hd; cbn [length decode_preferred concat].
  - rewrite app_nil_r. apply reads_ret.
  - inversion Hd; subst. eapply reads_bind; [by apply reads_digest|].
    apply reads_guard.
    { apply bool_decide_eq_false. intros Hin. apply NoDup_app in Hnd as (_ & Hnd & _).
      eapply Hnd; [exact Hin|left]. }
    replace (acc ++ d :: l) with ((acc ++ [d]) ++ l) in * by by rewrite <- (assoc_L (++)). by apply IH.
Qed.

Lemma reads_frame ps e x :
  location_ok e -> fs_page_size (fm_shape (fl_metadata e.2)) = ps -> encode_frame e = Ok x ->
  reads (decode_frame ps) x e.
Proof.
  destruct e as [id [pack payload m]]. intros [[Hid Hm] Hpack Hok (Ho & Hend & Hlen)] Hps E. cbn in *.
  unfold encode_frame in E. cbn in E. inv_ok. subst x. bools. unfold U64_MAX, PackRange_end in *.
  pose proof Hok as (_ & Hsh & Henc & Hpb & _ & Hph & Hn & Hpv & _).
  pose proof (shape_ok_bounds _ Hsh) as (B1 & B2 & B3).
  pose proof (zlen_encode m Henc Hph Hpv) as Hz.
  unfold decode_frame.
  eapply reads_bind; [by apply reads_digest|].
  eapply reads_bind; [by apply reads_digest|].
  eapply reads_bind; [apply reads_u64; unfold is_u64; lia|].
  eapply reads_bind; [apply reads_u32; pose proof (zlen_nonneg (FrameMetadata_encode m)); unfold is_u32, U32_MAX in *; lia|].
  apply reads_guard.
  { apply Z.ltb_ge. rewrite Hz. unfold encoded_len. rewrite Hn.
    assert (fs_pages (fm_shape m) <= 8 * 1024 * 1024 / ps).
    { apply Z.div_le_lower_bound; [lia|]. unfold decoded, MAX_FRAME_BYTES in *. lia. }
    destruct (is_shared _); lia. }
  eapply reads_bind_end; [apply reads_exact; [done|by apply is_bytes_encode]|].
  eapply reads_lift; [rewrite <- Hm; by apply frame_metadata_roundtrip_lemma|].
  eapply reads_lift; [apply value_Ok, StoredRange_new_spec; split; [done|unfold U64_MAX; lia]|].
  eapply reads_lift.
  { unfold PackRange_stored. apply value_Ok, PackRange_new_spec; cbn; [lia|]. split; [done|unfold U64_MAX; lia]. }
  rewrite <- Hlen. replace (mkPackRange (pk_offset payload) (pk_length payload)) with payload by by destruct payload.
  apply reads_ret.
Qed.

Lemma reads_frames ps l xs frames :
  Forall (fun e => location_ok e /\ fs_page_size (fm_shape (fl_metadata e.2)) = ps) l ->
  NoDup (map fst l) -> (forall id, id ∈ map fst l -> frames !! id = None) -> mmap encode_frame l = Ok xs ->
  reads (decode_frames (length l) ps frames) (concat xs) (foldl (fun m e => <[e.1 := e.2]> m) frames l).
Proof.
  revert xs frames. induction l as [|e l IH]; intros xs frames Hl Hnd Hf E; cbn [mmap] in E; inv_ok; subst xs.
  - apply reads_ret.
  - inversion Hl as [|? ? [He Hps] Hl']; subst. cbn [map] in Hnd. apply NoDup_cons in Hnd as [Hn Hnd].
    cbn [length decode_frames concat foldl]. eapply reads_bind; [by apply reads_frame|].
    apply reads_guard. { apply bool_decide_eq_false. rewrite Hf by left. by intros [? ?]. }
    apply IH; try done. intros id Hid. rewrite lookup_insert_ne by congruence. apply Hf. by right.
Qed.

Lemma reads_page_map frames l xs pages :
  Forall (fun e => entry_ok e /\ exists loc, frames !! sp_frame e.2 = Some loc /\
            sp_slot e.2 < fs_pages (fm_shape (fl_metadata loc))) l ->
  NoDup (map fst l) -> (forall n, n ∈ map fst l -> pages !! n = None) -> mmap encode_page l = Ok xs ->
  reads (decode_page_map (length l) frames pages) (concat xs) (foldl (fun m e => <[e.1 := e.2]> m) pages l).
Proof.
  revert xs pages. induction l as [|e l IH]; intros xs pages Hl Hnd Hf E; cbn [mmap] in E; inv_ok; subst xs.
  - apply reads_ret.
  - inversion Hl as [|? ? [(Hn & Hd & Hs) (loc & Hloc & Hslot)] Hl']; subst. cbn [map] in Hnd. apply NoDup_cons in Hnd as [Hnn Hnd].
    unfold encode_page in Hok. inv_ok. subst a. cbn [length decode_page_map concat foldl].
    unfold page_number_ok, U32_MAX in Hn. rewrite <- !(assoc_L (++)).
    eapply reads_bind; [apply reads_u32; unfold is_u32; lia|].
    eapply reads_lift; [apply value_Ok, PageNumber_new_spec; [unfold U32_MAX; lia|]; split; [done|unfold page_number_ok, U32_MAX; lia]|].
    eapply reads_bind; [by apply reads_digest|].
    eapply reads_lift; [by rewrite Hloc|].
    eapply reads_bind; [by apply reads_u32|].
    eapply reads_lift. { apply value_Ok. unfold FrameShape_slot. by rewrite (proj2 (Z.ltb_lt _ _)). }
    apply reads_guard. { apply bool_decide_eq_false. rewrite Hf by left. by intros [? ?]. }
    replace (mkStored (sp_frame e.2) (sp_slot e.2)) with e.2 by by destruct e as [? []].
    apply IH; try done. intros n Hin. rewrite lookup_insert_ne by congruence. apply Hf. by right.
Qed.
End Reading.

Lemma encode_frames_length l xs :
  Forall location_ok l -> mmap encode_frame l = Ok xs ->
  zlen (concat xs) = frames_length l /\ is_bytes (concat xs) /\ 64 * zlen l <= frames_length l.
Proof.
  revert xs. induction l as [|e l IH]; intros xs Hl E; cbn [mmap] in E; inv_ok; subst xs.
  - split_and!; [done|constructor|done].
  - inversion Hl as [|? ? [[Hid _] Hpack Hmd _] Hl']; subst. destruct (IH _ Hl' Hok0) as (IH1 & IH2 & IH3).
    unfold encode_frame in Hok. inv_ok. subst a.
    pose proof Hmd as (_ & _ & Henc & _ & _ & Hph & _ & Hpv & _).
    pose proof (zlen_encode _ Henc Hph Hpv) as Hz. pose proof (is_bytes_encode _ Henc Hph Hpv).
    destruct Hid as [Hid1 Hid2], Hpack as [Hp1 Hp2]. pose proof (encoded_len_pos (fl_metadata e.2)).
    unfold frames_length in *. cbn [concat foldr]. fold (frames_length l) in *. unfold frame_length, u64_bytes, u32_bytes.
    rewrite !zlen_app, !zlen_le_bytes, zlen_cons, !Forall_app. split_and!; auto with bytedb; lia.
Qed.

Lemma encode_pages_length l xs :
  Forall entry_ok l -> mmap encode_page l = Ok xs -> zlen (concat xs) = 40 * zlen l /\ is_bytes (concat xs).
Proof.
  revert xs. induction l as [|e l IH]; intros xs Hl E; cbn [mmap] in E; inv_ok; subst xs.
  - split; [done|constructor].
  - inversion Hl as [|? ? (_ & [Hd1 Hd2] & _) Hl']; subst. destruct (IH _ Hl' Hok0) as (IH1 & IH2).
    unfold encode_page in Hok. inv_ok. subst a. cbn [concat]. unfold u32_bytes.
    rewrite !zlen_app, !zlen_le_bytes, zlen_cons, !Forall_app. split_and!; auto with bytedb; lia.
Qed.

Lemma concat_digests l : Forall digest_ok l -> zlen (concat l) = 32 * zlen l /\ is_bytes (concat l).
Proof.
  induction 1 as [|d l [Hd1 Hd2] Hl [IH1 IH2]]; [split; [done|constructor]|]. cbn [concat].
  rewrite zlen_app, zlen_cons, Forall_app. split_and!; (done || lia).
Qed.

Lemma fields_frames_list v : view_fields v -> Forall location_ok (sorted_list (vm_frames v)).
Proof. intros Hv. apply Forall_forall. intros [id l] Hin. apply (fields_frames v Hv). by apply sorted_list_elem. Qed.

Lemma fields_pages_list v : view_fields v -> Forall entry_ok (sorted_pages (vm_pages v)).
Proof. intros Hv. apply Forall_forall. intros [n p] Hin. apply (fields_pages v Hv). by apply sorted_pages_elem. Qed.

Lemma length_sorted_list {A} (m : gmap (list Z) A) : length (sorted_list m) = size m.
Proof. rewrite sorted_list_perm. apply length_map_to_list. Qed.

Lemma encode_raw_length v raw :
  view_fields v -> encode_raw v = Ok raw ->
  zlen raw = record_length v /\ is_bytes raw /\ zlen raw <= VIEW_LIMIT /\
  64 * Z.of_nat (size (vm_frames v)) <= zlen raw /\ 40 * Z.of_nat (size (vm_pages v)) <= zlen raw.
Proof.
  intros Hv E. unfold encode_raw in E. inv_ok. bools. subst raw.
  destruct (encode_frames_length _ _ (fields_frames_list v Hv) Hok) as (F1 & F2 & F3).
  destruct (encode_pages_length _ _ (fields_pages_list v Hv) Hok0) as (P1 & P2).
  destruct (concat_digests _ (fields_preferred v Hv)) as [D1 D2].
  destruct (fields_database v Hv) as [Hd1 Hd2], (fields_lineage v Hv) as [Hl1 Hl2], (fields_history v Hv) as [Hh1 Hh2],
    (seal_bytes_ok _ (fields_seal v Hv)) as [Hs1 Hs2], (content_root_ok v) as [Hc1 Hc2].
  unfold record_length, u32_bytes, u64_bytes in *. rewrite !zlen_app, !zlen_le_bytes in *.
  unfold zlen in F3, P1. rewrite length_sorted_list in F3. rewrite length_sorted_pages in P1.
  pose proof (frames_length_nonneg (sorted_list (vm_frames v))). unfold zlen in F1 at 1. unfold zlen in *.
  apply Z.ltb_ge in Hguard2. split; [lia|]. split; [|lia]. rewrite !Forall_app. split_and!; auto with bytedb.
Qed.

(** At most as many entries as there are page numbers. *)
Lemma page_map_bound {A} (m : gmap Z A) n :
  0 <= n -> (forall k v, m !! k = Some v -> 1 <= k <= n) -> Z.of_nat (size m) <= n.
Proof.
  intros Hn Hk. rewrite <- size_dom.
  assert (dom m ⊆ (list_to_set (seqZ 1 n) : gset Z)) as Hs.
  { intros k [v Hv]%elem_of_dom. apply elem_of_list_to_set, elem_of_seqZ. apply Hk in Hv. lia. }
  apply subseteq_size in Hs. rewrite size_list_to_set, length_seqZ in Hs by apply NoDup_seqZ. lia.
Qed.

Lemma shape_slot v n p :
  view_fields v -> view_shape v -> vm_pages v !! n = Some p ->
  exists l, vm_frames v !! sp_frame p = Some l /\ sp_slot p < fs_pages (fm_shape (fl_metadata l)).
Proof.
  intros Hf Hs Hp. destruct (shape_pages v Hs n p Hp) as (l & ver & Hl & Hver & _). exists l. split; [done|].
  destruct (location_metadata _ (fields_frames v Hf _ l Hl)) as (_ & _ & _ & _ & _ & _ & Hn & _). cbn in *.
  apply lookup_lt_Some in Hver. destruct (fields_pages v Hf n p Hp) as (_ & _ & Hu). cbn in Hu.
  unfold is_u32, zlen in *. lia.
Qed.

Lemma reads_view {W} {WI : Wire W} {WV : WireView W} {WL : WireLaws W} v raw :
  view_fields v -> view_shape v -> encode_raw v = Ok raw ->
  reads (view_body (zlen raw)) raw (v, content_root v).
Proof.
  intros Hf Hs E. destruct (encode_raw_length v raw Hf E) as (_ & _ & _ & Hframes & Hpages).
  set (len := zlen raw) in *. clearbody len.
  unfold encode_raw in E. inv_ok. bools. subst raw. rewrite <- !(assoc_L (++)).
  pose proof Hf as [Hdb Hlin Hsz Htx Hhist Hseal _ _ Hpref]. pose proof Hs as [[Hnd H4] Hfit Hframe _ _].
  pose proof Hsz as (Hps & Hb & Hbytes & Hlim). pose proof (page_size_ok_bounds _ Hps).
  unfold txid_ok, U64_MAX in Htx. pose proof (zlen_nonneg (vm_preferred v)).
  unfold U32_MAX in *. unfold view_body.
  eapply reads_bind; [by apply reads_digest|].
  eapply reads_bind; [by apply reads_digest|].
  eapply reads_bind; [apply reads_u32; unfold is_u32; lia|].
  eapply reads_lift; [by apply PageSize_new_fwd|].
  eapply reads_bind; [apply reads_u64; unfold is_u64; nia|].
  eapply reads_lift; [apply value_Ok, LogicalBytes_new_spec; [done|done|split; [done|destruct (vm_size v); exact Hsz]]|].
  eapply reads_bind; [apply reads_u64; unfold is_u64; lia|].
  eapply reads_lift; [apply value_Ok, TransactionId_new_spec; [unfold U64_MAX; lia|split; [done|unfold txid_ok, U64_MAX; lia]]|].
  eapply reads_bind; [by apply reads_digest|].
  eapply reads_bind; [by apply reads_digest, seal_bytes_ok|].
  eapply reads_bind; [apply reads_digest, content_root_ok|].
  eapply reads_bind; [apply reads_u32; unfold is_u32; lia|].
  apply reads_guard; [by apply Z.ltb_ge|].
  eapply reads_bind.
  { unfold zlen. rewrite Nat2Z.id. by apply (reads_preferred _ []). }
  eapply reads_bind; [apply reads_u32; unfold is_u32; lia|].
  apply reads_guard; [apply Z.ltb_ge, Z.div_le_lower_bound; lia|].
  eapply reads_bind.
  { rewrite Nat2Z.id, <- length_sorted_list. apply reads_frames; [|apply sorted_list_NoDup|done|done].
    apply Forall_forall. intros [id l] Hin. apply sorted_list_elem in Hin.
    split; [by apply (fields_frames v Hf)|]. by destruct (Hframe _ _ Hin) as (_ & ? & _). }
  rewrite (foldl_insert_all _ (vm_frames v)) by apply sorted_list_perm.
  assert (Z.of_nat (size (vm_pages v)) <= lb_pages (vm_size v)).
  { apply page_map_bound; [unfold lb_pages; apply Z.div_pos; lia|]. intros k p Hk.
    destruct (Hfit _ _ Hk) as (_ & _ & _ & _ & _ & _ & Hle). destruct (fields_pages v Hf _ _ Hk) as ((? & ?) & _).
    cbn in *. lia. }
  eapply reads_bind; [apply reads_u32; unfold is_u32; lia|].
  apply reads_guard.
  { apply orb_false_intro; [apply Z.ltb_ge; by destruct (vm_size v)|apply Z.ltb_ge, Z.div_le_lower_bound; lia]. }
  eapply reads_bind_end.
  { rewrite Nat2Z.id, <- length_sorted_pages. apply reads_page_map; [|apply sorted_pages_NoDup|done|done].
    apply Forall_forall. intros [n p] Hin. apply sorted_pages_elem in Hin.
    split; [by apply (fields_pages v Hf)|]. by eapply shape_slot. }
  rewrite (foldl_insert_all _ (vm_pages v)) by apply sorted_pages_perm. rewrite seal_bytes_inv by done.
  destruct v as [? ? [] ? ? ? ? ? ?]. apply reads_ret.
Qed.

(** ** Whatever is decoded is well formed *)

Section Parsing.
Context {W : Type} {WI : Wire W} {WV : WireView W} {WL : WireLaws W}.

Lemma parses_preferred n acc :
  parses (decode_preferred n acc) (fun l x => exists l', l = acc ++ l' /\ Forall digest_ok l').
Proof.
  revert acc. induction n as [|n IH]; intros acc; cbn [decode_preferred].
  - apply parses_end. exists []. by rewrite app_nil_r.
  - eapply parses_step; [apply parses_digest|]. intros d x (Hd & ->).
    apply parses_guard_step. intros _. eapply parses_weaken; [apply IH|].
    intros l y (l' & -> & Hl). exists (d :: l'). rewrite <- (assoc_L (++)). split; [done|by constructor].
Qed.

Lemma parses_frame ps : parses (decode_frame ps) (fun e x => location_ok e).
Proof.
  unfold decode_frame.
  eapply parses_step; [apply parses_digest|]. intros id x (Hid & ->).
  eapply parses_step; [apply parses_digest|]. intros pack x (Hpack & ->).
  eapply parses_step; [apply parses_u64|]. intros offset x (Ho & ->).
  eapply parses_step; [apply parses_u32|]. intros length x (Hl & ->).
  apply parses_guard_step. intros _. unfold is_u32, is_u64 in *.
  eapply parses_step; [apply parses_take; lia|]. intros encoded x (-> & Hz & Hb).
  apply parses_lift_step. intros m Hm.
  apply frame_metadata_canonical_lemma in Hm as (Hmok & Hmid & _); [|done|unfold U64_MAX; lia].
  apply parses_lift_step. intros stored [-> Hs]%value_Ok%StoredRange_new_spec.
  pose proof Hmok as (_ & _ & _ & Hpb & _).
  apply parses_lift_step. intros payload Hp. unfold PackRange_stored in Hp.
  apply value_Ok, PackRange_new_spec in Hp as (-> & _ & He); cbn in *; [|lia].
  apply parses_end. split; cbn; try done. split_and!; (done || lia).
Qed.

Lemma parses_frames n ps frames :
  parses (decode_frames n ps frames)
    (fun m x => forall id l, m !! id = Some l -> frames !! id = Some l \/ location_ok (id, l)).
Proof.
  revert frames. induction n as [|n IH]; intros frames; cbn [decode_frames].
  - apply parses_end. auto.
  - eapply parses_step; [apply parses_frame|]. intros [id l] x He.
    apply parses_guard_step. intros _. eapply parses_weaken; [apply IH|].
    intros m y Hm id' l' [Hl|Hl]%Hm; [|by right]. cbn in Hl.
    destruct (decide (id = id')) as [->|Hne].
    + rewrite lookup_insert_eq in Hl. injection Hl as <-. by right.
    + rewrite lookup_insert_ne in Hl by done. by left.
Qed.

Lemma parses_page_map n frames pages :
  parses (decode_page_map n frames pages)
    (fun m x => forall k p, m !! k = Some p -> pages !! k = Some p \/ entry_ok (k, p)).
Proof.
  revert pages. induction n as [|n IH]; intros pages; cbn [decode_page_map].
  - apply parses_end. auto.
  - eapply parses_step; [apply parses_u32|]. intros number x (Hn & ->).
    apply parses_lift_step. intros page Hp%value_Ok.
    apply PageNumber_new_spec in Hp as [-> Hpn]; [|unfold is_u32, U32_MAX in *; lia].
    eapply parses_step; [apply parses_digest|]. intros frame x (Hd & ->).
    apply parses_lift_step. intros location _.
    eapply parses_step; [apply parses_u32|]. intros index x (Hi & ->).
    apply parses_lift_step. intros slot Hs%value_Ok. unfold FrameShape_slot in Hs.
    destruct (_ <? _); [|done]. injection Hs as <-.
    apply parses_guard_step. intros _. eapply parses_weaken; [apply IH|].
    intros m y Hm k p [Hl|Hl]%Hm; [|by right].
    destruct (decide (number = k)) as [->|Hne].
    + rewrite lookup_insert_eq in Hl. injection Hl as <-. by right.
    + rewrite lookup_insert_ne in Hl by done. by left.
Qed.

Lemma parses_view len : parses (view_body len) (fun r x => view_fields r.1).
Proof.
  unfold view_body.
  eapply parses_step; [apply parses_digest|]. intros database x (Hdb & ->).
  eapply parses_step; [apply parses_digest|]. intros lineage x (Hlin & ->).
  eapply parses_step; [apply parses_u32|]. intros s x (Hs & ->).
  apply parses_lift_step. intros ps [-> Hps]%value_Ok%PageSize_new_spec.
  eapply parses_step; [apply parses_u64|]. intros b x (Hb & ->). unfold is_u64, is_u32 in *.
  apply parses_lift_step. intros size [-> Hsize]%value_Ok%LogicalBytes_new_spec; [|lia|done].
  eapply parses_step; [apply parses_u64|]. intros t x (Ht & ->).
  apply parses_lift_step. intros txid [-> Htx]%value_Ok%TransactionId_new_spec; [|unfold is_u64, U64_MAX in *; lia].
  eapply parses_step; [apply parses_digest|]. intros history x (Hh & ->).
  eapply parses_step; [apply parses_digest|]. intros parent x (Hp & ->).
  eapply parses_step; [apply parses_digest|]. intros root x (Hr & ->).
  eapply parses_step; [apply parses_u32|]. intros preferred x (_ & ->).
  apply parses_guard_step. intros _.
  eapply parses_step; [apply parses_preferred|]. intros ids x1 (l & -> & Hids).
  eapply parses_step; [apply parses_u32|]. intros frames x (_ & ->).
  apply parses_guard_step. intros _.
  eapply parses_step; [apply parses_frames|]. intros locations x2 Hlocs.
  eapply parses_step; [apply parses_u32|]. intros pages x (_ & ->).
  apply parses_guard_step. intros _.
  eapply parses_step; [apply parses_page_map|]. intros map x3 Hmap.
  apply parses_end. split; cbn; try done.
  - destruct (bytes_eqb parent ZERO_DIGEST) eqn:E; guards; done.
  - intros id loc [Hl|Hl]%Hlocs; [by rewrite lookup_empty in Hl|done].
  - intros k p [Hl|Hl]%Hmap; [by rewrite lookup_empty in Hl|done].
Qed.
End Parsing.

(** A stream decoder that has read nothing yet. *)
Definition fresh (r : ReadDecoder) : Prop :=
  rd_position r = 0 /\ rd_hash r = [] /\ is_bytes (rd_reader r) /\ 0 <= rd_length r <= U64_MAX.

Lemma fresh_ok r :
  fresh r -> @wire_ok _ (stream_view (rd_reader r) (rd_clean r) (rd_length r) (rd_expected r)) r.
Proof. intros (Hp & Hh & Hb & Hl). cbn. split_and!; try done; try lia. exists []. by rewrite Hp. Qed.

(** Views with well-formed fields and structure, and their recorded length. *)
Definition view_wf (v : ViewMetadata) : Prop := view_fields v /\ view_shape v.

Lemma fields_payload_nonneg v id l :
  view_fields v -> vm_frames v !! id = Some l -> 0 <= fm_payload_bytes (fl_metadata l).
Proof.
  intros Hv Hl. destruct (location_metadata _ (fields_frames v Hv id l Hl)) as (_ & _ & _ & Hp & _). cbn in Hp. lia.
Qed.

Lemma decode_reader_sound `{ZstdLib} r m :
  fresh r -> decode_reader r = Ok m ->
  view_wf (vd_view m) /\ record_length (vd_view m) = rd_length r /\ record_length (vd_view m) <= VIEW_LIMIT /\
  m = mkValidated (vd_view m) (mkSpan (vm_txid (vd_view m)) (vm_txid (vd_view m))) [] (record_length (vd_view m)) Checkpoint.
Proof.
  intros Hr E. unfold decode_reader in E. inv_ok. destruct a as [[v root] r']. inv_ok. guards.
  pose proof (ReadDecoder_laws (rd_reader r) (rd_clean r) (rd_length r) (rd_expected r)) as HL.
  destruct (@parses_view _ _ _ HL (rd_length r) _ _ _ (fresh_ok r Hr) Hok) as (x & _ & _ & Hf). cbn in Hf.
  apply validate_sound in Hok1 as (Hs & Hlim & ->); [|intros; by eapply fields_payload_nonneg].
  subst m. cbn in *. unfold view_wf. split_and!; try done. lia.
Qed.

Section Records.
Context {Z0 : ZstdLib} {ZOK : ZstdOk Z0}.

Lemma validate_shape v m : view_fields v -> validate v = Ok m -> view_shape v.
Proof. intros Hf Hm. apply validate_sound in Hm as (Hs & _); [done|]. intros; by eapply fields_payload_nonneg. Qed.

(** What every reader does with the record of a valid view. *)
Lemma decode_reader_reads v m raw r r' :
  view_fields v -> validate v = Ok m -> encode_raw v = Ok raw -> rd_length r = zlen raw ->
  view_body (zlen raw) r = Ok ((v, content_root v), r') -> ReadDecoder_finish r' = Ok tt ->
  decode_reader r = Ok m.
Proof.
  intros Hf Hm Hraw Hlen Hr Hfin. unfold decode_reader. rewrite Hlen, Hr. cbn [rbind]. rewrite Hfin. cbn [rbind].
  rewrite Hm. cbn [rbind]. destruct (encode_raw_length v raw Hf Hraw) as (Hz & _).
  apply validate_sound in Hm as (_ & _ & ->); [|intros; by eapply fields_payload_nonneg]. cbn.
  by rewrite Hz, Z.eqb_refl, bytes_eqb_refl.
Qed.

Lemma checkpoint_roundtrip_lemma v m e :
  view_fields v -> validate v = Ok m -> ViewMetadata_encode v = Ok e -> zlen e <= U64_MAX ->
  ViewMetadata_decode e = Ok m.
Proof.
  intros Hf Hm E Hl. unfold ViewMetadata_encode in E. inv_ok.
  destruct (encode_raw_length v a Hf Hok) as (Hz & Hb & Hlim & _). unfold VIEW_LIMIT in *.
  destruct (open_reader_reads VIEW_MAGIC a e VIEW_LIMIT) as (r & Hr & Hlen & Hread);
    try done; try (unfold VIEW_LIMIT, U64_MAX; lia); try apply is_bytes_ascii.
  { by eapply envelope_bytes; [apply is_bytes_ascii|]. }
  unfold ViewMetadata_decode. rewrite Hr. cbn [rbind].
  pose proof (ReadDecoder_laws a true (zlen a) (Some (blake3 a))) as HL.
  destruct (Hread _ _ _ (@reads_view _ _ _ HL v a Hf (validate_shape v m Hf Hm) Hok)) as (r' & E1 & E2).
  by eapply decode_reader_reads.
Qed.

Lemma decode_raw_roundtrip v m raw :
  view_fields v -> validate v = Ok m -> encode_raw v = Ok raw -> decode_raw raw = Ok m.
Proof.
  intros Hf Hm Hraw. destruct (encode_raw_length v raw Hf Hraw) as (_ & Hb & Hlim & _). unfold VIEW_LIMIT in *.
  pose proof (ReadDecoder_laws raw true (zlen raw) None) as HL. pose proof (zlen_nonneg raw).
  assert (fresh (ReadDecoder_new raw true (zlen raw))) as Hfr.
  { split_and!; cbn; (done || unfold U64_MAX; lia). }
  destruct (@reads_view _ _ _ HL v raw Hf (validate_shape v m Hf Hm) Hraw (ReadDecoder_new raw true (zlen raw)) [])
    as (r' & E & Hok & Hrem).
  - by apply (fresh_ok (ReadDecoder_new raw true (zlen raw))).
  - cbn. rewrite app_nil_r, Z.sub_0_r. apply take_ge. unfold zlen. lia.
  - eapply decode_reader_reads; try done. by apply (ReadDecoder_finish_spec raw true (zlen raw) None).
Qed.

Lemma checkpoint_decode_sound_lemma e m :
  is_bytes e -> zlen e <= U64_MAX -> ViewMetadata_decode e = Ok m ->
  view_wf (vd_view m) /\ record_length (vd_view m) <= VIEW_LIMIT /\
  m = mkValidated (vd_view m) (mkSpan (vm_txid (vd_view m)) (vm_txid (vd_view m))) [] (record_length (vd_view m)) Checkpoint.
Proof.
  intros Hb Hl E. unfold ViewMetadata_decode in E. inv_ok.
  assert (fresh a) as Hfr.
  { unfold open_envelope_reader in Hok. inv_ok. destruct a0 as [[[len hash] c] d]. cbn [fst] in Hok.
    unfold zstd in Hok. inv_ok. destruct a0 as [total clean]. subst a.
    destruct (envelope_fields_parses _ _ _ _ _ _ (Decoder_new_ok e Hl Hb) Hok0)
      as (x & _ & _ & len' & hash' & c' & Er & _ & _ & Hlen & Hlim & _).
    injection Er as <- <- <-. unfold is_u64 in *. split_and!; cbn; try done; try (unfold U64_MAX; lia).
    by eapply zstream_bytes. }
  by destruct (decode_reader_sound a m Hfr E) as (? & _ & ? & ?).
Qed.

(** ** Delta records *)

Record run_wf (run : MetadataRun) : Prop := {
  run_parent : digest_ok (pr_hash (mr_parent run)) /\ txid_ok (pr_txid (mr_parent run));
  run_root : digest_ok (mr_root run);
  run_span : span_ok (mr_span run) /\ span_end (mr_span run) = vm_txid (vd_view (mr_patch run));
  run_fields_ok : view_fields (vd_view (mr_patch run));
  run_validated : validate (vd_view (mr_patch run)) = Ok (mr_patch run);
  run_removed : forall page, page ∈ mr_removed run ->
    page_number_ok page /\ page <= lb_pages (vm_size (vd_view (mr_patch run))) /\
    vm_pages (vd_view (mr_patch run)) !! page = None;
}.

Lemma sorted_numbers_perm s : sorted_numbers s ≡ₚ elements s.
Proof. apply isort_perm. Qed.

Lemma sorted_numbers_elem s n : n ∈ sorted_numbers s <-> n ∈ s.
Proof. rewrite sorted_numbers_perm. apply elem_of_elements. Qed.

Lemma sorted_numbers_increasing s : StronglySorted Z.lt (sorted_numbers s).
Proof.
  assert (StronglySorted (fun a b => (a <=? b) = true) (sorted_numbers s)) as Hs.
  { apply isort_sorted; intros; lia. }
  assert (NoDup (sorted_numbers s)) as Hnd by (rewrite sorted_numbers_perm; apply NoDup_elements).
  induction Hs as [|a l Hs IH Ha]; [constructor|]. apply NoDup_cons in Hnd as [Hn Hnd].
  constructor; [by apply IH|]. rewrite Forall_forall in *. intros b Hb.
  assert (a <> b) by congruence. specialize (Ha b Hb). lia.
Qed.

Lemma removed_invalid_false v s :
  removed_invalid v s = false <-> forall n, n ∈ s -> n <= lb_pages (vm_size v) /\ vm_pages v !! n = None.
Proof.
  unfold removed_invalid. rewrite <- not_true_iff_false, existsb_exists. split.
  - intros Hn n Hin. apply elem_of_elements, list_elem_of_In in Hin.
    destruct (lb_pages (vm_size v) <? n) eqn:E; [exfalso; apply Hn; exists n; by rewrite E|].
    split; [lia|]. apply eq_None_not_Some. intros Hs. apply Hn. exists n. rewrite bool_decide_true by done.
    by rewrite orb_true_r.
  - intros Hs (n & Hin & Hb). apply list_elem_of_In, elem_of_elements, Hs in Hin as [H1 H2].
    rewrite H2, bool_decide_false in Hb by (by intros [? ?]). rewrite orb_false_r in Hb. lia.
Qed.

Lemma reads_removed l last acc :
  StronglySorted Z.lt l -> Forall page_number_ok l ->
  (forall b n, last = Some b -> n ∈ l -> b < n) ->
  reads (decode_removed (length l) last acc) (concat (map u32_bytes l)) (list_to_set l ∪ acc).
Proof.
  revert last acc. induction l as [|n l IH]; intros last acc Hs Hok Hlast; cbn [length decode_removed map concat].
  - rewrite list_to_set_nil, union_empty_l_L. apply reads_ret.
  - inversion Hs as [|? ? Hs' Hlt]; subst. inversion Hok as [|? ? Hn Hok']; subst.
    unfold page_number_ok, U32_MAX in Hn.
    eapply reads_bind; [apply reads_u32; unfold is_u32; lia|].
    eapply reads_lift; [apply value_Ok, PageNumber_new_spec; [unfold U32_MAX; lia|]; split; [done|unfold page_number_ok, U32_MAX; lia]|].
    apply reads_guard. { destruct last as [b|]; [|done]. specialize (Hlast b n eq_refl ltac:(left)). lia. }
    assert (list_to_set (n :: l) ∪ acc = list_to_set l ∪ ({[n]} ∪ acc)) as -> by (rewrite list_to_set_cons; set_solver).
    apply IH; try done. intros b k [= <-] Hk. rewrite Forall_forall in Hlt. by apply Hlt.
Qed.

Lemma parses_removed n last acc :
  (forall k, k ∈ acc -> page_number_ok k) ->
  parses (decode_removed n last acc)
    (fun s x => zlen x = 4 * Z.of_nat n /\ forall k, k ∈ s -> page_number_ok k).
Proof.
  revert last acc. induction n as [|n IH]; intros last acc Hacc; cbn [decode_removed].
  - apply parses_end. split; [done|]. exact Hacc.
  - eapply parses_step; [apply parses_u32|]. intros number x (Hn & ->).
    apply parses_lift_step. intros page Hp%value_Ok.
    apply PageNumber_new_spec in Hp as [-> Hpn]; [|unfold is_u32, U32_MAX in *; lia].
    apply parses_guard_step. intros _. eapply parses_weaken; [apply IH|].
    { intros k [Hk|Hk]%elem_of_union; [|by apply Hacc]. apply elem_of_singleton in Hk. by subst. }
    intros s y [Hy Hs]. unfold u32_bytes. rewrite zlen_app, zlen_le_bytes. split; [lia|done].
Qed.

Lemma run_prefix_length run :
  run_wf run -> zlen (run_prefix run) = RUN_PREFIX + 4 * Z.of_nat (size (mr_removed run)) /\ is_bytes (run_prefix run).
Proof.
  intros [[[Hh1 Hh2] _] [Hr1 Hr2] _ _ _ _]. unfold run_prefix, u64_bytes, u32_bytes, RUN_PREFIX.
  rewrite !zlen_app, !zlen_le_bytes, Hh1, Hr1.
  assert (forall l, zlen (concat (map (le_bytes 4) l)) = 4 * zlen l /\ is_bytes (concat (map (le_bytes 4) l))) as Hc.
  { induction l as [|n l [IH1 IH2]]; [split; [done|constructor]|]. cbn [map concat].
    rewrite zlen_app, zlen_le_bytes, zlen_cons, Forall_app. split; [lia|]. auto with bytedb. }
  destruct (Hc (sorted_numbers (mr_removed run))) as [Hc1 Hc2].
  change (fun v => le_bytes 4 v) with (le_bytes 4).
  assert (zlen (sorted_numbers (mr_removed run)) = Z.of_nat (size (mr_removed run))) as Hz.
  { unfold zlen. by rewrite sorted_numbers_perm. }
  split; [lia|]. rewrite !Forall_app. split_and!; auto with bytedb.
Qed.

Lemma reads_run run raw :
  run_wf run -> encode_raw (vd_view (mr_patch run)) = Ok raw -> zlen (run_prefix run ++ raw) <= VIEW_LIMIT ->
  reads (run_body (zlen (run_prefix run ++ raw))) (run_prefix run ++ raw)
    (mr_parent run, mr_root run, mr_span run, mr_removed run, raw).
Proof.
  intros Hwf Hraw Hlim. destruct (run_prefix_length run Hwf) as [Hz _].
  destruct (encode_raw_length _ _ (run_fields_ok run Hwf) Hraw) as (_ & Hb & _). pose proof (zlen_nonneg raw).
  rewrite zlen_app, Hz in *. unfold RUN_PREFIX, VIEW_LIMIT in *.
  destruct Hwf as [[Hh Ht] Hr [(Hsb & Hse & Hle) _] _ _ Hrem].
  unfold txid_ok in *. unfold run_body.
  eapply (reads_bind _ _ _ _ (mr_parent run, mr_root run, mr_span run, mr_removed run, Z.of_nat (size (mr_removed run)))).
  2: { eapply reads_bind_end; [apply reads_exact; [unfold RUN_PREFIX; lia|done]|apply reads_ret]. }
  unfold run_prefix, run_fields.
  eapply reads_bind; [by apply reads_digest|].
  eapply reads_bind; [apply reads_u64; unfold is_u64, U64_MAX in *; lia|].
  eapply reads_lift; [apply value_Ok, TransactionId_new_spec; [lia|by split]|].
  eapply reads_bind; [by apply reads_digest|].
  eapply reads_bind; [apply reads_u64; unfold is_u64, U64_MAX in *; lia|].
  eapply reads_lift; [apply value_Ok, TransactionId_new_spec; [lia|by split]|].
  eapply reads_bind; [apply reads_u64; unfold is_u64, U64_MAX in *; lia|].
  eapply reads_lift; [apply value_Ok, TransactionId_new_spec; [lia|by split]|].
  eapply reads_lift; [by apply TransactionSpan_new_fwd|].
  eapply reads_bind; [apply reads_u32; unfold is_u32; lia|].
  apply reads_guard.
  { apply Z.ltb_ge, Z.div_le_lower_bound; [lia|]. unfold saturating_sub, RUN_PREFIX. lia. }
  eapply reads_bind_end.
  { rewrite Nat2Z.id. replace (size (mr_removed run)) with (length (sorted_numbers (mr_removed run)))
      by by rewrite sorted_numbers_perm.
    apply reads_removed; [apply sorted_numbers_increasing| |done].
    apply Forall_forall. intros n Hn%sorted_numbers_elem. by apply Hrem. }
  replace (list_to_set (sorted_numbers (mr_removed run)) ∪ ∅) with (mr_removed run).
  - destruct run as [[hash txid] root [b e] patch removed]. apply reads_ret.
  - apply set_eq. intros n. rewrite elem_of_union, elem_of_list_to_set, sorted_numbers_elem. set_solver.
Qed.

Lemma run_roundtrip_lemma run e :
  run_wf run -> MetadataRun_encode run = Ok e -> zlen e <= U64_MAX -> MetadataRun_decode e = Ok run.
Proof.
  intros Hwf E Hl. unfold MetadataRun_encode in E. inv_ok. apply Z.ltb_ge in Hguard0. unfold VIEW_LIMIT in Hguard0.
  destruct (run_prefix_length run Hwf) as [_ Hpb].
  destruct (encode_raw_length _ _ (run_fields_ok run Hwf) Hok) as (_ & Hb & _).
  assert (is_bytes (run_prefix run ++ a)) as Hab by by apply Forall_app.
  unfold MetadataRun_decode.
  rewrite (envelope_roundtrip_lemma RUN_MAGIC (run_prefix run ++ a)); try done;
    try apply is_bytes_ascii; try (unfold VIEW_LIMIT, U64_MAX; lia).
  2: { by eapply envelope_bytes; [apply is_bytes_ascii|]. }
  cbn [rbind]. destruct (reads_whole _ _ _ (reads_run run a Hwf Hok ltac:(unfold VIEW_LIMIT; lia))) as (d & Ed & Hf);
    [unfold U64_MAX; lia|done|].
  rewrite Ed. cbn [rbind]. rewrite (decode_raw_roundtrip _ _ _ (run_fields_ok run Hwf) (run_validated run Hwf) Hok).
  cbn [rbind]. rewrite Hf. cbn [rbind]. destruct (run_span run Hwf) as [_ Hend].
  rewrite Hend, Z.eqb_refl, (proj2 (removed_invalid_false _ _)).
  - by destruct run.
  - intros n Hn. by destruct (run_removed run Hwf n Hn) as (_ & ? & ?).
Qed.

Lemma validate_idempotent v m : validate v = Ok m -> validate (vd_view m) = Ok m.
Proof. intros E. assert (vd_view m = v) as ->; [|done]. unfold validate in E. inv_ok. by subst m. Qed.

Lemma decode_reader_validated r m : decode_reader r = Ok m -> validate (vd_view m) = Ok m.
Proof.
  intros E. unfold decode_reader in E. inv_ok. destruct a as [[v root] r']. inv_ok. subst. by eapply validate_idempotent.
Qed.

Lemma parses_run_fields len :
  parses (run_fields len) (fun r x => let '(parent, root, span, removed, count) := r in
    digest_ok (pr_hash parent) /\ txid_ok (pr_txid parent) /\ digest_ok root /\ span_ok span /\
    (forall k, k ∈ removed -> page_number_ok k) /\ zlen x = RUN_PREFIX + 4 * count /\
    4 * count <= saturating_sub len RUN_PREFIX).
Proof.
  unfold run_fields.
  eapply parses_step; [apply parses_digest|]. intros hash x (Hh & ->).
  eapply parses_step; [apply parses_u64|]. intros t x (Ht & ->). unfold is_u64 in *.
  apply parses_lift_step. intros txid [-> Htx]%value_Ok%TransactionId_new_spec; [|unfold U64_MAX; lia].
  eapply parses_step; [apply parses_digest|]. intros rt x (Hr & ->).
  eapply parses_step; [apply parses_u64|]. intros b x (Hbb & ->). unfold is_u64 in *.
  apply parses_lift_step. intros first [-> Hfirst]%value_Ok%TransactionId_new_spec; [|unfold U64_MAX; lia].
  eapply parses_step; [apply parses_u64|]. intros f x (Hff & ->). unfold is_u64 in *.
  apply parses_lift_step. intros final [-> Hfinal]%value_Ok%TransactionId_new_spec; [|unfold U64_MAX; lia].
  apply parses_lift_step. intros sp [-> Hsp]%value_Ok%TransactionSpan_new_ok; [|done|done].
  eapply parses_step; [apply parses_u32|]. intros count x (Hc & ->). unfold is_u32 in Hc.
  apply parses_guard_step. intros Hcount%Z.ltb_ge.
  eapply parses_step; [apply parses_removed; set_solver|]. intros rem x1 (Hx1 & Hrem).
  apply parses_end. split_and!; try done.
  - destruct Hh as [Hh _], Hr as [Hr _]. unfold u64_bytes, u32_bytes, RUN_PREFIX.
    rewrite !zlen_app, !zlen_le_bytes, zlen_nil, Hh, Hr, Hx1. lia.
  - pose proof (Z.mul_div_le (saturating_sub len RUN_PREFIX) 4 ltac:(lia)). lia.
Qed.

Lemma run_decode_sound_lemma e run :
  is_bytes e -> zlen e <= U64_MAX -> MetadataRun_decode e = Ok run -> run_wf run.
Proof.
  intros Hb Hl E. unfold MetadataRun_decode in E. inv_ok.
  destruct (open_envelope_bytes RUN_MAGIC e VIEW_LIMIT a) as [Hab Hal]; [done|done|done|]. unfold VIEW_LIMIT in Hal.
  destruct a0 as [[[[[parent root] span] removed] encoded] wire]. inv_ok. guards. subst run.
  unfold run_body, dbind in Hok0. inv_ok. destruct a2 as [[[[[parent' root'] span'] removed'] count] w]. cbn [fst snd] in Hok0.
  inv_ok. destruct a2 as [enc w']. cbn [fst snd] in Hok0. injection Hok0 as -> -> -> -> -> ->.
  assert (zlen a <= U64_MAX) as Hau by (unfold U64_MAX; lia).
  destruct (parses_run_fields _ _ _ _ (Decoder_new_ok a Hau Hab) Hok3)
    as (x & Hx & Hw & Hh & Ht & Hr & Hs & Hrem & Hzx & Hcnt).
  assert (RUN_PREFIX + 4 * count <= zlen a) as Hlow.
  { change a with (remaining (Decoder_new a)). rewrite Hx, zlen_app, Hzx. pose proof (zlen_nonneg (remaining w)). lia. }
  destruct (parses_take (zlen a - RUN_PREFIX - count * 4) ltac:(lia) _ _ _ Hw Hok4) as (y & _ & _ & -> & Hzy & Hyb).
  assert (fresh (ReadDecoder_new y true (zlen y))) as Hfr.
  { pose proof (zlen_nonneg y). pose proof (zlen_nonneg x). unfold RUN_PREFIX in *. split_and!; cbn; try done; try (unfold U64_MAX; lia). }
  pose proof (decode_reader_sound _ _ Hfr Hok1) as ((Hf & _) & _).
  split; cbn; try done.
  - split; [done|lia].
  - by eapply decode_reader_validated.
  - intros n Hn. split; [by apply Hrem|].
    by apply (proj1 (removed_invalid_false _ _) Hguard).
Qed.

(** ** The algebra of deltas *)

Lemma remove_pages_spec l v :
  let w := foldl remove_page v l in
  (forall n, vm_pages w !! n = if decide (n ∈ l) then None else vm_pages v !! n) /\
  w = set_maps v (vm_frames v) (vm_pages w).
Proof.
  revert v. induction l as [|k l IH]; intros v; cbn [foldl].
  - split; [intros n; by rewrite decide_False by apply not_elem_of_nil|by destruct v].
  - destruct (IH (remove_page v k)) as [IH1 IH2]. split; [|exact IH2].
    intros n. rewrite IH1. unfold remove_page, set_maps. cbn [vm_pages].
    destruct (decide (n = k)) as [->|Hne].
    + rewrite lookup_delete_eq. rewrite (decide_True (P := k ∈ k :: l)) by left. by destruct (decide _).
    + rewrite lookup_delete_ne by done. destruct (decide (n ∈ l)) as [Hin|Hin].
      * rewrite decide_True; [done|by right].
      * rewrite decide_False; [done|]. by intros [->|?]%elem_of_cons.
Qed.

Lemma live_frames_elem v id :
  id ∈ live_frames v <-> exists n p, vm_pages v !! n = Some p /\ sp_frame p = id.
Proof.
  unfold live_frames. rewrite elem_of_list_to_set, list_elem_of_fmap. split.
  - intros ([n p] & -> & Hin). apply elem_of_map_to_list in Hin. by exists n, p.
  - intros (n & p & Hp & <-). exists (n, p). split; [done|]. by apply elem_of_map_to_list.
Qed.

Lemma patched_pages base patch removed n :
  vm_pages (patched base patch removed) !! n =
  match vm_pages patch !! n with
  | Some p => Some p
  | None => if decide (n <= lb_pages (vm_size patch) /\ n ∉ removed) then vm_pages base !! n else None
  end.
Proof.
  unfold patched. cbn zeta. set (v := remove_above _ _).
  destruct (remove_pages_spec (sorted_numbers removed) v) as [Hw _].
  unfold retain_frames, set_maps. cbn [vm_pages].
  rewrite lookup_union, Hw. destruct (vm_pages patch !! n) as [p|]; [by destruct (if decide _ then _ else _)|].
  rewrite (left_id_L None _). subst v. cbn [remove_above set_maps vm_pages vm_size].
  destruct (decide (n ∈ sorted_numbers removed)) as [Hin|Hin]; rewrite sorted_numbers_elem in Hin.
  - rewrite decide_False; [done|]. naive_solver.
  - destruct (decide (n <= lb_pages (vm_size patch))) as [Hle|Hle].
    + rewrite decide_True by done. apply option_eq. intros p. rewrite map_lookup_filter_Some. cbn. naive_solver.
    + rewrite decide_False by naive_solver. apply map_lookup_filter_None. right. intros p _. cbn. lia.
Qed.

Lemma patched_frames base patch removed id l :
  vm_frames (patched base patch removed) !! id = Some l <->
  (exists n p, vm_pages (patched base patch removed) !! n = Some p /\ sp_frame p = id) /\
  (vm_frames patch ∪ vm_frames base) !! id = Some l.
Proof.
  unfold patched. cbn zeta. set (v := remove_above _ _).
  destruct (remove_pages_spec (sorted_numbers removed) v) as [_ Hw].
  set (u := set_maps _ _ _). unfold retain_frames at 1, set_maps at 1. cbn [vm_frames].
  rewrite map_lookup_filter_Some. cbn [fst]. rewrite live_frames_elem.
  assert (vm_frames u = vm_frames patch ∪ vm_frames base) as ->.
  { subst u. cbn [set_maps vm_frames]. rewrite Hw. done. }
  change (vm_pages (retain_frames u)) with (vm_pages u). tauto.
Qed.

Lemma patched_fields base patch removed :
  let w := patched base patch removed in
  w = mkView (vm_database base) (vm_lineage base) (vm_size patch) (vm_txid patch) (vm_history patch)
        (vm_parent_seal patch) (vm_frames w) (vm_pages w) (vm_preferred patch).
Proof.
  unfold patched. cbn zeta. set (v := remove_above _ _).
  destruct (remove_pages_spec (sorted_numbers removed) v) as [_ Hw]. rewrite Hw. done.
Qed.

Lemma changed_lookup source target n p :
  vm_pages target !! n = Some p ->
  changed_pages source target !! n =
  if decide (vm_pages source !! n = Some p /\
             vm_frames source !! sp_frame p = vm_frames target !! sp_frame p) then None else Some p.
Proof.
  intros Hp. unfold changed_pages. destruct (decide _) as [[H1 H2]|Hn].
  - apply map_lookup_filter_None. right. intros q Hq. cbn. naive_solver.
  - apply map_lookup_filter_Some. split; [done|]. cbn.
    destruct (decide (vm_pages source !! n = Some p)); naive_solver.
Qed.

Lemma frames_of_lookup target pages id l :
  frames_of target pages !! id = Some l <->
  vm_frames target !! id = Some l /\ exists n p, pages !! n = Some p /\ sp_frame p = id.
Proof.
  unfold frames_of. rewrite map_lookup_filter_Some. cbn [fst].
  rewrite elem_of_list_to_set, list_elem_of_fmap. split.
  - intros (Hl & [n p] & -> & Hin). apply elem_of_map_to_list in Hin. split; [done|]. by exists n, p.
  - intros (Hl & n & p & Hp & <-). split; [done|]. exists (n, p). split; [done|]. by apply elem_of_map_to_list.
Qed.

(** Applying the difference of two views to the first gives the second. *)
Lemma patched_between source target :
  view_shape target -> vm_database source = vm_database target -> vm_lineage source = vm_lineage target ->
  patched source (run_patch source target) (removed_pages source target) = target.
Proof.
  intros Hs Hdb Hlin. set (w := patched _ _ _).
  assert (vm_pages w = vm_pages target) as Hpages.
  { apply map_eq. intros n. subst w. rewrite patched_pages. cbn [run_patch vm_pages vm_size].
    destruct (vm_pages target !! n) as [p|] eqn:Ep.
    - rewrite (changed_lookup source target n p Ep). destruct (decide _) as [[H1 H2]|Hn]; [|done].
      destruct (shape_pages target Hs n p Ep) as (_ & _ & _ & _ & _ & _ & Hle).
      rewrite decide_True; [done|]. split; [done|]. unfold removed_pages. rewrite elem_of_filter. naive_solver.
    - replace (changed_pages source target !! n) with (@None StoredPage).
      2: { symmetry. apply map_lookup_filter_None. by left. }
      destruct (decide _) as [[Hle Hnr]|_]; [|done]. apply eq_None_not_Some. intros Hsrc. apply Hnr.
      unfold removed_pages. apply elem_of_filter. split; [done|]. by apply elem_of_dom. }
  assert (vm_frames w = vm_frames target) as Hframes.
  { apply map_eq. intros id. apply option_eq. intros l. subst w. rewrite patched_frames, Hpages. cbn [run_patch vm_frames].
    rewrite lookup_union_Some_raw, frames_of_lookup. split.
    - intros [(n & p & Hp & <-) [[Ht _]|[Hno Hsrc]]]; [done|]. rewrite <- Hsrc.
      destruct (shape_pages target Hs n p Hp) as (l' & _ & Hl' & _). cbn in Hl'.
      pose proof (changed_lookup source target n p Hp) as Hc. destruct (decide _) as [[_ H2]|Hn]; [done|].
      assert (frames_of target (changed_pages source target) !! sp_frame p = Some l') as Hsome.
      { apply frames_of_lookup. split; [done|]. by exists n, p. }
      by rewrite Hsome in Hno.
    - intros Ht. destruct (shape_used target Hs id l Ht) as (n & p & Hp & <-). split; [by exists n, p|].
      pose proof (changed_lookup source target n p Hp) as Hc. destruct (decide _) as [[_ H2]|Hn].
      + destruct (frames_of target (changed_pages source target) !! sp_frame p) as [l'|] eqn:E.
        * left. apply frames_of_lookup in E as [E E']. done.
        * right. split; [done|]. by rewrite H2.
      + left. split; [done|]. by exists n, p. }
  unfold w. rewrite patched_fields. fold w. rewrite Hpages, Hframes, Hdb, Hlin. cbn [run_patch vm_size vm_txid vm_history vm_parent_seal vm_preferred].
  by destruct target.
Qed.

(** A view that may follow another: same database, lineage and page size, and either
    a later transaction or the same content laid out differently. *)
Definition follows (source target : ViewMetadata) : Prop :=
  vm_database source = vm_database target /\ vm_lineage source = vm_lineage target /\
  lb_page_size (vm_size source) = lb_page_size (vm_size target) /\
  (vm_txid source < vm_txid target \/
   vm_txid source = vm_txid target /\ vm_size target = vm_size source /\
   vm_history target = vm_history source /\ content_root target = content_root source).

Lemma between_inv source target run :
  MetadataRun_between source target = Ok run ->
  mr_parent run = mkParentRef (logical_hash (vd_view source)) (vm_txid (vd_view source)) /\
  mr_root run = content_root target /\ mr_span run = mkSpan (span_begin (vd_span source)) (vm_txid target) /\
  validate (run_patch (vd_view source) target) = Ok (mr_patch run) /\
  vd_view (mr_patch run) = run_patch (vd_view source) target /\
  mr_removed run = removed_pages (vd_view source) target.
Proof.
  intros E. unfold MetadataRun_between in E. inv_all. subst run. unfold TransactionSpan_new in Hok. inv_ok. subst a. cbn.
  split_and!; try done. unfold validate in Hok0. inv_ok. by subst a0.
Qed.

Lemma delta_apply_inv source target run pid m :
  view_shape target -> MetadataRun_between source target = Ok run -> MetadataRun_apply run pid source = Ok m -> vd_view m = target.
Proof.
  intros Hs Hb E. apply between_inv in Hb as (_ & _ & _ & _ & Hp & Hr).
  unfold MetadataRun_apply in E. inv_all. guards. subst m. cbn [vd_view]. rewrite Hp, Hr in *. by apply patched_between.
Qed.

Lemma delta_apply_run source target run pid mt :
  view_shape target -> validate target = Ok mt -> MetadataRun_between source target = Ok run ->
  follows (vd_view source) target -> zlen (vd_ancestors source) < MAX_RUN_DEPTH -> pid ∉ vd_ancestors source ->
  vd_decoded_bytes source + run_decoded_bytes run <= VIEW_LIMIT ->
  MetadataRun_apply run pid source = Ok (mkValidated target (mr_span run) (pid :: vd_ancestors source)
                               (vd_decoded_bytes source + run_decoded_bytes run) (Previous (mr_parent run))).
Proof.
  intros Hs Hm Hb (Hdb & Hlin & Hps & Htx) Hdepth Hpid Hlim.
  apply between_inv in Hb as (Hpar & Hroot & Hspan & _ & Hp & Hr). unfold MetadataRun_apply. rewrite Hp, Hr, Hpar, Hroot, Hspan.
  cbn [pr_hash pr_txid run_patch vm_database vm_lineage vm_size vm_txid vm_history span_end].
  rewrite Hdb, Hlin, Hps, !bytes_eqb_refl, !Z.eqb_refl. cbn [negb orb].
  assert ((vm_txid target <? vm_txid (vd_view source))
      || (vm_txid target =? vm_txid (vd_view source)) &&
         (negb (bool_decide (vm_size target = vm_size (vd_view source)))
          || negb (bytes_eqb (vm_history target) (vm_history (vd_view source)))
          || negb (bytes_eqb (content_root target) (content_root (vd_view source)))) = false) as ->.
  { destruct Htx as [Hlt|(Heq & -> & -> & ->)].
    - apply orb_false_intro; [lia|]. by rewrite (proj2 (Z.eqb_neq _ _)) by lia.
    - rewrite Heq, Z.ltb_irrefl, !bytes_eqb_refl, bool_decide_true by done. by rewrite andb_false_r. }
  rewrite (proj2 (checked_add_Some _ _ (vd_decoded_bytes source + run_decoded_bytes run)))
    by (split; [done|unfold VIEW_LIMIT, U64_MAX in *; lia]).
  cbn [range ok_or rbind]. rewrite (proj2 (Z.leb_gt _ _)) by done. rewrite bool_decide_false by done.
  rewrite (proj2 (Z.ltb_ge _ _)) by done. cbn [orb].
  rewrite patched_between by done.
  assert (validate_frame_ranges target = Ok tt) as ->.
  { unfold validate in Hm. inv_ok. match goal with H : validate_frame_ranges _ = Ok ?u |- _ => by destruct u end. }
  cbn [rbind]. by rewrite bytes_eqb_refl.
Qed.

(** ** Runs preserve well-formedness *)

(** Frames of the same identity carry the same metadata: the identity is the digest of
    the metadata. *)
Definition frames_agree (a b : ViewMetadata) : Prop :=
  forall id la lb, vm_frames a !! id = Some la -> vm_frames b !! id = Some lb -> fl_metadata la = fl_metadata lb.

Lemma apply_shape base run pid m :
  view_wf (vd_view base) -> view_wf (vd_view (mr_patch run)) ->
  frames_agree (vd_view (mr_patch run)) (vd_view base) -> MetadataRun_apply run pid base = Ok m ->
  view_shape (vd_view m).
Proof.
  intros [Hbf Hb] [Hpf Hp] Hag E.
  unfold MetadataRun_apply in E. inv_all. guards. subst m. cbn [vd_view].
  set (b := vd_view base) in *. set (p := vd_view (mr_patch run)) in *. set (w := patched b p (mr_removed run)) in *.
  assert (forall id l, vm_frames w !! id = Some l -> frame_fits w (id, l) /\ 0 <= pk_length (fl_payload l)) as Hfit.
  { intros id l Hl. apply patched_frames in Hl as [_ Hl]. unfold w. rewrite patched_fields. unfold frame_fits. cbn [vm_size].
    apply lookup_union_Some_raw in Hl as [Hl|[_ Hl]].
    - pose proof (shape_frames p Hp id l Hl) as (F1 & F2 & F3). cbn in *. split; [done|]. rewrite F3.
      by eapply (fields_payload_nonneg p).
    - pose proof (shape_frames b Hb id l Hl) as (F1 & F2 & F3). cbn in *. split; [split_and!; (done || lia)|].
      rewrite F3. by eapply (fields_payload_nonneg b). }
  split.
  - unfold w. rewrite patched_fields. cbn. apply (shape_preferred p Hp).
  - intros n q Hq. pose proof Hq as Hlive. unfold w in Hq. rewrite patched_pages in Hq.
    assert (forall l, (vm_frames p ∪ vm_frames b) !! sp_frame q = Some l -> vm_frames w !! sp_frame q = Some l) as Hw.
    { intros l Hl. apply patched_frames. split; [|done]. by exists n, q. }
    unfold page_fits. cbn [fst snd].
    replace (vm_txid w) with (vm_txid p) by (unfold w; by rewrite patched_fields).
    replace (vm_size w) with (vm_size p) by (unfold w; by rewrite patched_fields).
    destruct (vm_pages p !! n) as [q'|] eqn:Ep.
    + injection Hq as ->. destruct (shape_pages p Hp n q Ep) as (l & v & F1 & F2 & F3 & F4 & F5). exists l, v.
      cbn in *. split; [|done]. apply Hw. by apply lookup_union_Some_l.
    + destruct (decide _) as [[Hle _]|_]; [|done].
      destruct (shape_pages b Hb n q Hq) as (l & v & F1 & F2 & F3 & F4 & F5). cbn in *.
      destruct (vm_frames p !! sp_frame q) as [l'|] eqn:El.
      * exists l', v. rewrite (Hag _ _ _ El F1). split_and!; try done; [|lia]. apply Hw. by apply lookup_union_Some_l.
      * exists l, v. split_and!; try done; [|lia]. apply Hw. by rewrite lookup_union_r.
  - intros id l Hl. by apply Hfit.
  - intros id l Hl. by apply patched_frames in Hl as [? _].
  - apply validate_ranges_sound; [intros id l Hl; by eapply Hfit|]. by destruct a0.
Qed.

Lemma apply_fields base run pid m :
  view_fields (vd_view base) -> view_fields (vd_view (mr_patch run)) ->
  MetadataRun_apply run pid base = Ok m -> view_fields (vd_view m).
Proof.
  intros Hb Hp E.
  unfold MetadataRun_apply in E. inv_ok. subst m. cbn [vd_view].
  set (b := vd_view base) in *. set (p := vd_view (mr_patch run)) in *. set (w := patched b p (mr_removed run)) in *.
  assert (forall id l, vm_frames w !! id = Some l -> location_ok (id, l)) as Hf.
  { intros id l [_ Hl]%patched_frames. apply lookup_union_Some_raw in Hl as [Hl|[_ Hl]];
      [by apply (fields_frames p Hp)|by apply (fields_frames b Hb)]. }
  assert (forall n q, vm_pages w !! n = Some q -> entry_ok (n, q)) as Hq.
  { intros n q Hn. unfold w in Hn. rewrite patched_pages in Hn. destruct (vm_pages p !! n) eqn:Ep.
    - injection Hn as ->. by apply (fields_pages p Hp).
    - destruct (decide _); [|done]. by apply (fields_pages b Hb). }
  unfold w. rewrite patched_fields. fold w. destruct Hb, Hp. by split.
Qed.

Lemma apply_wf base run pid m :
  view_wf (vd_view base) -> view_wf (vd_view (mr_patch run)) ->
  frames_agree (vd_view (mr_patch run)) (vd_view base) -> MetadataRun_apply run pid base = Ok m ->
  view_wf (vd_view m).
Proof.
  intros Hb Hp Ha E. split; [|exact (apply_shape base run pid m Hb Hp Ha E)].
  exact (apply_fields base run pid m (proj1 Hb) (proj1 Hp) E).
Qed.

(** The result of a run is the view its patch and root identify. *)
Lemma apply_inv base run pid m :
  MetadataRun_apply run pid base = Ok m ->
  logical_hash (vd_view m) = logical_hash_for (vd_view (mr_patch run)) (mr_root run) /\
  content_root (vd_view m) = mr_root run /\
  vd_view m = patched (vd_view base) (vd_view (mr_patch run)) (mr_removed run) /\
  vm_database (vd_view base) = vm_database (vd_view (mr_patch run)) /\
  vm_lineage (vd_view base) = vm_lineage (vd_view (mr_patch run)) /\
  vd_span m = mr_span run /\ vd_ancestors m = pid :: vd_ancestors base /\
  zlen (vd_ancestors m) <= MAX_RUN_DEPTH /\ vd_decoded_bytes m <= VIEW_LIMIT /\
  vd_parent m = Previous (mr_parent run).
Proof.
  intros E. unfold MetadataRun_apply in E. inv_ok. guards. subst m.
  cbn [vd_view vd_span vd_ancestors vd_decoded_bytes vd_parent]. rewrite zlen_cons.
  split_and!; try (done || lia). unfold logical_hash, logical_hash_for.
  match goal with H : content_root _ = mr_root run |- _ => rewrite H end.
  rewrite patched_fields. cbn [vm_database vm_lineage vm_size vm_txid vm_history vm_parent_seal]. congruence.
Qed.

(** ** Manifest records *)

Definition record_view (r : ManifestRecord) : ViewMetadata :=
  match r with CheckpointRecord m => vd_view m | RunRecord run => vd_view (mr_patch run) end.

Definition encode_manifest (r : ManifestRecord) : result StoreError bytes :=
  match r with
  | CheckpointRecord m => ViewMetadata_encode (vd_view m)
  | RunRecord run => MetadataRun_encode run
  end.

Definition record_ok (r : ManifestRecord) : Prop :=
  match r with
  | CheckpointRecord m => view_fields (vd_view m) /\ validate (vd_view m) = Ok m
  | RunRecord run => run_wf run
  end.

Lemma record_ok_wf r : record_ok r -> view_wf (record_view r).
Proof.
  destruct r as [m|run]; cbn.
  - intros [Hf Hv]. split; [done|by eapply validate_shape].
  - intros Hr. split; [by apply run_fields_ok|]. by eapply validate_shape; [apply run_fields_ok|apply run_validated].
Qed.

Lemma envelope_magic magic raw e :
  zlen magic = 8 -> envelope magic raw = Ok e -> slice e 0 8 = magic /\ 8 <= zlen e.
Proof.
  intros Hm E. unfold envelope in E. inv_ok. subst e. split.
  - by apply (slice_mid []).
  - rewrite zlen_app. match goal with |- context [zlen (u64_bytes ?x ++ ?y)] => pose proof (zlen_nonneg (u64_bytes x ++ y)) end. lia.
Qed.

Lemma decode_encode_manifest r e :
  record_ok r -> encode_manifest r = Ok e -> zlen e <= U64_MAX -> ManifestRecord_decode e = Ok r.
Proof.
  intros Hr E Hl. unfold ManifestRecord_decode. destruct r as [m|run]; cbn [encode_manifest record_ok] in *.
  - pose proof E as E'. unfold ViewMetadata_encode in E'. inv_ok.
    destruct (envelope_magic VIEW_MAGIC _ e eq_refl E') as [-> H8].
    rewrite bytes_eqb_refl, (proj2 (Z.leb_le _ _)) by done. cbn [andb].
    by rewrite (checkpoint_roundtrip_lemma (vd_view m) m e) by naive_solver.
  - pose proof E as E'. unfold MetadataRun_encode in E'. inv_ok.
    destruct (envelope_magic RUN_MAGIC _ e eq_refl E') as [-> H8].
    rewrite (proj2 (Z.leb_le _ _)) by done. change (bytes_eqb RUN_MAGIC VIEW_MAGIC) with false.
    rewrite bytes_eqb_refl. cbn [andb]. by rewrite (run_roundtrip_lemma run e).
Qed.

Lemma decode_manifest_ok b r :
  is_bytes b -> zlen b <= U64_MAX -> ManifestRecord_decode b = Ok r -> record_ok r.
Proof.
  intros Hb Hl E. unfold ManifestRecord_decode in E.
  destruct (bytes_eqb (slice b 0 8) VIEW_MAGIC && _); [|destruct (bytes_eqb (slice b 0 8) RUN_MAGIC && _); [|done]]; inv_ok; subst r.
  - destruct (checkpoint_decode_sound_lemma b a Hb Hl Hok) as [[Hf _] _]. split; [done|].
    unfold ViewMetadata_decode in Hok. inv_ok. by eapply decode_reader_validated.
  - by eapply run_decode_sound_lemma.
Qed.

(** ** Claims *)

(** A sealed view survives its record: the checkpoint record of a valid view, and
    the delta record of a valid run, decode through the streaming decoder to exactly
    the view or run that was encoded; and whatever record decodes, of any bytes, is
    a view in which every page names a slot of a present frame that holds that page,
    every frame is used, identified by its metadata and stored apart from the others. *)
Theorem manifest_record_roundtrip r e :
  is_bytes e -> zlen e <= U64_MAX ->
  (record_ok r -> encode_manifest r = Ok e -> ManifestRecord_decode e = Ok r) /\
  (ManifestRecord_decode e = Ok r -> record_ok r /\ view_wf (record_view r)).
Proof.
  intros Hb Hl. split; [intros; by apply decode_encode_manifest|].
  intros E. pose proof (decode_manifest_ok e r Hb Hl E) as Hr. split; [done|by apply record_ok_wf].
Qed.

(** C26. Deltas are exact: applying the difference between two views to the first one
    never yields anything but the second one, and it succeeds whenever the second may
    follow the first and the chain is within its depth and size limits. *)
Theorem delta_reconstructs_view source target run parent_id :
  view_shape target -> MetadataRun_between source target = Ok run ->
  (forall m, MetadataRun_apply run parent_id source = Ok m -> vd_view m = target) /\
  (is_ok (validate target) = true -> follows (vd_view source) target ->
   zlen (vd_ancestors source) < MAX_RUN_DEPTH -> parent_id ∉ vd_ancestors source ->
   vd_decoded_bytes source + run_decoded_bytes run <= VIEW_LIMIT ->
   MetadataRun_apply run parent_id source =
   Ok (mkValidated target (mr_span run) (parent_id :: vd_ancestors source)
         (vd_decoded_bytes source + run_decoded_bytes run) (Previous (mr_parent run)))).
Proof.
  intros Hs Hb. split; [intros m Hm; by eapply delta_apply_inv|].
  intros Hv. destruct (validate target) as [mt|] eqn:Ev; [|done]. intros. by eapply delta_apply_run.
Qed.

(** Applying a run keeps a view well formed: every page of the result, inherited or
    patched, still names a slot of a present frame that holds that page at a version
    no newer than the view and within its size, no unused or overlapping frame
    remains, and the content is the one the run was sealed with. *)
Theorem run_apply_preserves_view base run parent_id m :
  view_wf (vd_view base) -> view_wf (vd_view (mr_patch run)) ->
  frames_agree (vd_view (mr_patch run)) (vd_view base) ->
  MetadataRun_apply run parent_id base = Ok m ->
  view_wf (vd_view m) /\ content_root (vd_view m) = mr_root run /\
  zlen (vd_ancestors m) <= MAX_RUN_DEPTH /\ vd_decoded_bytes m <= VIEW_LIMIT.
Proof.
  intros Hb Hp Ha E. split; [exact (apply_wf base run parent_id m Hb Hp Ha E)|].
  by apply apply_inv in E as (_ & Hc & _ & _ & _ & _ & _ & Hd & Hl & _).
Qed.
End Records.
End Codec.
