(* ===== verification/ViewDemo.v ===== *)
(** Concrete sealed views: a checkpoint of two pages in one frame, and its successor,
    in which one page moved to a new frame and the other was removed; the witnesses of
    the view theorems evaluate the records and the delta between them. *)

From S2P Require Import Prelude Domain Format Wire Segment Frame Pack Backend CatalogIndex Placement View ViewProofs.
From stdpp Require Import base strings gmap list sorting.
From Stdlib Require Import ZArith Lia.
Open Scope Z_scope.

#[local] Existing Instances demo_hashes demo_zstd demo_hashes_ok demo_zstd_ok.

Definition demo_id (k : Z) : Digest := repeat k 32.

Definition demo_frame2 : EncodedFrame := Eval vm_compute in
  match build demo_encoder 512 [(PageVersion_verified 4 10 (demo_page 3), demo_page 3)] with
  | Ok f => f
  | Err _ => demo_frame
  end.

Definition demo_frame_at (pack : Digest) (offset : Z) (f : EncodedFrame) : FrameLocation :=
  mkLocation pack (mkPackRange offset (fm_payload_bytes (ef_metadata f))) (ef_metadata f).

Definition demo_location1 : FrameLocation := demo_frame_at (demo_id 5) 200 demo_frame.
Definition demo_location2 : FrameLocation := demo_frame_at (demo_id 6) 200 demo_frame2.

Definition demo_view1 : ViewMetadata :=
  mkView (demo_id 1) (demo_id 2) (mkLogical 2048 512) 9 (demo_id 3) None
    {[ fm_id (ef_metadata demo_frame) := demo_location1 ]}
    {[ 4 := mkStored (fm_id (ef_metadata demo_frame)) 0; 2 := mkStored (fm_id (ef_metadata demo_frame)) 1 ]}
    [].

Definition demo_view2 : ViewMetadata :=
  mkView (demo_id 1) (demo_id 2) (mkLogical 2048 512) 10 (demo_id 4) (Some (demo_id 7))
    {[ fm_id (ef_metadata demo_frame2) := demo_location2 ]}
    {[ 4 := mkStored (fm_id (ef_metadata demo_frame2)) 0 ]} [].

Definition unwrap {A} (d : A) (c : result StoreError A) : A :=
  match c with Ok a => a | Err _ => d end.

Definition demo_invalid : ValidatedMetadata := mkValidated demo_view1 (mkSpan 0 0) [] 0 Checkpoint.
Definition demo_valid1 : ValidatedMetadata := Eval vm_compute in unwrap demo_invalid (validate demo_view1).
Definition demo_valid2 : ValidatedMetadata := Eval vm_compute in unwrap demo_invalid (validate demo_view2).

Lemma demo_validate1 : validate demo_view1 = Ok demo_valid1.
Proof. vm_compute. reflexivity. Qed.
Lemma demo_validate2 : validate demo_view2 = Ok demo_valid2.
Proof. vm_compute. reflexivity. Qed.

(** A view whose raw record decodes is well formed. *)
Lemma decoded_view_wf v raw m :
  encode_raw v = Ok raw -> bytes_check raw = true -> zlen raw <= U64_MAX -> decode_raw raw = Ok m -> vd_view m = v ->
  view_wf v.
Proof.
  intros _ Hb Hl Hd <-. apply bytes_check_ok in Hb. pose proof (zlen_nonneg raw).
  by apply (decode_reader_sound (ReadDecoder_new raw true (zlen raw)) m).
Qed.

Definition demo_raw1 : bytes := Eval vm_compute in unwrap [] (encode_raw demo_view1).
Definition demo_raw2 : bytes := Eval vm_compute in unwrap [] (encode_raw demo_view2).

Lemma demo_wf1 : view_wf demo_view1.
Proof.
  apply (decoded_view_wf demo_view1 demo_raw1 demo_valid1); try (vm_compute; reflexivity). vm_compute. discriminate.
Qed.
Lemma demo_wf2 : view_wf demo_view2.
Proof.
  apply (decoded_view_wf demo_view2 demo_raw2 demo_valid2); try (vm_compute; reflexivity). vm_compute. discriminate.
Qed.

Definition demo_run : MetadataRun := Eval vm_compute in
  match MetadataRun_between demo_valid1 demo_view2 with
  | Ok r => r
  | Err _ => mkRun (mkParentRef [] 0) [] (mkSpan 0 0) demo_valid1 ∅
  end.

Lemma demo_between : MetadataRun_between demo_valid1 demo_view2 = Ok demo_run.
Proof. vm_compute. reflexivity. Qed.

Definition demo_run_record : bytes := Eval vm_compute in unwrap [] (MetadataRun_encode demo_run).

Lemma demo_run_wf : run_wf demo_run.
Proof.
  apply (run_decode_sound_lemma demo_run_record demo_run).
  - apply bytes_check_ok. vm_compute. reflexivity.
  - vm_compute. discriminate.
  - vm_compute. reflexivity.
Qed.

(** The record of the delta, which holds one page and removes another. *)
Lemma manifest_record_roundtrip_witness :
  encode_manifest (RunRecord demo_run) = Ok demo_run_record /\
  ManifestRecord_decode demo_run_record = Ok (RunRecord demo_run) /\ mr_removed demo_run = {[ 2 ]}.
Proof.
  assert (encode_manifest (RunRecord demo_run) = Ok demo_run_record) as E by (vm_compute; reflexivity).
  destruct (manifest_record_roundtrip (RunRecord demo_run) demo_run_record) as [H _].
  - apply bytes_check_ok. vm_compute. reflexivity.
  - vm_compute. discriminate.
  - split; [exact E|]. split; [|vm_compute; reflexivity]. apply H; [exact demo_run_wf|exact E].
Defined.

Lemma delta_reconstructs_view_witness :
  MetadataRun_apply demo_run (demo_id 8) demo_valid1 =
  Ok (mkValidated demo_view2 (mr_span demo_run) [demo_id 8] (vd_decoded_bytes demo_valid1 + run_decoded_bytes demo_run)
        (Previous (mr_parent demo_run))).
Proof.
  destruct (delta_reconstructs_view demo_valid1 demo_view2 demo_run (demo_id 8) (proj2 demo_wf2) demo_between) as [_ H].
  apply H.
  - vm_compute. reflexivity.
  - unfold follows. split_and!; try (vm_compute; reflexivity). left. vm_compute. reflexivity.
  - vm_compute. reflexivity.
  - apply not_elem_of_nil.
  - vm_compute. discriminate.
Defined.

Lemma run_apply_preserves_view_witness :
  exists m, MetadataRun_apply demo_run (demo_id 8) demo_valid1 = Ok m /\ view_wf (vd_view m) /\
            content_root (vd_view m) = mr_root demo_run.
Proof.
  set (m := unwrap demo_invalid (MetadataRun_apply demo_run (demo_id 8) demo_valid1)).
  assert (MetadataRun_apply demo_run (demo_id 8) demo_valid1 = Ok m) as E by (vm_compute; reflexivity).
  exists m. split; [exact E|].
  destruct (run_apply_preserves_view demo_valid1 demo_run (demo_id 8) m demo_wf1
              (record_ok_wf (RunRecord demo_run) demo_run_wf)) as (Hw & Hc & _).
  - intros id la lb Ha Hb.
    assert (vm_frames (vd_view (mr_patch demo_run)) ##ₘ vm_frames demo_view1) as Hd.
    { apply map_disjoint_dom. apply (bool_decide_unpack _). vm_compute. exact I. }
    exfalso. exact (proj1 (map_disjoint_spec _ _) Hd _ _ _ Ha Hb).
  - exact E.
  - split; [exact Hw|exact Hc].
Defined.
