(* ===== verification/Manifest.v ===== *)
(** Manifests in the catalog (src/src/storage/view.rs, src/src/storage/objects.rs): how a sealed
    view is staged, installed, and loaded back through its chain of parents.

    A [CatalogGuard] is the exclusive catalog authority: the backend and the catalog
    state it publishes. Staging files are the bytes written to them. *)

From S2P Require Import Prelude Domain Format Wire Segment Frame Pack Backend CatalogIndex Catalog Placement View.
From stdpp Require Import base strings gmap list sorting.
From Stdlib Require Import ZArith Lia.
Open Scope Z_scope.

Record CatalogGuard (B : Type) : Type := mkGuard { cg_backend : B; cg_state : State }.
Arguments mkGuard {B}. Arguments cg_backend {B}. Arguments cg_state {B}.

(** ** Staged objects *)

Inductive ObjectKind : Set := KPack | KDictionary | KManifest.

#[export] Instance ObjectKind_eq_dec : EqDecision ObjectKind.
Proof. solve_decision. Defined.

(** [file] is the staging file, [length] its append position, [hasher] what was hashed. *)
Record Building : Set := mkBuilding {
  bd_kind : ObjectKind;
  bd_file : bytes;
  bd_length : Z;
  bd_hasher : bytes;
}.

Definition Building_new (kind : ObjectKind) : Building := mkBuilding kind [] 0 [].

Definition OBJECT_LIMIT : Z := 512 * 1024 * 1024.

(** [write_all_at] to the staging file, which extends it when it has to. *)
Definition staged (file : bytes) (offset : Z) (b : bytes) : bytes :=
  put (file ++ zeros (offset + zlen b - zlen file)) offset b.

Definition Building_append (s : Building) (b : bytes) : result StoreError Building :=
  let* stop := range (checked_add (bd_length s) (zlen b)) in
  fail_if negb (bool_decide (bd_kind s = KPack)) && (OBJECT_LIMIT <? stop) with Range ;;
  Ok (mkBuilding (bd_kind s) (staged (bd_file s) (bd_length s) b) stop
        (if bool_decide (bd_kind s = KPack) then bd_hasher s else bd_hasher s ++ b)).

Definition Building_segment_header (s : Building) (h : Header) : result StoreError Building :=
  fail_if bd_length s <? HEADER_SIZE with Range ;;
  Ok (mkBuilding (bd_kind s) (staged (bd_file s) 0 (Header_encode h)) (bd_length s) (bd_hasher s)).

Record Finalized : Set := mkFinalized {
  fz_kind : ObjectKind;
  fz_file : bytes;
  fz_id : Digest;
  fz_length : Z;
}.

Section Objects.
Context `{Hashes, ZstdLib, StorageBackend B}.

(** The identity of a staged object: the digest of a dictionary, the frame identity of
    a pack, the container identity of a manifest. *)
Definition Building_finalize (s : Building) : result StoreError Finalized :=
  let id := blake3 (bd_hasher s) in
  let* id := match bd_kind s with
             | KPack =>
                 match copy (read_exact_at (bd_file s)) (bd_length s) false with
                 | Some r => let* p := r in Ok (fst p)
                 | None => Err Range
                 end
             | KManifest => let* c := read (bd_file s) in Ok (ct_id c)
             | KDictionary => Ok id
             end in
  Ok (mkFinalized (bd_kind s) (bd_file s) id (bd_length s)).

Definition placement (s : State) (pack : Digest) : result StoreError Placements :=
  let* b := ok_or (ix_entries (st_placements s) !! pack) (Corrupt 0) in
  Placements_decode pack b.

Definition install_pack_extent (s : State) (pack : Digest) (extent : BlobExtent)
    : result StoreError State :=
  let* p := match ix_entries (st_placements s) !! pack with
            | Some b => Placements_decode pack b
            | None => Ok (mkPlacements pack (be_length extent) (zeros 32) [])
            end in
  let* p := Placements_add p extent in
  Ok (set_placements s (Index_insert (st_placements s) pack (Placements_encode p))).

(** A pack is copied into a blob of its own. *)
Definition pack_blob (f : Finalized) : result StoreError (Digest * bytes * BlobExtent) :=
  let* w := BlobWriter_write BlobWriter_new (fz_file f) in
  let* w := complete_pack w (fz_id f) 32 in
  let* p := BlobWriter_finish w in
  let '(blob, object, extents) := p in
  let* extent := ok_or ((list_to_map extents : gmap (list Z) BlobExtent) !! fz_id f) (Corrupt 0) in
  Ok (blob, object, extent).

Definition publish_catalog (g : CatalogGuard B) : result StoreError unit * CatalogGuard B :=
  let '(r, s, b) := publish (cg_backend g) (cg_state g) in (r, mkGuard b s).

Definition install_pack (g : CatalogGuard B) (f : Finalized)
    : result StoreError unit * CatalogGuard B :=
  match pack_blob f with
  | Err e => (Err e, g)
  | Ok (blob, object, extent) =>
      match backend_put (cg_backend g) (Blob blob) object with
      | (Err e, b) => (Err (Domain.Backend e), mkGuard b (cg_state g))
      | (Ok _, b) =>
          match install_pack_extent (cg_state g) (fz_id f) extent with
          | Err e => (Err e, mkGuard b (cg_state g))
          | Ok s => (Ok tt, mkGuard b s)
          end
      end
  end.

Definition install_manifest (g : CatalogGuard B) (f : Finalized)
    : result StoreError unit * CatalogGuard B :=
  match backend_put (cg_backend g) (Manifest (fz_id f)) (slice (fz_file f) 0 (fz_length f)) with
  | (Err e, b) => (Err (Domain.Backend e), mkGuard b (cg_state g))
  | (Ok _, b) =>
      match read (fz_file f) with
      | Err e => (Err e, mkGuard b (cg_state g))
      | Ok container =>
          publish_catalog
            (mkGuard b (set_endpoints (cg_state g)
                          (Index_insert (st_endpoints (cg_state g)) (fz_id f)
                             (Header_encode (ct_header container)))))
      end
  end.

Definition Finalized_install (g : CatalogGuard B) (f : Finalized)
    : result StoreError unit * CatalogGuard B :=
  match fz_kind f with
  | KPack => install_pack g f
  | KManifest => install_manifest g f
  | KDictionary =>
      let '(r, b) := backend_put (cg_backend g) (Dictionary (fz_id f)) (slice (fz_file f) 0 (fz_length f)) in
      (backend r, mkGuard b (cg_state g))
  end.

(** ** Loading a view *)

Definition read_manifest (b : B) (id : Digest) (limit : Z) : result StoreError Container :=
  let* v := read_all b (Manifest id) limit in
  let* container := read_bytes v in
  fail_if negb (bytes_eqb (ct_id container) id) with Corrupt 0 ;;
  Ok container.

Definition record_bytes (r : ManifestRecord) : Z :=
  match r with
  | CheckpointRecord view => vd_decoded_bytes view
  | RunRecord run => run_decoded_bytes run
  end.

(** One round of the loop: the record of [next] and the bytes decoded so far. *)
Definition load_record (b : B) (next : Digest) (seen : list Digest) (decoded_bytes : Z)
    : result StoreError (ManifestRecord * Z) :=
  fail_if bool_decide (next ∈ seen) with Corrupt 0 ;;
  let* container := read_manifest b next VIEW_LIMIT in
  let* remaining := range (checked_sub VIEW_LIMIT decoded_bytes) in
  let* record := from_segment container remaining in
  let* total := range (checked_add decoded_bytes (record_bytes record)) in
  fail_if VIEW_LIMIT <? total with Range ;;
  Ok (record, total).

(** The runs from [next] to a checkpoint, the last one read first; [None] is out of
    fuel. *)
Fixpoint load_loop (fuel : nat) (b : B) (rows : list (bytes * bytes)) (next : Digest)
    (seen : list Digest) (runs : list (Digest * MetadataRun)) (decoded_bytes : Z)
    : option (result StoreError (Digest * ValidatedMetadata * list (Digest * MetadataRun))) :=
  match fuel with
  | O => None
  | S fuel' =>
      match load_record b next seen decoded_bytes with
      | Err e => Some (Err e)
      | Ok (CheckpointRecord metadata, _) => Some (Ok (next, metadata, runs))
      | Ok (RunRecord run, total) =>
          if MAX_RUN_DEPTH <=? zlen runs then Some (Err Range)
          else
            match resolve_parent rows (mr_parent run) (next :: seen) with
            | Err e => Some (Err e)
            | Ok parent => load_loop fuel' b rows parent (next :: seen) ((next, run) :: runs) total
            end
      end
  end.

Definition apply_run (acc : Digest * ValidatedMetadata) (r : Digest * MetadataRun)
    : result StoreError (Digest * ValidatedMetadata) :=
  let* resolved := MetadataRun_apply (snd r) (fst acc) (snd acc) in
  Ok (fst r, resolved).

(** At most [MAX_RUN_DEPTH] runs are read, then a checkpoint or one record too many. *)
Definition LOAD_FUEL : nat := 66.

Definition load_metadata (b : B) (rows : list (bytes * bytes)) (id : Digest)
    : result StoreError ValidatedMetadata :=
  match load_loop LOAD_FUEL b rows id [] [] 0 with
  | None => Err Range
  | Some r =>
      let* p := r in
      let '(resolved_id, resolved, runs) := p in
      let* last := mfold apply_run (resolved_id, resolved) runs in
      Ok (snd last)
  end.

Definition endpoint_rows (s : State) : list (bytes * bytes) := sorted_list (ix_entries (st_endpoints s)).

(** Every frame lies inside the pack its placement records. *)
Definition pack_size (s : State) (pack : Digest) : result StoreError (Digest * Z) :=
  let* p := placement s pack in Ok (pack, pl_length p).

Definition validate_ranges (s : State) (v : ViewMetadata) : result StoreError unit :=
  let* sizes := mmap (pack_size s) (isort digest_leb (elements (packs v))) in
  let* _ := mmap (fun e => let* size := ok_or ((list_to_map sizes : gmap (list Z) Z) !! fl_pack e.2) (Corrupt 0) in
                           value (PackRange_within (fl_payload e.2) size)) (sorted_list (vm_frames v)) in
  Ok tt.

(** ** Building a manifest *)

(** [source] is the view whose dependencies may be reused; [parent] the one a delta
    is encoded against, dropped by [checkpoint]. *)
Record ManifestBuilder : Type := mkBuilder {
  mb_metadata : ViewMetadata;
  mb_packs : gset (list Z);
  mb_dictionaries : gset (list Z);
  mb_parent : option ValidatedMetadata;
  mb_source_span : TransactionSpan;
  mb_represented_begin : Z;
}.

Definition ManifestBuilder_new (same_catalog : bool) (metadata : ViewMetadata)
    (source : option ValidatedMetadata) : result StoreError ManifestBuilder :=
  let* own := value (TransactionSpan_new (vm_txid metadata) (vm_txid metadata)) in
  let span := match source with Some s => vd_span s | None => own end in
  let* first := match source with
                | Some s => if vm_txid (vd_view s) <? vm_txid metadata
                            then value (TransactionId_next (vm_txid (vd_view s)))
                            else Ok (vm_txid metadata)
                | None => Ok (vm_txid metadata)
                end in
  match source with
  | Some s =>
      fail_if negb same_catalog with IdentityMismatch ;;
      Ok (mkBuilder metadata (packs (vd_view s)) (dictionaries (vd_view s)) source span first)
  | None => Ok (mkBuilder metadata ∅ ∅ None span first)
  end.

Definition ManifestBuilder_checkpoint (m : ManifestBuilder) : ManifestBuilder :=
  mkBuilder (mb_metadata m) (mb_packs m) (mb_dictionaries m) None (mb_source_span m)
    (mb_represented_begin m).

Definition ManifestBuilder_pack (m : ManifestBuilder) (belongs : bool) (receipt : Digest)
    : result StoreError ManifestBuilder :=
  fail_if negb belongs with IdentityMismatch ;;
  Ok (mkBuilder (mb_metadata m) ({[receipt]} ∪ mb_packs m) (mb_dictionaries m) (mb_parent m)
        (mb_source_span m) (mb_represented_begin m)).

Definition ManifestBuilder_dictionary (m : ManifestBuilder) (belongs : bool) (receipt : Digest)
    : result StoreError ManifestBuilder :=
  fail_if negb belongs with IdentityMismatch ;;
  Ok (mkBuilder (mb_metadata m) (mb_packs m) ({[receipt]} ∪ mb_dictionaries m) (mb_parent m)
        (mb_source_span m) (mb_represented_begin m)).

(** A delta is chosen only when it is smaller than the view and fits the limits. *)
Definition choose_run (source : ValidatedMetadata) (v : ViewMetadata)
    : result StoreError (option MetadataRun) :=
  let* run := MetadataRun_between source v in
  if (zlen (vd_ancestors source) <? MAX_RUN_DEPTH)
     && (Z.of_nat (size (vm_pages (vd_view (mr_patch run)))) + Z.of_nat (size (mr_removed run))
         <? Z.of_nat (size (vm_pages v)))
  then
    let* doubled := range (checked_mul (run_decoded_bytes run) 2) in
    Ok (match checked_add (vd_decoded_bytes source) doubled with
        | Some n => match checked_add n 1024 with
                    | Some n => if n <=? VIEW_LIMIT then Some run else None
                    | None => None
                    end
        | None => None
        end)
  else Ok None.

(** The footer and header of the manifest. *)
Definition manifest_parts (m : ManifestBuilder) : result StoreError (Header * bytes) :=
  let v := mb_metadata m in
  let root := content_root v in
  let logical := logical_hash_for v root in
  let* run := match mb_parent m with Some source => choose_run source v | None => Ok None end in
  let* span := value (TransactionSpan_new (span_begin (mb_source_span m)) (vm_txid v)) in
  let* p := match run with
            | Some run => let* encoded := MetadataRun_encode run in Ok (Previous (mr_parent run), encoded)
            | None => let* encoded := ViewMetadata_encode v in Ok (Checkpoint, encoded)
            end in
  let '(parent, encoded) := p in
  fail_if U32_MAX <? zlen encoded with Range ;;
  let raw := root ++ u32_bytes (zlen encoded) ++ encoded in
  fail_if VIEW_LIMIT <? zlen raw with Range ;;
  let* footer := envelope FOOT_MAGIC raw in
  let* coverage := value (SegmentCoverage_new span
                            (match parent with Checkpoint => span_begin span | Previous _ => mb_represented_begin m end)) in
  let* header := Header_new coverage logical parent in
  Ok (header, footer).

Definition stage_manifest (header : Header) (footer : bytes) : result StoreError Finalized :=
  let* s := Building_append (Building_new KManifest) (zeros HEADER_SIZE) in
  let* s := Building_segment_header s header in
  let* s := Building_append s footer in
  let* s := Building_append s (le_bytes 8 HEADER_SIZE) in
  let* s := Building_append s END_MAGIC in
  Building_finalize s.

Definition ManifestBuilder_finalize (g : CatalogGuard B) (m : ManifestBuilder)
    : result StoreError (Digest * ValidatedMetadata) * CatalogGuard B :=
  let v := mb_metadata m in
  match (fail_if negb (bool_decide (packs v ⊆ mb_packs m))
                 || negb (bool_decide (dictionaries v ⊆ mb_dictionaries m)) with Corrupt 0 ;;
         let* _ := validate_ranges (cg_state g) v in
         let* p := manifest_parts m in
         stage_manifest (fst p) (snd p)) with
  | Err e => (Err e, g)
  | Ok f =>
      match Finalized_install g f with
      | (Err e, g) => (Err e, g)
      | (Ok _, g) =>
          (let* metadata := load_metadata (cg_backend g) (endpoint_rows (cg_state g)) (fz_id f) in
           Ok (fz_id f, metadata), g)
      end
  end.

End Objects.
