(* ===== verification/ManifestProofs.v ===== *)
(** Correctness of manifests: whatever chain of parents a view is resolved through, it is
    the view its segment header names; and a manifest is reported durable only when
    loading it back gives the view that was sealed. *)

From S2P Require Import Prelude Domain Format Wire Segment Frame Pack Backend CatalogIndex Catalog Placement View ViewProofs Manifest.
From stdpp Require Import base strings gmap list sorting.
From Stdlib Require Import ZArith Lia.
Open Scope Z_scope.

Section Proofs.
Context {HH : Hashes} {HOK : HashesOk HH} {Z0 : ZstdLib} {ZOK : ZstdOk Z0}.
Context {B : Type} {SB : StorageBackend B} {BL : BackendLaws B}.

(** ** Segment footers *)

(** What the header of a segment says of its record. *)
Definition names_record (h : Header) (r : ManifestRecord) : Prop :=
  vm_txid (record_view r) = span_end (cov_full (hd_coverage h)) /\
  match r with
  | CheckpointRecord m =>
      hd_parent h = Checkpoint /\ vd_parent m = Checkpoint /\ vd_ancestors m = [] /\
      vd_span m = cov_full (hd_coverage h) /\ logical_hash (vd_view m) = hd_logical_hash h
  | RunRecord run =>
      hd_parent h = Previous (mr_parent run) /\ mr_span run = cov_full (hd_coverage h) /\
      logical_hash_for (vd_view (mr_patch run)) (mr_root run) = hd_logical_hash h
  end.

Lemma validated_checkpoint v m :
  validate v = Ok m -> vd_parent m = Checkpoint /\ vd_ancestors m = [].
Proof. intros E. unfold validate in E. inv_ok. by subst m. Qed.

Lemma checkpoint_parent b m :
  ManifestRecord_decode b = Ok (CheckpointRecord m) -> vd_parent m = Checkpoint /\ vd_ancestors m = [].
Proof.
  intros E. unfold ManifestRecord_decode in E. destruct (_ && _); [|destruct (_ && _); [|done]]; inv_ok; [|done].
  injection E as <-. unfold ViewMetadata_decode in Hok. inv_ok. apply decode_reader_validated in Hok.
  by eapply validated_checkpoint.
Qed.

Lemma parses_footer :
  parses footer_body (fun p x => digest_ok p.1 /\ is_u32 (zlen p.2) /\ is_bytes p.2).
Proof.
  unfold footer_body. eapply parses_step; [apply parses_digest|]. intros root x (Hr & ->).
  eapply parses_step; [apply parses_u32|]. intros length x (Hl & ->). unfold is_u32 in Hl.
  eapply parses_step; [apply parses_take; lia|]. intros encoded x (-> & Hz & Hb).
  apply parses_end. cbn. unfold is_u32. split_and!; (done || lia).
Qed.

Lemma check_kind_inv h root r m :
  check_kind h root r = Ok m -> record_view r = vd_view m /\
  match r with
  | CheckpointRecord m' => m' = m /\ hd_parent h = Checkpoint
  | RunRecord run => mr_patch run = m /\ hd_parent h = Previous (mr_parent run) /\
                     cov_full (hd_coverage h) = mr_span run /\ mr_root run = root
  end.
Proof. intros E. destruct r; cbn [check_kind] in E; inv_ok; guards; by subst. Qed.

Lemma from_segment_inv c budget r :
  from_segment c budget = Ok r ->
  names_record (ct_header c) r /\
  (is_bytes (ct_footer c) -> zlen (ct_footer c) <= U64_MAX -> view_wf (record_view r)).
Proof.
  intros E. unfold from_segment in E. inv_ok. destruct a0 as [[root encoded] wire]. inv_all. guards.
  destruct (check_kind_inv _ _ _ _ Hok4) as [Hview Hkind].
  assert (is_bytes (ct_footer c) -> zlen (ct_footer c) <= U64_MAX -> view_wf (record_view a1)) as Hwf.
  { intros Hb Hl. destruct (open_envelope_bytes _ _ _ _ Hl Hb Hok) as [Hab Hal].
    unfold VIEW_LIMIT in Hal.
    destruct (parses_footer _ _ _ (Decoder_new_ok a ltac:(unfold U64_MAX; lia) Hab) Hok0) as (x & _ & _ & _ & Hz & Henc).
    apply record_ok_wf, (decode_manifest_ok encoded); [done| |done]. cbn in Hz. unfold is_u32, U64_MAX in *. lia. }
  destruct a1 as [m|run]; inv_ok; subst r; cbn [record_view] in *.
  - destruct Hkind as [-> Hpar]. split; [|exact Hwf]. guards. destruct (checkpoint_parent _ _ Hok2) as [Hp Ha].
    unfold names_record, logical_hash. cbn. split_and!; try done; [lia|].
    match goal with Hr : content_root _ = root |- _ => cbn in Hr; by rewrite Hr end.
  - destruct Hkind as (<- & Hpar & Hspan & Hroot). split; [|exact Hwf].
    unfold names_record. cbn. split_and!; try done; [lia|]. by rewrite Hroot.
Qed.

(** ** Chains of manifests *)

Lemma read_manifest_inv (b : B) id c :
  read_manifest b id VIEW_LIMIT = Ok c ->
  exists v, contents b !! Manifest id = Some v /\ read_bytes v = Ok c /\ ct_id c = id.
Proof.
  intros E. unfold read_manifest in E. inv_ok. guards. subst. exists a.
  by apply read_all_exact in Hok as [Ho _].
Qed.

(** The record [id] names in the backend. *)
Definition stored_record (b : B) (id : Digest) (r : ManifestRecord) : Prop :=
  exists c budget, read_manifest b id VIEW_LIMIT = Ok c /\ from_segment c budget = Ok r.

Lemma load_record_inv b next seen dec r total :
  load_record b next seen dec = Ok (r, total) -> stored_record b next r.
Proof. intros E. unfold load_record in E. inv_all. subst. by exists a, a0. Qed.

(** The loop reads stored records only, from [next] to a checkpoint. *)
Lemma load_loop_spec fuel b rows next seen runs dec rid m out :
  load_loop fuel b rows next seen runs dec = Some (Ok (rid, m, out)) ->
  stored_record b rid (CheckpointRecord m) /\
  exists pre, out = pre ++ runs /\ Forall (fun e => stored_record b e.1 (RunRecord e.2)) pre /\
              last (rid :: map fst pre) = Some next.
Proof.
  revert next seen runs dec. induction fuel as [|fuel IH]; intros next seen runs dec E; [done|]. cbn [load_loop] in E.
  destruct (load_record b next seen dec) as [[r total]|] eqn:Er; [|done]. apply load_record_inv in Er.
  destruct r as [m'|run]; [inv_ok; simplify_eq; split; [done|]; by exists []|].
  destruct (_ <=? _); [done|]. destruct (resolve_parent _ _ _) as [parent|]; [|done].
  apply IH in E as (Hm & pre & -> & Hpre & Hlast). split; [done|]. exists (pre ++ [(next, run)]).
  rewrite <- (assoc_L (++)). split; [done|]. split; [by apply Forall_app; split; [|repeat constructor]|].
  rewrite map_app, app_comm_cons. cbn [map fst]. by rewrite last_snoc.
Qed.

(** Fuel for [MAX_RUN_DEPTH] runs and two more records is enough. *)
Lemma load_loop_fuel fuel b rows next seen runs dec :
  zlen runs <= MAX_RUN_DEPTH -> (66 <= fuel + length runs)%nat ->
  load_loop fuel b rows next seen runs dec <> None.
Proof.
  revert next seen runs dec. unfold MAX_RUN_DEPTH, zlen.
  induction fuel as [|fuel IH]; intros next seen runs dec Hr Hf; [lia|]. cbn [load_loop].
  destruct (load_record b next seen dec) as [[[m|run] total]|]; [done| |done].
  destruct (Z.leb_spec MAX_RUN_DEPTH (zlen runs)) as [?|Hlt]; [done|]. unfold MAX_RUN_DEPTH, zlen in Hlt.
  destruct (resolve_parent _ _ _); [|done]. apply IH; cbn [length]; lia.
Qed.

Lemma load_loop_mono fuel k b rows next seen runs dec r :
  load_loop fuel b rows next seen runs dec = Some r -> load_loop (fuel + k) b rows next seen runs dec = Some r.
Proof.
  revert next seen runs dec. induction fuel as [|fuel IH]; intros next seen runs dec E; [done|]. cbn [load_loop Nat.add] in *.
  repeat case_match; try done. by apply IH.
Qed.

Lemma apply_runs_inv runs acc acc' :
  mfold apply_run acc runs = Ok acc' ->
  match last runs with
  | None => acc' = acc
  | Some (id, run) => acc'.1 = id /\ exists pid base, MetadataRun_apply run pid base = Ok acc'.2
  end.
Proof.
  revert acc. induction runs as [|[id run] runs IH]; intros acc E; cbn [mfold] in E; inv_ok; [done|].
  unfold apply_run in Hok. inv_ok. subst a. apply IH in E.
  rewrite last_cons. destruct (last runs) as [[]|]; [done|]. subst acc'. cbn. split; [done|]. by exists acc.1, acc.2.
Qed.

(** What loading a manifest guarantees of the view, against the stored segment. *)
Lemma load_metadata_inv b rows id m :
  load_metadata b rows id = Ok m ->
  exists c r, read_manifest b id VIEW_LIMIT = Ok c /\ names_record (ct_header c) r /\
    match r with
    | CheckpointRecord m' => m' = m
    | RunRecord run => exists pid base, MetadataRun_apply run pid base = Ok m
    end /\ exists budget, from_segment c budget = Ok r.
Proof.
  intros E. unfold load_metadata in E. destruct (load_loop _ _ _ _ _ _ _) as [r|] eqn:El; [|done]. inv_ok. subst r.
  destruct a as [[rid m0] runs]. inv_ok. apply load_loop_spec in El as (Hm0 & pre & -> & Hpre & Hlast).
  rewrite app_nil_r in *. apply apply_runs_inv in Hok.
  destruct (last pre) as [[i run]|] eqn:Elast.
  - destruct Hok as (_ & pid & base & Ha). rewrite E in Ha.
    assert (i = id /\ stored_record b i (RunRecord run)) as [-> (c & bud & Hc & Hf)].
    { split.
      - apply last_Some in Elast as [l ->]. rewrite map_app, app_comm_cons in Hlast. cbn [map fst] in Hlast.
        rewrite last_snoc in Hlast. by injection Hlast.
      - rewrite Forall_forall in Hpre. apply (Hpre (i, run)). by apply last_Some_elem_of. }
    exists c, (RunRecord run). destruct (from_segment_inv _ _ _ Hf) as [Hn _]. split_and!; eauto.
  - apply last_None in Elast as ->. cbn in Hlast. injection Hlast as ->. subst a. cbn in E. subst m0.
    destruct Hm0 as (c & bud & Hc & Hf). exists c, (CheckpointRecord m).
    destruct (from_segment_inv _ _ _ Hf) as [Hn _]. split_and!; eauto.
Qed.

(** The loaded view is the one the header of its segment names. *)
Definition loaded_from (c : Container) (m : ValidatedMetadata) : Prop :=
  logical_hash (vd_view m) = hd_logical_hash (ct_header c) /\
  vd_span m = cov_full (hd_coverage (ct_header c)) /\
  vm_txid (vd_view m) = span_end (cov_full (hd_coverage (ct_header c))) /\
  vd_parent m = hd_parent (ct_header c) /\ zlen (vd_ancestors m) <= MAX_RUN_DEPTH.

Lemma load_metadata_from b rows id m :
  load_metadata b rows id = Ok m ->
  exists c, read_manifest b id VIEW_LIMIT = Ok c /\ loaded_from c m.
Proof.
  intros E. apply load_metadata_inv in E as (c & r & Hc & Hn & Hr & _). exists c. split; [done|].
  unfold loaded_from. destruct Hn as [Ht Hn]. destruct r as [m'|run]; cbn in Ht.
  - subst m'. destruct Hn as (Hp & Hp' & Ha & Hs & Hh). rewrite Ha. split_and!; (done || congruence).
  - destruct Hr as (pid & base & Hr). apply apply_inv in Hr as (Hl & _ & Hv & _ & _ & Hs & _ & Hz & _ & Hp).
    destruct Hn as (Hpar & Hspan & Hh). rewrite Hl, Hs, Hp, Hpar, Hh. split_and!; try done.
    by rewrite Hv, patched_fields.
Qed.

(** ** Collision resistance

    Identities are digests, so what they identify is determined up to a collision of the
    hash function. *)

Definition collision : Prop := exists x y, x <> y /\ blake3 x = blake3 y.

Lemma blake3_binds x y : blake3 x = blake3 y -> x = y \/ collision.
Proof. intros E. destruct (decide (x = y)); [by left|]. right. by exists x, y. Qed.

Lemma metadata_binds m1 m2 :
  metadata_ok m1 -> metadata_ok m2 -> fm_id m1 = fm_id m2 -> m1 = m2 \/ collision.
Proof.
  intros H1 H2 E. destruct (blake3_binds (FrameMetadata_encode m1) (FrameMetadata_encode m2)) as [He|]; [|left|by right].
  { by rewrite <- (proj1 H1), <- (proj1 H2). }
  apply frame_metadata_roundtrip_lemma in H1, H2. rewrite He, E in H1. congruence.
Qed.

(** A property of every pair of frames, or a collision. *)
Lemma frames_agree_or a b : view_fields a -> view_fields b -> frames_agree a b \/ collision.
Proof.
  intros Ha Hb.
  destruct (decide (map_Forall (fun id l => default (fl_metadata l) (fl_metadata <$> vm_frames b !! id) = fl_metadata l)
                      (vm_frames a))) as [Hall|Hno].
  - left. intros id la lb Hla Hlb. specialize (Hall id la Hla). cbn in Hall. by rewrite Hlb in Hall.
  - apply map_not_Forall in Hno as (id & la & Hla & Hne); [|intros; apply _].
    destruct (vm_frames b !! id) as [lb|] eqn:Hlb; cbn in Hne; [|done].
    destruct (fields_frames a Ha _ _ Hla) as [[_ Ia] _ Ma _], (fields_frames b Hb _ _ Hlb) as [[_ Ib] _ Mb _].
    cbn in *. destruct (metadata_binds _ _ Mb Ma); [congruence|done|by right].
Qed.

(** The version of page [n] in a view. *)
Definition version_at (v : ViewMetadata) (n : Z) : option PageVersion := vm_pages v !! n ≫= page_version v.

(** The same database at the same point, with the same version of every page. *)
Definition same_sealed_view (v w : ViewMetadata) : Prop :=
  vm_database v = vm_database w /\ vm_lineage v = vm_lineage w /\ vm_size v = vm_size w /\
  vm_txid v = vm_txid w /\ vm_history v = vm_history w /\ vm_parent_seal v = vm_parent_seal w /\
  forall n, version_at v n = version_at w n.

(** What a logical hash needs of a view: fields of their sizes, and pages that are in the frames
    they name. Drafts have it before they are validated. *)
Definition page_present (v : ViewMetadata) (e : Z * StoredPage) : Prop :=
  exists location version,
    vm_frames v !! sp_frame e.2 = Some location /\
    fm_pages (fl_metadata location) !! Z.to_nat (sp_slot e.2) = Some version /\ pv_page version = e.1.

Record draft_ok (v : ViewMetadata) : Prop := {
  draft_database : digest_ok (vm_database v);
  draft_lineage : digest_ok (vm_lineage v);
  draft_size : logical_ok (vm_size v);
  draft_txid : txid_ok (vm_txid v);
  draft_history : digest_ok (vm_history v);
  draft_seal : digest_ok (seal_bytes (vm_parent_seal v));
  draft_frames : forall id l, vm_frames v !! id = Some l -> location_ok (id, l);
  draft_pages : forall n p, vm_pages v !! n = Some p -> page_present v (n, p);
}.

Lemma view_wf_draft v : view_wf v -> draft_ok v.
Proof.
  intros [[D L S T H P F _ _] Hs]. split; try done; [by apply seal_bytes_ok|].
  intros n p (l & x & ? & ? & ? & _)%(shape_pages v Hs). by exists l, x.
Qed.

(** The same database at the same point, up to how the lack of a parent seal is written. *)
Definition same_draft (v w : ViewMetadata) : Prop :=
  vm_database v = vm_database w /\ vm_lineage v = vm_lineage w /\ vm_size v = vm_size w /\
  vm_txid v = vm_txid w /\ vm_history v = vm_history w /\
  seal_bytes (vm_parent_seal v) = seal_bytes (vm_parent_seal w) /\
  forall n, version_at v n = version_at w n.

Lemma page_versions_elem v x :
  draft_ok v -> x ∈ page_versions v <-> version_at v (pv_page x) = Some x.
Proof.
  intros Hs. unfold page_versions, version_at. rewrite list_elem_of_omap. split.
  - intros ([n p] & Hp & Hx). apply sorted_pages_elem in Hp. cbn in Hx.
    destruct (draft_pages v Hs n p Hp) as (l & y & Hl & Hy & Hn). cbn in *.
    assert (x = y) as -> by (unfold page_version in Hx; rewrite Hl in Hx; congruence). by rewrite Hn, Hp.
  - intros E. destruct (vm_pages v !! pv_page x) as [p|] eqn:Ep; [|done]. cbn in E.
    exists (pv_page x, p). by rewrite sorted_pages_elem.
Qed.

(** A version is one of its frame's, and names its page. *)
Lemma version_at_ok v n x :
  draft_ok v -> version_at v n = Some x -> pv_page x = n /\ page_version_ok x.
Proof.
  intros Hv Hx. unfold version_at in Hx. destruct (vm_pages v !! n) as [p|] eqn:Ep; [|done]. cbn in Hx.
  destruct (draft_pages v Hv n p Ep) as (l & y & Hl & Hy & Hn). cbn in *. unfold page_version in Hx. rewrite Hl in Hx.
  simplify_eq. split; [done|]. destruct (draft_frames v Hv _ _ Hl) as [_ _ (_ & _ & _ & _ & _ & _ & _ & Hall & _) _].
  cbn in *. rewrite Forall_forall in Hall. apply Hall. by eapply list_elem_of_lookup_2.
Qed.

Lemma page_versions_ok v : draft_ok v -> Forall page_version_ok (page_versions v).
Proof.
  intros Hv. apply Forall_forall. intros x Hx. apply page_versions_elem in Hx; [|done]. by eapply version_at_ok.
Qed.

Lemma versions_at_eq v w :
  draft_ok v -> draft_ok w -> page_versions v = page_versions w -> forall n, version_at v n = version_at w n.
Proof.
  assert (forall v w n x, draft_ok v -> draft_ok w -> page_versions v = page_versions w ->
            version_at v n = Some x -> version_at w n = Some x) as Hone.
  { intros v' w' n x Hv Hw E Hx. destruct (version_at_ok _ _ _ Hv Hx) as [<- _].
    apply page_versions_elem; [done|]. rewrite <- E. by apply page_versions_elem. }
  intros Hv Hw E n. destruct (version_at v n) as [x|] eqn:Ex.
  - symmetry. by eapply (Hone v w).
  - destruct (version_at w n) as [y|] eqn:Ey; [|done]. by rewrite (Hone w v n y) in Ex.
Qed.

Lemma zlen_PageVersion_encode p : page_version_ok p -> length (PageVersion_encode p) = 44%nat.
Proof.
  intros (_ & _ & Hc%zlen_digest). unfold PageVersion_encode, u32_bytes, u64_bytes.
  rewrite !length_app, !length_le_bytes. unfold zlen in Hc. lia.
Qed.

Lemma le_bytes_inj n a b : 0 <= a < 256 ^ Z.of_nat n -> 0 <= b < 256 ^ Z.of_nat n -> le_bytes n a = le_bytes n b -> a = b.
Proof. intros Ha Hb E. by rewrite <- (le_val_bytes_small n a), <- (le_val_bytes_small n b), E. Qed.

Lemma PageVersion_encode_inj p q :
  page_version_ok p -> page_version_ok q -> PageVersion_encode p = PageVersion_encode q -> p = q.
Proof.
  intros (P1 & P2 & _) (Q1 & Q2 & _) E. unfold PageVersion_encode, u32_bytes, u64_bytes in E.
  apply app_inj_1 in E as [E1 E]; [|by rewrite !length_le_bytes].
  apply app_inj_1 in E as [E2 E3]; [|by rewrite !length_le_bytes].
  unfold page_number_ok, txid_ok, U32_MAX, U64_MAX in *.
  apply le_bytes_inj in E1; [|cbn; lia..]. apply le_bytes_inj in E2; [|cbn; lia..].
  destruct p, q; cbn in *; congruence.
Qed.

Lemma versions_inj l k :
  Forall page_version_ok l -> Forall page_version_ok k ->
  concat (map PageVersion_encode l) = concat (map PageVersion_encode k) -> l = k.
Proof.
  intros Hl. revert k. induction Hl as [|p l Hp Hl IH]; intros k Hk E; destruct Hk as [|q k Hq Hk]; cbn in E; try done.
  apply app_inj_1 in E as [E1 E2]; [|by rewrite !zlen_PageVersion_encode]. f_equal; [by apply PageVersion_encode_inj|by apply IH].
Qed.

Lemma seal_bytes_inj a b : seal_ok a -> seal_ok b -> seal_bytes a = seal_bytes b -> a = b.
Proof. destruct a, b; cbn; intros; naive_solver. Qed.

Lemma digest_length d : digest_ok d -> length d = 32%nat.
Proof. intros [Hd _]. unfold zlen in Hd. lia. Qed.

(** The fields and the content root a logical hash covers. *)
Lemma logical_fields_inj v w rv rw :
  draft_ok v -> draft_ok w ->
  ascii "zsqlite/logical-view/v1" ++ vm_database v ++ vm_lineage v ++
    le_bytes 4 (lb_page_size (vm_size v)) ++ le_bytes 8 (lb_bytes (vm_size v)) ++
    le_bytes 8 (vm_txid v) ++ vm_history v ++ seal_bytes (vm_parent_seal v) ++ rv =
  ascii "zsqlite/logical-view/v1" ++ vm_database w ++ vm_lineage w ++
    le_bytes 4 (lb_page_size (vm_size w)) ++ le_bytes 8 (lb_bytes (vm_size w)) ++
    le_bytes 8 (vm_txid w) ++ vm_history w ++ seal_bytes (vm_parent_seal w) ++ rw ->
  vm_database v = vm_database w /\ vm_lineage v = vm_lineage w /\ vm_size v = vm_size w /\
  vm_txid v = vm_txid w /\ vm_history v = vm_history w /\
  seal_bytes (vm_parent_seal v) = seal_bytes (vm_parent_seal w) /\ rv = rw.
Proof.
  intros [Dv Lv Sv Tv Hv Pv _ _] [Dw Lw Sw Tw Hw Pw _ _] E. apply app_inv_head in E.
  apply app_inj_1 in E as [E1 E]; [|by rewrite !digest_length].
  apply app_inj_1 in E as [E2 E]; [|by rewrite !digest_length].
  apply app_inj_1 in E as [E3 E]; [|by rewrite !length_le_bytes].
  apply app_inj_1 in E as [E4 E]; [|by rewrite !length_le_bytes].
  apply app_inj_1 in E as [E5 E]; [|by rewrite !length_le_bytes].
  apply app_inj_1 in E as [E6 E]; [|by rewrite !digest_length].
  apply app_inj_1 in E as [E7 E8]; [|by rewrite !digest_length].
  destruct Sv as (Sv%page_size_ok_bounds & Bv & Nv & Mv), Sw as (Sw%page_size_ok_bounds & Bw & Nw & Mw).
  unfold txid_ok, U64_MAX, U32_MAX in *.
  apply le_bytes_inj in E3; [|cbn; lia..]. apply le_bytes_inj in E4; [|cbn; nia..].
  apply le_bytes_inj in E5; [|cbn; lia..].
  split_and!; try done. destruct (vm_size v), (vm_size w). cbn in *. f_equal; nia.
Qed.

Lemma draft_binds v w :
  draft_ok v -> draft_ok w -> logical_hash v = logical_hash w -> same_draft v w \/ collision.
Proof.
  intros Hv Hw E. apply blake3_binds in E as [E|]; [|by right].
  apply logical_fields_inj in E as (E1 & E2 & E3 & E4 & E5 & E6 & E7); [|done..].
  apply blake3_binds in E7 as [E7|]; [|by right]. left. unfold same_draft. split_and!; try done.
  apply versions_at_eq; [done..|]. by apply versions_inj; [apply page_versions_ok..|].
Qed.

Lemma logical_hash_binds_lemma v w :
  view_wf v -> view_wf w -> logical_hash v = logical_hash w -> same_sealed_view v w \/ collision.
Proof.
  intros Hv Hw E. apply draft_binds in E as [(E1 & E2 & E3 & E4 & E5 & E6 & E7)|]; [|by right|by apply view_wf_draft..].
  left. unfold same_sealed_view. split_and!; try done. apply seal_bytes_inj; [apply Hv|apply Hw|done].
Qed.

(** A resolved chain is well formed. *)
Lemma apply_runs_wf runs acc acc' :
  view_wf (vd_view acc.2) -> Forall (fun e => view_wf (vd_view (mr_patch e.2))) runs ->
  mfold apply_run acc runs = Ok acc' -> view_wf (vd_view acc'.2) \/ collision.
Proof.
  intros Hb Hr. revert acc Hb. induction Hr as [|[id run] runs Hrun Hr IH]; intros acc Hb E; cbn [mfold] in E; inv_ok.
  - subst. by left.
  - unfold apply_run in Hok. inv_ok. subst a. cbn in *.
    destruct (frames_agree_or (vd_view (mr_patch run)) (vd_view acc.2)) as [Hag|]; [apply Hrun|apply Hb| |by right].
    eapply IH; [|exact E]. exact (apply_wf _ _ _ _ Hb Hrun Hag Hok0).
Qed.

Definition stored_bytes (b : B) : Prop := forall k v, contents b !! k = Some v -> is_bytes v.

Lemma stored_record_wf b id r : stored_bytes b -> stored_record b id r -> view_wf (record_view r).
Proof.
  intros Hb (c & budget & Hc & Hf). apply read_manifest_inv in Hc as (v & Hv & Hc & _).
  apply from_segment_inv in Hf as [_ Hwf]. apply Hb in Hv.
  unfold read_bytes in Hc. inv_ok. subst c. cbn in Hwf. apply negb_false_iff, andb_true_iff in Hguard as [H1 H2].
  apply Hwf; [auto with bytedb|]. unfold Segment.LIMIT, HEADER_SIZE, U64_MAX in *.
  rewrite zlen_slice; lia.
Qed.

Lemma load_metadata_wf b rows id m :
  stored_bytes b -> load_metadata b rows id = Ok m -> view_wf (vd_view m) \/ collision.
Proof.
  intros Hb E. unfold load_metadata in E. destruct (load_loop _ _ _ _ _ _ _) as [r|] eqn:El; [|done]. inv_ok. subst r.
  destruct a as [[rid m0] runs]. inv_ok. subst m. apply load_loop_spec in El as (Hm0 & pre & -> & Hpre & _).
  rewrite app_nil_r in *. eapply (apply_runs_wf pre (rid, m0)); [| |done].
  - by eapply (stored_record_wf b rid (CheckpointRecord m0)).
  - eapply Forall_impl; [exact Hpre|]. intros e He. by eapply (stored_record_wf b e.1 (RunRecord e.2)).
Qed.

(** ** Staging *)

Lemma staged_end file offset b : offset = zlen file -> staged file offset b = file ++ b.
Proof.
  intros ->. unfold staged, put. replace (zlen file + zlen b - zlen file) with (zlen b) by lia.
  rewrite take_app_length', drop_app_length' by (unfold zlen; lia). f_equal.
  apply overlay_full. by rewrite zlen_zeros by apply zlen_nonneg.
Qed.

Lemma staged_over n b : zlen b = n -> staged (zeros n) 0 b = b.
Proof.
  intros <-. pose proof (zlen_nonneg b). unfold staged, put. rewrite zlen_zeros by lia.
  replace (0 + zlen b - zlen b) with 0 by lia. change (zeros 0) with (@nil Z). rewrite app_nil_r. cbn.
  rewrite drop_0. apply overlay_full. by rewrite zlen_zeros by lia.
Qed.

Lemma zlen_container h footer : zlen (container_bytes h footer) = 144 + zlen footer.
Proof.
  unfold container_bytes. rewrite !zlen_app, zlen_le_bytes, zlen_Header_encode. change (zlen END_MAGIC) with 8. lia.
Qed.

(** The staged file is a container of the header and the footer. *)
Lemma stage_manifest_lemma h footer f :
  header_ok h -> stage_manifest h footer = Ok f ->
  fz_kind f = KManifest /\ fz_file f = container_bytes h footer /\ fz_length f = zlen (fz_file f) /\
  fz_length f <= OBJECT_LIMIT /\ read (fz_file f) = Ok (mkContainer h footer (fz_id f)).
Proof.
  intros Hh E. pose proof (zlen_Header_encode h) as Hhl. pose proof (zlen_container h footer) as Hcl.
  unfold stage_manifest, Building_append, Building_segment_header, Building_finalize, Building_new in E.
  cbn [bd_kind bd_file bd_length bd_hasher] in E. inv_all. subst. cbn [bd_kind bd_file bd_length bd_hasher fz_kind fz_file fz_length fz_id] in *.
  inv_all. unfold HEADER_SIZE in *. rewrite zlen_zeros in * by lia. rewrite zlen_le_bytes in *.
  change (zlen END_MAGIC) with 8 in *.
  repeat match goal with H : checked_add _ _ = Some _ |- _ => apply checked_add_Some in H as [? ?]; subst end.
  assert (staged [] 0 (zeros 128) = zeros 128) as Hz by (by apply staged_end).
  rewrite Hz, staged_over in * by done.
  assert (staged (staged (staged (Header_encode h) (0 + 128) footer) (0 + 128 + zlen footer) (le_bytes 8 128))
            (0 + 128 + zlen footer + Z.of_nat 8) END_MAGIC = container_bytes h footer) as Hc.
  { rewrite (staged_end (Header_encode h)) by lia. rewrite (staged_end (_ ++ footer)) by (rewrite zlen_app; lia).
    rewrite staged_end by (rewrite !zlen_app, zlen_le_bytes; lia).
    unfold container_bytes, HEADER_SIZE. by rewrite <- !(assoc_L (++)). }
  rewrite Hc in *. rewrite !(bool_decide_false (KManifest = KPack)) in * by done. cbn [negb andb] in *.
  apply Z.ltb_ge in Hguard.
  assert (zlen footer <= Segment.LIMIT - 144) by (unfold Segment.LIMIT, OBJECT_LIMIT in *; lia).
  pose proof (read_bytes_container_lemma h footer Hh ltac:(done)) as Hr. apply read_read_bytes_lemma in Hr.
  rewrite Hr in Hok. injection Hok as <-. split_and!; (done || lia).
Qed.

(** ** Building a manifest *)

Lemma logical_hash_ok v root : digest_ok (logical_hash_for v root).
Proof. split; [apply blake3_length|apply blake3_bytes]. Qed.

Record builder_ok (m : ManifestBuilder) : Prop := {
  builder_txid : txid_ok (vm_txid (mb_metadata m));
  builder_span : txid_ok (span_begin (mb_source_span m));
  builder_begin : txid_ok (mb_represented_begin m);
}.

(** [new] gives a builder for any well-formed draft and source. *)
Lemma builder_new_ok same v source m :
  txid_ok (vm_txid v) -> (forall s, source = Some s -> txid_ok (vm_txid (vd_view s)) /\ span_ok (vd_span s)) ->
  ManifestBuilder_new same v source = Ok m -> builder_ok m /\ mb_metadata m = v.
Proof.
  intros Ht Hs E. unfold ManifestBuilder_new in E. inv_all.
  apply TransactionSpan_new_ok in Hok as [-> Hspan]; [|done..].
  destruct source as [s|]; inv_all; subst.
  - destruct (Hs s eq_refl) as [Hf (Hb & _)]. split; [|done]. split; cbn; [done..|].
    destruct (_ <? _); inv_all; subst; [|done].
    apply TransactionId_next_spec in Hok0 as [-> ?]; [|done].
    unfold txid_ok in *. lia.
  - split; [|done]. by split.
Qed.

Lemma choose_run_inv source v run :
  choose_run source v = Ok (Some run) -> MetadataRun_between source v = Ok run.
Proof.
  intros E. unfold choose_run in E. inv_ok. destruct (_ && _); [|done]. inv_ok.
  rewrite Hok. repeat case_match; congruence.
Qed.

(** The header names the draft. *)
Lemma manifest_parts_lemma m header footer :
  builder_ok m -> manifest_parts m = Ok (header, footer) ->
  header_ok header /\ hd_logical_hash header = logical_hash (mb_metadata m) /\
  span_end (cov_full (hd_coverage header)) = vm_txid (mb_metadata m) /\
  span_begin (cov_full (hd_coverage header)) = span_begin (mb_source_span m).
Proof.
  intros [Ht Hb Hr] E. unfold manifest_parts in E. inv_all.
  destruct a1 as [parent encoded]. inv_all.
  apply TransactionSpan_new_ok in Hok0 as [-> Hspan]; [|done..].
  assert (forall r, parent = Previous r -> digest_ok (pr_hash r)) as Hparent.
  { intros r ->. destruct a as [run|]; inv_all; simplify_eq. destruct (mb_parent m) as [source|]; [|done].
    apply choose_run_inv, between_inv in Hok as [-> _]. apply logical_hash_ok. }
  apply SegmentCoverage_new_ok in Hok3 as [-> Hc]; [|done].
  apply Header_new_spec in Hok4 as [-> Hp]; [|done|apply logical_hash_ok|done].
  subst header. cbn. split_and!; try reflexivity. split_and!; (done || apply logical_hash_ok).
Qed.

Lemma install_manifest_lemma g f g' c :
  fz_length f = zlen (fz_file f) -> read (fz_file f) = Ok c ->
  install_manifest g f = (Ok tt, g') ->
  contents (cg_backend g') !! Manifest (fz_id f) = Some (fz_file f) /\
  forall k v, contents (cg_backend g) !! k = Some v -> contents (cg_backend g') !! k = Some v.
Proof.
  intros Hl Hc E. unfold install_manifest, publish_catalog in E. rewrite Hl, slice_all in E by done.
  destruct (backend_put _ _ _) as [[[]|e] b] eqn:Ep; [|done]. rewrite Hc in E. cbn in E.
  destruct (publish _ _) as [[r s] b'] eqn:Eb. apply publish_lemma in Eb as [Hadd _]. injection E as -> <-. cbn.
  pose proof (put_only_adds _ _ _ _ _ Ep) as [_ Hput]. apply put_ok in Ep as (Hcon & _).
  split; [|auto]. apply Hadd. by rewrite Hcon, lookup_insert, decide_True by done.
Qed.

Lemma finalize_lemma g m id d g' :
  builder_ok m -> ManifestBuilder_finalize g m = (Ok (id, d), g') ->
  packs (mb_metadata m) ⊆ mb_packs m /\ dictionaries (mb_metadata m) ⊆ mb_dictionaries m /\
  (forall k v, contents (cg_backend g) !! k = Some v -> contents (cg_backend g') !! k = Some v) /\
  exists c, read_manifest (cg_backend g') id VIEW_LIMIT = Ok c /\ loaded_from c d /\
    logical_hash (vd_view d) = logical_hash (mb_metadata m) /\
    vd_span d = mkSpan (span_begin (mb_source_span m)) (vm_txid (mb_metadata m)).
Proof.
  intros Hm E. unfold ManifestBuilder_finalize in E.
  match type of E with match ?x with _ => _ end = _ => destruct x as [f|] eqn:Ef; [|done] end.
  inv_ok. destruct a0 as [header footer]. cbn [fst snd] in Ef. apply orb_false_iff in Hguard as [Hp Hd].
  apply manifest_parts_lemma in Hok0 as (Hh & Hhash & Hend & Hbegin); [|done].
  apply stage_manifest_lemma in Ef as (Hk & Hfile & Hlen & Hlim & Hread); [|done].
  unfold Finalized_install in E. rewrite Hk in E. destruct (install_manifest g f) as [[[]|] g1] eqn:Ei; [|done].
  destruct (install_manifest_lemma _ _ _ _ Hlen Hread Ei) as [Hstored Hadd].
  injection E as E <-. inv_ok. simplify_eq.
  rewrite negb_false_iff, bool_decide_eq_true in Hp, Hd. split_and!; [done..|].
  apply load_metadata_from in Hok0 as (c & Hc & Hl). exists c. split; [done|]. split; [done|].
  assert (ct_header c = header) as <-.
  { apply read_manifest_inv in Hc as (v & Ho & Hc & _). rewrite Hstored in Ho. simplify_eq.
    apply read_read_bytes_lemma in Hread. rewrite Hread in Hc. by simplify_eq. }
  destruct Hl as (Hh' & Hs & _). rewrite Hh', Hs. split; [done|].
  destruct (cov_full _); cbn in *; congruence.
Qed.

Lemma finalize_loads g m id d g' :
  ManifestBuilder_finalize g m = (Ok (id, d), g') ->
  load_metadata (cg_backend g') (endpoint_rows (cg_state g')) id = Ok d.
Proof.
  intros E. unfold ManifestBuilder_finalize in E. repeat (case_match; try done).
  injection E as E <-. inv_ok. by simplify_eq.
Qed.

(** ** Theorems *)

(** C27. Loading a manifest authenticates what it returns: the object read is the one the
    identity names, and the view resolved through its chain of parents has the logical
    hash, transaction span, endpoint and parent its segment header states, through at
    most 64 ancestors. The view is well formed: every page names a slot of a present
    frame holding that page, unless two byte strings collide under the hash. *)
Theorem load_metadata_authentic b rows id m :
  stored_bytes b -> load_metadata b rows id = Ok m ->
  (exists v c, contents b !! Manifest id = Some v /\ read_bytes v = Ok c /\ ct_id c = id /\ loaded_from c m) /\
  (view_wf (vd_view m) \/ collision).
Proof.
  intros Hb E. split; [|by eapply load_metadata_wf].
  apply load_metadata_from in E as (c & Hc & Hl). apply read_manifest_inv in Hc as (v & ? & ? & ?). eauto 10.
Qed.

(** C37. Loading terminates: whatever the stored chain is, cyclic or endless, the loop ends
    within 66 rounds, and more fuel never changes its result. *)
Theorem load_metadata_terminates b rows id k :
  exists r, load_loop LOAD_FUEL b rows id [] [] 0 = Some r /\
            load_loop (LOAD_FUEL + k) b rows id [] [] 0 = Some r.
Proof.
  pose proof (load_loop_fuel LOAD_FUEL b rows id [] [] 0 ltac:(done) ltac:(cbn; lia)) as Hf.
  destruct (load_loop LOAD_FUEL b rows id [] [] 0) as [r|] eqn:E; [|done].
  exists r. split; [done|]. by apply load_loop_mono.
Qed.

(** The logical hash binds the view: two well-formed views with the same logical hash
    are the same database, lineage, size, transaction, history and parent seal, with
    the same version and checksum of every page (wherever they are stored), or they
    exhibit a collision of the hash. *)
Theorem logical_hash_binds v w :
  view_wf v -> view_wf w -> logical_hash v = logical_hash w -> same_sealed_view v w \/ collision.
Proof. apply logical_hash_binds_lemma. Qed.

End Proofs.
