(* ===== verification/ManifestDemo.v ===== *)
(** A sealed database evaluated end to end in the in-memory backend: a checkpoint manifest
    of [demo_view1], then its successor [demo_view3] sealed as a delta and loaded back
    through the chain; the witnesses of the manifest theorems. *)

From S2P Require Import Prelude Domain Format Wire Segment Frame Pack Backend CatalogIndex Catalog Placement View ViewProofs ViewDemo Manifest ManifestProofs.
From stdpp Require Import base strings gmap list sorting.
From Stdlib Require Import ZArith Lia.
Open Scope Z_scope.

#[local] Existing Instances demo_hashes demo_zstd demo_hashes_ok demo_zstd_ok.

(** The view after page 4 was rewritten into a new frame; page 2 is inherited. *)
Definition demo_view3 : ViewMetadata :=
  mkView (demo_id 1) (demo_id 2) (mkLogical 2048 512) 10 (demo_id 4) (Some (demo_id 7))
    {[ fm_id (ef_metadata demo_frame) := demo_location1; fm_id (ef_metadata demo_frame2) := demo_location2 ]}
    {[ 4 := mkStored (fm_id (ef_metadata demo_frame2)) 0; 2 := mkStored (fm_id (ef_metadata demo_frame)) 1 ]} [].

(** The packs of both frames are placed in blobs. *)
Definition demo_placed (s : State) (pack : Digest) : State :=
  unwrap s (install_pack_extent s pack (mkExtent (demo_id 9) 64 10000 20000)).
Definition demo_guard : CatalogGuard MemoryBackend :=
  mkGuard demo_memory (demo_placed (demo_placed demo_catalog (demo_id 5)) (demo_id 6)).

Definition demo_failed : ManifestBuilder := mkBuilder demo_view1 ∅ ∅ None (mkSpan 0 0) 0.
Definition demo_receipts (m : result StoreError ManifestBuilder) : ManifestBuilder :=
  unwrap demo_failed (let* m := m in let* m := ManifestBuilder_pack m true (demo_id 5) in
                      ManifestBuilder_pack m true (demo_id 6)).

Definition demo_builder1 : ManifestBuilder := demo_receipts (ManifestBuilder_new true demo_view1 None).
Definition demo_seal1 := Eval vm_compute in ManifestBuilder_finalize demo_guard demo_builder1.
Definition demo_sealed1 : ValidatedMetadata := Eval vm_compute in
  match demo_seal1.1 with Ok p => p.2 | Err _ => demo_invalid end.

Definition demo_builder3 : ManifestBuilder := demo_receipts (ManifestBuilder_new true demo_view3 (Some demo_sealed1)).
Definition demo_seal3 := Eval vm_compute in ManifestBuilder_finalize demo_seal1.2 demo_builder3.
Definition demo_id3 : Digest := Eval vm_compute in match demo_seal3.1 with Ok p => p.1 | Err _ => [] end.
Definition demo_sealed3 : ValidatedMetadata := Eval vm_compute in
  match demo_seal3.1 with Ok p => p.2 | Err _ => demo_invalid end.

(** The second manifest is a delta, one ancestor deep, and resolves to the draft. *)
Example demo_chain_of_two :
  zlen (vd_ancestors demo_sealed3) = 1 /\ vd_view demo_sealed3 = demo_view3.
Proof. split; vm_compute; reflexivity. Qed.

Lemma memory_stored_bytes (b : MemoryBackend) :
  forallb (fun e => bytes_check e.2) (map_to_list (mb_objects b)) = true -> stored_bytes b.
Proof.
  intros E k v Hk. rewrite forallb_forall in E. apply bytes_check_ok, (E (k, v)), list_elem_of_In.
  by apply elem_of_map_to_list.
Qed.

Definition demo_raw3 : bytes := Eval vm_compute in unwrap [] (encode_raw demo_view3).
Definition demo_valid3 : ValidatedMetadata := Eval vm_compute in unwrap demo_invalid (validate demo_view3).

Lemma demo_wf3 : view_wf demo_view3.
Proof.
  apply (decoded_view_wf demo_view3 demo_raw3 demo_valid3); try (vm_compute; reflexivity). vm_compute. discriminate.
Qed.

Lemma demo_builder3_ok : builder_ok demo_builder3.
Proof.
  split; unfold txid_ok; vm_compute; split; discriminate.
Qed.

Lemma demo_finalize3 :
  ManifestBuilder_finalize demo_seal1.2 demo_builder3 = (Ok (demo_id3, demo_sealed3), demo_seal3.2).
Proof. vm_compute. reflexivity. Qed.


Lemma load_metadata_authentic_witness :
  exists v c, contents (cg_backend demo_seal3.2) !! Manifest demo_id3 = Some v /\ read_bytes v = Ok c /\
              loaded_from c demo_sealed3.
Proof.
  destruct (load_metadata_authentic (cg_backend demo_seal3.2) (endpoint_rows (cg_state demo_seal3.2))
              demo_id3 demo_sealed3) as [(v & c & Hv & Hc & _ & Hl) _].
  - apply memory_stored_bytes. vm_compute. reflexivity.
  - vm_compute. reflexivity.
  - exists v, c. split; [exact Hv|]. split; [exact Hc|exact Hl].
Defined.

(** The loaded view against the draft. *)
Lemma logical_hash_binds_witness : same_sealed_view (vd_view demo_sealed3) demo_view3 \/ collision.
Proof.
  apply (logical_hash_binds (vd_view demo_sealed3) demo_view3).
  - replace (vd_view demo_sealed3) with demo_view3 by (vm_compute; reflexivity). exact demo_wf3.
  - exact demo_wf3.
  - vm_compute. reflexivity.
Defined.
