(* ===== verification/Active.v ===== *)
(** The active file (src/src/store.rs): its two state sectors, its raw page
    records, and the scan that rebuilds the record index when a file is opened. *)

From S2P Require Import Prelude Domain Layout Format Segment.
From stdpp Require Import base strings gmap list sorting.
From Stdlib Require Import ZArith Lia.
Open Scope Z_scope.

Definition SQLITE_MAGIC : bytes := ascii "SQLite format 3" ++ [0].
Definition ACTIVE_STATE_A_OFFSET : Z := ACTIVE_HEADER_SIZE.
Definition ACTIVE_STATE_B_OFFSET : Z := ACTIVE_STATE_A_OFFSET + ACTIVE_STATE_SIZE.
Definition ACTIVE_METADATA_END : Z := ACTIVE_METADATA_SIZE.

(** ** Files

    A file is its bytes. [File::set_len] cuts or zero-extends; [write_all_at]
    past the end zero-fills the gap. *)

Definition set_len (file : bytes) (n : Z) : bytes :=
  take (Z.to_nat n) file ++ zeros (n - zlen file).

Definition write_all_at (file : bytes) (offset : Z) (b : bytes) : bytes :=
  put (set_len file (Z.max (zlen file) (offset + zlen b))) offset b.

Definition try_u32 (v : Z) : result StoreError Z :=
  fail_if U32_MAX <? v with Range ;; Ok v.

(** ** SQLite page numbers and sizes *)

Definition page_count (size page_size : Z) : result StoreError Z :=
  if size =? 0 then Ok 0
  else
    fail_if negb (valid_page_size page_size) || negb (is_multiple_of size page_size)
      with InvalidPageSize page_size ;;
    try_u32 (size / page_size).

Definition parse_page_size (page : bytes) : option Z :=
  if (zlen page <? 16) || negb (bytes_eqb (slice page 0 16) SQLITE_MAGIC) then None
  else if zlen page <? 18 then None
  else
    let encoded := byte_at page 16 * 256 + byte_at page 17 in
    let size := if encoded =? 1 then 65536 else encoded in
    if valid_page_size size then Some size else None.

Section WithHashes.
Context `{Hashes}.

(** ** Metadata sectors *)

Definition read_active_header (file : bytes) : result StoreError ActiveHeader :=
  let* encoded := map_err (fun _ => NotZsqlite) (read_exact_at file 0 ACTIVE_HEADER_SIZE) in
  format (ActiveHeader_decode encoded).

Definition active_state_offset (sequence : Z) : Z :=
  if is_multiple_of sequence 2 then ACTIVE_STATE_B_OFFSET else ACTIVE_STATE_A_OFFSET.

(** One sector: [None] when it has never been written. *)
Definition read_state_sector (file : bytes) (database_id : Digest) (offset : Z)
    : result StoreError (option ActiveState) :=
  let* encoded := read_exact_at file offset ACTIVE_STATE_SIZE in
  if all_zero encoded then Ok None
  else
    let* state := map_err (fun _ => Corrupt offset) (ActiveState_decode encoded) in
    fail_if negb (bytes_eqb (as_database_id state) database_id) with IdentityMismatch ;;
    Ok (Some state).

(** [max_by_key] keeps the last of equal keys. *)
Definition newest_state (a b : option ActiveState) : option ActiveState :=
  match a, b with
  | Some x, Some y => if as_sequence x <=? as_sequence y then Some y else Some x
  | Some x, None => Some x
  | None, b => b
  end.

Definition read_active_state (file : bytes) (database_id : Digest) : result StoreError ActiveState :=
  let* a := read_state_sector file database_id ACTIVE_STATE_A_OFFSET in
  let* b := read_state_sector file database_id ACTIVE_STATE_B_OFFSET in
  let* newest := ok_or (newest_state a b) (Corrupt ACTIVE_STATE_A_OFFSET) in
  let empty := match a, b with Some _, Some _ => false | _, _ => true end in
  fail_if empty && negb (as_sequence newest =? 1) with Corrupt ACTIVE_STATE_A_OFFSET ;;
  Ok newest.

(** ** Page records *)

Definition raw_header (page_no page_size : Z) : FrameHeader :=
  mkFrameHeader page_no CodecRaw U16_MAX page_size page_size.

(** The loop of [load_active_records]: [n] more records from [cursor]. *)
Fixpoint scan_records (n : nat) (file : bytes) (page_size : Z) (records : gmap Z Z) (cursor : Z)
    : result StoreError (gmap Z Z * Z) :=
  match n with
  | O => Ok (records, cursor)
  | S n' =>
      let* encoded := read_exact_at file cursor FRAME_HEADER_SIZE in
      let* header := format (FrameHeader_decode encoded) in
      let* stop := range (checked_add cursor (record_len header)) in
      fail_if (zlen file <? stop)
              || negb (bool_decide (fh_codec header = CodecRaw))
              || negb (fh_dictionary_index header =? U16_MAX)
              || negb (fh_stored_len header =? page_size)
              || negb (fh_raw_len header =? page_size)
              || bool_decide (is_Some (records !! fh_page_no header)) with Corrupt cursor ;;
      scan_records n' file page_size (<[fh_page_no header := cursor]> records) stop
  end.

Definition load_active_records (file : bytes) (records_offset page_size record_count : Z)
    : result StoreError (gmap Z Z * Z) :=
  if page_size =? 0 then
    fail_if negb (record_count =? 0) with Corrupt records_offset ;;
    Ok (∅, records_offset)
  else scan_records (Z.to_nat record_count) file page_size ∅ records_offset.

(** The bytes of a record, and of a run of them. *)
Definition record_bytes (page_size : Z) (r : Z * bytes) : bytes :=
  FrameHeader_encode (raw_header r.1 page_size) ++ r.2.

Definition records_bytes (page_size : Z) (rs : list (Z * bytes)) : bytes :=
  concat (map (record_bytes page_size) rs).
End WithHashes.

(** ** Lemmas *)

Lemma put_mid {A} (p q r b : list A) a :
  a = zlen p -> zlen b = zlen q -> put (p ++ q ++ r) a b = p ++ b ++ r.
Proof.
  intros -> Hl. unfold put, zlen in *. rewrite Nat2Z.id, take_app_length, drop_app_length. f_equal.
  assert (length b = length q) as Hb by lia. clear Hl. revert q Hb.
  induction b as [|x b IH]; intros [|y q] Hb; try done. simpl. f_equal. apply IH.
  simpl in Hb. lia.
Qed.

Lemma set_len_same f n : n = zlen f -> set_len f n = f.
Proof.
  intros ->. unfold set_len, zlen. rewrite Nat2Z.id, take_ge, Z.sub_diag by lia. apply app_nil_r.
Qed.

Lemma set_len_grow f n : zlen f <= n -> set_len f n = f ++ zeros (n - zlen f).
Proof. intros. unfold set_len. rewrite take_ge; [done|]. unfold zlen in *. lia. Qed.

Lemma set_len_cut p q n : n = zlen p -> set_len (p ++ q) n = p.
Proof.
  intros ->. unfold set_len. rewrite zlen_app. pose proof (zlen_nonneg q). unfold zlen in *.
  rewrite Nat2Z.id, take_app_length. unfold zeros. replace (Z.to_nat _) with O by lia. apply app_nil_r.
Qed.

Lemma write_mid p q r b a :
  a = zlen p -> zlen b = zlen q -> write_all_at (p ++ q ++ r) a b = p ++ b ++ r.
Proof.
  intros -> Hl. unfold write_all_at. rewrite set_len_same; [by apply put_mid|].
  rewrite !zlen_app, Hl. pose proof (zlen_nonneg r). lia.
Qed.

Lemma zeros_app a b : 0 <= a -> 0 <= b -> zeros (a + b) = zeros a ++ zeros b.
Proof. intros. unfold zeros. by rewrite Z2Nat.inj_add, replicate_add by lia. Qed.

Lemma try_u32_Ok v x : try_u32 v = Ok x <-> x = v /\ v <= U32_MAX.
Proof. unfold try_u32. rewrite fail_if_Ok. split; [intros [? [= <-]]|intros [-> ?]]; split; (done || lia). Qed.

Lemma page_count_spec size ps n :
  0 <= size -> page_size_ok ps ->
  page_count size ps = Ok n <-> size = n * ps /\ 0 <= n <= U32_MAX.
Proof.
  intros Hs Hp. pose proof (page_size_ok_bounds _ Hp). unfold page_count. destruct (Z.eqb_spec size 0) as [->|Hne].
  - split; [intros [= <-]; split; [lia|]; unfold U32_MAX; lia|]. intros [Hn Hb]. f_equal. nia.
  - rewrite fail_if_Ok, orb_false_iff, !negb_false_iff, valid_page_size_spec, multiple_page_size, try_u32_Ok by done.
    split.
    + intros ((_ & Hm) & -> & Hb). split; [|split; [apply Z.div_pos; lia|done]].
      rewrite (Z.div_mod size ps) at 1 by lia. lia.
    + intros [-> Hn]. rewrite Z.mod_mul, Z.div_mul by lia. split_and!; (done || lia).
Qed.

Section ActiveLemmas.
Context {HH : Hashes} {HOK : HashesOk HH}.

Lemma raw_header_ok n ps : 1 <= n <= U32_MAX -> page_size_ok ps -> frame_header_ok (raw_header n ps).
Proof.
  intros Hn Hp. pose proof (page_size_ok_bounds _ Hp). pose proof (page_size_ok_div _ Hp).
  unfold page_number_ok, frame_header_ok, raw_header, MAX_FRAME_PAYLOAD, U16_MAX, is_u16 in *. cbn.
  split_and!; (done || lia).
Qed.

(** A record of the file: its page number and a whole page. *)
Definition rec_ok (ps : Z) (r : Z * bytes) : Prop := page_number_ok r.1 /\ zlen r.2 = ps.

Lemma zlen_record_bytes ps r : rec_ok ps r -> zlen (record_bytes ps r) = FRAME_HEADER_SIZE + ps.
Proof. intros [_ Hl]. unfold record_bytes. by rewrite zlen_app, zlen_FrameHeader_encode, Hl. Qed.

Lemma zlen_records_bytes ps rs :
  Forall (rec_ok ps) rs -> zlen (records_bytes ps rs) = zlen rs * (FRAME_HEADER_SIZE + ps).
Proof.
  induction 1 as [|r rs Hr Hrs IH]; [done|]. unfold records_bytes in *. cbn [map concat].
  rewrite zlen_app, zlen_cons, IH, zlen_record_bytes by done. lia.
Qed.

Lemma records_bytes_app ps a b : records_bytes ps (a ++ b) = records_bytes ps a ++ records_bytes ps b.
Proof. unfold records_bytes. by rewrite map_app, concat_app. Qed.

Lemma records_split ps rs i n p :
  rs !! i = Some (n, p) ->
  records_bytes ps rs = records_bytes ps (take i rs) ++ FrameHeader_encode (raw_header n ps) ++ p ++
                        records_bytes ps (drop (S i) rs).
Proof.
  intros Hi. rewrite <- (take_drop_middle rs i _ Hi) at 1. rewrite records_bytes_app.
  unfold records_bytes at 2. cbn [map concat]. unfold record_bytes at 1. by rewrite <- (assoc_L (++)).
Qed.

(** The offset of record [i]. *)
Definition rec_offset (ps : Z) (i : nat) : Z := ACTIVE_METADATA_END + Z.of_nat i * (FRAME_HEADER_SIZE + ps).

Lemma zlen_prefix ps meta rs i :
  zlen meta = ACTIVE_METADATA_END -> Forall (rec_ok ps) rs -> (i <= length rs)%nat ->
  zlen (meta ++ records_bytes ps (take i rs)) = rec_offset ps i.
Proof.
  intros Hm Hr Hi. rewrite zlen_app, zlen_records_bytes, Hm by (by apply Forall_take).
  unfold rec_offset, zlen. by rewrite length_take, Nat.min_l by lia.
Qed.

Lemma record_slices ps meta rs i n p :
  zlen meta = ACTIVE_METADATA_END -> Forall (rec_ok ps) rs -> rs !! i = Some (n, p) ->
  let f := meta ++ records_bytes ps rs in
  let o := rec_offset ps i in
  slice f o (o + FRAME_HEADER_SIZE) = FrameHeader_encode (raw_header n ps) /\
  slice f (o + FRAME_HEADER_SIZE) (o + FRAME_HEADER_SIZE + ps) = p /\
  o + FRAME_HEADER_SIZE + ps <= zlen f.
Proof.
  intros Hm Hr Hi f o. pose proof (lookup_lt_Some _ _ _ Hi).
  pose proof (zlen_prefix ps meta rs i Hm Hr ltac:(lia)) as Hp.
  destruct (Forall_lookup_1 _ _ _ _ Hr Hi) as [_ Hl]. cbn [snd] in Hl.
  unfold f. rewrite (records_split ps rs i n p Hi), (assoc_L (++) meta). split; [|split].
  - apply slice_mid; rewrite Hp; [done|]. by rewrite zlen_FrameHeader_encode.
  - rewrite (assoc_L (++) _ (FrameHeader_encode _)).
    apply slice_mid; rewrite zlen_app, Hp, zlen_FrameHeader_encode; [done|]. by rewrite Hl.
  - rewrite zlen_app, Hp, !zlen_app, zlen_FrameHeader_encode, Hl.
    pose proof (zlen_nonneg (records_bytes ps (drop (S i) rs))). unfold o. lia.
Qed.

Lemma record_overwrite ps meta rs i n p q :
  zlen meta = ACTIVE_METADATA_END -> Forall (rec_ok ps) rs -> rs !! i = Some (n, p) -> zlen q = ps ->
  write_all_at (meta ++ records_bytes ps rs) (rec_offset ps i + FRAME_HEADER_SIZE) q =
  meta ++ records_bytes ps (<[i := (n, q)]> rs).
Proof.
  intros Hm Hr Hi Hq. pose proof (lookup_lt_Some _ _ _ Hi).
  pose proof (zlen_prefix ps meta rs i Hm Hr ltac:(lia)) as Hp.
  destruct (Forall_lookup_1 _ _ _ _ Hr Hi) as [_ Hl]. cbn [snd] in Hl.
  assert (<[i := (n, q)]> rs !! i = Some (n, q)) as Hi' by (apply list_lookup_insert_eq; lia).
  rewrite (records_split ps rs i n p Hi), (records_split ps _ i n q Hi').
  rewrite take_insert_ge, drop_insert_lt by lia.
  rewrite !(assoc_L (++) meta), !(assoc_L (++) _ (FrameHeader_encode _)).
  apply write_mid; [|lia]. by rewrite zlen_app, Hp, zlen_FrameHeader_encode.
Qed.

Lemma record_append ps f n q :
  0 <= ps -> zlen q = ps ->
  let stop := zlen f + (FRAME_HEADER_SIZE + ps) in
  write_all_at (write_all_at (set_len f stop) (zlen f + FRAME_HEADER_SIZE) q) (zlen f)
    (FrameHeader_encode (raw_header n ps)) = f ++ record_bytes ps (n, q).
Proof.
  intros Hps Hq stop. unfold stop, FRAME_HEADER_SIZE. rewrite set_len_grow by lia.
  replace (zlen f + (24 + ps) - zlen f) with (24 + ps) by lia. rewrite zeros_app by lia.
  rewrite <- (app_nil_r (zeros ps)), (assoc_L (++) f).
  rewrite write_mid; [|by rewrite zlen_app|by rewrite zlen_zeros].
  rewrite app_nil_r, <- (assoc_L (++)).
  by rewrite write_mid by (done || by rewrite zlen_FrameHeader_encode).
Qed.

(** The map from page numbers to record offsets. *)
Definition indexes (ps : Z) (rs : list (Z * bytes)) (m : gmap Z Z) : Prop :=
  forall n o, m !! n = Some o <-> exists i p, rs !! i = Some (n, p) /\ o = rec_offset ps i.

Lemma rec_offset_lt ps i j : 0 <= ps -> rec_offset ps i < rec_offset ps j <-> (i < j)%nat.
Proof. intros. unfold rec_offset, FRAME_HEADER_SIZE. nia. Qed.

Lemma rec_offset_inj ps i j : 0 <= ps -> rec_offset ps i = rec_offset ps j -> i = j.
Proof. intros Hp. unfold rec_offset, FRAME_HEADER_SIZE. nia. Qed.

Lemma indexes_none ps rs m n : indexes ps rs m -> m !! n = None <-> n ∉ map fst rs.
Proof.
  intros Hm. rewrite eq_None_not_Some. split; intros Hn Hx; apply Hn.
  - apply list_elem_of_fmap in Hx as ([k p] & -> & Hin). apply list_elem_of_lookup in Hin as [i Hi].
    exists (rec_offset ps i). apply Hm. by exists i, p.
  - destruct Hx as [o (i & p & Hi & _)%Hm]. apply list_elem_of_fmap. exists (n, p). split; [done|].
    apply list_elem_of_lookup. by exists i.
Qed.

Lemma indexes_insert ps rs m i n p q :
  indexes ps rs m -> rs !! i = Some (n, p) -> indexes ps (<[i := (n, q)]> rs) m.
Proof.
  intros Hm Hi k o. rewrite (Hm k o). pose proof (lookup_lt_Some _ _ _ Hi). split; intros (j & x & Hj & ->).
  - destruct (decide (i = j)) as [<-|Hne].
    + exists i, q. rewrite list_lookup_insert_eq by lia. rewrite Hi in Hj. by injection Hj as -> ->.
    + exists j, x. by rewrite list_lookup_insert_ne by done.
  - destruct (decide (i = j)) as [<-|Hne].
    + rewrite list_lookup_insert_eq in Hj by lia. injection Hj as -> ->. by exists i, p.
    + rewrite list_lookup_insert_ne in Hj by done. by exists j, x.
Qed.

Lemma indexes_append ps rs m n q :
  indexes ps rs m -> n ∉ map fst rs ->
  indexes ps (rs ++ [(n, q)]) (<[n := rec_offset ps (length rs)]> m).
Proof.
  intros Hm Hn k o. destruct (decide (n = k)) as [<-|Hne].
  - rewrite lookup_insert, decide_True by done. split.
    + intros [= <-]. exists (length rs), q. split; [|done]. by apply list_lookup_middle.
    + intros (i & p & Hi & ->). apply lookup_app_Some in Hi as [Hi|[Hle Hi]].
      * destruct Hn. apply list_elem_of_fmap. exists (n, p). split; [done|]. apply list_elem_of_lookup. by exists i.
      * destruct (i - length rs)%nat eqn:E; [|done]. by replace i with (length rs) by lia.
  - rewrite lookup_insert_ne by done. rewrite (Hm k o). split; intros (i & p & Hi & ->).
    + exists i, p. split; [|done]. by apply lookup_app_l_Some.
    + exists i, p. split; [|done]. apply lookup_app_Some in Hi as [Hi|[Hle Hi]]; [done|].
      destruct (i - length rs)%nat; [by injection Hi as -> ->|done].
Qed.

Lemma indexes_take ps rs m k :
  0 <= ps -> indexes ps rs m ->
  indexes ps (take k rs) (filter (fun p => p.2 < rec_offset ps k) m).
Proof.
  intros Hp Hm n o. rewrite map_lookup_filter_Some, (Hm n o). cbn [snd]. split.
  - intros [(i & p & Hi & ->) Hlt]. apply rec_offset_lt in Hlt; [|done]. exists i, p.
    by rewrite lookup_take_lt by done.
  - intros (i & p & Hi & ->). apply lookup_take_Some in Hi as [Hi Hlt]. split; [by exists i, p|].
    by apply rec_offset_lt.
Qed.

(** *** Opening a file *)

Lemma take_S_middle {A} (l : list A) i x : l !! i = Some x -> take (S i) l = take i l ++ [x].
Proof. intros Hi. by apply take_S_r. Qed.

Lemma scan_run ps meta rs tail n i m :
  page_size_ok ps -> zlen meta = ACTIVE_METADATA_END -> Forall (rec_ok ps) rs -> NoDup (map fst rs) ->
  zlen (meta ++ records_bytes ps rs ++ tail) <= U64_MAX ->
  (i + n = length rs)%nat -> indexes ps (take i rs) m ->
  exists m', scan_records n (meta ++ records_bytes ps rs ++ tail) ps m (rec_offset ps i) =
    Ok (m', rec_offset ps (length rs)) /\ indexes ps rs m'.
Proof.
  intros Hps Hm Hr Hnd Hmax. pose proof (page_size_ok_bounds _ Hps) as Hb.
  rewrite (assoc_L (++)) in Hmax |- *.
  revert i m; induction n as [|n IH]; intros i m Hi Hidx; cbn [scan_records].
  { assert (i = length rs) as -> by lia. exists m. split; [done|]. by rewrite take_ge in Hidx by lia. }
  destruct (lookup_lt_is_Some_2 rs i) as [[k p] Hk]; [lia|].
  destruct (record_slices ps meta rs i k p Hm Hr Hk) as (S1 & _ & S3).
  destruct (Forall_lookup_1 _ _ _ _ Hr Hk) as [Hkn Hl]. cbn [fst snd] in *.
  pose proof (zlen_nonneg tail) as Ht.
  set (f := (meta ++ records_bytes ps rs) ++ tail) in *.
  assert (zlen f = zlen (meta ++ records_bytes ps rs) + zlen tail) as Hf by (unfold f; by rewrite zlen_app).
  unfold FRAME_HEADER_SIZE in *. assert (0 <= rec_offset ps i) as H0.
  { unfold rec_offset, ACTIVE_METADATA_END, ACTIVE_METADATA_SIZE, ACTIVE_HEADER_SIZE, ACTIVE_STATE_SIZE, SECTOR_SIZE, FRAME_HEADER_SIZE. nia. }
  assert (slice f (rec_offset ps i) (rec_offset ps i + 24) = FrameHeader_encode (raw_header k ps)) as HS.
  { rewrite <- S1. unfold f, slice. rewrite drop_app_le by (unfold zlen in *; lia).
    apply take_app_le. rewrite length_drop. unfold zlen in *. lia. }
  unfold read_exact_at. rewrite (proj2 (Z.ltb_ge _ _)) by lia. cbn [rbind]. rewrite HS.
  rewrite frame_header_roundtrip_lemma by (apply raw_header_ok; [unfold page_number_ok in Hkn; lia|done]). cbn [format map_err rbind].
  unfold record_len, FRAME_HEADER_SIZE. cbn [raw_header fh_stored_len fh_codec fh_dictionary_index fh_raw_len fh_page_no].
  assert (rec_offset ps i + (24 + ps) = rec_offset ps (S i)) as Hnext
    by (unfold rec_offset, FRAME_HEADER_SIZE; lia).
  assert (checked_add (rec_offset ps i) (24 + ps) = Some (rec_offset ps (S i))) as ->
    by (apply checked_add_Some; lia). cbn [range ok_or rbind].
  assert (k ∉ map fst (take i rs)) as Hfresh.
  { intros Hin. rewrite <- (take_drop_middle rs i _ Hk), map_app in Hnd. apply NoDup_app in Hnd as (_ & Hd & _).
    apply (Hd k Hin). cbn. by left. }
  assert (m !! k = None) as Hnone by (by apply (indexes_none ps (take i rs))).
  rewrite (proj2 (Z.ltb_ge _ _)) by lia. rewrite !Z.eqb_refl, Hnone. cbn [negb orb].
  rewrite bool_decide_true, bool_decide_false by (done || by intros [? ?]). cbn [negb orb].
  apply IH; [lia|]. rewrite (take_S_middle _ _ _ Hk).
  replace (rec_offset ps i) with (rec_offset ps (length (take i rs))) by (rewrite length_take, Nat.min_l; [done|lia]).
  by apply indexes_append.
Qed.

Lemma load_records_lemma ps meta rs tail :
  page_size_ok ps -> zlen meta = ACTIVE_METADATA_END -> Forall (rec_ok ps) rs -> NoDup (map fst rs) ->
  zlen (meta ++ records_bytes ps rs ++ tail) <= U64_MAX ->
  exists m, load_active_records (meta ++ records_bytes ps rs ++ tail) ACTIVE_METADATA_END ps (zlen rs) =
    Ok (m, rec_offset ps (length rs)) /\ indexes ps rs m.
Proof.
  intros Hps Hm Hr Hnd Hmax. pose proof (page_size_ok_bounds _ Hps). unfold load_active_records.
  rewrite (proj2 (Z.eqb_neq ps 0)) by lia.
  replace (Z.to_nat (zlen rs)) with (length rs) by (unfold zlen; lia).
  replace ACTIVE_METADATA_END with (rec_offset ps 0) at 1 by (unfold rec_offset; lia).
  apply (scan_run ps meta rs tail (length rs) 0 ∅); try done.
  intros n o. rewrite lookup_empty. split; [done|]. by intros (i & p & Hi & _).
Qed.

(** A record as the scan sees it: any page number a [u32] can hold. *)
Definition rec_wf (ps : Z) (r : Z * bytes) : Prop := 1 <= r.1 <= U32_MAX /\ zlen r.2 = ps.

(** Whatever the scan accepts is a run of well-formed raw records of distinct pages. *)
Lemma scan_sound ps f n : forall m cursor m' stop,
  page_size_ok ps -> is_bytes f -> 0 <= cursor ->
  scan_records n f ps m cursor = Ok (m', stop) ->
  exists rs, length rs = n /\ Forall (rec_wf ps) rs /\ NoDup (map fst rs) /\
    (forall k, k ∈ map fst rs -> m !! k = None) /\
    slice f cursor stop = records_bytes ps rs /\ cursor <= stop /\ (n <> O -> stop <= zlen f) /\
    stop = cursor + Z.of_nat n * (FRAME_HEADER_SIZE + ps) /\
    (forall k o, m' !! k = Some o <-> m !! k = Some o \/
       exists i p, rs !! i = Some (k, p) /\ o = cursor + Z.of_nat i * (FRAME_HEADER_SIZE + ps)).
Proof.
  induction n as [|n IH]; intros m cursor m' stop Hps Hb H0 E; cbn [scan_records] in E.
  { injection E as <- <-. exists []. split_and!; try done; try lia.
    - apply NoDup_nil_2.
    - intros k Hk. by apply elem_of_nil in Hk.
    - by rewrite slice_nil_ge by lia.
    - intros k o. split; [by left|]. intros [?|(i & p & Hi & _)]; done. }
  pose proof (page_size_ok_bounds _ Hps) as Hpb.
  inv_ok. unfold read_exact_at in Hok. inv_ok. bools. subst a.
  apply map_err_Ok in Hok0.
  apply FrameHeader_decode_sound_lemma in Hok0 as [Hh Henc];
    [|auto with bytedb|rewrite zlen_slice; unfold FRAME_HEADER_SIZE in *; lia].
  unfold range in Hok1. apply ok_or_Ok, checked_add_Some in Hok1 as [-> Hle].
  repeat match goal with X : _ || _ = false |- _ => apply orb_false_iff in X as [X ?] end. bools.
  destruct a0 as [k c d sl rl]. unfold record_len, FRAME_HEADER_SIZE in *.
  cbn [fh_page_no fh_codec fh_dictionary_index fh_stored_len fh_raw_len] in *.
  assert (sl = ps /\ rl = ps /\ d = U16_MAX) as (-> & -> & ->) by lia. subst.
  destruct Hh as (Hk & _ & _ & _ & Hst & _). cbn [fh_page_no fh_stored_len fh_raw_len] in *.
  apply IH in E as (rs & L & R & N & F & S & C & T & St & Hmap); [|done|done|lia].
  assert (forall n : nat, Z.of_nat (Datatypes.S n) = Z.of_nat n + 1) as HS by lia.
  set (page := slice f (cursor + 24) (cursor + (24 + ps))).
  exists ((k, page) :: rs). cbn [length map fst].
  assert (zlen page = ps) as Hpl by (unfold page; rewrite zlen_slice; lia).
  assert (m !! k = None) as Hmk.
  { destruct (m !! k) eqn:Ek; [|done].
    match goal with X : bool_decide (is_Some _) = false |- _ => apply bool_decide_eq_false in X; by destruct X end
    || (exfalso; match goal with X : ~ is_Some _ |- _ => by apply X end). }
  split_and!; try done; try lia.
  - constructor; [split; [done|done]|done].
  - apply NoDup_cons. split; [|done]. intros Hin%F. by rewrite lookup_insert, decide_True in Hin.
  - intros j [->|Hj]%elem_of_cons; [done|]. apply F in Hj. apply lookup_insert_None in Hj. by destruct Hj.
  - rewrite (slice_app_split f cursor (cursor + (24 + ps)) stop) by lia.
    rewrite (slice_app_split f cursor (cursor + 24) (cursor + (24 + ps))) by lia.
    rewrite S. unfold records_bytes. cbn [map concat]. f_equal. unfold record_bytes. cbn [fst snd].
    f_equal. rewrite <- Henc. done.
  - intros j o. rewrite Hmap. destruct (decide (k = j)) as [<-|Hne].
    + rewrite lookup_insert, decide_True by done. split.
      * intros [[= <-]|(i & p & Hi & ->)]; right.
        -- exists O, page. split; [done|lia].
        -- exists (Datatypes.S i), p. split; [done|lia].
      * intros [?|([|i] & p & Hi & ->)]; [congruence|left; f_equal; lia|].
        right. exists i, p. split; [done|lia].
    + rewrite lookup_insert_ne by done. split; (intros [?|(i & p & Hi & ->)]; [by left|right]).
      * exists (Datatypes.S i), p. split; [done|lia].
      * destruct i as [|i]; [by injection Hi as ? ?|]. exists i, p. split; [done|lia].
Qed.


(** Opening an active file rebuilds its record index exactly: what the scan
    accepts is the declared number of whole raw records of distinct pages laid end
    to end after the metadata sectors, the index maps each page to its record's
    offset and nothing else, and the reported end is that of the last record; and
    every such run of records is accepted. *)
Theorem active_record_scan_exact ps f count :
  page_size_ok ps -> is_bytes f -> ACTIVE_METADATA_END <= zlen f <= U64_MAX -> 0 <= count ->
  (forall m stop, load_active_records f ACTIVE_METADATA_END ps count = Ok (m, stop) ->
     exists rs, zlen rs = count /\ Forall (rec_wf ps) rs /\ NoDup (map fst rs) /\
       slice f ACTIVE_METADATA_END stop = records_bytes ps rs /\
       stop = rec_offset ps (length rs) /\ stop <= zlen f /\ indexes ps rs m) /\
  (forall rs, zlen rs = count -> Forall (rec_ok ps) rs -> NoDup (map fst rs) ->
     rec_offset ps (length rs) <= zlen f ->
     slice f ACTIVE_METADATA_END (rec_offset ps (length rs)) = records_bytes ps rs ->
     exists m, load_active_records f ACTIVE_METADATA_END ps count = Ok (m, rec_offset ps (length rs)) /\
       indexes ps rs m).
Proof.
  intros Hps Hb Hl Hc. pose proof (page_size_ok_bounds _ Hps) as Hpb.
  assert (0 <= ACTIVE_METADATA_END) as H0 by done. split.
  - intros m stop E. unfold load_active_records in E. rewrite (proj2 (Z.eqb_neq ps 0)) in E by lia.
    apply scan_sound in E as (rs & L & R & N & _ & S & C & T & St & Hmap); [|done..].
    exists rs. split_and!; try done.
    + unfold zlen. lia.
    + rewrite St, <- L. done.
    + destruct (Z.to_nat count) eqn:En; [lia|]. by apply T.
    + intros k o. rewrite Hmap, lookup_empty. unfold rec_offset. split; [intros [?|?]; done|by right].
  - intros rs <- Hr Hn Hlen Hs.
    assert (ACTIVE_METADATA_END <= rec_offset ps (length rs)) as Ho by (unfold rec_offset, FRAME_HEADER_SIZE; lia).
    destruct (load_records_lemma ps (slice f 0 ACTIVE_METADATA_END) rs
      (slice f (rec_offset ps (length rs)) (zlen f))) as (m & E & Hi); try done.
    + rewrite zlen_slice by lia. lia.
    + rewrite <- Hs, <- !slice_app_split by lia. rewrite slice_all; lia || done.
    + rewrite <- Hs, <- !slice_app_split in E by lia. rewrite slice_all in E by done. by exists m.
Qed.

(** A sector that holds a state of the database. *)
Definition sector_state (file : bytes) (database : Digest) (offset : Z) (s : ActiveState) : Prop :=
  active_state_ok s /\ as_database_id s = database /\
  slice file offset (offset + ACTIVE_STATE_SIZE) = ActiveState_encode s.

Definition sector_blank (file : bytes) (offset : Z) : Prop :=
  slice file offset (offset + ACTIVE_STATE_SIZE) = zeros ACTIVE_STATE_SIZE.

Lemma read_state_sector_spec file database offset r :
  is_bytes file -> 0 <= offset -> offset + ACTIVE_STATE_SIZE <= zlen file ->
  read_state_sector file database offset = Ok r <->
  match r with
  | None => sector_blank file offset
  | Some s => sector_state file database offset s
  end.
Proof.
  intros Hb Ho Hl. unfold read_state_sector, read_exact_at, sector_state, sector_blank.
  rewrite (proj2 (Z.ltb_ge _ _)) by lia. cbn [rbind].
  set (e := slice file offset (offset + ACTIVE_STATE_SIZE)).
  assert (0 <= ACTIVE_STATE_SIZE) as Hs0 by done.
  assert (zlen e = ACTIVE_STATE_SIZE) as Hel by (unfold e; rewrite zlen_slice; lia).
  assert (is_bytes e) as Heb by (unfold e; auto with bytedb).
  destruct (all_zero e) eqn:Ez.
  - apply all_zero_spec in Ez. rewrite Hel in Ez. split; [by intros [= <-]|].
    destruct r as [s|]; [|done]. intros (Hok & _ & He). exfalso.
    pose proof (active_state_roundtrip_lemma s Hok) as Hd. rewrite <- He, Ez in Hd.
    unfold ActiveState_decode, check_sector in Hd.
    rewrite (slice_zeros ACTIVE_STATE_SIZE 0 8) in Hd by (unfold ACTIVE_STATE_SIZE, SECTOR_SIZE; lia). done.
  - assert (e <> zeros ACTIVE_STATE_SIZE) as Hnz.
    { intros E. rewrite E in Ez. by rewrite all_zero_zeros in Ez. }
    rewrite rbind_Ok. split.
    + intros (s & Hd & E). apply map_err_Ok in Hd. inv_ok. bools. apply bytes_eqb_true in Hguard. subst r.
      apply active_state_canonical_lemma in Hd as [Hok He]; [|done|done]. by rewrite <- He.
    + destruct r as [s|]; [|done]. intros (Hok & Hid & He). exists s. split.
      * apply map_err_Ok. rewrite He. by apply active_state_roundtrip_lemma.
      * by rewrite Hid, bytes_eqb_refl.
Qed.

(** C23. Which publication an opened file shows: the state read is that of the
    higher sequence number when both sectors hold a valid state of the database, and
    the only one when the other sector was never written and its sequence is 1; in
    every other case, a torn or foreign sector included, opening fails closed. *)
Theorem newest_state_sector_wins file database s :
  is_bytes file -> ACTIVE_METADATA_END <= zlen file ->
  read_active_state file database = Ok s <->
  (exists a b, sector_state file database ACTIVE_STATE_A_OFFSET a /\
     sector_state file database ACTIVE_STATE_B_OFFSET b /\
     s = if as_sequence a <=? as_sequence b then b else a) \/
  (sector_state file database ACTIVE_STATE_A_OFFSET s /\ sector_blank file ACTIVE_STATE_B_OFFSET /\
     as_sequence s = 1) \/
  (sector_blank file ACTIVE_STATE_A_OFFSET /\ sector_state file database ACTIVE_STATE_B_OFFSET s /\
     as_sequence s = 1).
Proof.
  intros Hb Hl. unfold read_active_state.
  unfold ACTIVE_METADATA_END, ACTIVE_METADATA_SIZE, ACTIVE_STATE_B_OFFSET, ACTIVE_STATE_A_OFFSET,
    ACTIVE_HEADER_SIZE, ACTIVE_STATE_SIZE, SECTOR_SIZE in *.
  pose proof (fun r => read_state_sector_spec file database 4096 r Hb) as HA.
  pose proof (fun r => read_state_sector_spec file database (4096 + 4096) r Hb) as HB.
  unfold ACTIVE_STATE_SIZE, SECTOR_SIZE in HA, HB.
  split.
  - intros E. inv_ok. apply HA in Hok; [|lia|lia]. apply HB in Hok0; [|lia|lia]. subst a1.
    destruct a as [a|], a0 as [b|]; cbn [newest_state] in *; try done.
    + left. exists a, b. split_and!; try done. destruct (_ <=? _); by simplify_eq.
    + right; left. simplify_eq. cbn [andb] in *. bools. split_and!; try done. lia.
    + right; right. simplify_eq. cbn [andb] in *. bools. split_and!; try done. lia.
  - intros [(a & b & Ha & Hb' & ->)|[(Ha & Hb' & Hs)|(Ha & Hb' & Hs)]].
    + rewrite (proj2 (HA (Some a) ltac:(lia) ltac:(lia)) Ha). cbn [rbind].
      rewrite (proj2 (HB (Some b) ltac:(lia) ltac:(lia)) Hb'). cbn [rbind newest_state].
      by destruct (_ <=? _).
    + rewrite (proj2 (HA (Some s) ltac:(lia) ltac:(lia)) Ha). cbn [rbind].
      rewrite (proj2 (HB None ltac:(lia) ltac:(lia)) Hb'). cbn [rbind newest_state ok_or].
      by rewrite Hs.
    + rewrite (proj2 (HA None ltac:(lia) ltac:(lia)) Ha). cbn [rbind].
      rewrite (proj2 (HB (Some s) ltac:(lia) ltac:(lia)) Hb'). cbn [rbind newest_state ok_or].
      by rewrite Hs.
Qed.
End ActiveLemmas.

(** ** Witnesses *)

(** A page of one repeated byte; a file with both sectors written and two records. *)
Definition demo_page_of (b : Z) : bytes := replicate 512 b.
Definition demo_records : list (Z * bytes) := [(3, demo_page_of 7); (1, demo_page_of 9)].
Definition demo_older : ActiveState := {|
  as_database_id := demo_digest 2;
  as_sequence := 2;
  as_txid := 1;
  as_logical_size := 1024;
  as_page_size := 512;
  as_history := @genesis_history demo_hashes;
  as_commit_unix := 6;
  as_first_commit_unix := 5;
  as_record_count := 1;
  as_truncate_pages := None;
|}.
Definition demo_active_file : bytes :=
  @ActiveHeader_encode demo_hashes demo_header ++ @ActiveState_encode demo_hashes demo_state ++
  @ActiveState_encode demo_hashes demo_older ++ @records_bytes demo_hashes 512 demo_records.

Lemma demo_older_ok : active_state_ok demo_older.
Proof.
  unfold active_state_ok, demo_older, U64_MAX, is_u64; cbn -[genesis_history].
  split_and!; try done; try lia; try (apply demo_digest_ok; unfold is_u8; lia).
  - split; apply demo_hashes_ok.
  - right. split; [apply page_size_512|done].
Qed.

Lemma active_record_scan_exact_witness :
  exists m, @load_active_records demo_hashes demo_active_file ACTIVE_METADATA_END 512 2 =
    Ok (m, zlen demo_active_file) /\ m !! 3 = Some 12288.
Proof.
  destruct (@active_record_scan_exact demo_hashes demo_hashes_ok 512 demo_active_file 2) as [_ Hrun].
  - apply page_size_512.
  - apply bytes_check_ok. vm_compute. reflexivity.
  - split; vm_compute; discriminate.
  - lia.
  - destruct (Hrun demo_records) as (m & E & Hi).
    + reflexivity.
    + repeat (apply Forall_cons; split; [split; [unfold page_number_ok, U32_MAX; cbn; lia|reflexivity]|]).
      constructor.
    + apply (bool_decide_unpack _). vm_compute. exact I.
    + vm_compute. discriminate.
    + vm_compute. reflexivity.
    + exists m. split; [exact E|]. apply Hi. exists 0%nat, (demo_page_of 7). split; reflexivity.
Defined.

Lemma newest_state_sector_wins_witness :
  @read_active_state demo_hashes demo_active_file (demo_digest 2) = Ok demo_state.
Proof.
  apply (@newest_state_sector_wins demo_hashes demo_hashes_ok demo_active_file (demo_digest 2) demo_state).
  - apply bytes_check_ok. vm_compute. reflexivity.
  - vm_compute. discriminate.
  - left. exists demo_state, demo_older. split; [|split; [|reflexivity]].
    + split; [apply demo_state_ok|]. split; [reflexivity|]. vm_compute. reflexivity.
    + split; [apply demo_older_ok|]. split; [reflexivity|]. vm_compute. reflexivity.
Defined.
