(* ===== verification/Store.v ===== *)
(** The page store (src/src/store.rs): reads, writes, truncation, publication,
    rollback and reload of a database over its active file and sealed base.

    Every operation is a computation of [sm]: it returns a result and the store
    it leaves behind, on the error paths too. A read of a sealed page is
    [view_read]: the page cache in front of the view (Cache.v) is transparent,
    which CacheProofs.v proves, and the read counters change no byte. *)

From S2P Require Import Prelude Domain Layout Format Segment Active.
From stdpp Require Import base strings gmap list sorting.
From Stdlib Require Import ZArith Lia.
Open Scope Z_scope.

(** ** Stateful fallible code: [&mut self] methods that return [Result] *)

Definition sm (S A : Type) : Type := S -> result StoreError A * S.

Definition sret {S A} (a : A) : sm S A := fun s => (Ok a, s).
Definition serr {S A} (e : StoreError) : sm S A := fun s => (Err e, s).
Definition sbind {S A B} (m : sm S A) (k : A -> sm S B) : sm S B :=
  fun s => match m s with
           | (Ok a, s') => k a s'
           | (Err e, s') => (Err e, s')
           end.
Definition slift {S A} (c : result StoreError A) : sm S A := fun s => (c, s).
Definition sget {S} : sm S S := fun s => (Ok s, s).
Definition smod {S} (f : S -> S) : sm S unit := fun s => (Ok tt, f s).

Declare Scope sm_scope.
Delimit Scope sm_scope with sm.
Open Scope sm_scope.
Notation "'let!' x ':=' m 'in' k" := (sbind m (fun x => k))
  (at level 10, x pattern, m at level 200, k at level 200,
   format "'[v' 'let!'  x  ':='  m  'in' '/' k ']'") : sm_scope.
Notation "'sfail_if' b 'with' e ;; k" := (if b then serr e else k)
  (at level 10, b at level 200, e at level 99, k at level 200,
   format "'[v' 'sfail_if'  b  'with'  e  ;; '/' k ']'") : sm_scope.

Fixpoint sfold {S A} (f : A -> sm S unit) (l : list A) : sm S unit :=
  match l with
  | [] => sret tt
  | a :: l' => let! _ := f a in sfold f l'
  end.

(** ** The sealed base *)

(** What the store asks of a pinned immutable view. *)
Class SealedView (V : Type) := {
  view_id : V -> Digest;
  view_database : V -> Digest;
  view_size : V -> LogicalBytes;
  view_txid : V -> Z;
  view_history : V -> Digest;
  view_read : V -> Z -> result StoreError bytes;
}.

(** ** State *)

Record HeadState : Type := mkHeadState {
  hd_page_size : Z;
  hd_logical_size : Z;
  hd_txid : Z;
  hd_history : Digest;
  hd_active_commit_offset : Z;
  hd_active_commit_end : Z;
  hd_oldest_dirty_unix : Z;
  hd_last_dirty_unix : Z;
}.

Record ActiveFile : Type := mkActiveFile {
  af_file : bytes;
  af_header : ActiveHeader;
  af_state_sequence : Z;
  af_records : gmap Z Z;
  af_truncate_pages : option Z;
}.

(** [PublicationOwner]: who holds the publication lock. *)
Inductive PublicationPhase : Set := Unlocked | Transaction | Checkpoint | Maintenance.

#[export] Instance PublicationPhase_eq_dec : EqDecision PublicationPhase.
Proof. solve_decision. Defined.

Record Store (V : Type) : Type := mkStore {
  st_writable : bool;
  st_owner : PublicationPhase;
  st_head : HeadState;
  st_view : option V;
  st_layout : LayoutPolicy;
  st_active : ActiveFile;
  st_source : option bytes;
  st_raw_pages : gset Z;
  st_originals : gmap Z bytes;
  st_pending_size : Z;
  st_pending_truncate : option Z;
  st_pending_dirty : bool;
  st_bootstrap : option bytes;
}.
Arguments mkStore {V}.
Arguments st_writable {V}. Arguments st_owner {V}. Arguments st_head {V}. Arguments st_view {V}.
Arguments st_layout {V}. Arguments st_active {V}. Arguments st_source {V}. Arguments st_raw_pages {V}.
Arguments st_originals {V}. Arguments st_pending_size {V}. Arguments st_pending_truncate {V}.
Arguments st_pending_dirty {V}. Arguments st_bootstrap {V}.

(** What the outside world answers during one call: the publication lock, the
    file now at the database path and the clock, the outcome of each sync, and
    the catalogue (validation of an attachment with its seal recovery, pinning of
    a base manifest, the retirement of a converted source). *)
Record Env (V : Type) : Type := mkEnv {
  env_lock_free : bool;
  env_path_file : bytes;
  env_inode_changed : bool;
  env_source_file : option bytes;
  env_now : Z;
  env_data_sync : bool;
  env_state_sync : bool;
  env_attach : bool -> ActiveHeader -> result StoreError unit;
  env_pin : Digest -> result StoreError V;
  env_retire : ActiveHeader -> result StoreError unit;
}.
Arguments env_lock_free {V}. Arguments env_path_file {V}. Arguments env_inode_changed {V}.
Arguments env_source_file {V}. Arguments env_now {V}. Arguments env_data_sync {V}.
Arguments env_state_sync {V}. Arguments env_attach {V}. Arguments env_pin {V}.
Arguments env_retire {V}. Arguments mkEnv {V}.

Section Operations.
Context {HS : Hashes} {V : Type} {VV : SealedView V}.

Abbreviation Store := (Store V).
Abbreviation Env := (Env V).

Definition set_owner (o : PublicationPhase) (s : Store) : Store :=
  mkStore (st_writable s) o (st_head s) (st_view s) (st_layout s) (st_active s) (st_source s)
    (st_raw_pages s) (st_originals s) (st_pending_size s) (st_pending_truncate s)
    (st_pending_dirty s) (st_bootstrap s).
Definition set_head (h : HeadState) (s : Store) : Store :=
  mkStore (st_writable s) (st_owner s) h (st_view s) (st_layout s) (st_active s) (st_source s)
    (st_raw_pages s) (st_originals s) (st_pending_size s) (st_pending_truncate s)
    (st_pending_dirty s) (st_bootstrap s).
Definition set_active (a : ActiveFile) (s : Store) : Store :=
  mkStore (st_writable s) (st_owner s) (st_head s) (st_view s) (st_layout s) a (st_source s)
    (st_raw_pages s) (st_originals s) (st_pending_size s) (st_pending_truncate s)
    (st_pending_dirty s) (st_bootstrap s).
Definition set_pending (raw : gset Z) (originals : gmap Z bytes) (size : Z) (truncate : option Z)
    (dirty : bool) (bootstrap : option bytes) (s : Store) : Store :=
  mkStore (st_writable s) (st_owner s) (st_head s) (st_view s) (st_layout s) (st_active s)
    (st_source s) raw originals size truncate dirty bootstrap.

(** Field updates of the pending part. *)
Definition set_raw_pages (raw : gset Z) (s : Store) : Store :=
  set_pending raw (st_originals s) (st_pending_size s) (st_pending_truncate s) (st_pending_dirty s)
    (st_bootstrap s) s.
Definition set_originals (o : gmap Z bytes) (s : Store) : Store :=
  set_pending (st_raw_pages s) o (st_pending_size s) (st_pending_truncate s) (st_pending_dirty s)
    (st_bootstrap s) s.
Definition set_pending_size (size : Z) (s : Store) : Store :=
  set_pending (st_raw_pages s) (st_originals s) size (st_pending_truncate s) true
    (st_bootstrap s) s.
Definition set_truncate (t : option Z) (s : Store) : Store :=
  set_pending (st_raw_pages s) (st_originals s) (st_pending_size s) t (st_pending_dirty s)
    (st_bootstrap s) s.
Definition set_bootstrap (b : option bytes) (s : Store) : Store :=
  set_pending (st_raw_pages s) (st_originals s) (st_pending_size s) (st_pending_truncate s)
    (st_pending_dirty s) b s.
Definition set_file (f : bytes) (s : Store) : Store :=
  let a := st_active s in
  set_active (mkActiveFile f (af_header a) (af_state_sequence a) (af_records a)
                (af_truncate_pages a)) s.
Definition set_records (r : gmap Z Z) (s : Store) : Store :=
  let a := st_active s in
  set_active (mkActiveFile (af_file a) (af_header a) (af_state_sequence a) r
                (af_truncate_pages a)) s.
Definition set_page_size (p : Z) (s : Store) : Store :=
  let h := st_head s in
  set_head (mkHeadState p (hd_logical_size h) (hd_txid h) (hd_history h) (hd_active_commit_offset h)
              (hd_active_commit_end h) (hd_oldest_dirty_unix h) (hd_last_dirty_unix h)) s.

Definition page_size (s : Store) : Z := hd_page_size (st_head s).
Definition file (s : Store) : bytes := af_file (st_active s).
Definition records (s : Store) : gmap Z Z := af_records (st_active s).
Definition commit_end (s : Store) : Z := hd_active_commit_end (st_head s).

(** [is_some_and(|last| page_no > last)] *)
Definition beyond (page_no : Z) (t : option Z) : bool :=
  match t with Some last => last <? page_no | None => false end.

(** ** Publication lock *)

Definition is_locked (s : Store) : bool := negb (bool_decide (st_owner s = Unlocked)).

(** [PublicationOwner::transition] *)
Definition transition (phase : PublicationPhase) (s : Store) : Store :=
  if is_locked s then set_owner phase s else s.

Definition release_publication (s : Store) : Store :=
  if bool_decide (st_owner s = Transaction) then set_owner Unlocked s else s.

Definition has_pending (s : Store) : bool :=
  st_pending_dirty s || negb (bool_decide (st_raw_pages s = ∅))
  || negb (bool_decide (st_originals s = ∅)) || bool_decide (is_Some (st_bootstrap s)).

(** ** Reading pages *)

Definition active_record_offset (s : Store) (page_no : Z) : result StoreError Z :=
  ok_or (records s !! page_no) Range.

Definition active_frame_header (s : Store) (page_no : Z) : FrameHeader :=
  raw_header page_no (page_size s).

Definition read_mutable_page (s : Store) (page_no : Z) : result StoreError bytes :=
  let* offset := active_record_offset s page_no in
  let* encoded := read_exact_at (file s) offset FRAME_HEADER_SIZE in
  let* header := format (FrameHeader_decode encoded) in
  fail_if negb (fh_page_no header =? page_no)
          || negb (bool_decide (fh_codec header = CodecRaw))
          || negb (fh_dictionary_index header =? U16_MAX)
          || negb (fh_stored_len header =? page_size s)
          || negb (fh_raw_len header =? page_size s) with Corrupt offset ;;
  read_exact_at (file s) (offset + FRAME_HEADER_SIZE) (page_size s).

Inductive LocalRead : Type := Zero (size : Z) | Raw (b : bytes).

Definition into_bytes (l : LocalRead) : bytes :=
  match l with Zero size => zeros size | Raw b => b end.

Definition read_local_page (s : Store) (page_no : Z) : result StoreError (option LocalRead) :=
  let* size := value (PageSize_new (page_size s)) in
  if beyond page_no (st_pending_truncate s) && negb (bool_decide (page_no ∈ st_raw_pages s))
  then Ok (Some (Zero size))
  else if bool_decide (is_Some (records s !! page_no))
  then rmap (fun b => Some (Raw b)) (read_mutable_page s page_no)
  else if beyond page_no (af_truncate_pages (st_active s))
  then Ok (Some (Zero size))
  else
    match st_view s with
    | None =>
        match st_source s with
        | Some source =>
            let offset := (page_no - 1) * size in
            if offset <? ah_source_bytes (af_header (st_active s))
            then rmap (fun b => Some (Raw b)) (read_exact_at source offset size)
            else Ok (Some (Zero size))
        | None => Ok (Some (Zero size))
        end
    | Some view =>
        if lb_pages (view_size view) <? page_no then Ok (Some (Zero size)) else Ok None
    end.

Definition read_page (s : Store) (page_no : Z) : result StoreError bytes :=
  let* local := read_local_page s page_no in
  match local with
  | Some page => Ok (into_bytes page)
  | None =>
      let* view := ok_or (st_view s) (Corrupt 0) in
      let* number := value (PageNumber_new page_no) in
      view_read view number
  end.

(** The loop of [read_at] and [write_mutable_pages]: what each iteration has
    already [consumed] of [total] bytes at [offset], and the [amount] it takes. *)
Fixpoint spans (fuel : nat) (size offset consumed total : Z) : list (Z * Z) :=
  match fuel with
  | O => []
  | S fuel' =>
      if total <=? consumed then []
      else
        let amount := Z.min (total - consumed) (size - (offset + consumed) mod size) in
        (consumed, amount) :: spans fuel' size offset (consumed + amount) total
  end.

(** One iteration: the bytes of the page under the span. *)
Definition read_span (s : Store) (offset : Z) (span : Z * Z) : result StoreError bytes :=
  let '(copied, amount) := span in
  let* logical := range (checked_add offset copied) in
  let* page_no := (let* p := range (checked_add (logical / page_size s) 1) in try_u32 p) in
  let within := logical mod page_size s in
  let* page := read_page s page_no in
  fail_if zlen page <? within + amount with Range ;;
  Ok (slice page within (within + amount)).

(** A window of [read_batched]: pages [first..=last] copied from [copied] on. *)
Fixpoint read_window (n : nat) (s : Store) (offset total first copied : Z) (acc : bytes)
    : result StoreError (bytes * Z) :=
  match n with
  | O => Ok (acc, copied)
  | S n' =>
      let* number := (let* p := try_u32 first in value (PageNumber_new p)) in
      let* page := read_page s number in
      let within := (offset + copied) mod page_size s in
      let count := Z.min (total - copied) (zlen page - within) in
      read_window n' s offset total (first + 1) (copied + count)
        (acc ++ slice page within (within + count))
  end.

(** [None] when the fuel runs out. *)
Fixpoint read_batched (fuel : nat) (s : Store) (offset total copied : Z) (acc : bytes)
    : option (result StoreError bytes) :=
  if total <=? copied then Some (Ok acc)
  else match fuel with
       | O => None
       | S fuel' =>
           match (let* logical := range (checked_add offset copied) in
                  let* stop := range (checked_add offset total) in
                  let first := logical / page_size s + 1 in
                  let last := Z.min ((stop - 1) / page_size s + 1) (first + 255) in
                  read_window (Z.to_nat (last - first + 1)) s offset total first copied acc) with
           | Err e => Some (Err e)
           | Ok (acc', copied') => read_batched fuel' s offset total copied' acc'
           end
       end.

(** Returns the count and the filled buffer of [n] bytes. *)
Definition read_at (s : Store) (offset n : Z) : option (result StoreError (Z * bytes)) :=
  if (n =? 0) || (st_pending_size s <=? offset) then Some (Ok (0, zeros n))
  else
    let actual := Z.min (st_pending_size s - offset) n in
    let fill := fun b => (actual, b ++ zeros (n - zlen b)) in
    if page_size s =? 0 then
      match st_bootstrap s with
      | Some b =>
          let copied := Z.min actual (saturating_sub (zlen b) offset) in
          Some (rmap fill (if copied =? 0 then Ok [] else read_exact_at b offset copied))
      | None => Some (Ok (actual, zeros n))
      end
    else if page_size s <? actual then
      option_map (rmap fill) (read_batched (Z.to_nat actual) s offset actual 0 [])
    else
      Some (rmap (fun l => fill (concat l))
              (mmap (read_span s offset) (spans (Z.to_nat actual) (page_size s) offset 0 actual))).

(** ** Writing pages *)

Definition overwrite_active_record (page_no : Z) (page : bytes) : sm Store unit :=
  let! s := sget in
  let! offset := slift (active_record_offset s page_no) in
  smod (set_file (write_all_at (file s) (offset + FRAME_HEADER_SIZE) page)).

Definition append_active_record (page_no : Z) (page : bytes) : sm Store unit :=
  let! s := sget in
  let offset := zlen (file s) in
  let header := active_frame_header s page_no in
  let! stop := slift (range (checked_add offset (record_len header))) in
  let f := set_len (file s) stop in
  let f := write_all_at f (offset + FRAME_HEADER_SIZE) page in
  let f := write_all_at f offset (FrameHeader_encode header) in
  smod (fun s => set_records (<[page_no := offset]> (records s)) (set_file f s)).

(** A committed record that has no undo copy yet. *)
Definition needs_undo (s : Store) (page_no : Z) : bool :=
  match records s !! page_no with
  | Some offset => (offset <? commit_end s) && negb (bool_decide (is_Some (st_originals s !! page_no)))
  | None => false
  end.

Definition save_original (page_no : Z) : sm Store unit :=
  let! s := sget in
  if needs_undo s page_no then
    let! original := slift (read_page s page_no) in
    smod (fun s => set_originals (<[page_no := original]> (st_originals s)) s)
  else sret tt.

Definition write_mutable_page (page_no : Z) (page : bytes) : sm Store unit :=
  let! s := sget in
  sfail_if negb (zlen page =? page_size s)
    with InvalidPageLength page_no (zlen page) (page_size s) ;;
  sfail_if (page_no =? 1) && negb (bool_decide (parse_page_size page = Some (page_size s)))
    with InvalidPageSize (default 0 (parse_page_size page)) ;;
  let! _ := save_original page_no in
  let! _ := slift (value (PageNumber_new page_no)) in
  let! _ := (if bool_decide (is_Some (records s !! page_no))
             then overwrite_active_record page_no page
             else append_active_record page_no page) in
  smod (fun s => set_raw_pages ({[page_no]} ∪ st_raw_pages s) s).

(** One iteration of [write_mutable_pages]. *)
Definition write_span (offset : Z) (input : bytes) (span : Z * Z) : sm Store unit :=
  let '(consumed, amount) := span in
  let! s := sget in
  let! logical := slift (range (checked_add offset consumed)) in
  let! page_no := slift (try_u32 (logical / page_size s + 1)) in
  let within := logical mod page_size s in
  let! page :=
    slift (if (within =? 0) && (amount =? page_size s)
           then Ok (slice input consumed (consumed + amount))
           else if beyond page_no (st_pending_truncate s) then Ok (zeros (page_size s))
           else read_page s page_no) in
  write_mutable_page page_no (put page within (slice input consumed (consumed + amount))).

Definition write_mutable_pages (offset : Z) (input : bytes) : sm Store unit :=
  let! s := sget in
  sfold (write_span offset input) (spans (length input) (page_size s) offset 0 (zlen input)).

(** ** Reload *)

Definition load_local (e : Env) (current : bytes) (header : ActiveHeader) (view : option V)
    : sm Store unit :=
  sfail_if match view with
           | Some v => negb (bytes_eqb (view_database v) (ah_database_id header))
           | None => false
           end with IdentityMismatch ;;
  let sealed_logical_size := match view with Some v => lb_bytes (view_size v) | None => 0 end in
  let sealed_head_txid := match view with Some v => view_txid v | None => 0 end in
  let sealed_head_history := match view with Some v => view_history v | None => genesis_history end in
  let! start := slift (range (checked_add sealed_head_txid 1)) in
  sfail_if negb (ah_start_txid header =? start)
           || negb (bytes_eqb (ah_base_history header) sealed_head_history)
           || negb (ah_base_logical_size header =? sealed_logical_size)
           || match view with
              | Some v => negb (lb_page_size (view_size v) =? ah_page_size header)
              | None => false
              end with IdentityMismatch ;;
  let! state := slift (read_active_state current (ah_database_id header)) in
  sfail_if negb (as_page_size state =? ah_page_size header)
           || negb (bytes_eqb (as_history state) sealed_head_history)
           || (as_txid state <? sealed_head_txid)
           || ((as_txid state =? sealed_head_txid)
               && negb (as_logical_size state =? sealed_logical_size))
           || ((sealed_head_txid <? as_txid state) && (as_txid state <? ah_start_txid header))
    with IdentityMismatch ;;
  let! loaded := slift (load_active_records current ACTIVE_METADATA_END (as_page_size state)
                          (as_record_count state)) in
  let '(active_records, expected_active_end) := loaded in
  sfail_if zlen current <? expected_active_end with Corrupt (zlen current) ;;
  let! _ := smod (set_active (mkActiveFile current header (as_sequence state) active_records
                                (as_truncate_pages state))) in
  let! source :=
    slift (if ah_source_bytes header =? 0 then Ok None
           else
             let* f := ok_or (env_source_file e) Io in
             let* sqlite_header := read_exact_at f 0 100 in
             fail_if negb (zlen f =? ah_source_bytes header)
                     || negb (bytes_eqb (blake3 sqlite_header) (ah_source_header_digest header))
                     || negb (bool_decide (parse_page_size sqlite_header = Some (ah_page_size header)))
               with IdentityMismatch ;;
             Ok (Some f)) in
  smod (fun s => mkStore (st_writable s) (st_owner s)
    (mkHeadState (as_page_size state) (as_logical_size state) (as_txid state) (as_history state)
       (if as_txid state <? ah_start_txid header then 0 else active_state_offset (as_sequence state))
       expected_active_end
       (if as_first_commit_unix state =? 0 then as_commit_unix state else as_first_commit_unix state)
       (as_commit_unix state))
    view (ah_layout header) (st_active s) source ∅ ∅ (as_logical_size state) None false None).

Definition reload (e : Env) : sm Store unit :=
  let! s := sget in
  let current := env_path_file e in
  let! header := slift (read_active_header current) in
  sfail_if negb (bytes_eqb (ah_database_id header) (ah_database_id (af_header (st_active s))))
    with IdentityMismatch ;;
  let! _ := slift (env_attach e (st_writable s) header) in
  let! view := slift (if bytes_eqb (ah_parent_physical_digest header) ZERO_DIGEST then Ok None
                      else rmap Some (env_pin e (ah_parent_physical_digest header))) in
  let! _ := load_local e current header view in
  if st_writable s && (ah_source_bytes header =? 0)
     && negb (bytes_eqb (ah_parent_physical_digest header) ZERO_DIGEST)
  then slift (env_retire e header) else sret tt.

Definition refresh (e : Env) : sm Store unit :=
  let! s := sget in
  if has_pending s then sret tt
  else
    let! state := slift (read_active_state (file s) (ah_database_id (af_header (st_active s)))) in
    if (af_state_sequence (st_active s) <? as_sequence state) || env_inode_changed e
       || (commit_end s <? zlen (file s))
    then reload e else sret tt.

Definition cut_tail : sm Store unit :=
  let! s := sget in
  if commit_end s <? zlen (file s) then smod (set_file (set_len (file s) (commit_end s))) else sret tt.

Definition begin_write (e : Env) : sm Store unit :=
  let! s := sget in
  sfail_if negb (st_writable s) with ReadOnly ;;
  if is_locked s then sret tt
  else
    sfail_if negb (env_lock_free e) with Busy ;;
    fun s => match (let! _ := reload e in cut_tail) (set_owner Transaction s) with
             | (Ok _, s') => (Ok tt, s')
             | (Err err, s') => (Err err, release_publication s')
             end.

(** ** A new active file *)

(** [ActiveBase] without the freshly sealed case, which belongs to sealing. *)
Definition validate_base (database : Digest) (head : HeadState) (base : option V)
    : result StoreError Digest :=
  match base with
  | None =>
      fail_if negb (hd_txid head =? 0) || negb (hd_logical_size head =? 0)
              || negb (bytes_eqb (hd_history head) genesis_history) with IdentityMismatch ;;
      Ok ZERO_DIGEST
  | Some v =>
      fail_if negb (bytes_eqb (view_database v) database)
              || negb (lb_bytes (view_size v) =? hd_logical_size head)
              || negb (view_txid v =? hd_txid head)
              || negb (bytes_eqb (view_history v) (hd_history head)) with IdentityMismatch ;;
      Ok (view_id v)
  end.

Definition create_active (s : Store) (policy : StoragePolicyRecord) : result StoreError ActiveFile :=
  let old := af_header (st_active s) in
  let head := st_head s in
  let* parent := validate_base (ah_database_id old) head (st_view s) in
  let* start_txid := range (checked_add (hd_txid head) 1) in
  let header := {|
    ah_attachment_id := ah_attachment_id old;
    ah_database_id := ah_database_id old;
    ah_page_size := hd_page_size head;
    ah_start_txid := start_txid;
    ah_base_history := hd_history head;
    ah_parent_physical_digest := parent;
    ah_base_logical_size := hd_logical_size head;
    ah_policy := policy;
    ah_layout := st_layout s;
    ah_source_bytes := ah_source_bytes old;
    ah_source_header_digest := ah_source_header_digest old;
  |} in
  let state := {|
    as_database_id := ah_database_id header;
    as_sequence := 1;
    as_txid := hd_txid head;
    as_logical_size := hd_logical_size head;
    as_page_size := hd_page_size head;
    as_history := hd_history head;
    as_commit_unix := 0;
    as_first_commit_unix := 0;
    as_record_count := 0;
    as_truncate_pages := None;
  |} in
  let f := write_all_at [] 0 (ActiveHeader_encode header) in
  let f := write_all_at f ACTIVE_STATE_A_OFFSET (ActiveState_encode state) in
  Ok (mkActiveFile (set_len f ACTIVE_METADATA_END) header 1 ∅ None).

Definition adopt_active (active : ActiveFile) (s : Store) : Store :=
  let h := st_head s in
  set_head (mkHeadState (hd_page_size h) (hd_logical_size h) (hd_txid h)
              (ah_base_history (af_header active)) 0 ACTIVE_METADATA_END 0 0) (set_active active s).

Definition install_active (policy : StoragePolicyRecord) : sm Store unit :=
  let! s := sget in
  sfail_if negb (is_locked s) with Busy ;;
  let! active := slift (create_active s policy) in
  smod (adopt_active active).

Definition ensure_active : sm Store unit :=
  let! s := sget in
  sfail_if page_size s =? 0 with UnknownPageSize ;;
  let header := af_header (st_active s) in
  if ah_page_size header =? page_size s then sret tt
  else
    sfail_if negb (ah_page_size header =? 0) || negb (hd_txid (st_head s) =? 0)
             || negb (hd_active_commit_offset (st_head s) =? 0) with IdentityMismatch ;;
    install_active (ah_policy header).

(** ** Writes of unknown page size *)

(** The pages the loop of [write_bootstrap] copies. *)
Definition bootstrap_pages (b : bytes) (size : Z) : list (Z * bytes) :=
  map (fun k => let o := Z.of_nat k * size in
                let chunk := slice b o (Z.min (zlen b) (o + size)) in
                (Z.of_nat k + 1, chunk ++ zeros (size - zlen chunk)))
    (seq 0 (Z.to_nat ((zlen b + size - 1) / size))).

Definition write_bootstrap (offset : Z) (input : bytes) (stop : Z) : sm Store unit :=
  let! s := sget in
  let b := write_all_at (default [] (st_bootstrap s)) offset input in
  let b := if zlen b <? stop then set_len b stop else b in
  let! _ := smod (fun s => set_pending_size (Z.max (st_pending_size s) stop) (set_bootstrap (Some b) s)) in
  let header := if 100 <=? zlen b then slice b 0 100 else zeros 100 in
  if bytes_eqb (slice header 0 16) SQLITE_MAGIC then
    let! size := slift (ok_or (parse_page_size header) UnknownPageSize) in
    let! _ := smod (set_page_size size) in
    let! _ := ensure_active in
    let! _ := smod (set_bootstrap None) in
    sfold (fun p => let! number := slift (try_u32 p.1) in write_mutable_page number p.2)
      (bootstrap_pages b size)
  else sret tt.

(** ** The interface SQLite drives *)

Definition write_at (e : Env) (offset : Z) (input : bytes) : sm Store Z :=
  if zlen input =? 0 then sret 0
  else
    let! _ := begin_write e in
    let! stop := slift (range (checked_add offset (zlen input))) in
    let! s := sget in
    if page_size s =? 0 then
      let! _ := write_bootstrap offset input stop in
      sret (zlen input)
    else
      let! _ := write_mutable_pages offset input in
      let! _ := smod (fun s => set_pending_size (Z.max (st_pending_size s) stop) s) in
      sret (zlen input).

(** The keys of the active records from [first] on, in order. *)
Definition records_from (first : Z) (m : gmap Z Z) : list Z :=
  isort Z.leb (List.filter (fun k => first <=? k) (map fst (map_to_list m))).

Definition truncate_pages (size max_page : Z) : sm Store unit :=
  let! s := sget in
  if negb (page_size s =? 0) && (size <? st_pending_size s) then
    let! _ := sfold (fun page_no => write_mutable_page page_no (zeros (page_size s)))
                (records_from (Z.min (max_page + 1) U32_MAX) (records s)) in
    smod (fun s => set_truncate (Some (match st_pending_truncate s with
                                       | Some previous => Z.min previous max_page
                                       | None => max_page
                                       end)) s)
  else sret tt.

Definition truncate (e : Env) (size : Z) : sm Store unit :=
  let! _ := begin_write e in
  let! s := sget in
  let! _ :=
    (if page_size s =? 0 then
       smod (fun s => set_bootstrap (option_map (fun b => set_len b size) (st_bootstrap s)) s)
     else
       sfail_if negb (is_multiple_of size (page_size s)) with InvalidPageSize (page_size s) ;;
       sret tt) in
  let! max_page := slift (if page_size s =? 0 then Ok 0 else page_count size (page_size s)) in
  let! _ := truncate_pages size max_page in
  smod (set_pending_size size).

(** One undo copy; a failed write is ignored. *)
Definition restore_original (s : Store) (p : Z * bytes) : Store :=
  match records s !! p.1 with
  | Some offset =>
      if offset <? commit_end s then snd (overwrite_active_record p.1 p.2 s) else s
  | None => s
  end.

Definition discard_mutable_pending (s : Store) : Store :=
  let originals := isort (fun a b => a.1 <=? b.1) (map_to_list (st_originals s)) in
  let s := fold_left restore_original originals (set_originals ∅ s) in
  let s := set_file (set_len (file s) (commit_end s)) s in
  let s := set_records (filter (fun p => p.2 < commit_end s) (records s)) s in
  let s := set_pending ∅ ∅ (hd_logical_size (st_head s)) None false None s in
  let s := if bool_decide (st_owner s = Checkpoint) then transition Transaction s else s in
  release_publication s.

Definition min_truncate (a b : option Z) : option Z :=
  match a, b with
  | Some previous, Some current => Some (Z.min previous current)
  | Some previous, None => Some previous
  | None, current => current
  end.

(** The state sector a publication writes. *)
Definition next_state (e : Env) (s : Store) (txid sequence : Z) : ActiveState := {|
  as_database_id := ah_database_id (af_header (st_active s));
  as_sequence := sequence;
  as_txid := txid;
  as_logical_size := st_pending_size s;
  as_page_size := page_size s;
  as_history := hd_history (st_head s);
  as_commit_unix := env_now e;
  as_first_commit_unix := if hd_oldest_dirty_unix (st_head s) =? 0 then env_now e
                          else hd_oldest_dirty_unix (st_head s);
  as_record_count := Z.of_nat (size (records s));
  as_truncate_pages := min_truncate (af_truncate_pages (st_active s)) (st_pending_truncate s);
|}.

(** The in-memory part of a publication, after its state sector is written. *)
Definition commit_state (e : Env) (state : ActiveState) (raw_end : Z) (retain : bool) (s : Store)
    : Store :=
  let a := st_active s in
  let h := st_head s in
  let s := set_active (mkActiveFile (af_file a) (af_header a) (as_sequence state) (af_records a)
                         (as_truncate_pages state)) s in
  let s := set_head (mkHeadState (hd_page_size h) (st_pending_size s) (as_txid state) (hd_history h)
                       (active_state_offset (as_sequence state)) raw_end
                       (if hd_oldest_dirty_unix h =? 0 then env_now e else hd_oldest_dirty_unix h)
                       (env_now e)) s in
  let s := set_pending ∅ ∅ (st_pending_size s) None false None s in
  if retain then transition Checkpoint s else release_publication s.

Definition publish_inner (e : Env) (durable retain : bool) : sm Store unit :=
  let! s := sget in
  if negb (has_pending s) then
    let! _ := (if durable then
                 let! _ := begin_write e in
                 slift (if env_data_sync e then Ok tt else Err Io)
               else sret tt) in
    smod (fun s => if retain then s else release_publication s)
  else if page_size s =? 0 then
    if st_pending_size s =? 0 then
      smod (fun s =>
        let s := set_pending (st_raw_pages s) (st_originals s) (st_pending_size s)
                   (st_pending_truncate s) false None s in
        if retain then s else release_publication s)
    else serr UnknownPageSize
  else
    let! txid := slift (range (checked_add (hd_txid (st_head s)) 1)) in
    let raw_end := zlen (file s) in
    let! _ := slift (if durable && negb (env_data_sync e) then Err Io else Ok tt) in
    let! sequence := slift (range (checked_add (af_state_sequence (st_active s)) 1)) in
    let state := next_state e s txid sequence in
    let! _ := smod (set_file (write_all_at (file s) (active_state_offset sequence)
                                (ActiveState_encode state))) in
    let! _ := smod (commit_state e state raw_end retain) in
    slift (if durable && negb (env_state_sync e) then Err PublicationUncertain else Ok tt).

Definition publish (e : Env) (durable : bool) : sm Store unit := publish_inner e durable false.

Definition publish_checkpoint (e : Env) (durable : bool) : sm Store unit := publish_inner e durable true.

Definition begin_checkpoint_publication (e : Env) : sm Store unit :=
  let! s := sget in
  if bool_decide (st_owner s = Checkpoint) then sret tt
  else
    sfail_if is_locked s || has_pending s with Busy ;;
    let! _ := begin_write e in
    smod (transition Checkpoint).

Definition finish_checkpoint_publication (s : Store) : Store :=
  let s := if bool_decide (st_owner s = Checkpoint) then transition Transaction s else s in
  release_publication s.

End Operations.
