(* ===== verification/StoreProofs.v ===== *)
(** Correctness of the page store: every operation of [Store] against the
    database image it presents, page by page and byte by byte. *)

From S2P Require Import Prelude Domain Layout Format Segment Active Store.
From stdpp Require Import base strings gmap list sorting.
From Stdlib Require Import ZArith Lia.
Open Scope Z_scope.

(** A page that starts inside a whole number of pages lies inside it. *)
Lemma whole_page k ps len : 0 < ps -> len mod ps = 0 -> k * ps < len -> k * ps + ps <= len.
Proof.
  intros Hp Hm Hk. apply Z.div_exact in Hm; [|lia]. set (q := len / ps) in *.
  assert (k < q) by nia. nia.
Qed.

Lemma byte_at_put l a b i :
  0 <= a -> 0 <= i -> a + zlen b <= zlen l ->
  byte_at (put l a b) i = if decide (a <= i < a + zlen b) then byte_at b (i - a) else byte_at l i.
Proof.
  intros Ha Hi Hl. unfold byte_at. rewrite !nth_lookup. f_equal.
  assert (put l a b = take (Z.to_nat a) l ++ b ++ drop (Z.to_nat a + length b) l) as ->.
  { rewrite <- drop_drop. rewrite <- (take_drop (Z.to_nat a) l) at 1.
    rewrite <- (take_drop (length b) (drop (Z.to_nat a) l)) at 1. unfold zlen in *.
    apply put_mid; unfold zlen; rewrite ?length_take, ?length_drop; lia. }
  unfold zlen in *. destruct (decide (a <= i < a + Z.of_nat (length b))) as [Hin|Hout].
  - rewrite lookup_app_r, lookup_app_l by (rewrite length_take; lia). do 2 f_equal. rewrite length_take. lia.
  - destruct (decide (i < a)).
    + rewrite lookup_app_l by (rewrite length_take; lia). rewrite lookup_take_lt by lia. done.
    + rewrite !lookup_app_r by (rewrite ?length_take; lia). rewrite lookup_drop, length_take. do 2 f_equal. lia.
Qed.

Lemma byte_at_slice_in l a b i : 0 <= a -> 0 <= i < b - a -> byte_at (slice l a b) i = byte_at l (a + i).
Proof.
  intros Ha Hi. unfold byte_at, slice. rewrite !nth_lookup, lookup_take_lt, lookup_drop by lia. do 2 f_equal. lia.
Qed.

Lemma byte_at_past l i : zlen l <= i -> byte_at l i = 0.
Proof. intros. unfold byte_at, zlen in *. apply nth_overflow. lia. Qed.

Lemma byte_at_set_len l n i :
  0 <= i -> byte_at (set_len l n) i = if decide (i < n) then byte_at l i else 0.
Proof.
  intros Hi. unfold set_len, byte_at. rewrite !nth_lookup. destruct (decide (i < n)) as [Hlt|Hge].
  - destruct (decide (i < zlen l)) as [Hin|Hout].
    + unfold zlen in *. rewrite lookup_app_l by (rewrite length_take; lia). by rewrite lookup_take_lt by lia.
    + unfold zlen in *. rewrite (lookup_ge_None_2 l) by lia. rewrite lookup_app_r by (rewrite length_take; lia).
      unfold zeros. rewrite lookup_replicate_2; [done|]. rewrite length_take. lia.
  - rewrite lookup_ge_None_2; [done|]. unfold zeros, zlen. rewrite length_app, length_take, length_replicate. lia.
Qed.

Lemma zlen_set_len l n : 0 <= n -> zlen (set_len l n) = n.
Proof. intros. unfold set_len, zeros, zlen. rewrite length_app, length_take, length_replicate. lia. Qed.

Lemma zlen_write_all l o b : 0 <= o -> zlen (write_all_at l o b) = Z.max (zlen l) (o + zlen b).
Proof.
  intros. unfold write_all_at. rewrite zlen_put, zlen_set_len; [done|]. pose proof (zlen_nonneg l). lia.
Qed.

Lemma byte_at_write_all l o b i :
  0 <= o -> 0 <= i ->
  byte_at (write_all_at l o b) i = if decide (o <= i < o + zlen b) then byte_at b (i - o) else byte_at l i.
Proof.
  intros Ho Hi. pose proof (zlen_nonneg l). unfold write_all_at.
  rewrite byte_at_put by (rewrite ?zlen_set_len; lia).
  destruct (decide (o <= i < o + zlen b)); [done|]. rewrite byte_at_set_len by done.
  destruct (decide _); [done|]. symmetry. apply byte_at_past. lia.
Qed.

Lemma bytes_ext (l k : bytes) :
  zlen l = zlen k -> (forall i, 0 <= i < zlen l -> byte_at l i = byte_at k i) -> l = k.
Proof.
  intros Hl Hb. unfold zlen in *. apply (nth_ext _ _ 0 0); [lia|]. intros n Hn.
  specialize (Hb (Z.of_nat n) ltac:(lia)). unfold byte_at in Hb. by rewrite Nat2Z.id in Hb.
Qed.

(** ** Stateful computations *)

Lemma sbind_inv {S A B} (m : sm S A) (k : A -> sm S B) s r s' :
  sbind m k s = (r, s') ->
  (exists a s1, m s = (Ok a, s1) /\ k a s1 = (r, s')) \/
  (exists e, m s = (Err e, s') /\ r = Err e).
Proof.
  unfold sbind. destruct (m s) as [[a|e] s1]; intros E; [left; by exists a, s1|].
  injection E as <- <-. right. by exists e.
Qed.

(** A relation every step satisfies, on success and on failure, holds of the whole loop. *)
Lemma sfold_rel {S A} (P : S -> S -> Prop) (f : A -> sm S unit) l :
  (forall s, P s s) -> (forall a b c, P a b -> P b c -> P a c) ->
  (forall a s r s', a ∈ l -> f a s = (r, s') -> P s s') ->
  forall s r s', sfold f l s = (r, s') -> P s s'.
Proof.
  intros Hr Ht. induction l as [|a l IH]; intros Hf s r s' E; cbn [sfold] in E.
  - by injection E as _ <-.
  - apply sbind_inv in E as [([] & s1 & E1 & E2)|(e & E1 & _)].
    + apply (Ht _ s1); [eapply Hf; [by left|exact E1]|].
      eapply IH; [|exact E2]. intros; eapply Hf; [by right|done].
    + eapply Hf; [by left|exact E1].
Qed.

Section Proofs.
Context {HH : Hashes} {HOK : HashesOk HH} {V : Type} {VV : SealedView V}.
Abbreviation Store := (Store V).

(** ** The pages a store presents *)

Definition rec_page (s : Store) (offset : Z) : bytes :=
  slice (file s) (offset + FRAME_HEADER_SIZE) (offset + FRAME_HEADER_SIZE + page_size s).

(** A page without an active record: cut off, sealed, of the raw source, or zero. *)
Definition base_page (s : Store) (n : Z) : bytes :=
  if beyond n (af_truncate_pages (st_active s)) then zeros (page_size s)
  else match st_view s with
       | None =>
           match st_source s with
           | Some source =>
               if (n - 1) * page_size s <? ah_source_bytes (af_header (st_active s))
               then slice source ((n - 1) * page_size s) ((n - 1) * page_size s + page_size s)
               else zeros (page_size s)
           | None => zeros (page_size s)
           end
       | Some v =>
           if lb_pages (view_size v) <? n then zeros (page_size s)
           else match view_read v n with Ok p => p | Err _ => [] end
       end.

(** The page as the current transaction sees it. *)
Definition content (s : Store) (n : Z) : bytes :=
  if beyond n (st_pending_truncate s) && negb (bool_decide (n ∈ st_raw_pages s))
  then zeros (page_size s)
  else match records s !! n with
       | Some offset => rec_page s offset
       | None => base_page s n
       end.

(** The page as the last publication left it. *)
Definition committed (s : Store) (n : Z) : bytes :=
  match st_originals s !! n with
  | Some p => p
  | None =>
      match records s !! n with
      | Some offset => if offset <? commit_end s then rec_page s offset else base_page s n
      | None => base_page s n
      end
  end.

(** ** The invariant *)

Definition view_ok (v : V) (ps : Z) : Prop :=
  logical_ok (view_size v) /\ lb_page_size (view_size v) = ps /\
  forall n, 1 <= n <= lb_pages (view_size v) -> exists p, view_read v n = Ok p /\ zlen p = ps.

Definition base_ok (s : Store) : Prop :=
  (forall v, st_view s = Some v -> view_ok v (page_size s)) /\
  (forall b, st_source s = Some b ->
     zlen b = ah_source_bytes (af_header (st_active s)) /\ zlen b mod page_size s = 0).

(** The file is its metadata sectors and a run of records, which the index
    describes; [meta], [recs] are the ghost values, [nc] the committed count. *)
Definition layout_inv (s : Store) (meta : bytes) (recs : list (Z * bytes)) (nc : nat) : Prop :=
  page_size_ok (page_size s) /\ zlen meta = ACTIVE_METADATA_END /\
  file s = meta ++ records_bytes (page_size s) recs /\
  Forall (rec_ok (page_size s)) recs /\ NoDup (map fst recs) /\
  indexes (page_size s) recs (records s) /\
  commit_end s = rec_offset (page_size s) nc /\ (nc <= length recs)%nat.

Definition pending_inv (s : Store) : Prop :=
  (forall n p, st_originals s !! n = Some p ->
     zlen p = page_size s /\ exists o, records s !! n = Some o /\ o < commit_end s) /\
  (forall n, n ∈ st_raw_pages s -> is_Some (records s !! n)) /\
  (forall n, is_Some (records s !! n) -> beyond n (st_pending_truncate s) = true -> n ∈ st_raw_pages s).

Definition store_inv (s : Store) : Prop :=
  (exists meta recs nc, layout_inv s meta recs nc) /\ base_ok s /\ pending_inv s.

Lemma record_at s meta recs nc n o :
  layout_inv s meta recs nc -> records s !! n = Some o ->
  exists i p, recs !! i = Some (n, p) /\ o = rec_offset (page_size s) i /\ rec_page s o = p /\
    zlen p = page_size s /\ 1 <= n < U32_MAX /\ read_mutable_page s n = Ok p.
Proof.
  intros (Hps & Hm & Hf & Hr & Hnd & Hx & _) Ho. pose proof Ho as Ho'.
  apply Hx in Ho as (i & p & Hi & ->). exists i, p.
  destruct (record_slices _ _ _ _ _ _ Hm Hr Hi) as (S1 & S2 & S3). rewrite <- Hf in *.
  destruct (Forall_lookup_1 _ _ _ _ Hr Hi) as [Hn Hl]. cbn [fst snd] in *.
  pose proof (page_size_ok_bounds _ Hps). unfold page_number_ok in Hn. unfold FRAME_HEADER_SIZE in *.
  split_and!; try done; try lia.
  unfold read_mutable_page, active_record_offset, FRAME_HEADER_SIZE. rewrite Ho'. cbn [ok_or rbind].
  unfold read_exact_at. rewrite (proj2 (Z.ltb_ge _ _)) by lia. cbn [rbind]. rewrite S1.
  rewrite frame_header_roundtrip_lemma by (apply raw_header_ok; [lia|done]). cbn [format map_err rbind].
  cbn [raw_header fh_page_no fh_codec fh_dictionary_index fh_stored_len fh_raw_len].
  rewrite !Z.eqb_refl, bool_decide_true by done. cbn [negb orb].
  by rewrite (proj2 (Z.ltb_ge _ _)), S2 by lia.
Qed.

Lemma base_page_len s n :
  page_size_ok (page_size s) -> base_ok s -> 1 <= n -> zlen (base_page s n) = page_size s.
Proof.
  intros Hps%page_size_ok_bounds [Hv Hsrc] Hn. unfold base_page.
  destruct (beyond _ _); [by rewrite zlen_zeros by lia|]. destruct (st_view s) as [v|].
  - destruct (Z.ltb_spec (lb_pages (view_size v)) n); [by rewrite zlen_zeros by lia|].
    destruct (Hv v eq_refl) as (_ & _ & Hr). destruct (Hr n ltac:(lia)) as (p & -> & Hp). done.
  - destruct (st_source s) as [b|]; [|by rewrite zlen_zeros by lia].
    destruct (Hsrc b eq_refl) as [Hb Hm].
    destruct (Z.ltb_spec ((n - 1) * page_size s) (ah_source_bytes (af_header (st_active s)))) as [Hlt|_];
      [|by rewrite zlen_zeros by lia].
    rewrite <- Hb in Hlt. pose proof (whole_page (n - 1) (page_size s) _ ltac:(lia) Hm Hlt). rewrite zlen_slice; nia.
Qed.

(** Reading a page returns what the store presents. *)
Lemma read_page_lemma s n :
  store_inv s -> 1 <= n <= U32_MAX -> n < U32_MAX \/ is_Some (records s !! n) ->
  read_page s n = Ok (content s n) /\ zlen (content s n) = page_size s.
Proof.
  intros ((meta & recs & nc & HL) & Hbase & _) Hn Hnr. pose proof HL as (Hps & _).
  pose proof (base_page_len s n Hps Hbase ltac:(lia)) as Hbl. pose proof (page_size_ok_bounds _ Hps) as Hb.
  unfold read_page, read_local_page, content.
  assert (PageSize_new (page_size s) = Ok (page_size s)) as -> by (by apply PageSize_new_spec).
  cbn [value map_err rbind]. destruct (beyond n _ && _).
  { cbn [rbind into_bytes]. by rewrite zlen_zeros by lia. }
  destruct (records s !! n) as [o|] eqn:Eo.
  { rewrite bool_decide_true by (by eexists).
    destruct (record_at _ _ _ _ _ _ HL Eo) as (i & p & _ & _ & Hp & Hl & _ & ->).
    cbn [rmap rbind into_bytes]. by rewrite Hp. }
  assert (n < U32_MAX) as Hlt by (destruct Hnr as [|[? ?]]; done).
  rewrite bool_decide_false by (by intros [? ?]). unfold base_page in *. destruct Hbase as [Hv Hsrc].
  destruct (beyond n _). { cbn [rbind into_bytes]. by rewrite zlen_zeros by lia. }
  destruct (st_view s) as [v|].
  - destruct (Z.ltb_spec (lb_pages (view_size v)) n). { cbn [rbind into_bytes]. by rewrite zlen_zeros by lia. }
    cbn [rbind ok_or].
    assert (PageNumber_new n = Ok n) as -> by (apply PageNumber_new_spec; unfold page_number_ok, U32_MAX in *; lia).
    cbn [value map_err rbind]. destruct (Hv v eq_refl) as (_ & _ & Hr).
    by destruct (Hr n ltac:(lia)) as (p & -> & Hp).
  - destruct (st_source s) as [b|].
    + destruct (Hsrc b eq_refl) as [Hb' Hm].
      destruct (Z.ltb_spec ((n - 1) * page_size s) (ah_source_bytes (af_header (st_active s)))) as [Hoff|_].
      * rewrite <- Hb' in *. pose proof (whole_page (n - 1) (page_size s) _ ltac:(lia) Hm Hoff). unfold read_exact_at.
        rewrite (proj2 (Z.ltb_ge _ _)) by lia.
        cbn [rmap rbind into_bytes]. done.
      * cbn [rbind into_bytes]. by rewrite zlen_zeros by lia.
    + cbn [rbind into_bytes]. by rewrite zlen_zeros by lia.
Qed.

(** ** What the page operations leave alone *)

(** Everything but the file, its index, the undo copies and the written set. *)
Definition frame (s : Store) :=
  (st_writable s, st_owner s, st_head s, st_view s, st_layout s,
   (af_header (st_active s), af_state_sequence (st_active s), af_truncate_pages (st_active s)),
   st_source s, (st_pending_size s, st_pending_truncate s, st_pending_dirty s, st_bootstrap s)).

Definition metadata (s : Store) : bytes := slice (file s) 0 ACTIVE_METADATA_END.

Lemma frame_base_page s s' n : frame s' = frame s -> base_page s' n = base_page s n.
Proof. intros E. injection E as _ _ E1 E2 _ E3 _ E4 E5 _ _ _ _. unfold base_page, page_size. by rewrite E1, E2, E3, E4, E5. Qed.

Lemma frame_page_size s s' : frame s' = frame s -> page_size s' = page_size s.
Proof. intros E. injection E as _ _ E1 _ _ _ _ _ _ _ _ _ _. unfold page_size. by rewrite E1. Qed.

Lemma frame_commit_end s s' : frame s' = frame s -> commit_end s' = commit_end s.
Proof. intros E. injection E as _ _ E1 _ _ _ _ _ _ _ _ _ _. unfold commit_end. by rewrite E1. Qed.

Lemma frame_truncate s s' : frame s' = frame s -> st_pending_truncate s' = st_pending_truncate s.
Proof. intros E. by injection E as _ _ _ _ _ _ _ _ _ _ E1 _ _. Qed.

Lemma frame_base_ok s s' : frame s' = frame s -> base_ok s -> base_ok s'.
Proof.
  intros E [Hv Hs]. pose proof (frame_page_size _ _ E) as Hp. unfold base_ok. rewrite Hp.
  injection E as _ _ _ E2 _ E3 _ _ E5 _ _ _ _. rewrite E2, E3, E5. by split.
Qed.

Lemma metadata_layout s meta recs nc : layout_inv s meta recs nc -> metadata s = meta.
Proof.
  intros (_ & Hm & Hf & _). unfold metadata. rewrite Hf. apply (slice_mid [] meta); [done|]. by rewrite Hm.
Qed.

(** A page write that may have failed: the invariant, the frame, the metadata
    sectors and every committed page are kept. *)
Definition keeps (s s' : Store) : Prop :=
  store_inv s -> store_inv s' /\ frame s' = frame s /\ metadata s' = metadata s /\
    forall n, 1 <= n -> committed s' n = committed s n.

Lemma keeps_refl s : keeps s s.
Proof. by intros Hi. Qed.

Lemma keeps_trans a b c : keeps a b -> keeps b c -> keeps a c.
Proof.
  intros H1 H2 Ha. destruct (H1 Ha) as (Hb & F1 & M1 & C1). destruct (H2 Hb) as (Hc & F2 & M2 & C2).
  split_and!; [done|congruence|congruence|]. intros n Hn. by rewrite C2, C1.
Qed.

(** A record at an index that did not move still holds its page. *)
Lemma rec_page_moved s s' meta meta' recs recs' nc nc' m o :
  layout_inv s meta recs nc -> layout_inv s' meta' recs' nc' -> page_size s' = page_size s ->
  records s !! m = Some o -> records s' !! m = Some o ->
  (forall i p, recs !! i = Some (m, p) -> recs' !! i = Some (m, p)) ->
  rec_page s' o = rec_page s o.
Proof.
  intros L L' Hp Hm Hm' Hmove.
  destruct (record_at _ _ _ _ _ _ L Hm) as (i & p & Hi & -> & -> & _).
  destruct (record_at _ _ _ _ _ _ L' Hm') as (j & q & Hj & Ho & -> & _).
  rewrite Hp in Ho. destruct L as (Hps & _). apply page_size_ok_bounds in Hps.
  apply rec_offset_inj in Ho as <-; [|lia]. apply Hmove in Hi. congruence.
Qed.

(** What changes when the record of page [n] becomes [page]. *)
Definition wrote (n : Z) (page : bytes) (s s' : Store) : Prop :=
  store_inv s' /\ frame s' = frame s /\ metadata s' = metadata s /\
  (forall m, content s' m = if decide (m = n) then page else content s m) /\
  (forall m, committed s' m = committed s m) /\ zlen (file s') <= zlen (file s) + (FRAME_HEADER_SIZE + page_size s) /\
  st_raw_pages s' = {[n]} ∪ st_raw_pages s /\
  (forall m, is_Some (records s' !! m) <-> m = n \/ is_Some (records s !! m)).

Lemma wrote_intro s s' meta recs recs' nc n page :
  layout_inv s meta recs nc -> base_ok s -> pending_inv s ->
  layout_inv s' meta recs' nc -> frame s' = frame s -> st_originals s' = st_originals s ->
  st_raw_pages s' = {[n]} ∪ st_raw_pages s ->
  (forall m, m <> n -> records s' !! m = records s !! m) ->
  (forall m i p, m <> n -> recs !! i = Some (m, p) -> recs' !! i = Some (m, p)) ->
  (exists o, records s' !! n = Some o /\ rec_page s' o = page /\
     ((o < commit_end s /\ is_Some (st_originals s !! n) /\ is_Some (records s !! n)) \/
      (commit_end s <= o /\ forall o', records s !! n = Some o' -> commit_end s <= o'))) ->
  zlen (file s') <= zlen (file s) + (FRAME_HEADER_SIZE + page_size s) ->
  wrote n page s s'.
Proof.
  intros L B P L' F Ho Hraw Hrec Hmove (o & Hn & Hpg & Hcase) Hlen.
  pose proof (frame_page_size _ _ F) as Hps. pose proof (frame_commit_end _ _ F) as Hce.
  pose proof (frame_truncate _ _ F) as Htr. destruct P as (P1 & P2 & P3).
  assert (forall m o, m <> n -> records s !! m = Some o -> rec_page s' o = rec_page s o) as Hpages.
  { intros m q Hm Hq. eapply rec_page_moved; try done; [by rewrite Hrec|]. by intros; apply Hmove. }
  split_and!; try done.
  - split; [by exists meta, recs', nc|]. split; [by apply (frame_base_ok s)|]. split_and!.
    + intros m p. rewrite Ho, Hps, Hce. intros Hm. destruct (P1 m p Hm) as (Hl & q & Hq & Hlt). split; [done|].
      destruct (decide (m = n)) as [->|Hne]; [|exists q; by rewrite Hrec].
      exists o. split; [done|]. destruct Hcase as [(? & _)|(_ & Hc)]; [done|]. specialize (Hc q Hq). lia.
    + intros m. rewrite Hraw. intros [->%elem_of_singleton|Hm]%elem_of_union; [by eexists|].
      destruct (decide (m = n)) as [->|]; [by eexists|]. rewrite Hrec by done. by apply P2.
    + intros m Hm Hb. rewrite Htr in Hb. rewrite Hraw. destruct (decide (m = n)) as [->|]; [set_solver|].
      apply elem_of_union_r, P3; [by rewrite <- Hrec|done].
  - rewrite (metadata_layout _ _ _ _ L), (metadata_layout _ _ _ _ L'). done.
  - intros m. unfold content. rewrite Htr, Hps, Hraw. destruct (decide (m = n)) as [->|Hne].
    + rewrite bool_decide_true by set_solver. rewrite andb_false_r, Hn. done.
    + assert (bool_decide (m ∈ {[n]} ∪ st_raw_pages s) = bool_decide (m ∈ st_raw_pages s)) as ->
        by (apply bool_decide_ext; set_solver).
      destruct (beyond m _ && _); [done|]. rewrite Hrec by done.
      destruct (records s !! m) as [q|] eqn:Eq; [by eapply Hpages|by apply frame_base_page].
  - intros m. unfold committed. rewrite Ho, Hce. destruct (st_originals s !! m) eqn:Em; [done|].
    destruct (decide (m = n)) as [->|Hne].
    + rewrite Hn. destruct Hcase as [(_ & [? ?] & _)|(Hge & Hc)]; [congruence|].
      rewrite (proj2 (Z.ltb_ge o _)) by done. rewrite (frame_base_page s s' n F).
      destruct (records s !! n) as [q|]; [|done]. by rewrite (proj2 (Z.ltb_ge q _)) by (by apply Hc).
    + rewrite Hrec by done. rewrite (frame_base_page s s' m F).
      destruct (records s !! m) as [q|] eqn:Eq; [|done]. destruct (q <? commit_end s); [by eapply Hpages|done].
  - intros m. destruct (decide (m = n)) as [->|Hne]; [split; [by left|intros _; by eexists]|].
    rewrite Hrec by done. split; [by right|by intros [|]].
Qed.

(** ** Writing a page *)

Definition mark_written (n : Z) (s : Store) : Store := set_raw_pages ({[n]} ∪ st_raw_pages s) s.

Lemma overwrite_wrote s n page o :
  store_inv s -> records s !! n = Some o -> zlen page = page_size s ->
  (o < commit_end s -> is_Some (st_originals s !! n)) ->
  exists s', overwrite_active_record n page s = (Ok tt, s') /\ wrote n page s (mark_written n s').
Proof.
  intros ((meta & recs & nc & L) & B & P) Ho Hl Hundo. eexists. split.
  { unfold overwrite_active_record, sbind, sget, slift, active_record_offset, smod. by rewrite Ho. }
  destruct (record_at _ _ _ _ _ _ L Ho) as (i & p & Hi & -> & Hpg & Hpl & Hn & _).
  pose proof L as (Hps & Hm & Hf & Hr & Hnd & Hx & Hce & Hnc).
  set (recs' := <[i := (n, page)]> recs).
  set (s' := set_file _ _). assert (layout_inv (mark_written n s') meta recs' nc) as L'.
  { split_and!; try done.
    - unfold s', mark_written, file. cbn. change (af_file (st_active s)) with (file s). rewrite Hf.
      by apply (record_overwrite _ _ _ _ _ p).
    - apply Forall_insert; [done|]. split; [done|done].
    - unfold recs'. rewrite list_fmap_insert. cbn [fst]. by rewrite list_insert_id by (by rewrite list_lookup_fmap, Hi).
    - by apply (indexes_insert _ _ _ _ _ p).
    - unfold recs'. by rewrite length_insert. }
  eapply (wrote_intro s _ meta recs recs' nc); try done.
  - intros m j q Hne Hj. unfold recs'. rewrite list_lookup_insert_ne; [done|]. intros <-. rewrite Hi in Hj. congruence.
  - exists (rec_offset (page_size s) i). split; [done|].
    assert (recs' !! i = Some (n, page)) as Hi' by (apply list_lookup_insert_eq; by eapply lookup_lt_Some).
    destruct (record_at _ _ _ _ _ _ L' Ho) as (j & q & Hj & Hoff & Hpq & _).
    apply rec_offset_inj in Hoff as <-; [|change (0 <= page_size s); apply page_size_ok_bounds in Hps; lia].
    split; [congruence|]. destruct (Z.lt_ge_cases (rec_offset (page_size s) i) (commit_end s)); [left; eauto|].
    right. split; [done|]. intros o' Ho'. rewrite Ho in Ho'. by injection Ho' as <-.
  - destruct L' as (_ & _ & -> & Hr' & _). rewrite Hf, !zlen_app, !zlen_records_bytes by done.
    change (page_size (mark_written n s')) with (page_size s).
    assert (zlen recs' = zlen recs) as -> by (unfold recs', zlen; by rewrite length_insert).
    apply page_size_ok_bounds in Hps. unfold FRAME_HEADER_SIZE. lia.
Qed.

Lemma append_wrote s n page :
  store_inv s -> records s !! n = None -> zlen page = page_size s -> 1 <= n < U32_MAX ->
  (exists s', append_active_record n page s = (Ok tt, s') /\ wrote n page s (mark_written n s')) \/
  (append_active_record n page s = (Err Range, s) /\
   U64_MAX < zlen (file s) + (FRAME_HEADER_SIZE + page_size s)).
Proof.
  intros ((meta & recs & nc & L) & B & P) Ho Hl Hn.
  pose proof L as (Hps & Hm & Hf & Hr & Hnd & Hx & Hce & Hnc).
  unfold append_active_record, sbind, sget, slift, active_frame_header, record_len, smod.
  cbn [raw_header fh_stored_len].
  destruct (checked_add (zlen (file s)) (FRAME_HEADER_SIZE + page_size s)) as [stop|] eqn:E.
  2:{ right. cbn [range ok_or]. split; [done|]. unfold checked_add in E. destruct (Z.leb_spec (zlen (file s) + (FRAME_HEADER_SIZE + page_size s)) U64_MAX); [done|lia]. }
  left. apply checked_add_Some in E as [-> Hle]. cbn [range ok_or]. eexists. split; [done|].
  pose proof (page_size_ok_bounds _ Hps) as Hb.
  rewrite record_append by (done || lia). set (s' := set_records _ _).
  assert (n ∉ map fst recs) as Hfresh by (by apply (indexes_none _ _ _ _ Hx)).
  assert (zlen (file s) = rec_offset (page_size s) (length recs)) as Hoff.
  { rewrite Hf. rewrite <- (zlen_prefix _ meta recs (length recs)) by done. by rewrite take_ge. }
  set (recs' := recs ++ [(n, page)]). assert (layout_inv (mark_written n s') meta recs' nc) as L'.
  { split_and!; try done.
    - unfold s', mark_written, file, recs'. cbn. change (af_file (st_active s)) with (file s).
      rewrite records_bytes_app, (assoc_L (++)), Hf. f_equal. unfold records_bytes. cbn. by rewrite app_nil_r.
    - apply Forall_app. split; [done|]. constructor; [|done]. split; done.
    - unfold recs'. rewrite map_app. apply NoDup_app. split; [done|]. split; [|apply NoDup_singleton].
      intros x Hx1 ->%list_elem_of_singleton. done.
    - unfold records, s', mark_written. cbn. change (af_file (st_active s)) with (file s).
      rewrite Hoff. by apply indexes_append.
    - unfold recs'. rewrite length_app. cbn. lia. }
  eapply (wrote_intro s _ meta recs recs' nc); try done.
  - intros m Hne. unfold records, s'. cbn. by rewrite lookup_insert_ne by done.
  - intros m j q Hne Hj. unfold recs'. by apply lookup_app_l_Some.
  - exists (zlen (file s)). assert (records (mark_written n s') !! n = Some (zlen (file s))) as Hn'.
    { unfold records, s', mark_written. cbn. by rewrite lookup_insert, decide_True. }
    split; [done|]. destruct (record_at _ _ _ _ _ _ L' Hn') as (j & q & Hj & Ho' & -> & _).
    change (page_size (mark_written n s')) with (page_size s) in Ho'. rewrite Hoff in Ho'.
    apply rec_offset_inj in Ho' as <-; [|lia].
    assert (recs' !! length recs = Some (n, page)) as Hj' by (by apply list_lookup_middle).
    split; [congruence|]. right. split; [|by rewrite Ho].
    rewrite Hce, Hoff. unfold rec_offset, FRAME_HEADER_SIZE. nia.
  - unfold s', mark_written, file. cbn. change (af_file (st_active s)) with (file s).
    rewrite zlen_app, zlen_record_bytes; [lia|]. split; done.
Qed.

Lemma save_original_lemma s n :
  store_inv s ->
  exists s', save_original n s = (Ok tt, s') /\ store_inv s' /\ frame s' = frame s /\
    file s' = file s /\ records s' = records s /\ st_raw_pages s' = st_raw_pages s /\
    (forall m, content s' m = content s m) /\ (forall m, committed s' m = committed s m) /\
    (forall o, records s !! n = Some o -> o < commit_end s -> is_Some (st_originals s' !! n)).
Proof.
  intros Hi. pose proof Hi as ((meta & recs & nc & L) & B & P). pose proof P as (P1 & P2 & P3).
  unfold save_original, sbind, sget, needs_undo.
  destruct (records s !! n) as [o|] eqn:Eo.
  2:{ exists s. by split_and!. }
  destruct (Z.ltb_spec o (commit_end s)) as [Hlt|Hge]; cbn [andb].
  2:{ exists s. split_and!; try done. intros q [= <-]. lia. }
  destruct (st_originals s !! n) as [p0|] eqn:Ep.
  { rewrite bool_decide_true by (by eexists). exists s. by split_and!. }
  rewrite bool_decide_false by (by intros [? ?]). cbn [negb].
  destruct (record_at _ _ _ _ _ _ L Eo) as (i & p & _ & _ & Hpg & Hpl & Hn & _).
  destruct (read_page_lemma s n Hi ltac:(lia) ltac:(right; by eexists)) as [Hread Hlen].
  assert (content s n = rec_page s o) as Hc.
  { unfold content. rewrite Eo. destruct (beyond n (st_pending_truncate s)) eqn:Eb; [|done].
    rewrite bool_decide_true; [done|]. apply P3; [by eexists|done]. }
  unfold slift, smod. rewrite Hread. eexists. split; [done|].
  split_and!; try done.
  - split; [by exists meta, recs, nc|]. split; [done|]. split_and!; try done.
    intros m q. cbn. destruct (decide (n = m)) as [<-|Hne].
    + rewrite lookup_insert, decide_True by done. intros [= <-]. split; [done|]. by exists o.
    + rewrite lookup_insert_ne by done. apply P1.
  - intros m. unfold committed. cbn. change (records (set_originals _ s)) with (records s).
    destruct (decide (n = m)) as [<-|Hne].
    + rewrite lookup_insert, decide_True by done. by rewrite Ep, Eo, (proj2 (Z.ltb_lt _ _) Hlt).
    + by rewrite lookup_insert_ne by done.
  - intros q _ _. cbn. rewrite lookup_insert, decide_True by done. by eexists.
Qed.

(** Writing a page: either its record now holds [page] and nothing else changed,
    or the file has reached its limit and nothing changed. *)
Lemma write_page_lemma s n page :
  store_inv s -> 1 <= n < U32_MAX -> zlen page = page_size s ->
  (n = 1 -> parse_page_size page = Some (page_size s)) ->
  exists r s', write_mutable_page n page s = (r, s') /\
    (r = Ok tt /\ wrote n page s s' \/
     r = Err Range /\ keeps s s' /\ (forall m, content s' m = content s m) /\ records s !! n = None /\
       U64_MAX < zlen (file s) + (FRAME_HEADER_SIZE + page_size s)).
Proof.
  intros Hi Hn Hl H1. unfold write_mutable_page. unfold sbind at 1, sget at 1.
  rewrite Hl, Z.eqb_refl. cbn [negb].
  assert ((n =? 1) && negb (bool_decide (parse_page_size page = Some (page_size s))) = false) as ->.
  { destruct (Z.eqb_spec n 1); [|done]. by rewrite bool_decide_true by auto. }
  destruct (save_original_lemma s n Hi) as (s1 & E1 & I1 & F1 & Hf & Hrec & Hraw & C1 & K1 & Hundo).
  unfold sbind at 1. rewrite E1. unfold sbind at 1, slift at 1.
  assert (PageNumber_new n = Ok n) as -> by (apply PageNumber_new_spec; unfold page_number_ok, U32_MAX in *; lia).
  cbn [value map_err]. pose proof (frame_page_size _ _ F1) as Hps. pose proof (frame_commit_end _ _ F1) as Hce.
  assert (forall s2, wrote n page s1 s2 -> wrote n page s s2) as Hw.
  { intros s2 (W1 & W2 & W3 & W4 & W5 & W6 & W7 & W8). split_and!; try done.
    - congruence.
    - unfold metadata in *. congruence.
    - intros m. rewrite W4. by destruct (decide (m = n)).
    - intros m. by rewrite W5.
    - by rewrite <- Hf, <- Hps.
    - congruence.
    - intros m. rewrite W8. by rewrite Hrec. }
  destruct (records s !! n) as [o|] eqn:Eo.
  - rewrite bool_decide_true by (by eexists).
    destruct (overwrite_wrote s1 n page o) as (s2 & E2 & W); [done|congruence|congruence| |].
    { rewrite Hce. by apply Hundo. }
    unfold sbind. rewrite E2. eexists _, _. split; [done|]. left. split; [done|]. by apply Hw.
  - rewrite bool_decide_false by (by intros [? ?]).
    destruct (append_wrote s1 n page) as [(s2 & E2 & W)|[E2 Hm]]; [done|congruence|congruence|lia| |].
    + unfold sbind. rewrite E2. eexists _, _. split; [done|]. left. split; [done|]. by apply Hw.
    + unfold sbind. rewrite E2. eexists _, _. split; [done|]. right. rewrite <- Hf, <- Hps. split_and!; try done.
      intros _. split_and!; try done. unfold metadata. congruence.
Qed.

Lemma write_page_keeps s n page r s' :
  0 <= n <= U32_MAX -> write_mutable_page n page s = (r, s') -> keeps s s'.
Proof.
  intros Hn E Hi. pose proof E as E0. unfold write_mutable_page in E. unfold sbind at 1, sget at 1 in E.
  destruct (Z.eqb_spec (zlen page) (page_size s)) as [Hl|]; cbn [negb] in E;
    [|injection E as _ <-; by apply keeps_refl].
  destruct (_ && _) eqn:Ep; [injection E as _ <-; by apply keeps_refl|].
  destruct (save_original_lemma s n Hi) as (s1 & E1 & I1 & F1 & Hf & Hrec & Hraw & C1 & K1 & _).
  unfold sbind at 1 in E. rewrite E1 in E. unfold sbind at 1, slift at 1 in E.
  destruct (PageNumber_new n) as [k|] eqn:Ek; cbn [value map_err] in E.
  2:{ injection E as _ <-. split_and!; try done. unfold metadata. congruence. }
  apply PageNumber_new_spec in Ek as [-> Hk]; [|done]. unfold page_number_ok in Hk.
  destruct (write_page_lemma s n page) as (r2 & s2 & E2 & [[_ W]|(_ & K & _)]); [done|lia|done| | |].
  - intros ->. cbn [andb Z.eqb Pos.eqb] in Ep. by apply negb_false_iff, bool_decide_eq_true in Ep.
  - rewrite E0 in E2. injection E2 as _ ->. destruct W as (W1 & W2 & W3 & _ & W5 & _). by split_and!.
  - rewrite E0 in E2. injection E2 as _ ->. by apply K.
Qed.

(** ** Bytes *)

(** The byte at offset [i] of the database as the current transaction sees it. *)
Definition byte_of (s : Store) (i : Z) : byte := byte_at (content s (i / page_size s + 1)) (i mod page_size s).

(** The same of the last publication. *)
Definition committed_byte (s : Store) (i : Z) : byte :=
  byte_at (committed s (i / page_size s + 1)) (i mod page_size s).

Lemma page_of_byte ps i n : 0 < ps -> i / ps + 1 = n <-> (n - 1) * ps <= i < (n - 1) * ps + ps.
Proof.
  intros Hp. split.
  - intros <-. pose proof (Z.div_mod i ps ltac:(lia)). pose proof (Z.mod_pos_bound i ps Hp). nia.
  - intros Hi. pose proof (Z.div_unique i ps (n - 1) (i - (n - 1) * ps)). lia.
Qed.

Lemma wrote_byte s s' n within b i :
  wrote n (put (content s n) within b) s s' -> 0 < page_size s -> zlen (content s n) = page_size s ->
  0 <= within -> within + zlen b <= page_size s ->
  byte_of s' i = if decide ((n - 1) * page_size s + within <= i < (n - 1) * page_size s + within + zlen b)
                 then byte_at b (i - ((n - 1) * page_size s + within)) else byte_of s i.
Proof.
  intros (_ & F & _ & W & _) Hp Hl Hw Hb. unfold byte_of. rewrite (frame_page_size _ _ F), W.
  set (ps := page_size s) in *. pose proof (Z.mod_pos_bound i ps Hp) as Hmod.
  pose proof (Z.div_mod i ps ltac:(lia)) as Hdm.
  destruct (decide (i / ps + 1 = n)) as [<-|Hne].
  - rewrite byte_at_put by lia. destruct (decide (within <= i mod ps < within + zlen b)) as [Hin|Hout].
    + rewrite decide_True by lia. f_equal. lia.
    + by rewrite decide_False by lia.
  - rewrite decide_False; [done|]. intros Hin. apply Hne, page_of_byte; [done|]. lia.
Qed.

Lemma put_whole (page b : bytes) : zlen page = zlen b -> put page 0 b = b.
Proof.
  intros Hl. rewrite <- (app_nil_r page), <- (app_nil_l (page ++ [])).
  rewrite (put_mid [] page [] b 0) by done. by rewrite app_nil_r.
Qed.

(** One iteration of the write loop. *)
Lemma write_span_lemma s offset input c a :
  store_inv s -> 0 <= offset -> 0 <= c -> 1 <= a -> c + a <= zlen input ->
  let ps := page_size s in let n := (offset + c) / ps + 1 in let within := (offset + c) mod ps in
  within + a <= ps -> n < U32_MAX -> offset + c <= U64_MAX ->
  (a = ps \/ beyond n (st_pending_truncate s) = false \/ n ∉ st_raw_pages s) ->
  (n = 1 -> parse_page_size (put (content s 1) within (slice input c (c + a))) = Some ps) ->
  zlen (file s) + (FRAME_HEADER_SIZE + ps) <= U64_MAX ->
  exists s', write_span offset input (c, a) s = (Ok tt, s') /\
    wrote n (put (content s n) within (slice input c (c + a))) s s'.
Proof.
  intros Hi Ho Hc Ha Hca ps n within Hw Hn Hmax Hfresh H1 Hroom.
  pose proof Hi as ((meta & recs & nc & L) & B & P). pose proof L as (Hps & _).
  pose proof (page_size_ok_bounds _ Hps) as Hb. fold ps in Hb.
  assert (0 <= within) by (apply Z.mod_pos_bound; lia).
  assert (1 <= n) by (unfold n; pose proof (Z.div_pos (offset + c) ps); lia).
  destruct (read_page_lemma s n Hi ltac:(lia) ltac:(by left)) as [Hread Hlen].
  assert (zlen (slice input c (c + a)) = a) as Hsl by (rewrite zlen_slice; lia).
  unfold write_span. unfold sbind at 1, sget at 1. unfold sbind at 1, slift at 1.
  assert (checked_add offset c = Some (offset + c)) as -> by (by apply checked_add_Some).
  cbn [range ok_or]. unfold sbind at 1, slift at 1.
  assert (try_u32 ((offset + c) / page_size s + 1) = Ok n) as -> by (apply try_u32_Ok; fold ps; fold n; split; [done|lia]).
  unfold sbind at 1, slift at 1. fold ps. fold within.
  assert (exists page,
    (if (within =? 0) && (a =? ps) then Ok (slice input c (c + a))
     else if beyond n (st_pending_truncate s) then Ok (zeros ps) else read_page s n) = Ok page /\
    put page within (slice input c (c + a)) = put (content s n) within (slice input c (c + a)))
    as (page & -> & Hput).
  { destruct (Z.eqb_spec within 0) as [Hw0|Hw0]; cbn [andb]; [destruct (Z.eqb_spec a ps) as [Hap|Hap]|].
    1:{ eexists. split; [done|]. rewrite Hw0. rewrite !put_whole; (done || lia). }
    all: destruct (beyond n (st_pending_truncate s)) eqn:Eb; [|by exists (content s n)].
    all: exists (zeros ps); split; [done|]; f_equal; unfold content; rewrite Eb, bool_decide_false; [done|].
    all: destruct Hfresh as [|[|]]; (done || lia). }
  rewrite Hput.
  destruct (write_page_lemma s n (put (content s n) within (slice input c (c + a))))
    as (r & s' & E & [[-> W]|(_ & _ & _ & _ & Hm)]); try done; try lia.
  - by rewrite zlen_put.
  - intros En. rewrite En. apply H1. done.
  - exists s'. by split.
Qed.

(** Bytes [lo..hi] of [input] written at [offset]. *)
Definition wrote_bytes (offset : Z) (input : bytes) (lo hi : Z) (s s' : Store) : Prop :=
  forall i, 0 <= i ->
    byte_of s' i = if decide (offset + lo <= i < offset + hi) then byte_at input (i - offset) else byte_of s i.

Lemma span_step ps offset consumed total :
  0 < ps -> consumed < total ->
  let a := Z.min (total - consumed) (ps - (offset + consumed) mod ps) in
  1 <= a /\ consumed + a <= total /\ (offset + consumed) mod ps + a <= ps /\
  (consumed + a < total -> (offset + (consumed + a)) mod ps = 0 /\
     (offset + (consumed + a)) / ps = (offset + consumed) / ps + 1).
Proof.
  intros Hp Hc a. pose proof (Z.mod_pos_bound (offset + consumed) ps Hp) as Hm.
  split_and!; try lia. intros Hlt. assert (a = ps - (offset + consumed) mod ps) as Ha by lia.
  pose proof (Z.div_mod (offset + consumed) ps ltac:(lia)) as Hd.
  assert (offset + (consumed + a) = ((offset + consumed) / ps + 1) * ps) as -> by lia.
  rewrite Z.mod_mul, Z.div_mul by lia. done.
Qed.

(** The write loop: every byte of the input lands at its offset and no other
    byte of the database changes. *)
Lemma write_loop_lemma fuel : forall s offset input consumed,
  store_inv s -> 0 <= offset -> 0 <= consumed <= zlen input -> (Z.to_nat (zlen input - consumed) <= fuel)%nat ->
  let ps := page_size s in
  offset + zlen input <= (U32_MAX - 1) * ps ->
  (st_pending_truncate s = None \/ (offset + consumed) mod ps = 0 /\ (zlen input - consumed) mod ps = 0) ->
  (offset + consumed < ps ->
     consumed < zlen input ->
     parse_page_size (put (content s 1) (offset + consumed)
       (slice input consumed (consumed + Z.min (zlen input - consumed) (ps - (offset + consumed))))) = Some ps) ->
  zlen (file s) + (zlen input - consumed) * (FRAME_HEADER_SIZE + ps) <= U64_MAX ->
  exists s', sfold (write_span offset input) (spans fuel ps offset consumed (zlen input)) s = (Ok tt, s') /\
    store_inv s' /\ frame s' = frame s /\ metadata s' = metadata s /\
    (forall n, 1 <= n -> committed s' n = committed s n) /\
    wrote_bytes offset input consumed (zlen input) s s'.
Proof.
  induction fuel as [|fuel IH]; intros s offset input consumed Hi Ho Hc Hf ps Hmax Hal H1 Hroom; cbn [spans sfold].
  { assert (consumed = zlen input) by lia. exists s. split_and!; try done.
    intros i H0. by rewrite decide_False by lia. }
  destruct (Z.leb_spec (zlen input) consumed) as [Hdone|Hlt].
  { exists s. split_and!; try done. intros i H0. by rewrite decide_False by lia. }
  pose proof Hi as ((meta & recs & nc & L) & B & P). pose proof L as (Hps & _).
  pose proof (page_size_ok_bounds _ Hps) as Hb. fold ps in Hb, Hps.
  destruct (span_step ps offset consumed (zlen input) ltac:(lia) Hlt) as (A1 & A2 & A3 & A4).
  set (a := Z.min (zlen input - consumed) (ps - (offset + consumed) mod ps)) in *.
  set (n := (offset + consumed) / ps + 1).
  pose proof (Z.div_mod (offset + consumed) ps ltac:(lia)) as Hdm.
  pose proof (Z.mod_pos_bound (offset + consumed) ps ltac:(lia)) as Hmb.
  assert (0 <= (offset + consumed) / ps) as Hq by (apply Z.div_pos; lia).
  assert (n < U32_MAX) as Hn by (unfold n, U32_MAX in *; nia).
  assert (FRAME_HEADER_SIZE + ps <= (zlen input - consumed) * (FRAME_HEADER_SIZE + ps)) as Hone
    by (unfold FRAME_HEADER_SIZE; nia).
  destruct (write_span_lemma s offset input consumed a Hi Ho ltac:(lia) A1 A2) as (s1 & E1 & W); fold ps; fold n; try done.
  - unfold U32_MAX, U64_MAX in *. nia.
  - destruct Hal as [->|[Ha1 Ha2]]; [by right; left|]. left.
    assert (ps <= zlen input - consumed); [|lia].
    apply Z.div_exact in Ha2; [|lia]. set (q := (zlen input - consumed) / ps) in *. assert (1 <= q) by nia. nia.
  - intros En. assert ((offset + consumed) / ps = 0) as Hz by (unfold n in En; lia).
    rewrite Z.mod_small by (apply Z.div_small_iff in Hz; lia). apply Z.div_small_iff in Hz as [Hz|Hz]; [|lia|lia].
    specialize (H1 ltac:(lia) Hlt). unfold a. by rewrite Z.mod_small by lia.
  - lia.
  - pose proof W as (I1 & F1 & M1 & C1 & K1 & Z1 & _). pose proof (frame_page_size _ _ F1) as Hps1. fold ps in Hps1, Z1.
    cbn [sfold]. unfold sbind. rewrite E1.
    destruct (IH s1 offset input (consumed + a)) as (s' & E' & I' & F' & M' & K' & B'); rewrite ?Hps1; try done; try lia.
    + rewrite (frame_truncate _ _ F1). destruct Hal as [->|[Ha1 Ha2]]; [by left|].
      destruct (Z.eq_dec (consumed + a) (zlen input)) as [He|Hne].
      * right. assert (zlen input - consumed = a) as Haeq by lia. split.
        { rewrite Z.add_assoc, <- Haeq, Z.add_mod, Ha1, Ha2 by lia. by rewrite Z.mod_0_l by lia. }
        replace (zlen input - (consumed + a)) with 0 by lia. by rewrite Z.mod_0_l by lia.
      * right. split; [apply A4; lia|]. assert (a = ps) as -> by (unfold a in *; rewrite Ha1 in *; lia).
        replace (zlen input - (consumed + ps)) with (zlen input - consumed + (-1) * ps) by lia.
        by rewrite Z.mod_add by lia.
    + assert (0 <= FRAME_HEADER_SIZE + ps) as Hk by (unfold FRAME_HEADER_SIZE; lia).
      set (k := FRAME_HEADER_SIZE + ps) in *. assert (1 * k <= a * k) by (apply Z.mul_le_mono_nonneg_r; lia).
      assert ((zlen input - consumed) * k = a * k + (zlen input - (consumed + a)) * k) by ring. lia.
    + rewrite Hps1 in E'. exists s'. split_and!; try done; [congruence|congruence| |].
      * intros m Hm. by rewrite K', K1.
      * intros i H0. rewrite (B' i H0).
        assert (zlen (slice input consumed (consumed + a)) = a) as Hsl by (rewrite zlen_slice; lia).
        destruct (read_page_lemma s n Hi ltac:(unfold n; lia) ltac:(by left)) as [_ Hlen].
        rewrite (wrote_byte s s1 n _ _ i W) by (fold ps; rewrite ?Hsl; lia || done).
        rewrite Hsl. fold ps. assert ((n - 1) * ps + (offset + consumed) mod ps = offset + consumed) as -> by (unfold n; lia).
        destruct (decide (offset + (consumed + a) <= i < offset + zlen input)); [by rewrite decide_True by lia|].
        destruct (decide (offset + consumed <= i < offset + consumed + a)).
        -- rewrite decide_True by lia. rewrite byte_at_slice_in by lia. f_equal. lia.
        -- by rewrite decide_False by lia.
Qed.

(** ** The database image *)

Definition bytes_of (f : Z -> byte) (n : Z) : bytes := map (fun k => f (Z.of_nat k)) (seq 0 (Z.to_nat n)).

(** The whole database as the current transaction sees it, and as published. *)
Definition image (s : Store) : bytes := bytes_of (byte_of s) (st_pending_size s).
Definition committed_image (s : Store) : bytes := bytes_of (committed_byte s) (hd_logical_size (st_head s)).

Lemma zlen_bytes_of f n : 0 <= n -> zlen (bytes_of f n) = n.
Proof. intros. unfold bytes_of, zlen. rewrite length_map, length_seq. lia. Qed.

Lemma byte_at_bytes_of f n i : 0 <= i < n -> byte_at (bytes_of f n) i = f i.
Proof.
  intros Hi. unfold bytes_of, byte_at. rewrite (nth_indep _ 0 (f (Z.of_nat 0))) by (rewrite length_map, length_seq; lia).
  rewrite (map_nth (fun k => f (Z.of_nat k))), seq_nth by lia. f_equal. lia.
Qed.

Lemma bytes_of_ext f n l :
  0 <= n -> zlen l = n -> (forall i, 0 <= i < n -> f i = byte_at l i) -> bytes_of f n = l.
Proof.
  intros Hn Hl Hf. apply bytes_ext; rewrite zlen_bytes_of by done; [done|].
  intros i Hi. rewrite byte_at_bytes_of by done. by apply Hf.
Qed.

(** Sizes are not negative, nothing but zero is kept past the end of either
    image, and the recorded cut does not exceed the size. *)
Definition size_inv (s : Store) : Prop :=
  0 <= st_pending_size s /\ 0 <= hd_logical_size (st_head s) /\
  (forall i, st_pending_size s <= i -> byte_of s i = 0) /\
  (forall i, hd_logical_size (st_head s) <= i -> committed_byte s i = 0) /\
  (forall t, min_truncate (af_truncate_pages (st_active s)) (st_pending_truncate s) = Some t ->
     0 <= t /\ t * page_size s <= st_pending_size s) /\
  (forall t, af_truncate_pages (st_active s) = Some t ->
     0 <= t /\ t * page_size s <= hd_logical_size (st_head s)).

Definition db_inv (s : Store) : Prop := store_inv s /\ size_inv s.

Lemma image_byte s i : size_inv s -> 0 <= i -> byte_at (image s) i = byte_of s i.
Proof.
  intros (H1 & _ & H3 & _) Hi. destruct (decide (i < st_pending_size s)).
  - by apply byte_at_bytes_of.
  - rewrite H3 by lia. apply byte_at_past. unfold image. rewrite zlen_bytes_of; lia.
Qed.

Lemma zlen_image s : size_inv s -> zlen (image s) = st_pending_size s.
Proof. intros (H1 & _). by apply zlen_bytes_of. Qed.

Lemma keeps_committed_byte s s' i :
  frame s' = frame s -> (forall n, 1 <= n -> committed s' n = committed s n) -> 0 <= i ->
  page_size_ok (page_size s) -> committed_byte s' i = committed_byte s i.
Proof.
  intros F K Hi Hp%page_size_ok_bounds. unfold committed_byte. rewrite (frame_page_size _ _ F), K; [done|].
  pose proof (Z.div_pos i (page_size s)). lia.
Qed.

(** The size a store reports has no influence on its pages. *)
Lemma set_size_inv n s : store_inv s -> store_inv (set_pending_size n s).
Proof. done. Qed.

Lemma write_at_lemma (e : Env V) s s0 offset input :
  begin_write e s = (Ok tt, s0) -> db_inv s0 -> 0 <= offset -> 1 <= zlen input ->
  let ps := page_size s0 in
  offset + zlen input <= (U32_MAX - 1) * ps ->
  (st_pending_truncate s0 = None \/ offset mod ps = 0 /\ zlen input mod ps = 0) ->
  (offset < ps -> parse_page_size (put (content s0 1) offset
                    (slice input 0 (Z.min (zlen input) (ps - offset)))) = Some ps) ->
  zlen (file s0) + zlen input * (FRAME_HEADER_SIZE + ps) <= U64_MAX ->
  exists s', write_at e offset input s = (Ok (zlen input), s') /\ db_inv s' /\
    image s' = write_all_at (image s0) offset input /\ committed_image s' = committed_image s0 /\
    metadata s' = metadata s0.
Proof.
  intros Hbw [Hi Hz] Ho Hl ps Hmax Hal H1 Hroom. unfold write_at.
  rewrite (proj2 (Z.eqb_neq (zlen input) 0)) by lia. unfold sbind at 1. rewrite Hbw.
  pose proof Hi as ((meta & recs & nc & L) & _). pose proof L as (Hps & _).
  pose proof (page_size_ok_bounds _ Hps) as Hb. fold ps in Hb.
  unfold sbind at 1, slift at 1.
  assert (checked_add offset (zlen input) = Some (offset + zlen input)) as ->
    by (apply checked_add_Some; split; [done|]; unfold U32_MAX, U64_MAX in *; nia).
  cbn [range ok_or]. unfold sbind at 1, sget at 1. rewrite (proj2 (Z.eqb_neq (page_size s0) 0)) by (fold ps; lia).
  destruct (write_loop_lemma (length input) s0 offset input 0) as (s1 & E1 & I1 & F1 & M1 & K1 & B1);
    fold ps; rewrite ?Z.add_0_r, ?Z.sub_0_r, ?Z.add_0_l; try done; try lia.
  { unfold zlen. lia. } { by intros; apply H1. }
  fold ps in E1. unfold sbind, write_mutable_pages, sget, smod. unfold sbind. fold ps. rewrite E1.
  eexists. split; [done|]. set (n := Z.max (st_pending_size s1) (offset + zlen input)).
  pose proof (frame_page_size _ _ F1) as Hps1. fold ps in Hps1.
  assert (st_pending_size s1 = st_pending_size s0) as Hpsz by (by injection F1).
  assert (st_head s1 = st_head s0) as Hh by (by injection F1).
  assert (st_pending_truncate s1 = st_pending_truncate s0 /\
          af_truncate_pages (st_active s1) = af_truncate_pages (st_active s0)) as [Ht1 Ht2]
    by (by injection F1).
  pose proof Hz as (Z1 & Z2 & Z3 & Z4 & Z5 & Z6).
  assert (forall i, 0 <= i -> byte_of (set_pending_size n s1) i =
    if decide (offset <= i < offset + zlen input) then byte_at input (i - offset) else byte_of s0 i) as Hbyte.
  { intros i Hi0. change (byte_of (set_pending_size n s1) i) with (byte_of s1 i). rewrite (B1 i Hi0). by rewrite Z.add_0_r. }
  assert (forall i, 0 <= i -> committed_byte s1 i = committed_byte s0 i) as Hcb
    by (intros; by apply keeps_committed_byte).
  assert (size_inv (set_pending_size n s1)) as Hz'.
  { split_and!.
    - change (0 <= n). lia.
    - change (0 <= hd_logical_size (st_head s1)). by rewrite Hh.
    - intros i Hge. change (n <= i) in Hge. rewrite Hbyte by lia. rewrite decide_False by lia. apply Z3. lia.
    - intros i Hge. change (hd_logical_size (st_head s1) <= i) in Hge. rewrite Hh in Hge.
      change (committed_byte s1 i = 0). rewrite Hcb by lia. by apply Z4.
    - intros t. change (af_truncate_pages (st_active (set_pending_size n s1))) with (af_truncate_pages (st_active s1)).
      change (st_pending_truncate (set_pending_size n s1)) with (st_pending_truncate s1). rewrite Ht1, Ht2.
      intros Ht. destruct (Z5 t Ht). split; [done|]. change (t * page_size s1 <= n). rewrite Hps1. unfold ps. lia.
    - change (forall t, af_truncate_pages (st_active s1) = Some t ->
        0 <= t /\ t * page_size s1 <= hd_logical_size (st_head s1)). rewrite Ht2, Hps1, Hh. exact Z6. }
  split_and!; [by split|..].
  - apply bytes_of_ext; change (st_pending_size (set_pending_size n s1)) with n; [lia| |].
    + rewrite zlen_write_all, zlen_image by done. lia.
    + intros i Hin. rewrite byte_at_write_all, image_byte by (done || lia). rewrite Hbyte by lia. done.
  - unfold committed_image. change (st_head (set_pending_size n s1)) with (st_head s1). rewrite Hh.
    apply bytes_of_ext; [done|by rewrite zlen_bytes_of|]. intros i Hin. rewrite byte_at_bytes_of by done.
    change (committed_byte s1 i = committed_byte s0 i). apply Hcb. lia.
  - done.
Qed.

(** C1. inside a transaction, [write_at] on the page store is a write to a plain
    file. Whatever page boundaries the request crosses, it returns the number of
    bytes written, the database image afterwards is the old image overwritten at
    [offset] (zero-extended when the write starts past the end), the published
    image and the metadata sectors are untouched, and the invariant is kept. The
    request is page-aligned, or no truncation is pending; page 1 keeps a SQLite
    header of the same page size; page numbers and the file fit their widths. *)
Theorem write_at_is_file_write (e : Env V) s s0 offset input :
  begin_write e s = (Ok tt, s0) -> db_inv s0 -> 0 <= offset -> 1 <= zlen input ->
  let ps := page_size s0 in
  offset + zlen input <= (U32_MAX - 1) * ps ->
  (st_pending_truncate s0 = None \/ offset mod ps = 0 /\ zlen input mod ps = 0) ->
  (offset < ps -> parse_page_size (put (content s0 1) offset
                    (slice input 0 (Z.min (zlen input) (ps - offset)))) = Some ps) ->
  zlen (file s0) + zlen input * (FRAME_HEADER_SIZE + ps) <= U64_MAX ->
  exists s', write_at e offset input s = (Ok (zlen input), s') /\ db_inv s' /\
    image s' = write_all_at (image s0) offset input /\ committed_image s' = committed_image s0 /\
    metadata s' = metadata s0.
Proof. apply write_at_lemma. Qed.

(** ** Truncation *)

Lemma parse_zeros n : 0 <= n -> parse_page_size (zeros n) = None.
Proof.
  intros Hn. unfold parse_page_size. rewrite zlen_zeros by done.
  destruct (Z.ltb_spec n 16); [done|]. rewrite slice_zeros by lia. done.
Qed.

(** Zeroing existing records. *)
Lemma zero_loop l : forall s,
  store_inv s -> (forall n, n ∈ l -> 2 <= n /\ is_Some (records s !! n)) ->
  exists s', sfold (fun n => write_mutable_page n (zeros (page_size s))) l s = (Ok tt, s') /\
    store_inv s' /\ frame s' = frame s /\ metadata s' = metadata s /\
    (forall n, committed s' n = committed s n) /\
    (forall n, n ∈ st_raw_pages s' <-> n ∈ l \/ n ∈ st_raw_pages s) /\
    (forall n, is_Some (records s' !! n) <-> is_Some (records s !! n)) /\
    (forall n, content s' n = if decide (n ∈ l) then zeros (page_size s) else content s n).
Proof.
  induction l as [|n l IH]; intros s Hi Hl; cbn [sfold].
  { exists s. split_and!; try done. set_solver. }
  destruct (Hl n ltac:(by left)) as [H2 [o Ho]]. pose proof Hi as ((meta & recs & nc & L) & _).
  destruct (record_at _ _ _ _ _ _ L Ho) as (_ & _ & _ & _ & _ & _ & Hn & _). pose proof L as (Hps & _).
  pose proof (page_size_ok_bounds _ Hps) as Hb.
  destruct (write_page_lemma s n (zeros (page_size s))) as (r & s1 & E1 & [[-> W]|(_ & _ & _ & Hno & _)]);
    [done|lia|by rewrite zlen_zeros by lia|lia| |congruence].
  pose proof W as (I1 & F1 & M1 & C1 & K1 & _ & R1 & D1). pose proof (frame_page_size _ _ F1) as Hps1.
  destruct (IH s1 I1) as (s' & E' & I' & F' & M' & K' & R' & D' & C').
  { intros m Hm. split; [apply Hl; by right|]. apply D1. right. apply Hl. by right. }
  rewrite Hps1 in *. unfold sbind. rewrite E1. exists s'. split_and!; try done; try congruence.
  - intros m. rewrite R', R1, elem_of_union, elem_of_singleton, elem_of_cons. tauto.
  - intros m. rewrite D', D1. split; [intros [->|]; [by eexists|done]|by right].
  - intros m. rewrite C', C1. destruct (decide (m ∈ l)); [by rewrite decide_True by (by right)|].
    destruct (decide (m = n)) as [->|]; [by rewrite decide_True by (by left)|].
    rewrite decide_False; [done|]. intros [|]%elem_of_cons; done.
Qed.

Lemma records_from_elem first m n : n ∈ records_from first m <-> first <= n /\ is_Some (m !! n).
Proof.
  unfold records_from. rewrite isort_perm, list_elem_of_In, filter_In, <- list_elem_of_In, Z.leb_le.
  rewrite list_elem_of_fmap. split.
  - intros [([k v] & -> & Hin%elem_of_map_to_list) Hle]. split; [done|by eexists].
  - intros [Hle [v Hv]]. split; [|done]. exists (n, v). split; [done|]. by apply elem_of_map_to_list.
Qed.

(** Shrinking: pages past [max_page] become zero, the others stay. *)
Lemma truncate_pages_lemma s sz max_page :
  store_inv s -> sz < st_pending_size s -> 0 <= max_page <= U32_MAX - 1 ->
  (max_page = 0 -> records s !! 1 = None) ->
  exists s', truncate_pages sz max_page s = (Ok tt, s') /\ store_inv s' /\
    frame s' = frame (set_truncate (st_pending_truncate s') s) /\ metadata s' = metadata s /\
    st_pending_truncate s' = Some (match st_pending_truncate s with
                                   | Some t => Z.min t max_page
                                   | None => max_page
                                   end) /\
    (forall n, committed s' n = committed s n) /\
    (forall n, content s' n = if max_page <? n then zeros (page_size s) else content s n).
Proof.
  intros Hi Hlt Hm H1. pose proof Hi as ((meta & recs & nc & L) & B & P). pose proof L as (Hps & _).
  pose proof (page_size_ok_bounds _ Hps) as Hb. unfold truncate_pages. unfold sbind at 1, sget at 1.
  rewrite (proj2 (Z.eqb_neq (page_size s) 0)), (proj2 (Z.ltb_lt _ _) Hlt) by lia. cbn [negb andb].
  rewrite Z.min_l by lia.
  destruct (zero_loop (records_from (max_page + 1) (records s)) s Hi) as (s1 & E1 & I1 & F1 & M1 & K1 & R1 & D1 & C1).
  { intros n [Hn Hs]%records_from_elem. split; [|done]. destruct (Z.eq_dec max_page 0) as [->|]; [|lia].
    destruct (Z.eq_dec n 1) as [->|]; [|lia]. rewrite H1 in Hs by done. by destruct Hs. }
  unfold sbind. rewrite E1. unfold smod. eexists. split; [done|].
  pose proof (frame_truncate _ _ F1) as Ht. rewrite Ht.
  set (t := match st_pending_truncate s with Some t => Z.min t max_page | None => max_page end).
  assert (t <= max_page) as Htm by (unfold t; destruct (st_pending_truncate s); lia).
  pose proof I1 as ((meta1 & recs1 & nc1 & L1) & B1 & P1 & P2 & P3).
  assert (forall n, is_Some (records s1 !! n) -> t < n -> n ∈ st_raw_pages s1) as Hraw.
  { intros n Hs Hn. apply R1. destruct (Z.lt_ge_cases max_page n) as [Hgt|Hle].
    - left. apply records_from_elem. split; [lia|]. by apply D1.
    - right. destruct P as (_ & _ & P3'). apply P3'; [by apply D1|]. unfold t in Hn. unfold beyond.
      destruct (st_pending_truncate s); [apply Z.ltb_lt; lia|lia]. }
  split_and!; try done.
  - split; [by exists meta1, recs1, nc1|]. split; [done|]. split_and!; try done.
    intros n Hs Hn. apply Hraw; [done|]. cbn in Hn. by apply Z.ltb_lt in Hn.
  - injection F1 as E2 E3 E4 E5 E6 E7 E8 E9 E10 E11 E12 E13 E14. unfold frame. cbn. congruence.
  - intros n. unfold content at 1. cbn [st_pending_truncate set_truncate set_pending beyond].
    change (st_raw_pages (set_truncate (Some t) s1)) with (st_raw_pages s1).
    change (records (set_truncate (Some t) s1)) with (records s1).
    change (page_size (set_truncate (Some t) s1)) with (page_size s1).
    change (base_page (set_truncate (Some t) s1) n) with (base_page s1 n). rewrite (frame_page_size _ _ F1).
    destruct (Z.ltb_spec max_page n) as [Hgt|Hle].
    + rewrite (proj2 (Z.ltb_lt t n)) by lia. cbn [andb].
      destruct (bool_decide (n ∈ st_raw_pages s1)) eqn:Er; [|done]. cbn [negb].
      apply bool_decide_eq_true in Er. apply P2 in Er as Hs. apply D1 in Hs as Hs0.
      specialize (C1 n). rewrite decide_True in C1 by (apply records_from_elem; split; [lia|done]).
      unfold content in C1. rewrite bool_decide_true in C1 by done. rewrite andb_false_r in C1.
      destruct Hs as [o Ho]. rewrite Ho in *. done.
    + specialize (C1 n). rewrite decide_False in C1 by (intros [? _]%records_from_elem; lia).
      rewrite <- C1. unfold content. rewrite Ht. rewrite (frame_page_size _ _ F1).
      assert (beyond n (st_pending_truncate s) = (t <? n)) as ->; [|done].
      unfold t, beyond. destruct (st_pending_truncate s) as [t0|]; [|by rewrite (proj2 (Z.ltb_ge _ _))].
      destruct (Z.ltb_spec t0 n), (Z.ltb_spec (Z.min t0 max_page) n); (done || lia).
Qed.

Lemma committed_image_frame s s' :
  page_size_ok (page_size s) -> st_head s' = st_head s -> 0 <= hd_logical_size (st_head s) ->
  (forall n, 1 <= n -> committed s' n = committed s n) -> committed_image s' = committed_image s.
Proof.
  intros Hp%page_size_ok_bounds Hh H0 K. unfold committed_image. rewrite Hh.
  apply bytes_of_ext; [done|by rewrite zlen_bytes_of|]. intros i Hi. rewrite byte_at_bytes_of by done.
  unfold committed_byte, page_size in *. rewrite Hh, K; [done|]. pose proof (Z.div_pos i (hd_page_size (st_head s))). lia.
Qed.

Lemma truncate_lemma (e : Env V) s s0 sz :
  begin_write e s = (Ok tt, s0) -> db_inv s0 -> 0 <= sz -> sz mod page_size s0 = 0 ->
  sz <= (U32_MAX - 1) * page_size s0 -> (sz = 0 -> records s0 !! 1 = None) ->
  exists s', truncate e sz s = (Ok tt, s') /\ db_inv s' /\ image s' = set_len (image s0) sz /\
    committed_image s' = committed_image s0 /\ metadata s' = metadata s0.
Proof.
  intros Hbw [Hi Hz] H0 Hm Hmax H1. pose proof Hi as ((meta & recs & nc & L) & _). pose proof L as (Hps & _).
  pose proof (page_size_ok_bounds _ Hps) as Hb. set (ps := page_size s0) in *.
  pose proof Hz as (Z1 & Z2 & Z3 & Z4 & Z5 & Z6). fold ps in Z5.
  assert (page_count sz ps = Ok (sz / ps) /\ sz = sz / ps * ps /\ 0 <= sz / ps <= U32_MAX - 1) as (Hpc & Hsz & Hq).
  { apply Z.div_exact in Hm; [|lia]. assert (0 <= sz / ps <= U32_MAX - 1) by (unfold U32_MAX in *; nia).
    split; [|lia]. apply page_count_spec; [lia|done|lia]. }
  unfold truncate. unfold sbind at 1. rewrite Hbw. unfold sbind at 1, sget at 1.
  assert ((page_size s0 =? 0) = false) as Hne by (apply Z.eqb_neq; fold ps; lia). rewrite Hne.
  assert (is_multiple_of sz (page_size s0) = true) as -> by (by apply multiple_page_size). cbn [negb].
  unfold sbind at 1, sret at 1. unfold sbind at 1, slift at 1. fold ps. rewrite Hpc. unfold sbind at 1.
  destruct (Z.lt_ge_cases sz (st_pending_size s0)) as [Hlt|Hge].
  - destruct (truncate_pages_lemma s0 sz (sz / ps) Hi Hlt Hq) as (s1 & E1 & I1 & F1 & M1 & T1 & K1 & C1).
    { intros He. apply H1. lia. }
    rewrite E1. unfold smod. eexists. split; [done|]. set (s' := set_pending_size sz s1).
    assert (st_head s1 = st_head s0) as Hh by (by injection F1).
    assert (af_truncate_pages (st_active s1) = af_truncate_pages (st_active s0)) as Haf by (by injection F1).
    assert (page_size s1 = ps) as Hps1 by (unfold page_size, ps; by rewrite Hh).
    assert (forall i, 0 <= i -> byte_of s' i = if decide (i < sz) then byte_of s0 i else 0) as Hbyte.
    { intros i Hi0. change (byte_of s' i) with (byte_of s1 i). unfold byte_of. rewrite Hps1, C1. fold ps.
      pose proof (Z.div_mod i ps ltac:(lia)). pose proof (Z.mod_pos_bound i ps ltac:(lia)).
      destruct (Z.ltb_spec (sz / ps) (i / ps + 1)).
      - rewrite decide_False by nia. unfold byte_at, zeros. rewrite nth_lookup.
        destruct (replicate _ _ !! _) eqn:Er; [|done]. by apply lookup_replicate in Er as [-> _].
      - rewrite decide_True by nia. done. }
    assert (committed_image s' = committed_image s0) as Hci
      by (apply committed_image_frame; [done|done|done|by intros; apply K1]).
    split_and!; try done.
    + split; [done|]. split_and!; try done.
      * change (0 <= hd_logical_size (st_head s1)). by rewrite Hh.
      * intros i Hge. change (sz <= i) in Hge. rewrite Hbyte by lia. by rewrite decide_False by lia.
      * intros i Hge. change (hd_logical_size (st_head s1) <= i) in Hge. rewrite Hh in Hge.
        change (committed_byte s1 i = 0). rewrite <- (Z4 i Hge). unfold committed_byte. rewrite Hps1, K1. done.
      * intros t. change (min_truncate (af_truncate_pages (st_active s1)) (st_pending_truncate s1) = Some t ->
          0 <= t /\ t * page_size s1 <= sz). rewrite Haf, T1, Hps1. unfold min_truncate in *.
        destruct (af_truncate_pages (st_active s0)) as [x|], (st_pending_truncate s0) as [y|];
          intros [= <-]; try specialize (Z5 _ eq_refl); nia.
      * change (forall t, af_truncate_pages (st_active s1) = Some t ->
          0 <= t /\ t * page_size s1 <= hd_logical_size (st_head s1)). rewrite Haf, Hps1, Hh. exact Z6.
    + apply bytes_of_ext; change (st_pending_size s') with sz; [done|by rewrite zlen_set_len|].
      intros i Hin. rewrite byte_at_set_len, image_byte by (done || lia). rewrite Hbyte by lia. done.
  - unfold truncate_pages, sbind, sget. rewrite Hne, (proj2 (Z.ltb_ge sz _)) by lia. cbn [negb andb].
    unfold sret, smod. eexists. split; [done|]. split_and!; try done.
    + split; [done|]. split_and!; try done.
      * intros i Hge'. change (sz <= i) in Hge'. apply Z3. lia.
      * intros t Ht. destruct (Z5 t Ht) as [? Hle]. split; [done|].
        change (t * page_size s0 <= sz). fold ps. lia.
    + apply bytes_of_ext; change (st_pending_size (set_pending_size sz s0)) with sz; [done|by rewrite zlen_set_len|].
      intros i Hin. rewrite byte_at_set_len, image_byte, decide_True by (done || lia). done.
Qed.

(** C2. inside a transaction, [truncate] to a whole number of pages is
    [File::set_len] on the database image: it cuts the image or extends it with
    zeros (pages cut off earlier never come back), and leaves the published image
    and the metadata sectors alone. Cutting to nothing needs page 1 not to be an
    active record. *)
Theorem truncate_is_file_truncate (e : Env V) s s0 sz :
  begin_write e s = (Ok tt, s0) -> db_inv s0 -> 0 <= sz -> sz mod page_size s0 = 0 ->
  sz <= (U32_MAX - 1) * page_size s0 -> (sz = 0 -> records s0 !! 1 = None) ->
  exists s', truncate e sz s = (Ok tt, s') /\ db_inv s' /\ image s' = set_len (image s0) sz /\
    committed_image s' = committed_image s0 /\ metadata s' = metadata s0.
Proof. apply truncate_lemma. Qed.

(** ** Rollback *)

Lemma overwrite_layout s meta recs nc n o page :
  layout_inv s meta recs nc -> records s !! n = Some o -> zlen page = page_size s ->
  exists s', overwrite_active_record n page s = (Ok tt, s') /\
    (exists recs', layout_inv s' meta recs' nc /\ length recs' = length recs) /\
    frame s' = frame s /\ records s' = records s /\ st_originals s' = st_originals s /\
    (forall m q, records s !! m = Some q -> rec_page s' q = if decide (m = n) then page else rec_page s q).
Proof.
  intros L Ho Hl. eexists. split.
  { unfold overwrite_active_record, sbind, sget, slift, active_record_offset, smod. by rewrite Ho. }
  destruct (record_at _ _ _ _ _ _ L Ho) as (i & p & Hi & -> & Hpg & Hpl & Hn & _).
  pose proof L as (Hps & Hm & Hf & Hr & Hnd & Hx & Hce & Hnc).
  set (recs' := <[i := (n, page)]> recs). set (s' := set_file _ _).
  assert (layout_inv s' meta recs' nc) as L'.
  { split_and!; try done.
    - unfold s', file. cbn. change (af_file (st_active s)) with (file s). rewrite Hf.
      by apply (record_overwrite _ _ _ _ _ p).
    - apply Forall_insert; [done|]. split; [done|done].
    - unfold recs'. rewrite list_fmap_insert. cbn [fst]. by rewrite list_insert_id by (by rewrite list_lookup_fmap, Hi).
    - by apply (indexes_insert _ _ _ _ _ p).
    - unfold recs'. by rewrite length_insert. }
  split; [exists recs'; split; [done|unfold recs'; by rewrite length_insert]|].
  split_and!; try done. intros m q Hq. pose proof (page_size_ok_bounds _ Hps).
  destruct (decide (m = n)) as [->|Hne].
  - destruct (record_at s' _ _ _ _ _ L' Hq) as (j & x & Hj & Hoff & -> & _). rewrite Ho in Hq. injection Hq as <-.
    change (page_size s') with (page_size s) in Hoff. apply rec_offset_inj in Hoff as <-; [|lia].
    unfold recs' in Hj. rewrite list_lookup_insert_eq in Hj by (by eapply lookup_lt_Some). congruence.
  - eapply (rec_page_moved s s'); try done. intros j x Hj. unfold recs'. rewrite list_lookup_insert_ne; [done|].
    intros <-. congruence.
Qed.

(** The undo copies put back, in any order. *)
Lemma restore_loop l : forall s meta recs nc,
  layout_inv s meta recs nc -> NoDup (map fst l) ->
  (forall n p, (n, p) ∈ l -> zlen p = page_size s /\ exists o, records s !! n = Some o /\ o < commit_end s) ->
  let s' := fold_left restore_original l s in
  (exists recs', layout_inv s' meta recs' nc /\ length recs' = length recs) /\
  frame s' = frame s /\ records s' = records s /\ st_originals s' = st_originals s /\
  (forall m q, records s !! m = Some q ->
     (forall p, (m, p) ∈ l -> rec_page s' q = p) /\ (m ∉ map fst l -> rec_page s' q = rec_page s q)).
Proof.
  induction l as [|[n p] l IH]; intros s meta recs nc L Hnd Hl; cbn [fold_left].
  { split_and!; try done; [by exists recs|]. intros m q Hq. split; [|done]. intros x Hx. by apply elem_of_nil in Hx. }
  cbn [map fst] in Hnd. apply NoDup_cons in Hnd as [Hn Hnd].
  destruct (Hl n p ltac:(by left)) as (Hpl & o & Ho & Hlt).
  destruct (overwrite_layout s meta recs nc n o p L Ho Hpl) as (s1 & E1 & (recs1 & L1 & Len1) & F1 & R1 & O1 & P1).
  assert (restore_original s (n, p) = s1) as ->.
  { unfold restore_original. cbn [fst snd]. by rewrite Ho, (proj2 (Z.ltb_lt _ _) Hlt), E1. }
  destruct (IH s1 meta recs1 nc L1 Hnd) as ((recs' & L' & Len') & F' & R' & O' & P').
  { intros m x Hm. rewrite (frame_page_size _ _ F1), (frame_commit_end _ _ F1), R1. apply Hl. by right. }
  split_and!; [exists recs'; split; [done|congruence]|congruence|congruence|congruence|].
  intros m q Hq. destruct (P' m q ltac:(by rewrite R1)) as [Q1 Q2]. specialize (P1 m q Hq). split.
  - intros x [Hx|Hx]%elem_of_cons; [|by apply Q1]. injection Hx as -> ->.
    rewrite Q2 by done. by rewrite P1, decide_True.
  - intros Hnin. cbn [map fst] in Hnin. rewrite Q2 by (intros ?; apply Hnin; by right).
    rewrite P1, decide_False; [done|]. intros ->. apply Hnin. by left.
Qed.

(** The publication lock after a rollback: a transaction or checkpoint ends. *)
Definition released (o : PublicationPhase) : PublicationPhase :=
  match o with Maintenance => Maintenance | _ => Unlocked end.

Lemma release_shape (s : Store) :
  release_publication (if bool_decide (st_owner s = Checkpoint) then transition Transaction s else s) =
  set_owner (released (st_owner s)) s.
Proof.
  unfold release_publication, transition, is_locked. destruct s as [w o h v l a src raw orig sz tr d b]. cbn.
  destruct o; reflexivity.
Qed.

Lemma discard_lemma s :
  store_inv s ->
  let s' := discard_mutable_pending s in
  store_inv s' /\ has_pending s' = false /\ st_head s' = st_head s /\ st_view s' = st_view s /\
  st_pending_size s' = hd_logical_size (st_head s) /\ metadata s' = metadata s /\
  (forall n, content s' n = committed s n) /\ (forall n, committed s' n = committed s n) /\
  zlen (file s') = commit_end s /\ st_pending_truncate s' = None /\
  af_truncate_pages (st_active s') = af_truncate_pages (st_active s).
Proof.
  intros ((meta & recs & nc & L) & B & P1 & P2 & P3). cbn zeta.
  set (l := isort (fun a b => a.1 <=? b.1) (map_to_list (st_originals s))).
  assert (l ≡ₚ map_to_list (st_originals s)) as Hperm by apply isort_perm.
  destruct (restore_loop l (set_originals ∅ s) meta recs nc) as ((recs1 & L1 & Len) & F1 & R1 & O1 & Q1).
  { exact L. }
  { rewrite Hperm. apply NoDup_fst_map_to_list. }
  { intros n p Hin. rewrite Hperm in Hin. apply elem_of_map_to_list in Hin. by apply P1. }
  unfold discard_mutable_pending. fold l. set (s1 := fold_left restore_original l (set_originals ∅ s)) in *.
  change (frame (set_originals ∅ s)) with (frame s) in F1. change (records (set_originals ∅ s)) with (records s) in *.
  pose proof (frame_page_size _ _ F1) as Hps1. pose proof (frame_commit_end _ _ F1) as Hce1.
  set (s2 := set_pending _ _ _ _ _ _ _).
  rewrite release_shape. set (s3 := set_owner _ _).
  pose proof L1 as (Lp & Lm & Lf & Lr & Ln & Lx & Lc & Lnc).
  assert (page_size s3 = page_size s1) as Hps3 by done.
  assert (file s3 = meta ++ records_bytes (page_size s1) (take nc recs1)) as Hf3.
  { unfold s3, s2, file. cbn. change (af_file (st_active s1)) with (file s1). rewrite Lf.
    rewrite <- (take_drop nc recs1) at 1. rewrite records_bytes_app, (assoc_L (++)).
    apply set_len_cut. rewrite zlen_prefix by done. exact Lc. }
  assert (records s3 = filter (fun p => p.2 < rec_offset (page_size s1) nc) (records s1)) as Hr3.
  { rewrite <- Lc. done. }
  pose proof (page_size_ok_bounds _ Lp) as Hb.
  assert (layout_inv s3 meta (take nc recs1) nc) as L3.
  { split_and!; try done; rewrite ?Hps3.
    - by apply Forall_take.
    - rewrite <- (take_drop nc recs1), map_app in Ln. by apply NoDup_app in Ln as [Ln _].
    - rewrite Hr3. apply indexes_take; [lia|done].
    - rewrite length_take. lia. }
  assert (forall n, base_page s3 n = base_page s n) as Hbase.
  { intros n. change (base_page s3 n) with (base_page s1 n). by apply frame_base_page. }
  assert (forall n o, records s3 !! n = Some o <-> records s !! n = Some o /\ o < commit_end s) as Hrec3.
  { intros n o. rewrite Hr3, map_lookup_filter_Some, R1. cbn [snd]. rewrite <- Lc, Hce1. done. }
  assert (forall n o, records s3 !! n = Some o -> rec_page s3 o = rec_page s1 o) as Hpage.
  { intros n o Ho. apply Hrec3 in Ho as Ho1. destruct Ho1 as [Ho1 Hlt].
    destruct (record_at _ _ _ _ _ _ L3 Ho) as (i & p & Hi & He & -> & _).
    destruct (record_at s1 _ _ _ n o L1 ltac:(by rewrite R1)) as (j & q & Hj & He' & -> & _).
    rewrite Hps3 in He. rewrite He in He'. apply rec_offset_inj in He' as <-; [|lia].
    apply lookup_take_Some in Hi as [Hi _]. congruence. }
  assert (forall n, content s3 n = committed s n) as Hcontent.
  { intros n. unfold content, committed. change (st_pending_truncate s3) with (@None Z). cbn [beyond andb].
    destruct (records s3 !! n) as [o|] eqn:Eo.
    - rewrite (Hpage n o Eo). apply Hrec3 in Eo as [Ho Hlt]. rewrite Ho, (proj2 (Z.ltb_lt _ _) Hlt).
      destruct (Q1 n o Ho) as [QA QB]. destruct (st_originals s !! n) as [p|] eqn:Ep.
      + apply QA. rewrite Hperm. by apply elem_of_map_to_list.
      + rewrite QB; [done|]. rewrite Hperm. intros ([k x] & -> & Hin)%list_elem_of_fmap.
        apply elem_of_map_to_list in Hin. cbn [fst] in *. congruence.
    - rewrite Hbase. destruct (st_originals s !! n) as [p|] eqn:Ep.
      + destruct (P1 n p Ep) as (_ & o & Ho & Hlt). rewrite (proj2 (Hrec3 n o)) in Eo; done.
      + destruct (records s !! n) as [o|] eqn:Ho; [|done]. destruct (Z.ltb_spec o (commit_end s)); [|done].
        rewrite (proj2 (Hrec3 n o)) in Eo; done. }
  assert (st_head s3 = st_head s) as Hh by (by injection F1).
  split_and!; try done.
  - split; [by exists meta, (take nc recs1), nc|].
    split; [change (base_ok s1); by apply (frame_base_ok s)|]. by split_and!.
  - by injection F1.
  - change (st_pending_size s3) with (hd_logical_size (st_head s1)). by rewrite <- Hh.
  - rewrite (metadata_layout _ _ _ _ L3), (metadata_layout _ _ _ _ L). done.
  - intros n. rewrite <- Hcontent. unfold committed, content. change (st_originals s3) with (∅ : gmap Z bytes).
    change (st_pending_truncate s3) with (@None Z). rewrite lookup_empty. cbn [beyond andb].
    destruct (records s3 !! n) as [o|] eqn:Eo; [|done]. apply Hrec3 in Eo as [_ Hlt].
    change (commit_end s3) with (commit_end s1). by rewrite Hce1, (proj2 (Z.ltb_lt _ _) Hlt).
  - rewrite Hf3, zlen_prefix by done. by rewrite <- Hce1, Lc.
  - by injection F1.
Qed.

Lemma store_page_size s : store_inv s -> page_size_ok (page_size s).
Proof. intros ((meta & recs & nc & L) & _). apply L. Qed.

(** The part of [size_inv] about the published image. *)
Definition committed_inv (s : Store) : Prop :=
  0 <= hd_logical_size (st_head s) /\
  (forall i, hd_logical_size (st_head s) <= i -> committed_byte s i = 0) /\
  (forall t, af_truncate_pages (st_active s) = Some t ->
     0 <= t /\ t * page_size s <= hd_logical_size (st_head s)).

(** Rolling back presents the published image again. *)
Lemma rollback_lemma s :
  store_inv s -> committed_inv s ->
  let s' := discard_mutable_pending s in
  db_inv s' /\ image s' = committed_image s /\ committed_image s' = committed_image s /\ has_pending s' = false.
Proof.
  intros Hi (Z2 & Z4 & Z6). pose proof (store_page_size s Hi) as Hps. pose proof (page_size_ok_bounds _ Hps) as Hb.
  destruct (discard_lemma s Hi) as (I' & Hp & Hh & Hv & Hsz & _ & C' & K' & _ & T' & A'). cbn zeta in *.
  set (s' := discard_mutable_pending s) in *.
  assert (page_size s' = page_size s) as Hps' by (unfold page_size; by rewrite Hh).
  assert (forall i, byte_of s' i = committed_byte s i) as Hbyte
    by (intros i; unfold byte_of, committed_byte; by rewrite Hps', C').
  assert (forall i, committed_byte s' i = committed_byte s i) as Hcb
    by (intros i; unfold committed_byte; by rewrite Hps', K').
  split_and!; try done.
  - split; [done|]. split_and!.
    + by rewrite Hsz.
    + by rewrite Hh.
    + intros i. rewrite Hsz, Hbyte. apply Z4.
    + intros i. rewrite Hh, Hcb. apply Z4.
    + rewrite T', A', Hsz, Hps'. intros t Ht. apply Z6. by destruct (af_truncate_pages (st_active s)).
    + rewrite A', Hps', Hh. exact Z6.
  - unfold image. rewrite Hsz. apply bytes_of_ext; [done|by apply zlen_bytes_of|].
    intros i Hin. rewrite Hbyte. unfold committed_image. by rewrite byte_at_bytes_of.
  - by apply committed_image_frame.
Qed.

(** *** Transactions whose operations may fail *)

(** What holds across any step of an open transaction. *)
Definition txn (s s' : Store) : Prop :=
  store_inv s -> st_writable s = true -> is_locked s = true ->
  store_inv s' /\ st_writable s' = true /\ is_locked s' = true /\ st_head s' = st_head s /\
  metadata s' = metadata s /\ af_truncate_pages (st_active s') = af_truncate_pages (st_active s) /\
  forall n, 1 <= n -> committed s' n = committed s n.

Lemma keeps_txn s s' : keeps s s' -> txn s s'.
Proof.
  intros K Hi Hw Hl. destruct (K Hi) as (I' & F & M & C). unfold is_locked in *.
  injection F as E1 E2 E3 E4 E5 E6 E7 E8 E9 E10 E11 E12 E13. rewrite E1, E2, E3, E8. by split_and!.
Qed.

Lemma txn_refl s : txn s s.
Proof. intros ? ? ?. by split_and!. Qed.

Lemma txn_trans a b c : txn a b -> txn b c -> txn a c.
Proof.
  intros H1 H2 Ha Hw Hl. destruct (H1 Ha Hw Hl) as (Hb & Wb & Lb & Eb & Mb & Tb & Cb).
  destruct (H2 Hb Wb Lb) as (Hc & Wc & Lc & Ec & Mc & Tc & Cc). split_and!; try done; try congruence.
  intros n Hn. by rewrite Cc, Cb.
Qed.

Lemma begin_write_locked (e : Env V) s :
  st_writable s = true -> is_locked s = true -> begin_write e s = (Ok tt, s).
Proof. intros Hw Hl. unfold begin_write, sbind, sget. by rewrite Hw, Hl. Qed.

Lemma write_span_keeps s offset input span r s' :
  0 <= offset -> 0 <= span.1 -> write_span offset input span s = (r, s') -> keeps s s'.
Proof.
  destruct span as [c a]. cbn [fst]. intros Ho Hc E Hi. pose proof (store_page_size s Hi) as Hps%page_size_ok_bounds.
  unfold write_span in E. unfold sbind at 1, sget at 1 in E.
  unfold sbind at 1, slift at 1 in E. destruct (range (checked_add offset c)) as [l|] eqn:El;
    [|injection E as _ <-; by apply keeps_refl].
  unfold range in El. apply ok_or_Ok, checked_add_Some in El as [-> Hmax].
  unfold sbind at 1, slift at 1 in E. destruct (try_u32 _) as [n|] eqn:En; [|injection E as _ <-; by apply keeps_refl].
  apply try_u32_Ok in En as [-> Hn].
  unfold sbind at 1, slift at 1 in E. destruct (if _ && _ then _ else _) as [page|]; [|injection E as _ <-; by apply keeps_refl].
  eapply write_page_keeps in E; [by apply E|]. pose proof (Z.div_pos (offset + c) (page_size s)). lia.
Qed.

Lemma spans_nonneg fuel ps offset consumed total span :
  0 < ps -> 0 <= consumed -> span ∈ spans fuel ps offset consumed total -> 0 <= span.1.
Proof.
  intros Hp. revert consumed; induction fuel as [|fuel IH]; intros consumed Hc Hin; cbn [spans] in Hin.
  { by apply elem_of_nil in Hin. }
  destruct (Z.leb_spec total consumed) as [|Hlt]; [by apply elem_of_nil in Hin|].
  pose proof (span_step ps offset consumed total Hp Hlt) as (A1 & _).
  apply elem_of_cons in Hin as [->|Hin]; [done|]. eapply IH; [|exact Hin]. lia.
Qed.

Lemma write_at_txn (e : Env V) s offset input r s' :
  0 <= offset -> write_at e offset input s = (r, s') -> txn s s'.
Proof.
  intros Ho E Hi Hw Hl. pose proof (store_page_size s Hi) as Hps. pose proof (page_size_ok_bounds _ Hps) as Hb.
  unfold write_at in E. destruct (zlen input =? 0); [injection E as _ <-; by apply txn_refl|].
  unfold sbind at 1 in E. rewrite begin_write_locked in E by done.
  unfold sbind at 1, slift at 1 in E. destruct (range _) as [stop|]; [|injection E as _ <-; by apply txn_refl].
  unfold sbind at 1, sget at 1 in E. rewrite (proj2 (Z.eqb_neq (page_size s) 0)) in E by lia.
  assert (forall r s1, write_mutable_pages offset input s = (r, s1) -> keeps s s1) as K.
  { intros r1 s1 E1. unfold write_mutable_pages, sbind, sget in E1. eapply (sfold_rel keeps); [..|exact E1].
    - apply keeps_refl.
    - apply keeps_trans.
    - intros span t rt t' Hin Et. eapply write_span_keeps; [exact Ho| |exact Et].
      eapply spans_nonneg; [| |exact Hin]; lia. }
  apply sbind_inv in E as [([] & s1 & E1 & E2)|(err & E1 & _)]; [|by apply (keeps_txn s s' (K _ _ E1))].
  unfold sbind, smod, sret in E2. injection E2 as _ <-.
  apply (keeps_txn s s1 (K _ _ E1)); done.
Qed.

(** The zeroing loop of a truncation, whether or not it gets to its end. *)
Lemma zero_loop_any l : forall s r s' zero,
  (forall n, n ∈ l -> 0 <= n <= U32_MAX) -> sfold (fun n => write_mutable_page n zero) l s = (r, s') ->
  store_inv s ->
  keeps s s' /\
  (r = Ok tt -> (forall n, n ∈ st_raw_pages s' <-> n ∈ l \/ n ∈ st_raw_pages s) /\
     (forall n, is_Some (records s' !! n) <-> n ∈ l \/ is_Some (records s !! n))).
Proof.
  induction l as [|n l IH]; intros s r s' zero Hl E Hi; cbn [sfold] in E.
  { injection E as <- <-. split; [apply keeps_refl|]. intros _. split; intros n; set_solver. }
  apply sbind_inv in E as [([] & s1 & E1 & E2)|(err & E1 & ->)].
  - assert (keeps s s1) as K1 by (eapply write_page_keeps; [apply Hl; by left|exact E1]).
    destruct (IH s1 r s' zero ltac:(intros; apply Hl; by right) E2 ltac:(by apply K1)) as [K2 H2].
    split; [by eapply keeps_trans|]. intros Hr. destruct (H2 Hr) as [R2 D2].
    assert (wrote n zero s s1) as (_ & _ & _ & _ & _ & _ & R1 & D1).
    { pose proof E1 as E0. unfold write_mutable_page in E1. unfold sbind at 1, sget at 1 in E1.
      destruct (Z.eqb_spec (zlen zero) (page_size s)) as [Hzl|]; cbn [negb] in E1; [|done].
      destruct (_ && _) eqn:Ep; [done|].
      destruct (save_original_lemma s n Hi) as (s2 & Es & _). unfold sbind at 1 in E1. rewrite Es in E1.
      unfold sbind at 1, slift at 1 in E1. destruct (PageNumber_new n) as [k|] eqn:Ek; cbn [value map_err] in E1; [|done].
      apply PageNumber_new_spec in Ek as [-> Hk]; [|apply Hl; by left].
      destruct (write_page_lemma s n zero) as (r3 & s3 & E3 & [[_ W]|(-> & _)]); try done.
      - intros ->. cbn [andb Z.eqb Pos.eqb] in Ep. by apply negb_false_iff, bool_decide_eq_true in Ep.
      - rewrite E0 in E3. by injection E3 as _ ->.
      - rewrite E0 in E3. done. }
    split; intros m.
    + rewrite R2, R1, elem_of_union, elem_of_singleton, elem_of_cons. tauto.
    + rewrite D2, D1, elem_of_cons. tauto.
  - split; [|done]. eapply write_page_keeps; [apply Hl; by left|exact E1].
Qed.

Lemma records_bound s n : store_inv s -> is_Some (records s !! n) -> 1 <= n < U32_MAX.
Proof. intros ((meta & recs & nc & L) & _) [o Ho]. by destruct (record_at _ _ _ _ _ _ L Ho) as (_ & _ & _ & _ & _ & _ & ? & _). Qed.

Lemma truncate_pages_txn s sz max_page r s' :
  0 <= max_page <= U32_MAX -> truncate_pages sz max_page s = (r, s') -> txn s s'.
Proof.
  intros Hm E Hi Hw Hl. unfold truncate_pages in E. unfold sbind at 1, sget at 1 in E.
  destruct (_ && _); [|injection E as _ <-; by apply txn_refl].
  apply sbind_inv in E as [([] & s1 & E1 & E2)|(err & E1 & _)].
  2:{ apply zero_loop_any in E1 as [K _]; [|intros n [? Hn]%records_from_elem; pose proof (records_bound s n Hi Hn); lia|done].
      by apply (keeps_txn s s' K). }
  apply zero_loop_any in E1 as [K H1];
    [|intros n [? Hn]%records_from_elem; pose proof (records_bound s n Hi Hn); lia|done].
  destruct (H1 eq_refl) as [R1 D1]. destruct (K Hi) as (I1 & F1 & M1 & C1).
  destruct (keeps_txn s s1 K Hi Hw Hl) as (_ & W1 & L1 & Hh & _ & T1 & _).
  unfold smod in E2. injection E2 as _ <-. split_and!; try done.
  pose proof I1 as (HL1 & B1 & P1 & P2 & P3). split; [exact HL1|]. split; [done|]. split_and!; try done.
  intros n Hs Hb. change (is_Some (records s1 !! n)) in Hs. cbn in Hb. apply Z.ltb_lt in Hb.
  change (n ∈ st_raw_pages s1). rewrite (frame_truncate _ _ F1) in Hb.
  apply D1 in Hs as Hs0. apply R1. destruct Hs0 as [Hin|Hs0]; [by left|].
  pose proof (records_bound s n Hi Hs0) as Hn.
  destruct (Z.lt_ge_cases max_page n) as [Hgt|Hle].
  - left. apply records_from_elem. split; [lia|done].
  - right. destruct Hi as (_ & _ & _ & _ & P3'). apply P3'; [done|]. unfold beyond.
    destruct (st_pending_truncate s); [apply Z.ltb_lt; lia|lia].
Qed.

Lemma truncate_txn (e : Env V) s sz r s' :
  0 <= sz -> truncate e sz s = (r, s') -> txn s s'.
Proof.
  intros Hsz E Hi Hw Hl. pose proof (store_page_size s Hi) as Hps. pose proof (page_size_ok_bounds _ Hps) as Hb.
  unfold truncate in E. unfold sbind at 1 in E. rewrite begin_write_locked in E by done.
  unfold sbind at 1, sget at 1 in E. rewrite (proj2 (Z.eqb_neq (page_size s) 0)) in E by lia.
  unfold sbind at 1 in E. destruct (negb _); [injection E as _ <-; by apply txn_refl|].
  unfold sret at 1 in E. unfold sbind at 1, slift at 1 in E.
  destruct (page_count sz (page_size s)) as [q|] eqn:Eq; [|injection E as _ <-; by apply txn_refl].
  apply page_count_spec in Eq as [_ Hq]; [|done|done].
  apply sbind_inv in E as [([] & s1 & E1 & E2)|(err & E1 & _)]; [|by apply (truncate_pages_txn s sz q _ _ Hq E1)].
  unfold smod in E2. injection E2 as _ <-. by apply (truncate_pages_txn s sz q _ _ Hq E1).
Qed.

(** A step of a transaction: its result is whatever it is. *)
Inductive step : Type :=
| WriteAt (e : Env V) (offset : Z) (input : bytes)
| Truncate (e : Env V) (sz : Z).

Definition step_ok (o : step) : Prop :=
  match o with WriteAt _ offset _ => 0 <= offset | Truncate _ sz => 0 <= sz end.

Definition run_step (s : Store) (o : step) : Store :=
  match o with
  | WriteAt e offset input => snd (write_at e offset input s)
  | Truncate e sz => snd (truncate e sz s)
  end.

Lemma run_steps_txn l : forall s, Forall step_ok l -> txn s (fold_left run_step l s).
Proof.
  induction l as [|o l IH]; intros s Hl; cbn [fold_left]; [apply txn_refl|].
  inversion Hl as [|? ? Ho Hl']; subst. eapply txn_trans; [|by apply IH]. destruct o as [e offset input|e sz]; cbn [run_step].
  - destruct (write_at e offset input s) as [r s'] eqn:E. by eapply write_at_txn.
  - destruct (truncate e sz s) as [r s'] eqn:E. by eapply truncate_txn.
Qed.


(** ** Two behaviours that differ from a plain file *)

(** C21. a partial write to a page past a pending truncation starts from a zero
    page even when the same transaction has already written that page, so the
    bytes it wrote there before are lost. *)
Theorem partial_write_past_truncation_forgets (s : Store) offset input c a :
  store_inv s -> 0 <= offset -> 0 <= c -> 1 <= a -> c + a <= zlen input ->
  let ps := page_size s in let n := (offset + c) / ps + 1 in let within := (offset + c) mod ps in
  within + a <= ps -> a <> ps -> 2 <= n < U32_MAX -> offset + c <= U64_MAX ->
  beyond n (st_pending_truncate s) = true -> zlen (file s) + (FRAME_HEADER_SIZE + ps) <= U64_MAX ->
  exists s', write_span offset input (c, a) s = (Ok tt, s') /\
    content s' n = put (zeros ps) within (slice input c (c + a)).
Proof.
  intros Hi Ho Hc Ha Hca ps n within Hw Hne Hn Hmax Hb Hroom.
  pose proof (page_size_ok_bounds _ (store_page_size s Hi)) as Hps. fold ps in Hps.
  unfold write_span. unfold sbind at 1, sget at 1. unfold sbind at 1, slift at 1.
  assert (checked_add offset c = Some (offset + c)) as -> by (by apply checked_add_Some).
  cbn [range ok_or]. unfold sbind at 1, slift at 1.
  assert (try_u32 ((offset + c) / page_size s + 1) = Ok n) as -> by (apply try_u32_Ok; fold ps; fold n; split; [done|lia]).
  unfold sbind at 1, slift at 1. fold ps. fold within. rewrite (proj2 (Z.eqb_neq a ps)), andb_false_r, Hb by done.
  destruct (write_page_lemma s n (put (zeros ps) within (slice input c (c + a))))
    as (r & s' & E & [[-> W]|(_ & _ & _ & _ & Hm)]); fold ps; try done; try lia.
  - rewrite zlen_put, zlen_zeros; lia.
  - exists s'. split; [done|]. destruct W as (_ & _ & _ & W & _). by rewrite W, decide_True.
Qed.

(** C22. truncating a database to nothing is refused as soon as page 1 is an
    active record: the zero page it would write there has no SQLite header. *)
Theorem truncate_to_nothing_refused (e : Env V) (s : Store) :
  store_inv s -> st_writable s = true -> is_locked s = true -> is_Some (records s !! 1) ->
  0 < st_pending_size s -> exists s', truncate e 0 s = (Err (InvalidPageSize 0), s').
Proof.
  intros Hi Hw Hl H1 Hsz. pose proof (page_size_ok_bounds _ (store_page_size s Hi)) as Hps.
  unfold truncate. unfold sbind at 1. rewrite begin_write_locked by done. unfold sbind at 1, sget at 1.
  rewrite (proj2 (Z.eqb_neq (page_size s) 0)) by lia.
  assert (is_multiple_of 0 (page_size s) = true) as -> by (by apply multiple_page_size; [apply store_page_size|]).
  cbn [negb]. unfold sbind at 1, sret at 1. unfold sbind at 1, slift at 1. unfold page_count. cbn [Z.eqb].
  unfold sbind at 1, truncate_pages. unfold sbind at 1, sget at 1.
  rewrite (proj2 (Z.eqb_neq (page_size s) 0)), (proj2 (Z.ltb_lt 0 _)) by lia. cbn [negb andb].
  change (Z.min (0 + 1) U32_MAX) with 1.
  assert (exists l, records_from 1 (records s) = 1 :: l) as [l ->].
  { assert (1 ∈ records_from 1 (records s)) as Hin by (apply records_from_elem; split; [lia|done]).
    pose proof (isort_sorted Z.leb ltac:(lia) ltac:(lia)
      (List.filter (fun k => 1 <=? k) (map fst (map_to_list (records s))))) as Hs.
    fold (records_from 1 (records s)) in Hs. remember (records_from 1 (records s)) as l eqn:El.
    destruct l as [|x l]; [by apply elem_of_nil in Hin|]. exists l. f_equal.
    assert (1 <= x) as Hx.
    { assert (x ∈ records_from 1 (records s)) as Hx by (rewrite <- El; by left).
      by apply records_from_elem in Hx as [? _]. }
    apply elem_of_cons in Hin as [|Hin]; [done|]. inversion Hs as [|? ? _ Hall]; subst.
    rewrite Forall_forall in Hall. specialize (Hall 1 Hin). lia. }
  cbn [sfold]. unfold sbind at 1. unfold sbind at 1. unfold write_mutable_page. unfold sbind at 1, sget at 1.
  rewrite zlen_zeros, Z.eqb_refl, parse_zeros by lia. cbn [negb andb Z.eqb Pos.eqb].
  rewrite bool_decide_false by done. cbn [negb]. by eexists.
Qed.
End Proofs.
