(* ===== verification/StoreRead.v ===== *)
(** Reads of the page store: the single-page loop and the batched loop return
    the bytes of the image, and both terminate. *)

From S2P Require Import Prelude Domain Layout Format Segment Active Store StoreProofs.
From stdpp Require Import base strings gmap list sorting.
From Stdlib Require Import ZArith Lia.
Open Scope Z_scope.

Section Reads.
Context {HH : Hashes} {HOK : HashesOk HH} {V : Type} {VV : SealedView V}.
Abbreviation Store := (Store V).

(** Bytes [lo..hi] of the database. *)
Definition segment (s : Store) (lo hi : Z) : bytes := bytes_of (fun k => byte_of s (lo + k)) (hi - lo).

Lemma segment_app s a b c : a <= b -> b <= c -> segment s a b ++ segment s b c = segment s a c.
Proof.
  intros Hab Hbc. apply bytes_ext; unfold segment; rewrite ?zlen_app, !zlen_bytes_of by lia; [lia|].
  intros i Hi. rewrite byte_at_bytes_of by lia. unfold byte_at at 1.
  pose proof (zlen_bytes_of (fun k => byte_of s (a + k)) (b - a) ltac:(lia)) as Hl.
  destruct (decide (i < b - a)).
  - rewrite app_nth1 by (unfold zlen in Hl; lia).
    change (nth (Z.to_nat i) ?l 0) with (byte_at l i). by rewrite byte_at_bytes_of by lia.
  - rewrite app_nth2 by (unfold zlen in Hl; lia).
    replace (Z.to_nat i - length (bytes_of (fun k => byte_of s (a + k)) (b - a)))%nat with (Z.to_nat (i - (b - a)))
      by (unfold zlen in Hl; lia).
    change (nth (Z.to_nat ?k) ?l 0) with (byte_at l k). rewrite byte_at_bytes_of by lia. f_equal. lia.
Qed.

Lemma segment_nil s a : segment s a a = [].
Proof. unfold segment, bytes_of. by rewrite Z.sub_diag. Qed.

Lemma segment_page s n w a :
  0 < page_size s -> zlen (content s n) = page_size s -> 0 <= w -> 0 <= a -> w + a <= page_size s ->
  slice (content s n) w (w + a) = segment s ((n - 1) * page_size s + w) ((n - 1) * page_size s + w + a).
Proof.
  intros Hp Hl Hw Ha Hle. symmetry. unfold segment.
  replace ((n - 1) * page_size s + w + a - ((n - 1) * page_size s + w)) with a by lia.
  apply bytes_of_ext; [done|rewrite zlen_slice; lia|]. intros i Hi.
  rewrite byte_at_slice_in by lia. unfold byte_of.
  replace (((n - 1) * page_size s + w + i) / page_size s + 1) with n.
  2:{ symmetry. apply page_of_byte; [done|]. lia. }
  f_equal. replace ((n - 1) * page_size s + w + i) with (w + i + (n - 1) * page_size s) by lia.
  rewrite Z.mod_add by lia. apply Z.mod_small. lia.
Qed.

Lemma segment_image s lo hi :
  size_inv s -> 0 <= lo <= hi -> hi <= st_pending_size s -> segment s lo hi = slice (image s) lo hi.
Proof.
  intros Hz Hlo Hhi. pose proof (zlen_image s Hz) as Hl. unfold segment.
  apply bytes_of_ext; [lia|rewrite zlen_slice; lia|]. intros i Hi. rewrite byte_at_slice_in by lia.
  by rewrite image_byte by (done || lia).
Qed.

Lemma read_loop_lemma fuel : forall s offset consumed total,
  store_inv s -> 0 <= offset -> 0 <= consumed <= total -> (Z.to_nat (total - consumed) <= fuel)%nat ->
  offset + total <= (U32_MAX - 1) * page_size s ->
  exists l, mmap (read_span s offset) (spans fuel (page_size s) offset consumed total) = Ok l /\
    concat l = segment s (offset + consumed) (offset + total).
Proof.
  induction fuel as [|fuel IH]; intros s offset consumed total Hi Ho Hc Hf Hmax; cbn [spans mmap].
  { exists []. split; [done|]. replace total with consumed by lia. by rewrite segment_nil. }
  destruct (Z.leb_spec total consumed) as [Hd|Hlt]; cbn [mmap].
  { exists []. split; [done|]. replace total with consumed by lia. by rewrite segment_nil. }
  pose proof (page_size_ok_bounds _ (store_page_size s Hi)) as Hb. set (ps := page_size s) in *.
  destruct (span_step ps offset consumed total ltac:(lia) Hlt) as (A1 & A2 & A3 & _).
  set (a := Z.min (total - consumed) (ps - (offset + consumed) mod ps)) in *.
  pose proof (Z.div_mod (offset + consumed) ps ltac:(lia)) as Hdm.
  pose proof (Z.mod_pos_bound (offset + consumed) ps ltac:(lia)) as Hmb.
  assert (0 <= (offset + consumed) / ps) as Hq by (apply Z.div_pos; lia).
  set (n := (offset + consumed) / ps + 1). assert (n < U32_MAX) as Hn by (unfold n, U32_MAX in *; nia).
  destruct (read_page_lemma s n Hi ltac:(unfold n; lia) ltac:(by left)) as [Hread Hlen].
  destruct (IH s offset (consumed + a) total Hi Ho ltac:(lia) ltac:(lia) Hmax) as (l & El & Hl). fold ps in El.
  unfold read_span at 1. fold ps.
  assert (checked_add offset consumed = Some (offset + consumed)) as ->
    by (apply checked_add_Some; split; [done|]; unfold U32_MAX, U64_MAX in *; nia).
  cbn [range ok_or rbind]. assert (checked_add ((offset + consumed) / ps) 1 = Some n) as ->
    by (apply checked_add_Some; split; [done|]; unfold n, U32_MAX, U64_MAX in *; lia).
  cbn [range ok_or rbind]. assert (try_u32 n = Ok n) as -> by (apply try_u32_Ok; split; [done|lia]).
  cbn [rbind]. rewrite Hread. cbn [rbind]. rewrite (proj2 (Z.ltb_ge _ _)) by lia. cbn [rbind].
  rewrite El. cbn [rbind]. eexists. split; [done|]. cbn [concat]. rewrite Hl.
  rewrite (segment_page s n) by (fold ps; done || lia). fold ps.
  assert ((n - 1) * ps + (offset + consumed) mod ps = offset + consumed) as -> by (unfold n; lia).
  rewrite Z.add_assoc. apply segment_app; lia.
Qed.

(** A window reads its pages in order and stops at the end of the request. *)
Lemma read_window_lemma n : forall s offset total first copied acc,
  store_inv s -> 0 <= offset -> 0 <= copied < total -> offset + total <= (U32_MAX - 1) * page_size s ->
  first = (offset + copied) / page_size s + 1 ->
  first + Z.of_nat n - 1 <= (offset + total - 1) / page_size s + 1 -> (1 <= n)%nat ->
  exists copied', read_window n s offset total first copied acc =
    Ok (acc ++ segment s (offset + copied) (offset + copied'), copied') /\
    copied < copied' <= total /\
    (copied' < total -> copied' = (first + Z.of_nat n - 1) * page_size s - offset).
Proof.
  induction n as [|n IH]; intros s offset total first copied acc Hi Ho Hc Hmax Hf Hl Hn; [lia|]. cbn [read_window].
  pose proof (page_size_ok_bounds _ (store_page_size s Hi)) as Hb. set (ps := page_size s) in *.
  pose proof (Z.div_mod (offset + copied) ps ltac:(lia)) as Hdm.
  pose proof (Z.mod_pos_bound (offset + copied) ps ltac:(lia)) as Hmb.
  assert (0 <= (offset + copied) / ps) as Hq by (apply Z.div_pos; lia).
  assert (1 <= first < U32_MAX) as Hfirst by (unfold U32_MAX in *; nia).
  assert (try_u32 first = Ok first) as -> by (apply try_u32_Ok; split; [done|lia]). cbn [rbind].
  assert (PageNumber_new first = Ok first) as ->
    by (apply PageNumber_new_spec; unfold page_number_ok, U32_MAX in *; lia).
  cbn [value map_err rbind].
  destruct (read_page_lemma s first Hi ltac:(lia) ltac:(left; lia)) as [-> Hlen]. cbn [rbind]. fold ps in Hlen.
  rewrite Hlen. set (count := Z.min (total - copied) (ps - (offset + copied) mod ps)).
  rewrite (segment_page s first) by (fold ps; done || lia). fold ps.
  assert ((first - 1) * ps + (offset + copied) mod ps = offset + copied) as -> by (rewrite Hf; lia).
  destruct (Nat.eq_dec n 0) as [->|Hn0].
  { cbn [read_window]. exists (copied + count). rewrite Z.add_assoc. split; [done|]. split; [lia|]. intros. rewrite Hf. lia. }
  assert (copied + count < total) as Hmore.
  { assert (first < (offset + total - 1) / ps + 1) as Hlt by lia.
    assert (first * ps <= offset + total - 1).
    { pose proof (Z.mul_div_le (offset + total - 1) ps ltac:(lia)). nia. }
    rewrite Hf in *. nia. }
  assert (count = ps - (offset + copied) mod ps) as Hcount by lia.
  destruct (IH s offset total (first + 1) (copied + count) (acc ++ segment s (offset + copied) (offset + copied + count)) Hi Ho)
    as (copied' & -> & Hc' & Hend); try done; try lia.
  - fold ps. rewrite Hf. assert (offset + (copied + count) = ((offset + copied) / ps + 1) * ps) as -> by lia.
    by rewrite Z.div_mul by lia.
  - fold ps. lia.
  - exists copied'. split; [|split; [lia|]].
    + rewrite <- (assoc_L (++)). do 3 f_equal. replace (offset + (copied + count)) with (offset + copied + count) by lia.
      apply segment_app; lia.
    + intros Hlt. fold ps in Hend. rewrite Hend by done. lia.
Qed.

Lemma read_batched_lemma fuel : forall s offset total copied acc,
  store_inv s -> 0 <= offset -> 0 <= copied <= total -> offset + total <= (U32_MAX - 1) * page_size s ->
  (Z.to_nat (total - copied) <= fuel)%nat ->
  read_batched fuel s offset total copied acc =
    Some (Ok (acc ++ segment s (offset + copied) (offset + total))).
Proof.
  induction fuel as [|fuel IH]; intros s offset total copied acc Hi Ho Hc Hmax Hf; cbn [read_batched].
  { rewrite (proj2 (Z.leb_le _ _)) by lia. replace total with copied by lia. by rewrite segment_nil, app_nil_r. }
  destruct (Z.leb_spec total copied) as [Hd|Hlt].
  { replace total with copied by lia. by rewrite segment_nil, app_nil_r. }
  pose proof (page_size_ok_bounds _ (store_page_size s Hi)) as Hb.
  assert (offset + total <= U64_MAX) as H64 by (unfold U32_MAX, U64_MAX in *; nia).
  assert (checked_add offset copied = Some (offset + copied)) as -> by (apply checked_add_Some; split; [done|lia]).
  assert (checked_add offset total = Some (offset + total)) as -> by (by apply checked_add_Some).
  cbn [range ok_or rbind].
  set (first := (offset + copied) / page_size s + 1).
  set (last := Z.min ((offset + total - 1) / page_size s + 1) (first + 255)).
  assert (first <= (offset + total - 1) / page_size s + 1) as Hle.
  { unfold first. apply Z.add_le_mono_r, Z.div_le_mono; lia. }
  destruct (read_window_lemma (Z.to_nat (last - first + 1)) s offset total first copied acc Hi Ho)
    as (copied' & -> & Hc' & _); try done; try lia.
  rewrite IH by (done || lia). rewrite <- app_assoc. by rewrite segment_app by lia.
Qed.

(** C3. [read_at] terminates and returns the bytes of the database image: as many
    as the image has in the requested range, in a buffer whose rest is zero. The
    page-at-a-time loop and the batched loop (256 pages a round) agree, across
    page boundaries and at the end of the database. *)
Theorem read_at_returns_image (s : Store) offset n :
  db_inv s -> 0 <= offset -> 0 <= n -> offset + n <= (U32_MAX - 1) * page_size s ->
  let stop := Z.min (st_pending_size s) (offset + n) in
  let b := slice (image s) offset stop in
  read_at s offset n = Some (Ok (zlen b, b ++ zeros (n - zlen b))).
Proof.
  intros [Hi Hz] Ho Hn Hmax. cbn zeta. pose proof (page_size_ok_bounds _ (store_page_size s Hi)) as Hb.
  pose proof Hz as (Z1 & _). unfold read_at.
  destruct ((n =? 0) || (st_pending_size s <=? offset)) eqn:E.
  { assert (slice (image s) offset (Z.min (st_pending_size s) (offset + n)) = []) as ->.
    { apply slice_nil_ge. apply orb_true_iff in E as [?%Z.eqb_eq|?%Z.leb_le]; lia. }
    change (zlen []) with 0. by rewrite Z.sub_0_r. }
  apply orb_false_iff in E as [E1%Z.eqb_neq E2%Z.leb_gt].
  rewrite (proj2 (Z.eqb_neq (page_size s) 0)) by lia.
  set (actual := Z.min (st_pending_size s - offset) n).
  assert (Z.min (st_pending_size s) (offset + n) = offset + actual) as -> by lia.
  assert (slice (image s) offset (offset + actual) = segment s offset (offset + actual)) as ->
    by (symmetry; apply segment_image; [done|lia|lia]).
  assert (zlen (segment s offset (offset + actual)) = actual) as Hl by (unfold segment; rewrite zlen_bytes_of; lia).
  rewrite Hl. destruct (page_size s <? actual).
  - rewrite read_batched_lemma by (done || lia). cbn [option_map rmap app]. by rewrite Z.add_0_r, Hl.
  - destruct (read_loop_lemma (Z.to_nat actual) s offset 0 actual) as (l & -> & Hc); [done|lia|lia|lia|lia|].
    cbn [rmap]. by rewrite Hc, Z.add_0_r, Hl.
Qed.
End Reads.
