(* ===== verification/StoreCommit.v ===== *)
(** Publication and reload of the page store: what a commit makes durable is
    what opening the file presents. *)

From S2P Require Import Prelude Domain Layout Format Segment Active Store StoreProofs.
From stdpp Require Import base strings gmap list sorting.
From Stdlib Require Import ZArith Lia.
Open Scope Z_scope.

Section Commit.
Context {HH : Hashes} {HOK : HashesOk HH} {V : Type} {VV : SealedView V}.
Abbreviation Store := (Store V).

(** ** Publishing *)

Lemma beyond_min n a b : beyond n (min_truncate a b) = beyond n a || beyond n b.
Proof.
  destruct a as [x|], b as [y|]; cbn [min_truncate beyond]; rewrite ?orb_false_r; try done.
  destruct (Z.ltb_spec (Z.min x y) n), (Z.ltb_spec x n), (Z.ltb_spec y n); (done || lia).
Qed.

(** The store right after the state sector is written and adopted. *)
Definition published (e : Env V) (retain : bool) (s : Store) : Store :=
  let sequence := af_state_sequence (st_active s) + 1 in
  let state := next_state e s (hd_txid (st_head s) + 1) sequence in
  commit_state e state (zlen (file s)) retain
    (set_file (write_all_at (file s) (active_state_offset sequence) (ActiveState_encode state)) s).

Lemma state_offset_cases q :
  active_state_offset q = ACTIVE_STATE_A_OFFSET \/ active_state_offset q = ACTIVE_STATE_B_OFFSET.
Proof. unfold active_state_offset. destruct (is_multiple_of q 2); auto. Qed.

Lemma write_sector meta rest q st :
  zlen meta = ACTIVE_METADATA_END ->
  write_all_at (meta ++ rest) (active_state_offset q) (ActiveState_encode st) =
  put meta (active_state_offset q) (ActiveState_encode st) ++ rest.
Proof.
  intros Hm. pose proof (zlen_ActiveState_encode st) as He. unfold SECTOR_SIZE in He.
  assert (0 <= active_state_offset q /\ active_state_offset q + 4096 <= zlen meta) as [H0 H1].
  { rewrite Hm. destruct (state_offset_cases q) as [->| ->]; done. }
  apply bytes_ext.
  - rewrite zlen_write_all, !zlen_app, zlen_put by done. pose proof (zlen_nonneg rest). lia.
  - intros i [Hi _]. rewrite byte_at_write_all by done.
    destruct (decide (i < zlen meta)) as [Hlt|Hge].
    + unfold byte_at at 2 3. rewrite !app_nth1 by (unfold zlen in *; rewrite ?length_app; pose proof (zlen_put meta (active_state_offset q) (ActiveState_encode st)); unfold zlen in *; lia).
      change (nth (Z.to_nat i) ?l 0) with (byte_at l i). by rewrite byte_at_put by lia.
    + rewrite decide_False by lia. unfold byte_at.
      pose proof (zlen_put meta (active_state_offset q) (ActiveState_encode st)). unfold zlen in *.
      rewrite !app_nth2 by lia. f_equal. lia.
Qed.

(** Publishing makes the transaction's pages the committed ones. *)
Lemma published_lemma (e : Env V) retain s :
  store_inv s ->
  let s' := published e retain s in
  store_inv s' /\ has_pending s' = false /\ st_pending_size s' = st_pending_size s /\
  hd_logical_size (st_head s') = st_pending_size s /\ page_size s' = page_size s /\
  (forall n, content s' n = content s n) /\ (forall n, committed s' n = content s n) /\
  metadata s' = put (metadata s) (active_state_offset (af_state_sequence (st_active s) + 1))
                  (ActiveState_encode (next_state e s (hd_txid (st_head s) + 1) (af_state_sequence (st_active s) + 1))) /\
  records s' = records s /\ commit_end s' = zlen (file s) /\ zlen (file s') = zlen (file s) /\ st_view s' = st_view s.
Proof.
  intros ((meta & recs & nc & L) & B & P1 & P2 & P3). cbn zeta. unfold published.
  set (q := af_state_sequence (st_active s) + 1). set (st := next_state _ _ _ _).
  set (s' := commit_state _ _ _ _ _).
  pose proof L as (Lp & Lm & Lf & Lr & Ln & Lx & Lc & Lnc).
  assert (forall A (g : Store -> A), (forall o t, g (set_owner o t) = g t) ->
    g s' = g (set_pending ∅ ∅ (st_pending_size s) None false None
                (set_head (mkHeadState (page_size s) (st_pending_size s) (as_txid st) (hd_history (st_head s))
                   (active_state_offset q) (zlen (file s))
                   (if hd_oldest_dirty_unix (st_head s) =? 0 then env_now e else hd_oldest_dirty_unix (st_head s))
                   (env_now e))
                (set_active (mkActiveFile (write_all_at (file s) (active_state_offset q) (ActiveState_encode st))
                   (af_header (st_active s)) q (records s) (as_truncate_pages st)) s)))) as Hg.
  { intros A g Ho. unfold s', commit_state, transition, release_publication.
    destruct retain; [destruct (is_locked _)|destruct (bool_decide _)]; rewrite ?Ho; reflexivity. }
  assert (page_size s' = page_size s) as Hps by (by apply (Hg _ page_size)).
  assert (file s' = put meta (active_state_offset q) (ActiveState_encode st) ++ records_bytes (page_size s) recs) as Hf'.
  { rewrite (Hg _ file) by done. unfold file at 1. cbn [st_active set_pending set_head set_active af_file].
    rewrite Lf. by apply write_sector. }
  assert (records s' = records s) as Hrec by (by apply (Hg _ records)).
  assert (commit_end s' = zlen (file s)) as Hce by (by apply (Hg _ commit_end)).
  assert (st_view s' = st_view s) as Hv by (by apply (Hg _ st_view)).
  assert (zlen (file s) = rec_offset (page_size s) (length recs)) as Hlen.
  { rewrite Lf, <- (zlen_prefix _ meta recs (length recs)) by done. by rewrite take_ge. }
  assert (layout_inv s' (put meta (active_state_offset q) (ActiveState_encode st)) recs (length recs)) as L'.
  { unfold layout_inv. rewrite Hps, Hrec, Hce, zlen_put. by split_and!. }
  assert (forall n o, records s !! n = Some o -> rec_page s' o = rec_page s o) as Hpage.
  { intros n o Ho. eapply (rec_page_moved s s'); try done. by rewrite Hrec. }
  assert (af_truncate_pages (st_active s') = min_truncate (af_truncate_pages (st_active s)) (st_pending_truncate s)) as Htr
    by (by apply (Hg _ (fun t => af_truncate_pages (st_active t)))).
  assert (forall n, base_page s' n = if beyond n (st_pending_truncate s) then zeros (page_size s) else base_page s n) as Hbase.
  { intros n. unfold base_page. rewrite Htr, beyond_min, Hps, Hv, (Hg _ st_source), (Hg _ (fun t => af_header (st_active t))) by done.
    cbn [st_source set_pending set_head set_active af_header st_active].
    by destruct (beyond n (af_truncate_pages (st_active s))), (beyond n (st_pending_truncate s)). }
  assert (forall n, match records s !! n with Some o => rec_page s o | None => base_page s' n end = content s n) as Hmain.
  { intros n. unfold content. rewrite Hbase. destruct (records s !! n) as [o|] eqn:Eo.
    - destruct (beyond n (st_pending_truncate s)) eqn:Eb; [|done].
      rewrite bool_decide_true; [done|]. apply P3; [by eexists|done].
    - destruct (beyond n (st_pending_truncate s)) eqn:Eb; [|done].
      rewrite bool_decide_false; [done|]. intros [o Ho]%P2. congruence. }
  split_and!; try done.
  - split; [by eexists _, _, _|]. split.
    + destruct B as [Bv Bs]. unfold base_ok. rewrite Hps, Hv, (Hg _ st_source), (Hg _ (fun t => af_header (st_active t))) by done.
      by split.
    + unfold pending_inv. rewrite Hps, (Hg _ st_originals), (Hg _ st_raw_pages), (Hg _ st_pending_truncate) by done.
      cbn. by split_and!.
  - rewrite (Hg _ has_pending) by done. reflexivity.
  - by apply (Hg _ st_pending_size).
  - by apply (Hg _ (fun t => hd_logical_size (st_head t))).
  - intros n. rewrite <- Hmain. unfold content. rewrite (Hg _ st_pending_truncate), Hrec by done. cbn [st_pending_truncate set_pending beyond andb].
    destruct (records s !! n) as [o|] eqn:Eo; [by eapply Hpage|done].
  - intros n. rewrite <- Hmain. unfold committed. rewrite (Hg _ st_originals), Hrec, Hce by done. cbn [st_originals set_pending].
    rewrite lookup_empty. destruct (records s !! n) as [o|] eqn:Eo; [|done].
    rewrite (Hpage n o Eo). destruct (record_at _ _ _ _ _ _ L Eo) as (i & p & Hi & -> & _).
    rewrite (proj2 (Z.ltb_lt _ _)); [done|]. rewrite Hlen. apply page_size_ok_bounds in Lp.
    apply rec_offset_lt; [lia|]. by eapply lookup_lt_Some.
  - rewrite (metadata_layout _ _ _ _ L), (metadata_layout _ _ _ _ L'). done.
  - rewrite Hf', zlen_app, zlen_put, <- zlen_app, <- Lf. done.
Qed.

(** The outcomes of publishing a pending transaction. *)
Lemma publish_run (e : Env V) durable retain s :
  has_pending s = true -> page_size s <> 0 ->
  hd_txid (st_head s) + 1 <= U64_MAX -> af_state_sequence (st_active s) + 1 <= U64_MAX ->
  publish_inner e durable retain s =
    if durable && negb (env_data_sync e) then (Err Io, s)
    else (if durable && negb (env_state_sync e) then Err PublicationUncertain else Ok tt, published e retain s).
Proof.
  intros Hp Hps Ht Hq. unfold publish_inner. unfold sbind at 1, sget at 1. rewrite Hp. cbn [negb].
  rewrite (proj2 (Z.eqb_neq _ _) Hps). unfold sbind at 1, slift at 1.
  assert (checked_add (hd_txid (st_head s)) 1 = Some (hd_txid (st_head s) + 1)) as -> by (by apply checked_add_Some).
  cbn [range ok_or]. unfold sbind at 1, slift at 1. destruct (durable && negb (env_data_sync e)); [done|].
  unfold sbind at 1, slift at 1.
  assert (checked_add (af_state_sequence (st_active s)) 1 = Some (af_state_sequence (st_active s) + 1)) as ->
    by (by apply checked_add_Some).
  cbn [range ok_or]. unfold sbind, smod, slift. done.
Qed.

(** *** At the level of the image *)

Lemma published_image (e : Env V) retain s :
  db_inv s ->
  let s' := published e retain s in
  db_inv s' /\ image s' = image s /\ committed_image s' = image s /\ has_pending s' = false.
Proof.
  intros [Hi Hz]. pose proof (store_page_size s Hi) as Hps. pose proof (page_size_ok_bounds _ Hps) as Hb.
  destruct (published_lemma e retain s Hi) as (I' & Hp & Hsz & Hls & Hps' & C' & K' & _). cbn zeta in *.
  assert (af_truncate_pages (st_active (published e retain s)) =
          min_truncate (af_truncate_pages (st_active s)) (st_pending_truncate s) /\
          st_pending_truncate (published e retain s) = None) as [Ht Hpt].
  { unfold published, commit_state, transition, release_publication.
    destruct retain; [destruct (is_locked _)|destruct (bool_decide _)]; done. }
  set (s' := published e retain s) in *. destruct Hz as (Z1 & Z2 & Z3 & Z4 & Z5 & Z6).
  assert (forall i, byte_of s' i = byte_of s i) as Hbyte by (intros; unfold byte_of; by rewrite Hps', C').
  assert (forall i, committed_byte s' i = byte_of s i) as Hcb
    by (intros; unfold byte_of, committed_byte; by rewrite Hps', K').
  split_and!; try done.
  - split; [done|]. split_and!; rewrite ?Hsz, ?Hls, ?Hps', ?Ht, ?Hpt; try done.
    + intros i. rewrite Hbyte. apply Z3.
    + intros i. rewrite Hcb. apply Z3.
    + intros t Hmt. apply Z5. by destruct (min_truncate _ _).
  - unfold image. rewrite Hsz. apply bytes_of_ext; [done|by apply zlen_bytes_of|].
    intros i Hin. rewrite Hbyte. by rewrite byte_at_bytes_of.
  - unfold committed_image. rewrite Hls. apply bytes_of_ext; [done|by apply zlen_bytes_of|].
    intros i Hin. rewrite Hcb. unfold image. by rewrite byte_at_bytes_of.
Qed.

(** ** The metadata sectors *)

Definition sector (st : option ActiveState) : bytes :=
  match st with Some x => ActiveState_encode x | None => zeros ACTIVE_STATE_SIZE end.

(** The current state sector describes the head, the other one is older or empty. *)
Definition meta_ok (s : Store) (cur : ActiveState) (other : option ActiveState) : Prop :=
  let header := af_header (st_active s) in
  active_header_ok header /\ slice (metadata s) 0 ACTIVE_HEADER_SIZE = ActiveHeader_encode header /\
  active_state_ok cur /\ as_database_id cur = ah_database_id header /\
  as_sequence cur = af_state_sequence (st_active s) /\
  (let o := active_state_offset (as_sequence cur) in
   slice (metadata s) o (o + ACTIVE_STATE_SIZE) = ActiveState_encode cur) /\
  (let o := active_state_offset (as_sequence cur + 1) in
   slice (metadata s) o (o + ACTIVE_STATE_SIZE) = sector other) /\
  match other with
  | Some x => active_state_ok x /\ as_database_id x = ah_database_id header /\ as_sequence x < as_sequence cur
  | None => as_sequence cur = 1
  end /\
  as_page_size cur = page_size s /\ ah_page_size header = page_size s /\
  as_logical_size cur = hd_logical_size (st_head s) /\
  as_txid cur = hd_txid (st_head s) /\ as_history cur = hd_history (st_head s) /\
  as_truncate_pages cur = af_truncate_pages (st_active s) /\
  rec_offset (page_size s) (Z.to_nat (as_record_count cur)) = commit_end s.

Lemma offsets_alternate q :
  0 <= q -> active_state_offset (q + 1) = if is_multiple_of q 2 then ACTIVE_STATE_A_OFFSET else ACTIVE_STATE_B_OFFSET.
Proof.
  intros Hq. unfold active_state_offset, is_multiple_of. change (2 =? 0) with false. cbn [negb].
  pose proof (Z.mod_pos_bound q 2 ltac:(lia)). rewrite <- Z.add_mod_idemp_l by lia.
  destruct (Z.eqb_spec (q mod 2) 0) as [->|]; [done|]. by replace (q mod 2) with 1 by lia.
Qed.

Lemma sector_decode file db o st :
  slice file o (o + ACTIVE_STATE_SIZE) = sector st -> o + ACTIVE_STATE_SIZE <= zlen file ->
  match st with Some x => active_state_ok x /\ as_database_id x = db | None => True end ->
  read_state_sector file db o = Ok st.
Proof.
  intros Hs Hl Hok. unfold read_state_sector, read_exact_at. rewrite (proj2 (Z.ltb_ge _ _)) by lia.
  cbn [rbind]. rewrite Hs. destruct st as [x|]; cbn [sector]; [|done]. destruct Hok as [Hok Hdb].
  rewrite active_state_roundtrip_lemma by done. destruct (all_zero (ActiveState_encode x)) eqn:Ez.
  - apply all_zero_spec in Ez. exfalso. pose proof (active_state_roundtrip_lemma x Hok) as Hd.
    rewrite Ez, zlen_ActiveState_encode in Hd. vm_compute in Hd. done.
  - cbn [map_err rbind]. by rewrite Hdb, bytes_eqb_refl.
Qed.

Lemma metadata_slice s a b :
  store_inv s -> 0 <= a -> b <= ACTIVE_METADATA_END -> slice (file s) a b = slice (metadata s) a b.
Proof.
  intros _ Ha Hb. unfold metadata. by rewrite slice_slice, Z.add_0_l by lia.
Qed.

Lemma read_state_lemma s cur other :
  store_inv s -> meta_ok s cur other -> read_active_state (file s) (ah_database_id (af_header (st_active s))) = Ok cur.
Proof.
  intros Hi (_ & _ & Hc & Hdb & Hq & Hcur & Hoth & Hother & _). cbn zeta in *.
  assert (ACTIVE_METADATA_END <= zlen (file s)) as Hlen.
  { destruct Hi as ((meta & recs & nc & (_ & Hm & -> & _)) & _). rewrite zlen_app, Hm.
    pose proof (zlen_nonneg (records_bytes (page_size s) recs)). lia. }
  assert (forall o st, o = ACTIVE_STATE_A_OFFSET \/ o = ACTIVE_STATE_B_OFFSET ->
    slice (metadata s) o (o + ACTIVE_STATE_SIZE) = sector st ->
    match st with Some x => active_state_ok x /\ as_database_id x = ah_database_id (af_header (st_active s)) | None => True end ->
    read_state_sector (file s) (ah_database_id (af_header (st_active s))) o = Ok st) as Hsec.
  { intros o st Ho Hs Hok. assert (0 <= o /\ o + ACTIVE_STATE_SIZE <= ACTIVE_METADATA_END) as [H0 H1]
      by (destruct Ho as [-> | ->]; done).
    apply sector_decode; [|lia|done]. by rewrite metadata_slice. }
  assert (match other with Some x => active_state_ok x /\ as_database_id x = ah_database_id (af_header (st_active s)) | None => True end) as Hook
    by (destruct other as [x|]; [tauto|done]).
  assert (0 <= as_sequence cur) as Hq0 by (destruct Hc as (_ & _ & ? & _); lia).
  pose proof (Hsec _ (Some cur) (state_offset_cases _) Hcur (conj Hc Hdb)) as R1.
  pose proof (Hsec _ other (state_offset_cases _) Hoth Hook) as R2.
  unfold read_active_state. rewrite (offsets_alternate _ Hq0) in R2. unfold active_state_offset in R1.
  destruct (is_multiple_of (as_sequence cur) 2); rewrite R1, R2; cbn [rbind]; destruct other as [x|]; cbn [newest_state ok_or rbind andb].
  - destruct Hother as (_ & _ & Hlt). by rewrite (proj2 (Z.leb_le _ _)) by lia.
  - by rewrite Hother.
  - destruct Hother as (_ & _ & Hlt). by rewrite (proj2 (Z.leb_gt _ _)) by lia.
  - by rewrite Hother.
Qed.

Lemma indexes_size ps recs m :
  indexes ps recs m -> NoDup (map fst recs) -> size m = length recs.
Proof.
  intros Hx Hnd. rewrite <- size_dom.
  assert (dom m = list_to_set (map fst recs) :> gset Z) as ->.
  { apply set_eq. intros n. rewrite elem_of_dom, elem_of_list_to_set.
    pose proof (indexes_none ps recs m n Hx) as Hn. destruct (m !! n) eqn:E.
    - split; [|by eexists]. intros _. destruct (decide (n ∈ map fst recs)) as [|Hni]; [done|]. by apply Hn in Hni.
    - split; [by intros [? ?]|]. intros Hin. by apply Hn in Hin. }
  rewrite size_list_to_set by done. by rewrite length_map.
Qed.

(** What must fit the widths of the state sector. *)
Definition sector_fits (e : Env V) (s : Store) : Prop :=
  st_pending_size s mod page_size s = 0 /\ st_pending_size s <= U32_MAX * page_size s /\
  hd_txid (st_head s) + 1 <= U64_MAX /\ af_state_sequence (st_active s) + 1 <= U64_MAX /\
  is_u64 (env_now e) /\ is_u64 (hd_oldest_dirty_unix (st_head s)) /\ zlen (file s) <= U64_MAX.

Lemma next_state_ok (e : Env V) s cur other :
  db_inv s -> meta_ok s cur other -> sector_fits e s ->
  active_state_ok (next_state e s (hd_txid (st_head s) + 1) (af_state_sequence (st_active s) + 1)).
Proof.
  intros [Hi Hz] (Hh & _ & Hc & _ & Hq & _ & _ & _ & _ & _ & _ & Htx & Hhist & _) (F1 & F2 & F3 & F4 & F5 & F6 & F7).
  pose proof (store_page_size s Hi) as Hps. pose proof (page_size_ok_bounds _ Hps) as Hb.
  destruct Hz as (Z1 & _ & _ & _ & Z5 & _). destruct Hi as ((meta & recs & nc & L) & _).
  pose proof L as (_ & Lm & Lf & Lr & Ln & Lx & _). destruct Hc as (C1 & C2 & C3 & C4 & _).
  assert (Z.of_nat (size (records s)) <= zlen (file s)) as Hcount.
  { rewrite (indexes_size _ _ _ Lx Ln), Lf, zlen_app, zlen_records_bytes by done.
    pose proof (zlen_nonneg meta). unfold zlen, FRAME_HEADER_SIZE in *. nia. }
  unfold active_state_ok, next_state.
  cbn [as_database_id as_sequence as_txid as_logical_size as_page_size as_history as_commit_unix as_first_commit_unix as_record_count as_truncate_pages].
  unfold is_u64, U64_MAX, U32_MAX in *. rewrite <- Hq, <- Htx, <- Hhist in *.
  assert (st_pending_size s < 18446744073709551616) by nia.
  assert (0 <= (if hd_oldest_dirty_unix (st_head s) =? 0 then env_now e else hd_oldest_dirty_unix (st_head s)) <
          18446744073709551616) by (destruct (hd_oldest_dirty_unix (st_head s) =? 0); lia).
  split_and!; try done; try lia.
  - apply Hh.
  - by right.
  - destruct (min_truncate _ _) as [t|]; [|done]. destruct (Z5 t eq_refl) as [T0 T1].
    assert (t <= st_pending_size s / page_size s) by (apply Z.div_le_lower_bound; lia).
    unfold is_u32. split_and!; try lia. nia.
Qed.

Lemma put_sector_slices meta q x :
  zlen meta = ACTIVE_METADATA_END -> 0 <= q ->
  let m := put meta (active_state_offset (q + 1)) (ActiveState_encode x) in
  slice m 0 ACTIVE_HEADER_SIZE = slice meta 0 ACTIVE_HEADER_SIZE /\
  (let o := active_state_offset q in
   slice m o (o + ACTIVE_STATE_SIZE) = slice meta o (o + ACTIVE_STATE_SIZE)) /\
  (let o := active_state_offset (q + 1) in slice m o (o + ACTIVE_STATE_SIZE) = ActiveState_encode x).
Proof.
  intros Hm Hq. cbn zeta. pose proof (zlen_ActiveState_encode x) as He.
  rewrite (offsets_alternate q Hq). unfold active_state_offset.
  destruct (is_multiple_of q 2); split_and!.
  all: first [apply slice_put_same; rewrite ?He, ?Hm; done
             |apply slice_put_before; done
             |apply slice_put_after; rewrite ?He; done].
Qed.

Lemma published_meta (e : Env V) retain s cur other :
  db_inv s -> meta_ok s cur other -> sector_fits e s ->
  meta_ok (published e retain s)
    (next_state e s (hd_txid (st_head s) + 1) (af_state_sequence (st_active s) + 1)) (Some cur).
Proof.
  intros Hdb Hmeta Hfit. pose proof (next_state_ok e s cur other Hdb Hmeta Hfit) as Hok.
  pose proof Hdb as [Hi Hz]. destruct (published_lemma e retain s Hi) as (I' & _ & _ & Hls & Hps' & _ & _ & Hm' & Hrec & Hce & _).
  cbn zeta in *. set (st := next_state _ _ _ _) in *.
  destruct Hmeta as (M1 & M2 & M3 & M4 & M5 & M6 & M7 & M8 & M9 & M10 & M11 & M12 & M13 & M14 & M15). cbn zeta in *.
  assert (af_header (st_active (published e retain s)) = af_header (st_active s) /\
          af_state_sequence (st_active (published e retain s)) = af_state_sequence (st_active s) + 1 /\
          hd_txid (st_head (published e retain s)) = hd_txid (st_head s) + 1 /\
          hd_history (st_head (published e retain s)) = hd_history (st_head s) /\
          af_truncate_pages (st_active (published e retain s)) = as_truncate_pages st) as (P1 & P2 & P3 & P4 & P5).
  { unfold published, commit_state, transition, release_publication.
    destruct retain; [destruct (is_locked _)|destruct (bool_decide _)]; done. }
  destruct Hi as ((meta & recs & nc & L) & _). pose proof L as (Lp & Lm & Lf & Lr & Ln & Lx & _).
  assert (0 <= af_state_sequence (st_active s)) as Hq0 by (rewrite <- M5; destruct M3 as (_ & _ & ? & _); lia).
  destruct (put_sector_slices (metadata s) (af_state_sequence (st_active s)) st) as (S1 & S2 & S3); [|done|].
  { rewrite (metadata_layout _ _ _ _ L). done. }
  cbn zeta in *. rewrite <- Hm' in S1, S2, S3. unfold meta_ok.
  assert (as_sequence st = as_sequence cur + 1) as Hseq by (rewrite M5; done).
  rewrite P1, P2, P3, P4, P5, Hps', Hls, Hce. cbn zeta. rewrite <- M5 in S2, S3 |- *. rewrite Hseq.
  split_and!; try done; try congruence; try lia.
  - replace (as_sequence cur + 1 + 1) with (as_sequence cur + 2) by lia.
    assert (active_state_offset (as_sequence cur + 2) = active_state_offset (as_sequence cur)) as ->.
    { unfold active_state_offset, is_multiple_of. change (2 =? 0) with false. cbv iota.
      replace (as_sequence cur + 2) with (as_sequence cur + 1 * 2) by lia. by rewrite Z.mod_add by lia. }
    rewrite S2. cbn [sector]. done.
  - cbn [as_record_count st next_state]. rewrite (indexes_size _ _ _ Lx Ln), Nat2Z.id.
    rewrite Lf, <- (zlen_prefix _ meta recs (length recs)) by done. by rewrite take_ge.
Qed.

(** ** Opening the file again *)

Definition sealed_size (v : option V) : Z := match v with Some v => lb_bytes (view_size v) | None => 0 end.
Definition sealed_txid (v : option V) : Z := match v with Some v => view_txid v | None => 0 end.
Definition sealed_history (v : option V) : Digest :=
  match v with Some v => view_history v | None => genesis_history end.

(** The header continues the base the store is attached to. *)
Definition attached (s : Store) : Prop :=
  let header := af_header (st_active s) in
  let v := st_view s in
  (forall w, v = Some w -> view_database w = ah_database_id header) /\
  ah_start_txid header = sealed_txid v + 1 /\ sealed_txid v + 1 <= U64_MAX /\
  ah_base_history header = sealed_history v /\ ah_base_logical_size header = sealed_size v /\
  hd_history (st_head s) = sealed_history v /\ sealed_txid v <= hd_txid (st_head s) /\
  (hd_txid (st_head s) = sealed_txid v -> hd_logical_size (st_head s) = sealed_size v) /\
  ah_source_bytes header = 0 /\ st_source s = None.

(** The store [load_local] builds, once the uncommitted tail is cut. *)
Definition reopened (s t : Store) (cur : ActiveState) (m : gmap Z Z) : Store :=
  let header := af_header (st_active s) in
  mkStore (st_writable t) (st_owner t)
    (mkHeadState (as_page_size cur) (as_logical_size cur) (as_txid cur) (as_history cur)
       (if as_txid cur <? ah_start_txid header then 0 else active_state_offset (as_sequence cur))
       (commit_end s)
       (if as_first_commit_unix cur =? 0 then as_commit_unix cur else as_first_commit_unix cur)
       (as_commit_unix cur))
    (st_view s) (ah_layout header)
    (mkActiveFile (set_len (file s) (commit_end s)) header (as_sequence cur) m (as_truncate_pages cur))
    None ∅ ∅ (as_logical_size cur) None false None.

Lemma load_run (e : Env V) s t cur other :
  store_inv s -> meta_ok s cur other -> attached s -> zlen (file s) <= U64_MAX ->
  exists m recs nc, (let! _ := load_local e (file s) (af_header (st_active s)) (st_view s) in cut_tail) t =
    (Ok tt, reopened s t cur m) /\ layout_inv s (metadata s) recs nc /\ indexes (page_size s) (take nc recs) m.
Proof.
  intros Hi Hmeta (A1 & A2 & A3 & A4 & A5 & A6 & A7 & A8 & A9 & A10) Hmax. cbn zeta in *.
  pose proof (read_state_lemma s cur other Hi Hmeta) as Hread.
  destruct Hmeta as (_ & _ & M3 & _ & _ & _ & _ & _ & M9 & M10 & M11 & M12 & M13 & M14 & M15).
  pose proof Hi as ((meta & recs & nc & L) & [Bv _] & _). pose proof L as (Lp & Lm & Lf & Lr & Ln & Lx & Lc & Lnc).
  pose proof (page_size_ok_bounds _ Lp) as Hb.
  assert (Z.to_nat (as_record_count cur) = nc) as Hnc.
  { rewrite Lc in M15. by apply rec_offset_inj in M15; [|lia]. }
  assert (file s = meta ++ records_bytes (page_size s) (take nc recs) ++ records_bytes (page_size s) (drop nc recs)) as Hf2.
  { rewrite <- records_bytes_app, take_drop. done. }
  destruct (load_records_lemma (page_size s) meta (take nc recs) (records_bytes (page_size s) (drop nc recs)))
    as (m & Hload & Hm); try done.
  { by apply Forall_take. } { rewrite <- (take_drop nc recs), map_app in Ln. by apply NoDup_app in Ln as [Ln _]. }
  { by rewrite <- Hf2. }
  assert (length (take nc recs) = nc) as Hlen by (rewrite length_take; lia).
  rewrite <- Hf2, Hlen, <- Lc in Hload.
  replace (zlen (take nc recs)) with (as_record_count cur) in Hload.
  2:{ unfold zlen. rewrite Hlen. destruct M3 as (_ & _ & _ & _ & _ & _ & _ & Hu & _). unfold is_u64 in Hu. lia. }
  exists m, recs, nc. rewrite (metadata_layout _ _ _ _ L). split_and!; try done.
  unfold load_local. rewrite A2, A4, A5, Hread.
  assert (match st_view s with Some v => negb (bytes_eqb (view_database v) (ah_database_id (af_header (st_active s)))) | None => false end = false) as ->.
  { destruct (st_view s) as [v|] eqn:Ev; [|done]. by rewrite (A1 v eq_refl), bytes_eqb_refl. }
  fold (sealed_size (st_view s)) (sealed_txid (st_view s)) (sealed_history (st_view s)).
  unfold sbind at 2, slift at 1.
  assert (checked_add (sealed_txid (st_view s)) 1 = Some (sealed_txid (st_view s) + 1)) as -> by (by apply checked_add_Some).
  cbn [range ok_or]. rewrite !Z.eqb_refl, !bytes_eqb_refl. cbn [negb orb].
  assert (match st_view s with Some v => negb (lb_page_size (view_size v) =? ah_page_size (af_header (st_active s))) | None => false end = false) as ->.
  { destruct (st_view s) as [v|] eqn:Ev; [|done]. destruct (Bv v eq_refl) as (_ & -> & _). by rewrite M10, Z.eqb_refl. }
  unfold sbind at 2, slift at 1. rewrite M9, M10, Z.eqb_refl, M13, A6, bytes_eqb_refl. cbn [negb orb].
  rewrite M12, M11. rewrite (proj2 (Z.ltb_ge (hd_txid _) (sealed_txid _))) by done. cbn [orb].
  assert ((hd_txid (st_head s) =? sealed_txid (st_view s)) &&
          negb (hd_logical_size (st_head s) =? sealed_size (st_view s)) = false) as ->.
  { destruct (Z.eqb_spec (hd_txid (st_head s)) (sealed_txid (st_view s))) as [E|]; [|done].
    by rewrite A8, Z.eqb_refl by done. }
  assert ((sealed_txid (st_view s) <? hd_txid (st_head s)) && (hd_txid (st_head s) <? sealed_txid (st_view s) + 1) = false) as ->.
  { destruct (Z.ltb_spec (sealed_txid (st_view s)) (hd_txid (st_head s))); [|done]. cbn [andb]. apply Z.ltb_ge. lia. }
  cbn [orb]. unfold sbind at 2, slift at 1. rewrite Hload.
  assert (commit_end s <= zlen (file s)) as Hle.
  { rewrite Lc, Lf, <- (zlen_prefix _ meta recs nc) by done. rewrite !zlen_app, !zlen_records_bytes by (done || by apply Forall_take).
    unfold zlen. rewrite length_take. unfold FRAME_HEADER_SIZE. nia. }
  rewrite (proj2 (Z.ltb_ge (zlen (file s)) _)) by done.
  rewrite A9. cbn [Z.eqb]. unfold sbind at 2, smod at 1. unfold sbind at 2, slift at 1. unfold sbind at 1, smod at 1.
  unfold cut_tail. unfold sbind at 1, sget at 1. unfold reopened. rewrite M9, M11, M12, M13, A6, A2.
  cbn [file st_active set_active af_file commit_end st_head hd_active_commit_end].
  destruct (Z.ltb_spec (commit_end s) (zlen (file s))) as [Hlt|Hge]; [done|].
  rewrite set_len_same by lia. done.
Qed.

Lemma file_cut (s : Store) meta recs nc :
  layout_inv s meta recs nc -> set_len (file s) (commit_end s) = meta ++ records_bytes (page_size s) (take nc recs).
Proof.
  intros (_ & Lm & Lf & Lr & _ & _ & Lc & Lnc). rewrite Lf, Lc. rewrite <- (take_drop nc recs) at 1.
  rewrite records_bytes_app, (assoc_L (++)). apply set_len_cut. by rewrite zlen_prefix by done.
Qed.

(** Opening a file that holds no overwritten committed record presents the
    published image, whatever was appended after the last publication. *)
Lemma reopen_lemma (e : Env V) s t cur other :
  db_inv s -> meta_ok s cur other -> attached s -> st_originals s = ∅ -> zlen (file s) <= U64_MAX ->
  exists t', (let! _ := load_local e (file s) (af_header (st_active s)) (st_view s) in cut_tail) t = (Ok tt, t') /\
    db_inv t' /\ image t' = committed_image s /\ committed_image t' = committed_image s /\ has_pending t' = false.
Proof.
  intros [Hi Hz] Hmeta Hatt Hor Hmax. destruct (load_run e s t cur other Hi Hmeta Hatt Hmax) as (m & recs & nc & E & L & Hx).
  exists (reopened s t cur m). split; [done|]. set (t' := reopened s t cur m).
  pose proof (page_size_ok_bounds _ (store_page_size s Hi)) as Hb.
  destruct Hmeta as (_ & _ & _ & _ & _ & _ & _ & _ & M9 & _ & M11 & _ & _ & M14 & _).
  destruct Hatt as (_ & _ & _ & _ & _ & _ & _ & _ & A9 & A10).
  pose proof L as (Lp & Lm & Lf & Lr & Ln & Lx & Lc & Lnc).
  assert (page_size t' = page_size s) as Hps by done.
  assert (layout_inv t' (metadata s) (take nc recs) nc) as L'.
  { unfold layout_inv. rewrite Hps. split_and!; try done.
    - change (file t') with (set_len (file s) (commit_end s)). by apply file_cut.
    - by apply Forall_take.
    - rewrite <- (take_drop nc recs), map_app in Ln. by apply NoDup_app in Ln as [Ln _].
    - rewrite length_take. lia. }
  assert (forall n, base_page t' n = base_page s n) as Hbase.
  { intros n. unfold base_page. rewrite Hps, A10. change (af_truncate_pages (st_active t')) with (as_truncate_pages cur).
    by rewrite M14. }
  assert (forall n, content t' n = committed s n) as Hc.
  { intros n. unfold content, committed. change (st_pending_truncate t') with (@None Z). cbn [beyond andb].
    change (records t') with m. rewrite Hor, lookup_empty.
    destruct (m !! n) as [o|] eqn:Eo.
    - pose proof Eo as (i & p & Hin & ->)%Hx. apply lookup_take_Some in Hin as [Hin Hlt].
      assert (records s !! n = Some (rec_offset (page_size s) i)) as Hs by (apply Lx; by exists i, p).
      rewrite Hs, (proj2 (Z.ltb_lt _ _)) by (rewrite Lc; apply rec_offset_lt; [lia|done]).
      eapply (rec_page_moved s t'); try done. intros j x Hj. apply lookup_take_Some. split; [done|].
      destruct (record_at _ _ _ _ _ _ L Hs) as (i' & p' & Hi' & Ho' & _). apply rec_offset_inj in Ho' as <-; [|lia].
      assert (j = i) as ->; [|done].
      eapply (NoDup_lookup (map fst recs)); [done| |]; rewrite list_lookup_fmap, ?Hj, ?Hin; done.
    - rewrite Hbase. destruct (records s !! n) as [o|] eqn:Er; [|done].
      apply Lx in Er as (i & p & Hin & ->). destruct (Z.ltb_spec (rec_offset (page_size s) i) (commit_end s)) as [Hlt|]; [|done].
      rewrite Lc in Hlt. apply rec_offset_lt in Hlt; [|lia].
      assert (m !! n = Some (rec_offset (page_size s) i)); [|congruence].
      apply Hx. exists i, p. split; [|done]. by apply lookup_take_Some. }
  assert (forall n, committed t' n = content t' n) as Hk.
  { intros n. unfold content, committed. change (st_pending_truncate t') with (@None Z). cbn [beyond andb].
    change (st_originals t') with (∅ : gmap Z bytes). rewrite lookup_empty. change (records t') with m.
    destruct (m !! n) as [o|] eqn:Eo; [|done]. apply Hx in Eo as (i & p & Hin & ->).
    apply lookup_take_Some in Hin as [_ Hlt]. change (commit_end t') with (commit_end s).
    by rewrite (proj2 (Z.ltb_lt _ _)) by (rewrite Lc; apply rec_offset_lt; [lia|done]). }
  assert (st_pending_size t' = hd_logical_size (st_head s) /\ hd_logical_size (st_head t') = hd_logical_size (st_head s)) as [Hs1 Hs2]
    by done.
  assert (forall i, byte_of t' i = committed_byte s i) as Hbyte
    by (intros; unfold byte_of, committed_byte; by rewrite Hps, Hc).
  assert (forall i, committed_byte t' i = committed_byte s i) as Hcb
    by (intros; unfold committed_byte; by rewrite Hps, Hk, Hc).
  destruct Hz as (Z1 & Z2 & Z3 & Z4 & Z5 & Z6). split_and!.
  - split.
    + split; [by exists (metadata s), (take nc recs), nc|]. split; [|by split_and!].
      destruct Hi as (_ & [Bv _] & _). split; [|done]. intros v Hv. rewrite Hps. by apply Bv.
    + split_and!; rewrite ?Hs1, ?Hs2, ?Hps; try done.
      * intros i. rewrite Hbyte. apply Z4.
      * intros i. rewrite Hcb. apply Z4.
      * change (af_truncate_pages (st_active t')) with (as_truncate_pages cur). rewrite M14.
        change (st_pending_truncate t') with (@None Z). intros x Hx'. apply Z6. by destruct (af_truncate_pages (st_active s)).
      * change (af_truncate_pages (st_active t')) with (as_truncate_pages cur). rewrite M14. exact Z6.
  - unfold image. rewrite Hs1. apply bytes_of_ext; [done|by apply zlen_bytes_of|].
    intros i Hin. rewrite Hbyte. unfold committed_image. by rewrite byte_at_bytes_of.
  - unfold committed_image. rewrite Hs2. apply bytes_of_ext; [done|by apply zlen_bytes_of|].
    intros i Hin. rewrite Hcb. by rewrite byte_at_bytes_of.
  - done.
Qed.


Lemma published_attached (e : Env V) retain s : attached s -> attached (published e retain s).
Proof.
  intros (A1 & A2 & A3 & A4 & A5 & A6 & A7 & A8 & A9 & A10). cbn zeta in *. unfold attached.
  assert (af_header (st_active (published e retain s)) = af_header (st_active s) /\
          st_view (published e retain s) = st_view s /\ st_source (published e retain s) = st_source s /\
          hd_history (st_head (published e retain s)) = hd_history (st_head s) /\
          hd_txid (st_head (published e retain s)) = hd_txid (st_head s) + 1) as (-> & -> & -> & -> & ->).
  { unfold published, commit_state, transition, release_publication.
    destruct retain; [destruct (is_locked _)|destruct (bool_decide _)]; done. }
  split_and!; try done; lia.
Qed.

Lemma published_originals (e : Env V) retain s : st_originals (published e retain s) = ∅.
Proof.
  unfold published, commit_state, transition, release_publication.
  destruct retain; [destruct (is_locked _)|destruct (bool_decide _)]; done.
Qed.


(** ** A new database *)

Lemma write_at_end f b o : o = zlen f -> write_all_at f o b = f ++ b.
Proof.
  intros ->. pose proof (zlen_nonneg b). unfold write_all_at. rewrite set_len_grow by lia.
  replace (Z.max (zlen f) (zlen f + zlen b) - zlen f) with (zlen b) by lia.
  rewrite <- (app_nil_r (zeros (zlen b))), put_mid by (done || by rewrite zlen_zeros). by rewrite app_nil_r.
Qed.

Lemma created_shape (s : Store) policy a :
  st_view s = None -> create_active s policy = Ok a ->
  hd_txid (st_head s) = 0 /\ hd_logical_size (st_head s) = 0 /\ hd_history (st_head s) = genesis_history /\
  exists st, af_records a = ∅ /\ af_truncate_pages a = None /\ af_state_sequence a = 1 /\
    af_header a = mkActiveHeader (ah_attachment_id (af_header (st_active s))) (ah_database_id (af_header (st_active s)))
      (page_size s) 1 genesis_history ZERO_DIGEST 0 policy (st_layout s)
      (ah_source_bytes (af_header (st_active s))) (ah_source_header_digest (af_header (st_active s))) /\
    st = mkActiveState (ah_database_id (af_header (st_active s))) 1 0 0 (page_size s) genesis_history 0 0 0 None /\
    af_file a = ActiveHeader_encode (af_header a) ++ ActiveState_encode st ++ zeros ACTIVE_STATE_SIZE.
Proof.
  intros Hv E. unfold create_active, validate_base in E. rewrite Hv in E.
  apply rbind_Ok in E as (parent & Ep & E). apply fail_if_Ok in Ep as [G [= <-]].
  apply orb_false_iff in G as [[G1 G2]%orb_false_iff G3].
  apply negb_false_iff, bytes_eqb_true in G3.
  assert (hd_txid (st_head s) = 0 /\ hd_logical_size (st_head s) = 0) as [Ht Hl] by lia.
  rewrite Ht, Hl, G3 in E. apply rbind_Ok in E as (start & Es & E). apply ok_or_Ok in Es.
  change (checked_add 0 1) with (Some 1) in Es. injection Es as <-. injection E as <-.
  split_and!; try done. eexists. split_and!; try done. cbn [af_file af_header].
  set (h := ActiveHeader_encode _). set (a := ActiveState_encode _).
  assert (zlen h = 4096) as Hh by apply zlen_ActiveHeader_encode.
  assert (zlen a = 4096) as Ha by apply zlen_ActiveState_encode.
  rewrite (write_at_end [] h) by done. cbn [app]. rewrite (write_at_end h a) by (by rewrite Hh).
  rewrite set_len_grow by (rewrite zlen_app, Hh, Ha; done). rewrite zlen_app, Hh, Ha, <- (assoc_L (++)). done.
Qed.

Lemma genesis_header_ok old ps policy layout :
  active_header_ok old -> page_size_ok ps -> policy_ok policy -> layout_ok layout -> ah_source_bytes old = 0 ->
  active_header_ok (mkActiveHeader (ah_attachment_id old) (ah_database_id old) ps 1 genesis_history ZERO_DIGEST 0
    policy layout (ah_source_bytes old) (ah_source_header_digest old)).
Proof.
  intros (O1 & O2 & _ & _ & O5 & _ & _ & _ & _ & O10 & _ & _ & _ & O14 & _) Hps Hpol Hlay Hsrc.
  pose proof (page_size_ok_bounds _ Hps). unfold active_header_ok. cbn.
  assert (digest_ok genesis_history) by (split; [apply blake3_length|apply blake3_bytes]).
  assert (digest_ok ZERO_DIGEST) by (split; [done|]; unfold ZERO_DIGEST, zeros; by apply Forall_replicate).
  unfold U64_MAX, is_u64. split_and!; try done; try lia.
  right. split; [done|]. by rewrite Z.mod_0_l by lia.
Qed.

Section Created.
Context (s : Store) (policy : StoragePolicyRecord) (a : ActiveFile).
Context (Hv : st_view s = None) (Hsrc : st_source s = None) (Hps : page_size_ok (page_size s)).
Context (Hraw : st_raw_pages s = ∅) (Hor : st_originals s = ∅) (Hpt : st_pending_truncate s = None).
Context (Hsz : 0 <= st_pending_size s) (Hold : active_header_ok (af_header (st_active s))).
Context (Hold0 : ah_source_bytes (af_header (st_active s)) = 0) (Hpol : policy_ok policy) (Hlay : layout_ok (st_layout s)).
Context (E : create_active s policy = Ok a).

Lemma created_content n :
  content (adopt_active a s) n = zeros (page_size s) /\ committed (adopt_active a s) n = zeros (page_size s).
Proof.
  destruct (created_shape s policy a Hv E) as (_ & _ & _ & st & A1 & A2 & _).
  assert (base_page (adopt_active a s) n = zeros (page_size s)) as Hbase.
  { unfold base_page, adopt_active. cbn. by rewrite A2, Hv, Hsrc. }
  unfold content, committed, records, adopt_active in *. cbn in *. by rewrite Hpt, Hor, A1.
Qed.

Lemma created_file_len : zlen (af_file a) = ACTIVE_METADATA_END.
Proof.
  destruct (created_shape s policy a Hv E) as (_ & _ & _ & st & _ & _ & _ & _ & _ & ->).
  by rewrite !zlen_app, zlen_ActiveHeader_encode, zlen_ActiveState_encode.
Qed.

Lemma created_db_inv : db_inv (adopt_active a s).
Proof.
  destruct (created_shape s policy a Hv E) as (_ & Hl & _ & st & A1 & A2 & _). pose proof created_file_len as Hlen.
  assert (forall i, byte_at (zeros (page_size s)) i = 0) as Hz.
  { intros i. unfold byte_at, zeros. rewrite nth_lookup. destruct (replicate _ _ !! _) eqn:Er; [|done].
    by apply lookup_replicate in Er as [-> _]. }
  split; [split; [|split]|].
  - exists (af_file a), [], O. unfold layout_inv, file, records, adopt_active. cbn. rewrite A1.
    split; [done|]. split; [done|]. split; [by rewrite app_nil_r|].
    split; [done|]. split; [apply NoDup_nil_2|]. split; [|done].
    intros n o. rewrite lookup_empty. split; [done|]. by intros (i & p & Hi & _).
  - unfold base_ok, adopt_active. cbn. by rewrite Hv, Hsrc.
  - unfold pending_inv, records, adopt_active. cbn. rewrite Hor, Hraw, A1. split_and!; try done.
    intros n. rewrite lookup_empty. by intros [? ?].
  - assert (forall i, byte_of (adopt_active a s) i = 0 /\ committed_byte (adopt_active a s) i = 0) as Hb.
    { intros i. unfold byte_of, committed_byte.
      destruct (created_content (i / page_size (adopt_active a s) + 1)) as [-> ->]. by rewrite Hz. }
    unfold size_inv. split_and!; try (intros i _; apply Hb); unfold adopt_active; cbn; rewrite ?Hl; try done;
      by rewrite A2, ?Hpt.
Qed.

Lemma created_sectors h x :
  zlen h = 4096 -> zlen x = 4096 ->
  slice (h ++ x ++ zeros ACTIVE_STATE_SIZE) 0 ACTIVE_HEADER_SIZE = h /\
  slice (h ++ x ++ zeros ACTIVE_STATE_SIZE) ACTIVE_STATE_A_OFFSET (ACTIVE_STATE_A_OFFSET + ACTIVE_STATE_SIZE) = x /\
  slice (h ++ x ++ zeros ACTIVE_STATE_SIZE) ACTIVE_STATE_B_OFFSET (ACTIVE_STATE_B_OFFSET + ACTIVE_STATE_SIZE) =
    zeros ACTIVE_STATE_SIZE.
Proof.
  intros Hh Hx. split; [|split].
  - apply (slice_mid [] h); [done|by rewrite Hh].
  - apply slice_mid; rewrite Hh; [done|by rewrite Hx].
  - rewrite (assoc_L (++)). rewrite <- (app_nil_r (zeros _)) at 1. apply slice_mid; rewrite zlen_app, Hh, Hx; [done|].
    by rewrite zlen_zeros.
Qed.

Lemma created_meta : exists cur, meta_ok (adopt_active a s) cur None.
Proof.
  destruct (created_shape s policy a Hv E) as (Ht & Hl & _ & st & A1 & A2 & A3 & A4 & Hst & Hf).
  pose proof (genesis_header_ok (af_header (st_active s)) (page_size s) policy (st_layout s) Hold Hps Hpol Hlay Hold0) as Hhok.
  rewrite <- A4 in Hhok. pose proof (page_size_ok_bounds _ Hps) as Hb.
  destruct (created_sectors (ActiveHeader_encode (af_header a)) (ActiveState_encode st)) as (S1 & S2 & S3);
    [apply zlen_ActiveHeader_encode|apply zlen_ActiveState_encode|].
  assert (metadata (adopt_active a s) = af_file a) as Hm by (apply slice_all; exact created_file_len).
  assert (active_state_ok st) as Hok.
  { rewrite Hst. unfold active_state_ok. cbn. destruct Hold as (_ & O2 & _). unfold U64_MAX, is_u64.
    split; [done|]. split; [split; [apply blake3_length|apply blake3_bytes]|]. split_and!; try done; try lia.
    right. split; [done|]. by rewrite Z.mod_0_l by lia. }
  assert (as_database_id st = ah_database_id (af_header a) /\ as_sequence st = 1 /\ as_page_size st = page_size s /\
    as_logical_size st = 0 /\ as_txid st = 0 /\ as_history st = genesis_history /\ as_truncate_pages st = None /\
    as_record_count st = 0) as (T1 & T2 & T3 & T4 & T5 & T6 & T7 & T8) by (rewrite Hst, A4; done).
  assert (ah_page_size (af_header a) = page_size s /\ ah_base_history (af_header a) = genesis_history) as [U1 U2]
    by (rewrite A4; done).
  clear Hst A4. exists st. unfold meta_ok, commit_end, page_size, adopt_active. cbn zeta.
  cbn [st_active set_head set_active st_head af_header af_state_sequence af_truncate_pages hd_page_size hd_logical_size
       hd_txid hd_history hd_active_commit_end].
  change (metadata _) with (metadata (adopt_active a s)). rewrite Hm, Hf, T2, T8.
  split_and!; [exact Hhok|exact S1|exact Hok|exact T1|by rewrite A3|exact S2|exact S3|reflexivity|exact T3|exact U1
    |by rewrite T4, Hl|by rewrite T5, Ht|by rewrite T6, U2|by rewrite T7, A2|reflexivity].
Qed.

Lemma created_attached : attached (adopt_active a s).
Proof.
  destruct (created_shape s policy a Hv E) as (Ht & Hl & _ & st & _ & _ & _ & A4 & _ & _).
  unfold attached, adopt_active. cbn [st_active set_head set_active st_head st_view st_source af_header hd_history hd_txid hd_logical_size].
  rewrite Hv, Hsrc, Ht, Hl, A4. cbn [ah_start_txid ah_base_history ah_base_logical_size ah_source_bytes sealed_txid sealed_size sealed_history].
  unfold U64_MAX. split_and!; (done || lia).
Qed.
End Created.

(** A new database. When the page size of a database without a sealed base
    becomes known, the active file [create_active] writes, once adopted, satisfies
    the store's invariant, has metadata sectors that reopen to it, continues the
    genesis of the lineage, and presents nothing but zero pages. *)
Theorem new_database_is_empty (s : Store) policy a :
  st_view s = None -> st_source s = None -> page_size_ok (page_size s) ->
  st_raw_pages s = ∅ -> st_originals s = ∅ -> st_pending_truncate s = None -> 0 <= st_pending_size s ->
  active_header_ok (af_header (st_active s)) -> ah_source_bytes (af_header (st_active s)) = 0 ->
  policy_ok policy -> layout_ok (st_layout s) -> create_active s policy = Ok a ->
  let s' := adopt_active a s in
  db_inv s' /\ (exists cur, meta_ok s' cur None) /\ attached s' /\ committed_image s' = [] /\
  forall n, content s' n = zeros (page_size s).
Proof.
  intros Hv Hsrc Hps Hraw Hor Hpt Hsz Hold Hold0 Hpol Hlay E. cbn zeta.
  destruct (created_shape s policy a Hv E) as (_ & Hl & _).
  split; [by eapply created_db_inv|]. split; [by eapply created_meta|]. split; [by eapply created_attached|].
  split; [|intros n; by eapply created_content].
  unfold committed_image, adopt_active. cbn [st_head set_head hd_logical_size]. by rewrite Hl.
Qed.

End Commit.
