(* ===== verification/StoreDemo.v ===== *)
(** A concrete page store: three published pages, two of them in the active file,
    inside an open transaction. It satisfies the invariants of the store, and the
    theorems about the store are applied to it here. *)

From S2P Require Import Prelude Domain Layout Format Segment Active Store StoreProofs StoreRead StoreCommit.
From stdpp Require Import base strings gmap list sorting.
From Stdlib Require Import ZArith Lia.
Open Scope Z_scope.

(** ** The store *)

#[local] Existing Instance demo_hashes.
#[local] Existing Instance demo_hashes_ok.

(** No sealed base is attached, so a view is never asked for anything. *)
#[export] Instance no_view : SealedView Empty_set := {|
  view_id (v : Empty_set) := match v with end;
  view_database (v : Empty_set) := match v with end;
  view_size (v : Empty_set) := match v with end;
  view_txid (v : Empty_set) := match v with end;
  view_history (v : Empty_set) := match v with end;
  view_read (v : Empty_set) := match v with end;
|}.

(** Page 1 of a SQLite database of 512-byte pages. *)
Definition demo_page1 : bytes := put (put (zeros 512) 0 SQLITE_MAGIC) 16 [2; 0].

Definition store_records : list (Z * bytes) := [(3, demo_page_of 7); (1, demo_page1)].

Definition store_current : ActiveState := {|
  as_database_id := demo_digest 2;
  as_sequence := 3;
  as_txid := 2;
  as_logical_size := 1536;
  as_page_size := 512;
  as_history := genesis_history;
  as_commit_unix := 7;
  as_first_commit_unix := 5;
  as_record_count := 2;
  as_truncate_pages := None;
|}.

Definition store_meta : bytes :=
  ActiveHeader_encode demo_header ++ ActiveState_encode store_current ++ ActiveState_encode demo_older.

Definition store_index : gmap Z Z := <[1 := rec_offset 512 1]> (<[3 := rec_offset 512 0]> ∅).

(** Inside a transaction that has not changed anything. *)
Definition demo_store : Store Empty_set :=
  mkStore true Transaction
    (mkHeadState 512 1536 2 genesis_history (active_state_offset 3) (rec_offset 512 2) 5 7)
    None demo_layout
    (mkActiveFile (store_meta ++ records_bytes 512 store_records) demo_header 3 store_index None)
    None ∅ ∅ 1536 None false None.

Definition demo_env : Env Empty_set :=
  mkEnv true [] false None 9 true true (fun _ _ => Ok tt) (fun _ => Err Io) (fun _ => Ok tt).

Lemma store_current_ok : active_state_ok store_current.
Proof.
  unfold active_state_ok, store_current, U64_MAX, is_u64; cbn -[genesis_history].
  split_and!; try done; try lia; try (apply demo_digest_ok; unfold is_u8; lia).
  - split; apply demo_hashes_ok.
  - right. split; [apply page_size_512|done].
Qed.

Lemma store_meta_len : zlen store_meta = ACTIVE_METADATA_END.
Proof.
  unfold store_meta. by rewrite !zlen_app, zlen_ActiveHeader_encode, !zlen_ActiveState_encode.
Qed.

Lemma store_records_ok : Forall (rec_ok 512) store_records /\ NoDup (map fst store_records).
Proof.
  split.
  - repeat (apply Forall_cons; split; [split; [unfold page_number_ok, U32_MAX; cbn; lia|reflexivity]|]).
    constructor.
  - apply (bool_decide_unpack _). vm_compute. exact I.
Qed.

Lemma store_index_ok : indexes 512 store_records store_index.
Proof.
  apply (indexes_append 512 [(3, demo_page_of 7)]).
  - apply (indexes_append 512 []); [|by apply not_elem_of_nil].
    intros n o. rewrite lookup_empty. split; [done|]. by intros (i & p & Hi & _).
  - cbn. set_solver.
Qed.

Lemma demo_layout_inv : layout_inv demo_store store_meta store_records 2.
Proof.
  pose proof store_records_ok as [H1 H2].
  split; [apply page_size_512|]. split; [apply store_meta_len|]. split; [done|].
  split; [done|]. split; [done|]. split; [apply store_index_ok|]. split; [done|]. cbn. lia.
Qed.

(** Pages other than 1 and 3 are zero. *)
Lemma demo_blank_page n : n <> 1 -> n <> 3 ->
  content demo_store n = zeros 512 /\ committed demo_store n = zeros 512.
Proof.
  intros H1 H3. unfold content, committed, records, demo_store, store_index.
  cbn [st_pending_truncate st_active af_records st_originals beyond andb].
  rewrite lookup_empty, !lookup_insert_ne, lookup_empty by done. done.
Qed.

Lemma demo_store_inv : store_inv demo_store.
Proof.
  split; [exists store_meta, store_records, 2%nat; apply demo_layout_inv|]. split; [done|].
  split; [|split].
  - intros n p Hp. cbn in Hp. by rewrite lookup_empty in Hp.
  - intros n Hn. cbn in Hn. by apply not_elem_of_empty in Hn.
  - done.
Qed.

Lemma demo_db_inv : db_inv demo_store.
Proof.
  split; [apply demo_store_inv|].
  assert (forall i, 1536 <= i -> byte_of demo_store i = 0 /\ committed_byte demo_store i = 0) as Hz.
  { intros i Hi. unfold byte_of, committed_byte. change (page_size demo_store) with 512.
    assert (3 <= i / 512) by (apply Z.div_le_lower_bound; lia).
    destruct (demo_blank_page (i / 512 + 1)) as [-> ->]; [lia|lia|]. by rewrite !byte_at_zeros. }
  split_and!; try done; intros i Hi; by apply Hz.
Qed.

Lemma demo_begin : begin_write demo_env demo_store = (Ok tt, demo_store).
Proof. reflexivity. Qed.

(** ** Writes, truncation, reads *)

Definition demo_input : bytes := replicate 100%nat 5.

Lemma write_at_is_file_write_witness :
  exists s', write_at demo_env 1000 demo_input demo_store = (Ok 100, s') /\
    image s' = write_all_at (image demo_store) 1000 demo_input.
Proof.
  destruct (write_at_is_file_write demo_env demo_store demo_store 1000 demo_input demo_begin demo_db_inv)
    as (s' & E & _ & Hi & _).
  - lia.
  - vm_compute. discriminate.
  - vm_compute. discriminate.
  - left. reflexivity.
  - intros Hlt. vm_compute in Hlt. discriminate.
  - vm_compute. discriminate.
  - exists s'. split; [exact E|exact Hi].
Defined.

Lemma truncate_is_file_truncate_witness :
  exists s', truncate demo_env 512 demo_store = (Ok tt, s') /\ image s' = set_len (image demo_store) 512.
Proof.
  destruct (truncate_is_file_truncate demo_env demo_store demo_store 512 demo_begin demo_db_inv)
    as (s' & E & _ & Hi & _).
  - lia.
  - reflexivity.
  - vm_compute. discriminate.
  - discriminate.
  - exists s'. split; [exact E|exact Hi].
Defined.

(** Across three pages, past the end. *)
Lemma read_at_returns_image_witness :
  let b := slice (image demo_store) 500 1536 in
  read_at demo_store 500 1200 = Some (Ok (zlen b, b ++ zeros (1200 - zlen b))).
Proof.
  apply (read_at_returns_image demo_store 500 1200 demo_db_inv).
  - lia.
  - lia.
  - vm_compute. discriminate.
Defined.


(** ** Publication *)

(** Marking the store dirty without changing its size. *)
Definition touch (s : Store Empty_set) : Store Empty_set := set_pending_size (st_pending_size s) s.

Lemma touch_inv s : db_inv s -> db_inv (touch s).
Proof. done. Qed.

Definition demo_dirty : Store Empty_set := touch demo_store.

Lemma demo_dirty_inv : db_inv demo_dirty.
Proof. exact (touch_inv demo_store demo_db_inv). Qed.


Lemma demo_meta_ok : meta_ok demo_dirty store_current (Some demo_older).
Proof.
  unfold meta_ok. split; [apply demo_header_ok|].
  split; [vm_compute; reflexivity|]. split; [apply store_current_ok|].
  split; [reflexivity|]. split; [reflexivity|]. split; [vm_compute; reflexivity|].
  split; [vm_compute; reflexivity|].
  split; [split; [apply demo_older_ok|split; [reflexivity|cbn; lia]]|].
  split_and!; reflexivity.
Qed.

Lemma demo_attached : attached demo_dirty.
Proof.
  unfold attached. split; [done|]. split_and!; try reflexivity; cbn; unfold U64_MAX; try lia.
Qed.


(** ** A new database *)

(** Just attached: the page size has become known and nothing is stored. *)
Definition demo_new : Store Empty_set :=
  mkStore true Transaction (mkHeadState 512 0 0 genesis_history 0 0 0 0) None demo_layout
    (mkActiveFile [] demo_header 1 ∅ None) None ∅ ∅ 512 None true None.

Lemma new_database_is_empty_witness :
  exists a, create_active demo_new (mkPolicy 0 0 1048576) = Ok a /\ db_inv (adopt_active a demo_new).
Proof.
  destruct (create_active demo_new (mkPolicy 0 0 1048576)) as [a|err] eqn:E; [|vm_compute in E; discriminate].
  exists a. split; [reflexivity|].
  destruct (new_database_is_empty demo_new (mkPolicy 0 0 1048576) a) as [Hi _].
  - reflexivity.
  - reflexivity.
  - apply page_size_512.
  - reflexivity.
  - reflexivity.
  - reflexivity.
  - cbn. lia.
  - apply demo_header_ok.
  - reflexivity.
  - unfold policy_ok, is_u64, is_u32. cbn. split_and!; try lia. reflexivity.
  - apply demo_layout_ok.
  - exact E.
  - exact Hi.
Defined.

(** ** The two defects *)

(** The transaction has cut the database to one page and then written page 3 again. *)
Definition demo_cut : Store Empty_set :=
  set_pending {[3]} {[ 3 := demo_page_of 4 ]} 1536 (Some 1) true None demo_store.

Lemma pending_layout_inv (s : Store Empty_set) raw originals size truncate dirty b meta recs nc :
  layout_inv s meta recs nc -> layout_inv (set_pending raw originals size truncate dirty b s) meta recs nc.
Proof. done. Qed.

Lemma demo_cut_inv : store_inv demo_cut.
Proof.
  split; [exists store_meta, store_records, 2%nat; exact (pending_layout_inv _ _ _ _ _ _ _ _ _ _ demo_layout_inv)|].
  split; [done|].
  split; [|split].
  - intros n p Hp. change (st_originals demo_cut) with ({[ 3 := demo_page_of 4 ]} : gmap Z bytes) in Hp.
    apply lookup_singleton_Some in Hp as [<- <-]. split; [reflexivity|].
    exists (rec_offset 512 0). split; [reflexivity|]. vm_compute. reflexivity.
  - intros n Hn. change (st_raw_pages demo_cut) with ({[ 3 ]} : gset Z) in Hn.
    apply elem_of_singleton in Hn as ->. by exists (rec_offset 512 0).
  - intros n [o Ho] Hb. cbn in Hb. apply Z.ltb_lt in Hb. unfold records, demo_cut in Ho. cbn in Ho.
    apply elem_of_singleton. destruct (decide (n = 3)) as [->|Hne]; [done|]. exfalso.
    unfold store_index in Ho. rewrite !lookup_insert_ne, lookup_empty in Ho by lia. done.
Qed.

(** Page 3 reads as sevens; after four bytes are written at its offset 10, all the
    other sevens are gone. *)
Lemma partial_write_past_truncation_forgets_witness :
  content demo_cut 3 = demo_page_of 7 /\
  exists s', write_span 1034 [1; 2; 3; 4] (0, 4) demo_cut = (Ok tt, s') /\
    content s' 3 = put (zeros 512) 10 [1; 2; 3; 4].
Proof.
  split; [vm_compute; reflexivity|].
  destruct (partial_write_past_truncation_forgets demo_cut 1034 [1; 2; 3; 4] 0 4 demo_cut_inv)
    as (s' & E & Hc).
  - lia.
  - lia.
  - lia.
  - vm_compute. discriminate.
  - vm_compute. discriminate.
  - vm_compute. discriminate.
  - vm_compute. split; [discriminate|reflexivity].
  - vm_compute. discriminate.
  - reflexivity.
  - vm_compute. discriminate.
  - exists s'. split; [exact E|exact Hc].
Defined.

Lemma truncate_to_nothing_refused_witness :
  exists s', truncate demo_env 0 demo_store = (Err (InvalidPageSize 0), s').
Proof.
  apply (truncate_to_nothing_refused demo_env demo_store demo_store_inv).
  - reflexivity.
  - reflexivity.
  - exists (rec_offset 512 1). reflexivity.
  - reflexivity.
Defined.
