(* ===== verification/Sealed.v ===== *)
(** Reading sealed pages (src/src/storage/view.rs [PinnedView], src/src/storage/placement.rs
    [PlacementPin]): a pinned view resolves a page to a slot of a frame, fetches the frame's
    record from the blob its pack is placed in, and returns the slot once the whole frame has
    been authenticated, decoded and verified. [PinnedView] is an instance of the [SealedView]
    interface the page store reads through.

    A pin holds the placements and dictionaries it resolved; the advisory locks that keep the
    objects from being collected are not state of the reads. *)

From S2P Require Import Prelude Domain Format Wire Segment Frame Pack Backend CatalogIndex Catalog Placement View Manifest Store.
From stdpp Require Import base strings gmap list sorting.
From Stdlib Require Import ZArith Lia.
Open Scope Z_scope.

(** ** Reads through a placement snapshot *)

Section Pins.
Context `{Hashes, ZstdLib, StorageBackend B}.

Definition pin_new (s : State) (packs : list Digest) : result StoreError pin :=
  mfold (fun (p : pin) pack => let* placements := placement s pack in Ok (<[pack := placements]> p)) ∅ packs.

Definition pin_length (p : pin) (pack : Digest) : result StoreError Z :=
  let* placements := ok_or (p !! pack) (Corrupt 0) in
  Ok (pl_length placements).

Definition pin_read (b : B) (p : pin) (pack : Digest) (r : StoredRange) : result StoreError bytes :=
  if sr_length r =? 0 then Ok []
  else
    let* stored := PackRange_stored r in
    let* located := pin_locate p pack stored in
    let* out := pin_read_ranges b [located] in
    ok_or (head out) Range.

(** The reader [copy_pack] gives to [pack::copy]. *)
Definition pin_reader (b : B) (p : pin) (pack : Digest) : reader := fun offset length =>
  let* r := value (StoredRange_new offset length) in
  pin_read b p pack r.

(** Returns the length and the bytes written to the output. *)
Definition copy_pack (b : B) (p : pin) (pack : Digest) : result StoreError (Z * bytes) :=
  let* length := pin_length p pack in
  match copy (pin_reader b p pack) length true with
  | None => Err Range
  | Some r =>
      let* copied := r in
      fail_if negb (bytes_eqb (fst copied) pack) with Corrupt 0 ;;
      Ok (length, snd copied)
  end.
End Pins.

(** ** The pinned view *)

(** The logical objects of a catalog: [ObjectKey] of src/src/storage/objects.rs, whose keys
    are not those of the backend. *)
Inductive LogicalKey : Set :=
| LManifest (id : Digest)
| LPack (id : Digest)
| LDictionary (id : Digest)
| LStaging (id : Digest).

#[export] Instance LogicalKey_eq_dec : EqDecision LogicalKey.
Proof. solve_decision. Defined.
#[export] Instance LogicalKey_countable : Countable LogicalKey.
Proof.
  refine (inj_countable'
    (fun k => match k with LManifest d => (0, d) | LPack d => (1, d)
                         | LDictionary d => (2, d) | LStaging d => (3, d) end)
    (fun p => match p with (0, d) => LManifest d | (1, d) => LPack d
                         | (2, d) => LDictionary d | (_, d) => LStaging d end) _).
  by intros [].
Defined.

Record PinnedView (B : Type) : Type := mkPinned {
  pn_id : Digest;
  pn_metadata : ValidatedMetadata;
  pn_dictionaries : gmap Digest bytes;
  pn_lengths : list (LogicalKey * Z);
  pn_storage : B;
  pn_placement : pin;
}.
Arguments mkPinned {B}. Arguments pn_id {B}. Arguments pn_metadata {B}. Arguments pn_dictionaries {B}.
Arguments pn_lengths {B}. Arguments pn_storage {B}. Arguments pn_placement {B}.

Inductive ResolvedPage : Type :=
| ZeroPage
| StoredPageRef (location : FrameLocation) (slot : Z).

Section Reads.
Context `{Hashes, ZstdLib, StorageBackend B}.

Definition pn_view (v : PinnedView B) : ViewMetadata := vd_view (pn_metadata v).

(** [frames[..]] of the source is present in every well-formed view. *)
Definition resolve (v : PinnedView B) (page : Z) : result StoreError ResolvedPage :=
  fail_if lb_pages (vm_size (pn_view v)) <? page with Range ;;
  match vm_pages (pn_view v) !! page with
  | None => Ok ZeroPage
  | Some stored =>
      let* location := ok_or (vm_frames (pn_view v) !! sp_frame stored) (Corrupt 0) in
      Ok (StoredPageRef location (sp_slot stored))
  end.

(** *** [StoredPageRef] *)

Definition stored_size (l : FrameLocation) : Z := pk_length (fl_payload l) + FRAME_HEADER_SIZE.

Definition frame_id (l : FrameLocation) : Digest := fm_id (fl_metadata l).

Definition prefix_offset (l : FrameLocation) : result StoreError Z :=
  range (checked_sub (pk_offset (fl_payload l)) FRAME_HEADER_SIZE).

Definition read_record (v : PinnedView B) (l : FrameLocation) : result StoreError bytes :=
  let* offset := prefix_offset l in
  let* length := range (checked_add (pk_length (fl_payload l)) FRAME_HEADER_SIZE) in
  let* r := value (StoredRange_new offset length) in
  pin_read (pn_storage v) (pn_placement v) (fl_pack l) r.

Definition record_payload (l : FrameLocation) (record : bytes) : result StoreError bytes :=
  let* offset := prefix_offset l in
  fail_if negb (zlen record =? stored_size l) with Corrupt offset ;;
  fail_if zlen record <? FRAME_HEADER_SIZE with Corrupt offset ;;
  let* header := format (FrameHeader_decode (slice record 0 FRAME_HEADER_SIZE)) in
  let* expected := Frame.record_header (fl_metadata l) in
  fail_if negb (bool_decide (header = expected)) with Corrupt offset ;;
  Ok (slice record FRAME_HEADER_SIZE (zlen record)).

Definition decode_record (v : PinnedView B) (l : FrameLocation) (record : bytes)
    : result StoreError (EncodedFrame * VerifiedFrame) :=
  let* stored := record_payload l record in
  EncodedFrame_verified (fl_metadata l) stored (pn_dictionaries v).

(** For an unchanged copy, without decoding. *)
Definition authenticate_record (l : FrameLocation) (record : bytes) : result StoreError EncodedFrame :=
  let* stored := record_payload l record in
  EncodedFrame_authenticated (fl_metadata l) stored.

Definition fetch_record (v : PinnedView B) (l : FrameLocation)
    : result StoreError (EncodedFrame * VerifiedFrame) :=
  let* record := read_record v l in
  decode_record v l record.

Definition fetch (v : PinnedView B) (l : FrameLocation) : result StoreError VerifiedFrame :=
  let* p := fetch_record v l in Ok (snd p).

Definition extract (l : FrameLocation) (slot : Z) (frame : VerifiedFrame) : result StoreError bytes :=
  fail_if negb (bytes_eqb (vf_id frame) (frame_id l)) with IdentityMismatch ;;
  let size := fs_page_size (fm_shape (fl_metadata l)) in
  let start := slot * size in
  fail_if zlen (vf_bytes frame) <? start + size with Range ;;
  Ok (slice (vf_bytes frame) start (start + size)).

(** The live slots of a verified frame. *)
Definition cache_pages (v : PinnedView B) (l : FrameLocation) (frame : VerifiedFrame)
    : result StoreError (list (PageVersion * bytes)) :=
  fail_if negb (bytes_eqb (vf_id frame) (frame_id l)) with IdentityMismatch ;;
  Ok (List.filter (fun p => is_live (pn_view v) (fst p) (vf_id frame))
        (zip (fm_pages (fl_metadata l))
             (chunks_exact (lb_page_size (vm_size (pn_view v))) (vf_bytes frame)))).

Definition ResolvedPage_read (v : PinnedView B) (p : ResolvedPage) : result StoreError bytes :=
  match p with
  | ZeroPage => Ok (zeros (lb_page_size (vm_size (pn_view v))))
  | StoredPageRef l slot => let* frame := fetch v l in extract l slot frame
  end.

(** *** Whole views *)

(** [read_frame_records]: the records of the distinct frames of the pages, in one batch. *)
Definition distinct_frame (v : PinnedView B) (frames : gmap (list Z) FrameLocation) (number : Z)
    : result StoreError (gmap (list Z) FrameLocation) :=
  let* page := resolve v number in
  match page with
  | ZeroPage => Ok frames
  | StoredPageRef l _ => Ok (match frames !! frame_id l with
                             | Some _ => frames
                             | None => <[frame_id l := l]> frames
                             end)
  end.

Definition locate_record (v : PinnedView B) (e : Digest * FrameLocation) : result StoreError LocatedRange :=
  let* offset := prefix_offset e.2 in
  let* r := value (PackRange_new offset (stored_size e.2)) in
  pin_locate (pn_placement v) (fl_pack e.2) r.

Definition read_frame_records (v : PinnedView B) (numbers : list Z)
    : result StoreError (gmap (list Z) bytes) :=
  let* frames := mfold (distinct_frame v) ∅ numbers in
  if bool_decide (frames = ∅) then Ok ∅
  else
    let* ranges := mmap (locate_record v) (sorted_list frames) in
    let* records := pin_read_ranges (pn_storage v) ranges in
    Ok (list_to_map (zip (map fst (sorted_list frames)) records)).

Definition PinnedView_verify (same_catalog : bool) (v : PinnedView B) : result StoreError unit :=
  fail_if negb same_catalog with IdentityMismatch ;;
  mfold (fun _ pack => let* _ := copy_pack (pn_storage v) (pn_placement v) pack in Ok tt) tt
    (isort digest_leb (elements (packs (pn_view v)))).

(** *** Opening *)

Definition MAX_DICTIONARY_BYTES : Z := 768 * 1024.

(** [guard.validate::<Dictionary>]: the length of an authentic dictionary. *)
Definition validate_dictionary (b : B) (id : Digest) (limit : Z) : result StoreError Z :=
  let* v := read_all b (Dictionary id) limit in
  fail_if negb (bytes_eqb (blake3 v) id) with Corrupt 0 ;;
  Ok (zlen v).

Definition load_dictionary (b : B) (loaded : gmap Digest bytes) (id : Digest)
    : result StoreError (gmap Digest bytes) :=
  let* length := validate_dictionary b id MAX_DICTIONARY_BYTES in
  let* r := value (StoredRange_new 0 length) in
  let* v := read_range b (Dictionary id) r in
  Ok (<[id := v]> loaded).

Definition dependencies (m : ValidatedMetadata) (id : Digest) : list LogicalKey :=
  map LManifest (isort digest_leb (elements (list_to_set (id :: vd_ancestors m) : gset (list Z)))) ++
  map LPack (isort digest_leb (elements (packs (vd_view m)))) ++
  map LDictionary (isort digest_leb (elements (dictionaries (vd_view m)))).

Definition logical_length (g : CatalogGuard B) (key : LogicalKey) : result StoreError Z :=
  let object k := let* n := backend (stat (cg_backend g) k) in ok_or n (Domain.Backend BMissing) in
  match key with
  | LPack id => let* p := placement (cg_state g) id in Ok (pl_length p)
  | LManifest id => object (Manifest id)
  | LDictionary id => object (Dictionary id)
  | LStaging _ => Err (Corrupt 0)
  end.

Definition PinnedView_open (g : CatalogGuard B) (id : Digest) : result StoreError (PinnedView B) :=
  let b := cg_backend g in
  let* metadata := load_metadata b (endpoint_rows (cg_state g)) id in
  let v := vd_view metadata in
  let* loaded := mfold (load_dictionary b) ∅ (isort digest_leb (elements (dictionaries v))) in
  let* _ := validate_ranges (cg_state g) v in
  let* lengths := mmap (fun key => let* n := logical_length g key in Ok (key, n)) (dependencies metadata id) in
  let* p := pin_new (cg_state g) (isort digest_leb (elements (packs v))) in
  Ok (mkPinned id metadata loaded lengths b p).

(** What the page store reads through. *)
#[export] Instance PinnedView_sealed : SealedView (PinnedView B) := {|
  view_id v := pn_id v;
  view_database v := vm_database (pn_view v);
  view_size v := vm_size (pn_view v);
  view_txid v := vm_txid (pn_view v);
  view_history v := vm_history (pn_view v);
  view_read v n := let* page := resolve v n in ResolvedPage_read v page;
|}.

End Reads.
