(* ===== verification/SealedProofs.v ===== *)
(** Correctness of sealed reads: whatever bytes the backend returns, a page read through a
    pinned view is the version its manifest commits to; and when the frames are stored where
    the view says, every page of the view reads back, which is what the page store asks of
    its sealed base. *)

From S2P Require Import Prelude Domain Format Wire Segment Frame Pack Backend CatalogIndex Catalog Placement View ViewProofs Manifest ManifestProofs Store StoreProofs Sealed.
From stdpp Require Import base strings gmap list sorting.
From Stdlib Require Import ZArith Lia.
Open Scope Z_scope.

Section Proofs.
Context {HH : Hashes} {HOK : HashesOk HH} {Z0 : ZstdLib} {ZOK : ZstdOk Z0}.
Context {B : Type} {SB : StorageBackend B} {BL : BackendLaws B}.

(** ** Authenticity *)

(** The bytes of page [n] are those its version in the view was computed from; a page the
    view does not hold is zero. *)
Definition authentic (v : ViewMetadata) (n : Z) (b : bytes) : Prop :=
  zlen b = lb_page_size (vm_size v) /\
  match version_at v n with
  | None => b = zeros (lb_page_size (vm_size v))
  | Some x => pv_page x = n /\ checksum n (pv_txid x) b = pv_checksum x
  end.

(** A page of a well-formed view: the frame that holds it, and its version there. *)
Lemma resolve_stored (v : PinnedView B) n l slot :
  view_wf (pn_view v) -> resolve v n = Ok (StoredPageRef l slot) ->
  exists x, version_at (pn_view v) n = Some x /\ pv_page x = n /\
    fm_pages (fl_metadata l) !! Z.to_nat slot = Some x /\ 0 <= slot /\ metadata_ok (fl_metadata l) /\
    fs_page_size (fm_shape (fl_metadata l)) = lb_page_size (vm_size (pn_view v)) /\
    vm_pages (pn_view v) !! n = Some (mkStored (frame_id l) slot) /\
    vm_frames (pn_view v) !! frame_id l = Some l.
Proof.
  intros [Hf Hs] E. unfold resolve in E. inv_ok. destruct (vm_pages (pn_view v) !! n) as [p|] eqn:Ep; [|done].
  inv_ok. injection E as <- <-. destruct (shape_pages _ Hs _ _ Ep) as (l & x & Hl & Hx & Hn & _). cbn in *.
  rewrite Hl in Hok. simplify_eq. exists x. unfold version_at. rewrite Ep. cbn. unfold page_version. rewrite Hl.
  destruct (fields_frames _ Hf _ _ Hl) as [[_ Hid] _ Hm _]. destruct (shape_frames _ Hs _ _ Hl) as (_ & Hps & _).
  destruct (fields_pages _ Hf _ _ Ep) as (_ & _ & Hslot). unfold is_u32 in Hslot. cbn in *.
  unfold frame_id. rewrite Hid. destruct p. cbn in *. split_and!; (done || lia).
Qed.

(** A verified frame of the view holds every version its metadata lists. *)
Lemma extract_lemma l slot frame payload dictionaries b x :
  metadata_ok (fl_metadata l) -> verify_payload (fl_metadata l) payload dictionaries = Ok frame ->
  0 <= slot -> fm_pages (fl_metadata l) !! Z.to_nat slot = Some x ->
  extract l slot frame = Ok b <->
  b = slice (vf_bytes frame) (slot * fs_page_size (fm_shape (fl_metadata l)))
        (slot * fs_page_size (fm_shape (fl_metadata l)) + fs_page_size (fm_shape (fl_metadata l))).
Proof.
  intros Hm E Hslot Hx. destruct (verify_payload_lemma _ _ _ _ Hm E) as (_ & Hid & Hlen & _).
  destruct Hm as (_ & Hsh & _ & _ & _ & _ & Hn & _). pose proof (shape_ok_bounds _ Hsh) as (B1 & B2 & _).
  apply lookup_lt_Some in Hx. unfold extract, frame_id. rewrite Hid, bytes_eqb_refl. cbn [negb].
  rewrite (proj2 (Z.ltb_ge _ _)); [split; [by intros [= <-]|by intros ->]|].
  rewrite Hlen. unfold decoded. unfold zlen in Hn. nia.
Qed.

Lemma slot_length (frame : VerifiedFrame) m slot x :
  shape_ok (fm_shape m) -> zlen (fm_pages m) = fs_pages (fm_shape m) ->
  zlen (vf_bytes frame) = decoded (fm_shape m) -> 0 <= slot -> fm_pages m !! Z.to_nat slot = Some x ->
  zlen (slice (vf_bytes frame) (slot * fs_page_size (fm_shape m)) (slot * fs_page_size (fm_shape m) + fs_page_size (fm_shape m)))
  = fs_page_size (fm_shape m).
Proof.
  intros Hsh Hn Hl Hs Hx. pose proof (shape_ok_bounds _ Hsh) as (B1 & B2 & _). apply lookup_lt_Some in Hx.
  rewrite zlen_slice; [lia|nia|lia|]. rewrite Hl. unfold decoded, zlen in *. nia.
Qed.

Lemma decode_record_lemma (v : PinnedView B) l record e frame :
  decode_record v l record = Ok (e, frame) ->
  exists payload, verify_payload (fl_metadata l) payload (pn_dictionaries v) = Ok frame /\
                  e = mkEncoded (fl_metadata l) payload /\ record_payload l record = Ok payload.
Proof.
  intros E. unfold decode_record, EncodedFrame_verified in E. inv_all. simplify_eq. by exists a.
Qed.

(** Bytes that decode for a page of the view are authentic, wherever they came from. *)
Lemma decoded_authentic (v : PinnedView B) n l slot record e frame b :
  view_wf (pn_view v) -> resolve v n = Ok (StoredPageRef l slot) ->
  decode_record v l record = Ok (e, frame) -> extract l slot frame = Ok b -> authentic (pn_view v) n b.
Proof.
  intros Hv Hr Hd Hb. destruct (resolve_stored v n l slot Hv Hr) as (x & Hx & Hn & Hp & Hs & Hm & Hps & _).
  apply decode_record_lemma in Hd as (payload & Hver & _ & _).
  destruct (verify_payload_lemma _ _ _ _ Hm Hver) as (_ & _ & Hlen & Hsum).
  apply (extract_lemma l slot frame payload (pn_dictionaries v) b x) in Hb; [|done..].
  unfold authentic. rewrite Hx. subst b. split.
  - rewrite <- Hps. destruct Hm as (_ & Hsh & _ & _ & _ & _ & Hk & _). by eapply slot_length.
  - split; [done|]. specialize (Hsum _ _ Hp). rewrite Z2Nat.id in Hsum by lia. by rewrite Hn in Hsum.
Qed.

Lemma resolve_zero (v : PinnedView B) n :
  page_size_ok (lb_page_size (vm_size (pn_view v))) -> resolve v n = Ok ZeroPage ->
  authentic (pn_view v) n (zeros (lb_page_size (vm_size (pn_view v)))).
Proof.
  intros Hp%page_size_ok_bounds E. unfold resolve in E. inv_ok.
  destruct (vm_pages (pn_view v) !! n) as [p|] eqn:Ep; [by inv_ok|].
  unfold authentic, version_at. rewrite Ep. cbn. split; [|done]. by rewrite zlen_zeros by lia.
Qed.

Lemma read_authentic (v : PinnedView B) n page b :
  view_wf (pn_view v) -> resolve v n = Ok page -> ResolvedPage_read v page = Ok b -> authentic (pn_view v) n b.
Proof.
  intros Hv Hr E. destruct page as [|l slot]; cbn in E.
  - injection E as <-. apply resolve_zero; [|done]. apply Hv.
  - unfold fetch, fetch_record in E. inv_all. subst. destruct a0 as [e frame]. cbn in *. by eapply decoded_authentic.
Qed.

Lemma authentic_unique v n a b : authentic v n a -> authentic v n b -> a = b \/ collision.
Proof.
  intros [_ Ha] [_ Hb]. destruct (version_at v n) as [x|]; [|left; congruence].
  destruct Ha as [_ Ha], Hb as [_ Hb]. unfold checksum in *. rewrite <- Hb in Ha.
  apply blake3_binds in Ha as [Ha|]; [|by right]. left. by do 3 apply app_inv_head in Ha.
Qed.

(** ** Stored frames read back *)

Context {BV : BackendLive B}.

(** The bytes of [pack] are those of the extent the pin prefers. *)
Definition placed (s : B) (p : pin) (pack : Digest) (b : bytes) : Prop :=
  exists placements r o,
    p !! pack = Some placements /\ preferred placements = Some r /\
    extent_ok (rp_extent r) /\ be_length (rp_extent r) = zlen b /\
    contents s !! Blob (be_blob (rp_extent r)) = Some o /\
    be_offset (rp_extent r) + zlen b <= zlen o /\
    slice o (be_offset (rp_extent r)) (be_offset (rp_extent r) + zlen b) = b.

Definition pack_placed (v : PinnedView B) : Digest -> bytes -> Prop := placed (pn_storage v) (pn_placement v).

Lemma placed_read (s : B) (p : pin) pack b offset length :
  placed s p pack b -> 0 <= offset -> 1 <= length <= MAX_BATCH_BYTES -> offset + length <= zlen b ->
  pin_read s p pack (mkRange offset length (offset + length)) = Ok (slice b offset (offset + length)).
Proof.
  intros (pl & r & o & Hp & Hr & He & Hl & Ho & Hz & Hb) Ho0 Hlen Hle. pose proof He as (_ & E1 & E2 & E3).
  unfold pin_read, PackRange_stored, pin_locate. cbn [sr_length sr_offset].
  rewrite (proj2 (Z.eqb_neq _ _)) by lia.
  assert (value (PackRange_new offset length) = Ok (mkPackRange offset length)) as ->
    by (apply value_Ok, PackRange_new_spec; [lia|]; split; [done|lia]).
  cbn [rbind]. rewrite Hp. cbn [ok_or rbind]. rewrite Hr. cbn [ok_or rbind].
  assert (BlobExtent_locate (rp_extent r) (mkPackRange offset length)
          = Ok (mkRange (be_offset (rp_extent r) + offset) length (be_offset (rp_extent r) + offset + length))) as ->.
  { apply locate_lemma; cbn [pk_offset pk_length]; [done|lia..|]. split; [lia|done]. }
  cbn [rbind pk_offset pk_length].
  set (q := mkLocated (rp_extent r) (mkRange (be_offset (rp_extent r) + offset) length (be_offset (rp_extent r) + offset + length))).
  assert (range_ok (lr_range q)) as Hq by (unfold range_ok; cbn; lia).
  destruct (read_ranges_complete s [q]) as [out Hout].
  - rewrite zlen_cons, zlen_nil. lia.
  - cbn. lia.
  - constructor; [|done]. split; [done|]. cbn. split; [lia|]. split; [lia|]. exists o. split; [done|lia].
  - rewrite Hout. cbn [rbind]. apply read_ranges_lemma in Hout; [|by constructor].
    inversion Hout as [|? x ? ? (o' & Ho' & Hend & ->) Hrest]; subst. inversion Hrest; subst. cbn [head ok_or].
    cbn in Ho'. rewrite Ho in Ho'. simplify_eq. cbn [lr_range q sr_offset sr_end]. f_equal.
    rewrite <- Hb, slice_slice by lia. f_equal; lia.
Qed.

Lemma pin_read_placed (v : PinnedView B) pack b offset length :
  pack_placed v pack b -> 0 <= offset -> 1 <= length <= MAX_BATCH_BYTES -> offset + length <= zlen b ->
  pin_read (pn_storage v) (pn_placement v) pack (mkRange offset length (offset + length))
  = Ok (slice b offset (offset + length)).
Proof. apply placed_read. Qed.

(** The record of [l] in its pack: the header of its metadata, then [payload]. *)
Definition frame_placed (v : PinnedView B) (l : FrameLocation) (payload : bytes) : Prop :=
  exists b h, pack_placed v (fl_pack l) b /\ Frame.record_header (fl_metadata l) = Ok h /\
    FRAME_HEADER_SIZE <= pk_offset (fl_payload l) /\ PackRange_end (fl_payload l) <= zlen b /\
    slice b (pk_offset (fl_payload l) - FRAME_HEADER_SIZE) (PackRange_end (fl_payload l))
    = FrameHeader_encode h ++ payload.

(** A frame of the view is stored, and decodes to [raw]. *)
Definition sealed_frame (v : PinnedView B) (l : FrameLocation) (raw : bytes) : Prop :=
  exists payload, frame_placed v l payload /\
    verify_payload (fl_metadata l) payload (pn_dictionaries v) = Ok (mkVerified (fm_id (fl_metadata l)) raw).

Lemma fetch_sealed (v : PinnedView B) id l raw :
  location_ok (id, l) -> sealed_frame v l raw ->
  exists payload, fetch_record v l = Ok (mkEncoded (fl_metadata l) payload, mkVerified (fm_id (fl_metadata l)) raw).
Proof.
  intros [_ _ Hm (P1 & P2 & P3)] (payload & (b & h & Hb & Hh & H24 & Hend & Hrec) & Hver). exists payload. cbn in *.
  destruct (record_header_lemma _ Hm) as (h' & Hh' & Hok & _). rewrite Hh in Hh'. simplify_eq.
  pose proof (zlen_FrameHeader_encode h') as Hhl.
  destruct Hm as (_ & Hsh & _ & Hpb & _). pose proof (shape_ok_bounds _ Hsh) as (_ & _ & Hd).
  unfold MAX_FRAME_BYTES, PackRange_end, FRAME_HEADER_SIZE in *. rewrite <- P3 in Hpb.
  assert (read_record v l = Ok (FrameHeader_encode h' ++ payload)) as Hread.
  { unfold read_record, prefix_offset, FRAME_HEADER_SIZE. rewrite (proj2 (checked_sub_Some _ _ _)) by (split; [done|lia]).
    cbn [range ok_or rbind]. rewrite (proj2 (checked_add_Some _ _ _)) by (split; [done|unfold U64_MAX; lia]).
    cbn [range ok_or rbind]. set (o := pk_offset (fl_payload l) - 24). set (n := pk_length (fl_payload l) + 24).
    assert (value (StoredRange_new o n) = Ok (mkRange o n (o + n))) as ->
      by (apply value_Ok, StoredRange_new_spec; split; [done|subst o n; lia]).
    cbn [rbind]. subst o n. rewrite (pin_read_placed v (fl_pack l) b) by (unfold MAX_BATCH_BYTES; (done || lia)).
    rewrite <- Hrec. do 2 f_equal. lia. }
  assert (zlen payload = pk_length (fl_payload l)) as Hpl.
  { apply (f_equal zlen) in Hrec. rewrite zlen_app, Hhl, zlen_slice in Hrec by lia. lia. }
  unfold fetch_record. rewrite Hread. cbn [rbind]. unfold decode_record, record_payload, prefix_offset, stored_size.
  unfold FRAME_HEADER_SIZE in *. rewrite (proj2 (checked_sub_Some _ _ _)) by (split; [done|lia]). cbn [range ok_or rbind].
  rewrite zlen_app, Hhl, Hpl, (proj2 (Z.eqb_eq _ _)) by lia. cbn [negb]. rewrite (proj2 (Z.ltb_ge _ _)) by lia.
  assert (slice (FrameHeader_encode h' ++ payload) 0 24 = FrameHeader_encode h') as ->.
  { rewrite <- Hhl. by apply (slice_mid []). }
  rewrite (frame_header_roundtrip_lemma h' Hok), Hh. cbn [format map_err rbind].
  rewrite bool_decide_true by done. cbn [negb rbind].
  assert (slice (FrameHeader_encode h' ++ payload) 24 (24 + pk_length (fl_payload l)) = payload) as ->.
  { rewrite <- (app_nil_r payload) at 1. apply slice_mid; lia. }
  cbn [rbind]. unfold EncodedFrame_verified. by rewrite Hver.
Qed.

Lemma read_sealed (v : PinnedView B) n l slot raw :
  view_wf (pn_view v) -> resolve v n = Ok (StoredPageRef l slot) -> sealed_frame v l raw ->
  ResolvedPage_read v (StoredPageRef l slot) =
  Ok (slice raw (slot * lb_page_size (vm_size (pn_view v)))
        (slot * lb_page_size (vm_size (pn_view v)) + lb_page_size (vm_size (pn_view v)))).
Proof.
  intros Hv Hr Hs. destruct (resolve_stored v n l slot Hv Hr) as (x & _ & _ & Hx & H0 & Hm & Hps & _ & Hl).
  destruct (fetch_sealed v _ l raw (fields_frames _ (proj1 Hv) _ _ Hl) Hs) as [p Hf].
  cbn [ResolvedPage_read]. unfold fetch. rewrite Hf. cbn [rbind snd].
  destruct Hs as (payload & _ & Hver). eapply extract_lemma in Hver as He; [|done..].
  rewrite <- Hps. by apply He.
Qed.

(** ** Opening a view *)

Lemma validate_dictionary_lemma (b : B) id limit n :
  limit <= U64_MAX -> validate_dictionary b id limit = Ok n ->
  exists d, contents b !! Dictionary id = Some d /\ blake3 d = id /\ n = zlen d /\ 1 <= n.
Proof.
  intros Hl E. unfold validate_dictionary in E. inv_ok. guards. subst n.
  apply read_all_exact in Hok as [Hc Hz]; [|done]. exists a. split_and!; (done || lia).
Qed.

Lemma load_dictionary_lemma (b : B) loaded id loaded' :
  load_dictionary b loaded id = Ok loaded' ->
  exists d, contents b !! Dictionary id = Some d /\ blake3 d = id /\ loaded' = <[id := d]> loaded.
Proof.
  intros E. unfold load_dictionary in E. inv_ok.
  apply validate_dictionary_lemma in Hok as (d & Hc & Hd & -> & Hz); [|done]. exists d. split; [done|]. split; [done|].
  apply value_Ok, StoredRange_new_spec in Hok0 as [-> _]. subst loaded'.
  apply read_range_exact in Hok1 as (o & Ho & _ & ->); [|cbn; lia..]. rewrite Hc in Ho. injection Ho as <-.
  cbn [sr_offset sr_end]. by rewrite slice_all by lia.
Qed.

Lemma load_dictionaries_lemma (b : B) ids : forall loaded loaded',
  mfold (load_dictionary b) loaded ids = Ok loaded' ->
  (forall id d, loaded !! id = Some d -> blake3 d = id) ->
  (forall id d, loaded' !! id = Some d -> blake3 d = id) /\
  (forall id, id ∈ ids \/ is_Some (loaded !! id) -> is_Some (loaded' !! id)).
Proof.
  induction ids as [|i ids IH]; intros loaded loaded' E Hl; cbn [mfold] in E; inv_ok.
  - subst. split; [done|]. intros id [Hid|]; [by apply elem_of_nil in Hid|done].
  - apply load_dictionary_lemma in Hok as (d & _ & Hd & ->). destruct (IH _ _ E) as [H1 H2].
    { intros id d' Hid. apply lookup_insert_Some in Hid as [[<- <-]|[_ Hid]]; [done|by apply Hl]. }
    split; [done|]. intros id Hid. apply H2. destruct (decide (i = id)) as [->|Hne].
    + right. rewrite lookup_insert, decide_True by done. by eexists.
    + destruct Hid as [[->|Hid]%elem_of_cons|Hid]; [done|by left|right]. by rewrite lookup_insert_ne.
Qed.

Lemma pin_new_lemma (s : State) ids : forall (p0 p : pin),
  mfold (fun (p : pin) pack => let* placements := placement s pack in Ok (<[pack := placements]> p)) p0 ids = Ok p ->
  forall id, id ∈ ids -> exists placements, placement s id = Ok placements /\ p !! id = Some placements.
Proof.
  assert (forall ids (p0 p : pin), mfold (fun (p : pin) pack => let* placements := placement s pack in Ok (<[pack := placements]> p)) p0 ids = Ok p ->
    forall id, id ∉ ids -> p !! id = p0 !! id) as Hkeep.
  { induction ids0 as [|i ids0 IH]; intros p0 p E id Hid; cbn [mfold] in E; inv_all; [by subst|].
    apply not_elem_of_cons in Hid as [Hne Hid]. subst a. rewrite (IH _ _ E id Hid).
    unfold pin in *. by rewrite lookup_insert_ne. }
  induction ids as [|i ids IH]; intros p0 p E id Hid; [by apply elem_of_nil in Hid|]. cbn [mfold] in E. inv_all. subst a.
  destruct (decide (id ∈ ids)) as [Hin|Hno]; [by eapply IH|].
  apply elem_of_cons in Hid as [->|]; [|done]. exists a0. split; [done|].
  rewrite (Hkeep _ _ _ E _ Hno). unfold pin in *. by rewrite lookup_insert, decide_True.
Qed.

Lemma isort_elements_elem (X : gset (list Z)) x : x ∈ isort digest_leb (elements X) <-> x ∈ X.
Proof. by rewrite (isort_perm digest_leb (elements X)), elem_of_elements. Qed.

(** ** Theorems *)

(** C24. Sealed reads are authenticated: through a pinned view, a page past the end of the
    database is refused; and whatever the backend holds or returns, bytes that are read
    are one page long and either zero, for a page the manifest does not list, or hash,
    with the page number and transaction, to the checksum the manifest records. So a read
    returns the bytes that were sealed, fails, or exhibits a collision. *)
Theorem sealed_read_authentic (v : PinnedView B) n :
  view_wf (pn_view v) ->
  (lb_pages (vm_size (pn_view v)) < n -> view_read v n = Err Range) /\
  (forall b, view_read v n = Ok b ->
     n <= lb_pages (vm_size (pn_view v)) /\ authentic (pn_view v) n b /\
     forall sealed, authentic (pn_view v) n sealed -> b = sealed \/ collision).
Proof.
  intros Hv. split; cbn [view_read PinnedView_sealed].
  - intros Hn. unfold resolve. by rewrite (proj2 (Z.ltb_lt _ _)) by done.
  - intros b E. destruct (resolve v n) as [page|] eqn:Er; [|done]. cbn [rbind] in E.
    pose proof (read_authentic v n page b Hv Er E) as Ha. split_and!; [|done|intros sealed; by apply authentic_unique].
    unfold resolve in Er. inv_ok. by apply Z.ltb_ge.
Qed.

(** C25. Sealed pages read back: when every frame of a well-formed view is stored in the pack
    the pin locates, each of its pages reads as exactly the slot of the decoded frame the
    manifest names, and the pinned view meets the contract the page store relies on:
    every page within its size can be read, one page long. *)
Theorem sealed_view_readable (v : PinnedView B) :
  view_wf (pn_view v) ->
  (forall id l, vm_frames (pn_view v) !! id = Some l -> exists raw, sealed_frame v l raw) ->
  view_ok v (lb_page_size (vm_size (pn_view v))) /\
  (forall n l slot raw, resolve v n = Ok (StoredPageRef l slot) -> sealed_frame v l raw ->
     view_read v n = Ok (slice raw (slot * lb_page_size (vm_size (pn_view v)))
                           (slot * lb_page_size (vm_size (pn_view v)) + lb_page_size (vm_size (pn_view v))))).
Proof.
  intros Hv Hf.
  assert (forall n l slot raw, resolve v n = Ok (StoredPageRef l slot) -> sealed_frame v l raw ->
     view_read v n = Ok (slice raw (slot * lb_page_size (vm_size (pn_view v)))
                           (slot * lb_page_size (vm_size (pn_view v)) + lb_page_size (vm_size (pn_view v))))) as Hread.
  { intros n l slot raw Hr Hs. cbn [view_read PinnedView_sealed]. rewrite Hr. by eapply read_sealed. }
  split; [|done]. split; [apply Hv|]. split; [done|]. cbn [view_size PinnedView_sealed]. intros n Hn.
  assert (exists page, resolve v n = Ok page) as [page Hr].
  { unfold resolve. rewrite (proj2 (Z.ltb_ge _ _)) by lia. destruct (vm_pages (pn_view v) !! n) as [p|] eqn:Ep; [|eauto].
    destruct (shape_pages _ (proj2 Hv) _ _ Ep) as (l & x & Hl & _). cbn in Hl. rewrite Hl. cbn. eauto. }
  assert (exists b, view_read v n = Ok b) as [b Hb].
  { destruct page as [|l slot]; [cbn [view_read PinnedView_sealed]; rewrite Hr; cbn; eauto|].
    destruct (resolve_stored v n l slot Hv Hr) as (x & _ & _ & _ & _ & _ & _ & _ & Hl).
    destruct (Hf _ _ Hl) as [raw Hs]. eauto. }
  exists b. split; [done|]. cbn [view_read PinnedView_sealed] in Hb. rewrite Hr in Hb. cbn [rbind] in Hb.
  by apply (read_authentic v n page b Hv Hr).
Qed.

(** Opening a view pins what it needs: the view is the one its manifest names and is
    well formed (up to a collision), every dictionary its frames use is loaded with bytes
    that hash to its identity, and every pack has a pinned placement. *)
Theorem open_pins_dependencies (g : CatalogGuard B) id (v : PinnedView B) :
  stored_bytes (cg_backend g) -> PinnedView_open g id = Ok v ->
  (exists o c, contents (cg_backend g) !! Manifest id = Some o /\ read_bytes o = Ok c /\ ct_id c = id /\
     loaded_from c (pn_metadata v)) /\
  (view_wf (pn_view v) \/ collision) /\
  (forall d, d ∈ dictionaries (pn_view v) -> exists o, pn_dictionaries v !! d = Some o /\ blake3 o = d) /\
  (forall p, p ∈ packs (pn_view v) -> exists placements,
     placement (cg_state g) p = Ok placements /\ pn_placement v !! p = Some placements).
Proof.
  intros Hb E. unfold PinnedView_open in E. inv_ok. subst v. cbn [pn_view pn_metadata pn_dictionaries pn_placement vd_view] in *.
  split_and!.
  - apply load_metadata_from in Hok as (c & Hc & Hl). apply read_manifest_inv in Hc as (o & ? & ? & ?). eauto 10.
  - by eapply load_metadata_wf.
  - intros d Hd. apply load_dictionaries_lemma in Hok0 as [H1 H2]; [|intros ? ? [=]].
    destruct (H2 d) as [o Ho]; [left; by apply isort_elements_elem|]. eauto.
  - intros p Hp. eapply pin_new_lemma; [exact Hok3|]. by apply isort_elements_elem.
Qed.
End Proofs.
