(* ===== verification/SealedDemo.v ===== *)
(** The whole path of a sealed page in the in-memory backend: a frame is built and packed,
    the pack installed as a blob, its view finalized as a manifest, the view opened and its
    pages read back; the witnesses of the theorems on sealed reads. *)

From S2P Require Import Prelude Domain Format Wire Segment Frame Pack Backend CatalogIndex Catalog Placement View ViewProofs ViewDemo Manifest ManifestProofs ManifestDemo Store StoreProofs Sealed SealedProofs.
From stdpp Require Import base strings gmap list sorting.
From Stdlib Require Import ZArith Lia.
Open Scope Z_scope.

#[local] Existing Instances demo_hashes demo_zstd demo_hashes_ok demo_zstd_ok.

(** The pack of [demo_frame] as a staged object, built by appending. *)
Definition demo_packed : Finalized := Eval vm_compute in
  unwrap (mkFinalized KPack [] [] 0)
    (let* s := Building_append (Building_new KPack) PACK_HEADER in
     let* s := Building_append s (frame_record demo_frame) in
     Building_finalize s).

Definition demo_installed : CatalogGuard MemoryBackend := Eval vm_compute in
  (install_pack (mkGuard demo_memory demo_catalog) demo_packed).2.

Definition demo_location4 : FrameLocation := Eval vm_compute in
  mkLocation (fz_id demo_packed)
    (mkPackRange (fz_length demo_packed - zlen (ef_payload demo_frame)) (zlen (ef_payload demo_frame)))
    (ef_metadata demo_frame).

Definition demo_view4 : ViewMetadata :=
  mkView (demo_id 1) (demo_id 2) (mkLogical 2048 512) 9 (demo_id 3) None
    {[ fm_id (ef_metadata demo_frame) := demo_location4 ]}
    {[ 4 := mkStored (fm_id (ef_metadata demo_frame)) 0; 2 := mkStored (fm_id (ef_metadata demo_frame)) 1 ]} [].

Definition demo_builder4 : ManifestBuilder :=
  unwrap demo_failed (let* m := ManifestBuilder_new true demo_view4 None in
                      ManifestBuilder_pack m true (fz_id demo_packed)).
Definition demo_seal4 := Eval vm_compute in ManifestBuilder_finalize demo_installed demo_builder4.
Definition demo_id4 : Digest := Eval vm_compute in match demo_seal4.1 with Ok p => p.1 | Err _ => [] end.

Definition demo_unpinned : PinnedView MemoryBackend := mkPinned [] demo_invalid ∅ [] demo_memory ∅.
Definition demo_pinned : PinnedView MemoryBackend := Eval vm_compute in
  unwrap demo_unpinned (PinnedView_open demo_seal4.2 demo_id4).

(** Stored, zero and missing pages. *)
Example demo_sealed_reads :
  view_read demo_pinned 4 = Ok (demo_page 251) /\ view_read demo_pinned 1 = Ok (zeros 512) /\
  view_read demo_pinned 5 = Err Range.
Proof. split_and!; vm_compute; reflexivity. Qed.

Definition demo_raw4 : bytes := Eval vm_compute in unwrap [] (encode_raw demo_view4).
Definition demo_valid4 : ValidatedMetadata := Eval vm_compute in unwrap demo_invalid (validate demo_view4).

Lemma demo_wf4 : view_wf demo_view4.
Proof.
  apply (decoded_view_wf demo_view4 demo_raw4 demo_valid4); try (vm_compute; reflexivity). vm_compute. discriminate.
Qed.

Lemma demo_pinned_view : pn_view demo_pinned = demo_view4.
Proof. vm_compute. reflexivity. Qed.

Lemma demo_pinned_wf : view_wf (pn_view demo_pinned).
Proof. rewrite demo_pinned_view. exact demo_wf4. Qed.

Lemma sealed_read_authentic_witness :
  authentic (pn_view demo_pinned) 4 (demo_page 251) /\ view_read demo_pinned 5 = Err Range.
Proof.
  split.
  - destruct (sealed_read_authentic demo_pinned 4 demo_pinned_wf) as [_ H].
    destruct (H (demo_page 251)) as (_ & Ha & _); [vm_compute; reflexivity|exact Ha].
  - destruct (sealed_read_authentic demo_pinned 5 demo_pinned_wf) as [H _]. apply H. vm_compute. reflexivity.
Defined.

(** The frame is stored behind the headers of its blob and of its pack. *)
Definition demo_extent4 : BlobExtent := Eval vm_compute in
  match pn_placement demo_pinned !! fz_id demo_packed with
  | Some p => match preferred p with Some r => rp_extent r | None => demo_extent end
  | None => demo_extent
  end.
Definition demo_blob4 : bytes := Eval vm_compute in
  default [] (contents (pn_storage demo_pinned) !! Blob (be_blob demo_extent4)).
Definition demo_placements4 : Placements := Eval vm_compute in
  default (mkPlacements [] 0 [] []) (pn_placement demo_pinned !! fz_id demo_packed).
Definition demo_representation4 : Representation := Eval vm_compute in
  default (mkRepresentation [] demo_extent) (preferred demo_placements4).
Definition demo_header4 : FrameHeader := Eval vm_compute in
  unwrap (mkFrameHeader 0 CodecRaw 0 0 0) (Frame.record_header (ef_metadata demo_frame)).

Lemma demo_extent4_ok : extent_ok (rp_extent demo_representation4).
Proof.
  split; [|vm_compute; split_and!; discriminate]. split; [vm_compute; reflexivity|].
  apply bytes_check_ok. vm_compute. reflexivity.
Qed.

Lemma demo_sealed_frame : sealed_frame demo_pinned demo_location4 (concat (map snd demo_pages)).
Proof.
  exists (ef_payload demo_frame). split; [|vm_compute; reflexivity].
  exists (fz_file demo_packed), demo_header4. split.
  - exists demo_placements4, demo_representation4, demo_blob4.
    split; [vm_compute; reflexivity|]. split; [vm_compute; reflexivity|]. split; [exact demo_extent4_ok|].
    split; [vm_compute; reflexivity|]. split; [vm_compute; reflexivity|]. split; [vm_compute; discriminate|].
    vm_compute. reflexivity.
  - split; [vm_compute; reflexivity|]. split; [vm_compute; discriminate|]. split; [vm_compute; discriminate|].
    vm_compute. reflexivity.
Qed.

Lemma sealed_view_readable_witness :
  view_ok demo_pinned 512 /\
  view_read demo_pinned 2 = Ok (slice (concat (map snd demo_pages)) 512 1024).
Proof.
  destruct (sealed_view_readable demo_pinned demo_pinned_wf) as [Hok Hread].
  - intros id l Hl. exists (concat (map snd demo_pages)).
    rewrite demo_pinned_view in Hl. unfold demo_view4 in Hl. cbn [vm_frames] in Hl.
    apply lookup_singleton_Some in Hl as [_ <-]. exact demo_sealed_frame.
  - split; [exact Hok|]. apply (Hread 2 demo_location4 1); [vm_compute; reflexivity|exact demo_sealed_frame].
Defined.

Lemma open_pins_dependencies_witness :
  exists placements, placement (cg_state demo_seal4.2) (fz_id demo_packed) = Ok placements /\
                     pn_placement demo_pinned !! fz_id demo_packed = Some placements.
Proof.
  destruct (open_pins_dependencies demo_seal4.2 demo_id4 demo_pinned) as (_ & _ & _ & Hp).
  - apply memory_stored_bytes. vm_compute. reflexivity.
  - vm_compute. reflexivity.
  - apply Hp. apply (bool_decide_unpack _). vm_compute. exact I.
Defined.
