(* ===== verification/Cache.v ===== *)
(** The page cache (src/src/storage/cache.rs): decoded pages of the current sealed view in
    slots of a private temporary file, indexed by a hash map whose entries form a doubly
    linked list in order of use, in front of the verified read of [Sealed].

    The file is whatever the operating system makes of it ([CacheFile]): every operation may
    fail, and what a read returns is not assumed to be what was written. Decoding times are
    not modelled. *)

From S2P Require Import Prelude Domain Layout Format Wire Segment Frame Pack Backend CatalogIndex Catalog Placement View Manifest Store Sealed.
From stdpp Require Import base strings gmap list sorting.
From Stdlib Require Import ZArith Lia.
Open Scope Z_scope.

(** A private unlinked file: [CacheFile] of src/src/fs.rs. Reads fill the caller's buffer, the
    block size is nonzero and the free space, when known, an unsigned number. *)
Class CacheFile (F : Type) := {
  cf_block_bytes : F -> Z;
  cf_available_bytes : F -> option Z;
  cf_read : F -> Z -> Z -> result StoreError bytes;
  cf_write : F -> Z -> bytes -> result StoreError unit * F;
  cf_set_len : F -> Z -> result StoreError unit * F;
  cf_punch : F -> Z -> Z -> result StoreError unit * F;
}.

Class CacheFileLaws (F : Type) `{CacheFile F} : Prop := {
  cf_read_length : forall f offset n b, cf_read f offset n = Ok b -> zlen b = n;
  cf_block_nonzero : forall f, 1 <= cf_block_bytes f;
  cf_available_unsigned : forall f n, cf_available_bytes f = Some n -> 0 <= n;
}.

(** ** Data *)

Record DatabaseCacheStats : Set := mkCacheStats {
  cs_hits : Z;
  cs_misses : Z;
  cs_extra_pages_requested : Z;
  cs_extra_pages_evicted_unused : Z;
}.

(** The counters of a handle the cache updates. *)
Record HandleIoStats : Set := mkIoStats {
  io_cache_hits : Z;
  io_cache_misses : Z;
  io_fetched_bytes : Z;
  io_inflated_bytes : Z;
}.

Record Entry : Set := mkEntry {
  en_version : PageVersion;
  en_slot : Z;
  en_used : bool;
  en_previous : option Z;
  en_next : option Z;
}.

Record Pages (F : Type) : Type := mkPages {
  pg_file : F;
  pg_manifest : Digest;
  pg_page_size : Z;
  pg_stride : Z;
  pg_capacity : Z;
  pg_allocated : Z;
  pg_free : list Z;
  pg_entries : gmap Z Entry;
  pg_newest : option Z;
  pg_oldest : option Z;
}.
Arguments mkPages {F}. Arguments pg_file {F}. Arguments pg_manifest {F}. Arguments pg_page_size {F}.
Arguments pg_stride {F}. Arguments pg_capacity {F}. Arguments pg_allocated {F}. Arguments pg_free {F}.
Arguments pg_entries {F}. Arguments pg_newest {F}. Arguments pg_oldest {F}.

Inductive Backing (F : Type) : Type :=
| Empty
| Ready (pages : Pages F)
| Disabled.
Arguments Empty {F}. Arguments Ready {F}. Arguments Disabled {F}.

Record PageCache (F : Type) : Type := mkCache {
  pc_backing : Backing F;
  pc_budget : CacheCapacity;
  pc_stats : DatabaseCacheStats;
}.
Arguments mkCache {F}. Arguments pc_backing {F}. Arguments pc_budget {F}. Arguments pc_stats {F}.

(** ** Entries and their list *)

Definition set_next (next : option Z) (e : Entry) : Entry :=
  mkEntry (en_version e) (en_slot e) (en_used e) (en_previous e) next.
Definition set_previous (previous : option Z) (e : Entry) : Entry :=
  mkEntry (en_version e) (en_slot e) (en_used e) previous (en_next e).
Definition set_used (e : Entry) : Entry :=
  mkEntry (en_version e) (en_slot e) true (en_previous e) (en_next e).

Definition evicted_unused (n : Z) (s : DatabaseCacheStats) : DatabaseCacheStats :=
  mkCacheStats (cs_hits s) (cs_misses s) (cs_extra_pages_requested s)
    (saturating_add (cs_extra_pages_evicted_unused s) n).

Definition bool_count (b : bool) : Z := if b then 1 else 0.

Section Slots.
Context {F : Type} `{CacheFile F}.

Definition set_list (p : Pages F) (entries : gmap Z Entry) (newest oldest : option Z) : Pages F :=
  mkPages (pg_file p) (pg_manifest p) (pg_page_size p) (pg_stride p) (pg_capacity p) (pg_allocated p)
    (pg_free p) entries newest oldest.
Definition set_slots (p : Pages F) (file : F) (allocated : Z) (free : list Z) : Pages F :=
  mkPages file (pg_manifest p) (pg_page_size p) (pg_stride p) (pg_capacity p) allocated free
    (pg_entries p) (pg_newest p) (pg_oldest p).

(** [entries[..]] and [get_mut(..).expect(..)] of the source find their entry in every
    well-linked list; [alter] leaves the map alone where it is missing. *)
Definition unlink (p : Pages F) (id : Z) : Pages F :=
  match pg_entries p !! id with
  | None => p
  | Some entry =>
      let previous := en_previous entry in
      let next := en_next entry in
      let p := match previous with
               | Some q => set_list p (alter (set_next next) q (pg_entries p)) (pg_newest p) (pg_oldest p)
               | None => set_list p (pg_entries p) next (pg_oldest p)
               end in
      match next with
      | Some q => set_list p (alter (set_previous previous) q (pg_entries p)) (pg_newest p) (pg_oldest p)
      | None => set_list p (pg_entries p) (pg_newest p) previous
      end
  end.

Definition promote (p : Pages F) (id : Z) : Pages F :=
  let entries := alter (fun e => set_next (pg_newest p) (set_previous None e)) id (pg_entries p) in
  match pg_newest p with
  | Some newest => set_list p (alter (set_previous (Some id)) newest entries) (Some id) (pg_oldest p)
  | None => set_list p entries (Some id) (Some id)
  end.

Definition Pages_remove (p : Pages F) (id : Z) (stats : DatabaseCacheStats)
    : option Entry * Pages F * DatabaseCacheStats :=
  match pg_entries p !! id with
  | None => (None, p, stats)
  | Some _ =>
      let p := unlink p id in
      match pg_entries p !! id with
      | None => (None, p, stats)
      | Some entry =>
          (Some entry, set_list p (delete id (pg_entries p)) (pg_newest p) (pg_oldest p),
           evicted_unused (bool_count (negb (en_used entry))) stats)
      end
  end.

(** Hole punching is best effort; the slot is reusable either way. *)
Definition Pages_invalidate (p : Pages F) (id : Z) (stats : DatabaseCacheStats)
    : Pages F * DatabaseCacheStats :=
  match Pages_remove p id stats with
  | (None, p, stats) => (p, stats)
  | (Some entry, p, stats) =>
      let file := match StoredRange_new (en_slot entry) (pg_stride p) with
                  | Ok r => snd (cf_punch (pg_file p) (sr_offset r) (sr_length r))
                  | Err _ => pg_file p
                  end in
      (set_slots p file (pg_allocated p) (pg_free p ++ [en_slot entry]), stats)
  end.

Context `{Hashes}.

Definition Pages_read (p : Pages F) (id : Z) : result StoreError (option (bytes * bool)) * Pages F :=
  match pg_entries p !! id with
  | None => (Ok None, p)
  | Some entry =>
      match cf_read (pg_file p) (en_slot entry) (pg_page_size p) with
      | Err e => (Err e, p)
      | Ok b =>
          if negb (bytes_eqb (checksum id (pv_txid (en_version entry)) b) (pv_checksum (en_version entry)))
          then (Err (PageChecksumError id), p)
          else
            let p := promote (unlink p id) id in
            (Ok (Some (b, negb (en_used entry))),
             set_list p (alter set_used id (pg_entries p)) (pg_newest p) (pg_oldest p))
      end
  end.

(** The slot of a new entry: the oldest entry's when the cache is full, a free one, or a new
    one at the end of the file. *)
Definition take_slot (p : Pages F) (stats : DatabaseCacheStats)
    : result StoreError Z * Pages F * DatabaseCacheStats :=
  if Z.of_nat (size (pg_entries p)) =? pg_capacity p then
    match pg_oldest p with
    | None => (Err Range, p, stats)
    | Some oldest =>
        match Pages_remove p oldest stats with
        | (Some evicted, p, stats) => (Ok (en_slot evicted), p, stats)
        | (None, p, stats) => (Err Range, p, stats)
        end
    end
  else
    match last (pg_free p) with
    | Some slot => (Ok slot, set_slots p (pg_file p) (pg_allocated p) (removelast (pg_free p)), stats)
    | None =>
        match checked_mul (pg_allocated p) (pg_stride p) with
        | None => (Err Range, p, stats)
        | Some offset =>
            match checked_add offset (pg_stride p) with
            | None => (Err Range, p, stats)
            | Some stop =>
                match cf_set_len (pg_file p) stop with
                | (Err e, file) => (Err e, set_slots p file (pg_allocated p) (pg_free p), stats)
                | (Ok _, file) => (Ok offset, set_slots p file (pg_allocated p + 1) (pg_free p), stats)
                end
            end
        end
    end.

Definition Pages_insert (p : Pages F) (version : PageVersion) (b : bytes) (used : bool)
    (stats : DatabaseCacheStats) : result StoreError unit * Pages F * DatabaseCacheStats :=
  if (pg_capacity p =? 0) || bool_decide (is_Some (pg_entries p !! pv_page version)) then (Ok tt, p, stats)
  else if negb (zlen b =? pg_page_size p) then (Err Range, p, stats)
  else
    match take_slot p stats with
    | (Err e, p, stats) => (Err e, p, stats)
    | (Ok vacant, p, stats) =>
        match cf_write (pg_file p) vacant b with
        | (Err e, file) => (Err e, set_slots p file (pg_allocated p) (pg_free p), stats)
        | (Ok _, file) =>
            let p := set_slots p file (pg_allocated p) (pg_free p) in
            let p := set_list p (<[pv_page version := mkEntry version vacant used None None]> (pg_entries p))
                       (pg_newest p) (pg_oldest p) in
            (Ok tt, promote p (pv_page version), stats)
        end
    end.
End Slots.

(** ** The cache *)

Section Cache.
Context {F : Type} `{CacheFile F} `{Hashes, ZstdLib, StorageBackend B}.

Definition I64_MAX : Z := 2 ^ 63 - 1.

(** [file] is the outcome of creating the temporary file. *)
Definition Pages_new (file : result StoreError F) (v : PinnedView B) (capacity : CacheCapacity)
    : result StoreError (Pages F) :=
  let* f := file in
  let size := lb_page_size (vm_size (pn_view v)) in
  let budget := CacheCapacity_resolve capacity (lb_bytes (vm_size (pn_view v))) (cf_available_bytes f) in
  let* stride := range (checked_mul ((size + cf_block_bytes f - 1) / cf_block_bytes f) (cf_block_bytes f)) in
  Ok (mkPages f (pn_id v) size stride (Z.min budget I64_MAX / stride) 0 [] ∅ None None).

Definition PageCache_new (budget : CacheCapacity) : PageCache F :=
  mkCache Empty budget (mkCacheStats 0 0 0 0).

Definition PageCache_maintenance : PageCache F := PageCache_new (FixedCache (9 * 1024 * 1024)).

Definition resident_bytes (c : PageCache F) : Z :=
  match pc_backing c with
  | Ready p => Z.of_nat (size (pg_entries p)) * pg_stride p
  | _ => 0
  end.

Definition unused_entries (p : Pages F) : Z :=
  zlen (List.filter (fun e => negb (en_used e.2)) (map_to_list (pg_entries p))).

Definition discard (c : PageCache F) (replacement : Backing F) : PageCache F :=
  mkCache replacement (pc_budget c)
    (match pc_backing c with
     | Ready p => evicted_unused (unused_entries p) (pc_stats c)
     | _ => pc_stats c
     end).

Definition set_budget (c : PageCache F) (budget : CacheCapacity) : PageCache F :=
  if bool_decide (budget = pc_budget c) then c
  else let c := discard c Empty in mkCache (pc_backing c) budget (pc_stats c).

Definition PageCache_invalidate (c : PageCache F) (number : Z) : PageCache F :=
  match pc_backing c with
  | Ready p => let '(p, stats) := Pages_invalidate p number (pc_stats c) in
               mkCache (Ready p) (pc_budget c) stats
  | _ => c
  end.

Definition invalidate_where (c : PageCache F) (matches : Z -> bool) : PageCache F :=
  match pc_backing c with
  | Ready p => foldl PageCache_invalidate c (List.filter matches (map fst (map_to_list (pg_entries p))))
  | _ => c
  end.

(** Whether the entries are of another manifest. *)
Definition stale (c : PageCache F) (manifest : Digest) : bool :=
  match pc_backing c with
  | Ready p => negb (bytes_eqb (pg_manifest p) manifest)
  | _ => false
  end.

Definition synchronize (c : PageCache F) (view : option (PinnedView B)) (shadowed : Z -> bool) : PageCache F :=
  match pc_backing c, view with
  | Ready _, None => discard c Empty
  | Ready _, Some v => if stale c (pn_id v) then discard c Empty else invalidate_where c shadowed
  | _, _ => invalidate_where c shadowed
  end.

Definition PageCache_insert (c : PageCache F) (version : PageVersion) (b : bytes) (used : bool) : PageCache F :=
  match pc_backing c with
  | Ready p =>
      let '(r, p, stats) := Pages_insert p version b used (pc_stats c) in
      let c := mkCache (Ready p) (pc_budget c) stats in
      match r with Ok _ => c | Err _ => discard c Disabled end
  | _ => c
  end.

(** What a read updates: the cache and the counters of the handle. *)
Abbreviation CS := (prod (PageCache F) HandleIoStats).

Definition on_hit (prefetched : bool) (s : CS) : CS :=
  let '(c, io) := s in
  let t := pc_stats c in
  (mkCache (pc_backing c) (pc_budget c)
     (mkCacheStats (saturating_add (cs_hits t) 1) (cs_misses t)
        (saturating_add (cs_extra_pages_requested t) (bool_count prefetched))
        (cs_extra_pages_evicted_unused t)),
   mkIoStats (saturating_add (io_cache_hits io) 1) (io_cache_misses io) (io_fetched_bytes io) (io_inflated_bytes io)).

Definition on_miss (s : CS) : CS :=
  let '(c, io) := s in
  let t := pc_stats c in
  (mkCache (pc_backing c) (pc_budget c)
     (mkCacheStats (cs_hits t) (saturating_add (cs_misses t) 1) (cs_extra_pages_requested t)
        (cs_extra_pages_evicted_unused t)),
   mkIoStats (io_cache_hits io) (saturating_add (io_cache_misses io) 1) (io_fetched_bytes io) (io_inflated_bytes io)).

Definition on_fetch (fetched inflated : Z) (s : CS) : CS :=
  let '(c, io) := s in
  (c, mkIoStats (io_cache_hits io) (io_cache_misses io) (saturating_add (io_fetched_bytes io) fetched)
        (saturating_add (io_inflated_bytes io) inflated)).

Definition set_cache_of (f : PageCache F -> PageCache F) (s : CS) : CS := (f (fst s), snd s).

(** The lookup that precedes any resolution: a hit, or a miss. A damaged cache is dropped,
    never an error of the database. *)
Definition lookup_cached (v : PinnedView B) (number : Z) (s : CS) : option bytes * CS :=
  let '(c, io) := s in
  let c := if stale c (pn_id v) then discard c Empty else c in
  match pc_backing c with
  | Ready p =>
      match Pages_read p number with
      | (Ok (Some (b, prefetched)), p) => (Some b, on_hit prefetched (mkCache (Ready p) (pc_budget c) (pc_stats c), io))
      | (Ok None, p) => (None, (mkCache (Ready p) (pc_budget c) (pc_stats c), io))
      | (Err _, p) => (None, (discard (mkCache (Ready p) (pc_budget c) (pc_stats c)) Disabled, io))
      end
  | _ => (None, (c, io))
  end.

(** The frame of a miss: from the prefetched records, whose bytes are counted once, or
    fetched now. Records are the bytes of each frame and whether they were counted. *)
Abbreviation Records := (gmap (list Z) (bytes * bool)).

Definition frame_of (v : PinnedView B) (l : FrameLocation) (records : Records)
    : result StoreError (VerifiedFrame * Z * Records) :=
  match (records !! frame_id l : option (bytes * bool)) with
  | Some (b, counted) =>
      let* p := decode_record v l b in
      Ok (snd p, (if counted then 0 else stored_size l), <[frame_id l := (b, true)]> records)
  | None =>
      let* frame := fetch v l in
      Ok (frame, stored_size l, records)
  end.

Definition ensure_backing (file : result StoreError F) (v : PinnedView B) (c : PageCache F) : PageCache F :=
  match pc_backing c with
  | Empty =>
      if bool_decide (pc_budget c = FixedCache 0) then c
      else mkCache (match Pages_new file v (pc_budget c) with Ok p => Ready p | Err _ => Disabled end)
             (pc_budget c) (pc_stats c)
  | _ => c
  end.

(** The neighbours admitted from the frame, up to [extra] slots; the rest are counted. *)
Fixpoint admit_extra (c : PageCache F) (extra : Z) (l : list (PageVersion * bytes)) : PageCache F :=
  match l with
  | [] => c
  | (version, b) :: l' =>
      if extra =? 0
      then admit_extra (mkCache (pc_backing c) (pc_budget c) (evicted_unused 1 (pc_stats c))) extra l'
      else admit_extra (PageCache_insert c version b false) (extra - 1) l'
  end.

Definition admit_frame (v : PinnedView B) (l : FrameLocation) (frame : VerifiedFrame) (number : Z)
    (shadowed : Z -> bool) (c : PageCache F) : result StoreError (PageCache F) :=
  let extra := match pc_backing c with Ready p => Z.max 0 (pg_capacity p - 1) | _ => 0 end in
  let* pages := cache_pages v l frame in
  let c := admit_extra c extra
             (List.filter (fun p => negb (pv_page (fst p) =? number) && negb (shadowed (pv_page (fst p)))) pages) in
  Ok (match find (fun p => pv_page (fst p) =? number) pages with
      | Some (version, b) => PageCache_insert c version b true
      | None => c
      end).

(** The verified read behind a miss. *)
Definition read_missed (file : result StoreError F) (v : PinnedView B) (number : Z) (shadowed : Z -> bool)
    (records : Records) : sm CS (bytes * Records) :=
  let! page := slift (resolve v number) in
  match page with
  | ZeroPage => let! b := slift (ResolvedPage_read v page) in sret (b, records)
  | StoredPageRef l slot =>
      let! _ := smod on_miss in
      let! p := slift (frame_of v l records) in
      let '(frame, fetched, records) := p in
      let! _ := smod (on_fetch fetched (zlen (vf_bytes frame))) in
      let! output := slift (extract l slot frame) in
      let! _ := smod (set_cache_of (ensure_backing file v)) in
      let! s := sget in
      let! c := slift (admit_frame v l frame number shadowed (fst s)) in
      let! _ := smod (set_cache_of (fun _ => c)) in
      sret (output, records)
  end.

Definition read_prefetched (file : result StoreError F) (v : PinnedView B) (number : Z) (shadowed : Z -> bool)
    (records : Records) : sm CS (bytes * Records) :=
  fun s => match lookup_cached v number s with
           | (Some b, s) => (Ok (b, records), s)
           | (None, s) => read_missed file v number shadowed records s
           end.

Definition PageCache_read (file : result StoreError F) (v : PinnedView B) (number : Z) (shadowed : Z -> bool)
    : sm CS bytes :=
  let! p := read_prefetched file v number shadowed ∅ in
  sret (fst p).

(** ** Batches *)

Definition is_cached (c : PageCache F) (number : Z) : bool :=
  match pc_backing c with
  | Ready p => bool_decide (is_Some (pg_entries p !! number))
  | _ => false
  end.

(** The pages of the next batch, at most 256 and 16 MiB of records: how many, and which of
    them the cache does not hold. *)
Fixpoint gather (v : PinnedView B) (c : PageCache F) (numbers : list Z) (taken : Z) (total : Z)
    (frames : gset (list Z)) : result StoreError (nat * list Z) :=
  match numbers with
  | [] => Ok (0%nat, [])
  | number :: rest =>
      if 256 <=? taken then Ok (0%nat, [])
      else if is_cached c number then
        let* p := gather v c rest (taken + 1) total frames in Ok (S (fst p), snd p)
      else
        let* page := resolve v number in
        match page with
        | ZeroPage => let* p := gather v c rest (taken + 1) total frames in Ok (S (fst p), snd p)
        | StoredPageRef l _ =>
            if bool_decide (frame_id l ∈ frames) then
              let* p := gather v c rest (taken + 1) total frames in Ok (S (fst p), number :: snd p)
            else if (0 <? taken) && (16 * 1024 * 1024 <? total + stored_size l) then Ok (0%nat, [])
            else
              let* p := gather v c rest (taken + 1) (total + stored_size l) ({[frame_id l]} ∪ frames) in
              Ok (S (fst p), number :: snd p)
        end
  end.

Fixpoint read_batch (file : result StoreError F) (v : PinnedView B) (shadowed : Z -> bool) (numbers : list Z)
    (records : Records) : sm CS (list bytes) :=
  match numbers with
  | [] => sret []
  | number :: rest =>
      let! p := read_prefetched file v number shadowed records in
      let! out := read_batch file v shadowed rest (snd p) in
      sret (fst p :: out)
  end.

(** Every batch holds at least one page; [None] is out of fuel. *)
Fixpoint read_batches (fuel : nat) (file : result StoreError F) (v : PinnedView B) (shadowed : Z -> bool)
    (numbers : list Z) (s : CS) : option (result StoreError (list bytes) * CS) :=
  match numbers, fuel with
  | [], _ => Some (Ok [], s)
  | _, O => None
  | _, S fuel' =>
      match gather v (fst s) numbers 0 0 ∅ with
      | Err e => Some (Err e, s)
      | Ok (count, misses) =>
          match read_frame_records v misses with
          | Err e => Some (Err e, s)
          | Ok records =>
              match read_batch file v shadowed (take count numbers) ((fun b => (b, false)) <$> records) s with
              | (Err e, s) => Some (Err e, s)
              | (Ok out, s) =>
                  match read_batches fuel' file v shadowed (drop count numbers) s with
                  | None => None
                  | Some (Err e, s) => Some (Err e, s)
                  | Some (Ok rest, s) => Some (Ok (out ++ rest), s)
                  end
              end
          end
      end
  end.

Definition read_many (file : result StoreError F) (v : PinnedView B) (shadowed : Z -> bool) (numbers : list Z)
    (s : CS) : option (result StoreError (list bytes) * CS) :=
  let s := set_cache_of (fun c => if stale c (pn_id v) then discard c Empty else c) s in
  read_batches (length numbers) file v shadowed numbers s.
End Cache.
