(* ===== verification/CacheProofs.v ===== *)
(** Correctness of the page cache: the linked list of its entries is an exact record of the
    order of use, slots are never shared and stay within the budget, and no state of the
    temporary file makes a cached read return anything but the sealed page. *)

From S2P Require Import Prelude Domain Layout Format Wire Segment Frame Pack Backend CatalogIndex Catalog Placement View ViewProofs Manifest ManifestProofs Store Sealed SealedProofs Cache.
From stdpp Require Import base strings gmap list sorting.
From Stdlib Require Import ZArith Lia.
Open Scope Z_scope.

(** ** Doubly linked lists in a map *)

Definition first (l : list Z) (d : option Z) : option Z := match l with [] => d | x :: _ => Some x end.
Definition final (d : option Z) (l : list Z) : option Z := match last l with Some x => Some x | None => d end.

(** The entries of [l] are linked in order, between [prev] and [next]. *)
Fixpoint dll (m : gmap Z Entry) (prev : option Z) (l : list Z) (next : option Z) : Prop :=
  match l with
  | [] => True
  | n :: l' => (exists e, m !! n = Some e /\ en_previous e = prev /\ en_next e = first l' next) /\
               dll m (Some n) l' next
  end.

Lemma final_snoc d l x : final d (l ++ [x]) = Some x.
Proof. unfold final. by rewrite last_snoc. Qed.

Lemma final_cons d x l : final d (x :: l) = final (Some x) l.
Proof. unfold final. rewrite last_cons. by destruct (last l). Qed.

Lemma first_app l k d : first (l ++ k) d = first l (first k d).
Proof. by destruct l. Qed.

Lemma dll_app m prev l k next :
  dll m prev (l ++ k) next <-> dll m prev l (first k next) /\ dll m (final prev l) k next.
Proof.
  revert prev; induction l as [|x l IH]; intros prev; cbn [app dll]; [tauto|].
  rewrite IH, final_cons, first_app. tauto.
Qed.

Lemma dll_frame m m' prev l next :
  (forall n, n ∈ l -> m' !! n = m !! n) -> dll m prev l next -> dll m' prev l next.
Proof.
  revert prev; induction l as [|x l IH]; intros prev Hm; cbn [dll]; [done|].
  intros [He Hl]. rewrite Hm by (by left). split; [done|]. apply IH; [|done]. intros n Hn. apply Hm. by right.
Qed.

Lemma dll_set_previous m prev prev' x l next :
  x ∉ l -> dll m prev (x :: l) next -> dll (alter (set_previous prev') x m) prev' (x :: l) next.
Proof.
  cbn [dll]. intros Hx [(e & He & _ & Hn) Hl]. split.
  - exists (set_previous prev' e). rewrite lookup_alter, decide_True, He by done. done.
  - eapply dll_frame; [|exact Hl]. intros n Hn'. rewrite lookup_alter_ne; [done|]. by intros ->.
Qed.

Lemma dll_set_next m prev l x next next' :
  x ∉ l -> dll m prev (l ++ [x]) next -> dll (alter (set_next next') x m) prev (l ++ [x]) next'.
Proof.
  intros Hx. rewrite !dll_app. cbn [dll first]. intros [Hl [(e & He & Hp & _) _]]. split; [|split; [|done]].
  - eapply dll_frame; [|exact Hl]. intros n Hn'. rewrite lookup_alter_ne; [done|]. by intros ->.
  - exists (set_next next' e). rewrite lookup_alter, decide_True, He by done. done.
Qed.

Lemma final_app d l k : final d (l ++ k) = final (final d l) k.
Proof. unfold final. rewrite last_app. destruct (last k); [done|]. by destruct (last l). Qed.

Lemma final_elem l q : final None l = Some q -> q ∈ l.
Proof. unfold final. destruct (last l) eqn:E; [|done]. intros [= ->]. by apply last_Some_elem_of. Qed.

Lemma first_elem l q : first l None = Some q -> q ∈ l.
Proof. destruct l; [done|]. intros [= ->]. by left. Qed.

Definition relink_next (next : option Z) (q : option Z) (m : gmap Z Entry) : gmap Z Entry :=
  match q with Some q => alter (set_next next) q m | None => m end.
Definition relink_previous (previous : option Z) (q : option Z) (m : gmap Z Entry) : gmap Z Entry :=
  match q with Some q => alter (set_previous previous) q m | None => m end.

Lemma relink_next_dll m l x next :
  NoDup l -> dll m None l x -> dll (relink_next next (final None l) m) None l next.
Proof.
  intros Hnd Hl. destruct l as [|a l _] using rev_ind; [done|]. rewrite final_snoc. cbn [relink_next].
  apply (dll_set_next m None l a x next); [|done].
  apply NoDup_app in Hnd as (_ & Hx & _). intros Hin. by apply (Hx a Hin), list_elem_of_singleton.
Qed.

Lemma relink_previous_dll m l x previous :
  NoDup l -> dll m x l None -> dll (relink_previous previous (first l None) m) previous l None.
Proof.
  intros Hnd Hl. destruct l as [|b l]; [done|]. cbn [first relink_previous].
  apply (dll_set_previous m x previous b l None); [by apply NoDup_cons in Hnd as [? _]|done].
Qed.

Lemma relink_next_ne m next q n : q <> Some n -> relink_next next q m !! n = m !! n.
Proof. destruct q as [q|]; [|done]. intros Hn. cbn. rewrite lookup_alter_ne; [done|congruence]. Qed.
Lemma relink_previous_ne m previous q n : q <> Some n -> relink_previous previous q m !! n = m !! n.
Proof. destruct q as [q|]; [|done]. intros Hn. cbn. rewrite lookup_alter_ne; [done|congruence]. Qed.

(** Relinking changes only the links of entries. *)
Lemma alter_fmap {A} (g : Entry -> A) (f : Entry -> Entry) k (m : gmap Z Entry) :
  (forall e, g (f e) = g e) -> g <$> alter f k m = g <$> m.
Proof.
  intros Hg. apply map_eq. intros n. rewrite !lookup_fmap. destruct (decide (k = n)) as [->|Hne].
  - rewrite lookup_alter, decide_True by done. destruct (m !! n); [|done]. cbn. by rewrite Hg.
  - by rewrite lookup_alter_ne.
Qed.

Section Lists.
Context {F : Type} `{CacheFile F}.

(** Linked as [l], which may leave entries out. *)
Record linked (p : Pages F) (l : list Z) : Prop := {
  linked_dll : dll (pg_entries p) None l None;
  linked_newest : pg_newest p = first l None;
  linked_oldest : pg_oldest p = final None l;
}.

(** [l] is the entries of the cache, most recently used first. *)
Record lru (p : Pages F) (l : list Z) : Prop := {
  lru_nodup : NoDup l;
  lru_dom : forall n, n ∈ l <-> is_Some (pg_entries p !! n);
  lru_linked : linked p l;
}.

Lemma unlink_unfold (p : Pages F) id e :
  pg_entries p !! id = Some e ->
  unlink p id = set_list p (relink_previous (en_previous e) (en_next e) (relink_next (en_next e) (en_previous e) (pg_entries p)))
    (match en_previous e with Some _ => pg_newest p | None => en_next e end)
    (match en_next e with Some _ => pg_oldest p | None => en_previous e end).
Proof. intros He. unfold unlink. rewrite He. by destruct (en_previous e), (en_next e). Qed.

Lemma unlink_linked (p : Pages F) l1 id l2 :
  lru p (l1 ++ id :: l2) -> linked (unlink p id) (l1 ++ l2) /\ pg_entries (unlink p id) !! id = pg_entries p !! id.
Proof.
  intros [Hnd _ [Hl Hnew Hold]]. apply dll_app in Hl as [H1 [(e & He & Hp & Hn) H2]]. cbn [first] in H1.
  apply NoDup_app in Hnd as (Hd1 & Hdis & Hnd2). apply NoDup_cons in Hnd2 as [Hid Hd2].
  assert (final None l1 <> Some id) as Hf by (intros E%final_elem; apply (Hdis id E); by left).
  assert (first l2 None <> Some id) as Hs by (by intros E%first_elem).
  rewrite (unlink_unfold p id e He), Hp, Hn. cbn [pg_entries set_list]. split.
  - split; cbn [pg_entries pg_newest pg_oldest set_list].
    + apply dll_app. split.
      * eapply dll_frame; [|exact (relink_next_dll _ l1 (Some id) (first l2 None) Hd1 H1)]. intros n Hin. apply relink_previous_ne.
        intros E%first_elem. apply (Hdis n Hin). by right.
      * apply (relink_previous_dll _ l2 (Some id)); [done|]. eapply dll_frame; [|exact H2].
        intros n Hin. apply relink_next_ne. intros E%final_elem. apply (Hdis n E). by right.
    + rewrite first_app. destruct l1 as [|a l1 _] using rev_ind; [done|]. rewrite final_snoc, Hnew, first_app.
      destruct l1; done.
    + rewrite final_app. destruct l2 as [|b l2]; [done|]. cbn [first].
      by rewrite Hold, final_app, !final_cons.
  - by rewrite relink_previous_ne, relink_next_ne.
Qed.

Lemma promote_linked (p : Pages F) l id :
  linked p l -> NoDup l -> id ∉ l -> is_Some (pg_entries p !! id) -> linked (promote p id) (id :: l).
Proof.
  intros [Hl Hnew Hold] Hnd Hid [e He]. unfold promote. rewrite Hnew.
  set (m := alter (fun e => set_next (first l None) (set_previous None e)) id (pg_entries p)).
  assert (m !! id = Some (set_next (first l None) (set_previous None e))) as Hm
    by (subst m; by rewrite lookup_alter, decide_True, He).
  assert (dll m None l None) as Hlm.
  { eapply dll_frame; [|exact Hl]. intros n Hin. subst m. rewrite lookup_alter_ne; [done|]. by intros ->. }
  destruct l as [|b l]; cbn [first] in *; split; cbn [pg_entries pg_newest pg_oldest set_list first dll]; try done.
  - split; [|done]. by eexists.
  - split.
    + exists (set_next (Some b) (set_previous None e)). rewrite lookup_alter_ne; [done|]. intros ->. apply Hid. by left.
    + apply (dll_set_previous m None (Some id) b l None); [by apply NoDup_cons in Hnd as [? _]|done].
Qed.

(** *** Fields the list operations leave alone *)

Lemma unlink_fmap {A} (g : Entry -> A) (p : Pages F) id :
  (forall n e, g (set_next n e) = g e) -> (forall n e, g (set_previous n e) = g e) ->
  g <$> pg_entries (unlink p id) = g <$> pg_entries p.
Proof.
  intros Hn Hp. unfold unlink. destruct (pg_entries p !! id) as [e|]; [|done].
  destruct (en_previous e), (en_next e); cbn [pg_entries set_list]; by rewrite ?alter_fmap.
Qed.

Lemma promote_fmap {A} (g : Entry -> A) (p : Pages F) id :
  (forall n e, g (set_next n e) = g e) -> (forall n e, g (set_previous n e) = g e) ->
  g <$> pg_entries (promote p id) = g <$> pg_entries p.
Proof.
  intros Hn Hp. unfold promote. destruct (pg_newest p); cbn [pg_entries set_list];
    rewrite ?alter_fmap; auto; intros; by rewrite Hn.
Qed.

Lemma entries_is_Some {A} (g : Entry -> A) (m m' : gmap Z Entry) n :
  g <$> m = g <$> m' -> is_Some (m !! n) <-> is_Some (m' !! n).
Proof.
  intros E. apply (f_equal (lookup n)) in E. rewrite !lookup_fmap in E.
  by rewrite <- (fmap_is_Some g (m !! n)), E, fmap_is_Some.
Qed.

Lemma lru_size (p : Pages F) l : lru p l -> Z.of_nat (size (pg_entries p)) = zlen l.
Proof.
  intros [Hnd Hdom _]. rewrite <- size_dom. unfold zlen. f_equal.
  assert (dom (pg_entries p) = list_to_set l) as ->.
  { apply set_eq. intros n. by rewrite elem_of_dom, elem_of_list_to_set, Hdom. }
  by apply size_list_to_set.
Qed.

(** ** Slots *)

Definition slot_map (p : Pages F) : gmap Z Z := en_slot <$> pg_entries p.
Definition slots (p : Pages F) (l : list Z) : list Z := omap (fun n => slot_map p !! n) l.

(** Distinct slots of the allocated part of the file. *)
Definition slots_at (p : Pages F) (taken : list Z) : Prop :=
  NoDup taken /\ Forall (fun s => exists k, 0 <= k < pg_allocated p /\ s = k * pg_stride p) taken.

Record pages_inv (p : Pages F) (l : list Z) : Prop := {
  inv_lru : lru p l;
  inv_slots : slots_at p (slots p l ++ pg_free p);
  inv_count : zlen l + zlen (pg_free p) = pg_allocated p;
  inv_capacity : pg_allocated p <= pg_capacity p;
  inv_stride : 0 < pg_stride p;
}.

Lemma slots_app (p : Pages F) l k : slots p (l ++ k) = slots p l ++ slots p k.
Proof. apply omap_app. Qed.

Lemma slots_ext (p p' : Pages F) l : (forall n, n ∈ l -> slot_map p' !! n = slot_map p !! n) -> slots p' l = slots p l.
Proof.
  unfold slots. induction l as [|x l IH]; intros Hm; [done|]. cbn [omap list_omap]. rewrite Hm by (by left).
  rewrite IH; [done|]. intros n Hn. apply Hm. by right.
Qed.

Lemma Pages_remove_lemma (p : Pages F) l1 id l2 stats :
  lru p (l1 ++ id :: l2) ->
  exists e e' p', pg_entries p !! id = Some e /\ en_slot e' = en_slot e /\
    Pages_remove p id stats = (Some e', p', evicted_unused (bool_count (negb (en_used e'))) stats) /\ lru p' (l1 ++ l2) /\
    en_version <$> pg_entries p' = delete id (en_version <$> pg_entries p) /\
    slot_map p' = delete id (slot_map p) /\
    p' = set_list p (pg_entries p') (pg_newest p') (pg_oldest p').
Proof.
  intros Hl. destruct (unlink_linked p l1 id l2 Hl) as [[Hd Hnew Hold] Hid].
  destruct Hl as [Hnd Hdom _].
  destruct (proj1 (Hdom id)) as [e He]; [apply elem_of_app; right; by left|].
  assert (forall n, is_Some (pg_entries (unlink p id) !! n) <-> is_Some (pg_entries p !! n)) as Hsome.
  { intros n. apply (entries_is_Some en_slot). by apply unlink_fmap. }
  exists e, e. eexists. split; [done|]. split; [done|]. unfold Pages_remove. rewrite He, Hid, He. split; [done|].
  assert (id ∉ l1 ++ l2 /\ NoDup (l1 ++ l2)) as [Hno Hnd'].
  { rewrite <- (Permutation_middle l1 l2 id) in Hnd. by apply NoDup_cons in Hnd. }
  cbn [pg_entries pg_newest pg_oldest set_list slot_map]. split; [|split; [|split]].
  - split; [done| |].
    + intros n. cbn [pg_entries set_list]. rewrite lookup_delete_is_Some, Hsome, <- Hdom, !elem_of_app, elem_of_cons.
      rewrite elem_of_app in Hno. naive_solver.
    + split; cbn [pg_entries pg_newest pg_oldest set_list]; try done. eapply dll_frame; [|exact Hd].
      intros n Hn. rewrite lookup_delete_ne; [done|]. by intros ->.
  - rewrite fmap_delete, unlink_fmap; done.
  - unfold slot_map. cbn [pg_entries set_list]. rewrite fmap_delete, unlink_fmap; done.
  - unfold unlink. rewrite He. by destruct (en_previous e), (en_next e).
Qed.

(** ** Operations on a well-linked cache *)

Context {HH : Hashes}.

Lemma elem_split (n : Z) l : n ∈ l -> NoDup l -> exists l1 l2, l = l1 ++ n :: l2 /\ n ∉ l1 /\ n ∉ l2.
Proof.
  intros Hn Hnd. apply list_elem_of_split in Hn as (l1 & l2 & ->). exists l1, l2. split; [done|].
  apply NoDup_app in Hnd as (_ & Hd & Hnd%NoDup_cons). split; [|by destruct Hnd]. intros Hin. apply (Hd n Hin). by left.
Qed.

(** Using an entry moves it to the front. *)
Definition touch (n : Z) (l : list Z) : list Z := n :: filter (fun m => m <> n) l.

Lemma touch_split n l1 l2 : n ∉ l1 -> n ∉ l2 -> touch n (l1 ++ n :: l2) = n :: l1 ++ l2.
Proof.
  intros H1 H2. assert (forall l : list Z, n ∉ l -> filter (fun m => m <> n) l = l) as Hf.
  { induction l as [|x l IH]; intros Hl; [done|]. apply not_elem_of_cons in Hl as [Hx Hl].
    rewrite filter_cons_True by done. by rewrite IH. }
  unfold touch. rewrite filter_app, filter_cons_False by (by intros []). by rewrite !Hf.
Qed.

Lemma front_inv (p : Pages F) l1 id l2 :
  pages_inv p (l1 ++ id :: l2) -> pages_inv (promote (unlink p id) id) (id :: l1 ++ l2).
Proof.
  intros [Hl Hs Hc Hcap Hpos]. destruct (unlink_linked p l1 id l2 Hl) as [Hlk Hid]. pose proof Hl as [Hnd Hdom _].
  rewrite <- (Permutation_middle l1 l2 id) in Hnd. pose proof Hnd as [Hno Hnd']%NoDup_cons.
  destruct (proj1 (Hdom id)) as [e He]; [apply elem_of_app; right; by left|].
  set (q := promote (unlink p id) id).
  assert (forall A (g : Entry -> A), (forall n e, g (set_next n e) = g e) -> (forall n e, g (set_previous n e) = g e) ->
            g <$> pg_entries q = g <$> pg_entries p) as Hg.
  { intros A g Hn Hp. subst q. by rewrite promote_fmap, unlink_fmap. }
  assert (pg_allocated q = pg_allocated p /\ pg_stride q = pg_stride p /\ pg_free q = pg_free p /\ pg_capacity q = pg_capacity p)
    as (Ha & Hst & Hf & Hcp).
  { subst q. unfold promote, unlink. rewrite He. by destruct (en_previous e), (en_next e), (pg_newest _). }
  split.
  - split; [done| |].
    + intros n. rewrite (entries_is_Some en_slot _ _ n (Hg _ en_slot ltac:(done) ltac:(done))).
      rewrite <- Hdom. by rewrite <- (Permutation_middle l1 l2 id).
    + apply promote_linked; try done. rewrite Hid. by exists e.
  - unfold slots_at. rewrite Ha, Hst, Hf.
    assert (slots q (id :: l1 ++ l2) ≡ₚ slots p (l1 ++ id :: l2)) as Hperm.
    { rewrite (slots_ext p q). { unfold slots. by rewrite (Permutation_middle l1 l2 id). }
      intros n _. unfold slot_map. by rewrite Hg. }
    by rewrite Hperm.
  - rewrite Hf, Ha, <- Hc. unfold zlen. cbn. rewrite !length_app. cbn. lia.
  - by rewrite Ha, Hcp.
  - by rewrite Hst.
Qed.

Lemma used_inv (p : Pages F) l id :
  pages_inv p l -> pages_inv (set_list p (alter set_used id (pg_entries p)) (pg_newest p) (pg_oldest p)) l.
Proof.
  intros [[Hnd Hdom [Hd Hnew Hold]] Hs Hc Hcap Hpos].
  assert (forall n, alter set_used id (pg_entries p) !! n
    = (fun e => if decide (id = n) then set_used e else e) <$> (pg_entries p !! n)) as Hlk.
  { intros n. rewrite lookup_alter. destruct (decide (id = n)) as [->|]; by destruct (pg_entries p !! n). }
  split; try done.
  - split; [done| |]; cbn [pg_entries set_list].
    + intros n. by rewrite Hlk, fmap_is_Some.
    + split; cbn [pg_entries pg_newest pg_oldest set_list]; try done.
      clear -Hd Hlk. revert Hd. generalize (@None Z) at 1 3 as prev. induction l as [|x l IH]; intros prev; cbn [dll]; [done|].
      intros [(e & He & Hp & Hn) Hl]. split; [|by apply IH]. rewrite Hlk, He. cbn. eexists. split; [done|].
      by destruct (decide _).
  - unfold slots_at, slots in *. cbn [pg_allocated pg_stride set_list pg_free]. unfold slot_map in *. cbn [pg_entries set_list].
    by rewrite alter_fmap.
Qed.

Lemma Pages_read_lemma (p : Pages F) l n b prefetched p' :
  pages_inv p l -> Pages_read p n = (Ok (Some (b, prefetched)), p') -> n ∈ l /\ pages_inv p' (touch n l).
Proof.
  intros Hi E. unfold Pages_read in E. destruct (pg_entries p !! n) as [e|] eqn:He; [|done].
  destruct (cf_read _ _ _) as [b'|]; [|done]. destruct (negb _); [done|]. injection E as <- <- <-.
  pose proof (inv_lru _ _ Hi) as [Hnd Hdom _].
  assert (n ∈ l) as Hn by (apply Hdom; by exists e). split; [done|].
  destruct (elem_split n l Hn Hnd) as (l1 & l2 & -> & H1 & H2). rewrite touch_split by done.
  by apply used_inv, front_inv.
Qed.

(** The list after room was made for an entry: the oldest is dropped from a full cache. *)
Definition make_room (capacity : Z) (l : list Z) : list Z := if zlen l =? capacity then removelast l else l.

(** [slot] is allocated and not in use. *)
Record vacant (p : Pages F) (l : list Z) (slot : Z) : Prop := {
  vacant_lru : lru p l;
  vacant_slots : slots_at p (slot :: slots p l ++ pg_free p);
  vacant_count : zlen l + zlen (pg_free p) + 1 = pg_allocated p;
  vacant_capacity : pg_allocated p <= pg_capacity p;
  vacant_stride : 0 < pg_stride p;
}.

Lemma slots_cons_Some (p : Pages F) l1 n l2 e :
  pg_entries p !! n = Some e -> slots p (l1 ++ n :: l2) ≡ₚ en_slot e :: slots p (l1 ++ l2).
Proof.
  intros He. unfold slots. rewrite <- (Permutation_middle l1 l2 n). cbn [omap list_omap].
  unfold slot_map. by rewrite lookup_fmap, He.
Qed.

Lemma set_list_slots_at (p : Pages F) m a b taken : slots_at (set_list p m a b) taken <-> slots_at p taken.
Proof. done. Qed.

Lemma removed_vacant (p p' : Pages F) l1 id l2 e :
  pages_inv p (l1 ++ id :: l2) -> pg_entries p !! id = Some e -> lru p' (l1 ++ l2) ->
  slot_map p' = delete id (slot_map p) -> p' = set_list p (pg_entries p') (pg_newest p') (pg_oldest p') ->
  vacant p' (l1 ++ l2) (en_slot e).
Proof.
  intros [Hl Hs Hc Hcap Hpos] He Hl' Hm Hp.
  assert (id ∉ l1 ++ l2) as Hno.
  { pose proof (lru_nodup _ _ Hl) as Hnd. rewrite <- (Permutation_middle l1 l2 id) in Hnd. by apply NoDup_cons in Hnd as [? _]. }
  assert (slots p' (l1 ++ l2) = slots p (l1 ++ l2)) as Hsl.
  { apply slots_ext. intros n Hn. rewrite Hm, lookup_delete_ne; [done|]. by intros ->. }
  assert (pg_free p' = pg_free p /\ pg_allocated p' = pg_allocated p /\ pg_capacity p' = pg_capacity p
          /\ pg_stride p' = pg_stride p) as (Hf & Ha & Hcp & Hst) by (by rewrite Hp).
  split; [done| | |by rewrite Ha, Hcp|by rewrite Hst].
  - unfold slots_at in *. rewrite Hsl, Hf, Ha, Hst. rewrite (slots_cons_Some p l1 id l2 e He) in Hs. by rewrite app_comm_cons.
  - rewrite Hf, Ha, <- Hc. unfold zlen. rewrite !length_app. cbn. lia.
Qed.

Lemma take_slot_lemma (p : Pages F) l stats slot p' stats' :
  pages_inv p l -> 0 < pg_capacity p -> take_slot p stats = (Ok slot, p', stats') ->
  vacant p' (make_room (pg_capacity p) l) slot /\ pg_capacity p' = pg_capacity p /\ pg_page_size p' = pg_page_size p /\
  pg_manifest p' = pg_manifest p /\ pg_stride p' = pg_stride p /\
  (en_version <$> pg_entries p') ⊆ (en_version <$> pg_entries p).
Proof.
  intros Hi Hcap E. pose proof Hi as [Hl Hs Hc Hca Hpos]. unfold take_slot in E. rewrite (lru_size p l Hl) in E.
  unfold make_room. destruct (Z.eqb_spec (zlen l) (pg_capacity p)) as [Efull|Hroom].
  - rewrite (linked_oldest p l (lru_linked _ _ Hl)) in E.
    destruct l as [|o l _] using rev_ind; [rewrite zlen_nil in Efull; lia|]. rewrite final_snoc in E.
    destruct (Pages_remove_lemma p l o [] stats Hl) as (e & e' & q & He & Hsl & Hr & Hl' & Hv & Hm & Hq).
    rewrite Hr in E. injection E as <- <- <-. rewrite app_nil_r in Hl'. rewrite removelast_last, Hsl. split.
    { rewrite <- (app_nil_r l). apply (removed_vacant p q l o []); try done. by rewrite app_nil_r. }
    rewrite Hv. split_and!; try (rewrite Hq; done). apply delete_subseteq.
  - destruct (last (pg_free p)) as [s|] eqn:Elast.
    + injection E as <- <- <-. split; [|done]. apply last_Some in Elast as [free Ef].
      rewrite Ef in *. rewrite removelast_last. split; cbn [pg_free pg_allocated pg_capacity set_slots]; try done.
      * destruct Hl as [H1 H2 [H3 H4 H5]]. by split.
      * unfold slots_at in *. cbn [pg_allocated pg_stride set_slots]. rewrite (assoc_L (++)), Permutation_app_comm in Hs. exact Hs.
      * rewrite <- Hc. unfold zlen. rewrite !length_app. cbn. lia.
    + apply last_None in Elast. destruct (checked_mul _ _) as [offset|] eqn:Eo; [|done].
      destruct (checked_add _ _) as [stop|]; [|done]. destruct (cf_set_len _ _) as [[u|] file]; [|done].
      injection E as <- <- <-. split; [|done]. apply checked_mul_Some in Eo as [-> _].
      rewrite Elast in *. rewrite zlen_nil in Hc. pose proof (zlen_nonneg l).
      split; cbn [pg_free pg_allocated pg_capacity set_slots]; rewrite ?Elast; try done.
      * destruct Hl as [H1 H2 [H3 H4 H5]]. by split.
      * destruct Hs as [Hnd Hall]. unfold slots_at. cbn [pg_allocated pg_stride set_slots]. rewrite app_nil_r in *.
        change (slots (set_slots p file (pg_allocated p + 1) []) l) with (slots p l). split.
        -- constructor; [|done]. intros Hin. rewrite Forall_forall in Hall. destruct (Hall _ Hin) as (k & Hk & Heq).
           nia.
        -- constructor; [exists (pg_allocated p); lia|]. eapply Forall_impl; [exact Hall|]. cbn. intros x (k & Hk & ->).
           exists k. lia.
      * rewrite zlen_nil. lia.
      * lia.
Qed.

Lemma set_slots_lru (p : Pages F) file a f l : lru p l -> lru (set_slots p file a f) l.
Proof. intros [H1 H2 [H3 H4 H5]]. by split. Qed.

(** A new entry goes to the front, in a slot of its own. *)
Lemma insert_entry (p : Pages F) l version slot used :
  vacant p l slot -> pv_page version ∉ l ->
  pages_inv (promote (set_list p (<[pv_page version := mkEntry version slot used None None]> (pg_entries p))
                       (pg_newest p) (pg_oldest p)) (pv_page version)) (pv_page version :: l).
Proof.
  intros [[Hnd Hdom [Hd Hnew Hold]] Hs Hc Hcap Hpos] Hn. set (n := pv_page version) in *.
  set (q := set_list p (<[n := mkEntry version slot used None None]> (pg_entries p)) (pg_newest p) (pg_oldest p)).
  assert (linked q l) as Hq.
  { split; cbn [q pg_entries pg_newest pg_oldest set_list]; try done. eapply dll_frame; [|exact Hd].
    intros m Hm. rewrite lookup_insert_ne; [done|]. by intros ->. }
  assert (pg_entries q !! n = Some (mkEntry version slot used None None)) as He
    by (cbn [q pg_entries set_list]; by rewrite lookup_insert, decide_True).
  assert (slot_map (promote q n) = slot_map q) as Hsm by (by apply promote_fmap).
  assert (pg_allocated (promote q n) = pg_allocated p /\ pg_stride (promote q n) = pg_stride p /\
          pg_free (promote q n) = pg_free p /\ pg_capacity (promote q n) = pg_capacity p) as (Ha & Hst & Hf & Hcp).
  { unfold promote. by destruct (pg_newest q). }
  split.
  - split; [by constructor| |apply promote_linked; try done; by eexists].
    intros m. rewrite (entries_is_Some en_slot _ (pg_entries q) m) by (by apply promote_fmap).
    cbn [q pg_entries set_list]. rewrite lookup_insert_is_Some, elem_of_cons, Hdom. destruct (decide (m = n)); naive_solver.
  - unfold slots_at. rewrite Ha, Hst, Hf.
    assert (slots (promote q n) (n :: l) = slot :: slots p l) as ->; [|done].
    unfold slots. cbn [omap list_omap]. rewrite Hsm. unfold slot_map at 1. rewrite lookup_fmap, He. cbn. f_equal.
    apply (slots_ext p q). intros m Hm. unfold slot_map. cbn [q pg_entries set_list].
    rewrite fmap_insert, lookup_insert_ne; [done|]. by intros ->.
  - rewrite Hf, Ha, zlen_cons. lia.
  - by rewrite Ha, Hcp.
  - by rewrite Hst.
Qed.

Lemma removelast_elem (n : Z) l : n ∈ removelast l -> n ∈ l.
Proof.
  destruct l as [|x l _] using rev_ind; [done|]. rewrite removelast_last. intros Hn. apply elem_of_app. by left.
Qed.

Lemma make_room_elem c n l : n ∈ make_room c l -> n ∈ l.
Proof. unfold make_room. destruct (_ =? _); [apply removelast_elem|done]. Qed.

(** A successful insertion of a new page. *)
Lemma Pages_insert_lemma (p : Pages F) l version b used stats p' stats' :
  pages_inv p l -> 0 <= pg_capacity p -> Pages_insert p version b used stats = (Ok tt, p', stats') ->
  pages_inv p' (if (pg_capacity p =? 0) || bool_decide (pv_page version ∈ l) then l
                else pv_page version :: make_room (pg_capacity p) l) /\
  pg_capacity p' = pg_capacity p /\ pg_page_size p' = pg_page_size p /\ pg_manifest p' = pg_manifest p /\
  pg_stride p' = pg_stride p /\
  forall n x, (en_version <$> pg_entries p' !! n) = Some x ->
    (en_version <$> pg_entries p !! n) = Some x \/ n = pv_page version /\ x = version.
Proof.
  intros Hi Hcap E. unfold Pages_insert in E. pose proof (lru_dom _ _ (inv_lru _ _ Hi)) as Hdom.
  rewrite (bool_decide_ext _ (pv_page version ∈ l)) in E by (by rewrite Hdom).
  destruct ((pg_capacity p =? 0) || bool_decide (pv_page version ∈ l)) eqn:Eskip; [simplify_eq; eauto 10|].
  apply orb_false_iff in Eskip as [Hz Hno%bool_decide_eq_false].
  destruct (negb _); [done|]. destruct (take_slot p stats) as [[[slot|] q] stats1] eqn:Et; [|done].
  destruct (take_slot_lemma p l stats slot q stats1 Hi ltac:(lia) Et) as (Hv & H1 & H2 & H3 & H4 & Hsub).
  destruct (cf_write _ _ _) as [[u|] file]; [|done]. injection E as <- <-.
  set (r := set_slots q file (pg_allocated q) (pg_free q)).
  assert (vacant r (make_room (pg_capacity p) l) slot) as Hr.
  { destruct Hv as [V1 V2 V3 V4 V5]. split; try done. by apply set_slots_lru. }
  split; [apply (insert_entry r); [exact Hr|by intros Hin%make_room_elem]|].
  set (t := set_list r (<[pv_page version := mkEntry version slot used None None]> (pg_entries r)) (pg_newest r) (pg_oldest r)).
  match goal with |- context [promote ?x _] => change x with t end.
  assert (forall X (g : Pages F -> X), (forall e x y, g (set_list t e x y) = g t) -> g (promote t (pv_page version)) = g t) as Hg.
  { intros X g Hg. unfold promote. by destruct (pg_newest t). }
  rewrite !Hg by done. cbn [t r set_list set_slots pg_capacity pg_page_size pg_manifest pg_stride].
  split_and!; try done. intros n x Hx. rewrite <- lookup_fmap, promote_fmap in Hx by done.
  cbn [t r set_list set_slots pg_entries] in Hx. rewrite fmap_insert in Hx.
  apply lookup_insert_Some in Hx as [[<- <-]|[_ Hx]]; [by right|]. left. rewrite <- lookup_fmap.
  by eapply lookup_weaken.
Qed.

Lemma Pages_invalidate_lemma (p : Pages F) l n stats p' stats' :
  pages_inv p l -> Pages_invalidate p n stats = (p', stats') ->
  pages_inv p' (filter (fun m => m <> n) l) /\ pg_capacity p' = pg_capacity p /\ pg_page_size p' = pg_page_size p /\
  pg_manifest p' = pg_manifest p /\ en_version <$> pg_entries p' = delete n (en_version <$> pg_entries p).
Proof.
  intros Hi E. pose proof (inv_lru _ _ Hi) as Hl. unfold Pages_invalidate in E.
  assert (forall k : list Z, n ∉ k -> filter (fun m => m <> n) k = k) as Hf.
  { intros k Hk. pose proof (touch_split n [] k ltac:(set_solver) Hk) as Ht. cbn in Ht. unfold touch in Ht.
    rewrite filter_cons_False in Ht by (by intros []). by injection Ht. }
  destruct (decide (n ∈ l)) as [Hin|Hout].
  - destruct (elem_split n l Hin (lru_nodup _ _ Hl)) as (l1 & l2 & -> & H1 & H2).
    destruct (Pages_remove_lemma p l1 n l2 stats Hl) as (e & e' & q & He & Hsl & Hr & Hl' & Hv & Hm & Hq).
    rewrite Hr in E. cbn zeta in E. injection E as <- <-.
    rewrite filter_app, filter_cons_False by (by intros []). rewrite !Hf by done.
    destruct (removed_vacant p q l1 n l2 e Hi He Hl' Hm Hq) as [V1 V2 V3 V4 V5]. rewrite Hsl.
    cbn [pg_capacity pg_page_size pg_manifest pg_entries set_slots]. split; [|split_and!; try done; by rewrite Hq].
    split; cbn [pg_free pg_allocated pg_capacity pg_stride set_slots]; try done.
    + by apply set_slots_lru.
    + unfold slots_at in *. cbn [pg_allocated pg_stride set_slots].
      by rewrite (assoc_L (++)), (Permutation_app_comm _ [en_slot e]).
    + rewrite <- V3. unfold zlen. rewrite !length_app. cbn. lia.
  - assert (pg_entries p !! n = None) as Hn.
    { destruct (pg_entries p !! n) eqn:Ee; [|done]. exfalso. apply Hout, (lru_dom _ _ Hl). by eexists. }
    unfold Pages_remove in E. rewrite Hn in E. injection E as <- <-. rewrite Hf by done. split_and!; try done.
    rewrite delete_id; [done|]. by rewrite lookup_fmap, Hn.
Qed.
End Lists.

(** ** The cache in front of a sealed view *)

Section Transparency.
Context {F : Type} `{CF : CacheFile F} `{CFL : !CacheFileLaws F}.
Context {HH : Hashes} {HOK : HashesOk HH} {Z0 : ZstdLib} {ZOK : ZstdOk Z0}.
Context {B : Type} {SB : StorageBackend B} {BL : BackendLaws B}.

(** The view each manifest identity names. *)
Context (sealed : Digest -> ViewMetadata).

(** Every entry is the version of its page in the view. *)
Definition holds_view (view : ViewMetadata) (p : Pages F) : Prop :=
  pg_page_size p = lb_page_size (vm_size view) /\
  forall n x, (en_version <$> pg_entries p !! n) = Some x -> pv_page x = n /\ version_at view n = Some x.

Definition budget_bytes (view : ViewMetadata) (budget : CacheCapacity) : Z :=
  match budget with FixedCache b => b | Automatic => lb_bytes (vm_size view) / 5 end.

Record ready_ok (budget : CacheCapacity) (p : Pages F) : Prop := {
  ready_holds : holds_view (sealed (pg_manifest p)) p;
  ready_linked : exists l, pages_inv p l;
  ready_capacity : 0 <= pg_capacity p;
  ready_budget : pg_capacity p * pg_stride p <= budget_bytes (sealed (pg_manifest p)) budget;
}.

Definition budget_ok (budget : CacheCapacity) : Prop :=
  match budget with FixedCache b => 0 <= b | Automatic => True end.

Definition cache_ok (c : PageCache F) : Prop :=
  budget_ok (pc_budget c) /\ forall p, pc_backing c = Ready p -> ready_ok (pc_budget c) p.

Lemma cache_ok_not_ready c b stats : cache_ok c -> (forall p, b <> Ready p) -> cache_ok (mkCache b (pc_budget c) stats).
Proof. intros [Hb _] Hn. split; [done|]. cbn. intros p E. by destruct (Hn p). Qed.

Lemma discard_ok c b : cache_ok c -> (forall p, b <> Ready p) -> cache_ok (discard c b).
Proof. apply cache_ok_not_ready. Qed.

Lemma cache_ok_stats c stats : cache_ok c -> cache_ok (mkCache (pc_backing c) (pc_budget c) stats).
Proof. done. Qed.

(** *** Reads of the cache *)

Lemma Pages_read_frame (p : Pages F) n r p' :
  Pages_read p n = (r, p') -> en_version <$> pg_entries p' = en_version <$> pg_entries p /\
  pg_page_size p' = pg_page_size p /\ pg_manifest p' = pg_manifest p /\ pg_capacity p' = pg_capacity p /\
  pg_stride p' = pg_stride p.
Proof.
  intros E. unfold Pages_read in E. destruct (pg_entries p !! n) as [e|] eqn:He; [|by simplify_eq].
  destruct (cf_read _ _ _); [|by simplify_eq]. destruct (negb _); [by simplify_eq|].
  injection E as _ <-. cbn [pg_entries pg_page_size pg_manifest pg_capacity pg_stride set_list].
  rewrite alter_fmap, promote_fmap, unlink_fmap by done. split; [done|].
  unfold promote, unlink. rewrite He. by destruct (en_previous e), (en_next e), (pg_newest _).
Qed.

Lemma holds_view_ext view (p p' : Pages F) :
  en_version <$> pg_entries p' = en_version <$> pg_entries p -> pg_page_size p' = pg_page_size p ->
  holds_view view p -> holds_view view p'.
Proof.
  intros Hv Hs [H1 H2]. split; [congruence|]. intros n x Hx. apply H2. rewrite <- lookup_fmap, <- Hv. by rewrite lookup_fmap.
Qed.

(** A hit is authentic, whatever the file holds. *)
Lemma Pages_read_ok budget (p : Pages F) n r p' :
  ready_ok budget p -> Pages_read p n = (r, p') ->
  match r with
  | Ok (Some (b, _)) => ready_ok budget p' /\ authentic (sealed (pg_manifest p)) n b /\ pg_manifest p' = pg_manifest p
  | Ok None => p' = p
  | Err _ => p' = p
  end.
Proof.
  intros [Hh [l Hl] Hc Hb] E. pose proof (Pages_read_frame p n r p' E) as (Hv & Hs & Hm & Hcp & Hst).
  destruct r as [[[b f]|]|e].
  - destruct (Pages_read_lemma p l n b f p' Hl E) as [_ Hl']. split_and!; [|..|done].
    + split; [rewrite Hm; by apply (holds_view_ext _ p)|by eexists|by rewrite Hcp|by rewrite Hm, Hcp, Hst].
    + unfold Pages_read in E. destruct (pg_entries p !! n) as [e|] eqn:He; [|done].
      destruct (cf_read _ _ _) as [b'|] eqn:Er; [|done]. destruct (bytes_eqb _ _) eqn:Ec; [|done].
      cbn [negb] in E. injection E as -> _ _. apply cf_read_length in Er. apply bytes_eqb_true in Ec.
      destruct Hh as [Hps Hent]. destruct (Hent n (en_version e)) as [Hpg Hva]; [by rewrite He|].
      unfold authentic. rewrite Hva. split; [congruence|done].
  - unfold Pages_read in E. destruct (pg_entries p !! n); [|by simplify_eq]. repeat case_match; by simplify_eq.
  - unfold Pages_read in E. destruct (pg_entries p !! n); [|by simplify_eq]. repeat case_match; by simplify_eq.
Qed.

Context (v : PinnedView B) (Hid : sealed (pn_id v) = pn_view v) (Hwf : view_wf (pn_view v)).

(** Ready entries, if any, are of the view being read. *)
Definition fresh_for (c : PageCache F) : Prop := stale c (pn_id v) = false.

Lemma stale_discard_ok c :
  cache_ok c -> cache_ok (if stale c (pn_id v) then discard c Cache.Empty else c) /\
  fresh_for (if stale c (pn_id v) then discard c Cache.Empty else c).
Proof.
  intros Hc. destruct (stale c (pn_id v)) eqn:E; [|done]. split; [by apply discard_ok|done].
Qed.

Lemma fresh_manifest c p : fresh_for c -> pc_backing c = Ready p -> pg_manifest p = pn_id v.
Proof. unfold fresh_for, stale. intros Hf E. rewrite E in Hf. by apply negb_false_iff, bytes_eqb_true in Hf. Qed.

Lemma ready_cache_ok c p stats :
  cache_ok c -> ready_ok (pc_budget c) p -> cache_ok (mkCache (Ready p) (pc_budget c) stats).
Proof. intros [Hb _] Hp. split; [done|]. cbn. by intros q [= <-]. Qed.

Lemma lookup_cached_lemma n (s s' : PageCache F * HandleIoStats) r :
  cache_ok (fst s) -> lookup_cached v n s = (r, s') ->
  cache_ok (fst s') /\ fresh_for (fst s') /\ forall b, r = Some b -> authentic (pn_view v) n b.
Proof.
  intros Hc E. destruct s as [c io]. unfold lookup_cached in E. cbn [fst] in Hc.
  destruct (stale_discard_ok c Hc) as [Hc' Hf]. set (d := if stale c (pn_id v) then discard c Cache.Empty else c) in *.
  destruct (pc_backing d) as [|p|] eqn:Eb; [simplify_eq; by split_and!| |simplify_eq; by split_and!].
  pose proof (proj2 Hc' p Eb) as Hp. pose proof (fresh_manifest d p Hf Eb) as Hm.
  destruct (Pages_read p n) as [[[[b f]|]|e] p'] eqn:Er; pose proof (Pages_read_ok _ _ _ _ _ Hp Er) as Ho; cbn in Ho.
  - destruct Ho as (Hp' & Ha & Hm'). injection E as <- <-. cbn [fst on_hit]. split_and!.
    + by apply (ready_cache_ok d p').
    + unfold fresh_for, stale. cbn. by rewrite Hm', Hm, bytes_eqb_refl.
    + intros b' [= <-]. by rewrite <- Hid, <- Hm.
  - subst p'. injection E as <- <-. split_and!; [by apply (ready_cache_ok d p)| |done].
    unfold fresh_for, stale. cbn. by rewrite Hm, bytes_eqb_refl.
  - subst p'. injection E as <- <-. cbn [fst]. split_and!; [apply discard_ok; [by apply (ready_cache_ok d p)|done]|done|done].
Qed.

(** *** Admission *)

Lemma PageCache_insert_ok c version b used :
  cache_ok c -> fresh_for c -> version_at (pn_view v) (pv_page version) = Some version ->
  cache_ok (PageCache_insert c version b used) /\ fresh_for (PageCache_insert c version b used).
Proof.
  intros Hc Hf Hv. unfold PageCache_insert. destruct (pc_backing c) as [|p|] eqn:Eb; [done| |done].
  destruct (Pages_insert p version b used (pc_stats c)) as [[[[]|e] p'] stats] eqn:Ei;
    [|split; [|done]; apply (cache_ok_not_ready c); [done|by intros q]].
  destruct (proj2 Hc p Eb) as [[Hps Hent] [l Hl] Hcap Hbud]. pose proof (fresh_manifest c p Hf Eb) as Hm.
  destruct (Pages_insert_lemma p l version b used (pc_stats c) p' stats Hl Hcap Ei) as (Hl' & H1 & H2 & H3 & H4 & Hn).
  split; [|unfold fresh_for, stale; cbn; by rewrite H3, Hm, bytes_eqb_refl].
  apply ready_cache_ok; [done|]. split; [|by eexists|by rewrite H1|by rewrite H1, H3, H4].
  split; [by rewrite H2, H3|]. intros n x Hx. rewrite H3.
  destruct (Hn n x Hx) as [Hold|[-> ->]]; [by apply Hent|]. split; [done|]. by rewrite Hm, Hid.
Qed.

Lemma admit_extra_ok l : forall c extra,
  cache_ok c -> fresh_for c -> Forall (fun p => version_at (pn_view v) (pv_page (fst p)) = Some (fst p)) l ->
  cache_ok (admit_extra c extra l) /\ fresh_for (admit_extra c extra l).
Proof.
  induction l as [|[x b] l IH]; intros c extra Hc Hf Hl; cbn [admit_extra]; [done|]. inversion Hl; subst.
  destruct (extra =? 0); [by apply IH|].
  destruct (PageCache_insert_ok c x b false) as [Hc' Hf']; [done..|]. by apply IH.
Qed.

(** The live slots of a frame are the versions of the view. *)
Lemma cache_pages_live n l slot frame pages :
  resolve v n = Ok (StoredPageRef l slot) -> cache_pages v l frame = Ok pages ->
  Forall (fun p => version_at (pn_view v) (pv_page (fst p)) = Some (fst p)) pages.
Proof.
  intros Hr E. destruct (resolve_stored v n l slot Hwf Hr) as (_ & _ & _ & _ & _ & Hm & _ & _ & Hl).
  unfold cache_pages in E. inv_ok. guards. subst pages. apply Forall_forall. intros [x b] Hin.
  apply list_elem_of_In, filter_In in Hin as [Hin Hlive]. cbn [fst] in *.
  apply list_elem_of_In, elem_of_zip_l in Hin. unfold is_live in Hlive.
  destruct (vm_pages (pn_view v) !! pv_page x) as [st|] eqn:Ep; [|done]. apply bytes_eqb_true in Hlive.
  destruct (shape_pages _ (proj2 Hwf) _ _ Ep) as (l' & y & Hl' & Hy & Hpg & _). cbn in *.
  rewrite Hlive, Hguard in Hl'. rewrite Hl in Hl'. injection Hl' as <-.
  unfold version_at. rewrite Ep. cbn. unfold page_version. rewrite Hlive, Hguard, Hl, Hy. f_equal.
  destruct Hm as (_ & _ & _ & _ & _ & _ & _ & _ & Hnd).
  apply list_elem_of_lookup in Hin as [i Hi].
  assert (i = Z.to_nat (sp_slot st)) as ->; [|congruence].
  apply (NoDup_lookup (map pv_page (fm_pages (fl_metadata l))) _ _ (pv_page x)); [done|..].
  - by rewrite list_lookup_fmap, Hi.
  - rewrite list_lookup_fmap, Hy. cbn. by rewrite Hpg.
Qed.

Lemma admit_ok n l slot frame shadowed c c' :
  cache_ok c -> fresh_for c -> resolve v n = Ok (StoredPageRef l slot) ->
  admit_frame v l frame n shadowed c = Ok c' -> cache_ok c' /\ fresh_for c'.
Proof.
  intros Hc Hf Hr E. unfold admit_frame in E. inv_ok. pose proof (cache_pages_live n l slot frame a Hr Hok) as Hlive.
  match type of E with context [admit_extra ?c ?e ?f] => destruct (admit_extra_ok f c e Hc Hf) as [Hc1 Hf1] end.
  { apply Forall_forall. intros p Hp. rewrite Forall_forall in Hlive. apply Hlive.
    by apply list_elem_of_In, filter_In in Hp as [Hp%list_elem_of_In _]. }
  subst c'. destruct (find _ a) as [[x b]|] eqn:Ef; [|done]. apply PageCache_insert_ok; [done..|].
  apply find_some in Ef as [Hin _]. rewrite Forall_forall in Hlive. by apply (Hlive (x, b)), list_elem_of_In.
Qed.

Lemma ensure_backing_ok file c : cache_ok c -> fresh_for c -> cache_ok (ensure_backing file v c) /\ fresh_for (ensure_backing file v c).
Proof.
  intros Hc Hf. unfold ensure_backing. destruct (pc_backing c) eqn:Eb; [|done..].
  destruct (bool_decide _); [done|].
  destruct (Pages_new file v (pc_budget c)) as [p|] eqn:En; [|split; [by apply (cache_ok_not_ready c)|done]].
  unfold Pages_new in En. inv_all. subst p. apply checked_mul_Some in Hok0 as [-> Hmax].
  pose proof (fields_size _ (proj1 Hwf)) as (Hps%page_size_ok_bounds & Hbytes & _).
  pose proof (cf_block_nonzero a) as Hblk. set (blk := cf_block_bytes a) in *. set (ps := lb_page_size (vm_size (pn_view v))) in *.
  assert (1 <= (ps + blk - 1) / blk) as Hq by (apply Z.div_le_lower_bound; lia).
  set (stride := (ps + blk - 1) / blk * blk) in *. assert (0 < stride) as Hst by (subst stride; nia).
  set (budget := CacheCapacity_resolve (pc_budget c) (lb_bytes (vm_size (pn_view v))) (cf_available_bytes a)).
  assert (0 <= budget <= budget_bytes (pn_view v) (pc_budget c)) as Hbud.
  { subst budget. destruct Hc as [Hb _]. unfold budget_ok in Hb. destruct (pc_budget c) as [|b]; cbn; [|lia].
    pose proof (Z.div_pos (lb_bytes (vm_size (pn_view v))) 5 ltac:(lia) ltac:(lia)).
    destruct (cf_available_bytes a) as [m|] eqn:Em; [|lia]. apply cf_available_unsigned in Em.
    pose proof (Z.div_pos m 2 ltac:(lia) ltac:(lia)). lia. }
  split; [|unfold fresh_for, stale; cbn; by rewrite bytes_eqb_refl].
  apply ready_cache_ok; [done|]. unfold I64_MAX.
  pose proof (Z.mul_div_le (Z.min budget (2 ^ 63 - 1)) stride Hst).
  pose proof (Z.div_pos (Z.min budget (2 ^ 63 - 1)) stride ltac:(lia) Hst).
  split; cbn [pg_manifest pg_capacity pg_stride]; [| |done|rewrite Hid; lia].
  - rewrite Hid. split; [done|]. cbn. intros n x Hx. by rewrite lookup_empty in Hx.
  - exists []. split; cbn; try done.
    + split; [constructor| |by split]. intros n. cbn. rewrite lookup_empty, elem_of_nil. split; [done|by intros []].
    + split; [constructor|done].
Qed.

(** *** Misses *)

Lemma frame_of_verified l records frame fetched records' :
  frame_of v l records = Ok (frame, fetched, records') ->
  exists record e, decode_record v l record = Ok (e, frame).
Proof.
  intros E. unfold frame_of in E. destruct (records !! frame_id l) as [[b counted]|].
  - inv_ok. destruct a as [e fr]. cbn in *. simplify_eq. by exists b, e.
  - unfold fetch, fetch_record in E. inv_all. simplify_eq. destruct a0 as [e fr]. by exists a1, e.
Qed.

(** A verified frame of the page can be extracted and its pages listed. *)
Lemma verified_extract n l slot record e frame :
  resolve v n = Ok (StoredPageRef l slot) -> decode_record v l record = Ok (e, frame) ->
  (exists b, extract l slot frame = Ok b) /\ exists pages, cache_pages v l frame = Ok pages.
Proof.
  intros Hr Hd. destruct (resolve_stored v n l slot Hwf Hr) as (x & _ & _ & Hp & Hs & Hm & _).
  apply decode_record_lemma in Hd as (payload & Hver & _ & _). split.
  - eexists. by eapply extract_lemma.
  - destruct (verify_payload_lemma _ _ _ _ Hm Hver) as (_ & Hfid & _). unfold cache_pages, frame_id.
    rewrite Hfid, bytes_eqb_refl. by eexists.
Qed.

Lemma on_miss_ok (s : PageCache F * HandleIoStats) :
  cache_ok (fst s) -> fresh_for (fst s) -> cache_ok (fst (on_miss s)) /\ fresh_for (fst (on_miss s)).
Proof. by destruct s. Qed.

Lemma on_fetch_fst (s : PageCache F * HandleIoStats) a b : fst (on_fetch a b s) = fst s.
Proof. by destruct s. Qed.

Lemma read_missed_lemma file n shadowed records s r s' :
  cache_ok (fst s) -> fresh_for (fst s) -> read_missed file v n shadowed records s = (r, s') ->
  cache_ok (fst s') /\ fresh_for (fst s') /\
  (forall b records', r = Ok (b, records') -> authentic (pn_view v) n b) /\
  (records = ∅ -> rmap fst r = view_read v n).
Proof.
  intros Hc Hf E. unfold read_missed, sbind, slift, smod, sget, sret in E. cbn [view_read PinnedView_sealed].
  destruct (resolve v n) as [page|] eqn:Er; [|injection E as <- <-; by split_and!].
  destruct page as [|l slot].
  - cbn in E. injection E as <- <-. split_and!; try done. intros b ? [= <- <-].
    apply resolve_zero; [|done]. apply Hwf.
  - cbn [rbind ResolvedPage_read].
    destruct (on_miss_ok s Hc Hf) as [Hc1 Hf1].
    destruct (frame_of v l records) as [[[frame fetched] records']|err] eqn:Ef.
    2: { injection E as <- <-. split_and!; try done. intros ->. unfold frame_of in Ef. rewrite lookup_empty in Ef.
         destruct (fetch v l) as [fr|e']; cbn in Ef; [done|]. by injection Ef as ->. }
    destruct (frame_of_verified _ _ _ _ _ Ef) as (record & e & Hd).
    destruct (verified_extract n l slot record e frame Er Hd) as [[b Hb] [pages Hp]].
    rewrite Hb in E. set (s2 := on_fetch fetched (zlen (vf_bytes frame)) (on_miss s)) in *.
    destruct (ensure_backing_ok file (fst s2)) as [Hc2 Hf2]; [by subst s2; rewrite on_fetch_fst..|].
    destruct (admit_frame v l frame n shadowed (fst (set_cache_of (ensure_backing file v) s2))) as [c'|] eqn:Ea.
    2: { unfold admit_frame in Ea. by rewrite Hp in Ea. }
    destruct (admit_ok n l slot frame shadowed _ c' Hc2 Hf2 Er Ea) as [Hc3 Hf3].
    injection E as <- <-. cbn [fst set_cache_of]. split_and!; try done.
    + intros b' ? [= <- _]. by eapply decoded_authentic.
    + intros ->. unfold frame_of in Ef. rewrite lookup_empty in Ef. destruct (fetch v l); [|done]. cbn in Ef. simplify_eq.
      cbn. by rewrite Hb.
Qed.

Lemma read_prefetched_lemma file n shadowed records s r s' :
  cache_ok (fst s) -> read_prefetched file v n shadowed records s = (r, s') ->
  cache_ok (fst s') /\ fresh_for (fst s') /\
  (forall b records', r = Ok (b, records') -> authentic (pn_view v) n b) /\
  (records = ∅ -> rmap fst r = view_read v n \/ exists b, rmap fst r = Ok b).
Proof.
  intros Hc E. unfold read_prefetched in E. destruct (lookup_cached v n s) as [[b|] s1] eqn:El;
    destruct (lookup_cached_lemma n s s1 _ Hc El) as (Hc1 & Hf1 & Ha).
  - injection E as <- <-. split_and!; try done; [|intros _; right; by eexists]. intros b' ? [= <- _]. by apply Ha.
  - destruct (read_missed_lemma _ _ _ _ _ _ _ Hc1 Hf1 E) as (Hc2 & Hf2 & Hb & Hr). split_and!; try done.
    intros He. left. by apply Hr.
Qed.

Lemma read_batch_lemma file shadowed numbers : forall records s r s',
  cache_ok (fst s) -> read_batch file v shadowed numbers records s = (r, s') ->
  cache_ok (fst s') /\ forall out, r = Ok out -> Forall2 (authentic (pn_view v)) numbers out.
Proof.
  induction numbers as [|n numbers IH]; intros records s r s' Hc E; cbn [read_batch] in E; unfold sbind, sret in E.
  - injection E as <- <-. split; [done|]. intros out [= <-]. constructor.
  - destruct (read_prefetched file v n shadowed records s) as [r1 s1] eqn:E1.
    destruct (read_prefetched_lemma _ _ _ _ _ _ _ Hc E1) as (Hc1 & _ & Ha & _).
    destruct r1 as [[b recs]|]; [|injection E as <- <-; by split].
    destruct (read_batch file v shadowed numbers _ s1) as [r2 s2] eqn:E2.
    destruct (IH _ _ _ _ Hc1 E2) as [Hc2 Hout]. destruct r2 as [out|]; injection E as <- <-; split; try done.
    intros out' [= <-]. constructor; [by eapply Ha|by apply Hout].
Qed.

Lemma gather_count (c : PageCache F) numbers : forall taken total frames count misses,
  gather v c numbers taken total frames = Ok (count, misses) ->
  (count <= length numbers)%nat /\ (taken = 0 -> numbers <> [] -> (1 <= count)%nat).
Proof.
  induction numbers as [|n numbers IH]; intros taken total frames count misses E; cbn [gather] in E.
  - simplify_eq. by split.
  - destruct (Z.leb_spec 256 taken) as [?|Hlt]; [simplify_eq; cbn; split; lia|].
    assert (forall total frames p, gather v c numbers (taken + 1) total frames = Ok p -> (fst p <= length numbers)%nat) as Hrec.
    { intros t f [k m] Hk. by apply IH in Hk as [? _]. }
    destruct (is_cached c n); inv_ok.
    { simplify_eq. apply Hrec in Hok. cbn. split; lia. }
    destruct a as [|l slot]; inv_ok.
    { simplify_eq. apply Hrec in Hok0. cbn. split; lia. }
    destruct (bool_decide _); inv_ok.
    { simplify_eq. apply Hrec in Hok0. cbn. split; lia. }
    destruct ((0 <? taken) && _) eqn:Eb; inv_ok.
    { simplify_eq. apply andb_true_iff in Eb as [Eb _]. cbn. split; lia. }
    simplify_eq. apply Hrec in Hok0. cbn. split; lia.
Qed.

Lemma read_batches_lemma file shadowed fuel : forall numbers s,
  (length numbers <= fuel)%nat -> cache_ok (fst s) ->
  exists r s', read_batches fuel file v shadowed numbers s = Some (r, s') /\ cache_ok (fst s') /\
    forall out, r = Ok out -> Forall2 (authentic (pn_view v)) numbers out.
Proof.
  induction fuel as [|fuel IH]; intros numbers s Hl Hc; (destruct numbers as [|n numbers];
    [exists (Ok []), s; split; [done|]; split; [done|]; intros out [= <-]; constructor|]); [cbn in Hl; lia|].
  cbn [read_batches]. destruct (gather v (fst s) (n :: numbers) 0 0 ∅) as [[count misses]|e] eqn:Eg; [|by exists (Err e), s].
  destruct (gather_count _ _ _ _ _ _ _ Eg) as [Hle Hpos]. specialize (Hpos eq_refl ltac:(done)).
  destruct (read_frame_records v misses) as [records|e]; [|by exists (Err e), s].
  destruct (read_batch file v shadowed (take count (n :: numbers)) _ s) as [r1 s1] eqn:Eb.
  destruct (read_batch_lemma _ _ _ _ _ _ _ Hc Eb) as [Hc1 Hout]. destruct r1 as [out|e]; [|by exists (Err e), s1].
  destruct (IH (drop count (n :: numbers)) s1) as (r2 & s2 & -> & Hc2 & Hrest); [rewrite length_drop; lia|done|].
  destruct r2 as [rest|e]; [|by exists (Err e), s2]. exists (Ok (out ++ rest)), s2. split; [done|]. split; [done|].
  intros o [= <-]. rewrite <- (take_drop count (n :: numbers)) at 1. apply Forall2_app; [by apply Hout|by apply Hrest].
Qed.


(** *** Shadowed pages *)

(** No page shadowed by the active file is cached. *)
Definition unshadowed (shadowed : Z -> bool) (c : PageCache F) : Prop :=
  forall m, is_cached c m = true -> shadowed m = false.

Lemma unshadowed_not_ready shadowed (c : PageCache F) : (forall p, pc_backing c <> Ready p) -> unshadowed shadowed c.
Proof. intros Hn m Hm. unfold is_cached in Hm. destruct (pc_backing c) as [|p|] eqn:E; [done|by destruct (Hn p)|done]. Qed.

Lemma unshadowed_entries shadowed (p p' : Pages F) budget stats budget' stats' :
  (forall m, is_Some (pg_entries p' !! m) -> is_Some (pg_entries p !! m) \/ shadowed m = false) ->
  unshadowed shadowed (mkCache (Ready p) budget stats) -> unshadowed shadowed (mkCache (Ready p') budget' stats').
Proof.
  intros Hm Hu m Hc%bool_decide_eq_true. destruct (Hm m Hc) as [Ho|]; [|done]. apply Hu. by apply bool_decide_eq_true.
Qed.

Lemma PageCache_insert_unshadowed shadowed c x b used :
  cache_ok c -> fresh_for c -> shadowed (pv_page x) = false ->
  unshadowed shadowed c -> unshadowed shadowed (PageCache_insert c x b used).
Proof.
  intros Hc Hf Hx Hu. unfold PageCache_insert. destruct c as [[|p|] budget stats]; try done. cbn [pc_backing pc_budget pc_stats].
  destruct (Pages_insert p x b used stats) as [[[[]|e] p'] stats'] eqn:Ei; [|by apply unshadowed_not_ready].
  destruct (proj2 Hc p eq_refl) as [_ [l Hl] Hcap _].
  destruct (Pages_insert_lemma p l x b used stats p' stats' Hl Hcap Ei) as (_ & _ & _ & _ & _ & Hn).
  eapply unshadowed_entries; [|exact Hu]. intros m [e He].
  destruct (Hn m (en_version e)) as [Ho|[-> _]]; [by rewrite He| |by right].
  left. by destruct (pg_entries p !! m).
Qed.

Lemma admit_extra_unshadowed shadowed l : forall c extra,
  cache_ok c -> fresh_for c -> Forall (fun p => version_at (pn_view v) (pv_page (fst p)) = Some (fst p) /\
    shadowed (pv_page (fst p)) = false) l ->
  unshadowed shadowed c -> unshadowed shadowed (admit_extra c extra l).
Proof.
  induction l as [|[x b] l IH]; intros c extra Hc Hf Hl Hu; cbn [admit_extra]; [done|]. inversion Hl as [|? ? [Hx1 Hx2] Hl']; subst.
  destruct (extra =? 0); [by apply IH|].
  destruct (PageCache_insert_ok c x b false) as [Hc' Hf']; [done..|]. apply IH; [done..|].
  by apply PageCache_insert_unshadowed.
Qed.

Lemma admit_unshadowed n l slot frame shadowed c c' :
  cache_ok c -> fresh_for c -> resolve v n = Ok (StoredPageRef l slot) -> shadowed n = false ->
  admit_frame v l frame n shadowed c = Ok c' -> unshadowed shadowed c -> unshadowed shadowed c'.
Proof.
  intros Hc Hf Hr Hn E Hu. unfold admit_frame in E. inv_ok. pose proof (cache_pages_live n l slot frame a Hr Hok) as Hlive.
  rewrite Forall_forall in Hlive.
  match type of E with context [admit_extra ?c ?e ?f] =>
    assert (Forall (fun p => version_at (pn_view v) (pv_page (fst p)) = Some (fst p) /\ shadowed (pv_page (fst p)) = false) f) as Hall;
    [|pose proof (admit_extra_unshadowed shadowed f c e Hc Hf Hall Hu) as Hu1;
      destruct (admit_extra_ok f c e Hc Hf) as [Hc1 Hf1]; [eapply Forall_impl; [exact Hall|]; by intros p [? _]|]] end.
  { apply Forall_forall. intros p Hp. apply list_elem_of_In, filter_In in Hp as [Hp%list_elem_of_In Hs].
    apply andb_true_iff in Hs as [_ Hs]. split; [by apply Hlive|by apply negb_true_iff]. }
  subst c'. destruct (find _ a) as [[x b]|] eqn:Ef; [|done]. apply find_some in Ef as [_ Hx]. cbn in Hx.
  apply PageCache_insert_unshadowed; try done. by apply Z.eqb_eq in Hx as ->.
Qed.

Lemma lookup_unshadowed n shadowed (s s' : PageCache F * HandleIoStats) r :
  unshadowed shadowed (fst s) -> lookup_cached v n s = (r, s') -> unshadowed shadowed (fst s').
Proof.
  intros Hu E. destruct s as [c io]. unfold lookup_cached in E. cbn [fst] in Hu.
  set (d := if stale c (pn_id v) then discard c Cache.Empty else c) in *.
  assert (unshadowed shadowed d) as Hd by (subst d; destruct (stale c (pn_id v)); [by apply unshadowed_not_ready|done]).
  destruct (pc_backing d) as [|p|] eqn:Eb; [by simplify_eq| |by simplify_eq].
  destruct (Pages_read p n) as [res p'] eqn:Er. pose proof (Pages_read_frame p n res p' Er) as (Hv & _).
  assert (unshadowed shadowed (mkCache (Ready p') (pc_budget d) (pc_stats d))) as Hp.
  { apply (unshadowed_entries shadowed p p' (pc_budget d) (pc_stats d)).
    - intros m Hm. left. by apply (entries_is_Some en_version _ _ m Hv).
    - destruct d. cbn in Eb. by subst. }
  destruct res as [[[b f]|]|e]; by simplify_eq.
Qed.

Lemma read_unshadowed file n shadowed s r s' :
  cache_ok (fst s) -> shadowed n = false -> unshadowed shadowed (fst s) ->
  PageCache_read file v n shadowed s = (r, s') -> unshadowed shadowed (fst s').
Proof.
  intros Hc Hn Hu E. unfold PageCache_read, sbind, sret in E.
  destruct (read_prefetched file v n shadowed ∅ s) as [r1 s1] eqn:E1.
  assert (s' = s1) as -> by (by destruct r1; simplify_eq). clear E. unfold read_prefetched in E1.
  destruct (lookup_cached v n s) as [[b|] s2] eqn:El;
    destruct (lookup_cached_lemma n s s2 _ Hc El) as (Hc2 & Hf2 & _);
    pose proof (lookup_unshadowed n shadowed s s2 _ Hu El) as Hu2; [by simplify_eq|].
  unfold read_missed, sbind, slift, smod, sget, sret in E1.
  destruct (resolve v n) as [[|l slot]|] eqn:Er; [by simplify_eq/=| |by simplify_eq].
  destruct (on_miss_ok s2 Hc2 Hf2) as [Hc3 Hf3].
  assert (unshadowed shadowed (fst (on_miss s2))) as Hu3 by (by destruct s2).
  destruct (frame_of v l ∅) as [[[frame fetched] records']|err] eqn:Ef; [|by simplify_eq].
  destruct (extract l slot frame) as [b|]; [|simplify_eq; by rewrite on_fetch_fst].
  set (s3 := on_fetch fetched (zlen (vf_bytes frame)) (on_miss s2)) in *.
  destruct (ensure_backing_ok file (fst s3)) as [Hc4 Hf4]; [by subst s3; rewrite on_fetch_fst..|].
  assert (unshadowed shadowed (ensure_backing file v (fst s3))) as Hu4.
  { subst s3. rewrite on_fetch_fst. unfold ensure_backing. destruct (pc_backing (fst (on_miss s2))); try done.
    destruct (bool_decide _); [done|]. destruct (Pages_new file v _) as [p|] eqn:En; [|by apply unshadowed_not_ready].
    unfold Pages_new in En. inv_all. subst p. intros m Hm. cbn in Hm. rewrite lookup_empty in Hm.
    apply bool_decide_eq_true in Hm as []. done. }
  destruct (admit_frame v l frame n shadowed (fst (set_cache_of (ensure_backing file v) s3))) as [c'|] eqn:Ea; [|by simplify_eq].
  simplify_eq. cbn [fst set_cache_of]. by eapply admit_unshadowed.
Qed.

(** *** The other operations *)

Lemma PageCache_invalidate_ok c n :
  cache_ok c -> cache_ok (PageCache_invalidate c n) /\
  forall m, is_cached (PageCache_invalidate c n) m = true -> is_cached c m = true /\ m <> n.
Proof.
  intros Hc. unfold PageCache_invalidate. destruct c as [[|p|] budget stats]; cbn [pc_backing pc_budget pc_stats]; try done.
  destruct (Pages_invalidate p n stats) as [p' stats'] eqn:E.
  destruct (proj2 Hc p eq_refl) as [[H1 H2] [l Hl] Hcap Hbud].
  destruct (Pages_invalidate_lemma p l n stats p' stats' Hl E) as (Hl' & C1 & C2 & C3 & Hv).
  assert (pg_stride p' = pg_stride p) as C4.
  { unfold Pages_invalidate in E. unfold Pages_remove, unlink in E. repeat case_match; by simplify_eq. }
  assert (forall m x, (en_version <$> pg_entries p' !! m) = Some x -> (en_version <$> pg_entries p !! m) = Some x /\ m <> n) as Hm.
  { intros m x Hx. rewrite <- lookup_fmap, Hv in Hx. apply lookup_delete_Some in Hx as [Hne Hx].
    rewrite lookup_fmap in Hx. split; [done|]. by intros ->. }
  split.
  - split; [apply Hc|]. intros q [= <-]. cbn [pc_budget]. split; [|by eexists|by rewrite C1|by rewrite C1, C3, C4].
    split; [by rewrite C2, C3|]. intros m x Hx. rewrite C3. by apply H2, (Hm m x).
  - intros m [e He]%bool_decide_eq_true. destruct (Hm m (en_version e)) as [Hp Hne]; [by rewrite He|].
    split; [|done]. apply bool_decide_eq_true. by destruct (pg_entries p !! m).
Qed.

Lemma invalidate_all_ok l : forall c, cache_ok c -> cache_ok (foldl PageCache_invalidate c l) /\
  forall m, is_cached (foldl PageCache_invalidate c l) m = true -> is_cached c m = true /\ m ∉ l.
Proof.
  induction l as [|n l IH]; intros c Hc; cbn [foldl]; [split; [done|]; intros m Hm; split; [done|apply not_elem_of_nil]|].
  destruct (PageCache_invalidate_ok c n Hc) as [Hc' Hm']. destruct (IH _ Hc') as [Hc'' Hm'']. split; [done|].
  intros m Hm. destruct (Hm'' m Hm) as [H1 H2]. destruct (Hm' m H1) as [H3 H4]. split; [done|]. by apply not_elem_of_cons.
Qed.

Lemma invalidate_where_ok c f :
  cache_ok c -> cache_ok (invalidate_where c f) /\ unshadowed f (invalidate_where c f).
Proof.
  intros Hc. unfold invalidate_where.
  destruct (pc_backing c) as [|p|] eqn:Eb; [by split; [|apply unshadowed_not_ready; rewrite Eb]| |
    by split; [|apply unshadowed_not_ready; rewrite Eb]].
  destruct (invalidate_all_ok (List.filter f (map fst (map_to_list (pg_entries p)))) c Hc) as [Hc' Hm]. split; [done|].
  intros m Hcached. destruct (Hm m Hcached) as [Hin Hno]. destruct (f m) eqn:Ef; [|done]. exfalso. apply Hno.
  apply list_elem_of_In, filter_In. split; [|done]. apply list_elem_of_In.
  unfold is_cached in Hin. rewrite Eb in Hin. apply bool_decide_eq_true in Hin as [e He].
  apply list_elem_of_fmap. exists (m, e). split; [done|]. by apply elem_of_map_to_list.
Qed.

Lemma synchronize_ok c (w : option (PinnedView B)) f :
  cache_ok c -> cache_ok (synchronize c w f) /\ unshadowed f (synchronize c w f).
Proof.
  intros Hc. unfold synchronize. destruct (pc_backing c) eqn:Eb, w as [w|]; try (by apply invalidate_where_ok).
  - destruct (stale c (pn_id w)); [|by apply invalidate_where_ok]. split; [by apply discard_ok|by apply unshadowed_not_ready].
  - split; [by apply discard_ok|by apply unshadowed_not_ready].
Qed.

Lemma set_budget_ok c budget : cache_ok c -> budget_ok budget -> cache_ok (set_budget c budget).
Proof.
  intros Hc Hb. unfold set_budget. destruct (bool_decide _); [done|]. by split.
Qed.
End Transparency.

(** ** Theorems *)

Section Theorems.
Context {F : Type} `{CF : CacheFile F} `{CFL : !CacheFileLaws F}.
Context {HH : Hashes} {HOK : HashesOk HH} {Z0 : ZstdLib} {ZOK : ZstdOk Z0}.
Context {B : Type} {SB : StorageBackend B} {BL : BackendLaws B}.

(** C34. The cache is transparent: whatever its temporary file does or returns, a read through
    it gives what the verified read gives, or bytes that carry the checksum the manifest
    records for that page; so whenever the page can be read without the cache, the read
    through it returns the same bytes, or the hash has a collision. *)
Theorem cache_read_transparent (sealed : Digest -> ViewMetadata) file (v : PinnedView B) n shadowed
    (s s' : PageCache F * HandleIoStats) r :
  sealed (pn_id v) = pn_view v -> view_wf (pn_view v) -> cache_ok sealed (fst s) ->
  PageCache_read file v n shadowed s = (r, s') ->
  cache_ok sealed (fst s') /\
  (r = view_read v n \/ exists b, r = Ok b /\ authentic (pn_view v) n b) /\
  (forall b, view_read v n = Ok b -> r = Ok b \/ collision).
Proof.
  intros Hid Hwf Hc E. unfold PageCache_read, sbind, sret in E.
  destruct (read_prefetched file v n shadowed ∅ s) as [r1 s1] eqn:E1.
  destruct (read_prefetched_lemma sealed v Hid Hwf _ _ _ _ _ _ _ Hc E1) as (Hc1 & _ & Ha & Hr).
  assert (s' = s1 /\ r = rmap fst r1) as [-> ->] by (by destruct r1; simplify_eq).
  specialize (Hr eq_refl).
  assert (rmap fst r1 = view_read v n \/ exists b, rmap fst r1 = Ok b /\ authentic (pn_view v) n b) as Hor.
  { destruct Hr as [Hr|[b Hb]]; [by left|]. right. exists b. split; [done|].
    destruct r1 as [[b' recs]|]; [|done]. injection Hb as <-. by eapply Ha. }
  split_and!; [done|done|]. intros b Hb. destruct Hor as [->|(b' & -> & Hb')]; [by left|].
  cbn [view_read PinnedView_sealed] in Hb. destruct (resolve v n) as [page|] eqn:Er; [|done]. cbn [rbind] in Hb.
  destruct (authentic_unique (pn_view v) n b' b Hb') as [->|]; [by eapply read_authentic|by left|by right].
Qed.

(** A batch read terminates and is authentic: for any list of pages the loop finishes, and
    a batch it returns holds, in order, one page for each number, authentic against the
    manifest, whatever bytes the backend and the cache file returned. *)
Theorem read_many_authentic (sealed : Digest -> ViewMetadata) file (v : PinnedView B) shadowed numbers
    (s : PageCache F * HandleIoStats) :
  sealed (pn_id v) = pn_view v -> view_wf (pn_view v) -> cache_ok sealed (fst s) ->
  exists r s', read_many file v shadowed numbers s = Some (r, s') /\ cache_ok sealed (fst s') /\
    forall out, r = Ok out -> Forall2 (authentic (pn_view v)) numbers out.
Proof.
  intros Hid Hwf Hc. unfold read_many. apply (read_batches_lemma sealed v Hid Hwf); [done|].
  destruct s as [c io]. cbn. by apply (stale_discard_ok sealed v c Hc).
Qed.

(** C35. The linked list of the cache refines a list of pages in order of use: a hit moves its
    page to the front; an insertion puts a new page at the front, dropping exactly the
    least recently used one when the cache is full and reusing its slot; an invalidation
    removes its page and nothing else. Slots of the file are never shared, and at most
    [capacity] of them are ever allocated. *)
Theorem cache_refines_lru (p : Pages F) l :
  pages_inv p l -> 0 <= pg_capacity p ->
  (forall n b f p', Pages_read p n = (Ok (Some (b, f)), p') -> n ∈ l /\ pages_inv p' (touch n l)) /\
  (forall x b u t p' t', Pages_insert p x b u t = (Ok tt, p', t') ->
     pages_inv p' (if (pg_capacity p =? 0) || bool_decide (pv_page x ∈ l) then l
                   else pv_page x :: make_room (pg_capacity p) l)) /\
  (forall n t p' t', Pages_invalidate p n t = (p', t') -> pages_inv p' (filter (fun m => m <> n) l)).
Proof.
  intros Hi Hc. split_and!.
  - intros n b f p' E. by eapply Pages_read_lemma.
  - intros x b u t p' t' E. by apply (Pages_insert_lemma p l x b u t p' t' Hi Hc E).
  - intros n t p' t' E. by apply (Pages_invalidate_lemma p l n t p' t' Hi E).
Qed.

(** The operations of a cache over its life, with the views it serves. *)
Inductive cache_step (sealed : Digest -> ViewMetadata) : relation (PageCache F * HandleIoStats) :=
| step_read file (v : PinnedView B) n shadowed s r s' :
    sealed (pn_id v) = pn_view v -> view_wf (pn_view v) ->
    PageCache_read file v n shadowed s = (r, s') -> cache_step sealed s s'
| step_read_many file (v : PinnedView B) shadowed numbers s r s' :
    sealed (pn_id v) = pn_view v -> view_wf (pn_view v) ->
    read_many file v shadowed numbers s = Some (r, s') -> cache_step sealed s s'
| step_invalidate n c io : cache_step sealed (c, io) (PageCache_invalidate c n, io)
| step_invalidate_where f c io : cache_step sealed (c, io) (invalidate_where c f, io)
| step_synchronize (w : option (PinnedView B)) f c io : cache_step sealed (c, io) (synchronize c w f, io)
| step_set_budget budget c io : budget_ok budget -> cache_step sealed (c, io) (set_budget c budget, io).

Lemma cache_step_ok sealed s s' : cache_step sealed s s' -> cache_ok sealed (fst s) -> cache_ok sealed (fst s').
Proof.
  intros Hs Hc. destruct Hs as [file v n shadowed s r s' Hid Hwf E|file v shadowed numbers s r s' Hid Hwf E| | | |]; cbn [fst] in *.
  - unfold PageCache_read, sbind, sret in E. destruct (read_prefetched file v n shadowed ∅ s) as [r1 s1] eqn:E1.
    destruct (read_prefetched_lemma sealed v Hid Hwf _ _ _ _ _ _ _ Hc E1) as (Hc1 & _). by destruct r1; simplify_eq.
  - unfold read_many in E.
    match type of E with read_batches ?f ?x ?w ?y ?z ?t = _ =>
      destruct (read_batches_lemma sealed v Hid Hwf x y f z t) as (r' & s1 & E1 & Hc1 & _) end; [done| |by simplify_eq].
    destruct s as [c io]. by apply (stale_discard_ok sealed v c Hc).
  - by apply PageCache_invalidate_ok.
  - by apply invalidate_where_ok.
  - by apply synchronize_ok.
  - by apply set_budget_ok.
Qed.


(** The cache never hides the active file: synchronizing with a view leaves no page
    shadowed by the active file in the cache, and reading another page through the cache,
    which admits its neighbours from the same frame, never brings one back. *)
Theorem cache_excludes_shadowed (sealed : Digest -> ViewMetadata) file (v : PinnedView B) n shadowed
    (s s' : PageCache F * HandleIoStats) r :
  sealed (pn_id v) = pn_view v -> view_wf (pn_view v) -> cache_ok sealed (fst s) ->
  unshadowed shadowed (synchronize (fst s) (Some v) shadowed) /\
  (shadowed n = false -> unshadowed shadowed (fst s) -> PageCache_read file v n shadowed s = (r, s') ->
   unshadowed shadowed (fst s')).
Proof.
  intros Hid Hwf Hc. split; [by eapply synchronize_ok|]. intros Hn Hu E. by eapply read_unshadowed.
Qed.
End Theorems.
