(* ===== verification/CacheDemo.v ===== *)
(** A cache in memory in front of the pinned view of [SealedDemo]: a miss admits the other
    live page of the frame, which is then a hit; the witnesses of the cache theorems. *)

From S2P Require Import Prelude Domain Layout Format Wire Segment Frame Pack Backend CatalogIndex Catalog Placement View ViewProofs ViewDemo Manifest ManifestProofs ManifestDemo Store StoreProofs Sealed SealedProofs SealedDemo Cache CacheProofs.
From stdpp Require Import base strings gmap list sorting.
From Stdlib Require Import ZArith Lia.
Open Scope Z_scope.

#[local] Existing Instances demo_hashes demo_zstd demo_hashes_ok demo_zstd_ok.

(** A file of bytes with blocks of 512, which cannot be punched. *)
#[export] Instance demo_cache_file : CacheFile (list Z) := {|
  cf_block_bytes _ := 512;
  cf_available_bytes _ := Some 100000;
  cf_read f o n := if (o <? 0) || (n <? 0) || (zlen f <? o + n) then Err Io else Ok (slice f o (o + n));
  cf_write f o b := (Ok tt, staged f o b);
  cf_set_len f n := (Ok tt, slice (f ++ zeros (n - zlen f)) 0 n);
  cf_punch f _ _ := (Err Io, f);
|}.

#[export] Instance demo_cache_file_laws : CacheFileLaws (list Z).
Proof.
  split; cbn.
  - intros f o n b E. destruct (_ || _) eqn:Eb; [done|]. injection E as <-.
    apply orb_false_iff in Eb as [[H1 H2]%orb_false_iff H3]. rewrite zlen_slice; lia.
  - lia.
  - intros f n [= <-]. lia.
Qed.

Definition demo_io : HandleIoStats := mkIoStats 0 0 0 0.
Definition demo_cache0 : PageCache (list Z) * HandleIoStats := (PageCache_new (FixedCache 4096), demo_io).
Definition demo_miss := Eval vm_compute in PageCache_read (Ok []) demo_pinned 4 (fun _ => false) demo_cache0.
Definition demo_hit := Eval vm_compute in PageCache_read (Ok []) demo_pinned 2 (fun _ => false) demo_miss.2.

(** One fetch serves both pages, and the counters say so. *)
Example demo_hit_and_miss :
  demo_miss.1 = Ok (demo_page 251) /\ demo_hit.1 = Ok (demo_page 1) /\
  io_cache_hits demo_hit.2.2 = 1 /\ io_cache_misses demo_hit.2.2 = 1.
Proof. split_and!; vm_compute; reflexivity. Qed.

(** A damaged file is a miss: the page is fetched and verified again. *)
Definition damage (s : PageCache (list Z) * HandleIoStats) : PageCache (list Z) * HandleIoStats :=
  match pc_backing (fst s) with
  | Ready p => (mkCache (Ready (set_slots p (zeros (zlen (pg_file p))) (pg_allocated p) (pg_free p)))
                  (pc_budget (fst s)) (pc_stats (fst s)), snd s)
  | _ => s
  end.

Example demo_damaged :
  let r := PageCache_read (Ok []) demo_pinned 4 (fun _ => false) (damage demo_hit.2) in
  r.1 = Ok (demo_page 251) /\ pc_backing r.2.1 = Disabled.
Proof. split; vm_compute; reflexivity. Qed.

Definition demo_sealed (_ : Digest) : ViewMetadata := pn_view demo_pinned.

Lemma demo_cache0_ok : cache_ok demo_sealed (fst demo_cache0).
Proof. split; [cbn; lia|done]. Qed.

Lemma demo_miss_ok : cache_ok demo_sealed (fst demo_miss.2).
Proof.
  apply (cache_step_ok (B := MemoryBackend) demo_sealed demo_cache0 demo_miss.2); [|exact demo_cache0_ok].
  apply (step_read demo_sealed (Ok []) demo_pinned 4 (fun _ => false) _ demo_miss.1); [done|exact demo_pinned_wf|].
  vm_compute. reflexivity.
Qed.

Lemma cache_read_transparent_witness :
  view_read demo_pinned 2 = Ok (demo_page 1) /\ (demo_hit.1 = Ok (demo_page 1) \/ collision).
Proof.
  assert (view_read demo_pinned 2 = Ok (demo_page 1)) as Hv by (vm_compute; reflexivity).
  destruct (cache_read_transparent demo_sealed (Ok []) demo_pinned 2 (fun _ => false) demo_miss.2 demo_hit.2 demo_hit.1)
    as (_ & _ & H).
  - reflexivity.
  - exact demo_pinned_wf.
  - exact demo_miss_ok.
  - vm_compute. reflexivity.
  - split; [exact Hv|]. apply H. exact Hv.
Defined.

Lemma read_many_authentic_witness :
  exists r s', read_many (Ok []) demo_pinned (fun _ => false) [4; 1; 2; 4] demo_cache0 = Some (r, s') /\
    cache_ok demo_sealed (fst s').
Proof.
  destruct (read_many_authentic demo_sealed (Ok []) demo_pinned (fun _ => false) [4; 1; 2; 4] demo_cache0)
    as (r & s' & Hr & Hc & _).
  - reflexivity.
  - exact demo_pinned_wf.
  - exact demo_cache0_ok.
  - exists r, s'. split; [exact Hr|exact Hc].
Defined.

Example demo_batch :
  option_map fst (read_many (Ok []) demo_pinned (fun _ => false) [4; 1; 2; 4] demo_cache0)
  = Some (Ok [demo_page 251; zeros 512; demo_page 1; demo_page 251]).
Proof. vm_compute. reflexivity. Qed.

Definition demo_ready : Pages (list Z) := Eval vm_compute in
  match pc_backing demo_hit.2.1 with Ready p => p | _ => mkPages [] [] 0 0 0 0 [] ∅ None None end.

Lemma demo_rtc : rtc (cache_step (B := MemoryBackend) demo_sealed) demo_cache0 demo_hit.2.
Proof.
  apply rtc_l with demo_miss.2; [|apply rtc_once].
  - apply (step_read demo_sealed (Ok []) demo_pinned 4 (fun _ => false) _ demo_miss.1); [done|exact demo_pinned_wf|].
    vm_compute. reflexivity.
  - apply (step_read demo_sealed (Ok []) demo_pinned 2 (fun _ => false) _ demo_hit.1); [done|exact demo_pinned_wf|].
    vm_compute. reflexivity.
Qed.


(** Both pages are linked, the one read last first. *)
Lemma demo_ready_inv : pages_inv demo_ready [2; 4].
Proof.
  split.
  - split; [apply (bool_decide_unpack _); vm_compute; exact I| |].
    + intros n. unfold demo_ready. cbn [pg_entries].
      rewrite <- (elem_of_dom (D := gset Z)).
      match goal with |- context [dom ?m] => replace (dom m) with ({[2; 4]} : gset Z) by (vm_compute; reflexivity) end.
      set_solver.
    + split; [|vm_compute; reflexivity..]. cbn [dll].
      split; [eexists; split; [vm_compute; reflexivity|]; split; vm_compute; reflexivity|].
      split; [eexists; split; [vm_compute; reflexivity|]; split; vm_compute; reflexivity|done].
  - split; [apply (bool_decide_unpack _); vm_compute; exact I|].
    assert (slots demo_ready [2; 4] ++ pg_free demo_ready = [512; 0] \/ slots demo_ready [2; 4] ++ pg_free demo_ready = [0; 512])
      as [-> | ->] by (first [left; vm_compute; reflexivity|right; vm_compute; reflexivity]).
    + constructor; [exists 1; vm_compute; split; [split; [discriminate|reflexivity]|reflexivity]|].
      constructor; [exists 0; vm_compute; split; [split; [discriminate|reflexivity]|reflexivity]|constructor].
    + constructor; [exists 0; vm_compute; split; [split; [discriminate|reflexivity]|reflexivity]|].
      constructor; [exists 1; vm_compute; split; [split; [discriminate|reflexivity]|reflexivity]|constructor].
  - vm_compute. reflexivity.
  - vm_compute. discriminate.
  - vm_compute. reflexivity.
Qed.

(** A hit on page 4 makes it the most recently used. *)
Lemma cache_refines_lru_witness :
  exists b f p', Pages_read demo_ready 4 = (Ok (Some (b, f)), p') /\ pages_inv p' [4; 2].
Proof.
  destruct (cache_refines_lru demo_ready [2; 4] demo_ready_inv) as (H & _).
  - vm_compute. discriminate.
  - eexists _, _, _. split; [vm_compute; reflexivity|].
    destruct (H 4 (demo_page 251) false (snd (Pages_read demo_ready 4))) as [_ Hi]; [vm_compute; reflexivity|exact Hi].
Defined.

Lemma demo_hit_ok : cache_ok demo_sealed (fst demo_hit.2).
Proof.
  apply (cache_step_ok (B := MemoryBackend) demo_sealed demo_miss.2 demo_hit.2); [|exact demo_miss_ok].
  apply (step_read demo_sealed (Ok []) demo_pinned 2 (fun _ => false) _ demo_hit.1); [done|exact demo_pinned_wf|].
  vm_compute. reflexivity.
Qed.

(** Page 2 is cached, and dropped once the active file shadows it. *)
Lemma cache_excludes_shadowed_witness :
  is_cached (fst demo_hit.2) 2 = true /\
  unshadowed (fun m => m =? 2) (synchronize (fst demo_hit.2) (Some demo_pinned) (fun m => m =? 2)).
Proof.
  split; [vm_compute; reflexivity|].
  destruct (cache_excludes_shadowed demo_sealed (Ok []) demo_pinned 4 (fun m => m =? 2) demo_hit.2 demo_hit.2 demo_hit.1)
    as [Hs _]; [reflexivity|exact demo_pinned_wf|exact demo_hit_ok|exact Hs].
Defined.
