(* ===== verification/Seal.v ===== *)
(** Attachments and the seal protocol (src/src/storage/objects.rs): which active file a catalog
    head belongs to, and the two publications, [prepare_seal] and [finish_seal], around the rename
    that installs a new active file, with [recover_seal] for whoever opens the database after an
    interruption.

    [Local] is what the local coordination directory and the database path hold; writing the
    attachment record is the parameter [persist], which may fail. *)

From S2P Require Import Prelude Domain Layout Format Wire Segment Frame Backend CatalogIndex Catalog Placement View Manifest Active Store Sealed.
From stdpp Require Import base strings gmap list sorting.
From Stdlib Require Import ZArith Lia.
Open Scope Z_scope.

(** ** The local directory *)

(** The outcome of [ExclusiveLock::acquire] on a lease file without blocking: nobody holds it,
    a reader does, or the file cannot be locked. *)
Inductive Lease : Set := Unheld | Held | LeaseFailed (e : StoreError).

(** A directory of lease files as it is listed: the listing or an entry of it may fail. *)
Definition Leases : Type := result StoreError (list (result StoreError (bytes * Lease))).

Record Local : Type := mkLocal {
  lo_identity : Digest;
  lo_active_path : result StoreError bytes;
  lo_active : option bytes;
  lo_location : result StoreError (option bytes);
  lo_readers : Leases;
  lo_object_readers : Leases;
  lo_physical_readers : Leases;
}.

Definition set_location (l : Local) (b : bytes) : Local :=
  mkLocal (lo_identity l) (lo_active_path l) (lo_active l) (Ok (Some b)) (lo_readers l)
    (lo_object_readers l) (lo_physical_readers l).

Definition set_branch (s : State) (attachment : option Digest) (sealed pending : option ActiveHeader) : State :=
  mkState (st_revision s) (st_database s) attachment sealed pending (st_placements s)
    (st_endpoints s) (st_retentions s) (st_advisory s) (st_uncertain s) (st_heads s) (st_selected s).
Definition set_database (s : State) (database : option Digest) : State :=
  mkState (st_revision s) database (st_attachment s) (st_sealed s) (st_pending s) (st_placements s)
    (st_endpoints s) (st_retentions s) (st_advisory s) (st_uncertain s) (st_heads s) (st_selected s).
Definition set_pending (p : option ActiveHeader) (s : State) : State :=
  set_branch s (st_attachment s) (st_sealed s) p.

Section Seal.
Context `{Hashes, ZstdLib, StorageBackend B}.

Definition with_state (f : State -> State) (g : CatalogGuard B) : CatalogGuard B :=
  mkGuard (cg_backend g) (f (cg_state g)).

(** ** Attachments *)

Definition attachment_record (identity attachment : Digest) (path : result StoreError bytes)
    : result StoreError bytes :=
  let* path := path in
  Ok (identity ++ attachment ++ path).

Definition local_attachment_record (l : Local) (attachment : Digest) : result StoreError bytes :=
  attachment_record (lo_identity l) attachment (lo_active_path l).

Definition validate_local_attachment (l : Local) (attachment : Digest) : result StoreError unit :=
  let* location := lo_location l in
  match location with
  | Some record =>
      let* expected := local_attachment_record l attachment in
      fail_if negb (bytes_eqb record expected) with StaleAttachment ;;
      Ok tt
  | None => Ok tt
  end.

Definition validate_attachment (l : Local) (s : State) (header : ActiveHeader) : result StoreError unit :=
  fail_if negb (bool_decide (st_database s = Some (ah_database_id header))) with IdentityMismatch ;;
  fail_if negb (bool_decide (st_attachment s = Some (ah_attachment_id header))) with StaleAttachment ;;
  validate_local_attachment l (ah_attachment_id header).

Definition validate_policy (v : StoragePolicyRecord) : result StoreError unit :=
  fail_if (negb (pol_rollover_bytes v =? 0) && (pol_rollover_bytes v <? 1024 * 1024))
          || negb (is_ok (DictionaryPolicy_new (pol_dictionary_bytes v) (pol_sample_bytes v)))
    with InvalidConfiguration ;;
  Ok tt.

Definition validate_descriptor (s : State) (header : ActiveHeader) (v : PinnedView B)
    : result StoreError unit :=
  fail_if negb (bool_decide (st_database s = Some (ah_database_id header))) with IdentityMismatch ;;
  let* _ := validate_policy (ah_policy header) in
  let m := pn_view v in
  fail_if negb (bytes_eqb (vm_database m) (ah_database_id header))
          || negb (bool_decide (checked_add (vm_txid m) 1 = Some (ah_start_txid header)))
          || negb (bytes_eqb (vm_history m) (ah_base_history header))
          || negb (lb_bytes (vm_size m) =? ah_base_logical_size header)
          || negb (lb_page_size (vm_size m) =? ah_page_size header)
          || negb (bytes_eqb (pn_id v) (ah_parent_physical_digest header)) with IdentityMismatch ;;
  Ok tt.

Section Persist.
Context (persist : Local -> bytes -> result StoreError unit * Local).

Definition record_local_attachment (l : Local) (attachment : Digest) : result StoreError unit * Local :=
  match local_attachment_record l attachment with
  | Err e => (Err e, l)
  | Ok record => persist l record
  end.

(** [nonce] is what the system's random source returns. *)
Definition initialize_namespace (nonce : result StoreError Digest) (database : Digest) (l : Local)
    (g : CatalogGuard B) : result StoreError Digest * Local * CatalogGuard B :=
  let s := cg_state g in
  match (fail_if bool_decide (is_Some (st_sealed s))
                 || match st_database s with
                    | Some existing => negb (bytes_eqb existing database)
                    | None => false
                    end with IdentityMismatch ;;
         let* fresh := nonce in
         let attachment := default fresh (st_attachment s) in
         let* _ := (if bool_decide (is_Some (st_database s))
                    then validate_local_attachment l attachment else Ok tt) in
         Ok attachment) with
  | Err e => (Err e, l, g)
  | Ok attachment =>
      match record_local_attachment l attachment with
      | (Err e, l) => (Err e, l, g)
      | (Ok _, l) =>
          match publish_catalog
                  (with_state (fun s => set_branch (set_database s (Some database)) (Some attachment)
                                          (st_sealed s) (st_pending s)) g) with
          | (Err e, g) => (Err e, l, g)
          | (Ok _, g) => (Ok attachment, l, g)
          end
      end
  end.

Definition relocate_local_attachment (l : Local) (s : State) (destination : result StoreError bytes)
    : result StoreError unit * Local :=
  match (let* attachment := ok_or (st_attachment s) StaleAttachment in
         attachment_record (lo_identity l) attachment destination) with
  | Err e => (Err e, l)
  | Ok record => persist l record
  end.
End Persist.

(** ** The protocol *)

(** Descriptors are compared by their encoding. *)
Definition same_header (a b : ActiveHeader) : bool := bytes_eqb (ActiveHeader_encode a) (ActiveHeader_encode b).

Definition prepare_seal (l : Local) (header : ActiveHeader) : sm (CatalogGuard B) unit :=
  let! g := sget in
  let! _ := slift (validate_attachment l (cg_state g) header) in
  let! _ := smod (with_state (set_pending (Some header))) in
  publish_catalog.

Definition finish_seal (l : Local) (header : ActiveHeader) : sm (CatalogGuard B) unit :=
  let! g := sget in
  let! _ := slift (validate_attachment l (cg_state g) header) in
  match st_pending (cg_state g) with
  | None => sret tt
  | Some pending =>
      sfail_if negb (same_header pending header) with Busy ;;
      let! _ := smod (with_state (fun s => set_branch s (st_attachment s) (Some pending) None)) in
      publish_catalog
  end.

Definition recover_seal (l : Local) (header : ActiveHeader) : sm (CatalogGuard B) unit :=
  let! g := sget in
  let s := cg_state g in
  let! _ := slift (validate_attachment l s header) in
  match st_pending s with
  | None => sret tt
  | Some pending =>
      if same_header pending header then finish_seal l header
      else if match st_sealed s with
              | None => true
              | Some sealed => bytes_eqb (ah_parent_physical_digest sealed) (ah_parent_physical_digest header)
              end
      then
        let! _ := smod (with_state (set_pending None)) in
        publish_catalog
      else sret tt
  end.
End Seal.
