(* ===== verification/SealProofs.v ===== *)
(** Correctness of the seal protocol: each operation publishes one transition of the branch head or
    nothing, and whoever recovers after an interruption anywhere in the protocol finds the base of
    the surviving active file sealed and nothing pending. *)

From S2P Require Import Prelude Domain Layout Format Wire Segment Frame Backend CatalogIndex Catalog Placement View Manifest Active Store StoreProofs Sealed Seal.
From stdpp Require Import base strings gmap list sorting.
From Stdlib Require Import ZArith Lia.
Open Scope Z_scope.

(** ** The abstract protocol *)

(** The sealed and the pending descriptor of a branch head. *)
Definition Branch : Type := option ActiveHeader * option ActiveHeader.

Definition branch_of (s : State) : Branch := (st_sealed s, st_pending s).

Section Protocol.
Context {HH : Hashes} {HOK : HashesOk HH}.

Definition prepare_branch (h : ActiveHeader) (b : Branch) : Branch := (fst b, Some h).

Definition finish_branch (h : ActiveHeader) (b : Branch) : option Branch :=
  match snd b with
  | None => Some b
  | Some pending => if same_header pending h then Some (Some pending, None) else None
  end.

Definition recover_branch (h : ActiveHeader) (b : Branch) : Branch :=
  match snd b with
  | None => b
  | Some pending =>
      if same_header pending h then (Some pending, None)
      else if match fst b with
              | None => true
              | Some sealed => bytes_eqb (ah_parent_physical_digest sealed) (ah_parent_physical_digest h)
              end
      then (fst b, None)
      else b
  end.

(** One seal and its interruptions: the durable branch head and the header of the active file. A
    publication may become durable although it was not acknowledged, and a step may not happen:
    an interrupted run is any prefix. [genesis] is the header of the first active file. *)
Inductive seal_step : Branch * ActiveHeader -> Branch * ActiveHeader -> Prop :=
| step_prepare b a h : snd b = None -> seal_step (b, a) (prepare_branch h b, a)
| step_rename b a h : snd b = Some h -> seal_step (b, a) (b, h)
| step_finish b b' a : finish_branch a b = Some b' -> seal_step (b, a) (b', a)
| step_recover b a : seal_step (b, a) (recover_branch a b, a).

(** The base of the active file is the sealed one; before the first seal there is none. *)
Definition settled (genesis : ActiveHeader) (x : Branch * ActiveHeader) : Prop :=
  snd (fst x) = None /\
  match fst (fst x) with
  | None => snd x = genesis
  | Some sealed => same_header sealed (snd x) = true
  end.

(** What holds between the steps: the active file is based on the sealed or on the pending view. *)
Definition protocol_inv (genesis : ActiveHeader) (x : Branch * ActiveHeader) : Prop :=
  (exists pending, snd (fst x) = Some pending /\ same_header pending (snd x) = true) \/
  match fst (fst x) with
  | None => snd x = genesis
  | Some sealed => same_header sealed (snd x) = true
  end.

Lemma same_header_refl a : same_header a a = true.
Proof. apply bytes_eqb_refl. Qed.

(** The header sector holds the physical digest, so equal encodings name equal bases. *)
Lemma same_header_parent a b :
  active_header_ok a -> active_header_ok b -> same_header a b = true ->
  ah_parent_physical_digest a = ah_parent_physical_digest b.
Proof.
  unfold same_header. intros Ha Hb E. apply bytes_eqb_true in E.
  pose proof (active_header_roundtrip_lemma a Ha) as Ra. pose proof (active_header_roundtrip_lemma b Hb) as Rb.
  rewrite E, Rb in Ra. by injection Ra as ->.
Qed.

#[local] Opaque same_header.

Definition headers_ok (x : Branch * ActiveHeader) : Prop :=
  active_header_ok (snd x) /\ (forall h, fst (fst x) = Some h -> active_header_ok h) /\
  (forall h, snd (fst x) = Some h -> active_header_ok h).

Lemma seal_step_inv genesis x y : seal_step x y -> protocol_inv genesis x -> protocol_inv genesis y.
Proof.
  intros Hs Hi. destruct Hs as [[sealed p] a h Hn|[sealed p] a h Hp|[sealed p] b' a Hf|[sealed p] a]; cbn [fst snd] in *; unfold protocol_inv in *; cbn [fst snd prepare_branch] in *.
  - subst p. destruct Hi as [(q & [=] & _)|Hi]. by right.
  - subst p. left. exists h. split; [done|apply same_header_refl].
  - unfold finish_branch in Hf. cbn [fst snd] in Hf. destruct p as [p|]; [|by simplify_eq].
    destruct (same_header p a) eqn:E; [|done]. simplify_eq. by right.
  - unfold recover_branch. cbn [fst snd]. destruct p as [p|]; [|done].
    destruct (same_header p a) eqn:E; [by right|]. destruct Hi as [(q & [= <-] & Hq)|Hi]; [by rewrite E in Hq|].
    destruct (match sealed with Some _ => _ | None => _ end); by right.
Qed.

Lemma recover_settles genesis x :
  headers_ok x -> protocol_inv genesis x -> settled genesis (recover_branch (snd x) (fst x), snd x).
Proof.
  destruct x as [[sealed p] a]. intros (Ha & Hs & _) Hi. unfold settled, recover_branch, protocol_inv in *. cbn [fst snd] in *.
  destruct p as [p|]; cbn [fst snd]; [|by destruct Hi as [(q & [=] & _)|Hi]].
  destruct (same_header p a) eqn:E; [done|]. destruct Hi as [(q & [= <-] & Hq)|Hi]; [by rewrite E in Hq|].
  destruct sealed as [sealed|]; [|done]. rewrite (same_header_parent sealed a); [|by apply Hs|done|done].
  by rewrite bytes_eqb_refl.
Qed.

(** ** The operations implement it *)

Context {Z0 : ZstdLib} {B : Type} {SB : StorageBackend B} {BL : BackendLaws B}.
Implicit Types g : CatalogGuard B.

(** The operation publishes a state that differs from the guard's in its branch only; a failed
    publication leaves the root as it was, or holding that state. *)
Definition publishes_branch g (branch : Branch) (r : result StoreError unit) g' : Prop :=
  exists s, branch_of s = branch /\ s = set_branch (cg_state g) (st_attachment (cg_state g)) (fst branch) (snd branch) /\
    Catalog.publish (cg_backend g) s = (r, cg_state g', cg_backend g') /\
    branch_of (cg_state g') = branch /\
    match r with
    | Ok _ => exists rev, root (cg_backend g') = Some (mkRoot rev (encode_root (cg_state g')))
    | Err _ => root (cg_backend g') = root (cg_backend g) \/
               exists rev, root (cg_backend g') = Some (mkRoot rev (encode_root (cg_state g')))
    end.

Lemma publish_branch b s r s' b' : Catalog.publish b s = (r, s', b') -> branch_of s' = branch_of s.
Proof.
  intros E. unfold Catalog.publish in E. destruct (st_uncertain s); [by simplify_eq|].
  destruct (flush_all b (update_heads s)) as [[r1 s1] b1] eqn:Ef. pose proof (flush_all_selected _ _ _ _ _ Ef) as (_ & _ & H1 & H2).
  pose proof (update_heads_fields s) as (_ & H3 & H4). assert (branch_of s1 = branch_of s) as H5 by (unfold branch_of; congruence).
  destruct r1; [|injection E as <- <- <-; exact H5].
  destruct (compare_exchange_root _ _ _) as [[[]|] ?]; injection E as <- <- <-; exact H5.
Qed.

Lemma publishes_branch_intro g branch r g' :
  publish_catalog (with_state (fun s => set_branch s (st_attachment s) (fst branch) (snd branch)) g) = (r, g') ->
  publishes_branch g branch r g'.
Proof.
  unfold publish_catalog. cbn [with_state cg_backend cg_state]. destruct (Catalog.publish _ _) as [[r1 s1] b1] eqn:E. intros [= -> <-].
  eexists. split; [|split; [done|]]; [by destruct branch|]. cbn. split; [exact E|].
  split; [rewrite (publish_branch _ _ _ _ _ E); by destruct branch|].
  apply publish_lemma in E as [_ Hr]. destruct r; [destruct Hr as (_ & _ & rev & Hr & _); eauto|].
  destruct Hr as [|(_ & _ & rev & Hr)]; eauto.
Qed.

Lemma prepare_seal_lemma l h g r g' :
  prepare_seal l h g = (r, g') ->
  match validate_attachment l (cg_state g) h with
  | Err e => r = Err e /\ g' = g
  | Ok _ => publishes_branch g (prepare_branch h (branch_of (cg_state g))) r g'
  end.
Proof.
  unfold prepare_seal, sget, slift, smod, sbind. destruct (validate_attachment _ _ _); [|by intros [= <- <-]].
  intros E. by apply publishes_branch_intro.
Qed.

Lemma finish_seal_lemma l h g r g' :
  finish_seal l h g = (r, g') ->
  match validate_attachment l (cg_state g) h, finish_branch h (branch_of (cg_state g)) with
  | Err e, _ => r = Err e /\ g' = g
  | Ok _, None => r = Err Busy /\ g' = g
  | Ok _, Some branch => st_pending (cg_state g) = None /\ r = Ok tt /\ g' = g \/ publishes_branch g branch r g'
  end.
Proof.
  unfold finish_seal, sget, slift, smod, serr, sret, sbind, finish_branch, branch_of. cbn [snd].
  destruct (validate_attachment _ _ _); [|by intros [= <- <-]].
  destruct (st_pending (cg_state g)) as [p|] eqn:Ep; [|intros [= <- <-]; by left].
  destruct (same_header p h); cbn [negb]; [|by intros [= <- <-]]. intros E. right. by apply publishes_branch_intro.
Qed.

Lemma recover_seal_lemma l h g r g' :
  recover_seal l h g = (r, g') ->
  match validate_attachment l (cg_state g) h with
  | Err e => r = Err e /\ g' = g
  | Ok _ =>
      recover_branch h (branch_of (cg_state g)) = branch_of (cg_state g) /\ r = Ok tt /\ g' = g \/
      publishes_branch g (recover_branch h (branch_of (cg_state g))) r g'
  end.
Proof.
  unfold recover_seal, sget, slift, smod, sret, sbind, recover_branch, branch_of. cbn [snd fst].
  destruct (validate_attachment l (cg_state g) h) as [u|] eqn:Ev; [|by intros [= <- <-]].
  destruct (st_pending (cg_state g)) as [p|] eqn:Ep; [|intros [= <- <-]; by left].
  destruct (same_header p h) eqn:Eb.
  - intros E. apply finish_seal_lemma in E. rewrite Ev in E. unfold finish_branch, branch_of in E. cbn [snd] in E.
    rewrite Ep, Eb in E. destruct E as [(? & _)|E]; [done|by right].
  - destruct (match st_sealed (cg_state g) with Some _ => _ | None => _ end).
    + intros E. right. by apply publishes_branch_intro.
    + intros [= <- <-]. by left.
Qed.

(** ** Theorems *)

(** C33. The seal operations implement the protocol: after a refused attachment the catalog is as
    before; otherwise the operation publishes exactly its transition of the branch head, and a
    publication that fails leaves the root untouched or holding that transition. Finishing another
    seal than the pending one is refused as busy. *)
Theorem seal_refines_protocol l h g r g' :
  (prepare_seal l h g = (r, g') ->
   match validate_attachment l (cg_state g) h with
   | Err e => r = Err e /\ g' = g
   | Ok _ => publishes_branch g (prepare_branch h (branch_of (cg_state g))) r g'
   end) /\
  (finish_seal l h g = (r, g') ->
   match validate_attachment l (cg_state g) h, finish_branch h (branch_of (cg_state g)) with
   | Err e, _ => r = Err e /\ g' = g
   | Ok _, None => r = Err Busy /\ g' = g
   | Ok _, Some branch => st_pending (cg_state g) = None /\ r = Ok tt /\ g' = g \/ publishes_branch g branch r g'
   end) /\
  (recover_seal l h g = (r, g') ->
   match validate_attachment l (cg_state g) h with
   | Err e => r = Err e /\ g' = g
   | Ok _ =>
       recover_branch h (branch_of (cg_state g)) = branch_of (cg_state g) /\ r = Ok tt /\ g' = g \/
       publishes_branch g (recover_branch h (branch_of (cg_state g))) r g'
   end).
Proof. split_and!; [apply prepare_seal_lemma|apply finish_seal_lemma|apply recover_seal_lemma]. Qed.

End Protocol.
