(* ===== verification/Retention.v ===== *)
(** Retention and collection (src/src/storage/retention.rs, src/src/storage/objects.rs, with the
    inventory and deletion of src/src/storage/adapter.rs and the estimates of
    src/src/storage/repack.rs): durable named roots, the trace of everything that is still needed,
    and the collector that deletes the rest. *)

From S2P Require Import Prelude Domain Layout Format Wire Segment Frame Pack Backend CatalogIndex Catalog Placement View Manifest Active Store Sealed Seal.
From stdpp Require Import base strings gmap list sorting.
From Stdlib Require Import ZArith Lia.
Open Scope Z_scope.

(** ** Inventory and deletion of a backend *)

Definition key_rank (k : ObjectKey) : Z :=
  match k with Blob _ => 0 | Manifest _ => 1 | Dictionary _ => 2 | Backend.Index _ => 3 end.

(** The derived order of keys: by kind, then by identity. *)
Definition key_compare (a b : ObjectKey) : comparison :=
  match key_rank a ?= key_rank b with
  | Eq => digest_compare (key_id a) (key_id b)
  | c => c
  end.
Definition key_leb (a b : ObjectKey) : bool :=
  match key_compare a b with Gt => false | _ => true end.
Definition key_ltb (a b : ObjectKey) : bool :=
  match key_compare a b with Lt => true | _ => false end.

Definition after_key (after : option ObjectKey) (k : ObjectKey) : bool :=
  match after with Some a => key_ltb a k | None => true end.

Class Collectable (B : Type) : Type := {
  backend_inventory : B -> option ObjectKey -> Z -> result BackendError (list ObjectKey);
  backend_delete : B -> ObjectKey -> result BackendError unit * B;
}.

(** What the documentation of the trait says: keys after [after], strictly increasing, nothing
    stored between them left out; a deletion removes its object and nothing else. *)
Class CollectableLaws (B : Type) `{StorageBackend B, Collectable B} : Prop := {
  inventory_exact : forall b after limit keys,
    0 <= limit -> backend_inventory b after limit = Ok keys ->
    Sorted (fun x y => key_ltb x y = true) keys /\ zlen keys <= limit /\
    (forall k, k ∈ keys -> is_Some (contents b !! k) /\ after_key after k = true) /\
    (forall k, is_Some (contents b !! k) -> after_key after k = true ->
       k ∈ keys \/ exists l, last keys = Some l /\ key_ltb l k = true);
  delete_ok : forall b k b', backend_delete b k = (Ok tt, b') ->
    contents b' = delete k (contents b) /\ root b' = root b;
  delete_err : forall b k e b', backend_delete b k = (Err e, b') ->
    (contents b' = contents b \/ contents b' = delete k (contents b)) /\ root b' = root b;
}.

Definition Memory_inventory (m : MemoryBackend) (after : option ObjectKey) (limit : Z)
    : result BackendError (list ObjectKey) :=
  fail_if (limit =? 0) || (4096 <? limit) with BRange ;;
  Ok (take (Z.to_nat limit)
        (List.filter (after_key after) (isort key_leb (elements (dom (mb_objects m)))))).

Definition Memory_delete (m : MemoryBackend) (k : ObjectKey) : result BackendError unit * MemoryBackend :=
  (Ok tt, mkMemory (delete k (mb_objects m)) (mb_root m) (mb_nonce m)).

#[export] Instance Memory_collectable : Collectable MemoryBackend := {|
  backend_inventory := Memory_inventory;
  backend_delete := Memory_delete;
|}.

(** ** Logical keys *)

Definition logical_rank (k : LogicalKey) : Z :=
  match k with LManifest _ => 0 | LPack _ => 1 | LDictionary _ => 2 | LStaging _ => 3 end.
Definition logical_id (k : LogicalKey) : Digest :=
  match k with LManifest d | LPack d | LDictionary d | LStaging d => d end.
Definition logical_leb (a b : LogicalKey) : bool :=
  match logical_rank a ?= logical_rank b with
  | Eq => digest_leb (logical_id a) (logical_id b)
  | Lt => true
  | Gt => false
  end.

(** [ObjectKey::parse] and [ObjectKey::parse_lease] (src/src/storage/objects.rs). *)
Definition logical_parse (name : bytes) : result StoreError LogicalKey :=
  if bool_decide (is_Some (Segment.strip_suffix (ascii ".segment") name))
  then let* id := parse_filename name in Ok (LManifest id)
  else
    let* p := ok_or (split_once DOT name) (Corrupt 0) in
    let* id := parse_hex (fst p) in
    if bytes_eqb (snd p) (ascii "pack") then Ok (LPack id)
    else if bytes_eqb (snd p) (ascii "dict") then Ok (LDictionary id)
    else if bytes_eqb (snd p) (ascii "pending") then Ok (LStaging id)
    else Err (Corrupt 0).

Definition parse_lease (name : bytes) : result StoreError LogicalKey :=
  match Segment.strip_suffix (ascii ".view") name with
  | Some id => let* id := parse_hex id in Ok (LManifest id)
  | None => logical_parse name
  end.

(** The keys named by the lease files of a directory that a reader holds. *)
Definition fold_held {K S} (parse : bytes -> result StoreError K) (step : S -> K -> result StoreError S)
    (acc : S) (leases : Leases) : result StoreError S :=
  let* entries := leases in
  mfold (fun acc e =>
    let* p := e in
    fail_if negb (from_utf8 (fst p)) with Corrupt 0 ;;
    let* k := parse (fst p) in
    match snd p with
    | Unheld => Ok acc
    | Held => step acc k
    | LeaseFailed e => Err e
    end) acc entries.

(** ** Retention roots *)

(** [u8::is_ascii_alphanumeric], a dash or an underscore. *)
Definition name_byte (c : Z) : bool :=
  ((48 <=? c) && (c <=? 57)) || ((65 <=? c) && (c <=? 90)) || ((97 <=? c) && (c <=? 122))
  || (c =? 45) || (c =? 95).

Definition RetentionName_new (name : bytes) : result StoreError bytes :=
  fail_if (zlen name =? 0) || (64 <? zlen name) || negb (forallb name_byte name)
    with InvalidConfiguration ;;
  Ok name.

Record DurablePin : Set := mkDurablePin {
  dp_name : bytes;
  dp_hash : Digest;
  dp_txid : Z;
  dp_database : Digest;
  dp_revision : Digest;
}.

#[export] Instance DurablePin_eq_dec : EqDecision DurablePin.
Proof. solve_decision. Defined.

Definition ROOT_MAGIC : bytes := ascii "ZROOT001".

Section Roots.
Context `{Hashes, ZstdLib, StorageBackend B}.

Definition encode_pin (pin : DurablePin) : bytes :=
  let b := ROOT_MAGIC ++ dp_database pin ++ dp_hash pin ++ u64_bytes (dp_txid pin) ++ dp_revision pin in
  b ++ blake3 b.

Definition decode_pin (name b : bytes) : result StoreError DurablePin :=
  fail_if negb (zlen b =? 144) || negb (bytes_eqb (slice b 0 8) ROOT_MAGIC) with Corrupt 0 ;;
  fail_if negb (bytes_eqb (blake3 (slice b 0 112)) (slice b 112 144)) with Corrupt 0 ;;
  let* txid := value (TransactionId_new (le_val (slice b 72 80))) in
  Ok (mkDurablePin name (slice b 40 72) txid (slice b 8 40) (slice b 80 112)).

Definition write_root (pin : DurablePin) : sm (CatalogGuard B) unit :=
  let! _ := smod (with_state (fun s =>
    set_retentions s (Index_insert (st_retentions s) (dp_name pin) (encode_pin pin)))) in
  publish_catalog.

Definition retention_root (s : State) (name : bytes) : result StoreError DurablePin :=
  let* b := ok_or (ix_entries (st_retentions s) !! name) Io in
  decode_pin name b.

Definition pin_retained (g : CatalogGuard B) (pin : DurablePin) : result StoreError (PinnedView B) :=
  let* id := resolve_parent (endpoint_rows (cg_state g)) (mkParentRef (dp_hash pin) (dp_txid pin)) [] in
  let* v := PinnedView_open g id in
  fail_if negb (bytes_eqb (vm_database (pn_view v)) (dp_database pin))
          || negb (vm_txid (pn_view v) =? dp_txid pin)
          || negb (bytes_eqb (logical_hash (pn_view v)) (dp_hash pin)) with IdentityMismatch ;;
  Ok v.

Definition retain (nonce : result StoreError Digest) (name : bytes) (same_catalog : bool)
    (id : Digest) (replace : bool) : sm (CatalogGuard B) DurablePin :=
  let! g := sget in
  let s := cg_state g in
  let! pin := slift (
    fail_if negb same_catalog with IdentityMismatch ;;
    let* validated := PinnedView_open g id in
    let exists_ := bool_decide (is_Some (ix_entries (st_retentions s) !! name)) in
    fail_if negb replace && exists_ with RetentionExists ;;
    let* _ := (if replace && exists_ then
                 let* previous := retention_root s name in
                 fail_if negb (bytes_eqb (dp_database previous) (vm_database (pn_view validated)))
                   with IdentityMismatch ;;
                 Ok tt
               else Ok tt) in
    let* revision := nonce in
    let pin := mkDurablePin name (logical_hash (pn_view validated)) (vm_txid (pn_view validated))
                 (vm_database (pn_view validated)) revision in
    let* _ := pin_retained g pin in
    Ok pin) in
  let! _ := write_root pin in
  sret pin.

Definition release (pin : DurablePin) : sm (CatalogGuard B) unit :=
  let! g := sget in
  let! current := slift (retention_root (cg_state g) (dp_name pin)) in
  sfail_if negb (bytes_eqb (dp_hash current) (dp_hash pin)) || negb (dp_txid current =? dp_txid pin)
           || negb (bytes_eqb (dp_database current) (dp_database pin))
           || negb (bytes_eqb (dp_revision current) (dp_revision pin)) with Busy ;;
  let! _ := smod (with_state (fun s => set_retentions s (Index_remove (st_retentions s) (dp_name pin)))) in
  publish_catalog.

Definition root_names (s : State) : result StoreError (list bytes) :=
  mmap (fun p => fail_if negb (from_utf8 (fst p)) with Corrupt 0 ;; RetentionName_new (fst p))
    (sorted_list (ix_entries (st_retentions s))).

(** ** Tracing *)

Definition deps (v : PinnedView B) : gset LogicalKey :=
  list_to_set (dependencies (pn_metadata v) (pn_id v)).

(** The view of the active file at the database path, if it is based on one. *)
Definition active_view (l : Local) (g : CatalogGuard B) : result StoreError (option (PinnedView B)) :=
  match lo_active l with
  | None => Ok None
  | Some file =>
      let* encoded := read_exact_at file 0 ACTIVE_HEADER_SIZE in
      let* header := format (ActiveHeader_decode encoded) in
      let* _ := validate_attachment l (cg_state g) header in
      if bytes_eqb (ah_parent_physical_digest header) ZERO_DIGEST then Ok None
      else
        let* v := PinnedView_open g (ah_parent_physical_digest header) in
        let* _ := validate_descriptor (cg_state g) header v in
        Ok (Some v)
  end.

(** The header names another base than the sealed and pending ones of this head. *)
Definition foreign_to (current : option ActiveHeader) (header : ActiveHeader) : bool :=
  match current with
  | None => true
  | Some c => negb (bytes_eqb (ah_parent_physical_digest c) (ah_parent_physical_digest header))
  end.

Definition trace_header (g : CatalogGuard B) (acc : gset LogicalKey * gset LogicalKey) (header : ActiveHeader)
    : result StoreError (gset LogicalKey * gset LogicalKey) :=
  let* v := PinnedView_open g (ah_parent_physical_digest header) in
  let* _ := validate_descriptor (cg_state g) header v in
  Ok (deps v ∪ fst acc,
      if foreign_to (st_sealed (cg_state g)) header && foreign_to (st_pending (cg_state g)) header
      then deps v ∪ snd acc else snd acc).

Definition trace_root (g : CatalogGuard B) (named : gset LogicalKey) (name : bytes)
    : result StoreError (gset LogicalKey) :=
  let* pin := retention_root (cg_state g) name in
  let* v := pin_retained g pin in
  Ok (deps v ∪ named).

Definition trace_reader (g : CatalogGuard B) (live : gset LogicalKey) (id : Digest)
    : result StoreError (gset LogicalKey) :=
  let* v := PinnedView_open g id in
  Ok (deps v ∪ live).

Definition head_headers (h : Head) : list ActiveHeader :=
  option_list (hd_sealed h) ++ option_list (hd_pending h).

(** Live, current and named logical objects. *)
Definition trace_logical (l : Local) (g : CatalogGuard B)
    : result StoreError (gset LogicalKey * gset LogicalKey * gset LogicalKey) :=
  let* active := active_view l g in
  let current := match active with Some v => deps v | None => ∅ end in
  let* heads := all_heads (cg_state g) in
  let* p := mfold (trace_header g) (current, ∅) (concat (map head_headers heads)) in
  let* names := root_names (cg_state g) in
  let* named := mfold (trace_root g) (snd p) names in
  let* live := fold_held parse_hex (trace_reader g) (fst p ∪ named) (lo_readers l) in
  let* live := fold_held parse_lease (fun live k => Ok ({[k]} ∪ live)) live (lo_object_readers l) in
  Ok (live, current, named).

Definition pack_of (k : LogicalKey) : option Digest :=
  match k with LPack id => Some id | _ => None end.

Definition logical_list (keys : gset LogicalKey) : list LogicalKey := isort logical_leb (elements keys).

Definition reachable_packs (l : Local) (g : CatalogGuard B) : result StoreError (list Digest) :=
  let* p := trace_logical l g in
  Ok (omap pack_of (logical_list (p.1.1))).

(** [retain] of [retained_packs_except]: the packs of a manifest. *)
Definition retain_packs (g : CatalogGuard B) (acc : gset (list Z)) (id : Digest)
    : result StoreError (gset (list Z)) :=
  let* m := load_metadata (cg_backend g) (endpoint_rows (cg_state g)) id in
  Ok (list_to_set (omap pack_of (dependencies m id)) ∪ acc).

Definition retain_head (g : CatalogGuard B) (acc : gset (list Z)) (e : list Z * bytes)
    : result StoreError (gset (list Z)) :=
  if bytes_eqb (fst e) (st_selected (cg_state g)) then Ok acc
  else
    let* head := Head_decode (snd e) (st_database (cg_state g)) in
    mfold (fun acc h => retain_packs g acc (ah_parent_physical_digest h)) acc (head_headers head).

Definition retain_reader (g : CatalogGuard B) (current : Digest) (acc : gset (list Z))
    (e : result StoreError (bytes * Lease)) : result StoreError (gset (list Z)) :=
  let* p := e in
  fail_if negb (from_utf8 (fst p)) with Corrupt 0 ;;
  let* id := parse_hex (fst p) in
  if bytes_eqb id current then Ok acc
  else match snd p with
       | Unheld => Ok acc
       | Held => retain_packs g acc id
       | LeaseFailed e => Err e
       end.

Definition retained_packs_except (l : Local) (g : CatalogGuard B) (current : Digest)
    : result StoreError (gset (list Z)) :=
  let* names := root_names (cg_state g) in
  let* packs := mfold (fun acc name =>
    let* pin := retention_root (cg_state g) name in
    let* v := pin_retained g pin in
    retain_packs g acc (pn_id v)) ∅ names in
  let* packs := mfold (retain_head g) packs (sorted_list (ix_entries (st_heads (cg_state g)))) in
  let* entries := lo_readers l in
  mfold (retain_reader g current) packs entries.
End Roots.

(** ** Estimates (src/src/storage/repack.rs) *)

(** [+=] on a [u64]: it wraps in a release build. *)
Definition add_u64 (a b : Z) : Z := (a + b) mod 2 ^ 64.

Record RepackPlan : Set := mkPlan {
  rp_frame_bytes : Z;
  rp_live_record_bytes : Z;
  rp_partial_obsolete_bytes : Z;
  rp_live_frame_decoded_bytes : Z;
}.

Definition plan_reclaimable (p : RepackPlan) : Z :=
  add_u64 (rp_frame_bytes p - rp_live_record_bytes p) (rp_partial_obsolete_bytes p).

Section Collector.
Context `{Hashes, ZstdLib, StorageBackend B, Collectable B}.

Definition live_slots (v : ViewMetadata) (frame : FrameMetadata) : Z :=
  zlen (List.filter (fun version => is_live v version (fm_id frame)) (fm_pages frame)).

Definition plan_frame (v : PinnedView B) (plans : gmap (list Z) RepackPlan) (location : FrameLocation)
    : result StoreError (gmap (list Z) RepackPlan) :=
  let* length := pin_length (pn_placement v) (fl_pack location) in
  let* frame_bytes := ok_or (checked_sub length HEADER_SIZE) (Corrupt 0) in
  let plan := default (mkPlan frame_bytes 0 0 0) (plans !! fl_pack location) in
  let frame := fl_metadata location in
  let* n := range (checked_add 36 (encoded_len frame)) in
  let* n := range (checked_add n FRAME_HEADER_SIZE) in
  let* record_bytes := range (checked_add n (fm_payload_bytes frame)) in
  let* live_bytes := range (checked_add (rp_live_record_bytes plan) record_bytes) in
  fail_if rp_frame_bytes plan <? live_bytes with Corrupt 0 ;;
  let pages := fs_pages (fm_shape frame) in
  let* scaled := range (checked_mul record_bytes (pages - live_slots (pn_view v) frame)) in
  let partial := add_u64 (rp_partial_obsolete_bytes plan) (scaled / pages) in
  let* live_decoded := range (checked_add (rp_live_frame_decoded_bytes plan) (decoded (fm_shape frame))) in
  Ok (<[fl_pack location := mkPlan (rp_frame_bytes plan) live_bytes partial live_decoded]> plans).

Definition plans (v : PinnedView B) : result StoreError (list (Digest * RepackPlan)) :=
  let* m := mfold (plan_frame v) ∅ (map snd (sorted_list (vm_frames (pn_view v)))) in
  Ok (sorted_list m).

Definition estimated_obsolete_bytes (v : PinnedView B) : result StoreError Z :=
  let* ps := plans v in
  mfold (fun total p => range (checked_add total (plan_reclaimable (snd p)))) 0 ps.

(** ** The inventory of a catalog *)

Definition PAGE_OF_KEYS : Z := 4096.

Definition list_keys (acc : option ObjectKey * gset ObjectKey) (key : ObjectKey)
    : result StoreError (option ObjectKey * gset ObjectKey) :=
  fail_if match fst acc with Some after => key_leb key after | None => false end
          || bool_decide (key ∈ snd acc) with Corrupt 0 ;;
  Ok (Some key, {[key]} ∪ snd acc).

(** [None] is out of fuel. *)
Fixpoint inventory_loop (fuel : nat) (b : B) (acc : option ObjectKey * gset ObjectKey)
    : option (result StoreError (gset ObjectKey)) :=
  match fuel with
  | O => None
  | S fuel' =>
      match backend (backend_inventory b (fst acc) PAGE_OF_KEYS) with
      | Err e => Some (Err e)
      | Ok [] => Some (Ok (snd acc))
      | Ok batch =>
          if PAGE_OF_KEYS <? zlen batch then Some (Err Range)
          else match mfold list_keys acc batch with
               | Err e => Some (Err e)
               | Ok acc => inventory_loop fuel' b acc
               end
      end
  end.

(** Every round but the last finds a stored key that no earlier one did. *)
Definition inventory (b : B) : result StoreError (gset ObjectKey) :=
  match inventory_loop (S (size (contents b))) b (None, ∅) with
  | Some r => r
  | None => Err Range
  end.

Definition key_list (keys : gset ObjectKey) : list ObjectKey := isort key_leb (elements keys).

(** ** Deletion sessions *)

Record GcSession : Type := mkSession { gs_live : gset ObjectKey; gs_issued : gset ObjectKey }.

Definition permit (s : GcSession) (key : ObjectKey) : option GcSession :=
  if bool_decide (key ∈ gs_live s) || bool_decide (key ∈ gs_issued s) then None
  else Some (mkSession (gs_live s) ({[key]} ∪ gs_issued s)).

Definition delete_object (key : ObjectKey) : sm (CatalogGuard B) unit := fun g =>
  let '(r, b) := backend_delete (cg_backend g) key in (backend r, mkGuard b (cg_state g)).

(** ** Collection *)

Definition index_objects (s : State) : gset ObjectKey :=
  list_to_set (map Backend.Index (concat (map (fun ix => elements (ix_objects ix))
    [st_placements s; st_endpoints s; st_retentions s; st_advisory s; st_heads s]))).

(** The state is read again from the root; a root that moved makes the guard stale. *)
Definition reload_state : sm (CatalogGuard B) unit :=
  let! g := sget in
  sfail_if st_uncertain (cg_state g) with Domain.Backend BUncertain ;;
  let! reloaded := slift (load_for (cg_backend g) (st_selected (cg_state g))) in
  sfail_if negb (bool_decide (st_revision reloaded = st_revision (cg_state g))) with Domain.Backend BStale ;;
  smod (with_state (fun _ => reloaded)).

Definition blob_of (r : Representation) : ObjectKey := Blob (be_blob (rp_extent r)).

(** The physical object of a logical one, authenticated, and the other representations of a
    pack, which an undecided head may still need. *)
Definition physical_of (g : CatalogGuard B) (uncertain_heads : bool) (key : LogicalKey)
    : result StoreError (ObjectKey * gset ObjectKey) :=
  let b := cg_backend g in
  match key with
  | LManifest id => let* _ := read_manifest b id OBJECT_LIMIT in Ok (Manifest id, ∅)
  | LDictionary id =>
      let* _ := validate_dictionary b id MAX_DICTIONARY_BYTES in Ok (Dictionary id, ∅)
  | LPack pack =>
      let* p := placement (cg_state g) pack in
      let* r := ok_or (preferred p) (Corrupt 0) in
      let* n := backend (stat b (blob_of r)) in
      let* length := ok_or n (Domain.Backend BMissing) in
      fail_if negb (length =? be_blob_length (rp_extent r)) with Corrupt 0 ;;
      Ok (blob_of r, if uncertain_heads then list_to_set (map blob_of (pl_representations p)) else ∅)
  | LStaging _ => Err (Corrupt 0)
  end.

Record Marks : Type := mkMarks {
  mk_physical : gset ObjectKey;
  mk_current : gset ObjectKey;
  mk_named : gset ObjectKey;
}.

Definition mark (g : CatalogGuard B) (uncertain_heads : bool) (current named : gset LogicalKey)
    (m : Marks) (key : LogicalKey) : result StoreError Marks :=
  let* p := physical_of g uncertain_heads key in
  let '(object, others) := p in
  Ok (mkMarks ({[object]} ∪ others ∪ mk_physical m)
        (if bool_decide (key ∈ current) then {[object]} ∪ mk_current m else mk_current m)
        (if bool_decide (key ∈ named) then {[object]} ∪ mk_named m else mk_named m)).

(** Every marked object exists, and leased index objects are authentic. *)
Definition check_marked (b : B) (inventory leased : gset ObjectKey) (key : ObjectKey)
    : result StoreError unit :=
  fail_if negb (bool_decide (key ∈ inventory)) with Domain.Backend BMissing ;;
  let* n := backend (stat b key) in
  fail_if bool_decide (n = None) with Domain.Backend BMissing ;;
  match key with
  | Backend.Index id =>
      if bool_decide (key ∈ leased) then
        let* v := read_all b key INDEX_LIMIT in
        fail_if negb (bytes_eqb (blake3 v) id) with Corrupt 0 ;;
        Ok tt
      else Ok tt
  | _ => Ok tt
  end.

Definition decode_placement (e : list Z * bytes) : result StoreError Placements :=
  fail_if negb (zlen (fst e) =? 32) with Corrupt 0 ;;
  Placements_decode (fst e) (snd e).

Definition check_representation (b : B) (physical : gset ObjectKey) (r : Representation)
    : result StoreError unit :=
  if bool_decide (blob_of r ∈ physical) then
    let* n := backend (stat b (blob_of r)) in
    fail_if negb (bool_decide (n = Some (be_blob_length (rp_extent r)))) with Corrupt 0 ;;
    Ok tt
  else Ok tt.

(** Bytes of dead packs inside blobs that stay. *)
Record Dead : Type := mkDead {
  de_extents : gset (list Z * Z * Z);
  de_packs : Z;
  de_bytes : Z;
}.

Definition dead_extent (physical : gset ObjectKey) (d : Dead) (r : Representation) : Dead :=
  let e := rp_extent r in
  let x := (be_blob e, be_offset e, be_length e) in
  if bool_decide (blob_of r ∈ physical) && negb (bool_decide (x ∈ de_extents d))
  then mkDead ({[x]} ∪ de_extents d) (de_packs d) (saturating_add (de_bytes d) (be_length e))
  else d.

Definition scan_placement (b : B) (physical : gset ObjectKey) (logical : gset LogicalKey) (d : Dead)
    (e : list Z * bytes) : result StoreError Dead :=
  let* p := decode_placement e in
  let* _ := mmap (check_representation b physical) (pl_representations p) in
  Ok (if bool_decide (LPack (fst e) ∈ logical) then d
      else fold_left (dead_extent physical) (pl_representations p)
             (mkDead (de_extents d) (de_packs d + 1) (de_bytes d))).

Record Tally : Type := mkTally {
  ta_current : Z;
  ta_retained : Z;
  ta_fork : Z;
  ta_reader : Z;
  ta_uncertain : Z;
  ta_collectible : Z;
  ta_blobs : Z;
  ta_blob_bytes : Z;
  ta_deletable : list (ObjectKey * Z);
}.

Definition is_blob (k : ObjectKey) : bool := match k with Blob _ => true | _ => false end.

Definition tally_kept (m : Marks) (leased : gset ObjectKey) (uncertain_heads : bool) (key : ObjectKey)
    (length : Z) (t : Tally) : Tally :=
  let named := bool_decide (key ∈ mk_named m) in
  let lease := bool_decide (key ∈ leased) in
  mkTally (ta_current t) (add_u64 (ta_retained t) length)
    (if named then add_u64 (ta_fork t) length else ta_fork t)
    (if negb named && lease then add_u64 (ta_reader t) length else ta_reader t)
    (if negb named && negb lease && uncertain_heads then add_u64 (ta_uncertain t) length else ta_uncertain t)
    (ta_collectible t) (ta_blobs t) (ta_blob_bytes t) (ta_deletable t).

Definition tally_dead (budget : Z) (key : ObjectKey) (length : Z) (t : Tally) : Tally :=
  mkTally (ta_current t) (ta_retained t) (ta_fork t) (ta_reader t) (ta_uncertain t)
    (add_u64 (ta_collectible t) length)
    (if is_blob key then ta_blobs t + 1 else ta_blobs t)
    (if is_blob key then saturating_add (ta_blob_bytes t) length else ta_blob_bytes t)
    (if zlen (ta_deletable t) <? budget then ta_deletable t ++ [(key, length)] else ta_deletable t).

Definition classify (b : B) (m : Marks) (leased : gset ObjectKey) (uncertain_heads : bool) (budget : Z)
    (t : Tally) (key : ObjectKey) : result StoreError Tally :=
  let* n := backend (stat b key) in
  let* length := ok_or n (Domain.Backend BMissing) in
  Ok (if bool_decide (key ∈ mk_current m) then
        mkTally (add_u64 (ta_current t) length) (ta_retained t) (ta_fork t) (ta_reader t) (ta_uncertain t)
          (ta_collectible t) (ta_blobs t) (ta_blob_bytes t) (ta_deletable t)
      else if bool_decide (key ∈ mk_physical m) then tally_kept m leased uncertain_heads key length t
      else tally_dead budget key length t).

Record GcReport : Type := mkReport {
  gr_tally : Tally;
  gr_objects : Z;
  gr_dead : Dead;
  gr_partially_obsolete_bytes : Z;
  gr_deleted_objects : Z;
  gr_deleted_bytes : Z;
}.

(** What the current view could reclaim by repacking, when there is one. *)
Definition obsolete_estimate (l : Local) (g : CatalogGuard B) (current : gset LogicalKey)
    : result StoreError Z :=
  match list_find (fun k => logical_rank k = 0) (logical_list current) with
  | None => Ok 0
  | Some (_, first) =>
      let* file := ok_or (lo_active l) Io in
      let* encoded := read_exact_at file 0 ACTIVE_HEADER_SIZE in
      let* header := format (ActiveHeader_decode encoded) in
      let id := if bytes_eqb (ah_parent_physical_digest header) ZERO_DIGEST
                then logical_id first else ah_parent_physical_digest header in
      let* v := PinnedView_open g id in
      estimated_obsolete_bytes v
  end.

(** Everything before the first change: what is live, what may go, and the report so far. *)
Record Plan : Type := mkGcPlan {
  gp_logical : gset LogicalKey;
  gp_physical : gset ObjectKey;
  gp_report : GcReport;
}.

Definition plan_collection (l : Local) (g : CatalogGuard B) (budget : Z) : result StoreError Plan :=
  let b := cg_backend g in
  let s := cg_state g in
  let* traced := trace_logical l g in
  let '(logical, current, named) := traced in
  let* uncertain_heads := Catalog.has_pending s in
  let* keys := inventory b in
  let* leased := fold_held (fun name => backend (ObjectKey_parse name))
                   (fun acc k => Ok ({[k]} ∪ acc)) ∅ (lo_physical_readers l) in
  let* m := mfold (mark g uncertain_heads current named) (mkMarks (leased ∪ index_objects s) ∅ ∅)
              (logical_list logical) in
  let* _ := mmap (check_marked b keys leased) (key_list (mk_physical m)) in
  let* dead := mfold (scan_placement b (mk_physical m) logical) (mkDead ∅ 0 0)
                 (sorted_list (ix_entries (st_placements s))) in
  let* t := mfold (classify b m leased uncertain_heads budget)
              (mkTally 0 0 0 0 0 0 0 0 []) (key_list keys) in
  let* estimate := obsolete_estimate l g current in
  Ok (mkGcPlan logical (mk_physical m)
        (mkReport t (Z.of_nat (size keys)) dead (add_u64 (de_bytes dead) estimate) 0 0)).

Definition retire_endpoint (s : State) (e : ObjectKey * Z) : State :=
  match fst e with
  | Manifest id => set_endpoints s (Index_remove (st_endpoints s) id)
  | _ => s
  end.

Definition retire_placement (deleting : gset ObjectKey) (logical : gset LogicalKey) (e : list Z * bytes)
    : sm (CatalogGuard B) unit :=
  let! p := slift (decode_placement e) in
  match List.filter (fun r => negb (bool_decide (blob_of r ∈ deleting))) (pl_representations p) with
  | [] =>
      sfail_if bool_decide (LPack (fst e) ∈ logical) with Corrupt 0 ;;
      smod (with_state (fun s => set_placements s (Index_remove (st_placements s) (fst e))))
  | kept =>
      smod (with_state (fun s => set_placements s (Index_insert (st_placements s) (fst e)
        (Placements_encode (mkPlacements (pl_pack p) (pl_length p) (pl_cohort p) kept)))))
  end.

(** The deletion loop; a key that became live again is skipped. *)
Fixpoint delete_all (session : GcSession) (deletable : list (ObjectKey * Z)) (count freed : Z)
    : sm (CatalogGuard B) (Z * Z) :=
  match deletable with
  | [] => sret (count, freed)
  | (key, length) :: rest =>
      match permit session key with
      | None => delete_all session rest count freed
      | Some session =>
          let! _ := delete_object key in
          delete_all session rest (count + 1) (add_u64 freed length)
      end
  end.

Definition collect (l : Local) (budget : Z) : sm (CatalogGuard B) GcReport :=
  let! _ := reload_state in
  let! g := sget in
  let! plan := slift (plan_collection l g budget) in
  let report := gp_report plan in
  let deletable := ta_deletable (gr_tally report) in
  if bool_decide (deletable = []) then sret report
  else
    let placements := sorted_list (ix_entries (st_placements (cg_state g))) in
    let! _ := smod (with_state (fun s => fold_left retire_endpoint deletable s)) in
    let! _ := sfold (retire_placement (list_to_set (map fst deletable)) (gp_logical plan)) placements in
    let! _ := publish_catalog in
    let! g := sget in
    let live := gp_physical plan ∪ index_objects (cg_state g) in
    let! deleted := delete_all (mkSession live ∅) deletable 0 0 in
    sret (mkReport (gr_tally report) (gr_objects report) (gr_dead report)
            (gr_partially_obsolete_bytes report) (fst deleted) (snd deleted)).

(** ** Destruction *)

Definition validate_base (g : CatalogGuard B) (header : ActiveHeader) : result StoreError unit :=
  let* v := PinnedView_open g (ah_parent_physical_digest header) in
  validate_descriptor (cg_state g) header v.

Fixpoint delete_inventory (session : GcSession) (keys : list ObjectKey) : sm (CatalogGuard B) unit :=
  match keys with
  | [] => sret tt
  | key :: rest =>
      match permit session key with
      | None => serr (Corrupt 0)
      | Some session => let! _ := delete_object key in delete_inventory session rest
      end
  end.

Definition State_default (revision : option (list Z)) : State :=
  mkState revision None None None None Index_default Index_default Index_default Index_default
    false Index_default [].

Definition destroy (l : Local) (header : ActiveHeader) : sm (CatalogGuard B) unit :=
  let! g := sget in
  let s := cg_state g in
  let! keys := slift (
    let* names := root_names s in
    fail_if negb (zlen names =? 0) || (1 <? Z.of_nat (size (ix_entries (st_heads s)))) with Busy ;;
    let* _ := match st_database s with
              | None => Ok tt
              | Some _ =>
                  let* _ := validate_attachment l s header in
                  let headers :=
                    (if bytes_eqb (ah_parent_physical_digest header) ZERO_DIGEST then [] else [header])
                    ++ option_list (st_sealed s) ++ option_list (st_pending s) in
                  let* _ := mmap (validate_base g) headers in
                  Ok tt
              end in
    inventory (cg_backend g)) in
  let! _ := smod (with_state (fun s => State_default (st_revision s))) in
  let! _ := publish_catalog in
  delete_inventory (mkSession ∅ ∅) (key_list keys).
End Collector.
