(* ===== verification/RetentionTrace.v ===== *)
(** What the collector must keep, apart from how it finds it: the rooted views and leases, the
    objects they are stored in, and the proof that the trace finds exactly these. The inventory of
    a backend is its set of keys, and listing it terminates. *)

From S2P Require Import Prelude Domain Layout Format Wire Segment Frame Pack Backend CatalogIndex Catalog Placement View ViewProofs Manifest ManifestProofs Active Store StoreProofs Sealed SealedProofs Seal Retention.
From stdpp Require Import base strings gmap list sorting.
From Stdlib Require Import ZArith Lia.
Open Scope Z_scope.

(** ** The order of keys *)

Lemma key_compare_eq a b : key_compare a b = Eq -> a = b.
Proof.
  unfold key_compare. destruct (Z.compare_spec (key_rank a) (key_rank b)) as [Hr| |]; [|done..].
  intros E. apply digest_compare_eq in E. destruct a, b; cbn in *; subst; done.
Qed.

Lemma key_compare_antisym a b : key_compare b a = CompOpp (key_compare a b).
Proof.
  unfold key_compare. rewrite (Z.compare_antisym (key_rank a) (key_rank b)).
  destruct (key_rank a ?= key_rank b); cbn; [|done..]. apply digest_compare_antisym.
Qed.

Lemma key_ltb_lt a b : key_ltb a b = true <-> key_compare a b = Lt.
Proof. unfold key_ltb. destruct (key_compare a b); naive_solver. Qed.

Lemma key_ltb_irrefl a : key_ltb a a = false.
Proof. unfold key_ltb, key_compare. by rewrite Z.compare_refl, digest_compare_refl. Qed.

Lemma key_ltb_trans a b c : key_ltb a b = true -> key_ltb b c = true -> key_ltb a c = true.
Proof.
  rewrite !key_ltb_lt. unfold key_compare.
  destruct (Z.compare_spec (key_rank a) (key_rank b)), (Z.compare_spec (key_rank b) (key_rank c)); intros E1 E2;
    try done.
  - replace (key_rank a ?= key_rank c) with Eq by (symmetry; apply Z.compare_eq_iff; lia).
    by eapply digest_compare_lt_trans.
  - by replace (key_rank a ?= key_rank c) with Lt by (symmetry; apply Z.compare_lt_iff; lia).
  - by replace (key_rank a ?= key_rank c) with Lt by (symmetry; apply Z.compare_lt_iff; lia).
  - by replace (key_rank a ?= key_rank c) with Lt by (symmetry; apply Z.compare_lt_iff; lia).
Qed.

Lemma key_leb_ltb a b : key_leb a b = negb (key_ltb b a).
Proof. unfold key_leb, key_ltb. rewrite (key_compare_antisym a b). by destruct (key_compare a b). Qed.

Lemma key_trichotomy a b : key_ltb a b = true \/ a = b \/ key_ltb b a = true.
Proof.
  rewrite !key_ltb_lt, (key_compare_antisym a b). destruct (key_compare a b) eqn:E; cbn; auto.
  right. left. by apply key_compare_eq.
Qed.

Lemma key_leb_total a b : key_leb a b = true \/ key_leb b a = true.
Proof. rewrite !key_leb_ltb. destruct (key_trichotomy a b) as [E|[->|E]].
  - left. rewrite negb_true_iff. apply not_true_iff_false. intros E2. pose proof (key_ltb_trans _ _ _ E E2).
    by rewrite key_ltb_irrefl in *.
  - left. by rewrite key_ltb_irrefl.
  - right. rewrite negb_true_iff. apply not_true_iff_false. intros E2. pose proof (key_ltb_trans _ _ _ E E2).
    by rewrite key_ltb_irrefl in *.
Qed.

Lemma key_leb_trans a b c : key_leb a b = true -> key_leb b c = true -> key_leb a c = true.
Proof.
  rewrite !key_leb_ltb, !negb_true_iff. intros E1 E2. apply not_true_iff_false. intros E3.
  destruct (key_trichotomy a b) as [E|[->|E]]; [|congruence..].
  by rewrite (key_ltb_trans _ _ _ E3 E) in E2.
Qed.

Abbreviation key_lt := (fun x y => key_ltb x y = true).

#[local] Instance key_lt_trans : Transitive key_lt.
Proof. intros x y z. apply key_ltb_trans. Qed.

(** The greatest key of an increasing list is its last. *)
Lemma sorted_last keys l k : StronglySorted key_lt keys -> last keys = Some l -> k ∈ keys -> k = l \/ key_ltb k l = true.
Proof.
  induction 1 as [|x keys Hs IH Hx]; intros Hl Hk; [done|]. rewrite last_cons in Hl.
  destruct (last keys) as [y|] eqn:Ey.
  - injection Hl as ->. apply elem_of_cons in Hk as [->|Hk]; [|by apply IH].
    right. rewrite Forall_forall in Hx. apply Hx. by apply last_Some_elem_of.
  - injection Hl as ->. apply last_None in Ey. subst keys. apply list_elem_of_singleton in Hk. by left.
Qed.

(** ** Generic folds *)

(** A fold that adds a set per element ends with the union of the sets. *)
Lemma mfold_union {E A S K} `{Countable K} (get : S -> gset K) (step : A -> gset K -> Prop)
    (f : S -> A -> result E S) l s s' :
  mfold f s l = Ok s' ->
  (forall s a s', f s a = Ok s' -> exists X, step a X /\ get s' = X ∪ get s) ->
  (forall a, a ∈ l -> exists X, step a X /\ X ⊆ get s') /\ get s ⊆ get s' /\
  (forall k, k ∈ get s' -> k ∈ get s \/ exists a X, a ∈ l /\ step a X /\ k ∈ X).
Proof.
  intros Hm Hf. revert s Hm. induction l as [|a l IH]; intros s Hm; cbn in Hm.
  - injection Hm as <-. split_and!; [intros a Ha; by apply elem_of_nil in Ha|done|by left].
  - apply rbind_Ok in Hm as (s1 & H1 & H2). apply Hf in H1 as (X & HX & Eq).
    destruct (IH s1 H2) as (I1 & I2 & I3). split_and!; [|set_solver|].
    + intros a' [->|Ha]%elem_of_cons; [exists X; set_solver|by apply I1].
    + intros k Hk. destruct (I3 k Hk) as [Hk1|(a' & X' & Ha' & HX' & Hk')]; [|right; exists a', X'; set_solver].
      rewrite Eq in Hk1. apply elem_of_union in Hk1 as [Hk1|]; [right; exists a, X; set_solver|by left].
Qed.

(** ** The inventory *)

Section Inventory.
Context {B : Type} {SB : StorageBackend B} {CB : Collectable B} {CL : CollectableLaws B}.

(** The keys listed so far are those stored up to [after]. *)
Definition listed (b : B) (acc : option ObjectKey * gset ObjectKey) : Prop :=
  forall k, k ∈ snd acc <-> is_Some (contents b !! k) /\ after_key (fst acc) k = false.

Lemma list_keys_acc batch acc acc' :
  mfold list_keys acc batch = Ok acc' -> fst acc' = default (fst acc) (Some <$> last batch) /\
  snd acc' = list_to_set batch ∪ snd acc.
Proof.
  revert acc. induction batch as [|k batch IH]; intros acc E; cbn in E; [injection E as <-; split; [done|set_solver]|].
  apply rbind_Ok in E as (a1 & E1 & E2). unfold list_keys in E1. inv_ok. subst a1.
  apply IH in E2 as [F1 F2]. cbn in *. rewrite F1, F2. split; [|set_solver].
  rewrite last_cons. by destruct (last batch).
Qed.

Lemma inventory_batch b acc batch acc' :
  listed b acc -> batch <> [] -> backend_inventory b (fst acc) PAGE_OF_KEYS = Ok batch ->
  mfold list_keys acc batch = Ok acc' ->
  listed b acc' /\ (size (snd acc) < size (snd acc'))%nat.
Proof.
  intros Hl Hne Hb Hf. apply inventory_exact in Hb as (Hs & _ & Hin & Hall); [|done].
  apply Sorted_StronglySorted in Hs; [|apply _].
  apply list_keys_acc in Hf as [F1 F2]. destruct (last batch) as [x|] eqn:Ex; [|by apply last_None in Ex].
  cbn in F1. pose proof (last_Some_elem_of _ _ Ex) as Hx. destruct (Hin x Hx) as [Hxs Hxa].
  assert (forall k, k ∈ batch -> key_ltb x k = false) as Hmax.
  { intros k Hk. destruct (sorted_last _ _ _ Hs Ex Hk) as [->|Hlt]; [apply key_ltb_irrefl|].
    apply not_true_iff_false. intros E. pose proof (key_ltb_trans _ _ _ Hlt E) as E2. by rewrite key_ltb_irrefl in E2. }
  split.
  - intros k. rewrite F1, F2. cbn [after_key]. rewrite elem_of_union, elem_of_list_to_set, (Hl k). split.
    + intros [Hk|[Hk1 Hk2]]; [split; [by apply Hin|by apply Hmax]|]. split; [done|].
      apply not_true_iff_false. intros E. destruct (fst acc) as [a|]; cbn in *; [|done].
      by rewrite (key_ltb_trans _ _ _ Hxa E) in Hk2.
    + intros [Hk1 Hk2]. destruct (after_key (fst acc) k) eqn:Ea; [|by right]. left.
      destruct (Hall k Hk1 Ea) as [|(y & [= <-] & Hyk)]; [done|]. congruence.
  - rewrite F2. apply subset_size. split; [set_solver|]. intros Hsub.
    assert (x ∈ snd acc) as Hxin by set_solver. apply Hl in Hxin as [_ Hxf]. congruence.
Qed.

(** The inventory is the set of stored keys, and the loop finishes: no fuel runs out. *)
Lemma inventory_loop_lemma fuel b acc :
  listed b acc -> (size (contents b) < size (snd acc) + fuel)%nat ->
  exists r, inventory_loop fuel b acc = Some r /\ forall keys, r = Ok keys -> keys = dom (contents b).
Proof.
  revert acc. induction fuel as [|fuel IH]; intros acc Hl Hf.
  - exfalso. assert (snd acc ⊆ dom (contents b)) as Hsub.
    { intros k Hk. apply Hl in Hk as [Hk _]. by apply elem_of_dom. }
    apply subseteq_size in Hsub. rewrite size_dom in Hsub. lia.
  - cbn [inventory_loop]. destruct (backend_inventory b (fst acc) PAGE_OF_KEYS) as [batch|e] eqn:Eb; cbn [backend map_err];
      [|eexists; split; [done|]; naive_solver].
    destruct batch as [|k0 batch0].
    + eexists. split; [done|]. intros keys [= <-]. apply set_eq. intros k. rewrite (Hl k), elem_of_dom. split; [naive_solver|].
      intros Hk. split; [done|]. destruct (after_key (fst acc) k) eqn:Ea; [|done].
      apply inventory_exact in Eb as (_ & _ & _ & Hall); [|done]. destruct (Hall k Hk Ea) as [Hn|(l & Hn & _)]; [by apply elem_of_nil in Hn|done].
    + destruct (PAGE_OF_KEYS <? _); [eexists; split; [done|]; naive_solver|].
      destruct (mfold list_keys acc (k0 :: batch0)) as [acc'|e] eqn:Ef; [|eexists; split; [done|]; naive_solver].
      destruct (inventory_batch b acc (k0 :: batch0) acc' Hl ltac:(done) Eb Ef) as [Hl' Hsz]. apply IH; [done|lia].
Qed.

Lemma inventory_lemma b keys : inventory b = Ok keys -> keys = dom (contents b).
Proof.
  unfold inventory. intros E. destruct (inventory_loop_lemma (S (size (contents b))) b (None, ∅)) as (r & Er & Hr).
  - intros k. cbn. split; [set_solver|]. by intros [_ ?].
  - cbn. rewrite size_empty. lia.
  - rewrite Er in E. by apply Hr.
Qed.
End Inventory.

(** A prefix of an increasing list leaves out only keys past its last. *)
Lemma take_sorted_complete n keys k :
  StronglySorted key_lt keys -> (0 < n)%nat -> k ∈ keys ->
  k ∈ take n keys \/ exists l, last (take n keys) = Some l /\ key_ltb l k = true.
Proof.
  intros Hs Hn Hk. rewrite <- (take_drop n keys) in Hk. apply elem_of_app in Hk as [|Hk]; [by left|]. right.
  destruct (last (take n keys)) as [l|] eqn:El.
  - exists l. split; [done|]. apply last_Some_elem_of in El. rewrite <- (take_drop n keys) in Hs.
    revert Hs El. generalize (take n keys) as pre. induction pre as [|x pre IH]; intros Hs El; [by apply elem_of_nil in El|].
    inversion Hs as [|? ? Hs' Hx]; subst. apply elem_of_cons in El as [->|El]; [|by apply IH].
    rewrite Forall_forall in Hx. apply Hx. set_solver.
  - apply last_None in El. destruct keys; [by rewrite drop_nil in Hk; apply elem_of_nil in Hk|]. by destruct n; [lia|].
Qed.

Lemma key_list_sorted keys : StronglySorted key_lt (key_list keys).
Proof.
  unfold key_list. set (l := isort key_leb (elements keys)).
  assert (NoDup l) as Hn by (unfold l; rewrite (isort_perm key_leb); apply NoDup_elements).
  assert (StronglySorted (fun a b => key_leb a b = true) l) as Hs.
  { apply isort_sorted; [apply key_leb_total|]. apply key_leb_trans. }
  clearbody l. induction Hs as [|x l Hs IH Hx]; [constructor|]. apply NoDup_cons in Hn as [Hxl Hn].
  constructor; [by apply IH|]. rewrite Forall_forall in *. intros y Hy. specialize (Hx y Hy).
  rewrite key_leb_ltb in Hx. destruct (key_trichotomy x y) as [|[->|E]]; [done|done|]. by rewrite E in Hx.
Qed.

(** The in-memory backend lists and deletes as documented. *)
#[export] Instance Memory_collectable_laws : CollectableLaws MemoryBackend.
Proof.
  split; cbn [backend_inventory backend_delete contents root Memory_collectable Memory_backend].
  - intros b after limit keys Hlim E. unfold Memory_inventory in E. inv_ok. bools.
    fold (key_list (dom (mb_objects b))) in *.
    set (all := List.filter (after_key after) (key_list (dom (mb_objects b)))) in *.
    assert (forall k, k ∈ all <-> is_Some (mb_objects b !! k) /\ after_key after k = true) as Hall.
    { intros k. unfold all, key_list. rewrite list_elem_of_In, List.filter_In, <- list_elem_of_In.
      by rewrite (isort_perm key_leb), elem_of_elements, elem_of_dom. }
    assert (StronglySorted key_lt all) as Hs.
    { unfold all. generalize (key_list_sorted (dom (mb_objects b))). generalize (key_list (dom (mb_objects b))) as l.
      induction 1 as [|x l Hl IH Hx]; cbn [List.filter]; [constructor|]. destruct (after_key after x); [|done].
      constructor; [done|]. rewrite Forall_forall in *. intros y Hy. apply Hx.
      rewrite list_elem_of_In, List.filter_In, <- list_elem_of_In in Hy. naive_solver. }
    subst keys. split_and!.
    + apply StronglySorted_Sorted. clear Hall. revert Hs. generalize all as l. generalize (Z.to_nat limit) as n.
      induction n as [|n IH]; intros [|x l] Hs; cbn [take]; try constructor; inversion Hs as [|? ? Hl Hx]; subst;
        [by apply IH|].
      rewrite Forall_forall in *. intros y Hy. apply Hx. rewrite <- (take_drop n l). set_solver.
    + unfold zlen. rewrite length_take. lia.
    + intros k Hk. apply Hall. rewrite <- (take_drop (Z.to_nat limit) all). set_solver.
    + intros k Hk Ha. apply take_sorted_complete; [done|lia|by apply Hall].
  - intros b k b' E. unfold Memory_delete in E. by simplify_eq.
  - done.
Qed.

(** ** What is needed

    Reachability apart from the order in which the collector traces it. *)

Section Trace.
Context {HH : Hashes} {Z0 : ZstdLib} {B : Type} {SB : StorageBackend B}.

(** A reader holds the lease file [name]. *)
Definition held (leases : Leases) (name : bytes) : Prop :=
  exists entries, leases = Ok entries /\ Ok (name, Held) ∈ entries.

(** The views that must stay readable: the base of the active file, the sealed and pending bases
    of every branch head, the named retentions, and the views of live readers. *)
Inductive rooted (l : Local) (g : CatalogGuard B) : PinnedView B -> Prop :=
| rooted_active v : active_view l g = Ok (Some v) -> rooted l g v
| rooted_head name e h header v :
    ix_entries (st_heads (cg_state g)) !! name = Some e ->
    Head_decode e (st_database (cg_state g)) = Ok h -> header ∈ head_headers h ->
    PinnedView_open g (ah_parent_physical_digest header) = Ok v -> rooted l g v
| rooted_retention name e pin v :
    ix_entries (st_retentions (cg_state g)) !! name = Some e ->
    decode_pin name e = Ok pin -> pin_retained g pin = Ok v -> rooted l g v
| rooted_reader name id v :
    held (lo_readers l) name -> parse_hex name = Ok id -> PinnedView_open g id = Ok v -> rooted l g v.

Inductive live_key (l : Local) (g : CatalogGuard B) : LogicalKey -> Prop :=
| live_view v k : rooted l g v -> k ∈ deps v -> live_key l g k
| live_lease name k : held (lo_object_readers l) name -> parse_lease name = Ok k -> live_key l g k.

(** The object a logical key is stored in; a pack is read from its preferred representation. *)
Inductive stored_as (s : State) : LogicalKey -> ObjectKey -> Prop :=
| stored_manifest id : stored_as s (LManifest id) (Manifest id)
| stored_dictionary id : stored_as s (LDictionary id) (Dictionary id)
| stored_pack pack p r : placement s pack = Ok p -> preferred p = Some r -> stored_as s (LPack pack) (blob_of r).

Inductive needed (l : Local) (g : CatalogGuard B) : ObjectKey -> Prop :=
| needed_live k o : live_key l g k -> stored_as (cg_state g) k o -> needed l g o
| needed_lease name o : held (lo_physical_readers l) name -> ObjectKey_parse name = Ok o -> needed l g o
| needed_index o : o ∈ index_objects (cg_state g) -> needed l g o.

(** Another representation of a live pack, kept while some head is undecided. *)
Definition undecided (l : Local) (g : CatalogGuard B) (o : ObjectKey) : Prop :=
  Catalog.has_pending (cg_state g) = Ok true /\
  exists pack p r, live_key l g (LPack pack) /\ placement (cg_state g) pack = Ok p /\
    r ∈ pl_representations p /\ o = blob_of r.

(** *** Directories of leases *)

Lemma fold_held_union {K S A} `{Countable K} (get : S -> gset K) (adds : A -> gset K -> Prop)
    (parse : bytes -> result StoreError A) (step : S -> A -> result StoreError S) s leases s' :
  fold_held parse step s leases = Ok s' ->
  (forall s a s', step s a = Ok s' -> exists X, adds a X /\ get s' = X ∪ get s) ->
  get s ⊆ get s' /\
  (forall name a, held leases name -> parse name = Ok a -> exists X, adds a X /\ X ⊆ get s') /\
  (forall k, k ∈ get s' -> k ∈ get s \/
     exists name a X, held leases name /\ parse name = Ok a /\ adds a X /\ k ∈ X).
Proof.
  intros E Hstep. unfold fold_held in E. destruct leases as [entries|]; [|done]. cbn [rbind] in E.
  pose (adds' := fun (e : result StoreError (bytes * Lease)) (X : gset K) =>
    X = ∅ /\ (forall name, e <> Ok (name, Held)) \/
    exists name a, e = Ok (name, Held) /\ parse name = Ok a /\ adds a X).
  destruct (mfold_union get adds' _ _ _ _ E) as (E1 & E2 & E3).
  - intros s0 e s1 Hf. destruct e as [[name lease]|]; [|done]. cbn [rbind fst snd] in Hf. inv_ok.
    destruct lease; inv_ok; [|apply Hstep in Hf as (X & HX & ->)].
    + subst s1. exists ∅. split; [left; split; [done|by intros ? [=]]|set_solver].
    + exists X. split; [|done]. right. by exists name, a.
  - split_and!; [done| |].
    + intros name a (en & [= <-] & Hin) Ha. destruct (E1 _ Hin) as (X & [[_ Hno]|(n' & a' & [= <-] & Ha' & HX)] & Hsub);
        [by destruct (Hno name)|]. rewrite Ha in Ha'. injection Ha' as <-. eauto.
    + intros k Hk. destruct (E3 k Hk) as [|(e & X & Hin & [[-> _]|(n & a & -> & Ha & HX)] & HkX)]; [by left|set_solver|].
      right. exists n, a, X. split_and!; try done. by exists entries.
Qed.

(** *** The trace *)

Lemma head_headers_elem (s : State) heads header :
  all_heads s = Ok heads ->
  (header ∈ concat (map head_headers heads) <->
   exists name e h, ix_entries (st_heads s) !! name = Some e /\ Head_decode e (st_database s) = Ok h /\
     header ∈ head_headers h).
Proof.
  unfold all_heads. intros E. apply mmap_Ok in E. rewrite list_elem_of_In, in_concat. split.
  - intros (hs & Hin & Hh). apply in_map_iff in Hin as (h & <- & Hin). apply list_elem_of_In in Hin, Hh.
    apply list_elem_of_lookup in Hin as [i Hi]. destruct (Forall2_lookup_r _ _ _ _ _ E Hi) as ([n e] & Hl & Hd).
    apply list_elem_of_lookup_2, sorted_list_elem in Hl. eauto 10.
  - intros (n & e & h & Hn & Hd & Hh). apply sorted_list_elem in Hn. apply list_elem_of_lookup in Hn as [i Hi].
    destruct (Forall2_lookup_l _ _ _ _ _ E Hi) as (h' & Hl & Hd'). cbn in Hd'. rewrite Hd in Hd'. injection Hd' as <-.
    exists (head_headers h). split; [|by apply list_elem_of_In]. apply in_map_iff. exists h. split; [done|].
    apply list_elem_of_In. by eapply list_elem_of_lookup_2.
Qed.

Lemma root_names_elem (s : State) names name :
  root_names s = Ok names -> (name ∈ names <-> is_Some (ix_entries (st_retentions s) !! name)).
Proof.
  unfold root_names. intros E. apply mmap_Ok in E.
  assert (Forall2 (fun p n => n = fst p) (sorted_list (ix_entries (st_retentions s))) names) as F.
  { eapply Forall2_impl; [exact E|]. intros p n Hp. cbn in Hp. unfold RetentionName_new in Hp. by inv_ok. }
  split.
  - intros Hin. apply list_elem_of_lookup in Hin as [i Hi]. destruct (Forall2_lookup_r _ _ _ _ _ F Hi) as ([n e] & Hl & ->).
    apply list_elem_of_lookup_2, sorted_list_elem in Hl. by eexists.
  - intros [e He]. apply sorted_list_elem in He. apply list_elem_of_lookup in He as [i Hi].
    destruct (Forall2_lookup_l _ _ _ _ _ F Hi) as (n & Hl & ->). by eapply list_elem_of_lookup_2.
Qed.

(** What each step of the trace adds. *)
Definition opens (g : CatalogGuard B) (id : Digest) (X : gset LogicalKey) : Prop :=
  exists v, PinnedView_open g id = Ok v /\ X = deps v.

Lemma trace_header_live g s h s' :
  trace_header g s h = Ok s' -> exists X, opens g (ah_parent_physical_digest h) X /\ fst s' = X ∪ fst s.
Proof. intros E. unfold trace_header in E. inv_ok. subst. exists (deps a). split; [by exists a|done]. Qed.

Lemma trace_header_named g s h s' :
  trace_header g s h = Ok s' ->
  exists X, (X = ∅ \/ opens g (ah_parent_physical_digest h) X) /\ snd s' = X ∪ snd s.
Proof.
  intros E. unfold trace_header in E. inv_ok. subst. cbn [snd]. destruct (_ && _).
  - exists (deps a). split; [right; by exists a|done].
  - exists ∅. split; [by left|set_solver].
Qed.

Definition retains (g : CatalogGuard B) (name : bytes) (X : gset LogicalKey) : Prop :=
  exists e pin v, ix_entries (st_retentions (cg_state g)) !! name = Some e /\ decode_pin name e = Ok pin /\
    pin_retained g pin = Ok v /\ X = deps v.

Lemma trace_root_named g s name s' :
  trace_root g s name = Ok s' -> exists X, retains g name X /\ s' = X ∪ s.
Proof.
  intros E. unfold trace_root, retention_root in E. inv_ok. subst. exists (deps a0). split; [by exists a1, a, a0|done].
Qed.

Lemma trace_reader_live g s id s' : trace_reader g s id = Ok s' -> exists X, opens g id X /\ s' = X ∪ s.
Proof. intros E. unfold trace_reader in E. inv_ok. subst. exists (deps a). split; [by exists a|done]. Qed.

(** The trace finds exactly the live keys. *)
Lemma trace_logical_lemma l g live current named :
  trace_logical l g = Ok (live, current, named) -> forall k, k ∈ live <-> live_key l g k.
Proof.
  intros E k. unfold trace_logical in E. inv_ok. clear Hst Hst0 named current.
  destruct (mfold_union fst (fun h => opens g (ah_parent_physical_digest h)) _ _ _ _ Hok1 (trace_header_live g)) as (H1 & H1s & H1b).
  destruct (mfold_union snd (fun h X => X = ∅ \/ opens g (ah_parent_physical_digest h) X) _ _ _ _ Hok1 (trace_header_named g)) as (_ & _ & H1n).
  destruct (mfold_union id (retains g) _ _ _ _ Hok3 (trace_root_named g)) as (H3 & H3s & H3b).
  destruct (fold_held_union id (opens g) _ _ _ _ _ Hok4 (trace_reader_live g)) as (H4s & H4 & H4b).
  destruct (fold_held_union id (fun k X => X = {[k]}) _ _ _ _ _ Hok5) as (H5s & H5 & H5b).
  { intros s k' s' [= <-]. by exists {[k']}. }
  unfold id in *. subst live. cbn [fst snd] in *. clear Hok1 Hok3 Hok4 Hok5.
  assert (forall h X, h ∈ concat (map head_headers a0) -> opens g (ah_parent_physical_digest h) X -> k ∈ X -> live_key l g k) as Hhead.
  { intros h X Hh (v & Hv & ->) Hk. apply (head_headers_elem _ _ _ Hok0) in Hh as (n & e & hd & ? & ? & ?).
    eapply live_view; [|done]. by eapply rooted_head. }
  split.
  - intros Hk. destruct (H5b k Hk) as [Hk4|(name & k' & X & Hh & Hp & -> & ->%elem_of_singleton)]; [|by eapply live_lease].
    destruct (H4b k Hk4) as [Hk3|(name & id & X & Hh & Hp & (v & Hv & ->) & HX)];
      [|eapply live_view; [|done]; by eapply rooted_reader].
    apply elem_of_union in Hk3 as [Hk1|Hk3].
    + destruct (H1b k Hk1) as [Hk0|(h & X & Hh & HX & HkX)]; [|by eapply Hhead].
      destruct a as [v|]; [|set_solver]. eapply live_view; [|done]. by apply rooted_active.
    + destruct (H3b k Hk3) as [Hk1|(name & X & Hn & (e & pin & v & ? & ? & ? & ->) & HkX)];
        [|eapply live_view; [|done]; by eapply rooted_retention].
      destruct (H1n k Hk1) as [Hk0|(h & X & Hh & [->|HX] & HkX)]; [set_solver..|by eapply Hhead].
  - intros [v k' Hv Hk|name k' Hh Hp].
    + apply H5s. destruct Hv as [v Hv|name e h header v He Hd Hin Hv|name e pin v He Hd Hv|name id v Hh Hp Hv].
      * rewrite Hok in Hv. injection Hv as ->. by apply H4s, elem_of_union_l, H1s.
      * destruct (H1 header) as (X & (v' & Hv' & ->) & HX).
        { apply (head_headers_elem _ _ _ Hok0). eauto 10. }
        rewrite Hv in Hv'. injection Hv' as <-. apply H4s. set_solver.
      * destruct (H3 name) as (X & (e' & pin' & v' & He' & Hd' & Hv' & ->) & HX).
        { apply (root_names_elem _ _ _ Hok2). by eexists. }
        assert (e' = e) as -> by congruence. assert (pin' = pin) as -> by congruence.
        rewrite Hv in Hv'. injection Hv' as <-. apply H4s. set_solver.
      * destruct (H4 name id Hh Hp) as (X & (v' & Hv' & ->) & HX). rewrite Hv in Hv'. injection Hv' as <-. set_solver.
    + destruct (H5 name k' Hh Hp) as (X & -> & HX). set_solver.
Qed.
End Trace.
