(* ===== verification/RetentionPlan.v ===== *)
(** The phases of a collection: what the plan marks and deletes, the deletion loop, the retirement
    of discovery records, and what the publication in between adds. *)

From S2P Require Import Prelude Domain Layout Format Wire Segment Frame Pack Backend CatalogIndex Catalog Placement View ViewProofs Manifest ManifestProofs Active Store StoreProofs Sealed SealedProofs Seal Retention RetentionTrace.
From stdpp Require Import base strings gmap list sorting.
From Stdlib Require Import ZArith Lia.
Open Scope Z_scope.

(** ** Planning a collection *)

Section Plan.
Context {HH : Hashes} {Z0 : ZstdLib} {B : Type} {SB : StorageBackend B} {BL : BackendLaws B}.
Context {CB : Collectable B} {CL : CollectableLaws B}.
Implicit Types g : CatalogGuard B.

Lemma physical_of_lemma g u k o others :
  physical_of g u k = Ok (o, others) ->
  stored_as (cg_state g) k o /\ (forall o', stored_as (cg_state g) k o' -> o' = o) /\
  (forall x, x ∈ others -> u = true /\ exists pack p r, k = LPack pack /\ placement (cg_state g) pack = Ok p /\
     r ∈ pl_representations p /\ x = blob_of r).
Proof.
  intros E. unfold physical_of in E. destruct k as [i|pack|i|i]; inv_ok; subst.
  - split_and!; [constructor|by inversion 1|set_solver].
  - split_and!; [by econstructor|intros o' Ho; inversion Ho; subst; congruence|]. intros x Hx. destruct u; [|set_solver].
    split; [done|]. apply elem_of_list_to_set, list_elem_of_fmap in Hx as (r & -> & Hr). eauto 10.
  - split_and!; [constructor|by inversion 1|set_solver].
Qed.

Definition marks_of g (u : bool) (k : LogicalKey) (X : gset ObjectKey) : Prop :=
  exists o others, physical_of g u k = Ok (o, others) /\ X = {[o]} ∪ others.

Lemma mark_physical g u current named m k m' :
  mark g u current named m k = Ok m' -> exists X, marks_of g u k X /\ mk_physical m' = X ∪ mk_physical m.
Proof.
  intros E. unfold mark in E. inv_ok. destruct a as [o others]. inv_ok. subst. cbn. exists ({[o]} ∪ others).
  split; [by exists o, others|done].
Qed.

Lemma mark_current g u current named m0 keys m :
  mk_current m0 ⊆ mk_physical m0 -> mfold (mark g u current named) m0 keys = Ok m -> mk_current m ⊆ mk_physical m.
Proof.
  intros H0 E. apply (mfold_inv _ (fun _ m => mk_current m ⊆ mk_physical m) _ _ _ H0) in E; [done|].
  intros _ k m1 m2 Hm E1. unfold mark in E1. inv_ok. destruct a as [o others]. inv_ok. subst. cbn.
  case_bool_decide; set_solver.
Qed.

(** The keys to delete are the first unmarked ones, as many as the budget allows. *)
Definition unmarked (m : Marks) (keys : list ObjectKey) : list ObjectKey :=
  List.filter (fun k => negb (bool_decide (k ∈ mk_current m)) && negb (bool_decide (k ∈ mk_physical m))) keys.

Lemma classify_lemma b m leased u budget t keys t' :
  mfold (classify b m leased u budget) t keys = Ok t' ->
  zlen (ta_deletable t) <= Z.max 0 budget ->
  map fst (ta_deletable t') = take (Z.to_nat budget) (map fst (ta_deletable t) ++ unmarked m keys).
Proof.
  revert t. induction keys as [|k keys IH]; intros t E Hl; cbn [mfold] in E.
  - injection E as <-. cbn [unmarked List.filter]. rewrite app_nil_r, take_ge; [done|].
    rewrite length_map. unfold zlen in Hl. lia.
  - apply rbind_Ok in E as (t1 & E1 & E2). unfold classify in E1. inv_ok. unfold unmarked. cbn [List.filter].
    case_bool_decide; [subst; by rewrite (IH _ E2)|]. cbn [negb andb].
    case_bool_decide; [subst; by rewrite (IH _ E2)|]. cbn [negb andb]. subst t1. rewrite (IH _ E2); unfold tally_dead; cbn [ta_deletable].
    + destruct (Z.ltb_spec (zlen (ta_deletable t)) budget).
      * rewrite map_app, <- (assoc_L (++)). done.
      * unfold zlen in *. rewrite !take_app_le; [done|rewrite length_map; lia..].
    + destruct (Z.ltb_spec (zlen (ta_deletable t)) budget); [|done]. rewrite zlen_app. cbn. unfold zlen in *. cbn. lia.
Qed.

Lemma key_list_elem keys k : k ∈ key_list keys <-> k ∈ keys.
Proof. unfold key_list. by rewrite (isort_perm key_leb), elem_of_elements. Qed.
Lemma logical_list_elem keys k : k ∈ logical_list keys <-> k ∈ keys.
Proof. unfold logical_list. by rewrite (isort_perm logical_leb), elem_of_elements. Qed.

Abbreviation plan_deletes p := (map fst (ta_deletable (gr_tally (gp_report p)))).

(** The garbage of a backend: its keys outside [live], in key order. *)
Definition garbage (b : B) (live : gset ObjectKey) : list ObjectKey :=
  List.filter (fun k => negb (bool_decide (k ∈ live))) (key_list (dom (contents b))).

Lemma garbage_elem b live k : k ∈ garbage b live <-> is_Some (contents b !! k) /\ k ∉ live.
Proof.
  unfold garbage. rewrite list_elem_of_In, List.filter_In, <- list_elem_of_In, key_list_elem, elem_of_dom.
  by rewrite negb_true_iff, bool_decide_eq_false.
Qed.

Lemma plan_lemma l g budget p :
  plan_collection l g budget = Ok p ->
  (forall k, k ∈ gp_logical p <-> live_key l g k) /\
  (forall o, o ∈ gp_physical p <-> needed l g o \/ undecided l g o) /\
  (forall o, o ∈ gp_physical p -> is_Some (contents (cg_backend g) !! o)) /\
  plan_deletes p = take (Z.to_nat budget) (garbage (cg_backend g) (gp_physical p)) /\
  (forall o, o ∈ gp_logical p -> exists x, stored_as (cg_state g) o x /\ x ∈ gp_physical p).
Proof.
  intros E. unfold plan_collection in E. inv_ok. destruct a as [[logical current] named]. inv_ok. subst p.
  cbn [gp_logical gp_physical gp_report gr_tally].
  pose proof (trace_logical_lemma _ _ _ _ _ Hok) as Htrace. apply inventory_lemma in Hok1. subst a0.
  destruct (fold_held_union id (fun k X => X = {[k]}) _ _ _ _ _ Hok2) as (_ & L1 & L2).
  { intros s k s' [= <-]. by exists {[k]}. }
  destruct (mfold_union mk_physical (marks_of g a) _ _ _ _ Hok3 (mark_physical g a current named)) as (M1 & M2 & M3).
  pose proof (mark_current _ _ _ _ (mkMarks _ ∅ ∅) _ _ (empty_subseteq _) Hok3) as Hcur.
  unfold id in *. cbn [mk_physical] in *. split_and!.
  - done.
  - intros o. split.
    + intros Ho. destruct (M3 o Ho) as [Ho2|(k & X & Hk & (x & others & Hp & ->) & HX)].
      * left. apply elem_of_union in Ho2 as [Ho2|]; [|by apply needed_index].
        destruct (L2 o Ho2) as [|(name & k & X & Hh & Hp & -> & ->%elem_of_singleton)]; [set_solver|].
        apply backend_Ok in Hp. by eapply needed_lease.
      * apply logical_list_elem, Htrace in Hk. destruct (physical_of_lemma _ _ _ _ _ Hp) as (Hs & _ & Ho2).
        apply elem_of_union in HX as [->%elem_of_singleton|HX]; [left; by eapply needed_live|right].
        destruct (Ho2 o HX) as (-> & pack & pl & r & -> & ? & ? & ->). split; [done|]. eauto 10.
    + intros [Hn|(Hu & pack & pl & r & Hlive & Hpl & Hr & ->)].
      * destruct Hn as [k x Hk Hs|name x Hh Hp|x Hx].
        -- apply Htrace, logical_list_elem in Hk. destruct (M1 k Hk) as (X & (y & others & Hp & ->) & HX).
           destruct (physical_of_lemma _ _ _ _ _ Hp) as (_ & Hf & _). rewrite (Hf x Hs). set_solver.
        -- apply M2. destruct (L1 name x Hh) as (X & -> & HX); [by apply backend_Ok|set_solver].
        -- by apply M2, elem_of_union_r.
      * apply Htrace, logical_list_elem in Hlive. destruct (M1 _ Hlive) as (X & (y & others & Hp & ->) & HX).
        rewrite Hu in Hok0. injection Hok0 as <-. unfold physical_of in Hp. inv_ok.
        rewrite Hpl in Hok0. injection Hok0 as <-. subst others. apply HX, elem_of_union_r.
        apply elem_of_list_to_set, list_elem_of_fmap. eauto.
  - intros o Ho. apply key_list_elem in Ho. destruct (mmap_each _ _ _ _ Hok4 Ho) as [[] Hc].
    unfold check_marked in Hc. inv_ok. bools. by apply elem_of_dom.
  - rewrite (classify_lemma _ _ _ _ _ _ _ _ Hok6) by (cbn [ta_deletable]; rewrite zlen_nil; lia). cbn [map app ta_deletable]. f_equal.
    unfold unmarked, garbage. apply List.filter_ext. intros k. repeat case_bool_decide; set_solver.
  - intros k Hk. apply logical_list_elem in Hk. destruct (M1 k Hk) as (X & (x & others & Hp & ->) & HX).
    exists x. split; [by eapply physical_of_lemma|set_solver].
Qed.
End Plan.

(** ** Collecting *)

Section Collect.
Context {HH : Hashes} {Z0 : ZstdLib} {B : Type} {SB : StorageBackend B} {BL : BackendLaws B}.
Context {CB : Collectable B} {CL : CollectableLaws B}.
Implicit Types g : CatalogGuard B.

Lemma permit_Some session k session' :
  permit session k = Some session' ->
  k ∉ gs_live session /\ gs_live session' = gs_live session /\ gs_issued session' = {[k]} ∪ gs_issued session.
Proof. unfold permit. destruct (_ || _) eqn:E; [done|]. intros [= <-]. by bools. Qed.

Lemma delete_object_lemma k g r g' :
  delete_object k g = (r, g') ->
  cg_state g' = cg_state g /\ root (cg_backend g') = root (cg_backend g) /\
  (contents (cg_backend g') = contents (cg_backend g) \/ contents (cg_backend g') = delete k (contents (cg_backend g))) /\
  (r = Ok tt -> contents (cg_backend g') = delete k (contents (cg_backend g))).
Proof.
  unfold delete_object. destruct (backend_delete (cg_backend g) k) as [r0 b0] eqn:E. intros [= <- <-]. cbn.
  destruct r0 as [[]|e].
  - apply delete_ok in E as [-> ->]. auto.
  - apply delete_err in E as [H1 ->]. split_and!; (done || naive_solver).
Qed.

(** Deletion touches only the listed keys outside the live set, and removes them all when it
    succeeds. *)
Lemma delete_all_lemma del : forall session c f g r g',
  delete_all session del c f g = (r, g') ->
  cg_state g' = cg_state g /\ root (cg_backend g') = root (cg_backend g) /\
  (forall k, k ∉ map fst del \/ k ∈ gs_live session -> contents (cg_backend g') !! k = contents (cg_backend g) !! k) /\
  (forall k, is_Some (contents (cg_backend g') !! k) -> contents (cg_backend g') !! k = contents (cg_backend g) !! k) /\
  (is_ok r = true -> forall k, k ∈ map fst del -> k ∉ gs_live session -> k ∉ gs_issued session ->
     contents (cg_backend g') !! k = None).
Proof.
  induction del as [|[k n] del IH]; intros session c f g r g' E; cbn [delete_all] in E.
  - unfold sret in E. simplify_eq. split_and!; try done. intros _ k Hk. by apply elem_of_nil in Hk.
  - cbn [map fst]. destruct (permit session k) as [session'|] eqn:Ep.
    + apply permit_Some in Ep as (Hk & Hl & Hi). apply sbind_inv in E as [(? & g1 & E1 & E2)|(e & E1 & ->)].
      * apply delete_object_lemma in E1 as (S1 & R1 & _ & C1). destruct x. specialize (C1 eq_refl).
        apply IH in E2 as (S2 & R2 & K2 & P2 & D2). rewrite S2, R2. split_and!; try done.
        -- intros x Hx. rewrite K2, C1, lookup_delete_ne; [done| |rewrite Hl; set_solver]. set_solver.
        -- intros x Hx. rewrite (P2 x Hx). pose proof (P2 x Hx) as Hx2. rewrite C1 in *.
           rewrite Hx2 in Hx. destruct (decide (k = x)) as [->|]; [by rewrite lookup_delete, decide_True in Hx by done; destruct Hx|].
           by rewrite lookup_delete_ne.
        -- intros Hr x Hx Hxl Hxi. destruct (decide (x = k)) as [->|Hne].
           2: { apply elem_of_cons in Hx as [->|Hx]; [done|]. apply D2; [done..|by rewrite Hl|].
                rewrite Hi. apply not_elem_of_union. by rewrite not_elem_of_singleton. }
           destruct (contents (cg_backend g') !! k) as [v|] eqn:Ev; [|done].
           assert (is_Some (contents (cg_backend g') !! k)) as Hs by (by eexists). rewrite (P2 k Hs), C1 in Hs.
           rewrite lookup_delete, decide_True in Hs by done. by destruct Hs.
      * apply delete_object_lemma in E1 as (S1 & R1 & C1 & _). split_and!; try done.
        -- intros x Hx. destruct C1 as [->| ->]; [done|]. rewrite lookup_delete_ne; [done|set_solver].
        -- intros x Hx. destruct C1 as [->|C1]; [done|]. rewrite C1 in *.
           destruct (decide (k = x)) as [->|]; [by rewrite lookup_delete, decide_True in Hx by done; destruct Hx|].
           by rewrite lookup_delete_ne.
    + apply IH in E as (S2 & R2 & K2 & P2 & D2). split_and!; try done.
      * intros x Hx. apply K2. set_solver.
      * intros Hr x Hx Hxl Hxi. apply D2; [done| |done..]. apply elem_of_cons in Hx as [->|]; [|done].
        unfold permit in Ep. destruct (_ || _) eqn:Eb; [|done]. rewrite orb_true_iff, !bool_decide_eq_true in Eb. tauto.
Qed.

(** *** Retiring *)

Abbreviation plan_entries p := (ta_deletable (gr_tally (gp_report p))).

(** What both kinds of retirement leave alone. *)
Definition same_catalog_but (s s' : State) : Prop :=
  st_retentions s' = st_retentions s /\ st_heads s' = st_heads s /\ st_advisory s' = st_advisory s /\
  st_database s' = st_database s /\ st_attachment s' = st_attachment s /\ st_sealed s' = st_sealed s /\
  st_pending s' = st_pending s /\ st_selected s' = st_selected s /\ st_revision s' = st_revision s /\
  st_uncertain s' = st_uncertain s.

Lemma same_catalog_but_trans s1 s2 s3 : same_catalog_but s1 s2 -> same_catalog_but s2 s3 -> same_catalog_but s1 s3.
Proof. unfold same_catalog_but. intros. split_and!; intuition congruence. Qed.

Lemma index_remove_lookup ix k k' :
  ix_entries (Index_remove ix k) !! k' = if decide (k' = k) then None else ix_entries ix !! k'.
Proof.
  unfold Index_remove. destruct (ix_entries ix !! k) as [e|] eqn:E; cbn [ix_entries].
  - case_decide as Hd; [subst; by rewrite lookup_delete, decide_True|by rewrite lookup_delete_ne].
  - case_decide as Hd; [by subst|done].
Qed.

Lemma index_insert_lookup ix k v k' :
  ix_entries (Index_insert ix k v) !! k' = if decide (k' = k) then Some v else ix_entries ix !! k'.
Proof.
  unfold Index_insert. case_bool_decide as E; cbn [ix_entries].
  - case_decide as Hd; [by subst|done].
  - case_decide as Hd; [subst; by rewrite lookup_insert, decide_True|by rewrite lookup_insert_ne].
Qed.

Lemma retire_endpoints_lemma del s (s' := fold_left retire_endpoint del s) :
  same_catalog_but s s' /\ st_placements s' = st_placements s /\
  forall k, ix_entries (st_endpoints s') !! k =
    if decide (Manifest k ∈ map fst del) then None else ix_entries (st_endpoints s) !! k.
Proof.
  subst s'. revert s. induction del as [|[k n] del IH]; intros s; cbn [fold_left map fst].
  - by split_and!.
  - destruct (IH (retire_endpoint s (k, n))) as (H1 & H2 & H3). split_and!.
    + eapply same_catalog_but_trans; [|exact H1]. destruct k; by split_and!.
    + rewrite H2. by destruct k.
    + intros x. rewrite H3. destruct (decide (Manifest x ∈ map fst del)) as [Hx|Hx];
        [rewrite decide_True by set_solver; done|].
      destruct k as [i|i|i|i]; unfold retire_endpoint; cbn [fst]; try (destruct (decide _) as [Hd|Hd]; [|done];
        apply elem_of_cons in Hd as [|]; done).
      cbn [st_endpoints set_endpoints]. rewrite index_remove_lookup. repeat case_decide; set_solver.
Qed.

(** The placement record of a pack after its representations in deleted blobs are dropped. *)
Definition kept_representations (deleting : gset ObjectKey) (p : Placements) : list Representation :=
  List.filter (fun r => negb (bool_decide (blob_of r ∈ deleting))) (pl_representations p).
Definition retired_placement (deleting : gset ObjectKey) (p : Placements) : option bytes :=
  match kept_representations deleting p with
  | [] => None
  | kept => Some (Placements_encode (mkPlacements (pl_pack p) (pl_length p) (pl_cohort p) kept))
  end.

Lemma retire_placement_lemma deleting logical e g r g' :
  retire_placement deleting logical e g = (r, g') ->
  cg_backend g' = cg_backend g /\ same_catalog_but (cg_state g) (cg_state g') /\
  st_endpoints (cg_state g') = st_endpoints (cg_state g) /\
  (r = Ok tt -> exists p, decode_placement e = Ok p /\
     (retired_placement deleting p = None -> LPack (fst e) ∉ logical) /\
     forall k, ix_entries (st_placements (cg_state g')) !! k =
       if decide (k = fst e) then retired_placement deleting p else ix_entries (st_placements (cg_state g)) !! k).
Proof.
  intros E. unfold retire_placement, slift, smod, serr, sbind in E.
  destruct (decode_placement e) as [p|] eqn:Ep; [|simplify_eq; by split_and!].
  change (List.filter _ (pl_representations p)) with (kept_representations deleting p) in E. unfold retired_placement.
  destruct (kept_representations deleting p) as [|x l] eqn:Ek.
  - case_bool_decide; simplify_eq; cbn; split_and!; try done. intros _. exists p.
    rewrite Ek. split_and!; try done. intros k. apply index_remove_lookup.
  - simplify_eq. cbn. split_and!; try done. intros _. exists p. rewrite Ek. split_and!; try done.
    intros k. apply index_insert_lookup.
Qed.

Lemma retire_placements_lemma deleting logical l : forall g r g',
  NoDup (map fst l) -> sfold (retire_placement deleting logical) l g = (r, g') ->
  cg_backend g' = cg_backend g /\ same_catalog_but (cg_state g) (cg_state g') /\
  st_endpoints (cg_state g') = st_endpoints (cg_state g) /\
  (r = Ok tt ->
   (forall k e, (k, e) ∈ l -> exists p, decode_placement (k, e) = Ok p /\
      (retired_placement deleting p = None -> LPack k ∉ logical) /\
      ix_entries (st_placements (cg_state g')) !! k = retired_placement deleting p) /\
   (forall k, k ∉ map fst l -> ix_entries (st_placements (cg_state g')) !! k = ix_entries (st_placements (cg_state g)) !! k)).
Proof.
  induction l as [|[k0 e0] l IH]; intros g r g' Hn E; cbn [sfold] in E.
  - unfold sret in E. simplify_eq. split_and!; try done. intros _.
    split; [intros k e Hk; by apply elem_of_nil in Hk|done].
  - cbn [map fst] in Hn. apply NoDup_cons in Hn as [Hk0 Hn].
    apply sbind_inv in E as [([] & g1 & E1 & E2)|(e & E1 & ->)].
    + apply retire_placement_lemma in E1 as (B1 & S1 & N1 & P1). destruct (P1 eq_refl) as (p & Hp & Hl & Hlk).
      apply IH in E2 as (B2 & S2 & N2 & P2); [|done]. split_and!; [congruence|by eapply same_catalog_but_trans|congruence|].
      intros Hr. destruct (P2 Hr) as [P3 P4]. cbn [fst] in *. split.
      * intros k e [[= -> ->]|Hin]%elem_of_cons; [|by apply P3].
        exists p. split_and!; try done. by rewrite (P4 _ Hk0), Hlk, decide_True.
      * intros k Hk. cbn [map fst] in Hk. apply not_elem_of_cons in Hk as [Hne Hk]. by rewrite P4, Hlk, decide_False.
    + apply retire_placement_lemma in E1 as (B1 & S1 & N1 & _). by split_and!.
Qed.
End Collect.

(** ** Publication *)

Section Publication.
Context {HH : Hashes} {Z0 : ZstdLib} {B : Type} {SB : StorageBackend B} {BL : BackendLaws B}.


Lemma index_flush_adds b ix ix' b' :
  Index_flush b ix = (Ok ix', b') ->
  ix_entries ix' = ix_entries ix /\
  forall k, is_Some (contents b' !! k) -> is_Some (contents b !! k) \/ exists id, k = Backend.Index id /\ id ∈ ix_objects ix'.
Proof.
  intros E. unfold Index_flush in E. destruct (bool_decide _ && _); [simplify_eq; auto|].
  destruct (_ <? _); [done|]. destruct (negb _); [done|]. destruct (_ <? _); [done|].
  destruct (envelope _ _) as [v|]; [|done]. unfold put_bytes in E.
  destruct (backend_put _ _ _) as [[[]|e] b1] eqn:Ep; cbn [backend map_err] in E; [|done]. simplify_eq. cbn. split; [done|].
  apply put_ok in Ep as (-> & _). intros k. destruct (decide (k = Backend.Index (blake3 v))) as [->|Hne]; [|rewrite lookup_insert_ne by done; auto].
  intros _. right. eexists. split; [done|]. set_solver.
Qed.

Lemma flush_one_adds get set s b s' b' :
  flush_one get set (Ok tt, s, b) = (Ok tt, s', b') ->
  exists ix, s' = set s ix /\ ix_entries ix = ix_entries (get s) /\
    forall k, is_Some (contents b' !! k) -> is_Some (contents b !! k) \/ exists id, k = Backend.Index id /\ id ∈ ix_objects ix.
Proof.
  intros E. unfold flush_one in E. destruct (Index_flush b (get s)) as [[ix|e] b1] eqn:Ef; [|done]. simplify_eq.
  apply index_flush_adds in Ef as [H1 H2]. eauto.
Qed.

Lemma index_objects_elem s id :
  Backend.Index id ∈ index_objects s <->
  id ∈ ix_objects (st_placements s) \/ id ∈ ix_objects (st_endpoints s) \/ id ∈ ix_objects (st_retentions s) \/
  id ∈ ix_objects (st_advisory s) \/ id ∈ ix_objects (st_heads s).
Proof.
  unfold index_objects. rewrite elem_of_list_to_set, list_elem_of_fmap. cbn [map concat].
  setoid_rewrite elem_of_app. repeat setoid_rewrite elem_of_app. setoid_rewrite elem_of_elements.
  split.
  - intros (x & [= ->] & Hx). rewrite ?elem_of_nil in Hx. tauto.
  - intros Hx. exists id. split; [done|]. rewrite ?elem_of_nil. tauto.
Qed.

(** A publication changes no entry outside the branch heads, and every object it adds is an
    index object of the published state. *)
Lemma publish_adds b s s' b' :
  Catalog.publish b s = (Ok tt, s', b') ->
  ix_entries (st_placements s') = ix_entries (st_placements s) /\
  ix_entries (st_endpoints s') = ix_entries (st_endpoints s) /\
  ix_entries (st_retentions s') = ix_entries (st_retentions s) /\
  ix_entries (st_heads s') = ix_entries (st_heads (update_heads s)) /\
  st_database s' = st_database s /\ st_selected s' = st_selected s /\
  (forall k, is_Some (contents b' !! k) -> is_Some (contents b !! k) \/ k ∈ index_objects s').
Proof.
  intros E. apply publish_Ok_inv in E as (s1 & b1 & rev & E & -> & -> & _). unfold flush_all in E.
  destruct (flush_one_Ok _ _ _ _ _ E) as (s5 & b5 & E5). rewrite E5 in E.
  destruct (flush_one_Ok _ _ _ _ _ E5) as (s4 & b4 & E4). rewrite E4 in E5.
  destruct (flush_one_Ok _ _ _ _ _ E4) as (s3 & b3 & E3). rewrite E3 in E4.
  destruct (flush_one_Ok _ _ _ _ _ E3) as (s2 & b2 & E2). rewrite E2 in E3.
  apply flush_one_adds in E2 as (i1 & -> & H1 & A1), E3 as (i2 & -> & H2 & A2), E4 as (i3 & -> & H3 & A3),
    E5 as (i4 & -> & H4 & A4), E as (i5 & -> & H5 & A5).
  assert (forall P : State -> Prop, (forall ix, P (set_heads s ix)) -> P (update_heads s)) as Hup.
  { intros P HP. unfold update_heads. destruct (_ || _); apply HP. }
  cbn [st_placements st_endpoints st_retentions st_heads st_database st_selected st_advisory set_revision set_heads set_placements
    set_endpoints set_retentions set_advisory] in *.
  rewrite H1, H2, H3, H4. split_and!; try done; try (by pattern (update_heads s); apply Hup).
  intros k Hk.
  destruct (A5 k Hk) as [Hk5|(id & -> & Hid)]; [|right; apply index_objects_elem; cbn; tauto].
  destruct (A4 k Hk5) as [Hk4|(id & -> & Hid)]; [|right; apply index_objects_elem; cbn; tauto].
  destruct (A3 k Hk4) as [Hk3|(id & -> & Hid)]; [|right; apply index_objects_elem; cbn; tauto].
  destruct (A2 k Hk3) as [Hk2|(id & -> & Hid)]; [|right; apply index_objects_elem; cbn; tauto].
  destruct (A1 k Hk2) as [Hk1|(id & -> & Hid)]; [by left|right; apply index_objects_elem; cbn; tauto].
Qed.
End Publication.
