(* ===== verification/RetentionProofs.v ===== *)
(** Correctness of the collector: it deletes nothing that any root, lease or index still needs,
    whatever fails on the way; it leaves every rooted view readable; and what it leaves behind
    when it has budget for everything is exactly what is needed. *)

From S2P Require Import Prelude Domain Layout Format Wire Segment Frame Pack Backend CatalogIndex Catalog Placement View ViewProofs Manifest ManifestProofs Active Store StoreProofs Sealed SealedProofs Seal Retention RetentionTrace RetentionPlan.
From stdpp Require Import base strings gmap list sorting.
From Stdlib Require Import ZArith Lia.
Open Scope Z_scope.

Section Collect.
Context {HH : Hashes} {HOK : HashesOk HH} {Z0 : ZstdLib} {ZOK : ZstdOk Z0}.
Context {B : Type} {SB : StorageBackend B} {BL : BackendLaws B} {CB : Collectable B} {CL : CollectableLaws B}.
Implicit Types g : CatalogGuard B.

Abbreviation plan_entries p := (ta_deletable (gr_tally (gp_report p))).

(** The catalog a collection works on: the published one. *)
Definition published (g : CatalogGuard B) (s : State) : Prop :=
  load_for (cg_backend g) (st_selected (cg_state g)) = Ok s.

(** The state whose discovery records of the doomed objects have been retired. *)
Definition retires (b : B) (p : Plan) (s s1 : State) : Prop :=
  sfold (retire_placement (list_to_set (map fst (plan_entries p))) (gp_logical p))
    (sorted_list (ix_entries (st_placements s)))
    (mkGuard b (fold_left retire_endpoint (plan_entries p) s)) = (Ok tt, mkGuard b s1).

(** A collection either changes nothing in the backend, or publishes the retired state and then
    deletes. *)
Lemma collect_inv l budget g r g' :
  collect l budget g = (r, g') ->
  cg_backend g' = cg_backend g /\
    (forall report, r = Ok report -> exists s p, published g s /\
       plan_collection l (mkGuard (cg_backend g) s) budget = Ok p /\ plan_entries p = [] /\
       gr_tally report = gr_tally (gp_report p) /\ g' = mkGuard (cg_backend g) s) \/
  exists s p s1 r2 s2 b2, published g s /\
    plan_collection l (mkGuard (cg_backend g) s) budget = Ok p /\ retires (cg_backend g) p s s1 /\
    Catalog.publish (cg_backend g) s1 = (r2, s2, b2) /\
    (forall report, r = Ok report -> gr_tally report = gr_tally (gp_report p)) /\
    match r2 with
    | Err e => r = Err e /\ g' = mkGuard b2 s2
    | Ok _ => exists r3, delete_all (mkSession (gp_physical p ∪ index_objects s2) ∅) (plan_entries p) 0 0
                           (mkGuard b2 s2) = (r3, g') /\ is_ok r3 = is_ok r
    end.
Proof.
  intros E. unfold collect in E. apply sbind_inv in E as [([] & g0 & E0 & E)|(e & E0 & ->)].
  2: { left. split; [|done]. unfold reload_state, sget, slift, smod, serr, sbind in E0.
       repeat (case_match; simplify_eq; try done). }
  unfold reload_state, sget, slift, smod, serr, sbind in E0. destruct (st_uncertain _); [done|].
  destruct (load_for _ _) as [s|] eqn:Es; [|done]. destruct (negb _); [done|]. simplify_eq. cbn [with_state cg_backend cg_state] in *.
  apply sbind_inv in E as [(g0 & g1 & E0 & E)|(e & E0 & ->)]; unfold sget in E0; [|done]. simplify_eq.
  unfold with_state in E.
  apply sbind_inv in E as [(p & g1 & E0 & E)|(e & E0 & ->)]; unfold slift in E0; injection E0 as E0 <-; [|by left].
  case_bool_decide as Hd.
  { left. unfold sret in E. simplify_eq. split; [done|]. intros report [= <-]. by exists s, p. }
  apply sbind_inv in E as [(? & g1 & E1 & E)|(e & E1 & ->)]; unfold smod in E1; [|done]. injection E1 as _ <-.
  unfold with_state in E. cbn [cg_backend cg_state] in E.
  assert (NoDup (map fst (sorted_list (ix_entries (st_placements s))))) as Hnd by apply sorted_list_NoDup.
  apply sbind_inv in E as [([] & g1 & E1 & E)|(e & E1 & ->)];
    pose proof (retire_placements_lemma _ _ _ _ _ _ Hnd E1) as (Hb1 & _); cbn [cg_backend] in Hb1; [|by left].
  right. destruct g1 as [b1 s1]. cbn in Hb1. subst b1. exists s, p, s1.
  apply sbind_inv in E as [([] & g2 & E2 & E)|(e & E2 & ->)]; unfold publish_catalog in E2;
    destruct (Catalog.publish _ _) as [[r2 s2] b2] eqn:Ep; cbn [cg_backend cg_state] in *;
    exists r2, s2, b2; (split; [done|]); (split; [done|]); (split; [done|]); (split; [done|]); injection E2 as -> <-; [|done].
  apply sbind_inv in E as [(g3 & g4 & E3 & E)|(e & E3 & ->)]; unfold sget in E3; [|done]. simplify_eq. cbn [cg_state] in E.
  apply sbind_inv in E as [(del & g5 & E5 & E)|(e & E5 & ->)]; [unfold sret in E; simplify_eq|].
  - split; [by intros report [= <-]|]. eauto.
  - split; [done|]. eauto.
Qed.

(** ** Theorems *)

(** C30. A collection deletes nothing that is needed: whatever fails on the way, every stored object
    that the published catalog reaches from the active file, a branch head, a retention or a live
    reader, that a lease names, or that is part of its indexes, keeps its bytes; and besides
    those it deletes at most [budget] objects. *)
Theorem collect_keeps_needed l budget g s r g' :
  published g s -> collect l budget g = (r, g') ->
  (forall o v, needed l (mkGuard (cg_backend g) s) o -> contents (cg_backend g) !! o = Some v ->
     contents (cg_backend g') !! o = Some v) /\
  exists doomed, zlen doomed <= Z.max 0 budget /\
    forall o v, contents (cg_backend g) !! o = Some v -> o ∉ doomed -> contents (cg_backend g') !! o = Some v.
Proof.
  intros Hs E. apply collect_inv in E as [[-> _]|(s0 & p & s1 & r2 & s2 & b2 & Hs0 & Hp & _ & Epub & _ & Hr)];
    [split; [done|]; exists []; rewrite zlen_nil; split; [lia|done]|].
  unfold published in *. assert (s0 = s) as -> by congruence.
  destruct (plan_lemma _ _ _ _ Hp) as (_ & Hphys & _ & Hdel & _). cbn [cg_backend] in Hdel.
  apply publish_lemma in Epub as [Hadd _]. destruct r2 as [[]|e]; [|destruct Hr as [_ ->]; cbn; split; [auto|];
    exists []; rewrite zlen_nil; split; [lia|auto]].
  destruct Hr as (r3 & Hr & _). apply delete_all_lemma in Hr as (_ & _ & Hkeep & _ & _). cbn [cg_backend gs_live] in Hkeep. split.
  - intros o v Hn Hv. rewrite Hkeep; [by apply Hadd|]. right. apply elem_of_union_l, Hphys. by left.
  - exists (map fst (plan_entries p)). split; [rewrite Hdel; unfold zlen; rewrite length_take; lia|].
    intros o v Hv Ho. rewrite Hkeep; [by apply Hadd|by left].
Qed.

(** C31. A collection that succeeds without exhausting its budget leaves only what is needed: every
    object still stored is needed by the catalog it started from, is an alternative representation
    of a live pack while some head is undecided, or is an index object of the catalog it
    published. *)
Theorem collect_leaves_only_needed l budget g report g' :
  collect l budget g = (Ok report, g') -> zlen (ta_deletable (gr_tally report)) < budget ->
  exists s, published g s /\
    forall o, is_Some (contents (cg_backend g') !! o) ->
      needed l (mkGuard (cg_backend g) s) o \/ undecided l (mkGuard (cg_backend g) s) o \/
      o ∈ index_objects (cg_state g').
Proof.
  intros E Hbud. assert (forall s p, plan_collection l (mkGuard (cg_backend g) s) budget = Ok p ->
    gr_tally report = gr_tally (gp_report p) -> forall o, is_Some (contents (cg_backend g) !! o) ->
    o ∈ gp_physical p \/ o ∈ map fst (plan_entries p)) as Hcover.
  { intros s p Hp Ht o Ho. destruct (plan_lemma _ _ _ _ Hp) as (_ & _ & _ & Hdel & _). cbn [cg_backend] in Hdel.
    destruct (decide (o ∈ gp_physical p)) as [|Hno]; [by left|]. right. rewrite Hdel, take_ge.
    - by apply garbage_elem.
    - rewrite Ht in Hbud. apply (f_equal length) in Hdel. rewrite length_map, length_take in Hdel. unfold zlen in Hbud. lia. }
  apply collect_inv in E as [[Hb Hr]|(s & p & s1 & r2 & s2 & b2 & Hs & Hp & _ & Epub & Ht & Hr)].
  - destruct (Hr _ eq_refl) as (s & p & Hs & Hp & Hnil & Ht & Hg). exists s. split; [done|]. intros o Ho. rewrite Hb in Ho.
    destruct (plan_lemma _ _ _ _ Hp) as (_ & Hphys & _). destruct (Hcover s p Hp Ht o Ho) as [Hin|Hin].
    + apply Hphys in Hin. tauto.
    + rewrite Hnil in Hin. by apply elem_of_nil in Hin.
  - exists s. split; [done|]. specialize (Ht _ eq_refl). destruct (plan_lemma _ _ _ _ Hp) as (_ & Hphys & _).
    destruct r2 as [[]|e]; [|by destruct Hr]. destruct Hr as (r3 & Hr & Hok3).
    apply delete_all_lemma in Hr as (Hst & _ & _ & Hsub & Hgone). cbn [cg_backend cg_state gs_live gs_issued] in *.
    apply publish_adds in Epub as (_ & _ & _ & _ & _ & _ & Hnew). rewrite Hst. intros o Ho.
    destruct (decide (o ∈ gp_physical p ∪ index_objects s2)) as [Hin|Hno].
    + apply elem_of_union in Hin as [Hin|]; [apply Hphys in Hin; tauto|tauto].
    + exfalso. pose proof Ho as Ho2. rewrite (Hsub o Ho) in Ho2. destruct (Hnew o Ho2) as [Hold|]; [|set_solver].
      destruct (Hcover s p Hp Ht o Hold) as [|Hin]; [set_solver|].
      rewrite (Hgone Hok3 o Hin Hno ltac:(set_solver)) in Ho. by destruct Ho.
Qed.
End Collect.

(** ** Retention roots *)

Section Roots.
Context {HH : Hashes} {HOK : HashesOk HH} {Z0 : ZstdLib} {B : Type} {SB : StorageBackend B} {BL : BackendLaws B}.
Implicit Types g : CatalogGuard B.

(** The fields of a pin are identities and a transaction. *)
Definition pin_ok (p : DurablePin) : Prop :=
  digest_ok (dp_hash p) /\ txid_ok (dp_txid p) /\ digest_ok (dp_database p) /\ digest_ok (dp_revision p).

Lemma pin_roundtrip_lemma p : pin_ok p -> decode_pin (dp_name p) (encode_pin p) = Ok p.
Proof.
  intros ([H1 H2] & Ht & [D1 D2] & [R1 R2]). unfold decode_pin, encode_pin.
  set (m := ROOT_MAGIC ++ dp_database p ++ dp_hash p ++ u64_bytes (dp_txid p) ++ dp_revision p).
  assert (zlen (u64_bytes (dp_txid p)) = 8) as Hu by (unfold u64_bytes; by rewrite zlen_le_bytes).
  assert (zlen m = 112) as Hm by (subst m; rewrite !zlen_app, D1, H1, Hu, R1; done).
  rewrite zlen_app, blake3_length, Hm. cbn [Z.add Z.eqb Pos.eqb negb orb].
  assert (slice (m ++ blake3 m) 0 112 = m) as -> by (apply (slice_mid []); [done|by rewrite Hm]).
  assert (slice (m ++ blake3 m) 112 144 = blake3 m) as ->.
  { rewrite <- (app_nil_r (blake3 m)) at 1. apply slice_mid; [done|]. by rewrite blake3_length, Hm. }
  assert (slice (m ++ blake3 m) 0 8 = ROOT_MAGIC) as ->.
  { subst m. rewrite <- !(assoc_L (++)). by apply (slice_mid []). }
  assert (slice (m ++ blake3 m) 8 40 = dp_database p) as ->.
  { subst m. rewrite <- !(assoc_L (++)). apply slice_mid; [done|]. by rewrite D1. }
  assert (slice (m ++ blake3 m) 40 72 = dp_hash p) as ->.
  { subst m. rewrite <- !(assoc_L (++)), (assoc_L (++) ROOT_MAGIC). apply slice_mid; rewrite !zlen_app, D1, ?H1; done. }
  assert (slice (m ++ blake3 m) 72 80 = u64_bytes (dp_txid p)) as ->.
  { subst m. rewrite <- !(assoc_L (++)), (assoc_L (++) ROOT_MAGIC), (assoc_L (++) (ROOT_MAGIC ++ _)).
    apply slice_mid; rewrite !zlen_app, D1, H1, ?Hu; done. }
  assert (slice (m ++ blake3 m) 80 112 = dp_revision p) as ->.
  { subst m. rewrite <- !(assoc_L (++)), (assoc_L (++) ROOT_MAGIC), (assoc_L (++) (ROOT_MAGIC ++ _)),
      (assoc_L (++) ((ROOT_MAGIC ++ _) ++ _)). apply slice_mid; rewrite !zlen_app, D1, H1, Hu, ?R1; done. }
  rewrite !bytes_eqb_refl. cbn [negb]. unfold u64_bytes. rewrite le_val_bytes_small by (change (256 ^ Z.of_nat 8) with 18446744073709551616; unfold txid_ok, U64_MAX in Ht; lia).
  rewrite TransactionId_new_fwd by done. by destruct p.
Qed.

Lemma publish_retentions g r g' :
  publish_catalog g = (Ok r, g') -> ix_entries (st_retentions (cg_state g')) = ix_entries (st_retentions (cg_state g)).
Proof.
  unfold publish_catalog. destruct (Catalog.publish _ _) as [[[[]|] s] b] eqn:E; intros [=]; subst g'.
  by apply publish_adds in E as (_ & _ & Hr & _).
Qed.

(** What a successful retention recorded. *)
Lemma retain_inv nonce name same id replace g pin g' :
  retain nonce name same id replace g = (Ok pin, g') ->
  dp_name pin = name /\ (exists v, pin_retained g pin = Ok v) /\
  (replace = false -> ix_entries (st_retentions (cg_state g)) !! name = None) /\
  forall k, ix_entries (st_retentions (cg_state g')) !! k =
    if decide (k = name) then Some (encode_pin pin) else ix_entries (st_retentions (cg_state g)) !! k.
Proof.
  intros E. unfold retain in E. apply sbind_inv in E as [(g0 & g1 & E0 & E)|(e & E0 & [=])]. injection E0 as <- <-.
  apply sbind_inv in E as [(p & g1 & E0 & E)|(e & E0 & [=])]. unfold slift in E0. injection E0 as E0 <-.
  apply sbind_inv in E as [([] & g1 & E1 & E)|(e & E1 & [=])]. unfold sret in E. injection E as -> ->.
  destruct (negb same); [done|]. apply rbind_Ok in E0 as (v & Ev & E0). apply fail_if_Ok in E0 as [Hex E0].
  apply rbind_Ok in E0 as ([] & _ & E0). apply rbind_Ok in E0 as (rev & Erev & E0). apply rbind_Ok in E0 as (w & Ew & E0).
  injection E0 as E0. rewrite E0 in Ew. split; [by subst pin|]. split; [by exists w|]. split.
  - intros ->. cbn [negb andb] in Hex. apply bool_decide_eq_false in Hex. by apply eq_None_not_Some.
  - intros k. unfold write_root in E1. apply sbind_inv in E1 as [(u & g2 & E2 & E1)|(e & E2 & [=])]. injection E2 as _ <-.
    apply publish_retentions in E1. rewrite E1. cbn. rewrite index_insert_lookup. by subst pin.
Qed.

(** A retention is held by its token: after retaining a view the named root decodes to the very
    pin that was returned, every other name keeps its root, and the pin resolves to a view with its
    logical hash. Releasing with any other pin of that name, an earlier retention of the same
    endpoint included, is refused as busy and changes nothing; releasing with it removes the root. *)
Theorem retention_needs_token nonce name same id replace g pin g' :
  retain nonce name same id replace g = (Ok pin, g') -> pin_ok pin ->
  retention_root (cg_state g') name = Ok pin /\
  (forall other, other <> name -> retention_root (cg_state g') other = retention_root (cg_state g) other) /\
  (exists v, pin_retained g pin = Ok v /\ logical_hash (pn_view v) = dp_hash pin) /\
  (forall other, dp_name other = name -> other <> pin -> release other g' = (Err Busy, g')) /\
  (forall u g'', release pin g' = (Ok u, g'') -> retention_root (cg_state g'') name = Err Io).
Proof.
  intros E Hok. apply retain_inv in E as (Hname & (v & Hv) & _ & Hlk).
  assert (retention_root (cg_state g') name = Ok pin) as Hroot.
  { unfold retention_root. rewrite Hlk, decide_True by done. cbn [ok_or rbind]. rewrite <- Hname. by apply pin_roundtrip_lemma. }
  split_and!; [done| | | |].
  - intros other Ho. unfold retention_root. by rewrite Hlk, decide_False.
  - exists v. split; [done|]. unfold pin_retained in Hv. inv_ok. subst v. rewrite !orb_false_iff, !negb_false_iff in Hguard.
    by apply bytes_eqb_true, Hguard.
  - intros other Hn Hne. unfold release, sget, slift, serr, sbind. rewrite Hn, Hroot. destruct (_ || _) eqn:Eg; [done|]. exfalso.
    rewrite !orb_false_iff, !negb_false_iff, !bytes_eqb_true in Eg. destruct Eg as [[[E1 E2] E3] E4]. apply Hne.
    destruct other, pin. cbn in *. f_equal; (congruence || lia).
  - intros u g'' Er. unfold release in Er. apply sbind_inv in Er as [(g0 & g1 & E0 & Er)|(e & E0 & [=])]. injection E0 as <- <-.
    apply sbind_inv in Er as [(p & g1 & E0 & Er)|(e & E0 & [=])]. unfold slift in E0. injection E0 as E0 <-.
    destruct (_ || _) in Er; [done|]. apply sbind_inv in Er as [(w & g2 & E2 & E1)|(e & E2 & [=])]. injection E2 as _ <-.
    apply publish_retentions in E1. unfold retention_root. rewrite E1. cbn. by rewrite index_remove_lookup, Hname, decide_True.
Qed.
End Roots.
