(* ===== verification/RetentionViews.v ===== *)
(** Rooted views survive a collection: the view opened after it is the same view, resolved through
    the same chain of manifests, and every page that could be read still reads the same. *)

From S2P Require Import Prelude Domain Layout Format Wire Segment Frame Pack Backend CatalogIndex Catalog Placement View ViewProofs Manifest ManifestProofs Active Store StoreProofs Sealed SealedProofs Seal Retention RetentionTrace RetentionPlan RetentionProofs.
From stdpp Require Import base strings gmap list sorting.
From Stdlib Require Import ZArith Lia.
Open Scope Z_scope.

(** ** Placement records are canonical *)

Section Placements.
Context {HH : Hashes} {HOK : HashesOk HH}.

Lemma parses_representations n pack length ids :
  is_u64 length ->
  parses (decode_representations n pack length ids) (fun l x =>
    zlen l = Z.of_nat n /\ Forall (representation_ok pack length) l /\ NoDup (map rp_id l) /\
    forall r, r ∈ l -> rp_id r ∉ ids).
Proof.
  intros Hlen. revert ids. induction n as [|n IH]; intros ids; cbn [decode_representations].
  - apply parses_end. split_and!; try done; [constructor|by intros ? ?%elem_of_nil].
  - eapply parses_step; [apply parses_digest|]. intros id x [Hid ->].
    eapply parses_step; [apply parses_digest|]. intros blob y [Hblob ->].
    eapply parses_step; [apply parses_u64|]. intros offset z [Ho ->].
    eapply parses_step; [apply parses_u64|]. intros len w [Hl ->].
    eapply parses_step; [apply parses_u64|]. intros blob_length u [Hbl ->].
    apply parses_lift_step. intros extent He. apply value_Ok in He.
    apply (BlobExtent_new_spec _ _ _ _ _ _) in He as (-> & He1 & He2 & He3); [|unfold is_u64, U64_MAX in *; lia..].
    apply parses_guard_step. intros Hg. rewrite !orb_false_iff in Hg. destruct Hg as [[Hg1 Hg2] Hg3].
    apply negb_false_iff, bytes_eqb_true in Hg2. apply bool_decide_eq_false in Hg3. cbn [be_offset] in Hg1.
    eapply parses_step; [apply IH|]. intros l t (Hn & Hok & Hnd & Hids). apply parses_end.
    assert (representation_ok pack length (mkRepresentation id (mkExtent blob offset len blob_length))) as Hr.
    { unfold representation_ok. cbn [rp_extent be_length be_offset]. unfold is_u64 in *.
      split_and!; [by rewrite <- Hg2|unfold extent_ok, U64_MAX; cbn; split_and!; (done || lia)|lia|lia]. }
    split_and!.
    + rewrite zlen_cons. lia.
    + by constructor.
    + cbn. apply NoDup_cons. split; [|done]. intros (r & Hr1 & Hr2)%list_elem_of_fmap. specialize (Hids r Hr2). set_solver.
    + intros r [->|Hr2]%elem_of_cons; [done|]. specialize (Hids r Hr2). set_solver.
Qed.

Lemma placements_decode_ok pack b p :
  is_bytes b -> zlen b <= U64_MAX -> Placements_decode pack b = Ok p -> placements_ok p /\ pl_pack p = pack.
Proof.
  intros Hb Hl E. unfold Placements_decode in E. inv_ok. destruct a as [q d]. cbn in *. subst q.
  eapply (parses_whole _ (fun p _ => placements_ok p /\ pl_pack p = pack)); [|exact Hl|exact Hb|exact Hok|exact Hok0].
  unfold placements_body. eapply parses_step; [apply parses_take; lia|]. intros m x (-> & _ & _).
  apply parses_guard_step. intros _. eapply parses_step; [apply parses_digest|]. intros q y [Hq ->].
  apply parses_guard_step. intros Hpack. bools. apply bytes_eqb_true in Hpack. subst q.
  eapply parses_step; [apply parses_u64|]. intros length z [Hlen ->].
  eapply parses_step; [apply parses_digest|]. intros cohort w [Hc ->].
  eapply parses_step; [apply parses_u32|]. intros count u [Hcount ->]. unfold is_u32 in Hcount.
  apply parses_guard_step. intros Hg. bools.
  eapply parses_step; [by apply parses_representations|]. intros l t (Hn & Hok' & Hnd & _). apply parses_end.
  split; [|done]. unfold placements_ok. cbn. split_and!; try done; lia.
Qed.

(** Dropping representations of an authentic record leaves an authentic record. *)
Lemma kept_placements_ok deleting p :
  placements_ok p -> kept_representations deleting p <> [] ->
  placements_ok (mkPlacements (pl_pack p) (pl_length p) (pl_cohort p) (kept_representations deleting p)).
Proof.
  intros (H1 & H2 & H3 & H4 & H5 & H6) Hne. unfold placements_ok. cbn. unfold kept_representations in *.
  set (f := fun r => _) in *. split_and!; try done.
  - destruct (List.filter f (pl_representations p)) as [|r l]; [done|]. rewrite zlen_cons. pose proof (zlen_nonneg l). lia.
  - pose proof (List.filter_length_le f (pl_representations p)). unfold zlen in *. lia.
  - rewrite Forall_forall in *. intros r Hr. apply H5.
    apply list_elem_of_In, List.filter_In in Hr as [Hr _]. by apply list_elem_of_In.
  - clear -H6. revert H6. generalize (pl_representations p) as l. induction l as [|r l IH]; intros Hn; [done|].
    cbn [map] in Hn. apply NoDup_cons in Hn as [Hr Hn]. cbn [List.filter]. destruct (f r); [|by apply IH].
    cbn [map]. apply NoDup_cons. split; [|by apply IH]. intros (x & Hx & Hin)%list_elem_of_fmap. apply Hr.
    apply list_elem_of_fmap. exists x. split; [done|].
    apply list_elem_of_In, List.filter_In in Hin as [Hin _]. by apply list_elem_of_In.
Qed.
End Placements.

(** ** Reading the same objects elsewhere *)

Section Transfer.
Context {HH : Hashes} {HOK : HashesOk HH} {Z0 : ZstdLib} {ZOK : ZstdOk Z0}.
Context {B : Type} {SB : StorageBackend B} {BL : BackendLaws B} {BV : BackendLive B}.

Definition agree (b1 b2 : B) (k : ObjectKey) : Prop := contents b2 !! k = contents b1 !! k.

Lemma read_all_transfer b1 b2 k limit v :
  limit <= U64_MAX -> agree b1 b2 k -> read_all b1 k limit = Ok v -> read_all b2 k limit = Ok v.
Proof. intros Hl Ha E. apply read_all_exact in E as [E Hz]; [|done]. apply read_all_live; [done|by rewrite Ha|done]. Qed.

Lemma load_record_transfer b1 b2 next seen dec r :
  agree b1 b2 (Manifest next) -> load_record b1 next seen dec = Ok r -> load_record b2 next seen dec = Ok r.
Proof.
  intros Ha E. unfold load_record, read_manifest in *. case_bool_decide; [done|].
  apply rbind_Ok in E as (c & Ec & E). apply rbind_Ok in Ec as (v & Ev & Ec).
  assert (VIEW_LIMIT <= U64_MAX) as Hlim by done.
  rewrite (read_all_transfer b1 b2 _ _ _ Hlim Ha Ev). cbn [rbind]. by rewrite Ec.
Qed.

Lemma candidate_leb_antisym x y : candidate_leb x y = true -> candidate_leb y x = true -> x = y.
Proof.
  destruct x as [[a p] i], y as [[b q] j]. cbn.
  destruct (Z.ltb_spec a b), (Z.ltb_spec b a); try done; try lia. assert (a = b) as -> by lia.
  destruct p, q; cbn; try done; intros H1 H2; by rewrite (digest_leb_antisym i j H1 H2).
Qed.

(** Removing rows other than the chosen one does not change the choice. *)
Lemma resolve_parent_transfer rows1 rows2 parent seen id :
  (forall row, row ∈ rows2 -> row ∈ rows1) -> (forall row, row ∈ rows1 -> fst row = id -> row ∈ rows2) ->
  resolve_parent rows1 parent seen = Ok id -> resolve_parent rows2 parent seen = Ok id.
Proof.
  intros Hsub Hid E. unfold resolve_parent, find_endpoint in *. inv_ok. subst a. rename a0 into opts1.
  apply mmap_Ok in Hok0.
  assert (exists opts2, mmap (endpoint_candidate parent seen) rows2 = Ok opts2) as [opts2 E2].
  { clear Hid. induction rows2 as [|row rows2 IH]; [by eexists|]. cbn [mmap].
    destruct (list_elem_of_lookup_1 _ _ (Hsub row ltac:(by left))) as [i Hi].
    destruct (Forall2_lookup_l _ _ _ _ _ Hok0 Hi) as (c & _ & ->).
    destruct IH as [o ->]; [intros; apply Hsub; by right|]. by eexists. }
  rewrite E2. cbn [rbind]. apply mmap_Ok in E2.
  assert (forall rows opts c, Forall2 (fun a b => endpoint_candidate parent seen a = Ok b) rows opts ->
    c ∈ omap Datatypes.id opts <-> exists row, row ∈ rows /\ endpoint_candidate parent seen row = Ok (Some c)) as Hin.
  { intros rows opts c F. rewrite list_elem_of_omap. split.
    - intros (o & Ho & Hc). cbn in Hc. subst o. apply list_elem_of_lookup in Ho as [i Hi].
      destruct (Forall2_lookup_r _ _ _ _ _ F Hi) as (row & Hr & Hc). eauto using list_elem_of_lookup_2.
    - intros (row & Hr & Hc). apply list_elem_of_lookup in Hr as [i Hi].
      destruct (Forall2_lookup_l _ _ _ _ _ F Hi) as (o & Ho & Hc'). rewrite Hc in Hc'. injection Hc' as <-.
      exists (Some c). split; [by eapply list_elem_of_lookup_2|done]. }
  destruct (head (isort candidate_leb (omap Datatypes.id opts1))) as [c1|] eqn:E1; [|done]. cbn in E. injection E as Hc1.
  apply isort_head in E1 as [H1 L1]; [|apply candidate_leb_total|apply candidate_leb_trans].
  pose proof H1 as Hrow. apply (Hin rows1 opts1 c1 Hok0) in Hrow as (row & Hr & Hc).
  assert (c1 ∈ omap Datatypes.id opts2) as H2.
  { apply (Hin rows2 opts2 c1 E2). exists row. split; [|done]. apply Hid; [done|]. subst id.
    unfold endpoint_candidate in Hc. destruct row as [k e]. inv_ok. destruct (_ && _); [|done]. by injection Hc as <-. }
  destruct (head (isort candidate_leb (omap Datatypes.id opts2))) as [c2|] eqn:Eh.
  - apply isort_head in Eh as [H2' L2]; [|apply candidate_leb_total|apply candidate_leb_trans].
    cbn. rewrite (candidate_leb_antisym c2 c1); [by rewrite Hc1|by apply L2|]. apply L1.
    apply (Hin rows2 opts2 c2 E2) in H2' as (row' & Hr' & Hc'). apply (Hin rows1 opts1 c2 Hok0). eauto.
  - apply (isort_head_None candidate_leb) in Eh. rewrite Eh in H2. by apply elem_of_nil in H2.
Qed.

Lemma load_loop_transfer fuel b1 b2 rows1 rows2 : forall next seen runs dec rid m out,
  (forall row, row ∈ rows2 -> row ∈ rows1) ->
  (forall i, i ∈ rid :: map fst out -> agree b1 b2 (Manifest i) /\ forall row, row ∈ rows1 -> fst row = i -> row ∈ rows2) ->
  load_loop fuel b1 rows1 next seen runs dec = Some (Ok (rid, m, out)) ->
  load_loop fuel b2 rows2 next seen runs dec = Some (Ok (rid, m, out)).
Proof.
  induction fuel as [|fuel IH]; intros next seen runs dec rid m out Hsub Hag E; [done|].
  pose proof (load_loop_spec _ _ _ _ _ _ _ _ _ _ E) as (_ & pre & Hout & _ & Hlast).
  assert (forall l i, last (rid :: map fst l) = Some i -> out = l ++ (drop (length l) out) -> i ∈ rid :: map fst out) as Hmem.
  { intros l i Hl ->. apply last_Some_elem_of in Hl. rewrite map_app. apply elem_of_cons in Hl as [->|Hl]; [by left|].
    right. apply elem_of_app. by left. }
  assert (next ∈ rid :: map fst out) as Hnext by (eapply Hmem; [exact Hlast|]; by rewrite Hout, drop_app_length).
  cbn [load_loop] in *. destruct (load_record b1 next seen dec) as [[r total]|] eqn:Er; [|done].
  rewrite (load_record_transfer b1 b2 _ _ _ _ (proj1 (Hag _ Hnext)) Er). destruct r as [m'|run]; [done|].
  destruct (_ <=? _); [done|]. destruct (resolve_parent rows1 _ _) as [parent|] eqn:Ep; [|done].
  pose proof (load_loop_spec _ _ _ _ _ _ _ _ _ _ E) as (_ & pre' & Hout' & _ & Hlast').
  assert (parent ∈ rid :: map fst out) as Hpar by (eapply Hmem; [exact Hlast'|]; by rewrite Hout', drop_app_length).
  rewrite (resolve_parent_transfer rows1 rows2 _ _ _ Hsub (proj2 (Hag _ Hpar)) Ep). by apply IH.
Qed.

(** The chain a view was resolved through is the view and its ancestors. *)
Lemma apply_runs_ancestors runs : forall acc acc',
  mfold apply_run acc runs = Ok acc' -> forall i, i ∈ acc.1 :: map fst runs -> i = acc'.1 \/ i ∈ vd_ancestors acc'.2.
Proof.
  assert (forall runs acc acc', mfold apply_run acc runs = Ok acc' -> forall i, i ∈ vd_ancestors acc.2 -> i ∈ vd_ancestors acc'.2) as Hmono.
  { induction runs0 as [|[j run] l IH]; intros acc acc' E i Hi; cbn [mfold] in E; [by injection E as <-|].
    apply rbind_Ok in E as (a1 & E1 & E2). unfold apply_run in E1. inv_ok. subst a1.
    apply apply_inv in Hok as (_ & _ & _ & _ & _ & _ & Ha & _). eapply IH; [exact E2|]. cbn. rewrite Ha. by right. }
  induction runs as [|[j run] runs IH]; intros acc acc' E i Hi; cbn [mfold] in E.
  - injection E as <-. apply list_elem_of_singleton in Hi. by left.
  - apply rbind_Ok in E as (a1 & E1 & E2). unfold apply_run in E1. inv_ok. subst a1. cbn [map fst] in *.
    apply apply_inv in Hok as (_ & _ & _ & _ & _ & _ & Ha & _).
    apply elem_of_cons in Hi as [->|Hi]; [|by apply (IH _ _ E2)].
    right. eapply Hmono; [exact E2|]. cbn. rewrite Ha. by left.
Qed.

Lemma load_metadata_transfer b1 b2 rows1 rows2 id m :
  (forall row, row ∈ rows2 -> row ∈ rows1) ->
  (forall i, i ∈ id :: vd_ancestors m -> agree b1 b2 (Manifest i) /\ forall row, row ∈ rows1 -> fst row = i -> row ∈ rows2) ->
  load_metadata b1 rows1 id = Ok m -> load_metadata b2 rows2 id = Ok m.
Proof.
  intros Hsub Hag E. unfold load_metadata in *. destruct (load_loop LOAD_FUEL b1 _ _ _ _ _) as [r|] eqn:El; [|done].
  apply rbind_Ok in E as ([[rid m0] runs] & -> & E). apply rbind_Ok in E as (acc & Ea & E). injection E as Em.
  assert (acc.1 = id) as Hid.
  { pose proof (load_loop_spec _ _ _ _ _ _ _ _ _ _ El) as (_ & pre & -> & _ & Hlast). rewrite app_nil_r in *.
    pose proof (apply_runs_inv _ _ _ Ea) as Hi. rewrite last_cons in Hlast. rewrite fmap_last in Hlast.
    destruct (last pre) as [[i run]|]; cbn in *; [destruct Hi as [-> _]; by injection Hlast as <-|subst acc; by injection Hlast]. }
  rewrite (load_loop_transfer LOAD_FUEL b1 b2 rows1 rows2 _ _ _ _ _ _ _ Hsub) with (2 := El).
  - cbn [rbind]. rewrite Ea. cbn [rbind]. by rewrite Em.
  - intros i Hi. apply Hag. destruct (apply_runs_ancestors _ _ _ Ea i Hi) as [->|Hi']; [rewrite Hid; by left|]. right. by rewrite <- Em.
Qed.

Lemma read_ranges_transfer b1 b2 requests results :
  check_batch requests = Ok tt -> (forall r, r ∈ requests -> agree b1 b2 (or_key r)) ->
  read_ranges b1 requests = Ok results -> read_ranges b2 requests = Ok results.
Proof.
  intros Hc Ha E. apply read_ranges_exact in E.
  assert (Forall (fun r => exists o, contents b2 !! or_key r = Some o /\ sr_end (or_range r) <= zlen o) requests) as Hl.
  { rewrite Forall_forall. intros r Hr. apply list_elem_of_lookup in Hr as [i Hi].
    destruct (Forall2_lookup_l _ _ _ _ _ E Hi) as (v & _ & o & Ho & Hle & _). exists o.
    rewrite Ha by (by eapply list_elem_of_lookup_2). done. }
  destruct (read_ranges_live b2 requests Hc Hl) as [results2 E2]. rewrite E2. f_equal.
  apply read_ranges_exact in E2. clear Hc Hl. revert results2 E2.
  induction E as [|r v requests results (o & Ho & _ & ->) E IH]; intros results2 E2; inversion E2 as [|? v2 ? results3 (o2 & Ho2 & _ & ->) E3]; subst; [done|].
  rewrite (Ha r) in Ho2 by (by left). rewrite Ho in Ho2. injection Ho2 as <-. f_equal. apply IH; [|done].
  intros r' Hr'. apply Ha. by right.
Qed.

(** The preferred representation of a pack is pinned by both, in blobs that agree. *)
Definition same_pack (b1 b2 : B) (p1 p2 : pin) (pack : Digest) : Prop :=
  forall pl1, p1 !! pack = Some pl1 -> exists pl2, p2 !! pack = Some pl2 /\ preferred pl2 = preferred pl1 /\
    forall r, preferred pl1 = Some r -> agree b1 b2 (blob_of r).

Lemma pin_read_transfer b1 b2 (p1 p2 : pin) pack r x :
  same_pack b1 b2 p1 p2 pack -> pin_read b1 p1 pack r = Ok x -> pin_read b2 p2 pack r = Ok x.
Proof.
  intros Hp E. unfold pin_read in *. destruct (_ =? _); [done|].
  apply rbind_Ok in E as (stored & Es & E). rewrite Es. cbn [rbind].
  apply rbind_Ok in E as (located & El & E). unfold pin_locate in *.
  destruct (p1 !! pack) as [pl1|] eqn:E1; [|done]. destruct (Hp _ E1) as (pl2 & -> & Hpref & Hag). cbn [ok_or rbind] in *.
  rewrite Hpref. destruct (preferred pl1) as [rep|]; [|done]. cbn [ok_or rbind] in *. specialize (Hag rep eq_refl).
  apply rbind_Ok in El as (lr & -> & El). injection El as <-. cbn [rbind].
  apply rbind_Ok in E as (out & Eo & E).
  assert (pin_read_ranges b2 [mkLocated (rp_extent rep) lr] = Ok out) as ->; [|done].
  unfold pin_read_ranges, Placement.order in *. cbn [imap isort foldr insert_sorted mfold merge_step last] in *.
  destruct ((zlen [_] =? 0) || _); [done|]. unfold total_length in *. cbn [mfold lr_range] in *.
  apply rbind_Ok in Eo as (total & Et & Eo). rewrite Et. cbn [rbind].
  destruct (MAX_BATCH_BYTES <? total) eqn:Hmax; [done|].
  apply rbind_Ok in Eo as ([merged slots] & Em & Eo). rewrite Em. cbn [rbind].
  apply rbind_Ok in Em as (acc & Em & Eacc). injection Eacc as ->. apply rbind_Ok in Em as (req & Ereq & Em). injection Em as <- <-.
  apply backend_Ok in Ereq. unfold ObjectRange_new in Ereq. apply fail_if_Ok in Ereq as [_ Ereq]. injection Ereq as <-.
  apply rbind_Ok in Eo as (answers & Ea & Eo). apply backend_Ok in Ea.
  apply (read_ranges_transfer b1 b2) in Ea; [cbn [app or_key or_range]; rewrite Ea; exact Eo| |].
  - apply rbind_Ok in Et as (n & Et & [= <-]). apply range_Ok, checked_add_Some in Et as [-> Hb].
    unfold check_batch, batch_total. cbn [zlen length mfold or_range rbind].
    rewrite (proj2 (checked_add_Some 0 (sr_length lr) (0 + sr_length lr))) by done. cbn [ok_or rbind]. by rewrite Hmax.
  - intros q ->%list_elem_of_singleton. exact Hag.
Qed.

Lemma load_dictionaries_transfer b1 b2 ids : forall loaded loaded',
  (forall d, d ∈ ids -> agree b1 b2 (Dictionary d)) ->
  mfold (load_dictionary b1) loaded ids = Ok loaded' -> mfold (load_dictionary b2) loaded ids = Ok loaded'.
Proof.
  induction ids as [|d ids IH]; intros loaded loaded' Ha E; [done|]. cbn [mfold] in *.
  apply rbind_Ok in E as (l1 & E1 & E). specialize (Ha d ltac:(by left)) as Hd.
  assert (load_dictionary b2 loaded d = Ok l1) as ->; [|apply IH; [intros; apply Ha; by right|done]].
  unfold load_dictionary, validate_dictionary in *. assert (MAX_DICTIONARY_BYTES <= U64_MAX) as Hl by done.
  apply rbind_Ok in E1 as (n & En & E1). apply rbind_Ok in En as (v & Ev & En).
  rewrite (read_all_transfer b1 b2 _ _ _ Hl Hd Ev). cbn [rbind]. rewrite En. cbn [rbind].
  apply rbind_Ok in E1 as (r & Er & E1). rewrite Er. cbn [rbind]. apply rbind_Ok in E1 as (w & Ew & E1).
  apply read_all_exact in Ev as [Hv Hz]; [|done]. inv_ok. subst n.
  apply value_Ok, StoredRange_new_spec in Er as [-> _].
  apply read_range_exact in Ew as (o & Ho & Hle & ->); [|cbn in *; lia..].
  rewrite (read_range_live b2 _ o); [by rewrite <- E1| |done| |by rewrite Hd|done]; cbn in *;
    unfold MAX_DICTIONARY_BYTES, MAX_BATCH_BYTES in *; lia.
Qed.

Lemma pin_new_total s ids : forall p0, (forall i, i ∈ ids -> exists pl, placement s i = Ok pl) ->
  exists p, mfold (fun (p : pin) pack => let* placements := placement s pack in Ok (<[pack := placements]> p)) p0 ids = Ok p.
Proof.
  induction ids as [|i ids IH]; intros p0 Hi; [by eexists|]. cbn [mfold]. destruct (Hi i ltac:(by left)) as [pl ->]. cbn [rbind].
  apply IH. intros j Hj. apply Hi. by right.
Qed.

(** Two catalogs that agree on everything a view is made of. *)
Record same_view (g1 g2 : CatalogGuard B) (v : PinnedView B) : Prop := {
  sv_rows : forall row, row ∈ endpoint_rows (cg_state g2) -> row ∈ endpoint_rows (cg_state g1);
  sv_manifests : forall i, i ∈ pn_id v :: vd_ancestors (pn_metadata v) ->
    agree (cg_backend g1) (cg_backend g2) (Manifest i) /\
    forall row, row ∈ endpoint_rows (cg_state g1) -> fst row = i -> row ∈ endpoint_rows (cg_state g2);
  sv_dictionaries : forall d, d ∈ dictionaries (pn_view v) -> agree (cg_backend g1) (cg_backend g2) (Dictionary d);
  sv_packs : forall pack p1, pack ∈ packs (pn_view v) -> placement (cg_state g1) pack = Ok p1 ->
    exists p2, placement (cg_state g2) pack = Ok p2 /\ pl_length p2 = pl_length p1 /\ preferred p2 = preferred p1 /\
      forall r, preferred p1 = Some r -> agree (cg_backend g1) (cg_backend g2) (blob_of r);
}.

Lemma open_id (g : CatalogGuard B) id v : PinnedView_open g id = Ok v -> pn_id v = id.
Proof. intros E. unfold PinnedView_open in E. inv_ok. by subst v. Qed.

Lemma open_transfer (g1 g2 : CatalogGuard B) id v :
  PinnedView_open g1 id = Ok v -> same_view g1 g2 v ->
  exists v', PinnedView_open g2 id = Ok v' /\ pn_id v' = pn_id v /\ pn_metadata v' = pn_metadata v /\
    pn_dictionaries v' = pn_dictionaries v /\ pn_storage v' = cg_backend g2 /\
    forall pack, pack ∈ packs (pn_view v) -> same_pack (cg_backend g1) (cg_backend g2) (pn_placement v) (pn_placement v') pack.
Proof.
  intros E [Hrows Hman Hdict Hpack]. unfold PinnedView_open in *.
  apply rbind_Ok in E as (m & Em & E). apply rbind_Ok in E as (loaded & El & E). apply rbind_Ok in E as ([] & Er & E).
  apply rbind_Ok in E as (lengths & Elen & E). apply rbind_Ok in E as (p & Ep & E). injection E as <-.
  cbn [pn_id pn_metadata pn_dictionaries pn_placement pn_view] in *. unfold pn_view in *. cbn [pn_metadata] in *.
  rewrite (load_metadata_transfer _ (cg_backend g2) _ (endpoint_rows (cg_state g2)) _ _ Hrows Hman Em). cbn [rbind].
  rewrite (load_dictionaries_transfer _ (cg_backend g2) _ _ _) with (2 := El); [|intros d Hd; by apply Hdict, isort_elements_elem].
  cbn [rbind].
  assert (forall i, i ∈ isort digest_leb (elements (packs (vd_view m))) -> exists p1, placement (cg_state g1) i = Ok p1 /\ p !! i = Some p1) as Hp1
    by (by eapply pin_new_lemma).
  assert (validate_ranges (cg_state g2) (vd_view m) = validate_ranges (cg_state g1) (vd_view m)) as ->.
  { unfold validate_ranges. f_equal. apply mmap_ext_in. intros i Hi. destruct (Hp1 i Hi) as (p1 & Hp & _).
    destruct (Hpack i p1 (proj1 (isort_elements_elem _ _) Hi) Hp) as (p2 & Hp2 & Hl & _). unfold pack_size. by rewrite Hp, Hp2; cbn [rbind]; rewrite Hl. }
  rewrite Er. cbn [rbind].
  destruct (mmap_total (fun key => let* n := logical_length g2 key in Ok (key, n)) (dependencies m id)) as [lengths2 ->].
  { intros key Hk. destruct (mmap_each _ _ _ _ Elen Hk) as (c & Hc). apply rbind_Ok in Hc as (n & Hn & _).
    assert (exists n2, logical_length g2 key = Ok n2) as [n2 ->]; [|by eexists].
    unfold dependencies in Hk. rewrite !elem_of_app, !list_elem_of_fmap in Hk. unfold logical_length in *.
    assert (forall k, agree (cg_backend g1) (cg_backend g2) k ->
      (let* n := backend (stat (cg_backend g1) k) in ok_or n (Domain.Backend BMissing)) = Ok n ->
      exists n2, (let* n := backend (stat (cg_backend g2) k) in ok_or n (Domain.Backend BMissing)) = Ok n2) as Hstat.
    { intros k Ha. rewrite !stat_live, Ha. cbn. destruct (contents _ !! k); [by eexists|done]. }
    destruct Hk as [(i & -> & Hi)|[(i & -> & Hi)|(i & -> & Hi)]]; apply isort_elements_elem in Hi.
    - apply Hstat; [|done]. apply Hman. by apply elem_of_list_to_set in Hi.
    - destruct (Hp1 i) as (p1 & Hp & _); [by apply isort_elements_elem|]. destruct (Hpack i p1 Hi Hp) as (p2 & -> & _). by eexists.
    - apply Hstat; [by apply Hdict|done]. }
  cbn [rbind]. destruct (pin_new_total (cg_state g2) (isort digest_leb (elements (packs (vd_view m)))) ∅) as [pin2 Ep2].
  { intros i Hi. destruct (Hp1 i Hi) as (p1 & Hp & _). destruct (Hpack i p1 (proj1 (isort_elements_elem _ _) Hi) Hp) as (p2 & -> & _). by eexists. }
  unfold pin_new. rewrite Ep2. cbn [rbind]. eexists. split; [done|]. cbn. split_and!; try done.
  intros pack Hin pl1 Hpl1. destruct (Hp1 pack) as (p1 & Hp & Hlk); [by apply isort_elements_elem|].
  rewrite Hlk in Hpl1. injection Hpl1 as <-. destruct (Hpack pack p1 Hin Hp) as (p2 & Hp2 & _ & Hpref & Hag).
  destruct (pin_new_lemma (cg_state g2) _ _ _ Ep2 pack) as (p2' & Hp2' & Hlk2); [by apply isort_elements_elem|].
  rewrite Hp2 in Hp2'. injection Hp2' as <-. by exists p2.
Qed.

(** A page that reads through the first pin reads the same through the second. *)
Lemma view_read_transfer (v v' : PinnedView B) n x :
  pn_metadata v' = pn_metadata v -> pn_dictionaries v' = pn_dictionaries v ->
  (forall pack, pack ∈ packs (pn_view v) -> same_pack (pn_storage v) (pn_storage v') (pn_placement v) (pn_placement v') pack) ->
  view_read v n = Ok x -> view_read v' n = Ok x.
Proof.
  intros Hm Hd Hp E. cbn [view_read PinnedView_sealed] in *.
  assert (resolve v' n = resolve v n) as -> by (unfold resolve, pn_view; by rewrite Hm).
  destruct (resolve v n) as [page|] eqn:Er; [|done]. cbn [rbind] in *. unfold ResolvedPage_read in *.
  destruct page as [|l slot]; [unfold pn_view; by rewrite Hm|].
  unfold fetch, fetch_record in *. apply rbind_Ok in E as (frame & E1 & E2). apply rbind_Ok in E1 as (pr & E1 & E3).
  apply rbind_Ok in E1 as (record & E0 & E1).
  assert (fl_pack l ∈ packs (pn_view v)) as Hin.
  { unfold resolve in Er. inv_ok. destruct (vm_pages _ !! n) as [st|]; [|done]. inv_ok. injection Er as -> <-.
    unfold packs. apply elem_of_list_to_set, list_elem_of_fmap. exists (sp_frame st, l). split; [done|]. by apply elem_of_map_to_list. }
  assert (read_record v' l = Ok record) as ->.
  { unfold read_record in *. apply rbind_Ok in E0 as (o & -> & E0). cbn [rbind]. apply rbind_Ok in E0 as (len & -> & E0). cbn [rbind].
    apply rbind_Ok in E0 as (r & -> & E0). cbn [rbind]. by eapply pin_read_transfer; [apply Hp|]. }
  cbn [rbind]. assert (decode_record v' l record = decode_record v l record) as -> by (unfold decode_record; by rewrite Hd).
  rewrite E1. cbn [rbind]. by injection E3 as ->.
Qed.
End Transfer.

(** ** Collections *)

Section Views.
Context {HH : Hashes} {HOK : HashesOk HH} {Z0 : ZstdLib} {ZOK : ZstdOk Z0}.
Context {B : Type} {SB : StorageBackend B} {BL : BackendLaws B} {BV : BackendLive B}.
Context {CB : Collectable B} {CL : CollectableLaws B}.
Implicit Types g : CatalogGuard B.

Lemma rooted_open l g v : rooted l g v -> PinnedView_open g (pn_id v) = Ok v.
Proof.
  assert (forall id v, PinnedView_open g id = Ok v -> PinnedView_open g (pn_id v) = Ok v) as Ho
    by (intros id w E; by rewrite (open_id _ _ _ E)).
  intros [w E|name e h header w _ _ _ E|name e pin w _ _ E|name id w _ _ E]; [|by eapply Ho| |by eapply Ho].
  - unfold active_view in E. destruct (lo_active l); [|done]. inv_ok. destruct (bytes_eqb _ _); [done|]. inv_ok.
    subst a2. by eapply Ho.
  - unfold pin_retained in E. inv_ok. subst w. by eapply Ho.
Qed.

(** The bytes of placement records. *)
Definition placement_bytes (s : State) : Prop :=
  forall k e, ix_entries (st_placements s) !! k = Some e -> is_bytes e /\ zlen e <= U64_MAX.

(** A preferred representation outside the deleted blobs stays the preferred one. *)
Lemma kept_preferred deleting p r :
  preferred p = Some r -> blob_of r ∉ deleting ->
  exists kept, kept_representations deleting p = r :: kept.
Proof.
  unfold preferred, kept_representations. destruct (pl_representations p) as [|x l]; [done|]. intros [= ->] Hr.
  cbn [List.filter]. rewrite bool_decide_false by done. cbn. by eexists.
Qed.

Lemma deps_elem (v : PinnedView B) k :
  k ∈ deps v <-> match k with
                 | LManifest i => i ∈ pn_id v :: vd_ancestors (pn_metadata v)
                 | LPack i => i ∈ packs (pn_view v)
                 | LDictionary i => i ∈ dictionaries (pn_view v)
                 | LStaging _ => False
                 end.
Proof.
  unfold deps, dependencies. rewrite elem_of_list_to_set, !elem_of_app, !list_elem_of_fmap.
  unfold pn_view. split.
  - intros [(i & -> & Hi)|[(i & -> & Hi)|(i & -> & Hi)]]; apply isort_elements_elem in Hi; [|done..].
    by apply elem_of_list_to_set in Hi.
  - destruct k as [i|i|i|i]; intros Hi; [left|right; left|right; right|done]; exists i; (split; [done|]);
      apply isort_elements_elem; [|done..]. by apply elem_of_list_to_set.
Qed.

(** What a plan protects survives publication and deletion unchanged. *)
Lemma protected_agrees b p b2 s2 r g' s1 r2 k :
  Catalog.publish b s1 = (r2, s2, b2) ->
  delete_all (mkSession (gp_physical p ∪ index_objects s2) ∅) (ta_deletable (gr_tally (gp_report p))) 0 0 (mkGuard b2 s2) = (r, g') ->
  k ∈ gp_physical p -> is_Some (contents b !! k) -> agree b (cg_backend g') k.
Proof.
  intros Ep Ed Hk [x Hx]. apply publish_lemma in Ep as [Hadd _]. apply delete_all_lemma in Ed as (_ & _ & Hkeep & _ & _).
  unfold agree. rewrite Hkeep; cbn [cg_backend gs_live]; [|right; set_solver]. by rewrite Hx; apply Hadd.
Qed.

Lemma collect_same_view l budget g s report g' v :
  published g s -> placement_bytes s -> collect l budget g = (Ok report, g') ->
  rooted l (mkGuard (cg_backend g) s) v -> same_view (mkGuard (cg_backend g) s) g' v.
Proof.
  intros Hs Hpb E Hroot. apply collect_inv in E as [[Hb Hr]|(s0 & p & s1 & r2 & s2 & b2 & Hs0 & Hp & Hret & Epub & _ & Hr)].
  { destruct (Hr _ eq_refl) as (s0 & _ & Hs0 & _ & _ & _ & ->). unfold published in *. assert (s0 = s) as -> by congruence.
    split; try done. intros pack p1 _ Hp1. by exists p1. }
  unfold published in *. assert (s0 = s) as -> by congruence. clear Hs0.
  destruct (plan_lemma _ _ _ _ Hp) as (Hlog & Hphys & Hexist & Hdel & Hstored). cbn [cg_backend cg_state] in *.
  destruct r2 as [[]|e]; [|by destruct Hr]. destruct Hr as (r3 & Hr & _).
  pose proof (delete_all_lemma _ _ _ _ _ _ _ Hr) as (Hst & _). cbn [cg_state] in Hst.
  assert (forall k, k ∈ gp_physical p -> agree (cg_backend g) (cg_backend g') k) as Hagree
    by (intros k Hk; eapply protected_agrees; [exact Epub|exact Hr|done|by apply Hexist]).
  assert (forall k, k ∈ gp_physical p -> k ∉ map fst (ta_deletable (gr_tally (gp_report p)))) as Hsafe.
  { intros k Hk Hd. rewrite Hdel in Hd. assert (k ∈ garbage (cg_backend g) (gp_physical p)) as Hg.
    { rewrite <- (take_drop (Z.to_nat budget)). apply elem_of_app. by left. }
    by apply garbage_elem in Hg as [_ Hg]. }
  assert (forall k x, k ∈ deps v -> stored_as s k x -> x ∈ gp_physical p) as Hneed.
  { intros k x Hk Hx. apply Hphys. left. eapply needed_live; [|exact Hx]. by eapply live_view. }
  apply publish_adds in Epub as (Hpl & Hend & _). unfold retires in Hret.
  apply retire_placements_lemma in Hret as (_ & _ & Hend1 & Hplace); [|apply sorted_list_NoDup]. destruct (Hplace eq_refl) as [Hplace1 _].
  destruct (retire_endpoints_lemma (ta_deletable (gr_tally (gp_report p))) s) as (_ & _ & Hrow). cbn [cg_state] in *.
  rewrite Hend1 in Hend.
  assert (forall k, ix_entries (st_endpoints s2) !! k = if decide (Manifest k ∈ map fst (ta_deletable (gr_tally (gp_report p))))
    then None else ix_entries (st_endpoints s) !! k) as Hrows by (intros k; by rewrite Hend, Hrow).
  split; unfold endpoint_rows; cbn [cg_backend cg_state]; rewrite ?Hst.
  - intros [k e] Hin. apply sorted_list_elem in Hin. apply sorted_list_elem. rewrite Hrows in Hin. by case_decide.
  - intros i Hi. assert (Manifest i ∈ gp_physical p) as Hm by (apply (Hneed (LManifest i)); [by apply deps_elem|constructor]).
    split; [by apply Hagree|]. intros [k e] Hin Hk. cbn in Hk. subst k. apply sorted_list_elem in Hin. apply sorted_list_elem.
    rewrite Hrows, decide_False; [done|by apply Hsafe].
  - intros d Hd. apply Hagree, (Hneed (LDictionary d)); [by apply deps_elem|constructor].
  - intros pack p1 Hin Hp1. unfold placement in Hp1. apply rbind_Ok in Hp1 as (e & He & Hp1). apply ok_or_Ok in He.
    destruct (Hplace1 pack e) as (q & Hq & _ & Hlk); [by apply sorted_list_elem|].
    unfold decode_placement in Hq. apply fail_if_Ok in Hq as [_ Hq]. cbn [fst snd] in Hq. rewrite Hp1 in Hq. injection Hq as <-.
    destruct (Hpb pack e He) as [Hb1 Hb2]. destruct (placements_decode_ok _ _ _ Hb1 Hb2 Hp1) as [Hok Hpack].
    destruct (preferred p1) as [r|] eqn:Er.
    2: { destruct Hok as (_ & _ & _ & Hn & _). unfold preferred in Er. destruct (pl_representations p1); [rewrite zlen_nil in Hn; lia|done]. }
    assert (blob_of r ∈ gp_physical p) as Hphy.
    { apply (Hneed (LPack pack)); [by apply deps_elem|]. econstructor; [|exact Er]. unfold placement. by rewrite He. }
    destruct (kept_preferred (list_to_set (map fst (ta_deletable (gr_tally (gp_report p))))) p1 r Er) as [kept Hkept].
    { rewrite elem_of_list_to_set. by apply Hsafe. }
    unfold retired_placement in Hlk. pose proof (kept_placements_ok (list_to_set (map fst (ta_deletable (gr_tally (gp_report p))))) p1 Hok) as Hkok.
    rewrite Hkept in Hlk, Hkok. specialize (Hkok ltac:(done)).
    exists (mkPlacements (pl_pack p1) (pl_length p1) (pl_cohort p1) (r :: kept)). unfold placement. rewrite Hpl, Hlk. cbn [ok_or rbind].
    apply placements_roundtrip_lemma in Hkok. cbn [pl_pack] in Hkok. rewrite Hpack in Hkok |- *. rewrite Hkok.
    split_and!; try done. intros r' [= <-]. by apply Hagree.
Qed.

(** C29. A collection preserves what can be read: every view that was rooted opens again through
    the catalog the collection leaves, as the same database at the same point with the same pages
    in the same frames, and every page that could be read before reads the same. *)
Theorem collect_preserves_views l budget g s report g' v :
  published g s -> placement_bytes s -> collect l budget g = (Ok report, g') ->
  rooted l (mkGuard (cg_backend g) s) v ->
  exists v', PinnedView_open g' (pn_id v) = Ok v' /\ pn_metadata v' = pn_metadata v /\
    pn_dictionaries v' = pn_dictionaries v /\
    forall n b, view_read v n = Ok b -> view_read v' n = Ok b.
Proof.
  intros Hs Hpb E Hroot. pose proof (rooted_open _ _ _ Hroot) as Hopen.
  destruct (open_transfer _ g' _ _ Hopen) as (v' & Ho & _ & Hm & Hd & Hst & Hpk); [by eapply collect_same_view|].
  exists v'. split_and!; try done. intros n b. apply view_read_transfer; [done..|].
  intros pack Hin. unfold PinnedView_open in Hopen. inv_ok. rewrite Hst. specialize (Hpk pack Hin).
  by rewrite <- Hopen in Hpk |- *.
Qed.
End Views.
