(* ===== verification/RetentionDemo.v ===== *)
(** A collection in the in-memory backend: the view of [SealedDemo], kept by a reader, beside an
    orphan dictionary; and a retention of that view. The witnesses of the theorems on collection,
    retention and sealing. *)

From S2P Require Import Prelude Domain Layout Format Wire Segment Frame Pack Backend CatalogIndex Catalog Placement View ViewProofs ViewDemo Manifest ManifestProofs ManifestDemo Active Store StoreProofs Sealed SealedProofs SealedDemo Seal SealProofs Retention RetentionTrace RetentionPlan RetentionProofs RetentionViews.
From stdpp Require Import base strings gmap list sorting.
From Stdlib Require Import ZArith Lia.
Open Scope Z_scope.

#[local] Existing Instances demo_hashes demo_zstd demo_hashes_ok demo_zstd_ok.

Definition demo_littered : CatalogGuard MemoryBackend := Eval vm_compute in
  mkGuard (backend_put (cg_backend demo_seal4.2) (Dictionary (demo_id 77)) [1; 2; 3]).2 (cg_state demo_seal4.2).

Definition demo_local : Local := Eval vm_compute in
  mkLocal (demo_id 50) (Ok (ascii "/db")) None (Ok None) (Ok [Ok (hex demo_id4, Held)]) (Ok []) (Ok []).

(** ** Collection *)

Definition demo_current : State := Eval vm_compute in
  unwrap (cg_state demo_littered) (load_for (cg_backend demo_littered) (st_selected (cg_state demo_littered))).

Definition demo_collected := Eval vm_compute in collect demo_local 10 demo_littered.

Lemma demo_is_published : published demo_littered demo_current.
Proof. vm_compute. reflexivity. Qed.

Definition demo_kept : PinnedView MemoryBackend := Eval vm_compute in
  unwrap demo_unpinned (PinnedView_open (mkGuard (cg_backend demo_littered) demo_current) demo_id4).

Lemma demo_reader_rooted : rooted demo_local (mkGuard (cg_backend demo_littered) demo_current) demo_kept.
Proof.
  apply (rooted_reader _ _ (hex demo_id4) demo_id4); [|vm_compute; reflexivity|vm_compute; reflexivity].
  eexists. split; [reflexivity|]. vm_compute. left.
Qed.

Lemma demo_placement_bytes : placement_bytes demo_current.
Proof.
  intros k e Hk. assert (forallb (fun x => bytes_check (snd x) && (zlen (snd x) <=? U64_MAX))
    (map_to_list (ix_entries (st_placements demo_current))) = true) as Hall by (vm_compute; reflexivity).
  rewrite forallb_forall in Hall. specialize (Hall (k, e)). cbn [snd] in Hall.
  apply elem_of_map_to_list, list_elem_of_In in Hk. apply Hall, andb_true_iff in Hk as [Hb Hl].
  split; [by apply bytes_check_ok|by apply Z.leb_le].
Qed.

Definition demo_report : GcReport := Eval vm_compute in
  unwrap (mkReport (mkTally 0 0 0 0 0 0 0 0 []) 0 (mkDead ∅ 0 0) 0 0 0) demo_collected.1.

(** The manifest of the reader's view survives the collection that deletes the orphan. *)
Lemma collect_keeps_needed_witness :
  is_Some (contents (cg_backend demo_collected.2) !! Manifest demo_id4) /\
  contents (cg_backend demo_collected.2) !! Dictionary (demo_id 77) = None.
Proof.
  split; [|vm_compute; reflexivity].
  destruct (collect_keeps_needed demo_local 10 demo_littered demo_current demo_collected.1 demo_collected.2
    demo_is_published) as [Hkeep _]; [vm_compute; reflexivity|].
  assert (is_Some (contents (cg_backend demo_littered) !! Manifest demo_id4)) as [v Hv]
    by (apply (bool_decide_unpack _); vm_compute; exact I).
  exists v. apply Hkeep; [|exact Hv]. apply (needed_live _ _ (LManifest demo_id4)); [|constructor].
  apply (live_view _ _ demo_kept); [exact demo_reader_rooted|]. apply (bool_decide_unpack _). vm_compute. exact I.
Defined.

(** What the collection leaves is what the reader and the indexes need. *)
Lemma collect_leaves_only_needed_witness :
  exists s, published demo_littered s /\
    forall o, is_Some (contents (cg_backend demo_collected.2) !! o) ->
      needed demo_local (mkGuard (cg_backend demo_littered) s) o \/
      undecided demo_local (mkGuard (cg_backend demo_littered) s) o \/
      o ∈ index_objects (cg_state demo_collected.2).
Proof.
  apply (collect_leaves_only_needed demo_local 10 demo_littered demo_report demo_collected.2);
    [vm_compute; reflexivity|vm_compute; reflexivity].
Defined.

(** The reader's view opens again and its pages read the same. *)
Lemma collect_preserves_views_witness :
  exists v, PinnedView_open demo_collected.2 demo_id4 = Ok v /\ is_ok (view_read v 2) = true.
Proof.
  destruct (collect_preserves_views demo_local 10 demo_littered demo_current demo_report demo_collected.2
    demo_kept demo_is_published demo_placement_bytes) as (v & Ho & _ & _ & Hread);
    [vm_compute; reflexivity|exact demo_reader_rooted|].
  exists v. split; [exact Ho|].
  assert (exists b, view_read demo_kept 2 = Ok b) as [b Hb] by (eexists; vm_compute; reflexivity).
  rewrite (Hread 2 b Hb). reflexivity.
Defined.

(** ** Retention *)

Definition demo_root_name : bytes := Eval vm_compute in ascii "before-upgrade".
Definition demo_retention := Eval vm_compute in
  retain (Ok (demo_id 60)) demo_root_name true demo_id4 false demo_littered.
Definition demo_pin : DurablePin := Eval vm_compute in
  match demo_retention.1 with Ok p => p | Err _ => mkDurablePin [] [] 0 [] [] end.

(** A second retention of the same endpoint holds another token and cannot release this one. *)
Lemma retention_needs_token_witness :
  retention_root (cg_state demo_retention.2) demo_root_name = Ok demo_pin /\
  let other := mkDurablePin demo_root_name (dp_hash demo_pin) (dp_txid demo_pin) (dp_database demo_pin) (demo_id 61) in
  release other demo_retention.2 = (Err Busy, demo_retention.2).
Proof.
  destruct (retention_needs_token (Ok (demo_id 60)) demo_root_name true demo_id4 false demo_littered demo_pin
    demo_retention.2) as (Hroot & _ & _ & Hother & _).
  - vm_compute. reflexivity.
  - unfold pin_ok, digest_ok, txid_ok. split_and!; try (apply bytes_check_ok; vm_compute; reflexivity); vm_compute; (reflexivity || discriminate).
  - split; [exact Hroot|]. apply Hother; [reflexivity|vm_compute; discriminate].
Defined.

(** ** Sealing *)

(** The second active file is based on a view at transaction 1. *)
Definition demo_next_header : ActiveHeader := Eval vm_compute in
  mkActiveHeader (ah_attachment_id demo_header) (ah_database_id demo_header) 512 2 (demo_id 3) (demo_id 4) 1024
    (ah_policy demo_header) demo_layout 0 ZERO_DIGEST.

Lemma demo_next_header_ok : active_header_ok demo_next_header.
Proof.
  unfold active_header_ok, demo_next_header, policy_ok, U64_MAX, is_u64, is_u32; cbn.
  split_and!; try done; try lia; try (split; [reflexivity|apply bytes_check_ok; reflexivity]).
  - apply demo_layout_ok.
  - right. split; [apply page_size_512|done].
Qed.

Definition demo_attached : CatalogGuard MemoryBackend := Eval vm_compute in
  with_state (fun s => set_branch (set_database s (Some (ah_database_id demo_header)))
                         (Some (ah_attachment_id demo_header)) None None) demo_littered.
Definition demo_prepared := Eval vm_compute in prepare_seal demo_local demo_next_header demo_attached.
Definition demo_finished := Eval vm_compute in finish_seal demo_local demo_next_header demo_prepared.2.

Definition demo_recovered := Eval vm_compute in recover_seal demo_local demo_next_header demo_prepared.2.


(** Preparing publishes the descriptor as pending, and finishing moves it to the sealed one. *)
Lemma seal_refines_protocol_witness :
  publishes_branch demo_attached (None, Some demo_next_header) (Ok tt) demo_prepared.2 /\
  publishes_branch demo_prepared.2 (Some demo_next_header, None) (Ok tt) demo_finished.2.
Proof.
  assert (validate_attachment demo_local (cg_state demo_attached) demo_next_header = Ok tt) as Ha by (vm_compute; reflexivity).
  assert (validate_attachment demo_local (cg_state demo_prepared.2) demo_next_header = Ok tt) as Hp by (vm_compute; reflexivity).
  assert (finish_branch demo_next_header (branch_of (cg_state demo_prepared.2)) = Some (Some demo_next_header, None)) as Hf
    by (vm_compute; reflexivity).
  assert (prepare_seal demo_local demo_next_header demo_attached = (Ok tt, demo_prepared.2)) as E1 by (vm_compute; reflexivity).
  assert (finish_seal demo_local demo_next_header demo_prepared.2 = (Ok tt, demo_finished.2)) as E2 by (vm_compute; reflexivity).
  split.
  - destruct (seal_refines_protocol demo_local demo_next_header demo_attached (Ok tt) demo_prepared.2) as (H & _).
    specialize (H E1). rewrite Ha in H. exact H.
  - destruct (seal_refines_protocol demo_local demo_next_header demo_prepared.2 (Ok tt) demo_finished.2) as (_ & H & _).
    specialize (H E2). rewrite Hp, Hf in H. destruct H as [[H _]|H]; [discriminate H|exact H].
Defined.
