(* ===== verification/Maintenance.v ===== *)
(** Bounded read-ahead for maintenance (src/src/storage/maintenance_read.rs): the records of many
    frames are read through a few windows, each a range of one pack, of which one is kept in
    memory. The theorems say that a read through the windows returns exactly the record at the
    frame's location, in whatever order frames are visited, and how much is read in all. *)

From S2P Require Import Prelude Domain Format Wire Segment Frame Pack Backend CatalogIndex Catalog Placement View ViewProofs Manifest Store StoreProofs Sealed SealedProofs.
From stdpp Require Import base strings gmap list sorting.
From Stdlib Require Import ZArith Lia.
Open Scope Z_scope.

Definition WINDOW_BYTES : Z := 8 * 1024 * 1024.
Definition SINGLE_FRAME_BYTES : Z := 16 * 1024 * 1024.
Definition GAP_BYTES : Z := 64 * 1024.
Definition READ_AMPLIFICATION : Z := 4.

(** ** Planning *)

Record Span : Set := mkFrameSpan { ms_pack : Digest; ms_start : Z; ms_end : Z }.

#[export] Instance Span_eq_dec : EqDecision Span.
Proof. solve_decision. Defined.

(** The whole serialized record of a frame: prefix, metadata, header, payload. *)
Definition Span_frame (l : FrameLocation) : result StoreError Span :=
  fail_if negb (pk_length (fl_payload l) =? fm_payload_bytes (fl_metadata l)) with Range ;;
  let* n := range (checked_add (encoded_len (fl_metadata l)) 36) in
  let* prefix := range (checked_add n FRAME_HEADER_SIZE) in
  let* start := range (checked_sub (pk_offset (fl_payload l)) prefix) in
  fail_if start <? HEADER_SIZE with Range ;;
  let* stop := range (checked_add (pk_offset (fl_payload l)) (pk_length (fl_payload l))) in
  Ok (mkFrameSpan (fl_pack l) start stop).

Record Window : Set := mkWindow { mw_span : Span; mw_frame_bytes : Z }.

(** The order of [(pack, start, end)]. *)
Definition span_leb (a b : Span) : bool :=
  match digest_compare (ms_pack a) (ms_pack b) with
  | Lt => true
  | Gt => false
  | Eq => (ms_start a <? ms_start b) || ((ms_start a =? ms_start b) && (ms_end a <=? ms_end b))
  end.

(** [Vec::dedup] *)
Fixpoint dedup (l : list Span) : list Span :=
  match l with
  | x :: (y :: _) as rest => if bool_decide (x = y) then dedup rest else x :: dedup rest
  | _ => l
  end.

Definition frame_length (f : Span) : result StoreError Z :=
  let* n := range (checked_sub (ms_end f) (ms_start f)) in
  fail_if (n =? 0) || (SINGLE_FRAME_BYTES <? n) with Range ;;
  Ok n.

(** Whether the frame extends the last window, and the bytes of the frames in it then. *)
Definition extends (w : Window) (f : Span) (frame_bytes : Z) : result StoreError (option Z) :=
  if bytes_eqb (ms_pack (mw_span w)) (ms_pack f) then
    let* gap := ok_or (checked_sub (ms_start f) (ms_end (mw_span w))) (Corrupt (ms_start f)) in
    let length := ms_end f - ms_start (mw_span w) in
    let* included := range (checked_add (mw_frame_bytes w) frame_bytes) in
    let* amplified := range (checked_mul included READ_AMPLIFICATION) in
    Ok (if (gap <=? GAP_BYTES) && (length <=? WINDOW_BYTES) && (length <=? amplified)
        then Some included else None)
  else Ok None.

Definition plan_step (windows : list Window) (f : Span) : result StoreError (list Window) :=
  let* frame_bytes := frame_length f in
  let* extended := match last windows with
                   | Some w => let* e := extends w f frame_bytes in Ok (pair w <$> e)
                   | None => Ok None
                   end in
  Ok (match extended with
      | Some (w, included) =>
          removelast windows ++
          [mkWindow (mkFrameSpan (ms_pack (mw_span w)) (ms_start (mw_span w)) (ms_end f)) included]
      | None => windows ++ [mkWindow f frame_bytes]
      end).

Definition plan (frames : list Span) : result StoreError (list Window) :=
  mfold plan_step [] (dedup (isort span_leb frames)).

(** ** Reading *)

Record MaintenanceReads : Set := mkReads {
  mr_windows : list Window;
  mr_cached : option (nat * bytes);
}.

(** [(window.span.pack, window.span.start) <= (frame.pack, frame.start)] *)
Definition window_leb (w : Window) (f : Span) : bool :=
  match digest_compare (ms_pack (mw_span w)) (ms_pack f) with
  | Lt => true
  | Gt => false
  | Eq => ms_start (mw_span w) <=? ms_start f
  end.

(** [partition_point] of a partitioned slice. *)
Fixpoint partition_point {A} (p : A -> bool) (l : list A) : nat :=
  match l with
  | x :: l => if p x then S (partition_point p l) else O
  | [] => O
  end.

Section Reads.
Context `{Hashes, ZstdLib, StorageBackend B}.

Definition reads_span (p : pin) (l : FrameLocation) : result StoreError Span :=
  let* f := Span_frame l in
  let* length := pin_length p (ms_pack f) in
  fail_if length <? ms_end f with Range ;;
  Ok f.

Definition MaintenanceReads_new (p : pin) (locations : list FrameLocation) : result StoreError MaintenanceReads :=
  let* frames := mmap (reads_span p) locations in
  let* windows := plan frames in
  Ok (mkReads windows None).

(** The buffer is released before the next window is read, so a failed read leaves none. *)
Definition fill_window (b : B) (p : pin) (index : nat) (w : Span) : sm MaintenanceReads bytes := fun r =>
  match mr_cached r ≫= (fun c => if (fst c =? index)%nat then Some (snd c) else None) with
  | Some buffer => (Ok buffer, r)
  | None =>
      match (let* s := value (StoredRange_new (ms_start w) (ms_end w - ms_start w)) in
             pin_read b p (ms_pack w) s) with
      | Err e => (Err e, mkReads (mr_windows r) None)
      | Ok buffer => (Ok buffer, mkReads (mr_windows r) (Some (index, buffer)))
      end
  end.

Definition reads_window (r : MaintenanceReads) (f : Span) : result StoreError (nat * Span) :=
  match partition_point (fun w => window_leb w f) (mr_windows r) with
  | O => Err Range
  | S index =>
      let* w := ok_or (mr_windows r !! index) Range in
      fail_if negb (bytes_eqb (ms_pack (mw_span w)) (ms_pack f)) || (ms_end (mw_span w) <? ms_end f) with Range ;;
      Ok (index, mw_span w)
  end.

Definition reads_read (b : B) (p : pin) (l : FrameLocation) : sm MaintenanceReads bytes :=
  let! f := slift (Span_frame l) in
  let! r := sget in
  let! found := slift (reads_window r f) in
  let w := snd found in
  let! buffer := fill_window b p (fst found) w in
  slift (let* o := range (checked_sub (pk_offset (fl_payload l)) FRAME_HEADER_SIZE) in
         let* start := range (checked_sub o (ms_start w)) in
         let stop := ms_end f - ms_start w in
         fail_if (stop <? start) || (zlen buffer <? stop) with Range ;;
         Ok (slice buffer start stop)).
End Reads.

(** ** The plan *)

Definition span_length (f : Span) : Z := ms_end f - ms_start f.
Definition covers_span (w : Window) (f : Span) : Prop :=
  ms_pack (mw_span w) = ms_pack f /\ ms_start (mw_span w) <= ms_start f /\ ms_end f <= ms_end (mw_span w).

(** Windows follow each other: in a later pack, or past the end in the same one. *)
Definition before (a b : Span) : Prop :=
  digest_ltb (ms_pack a) (ms_pack b) = true \/ ms_pack a = ms_pack b /\ ms_end a <= ms_start b.

Definition window_ok (w : Window) : Prop :=
  ms_start (mw_span w) < ms_end (mw_span w) /\ span_length (mw_span w) <= SINGLE_FRAME_BYTES /\
  span_length (mw_span w) <= READ_AMPLIFICATION * mw_frame_bytes w.

Definition spans_total (l : list Span) : Z := foldr (fun f n => span_length f + n) 0 l.
Definition windows_total (l : list Window) : Z := foldr (fun w n => span_length (mw_span w) + n) 0 l.
Definition frames_total (l : list Window) : Z := foldr (fun w n => mw_frame_bytes w + n) 0 l.

Lemma spans_total_app l k : spans_total (l ++ k) = spans_total l + spans_total k.
Proof. unfold spans_total. induction l as [|f l IH]; cbn [app foldr]; [done|]. rewrite IH. lia. Qed.
Lemma frames_total_app l k : frames_total (l ++ k) = frames_total l + frames_total k.
Proof. unfold frames_total. induction l as [|f l IH]; cbn [app foldr]; [done|]. rewrite IH. lia. Qed.

(** What holds after the frames of [done] have been planned. *)
Record plan_inv (done : list Span) (windows : list Window) : Prop := {
  plan_sorted : StronglySorted (fun a b => before (mw_span a) (mw_span b)) windows;
  plan_windows : Forall window_ok windows;
  plan_covers : forall f, f ∈ done -> exists w, w ∈ windows /\ covers_span w f;
  plan_ends : forall w, w ∈ windows -> exists f g, f ∈ done /\ g ∈ done /\
    ms_pack f = ms_pack (mw_span w) /\ ms_pack g = ms_pack (mw_span w) /\
    ms_start f = ms_start (mw_span w) /\ ms_end g = ms_end (mw_span w);
  plan_bytes : frames_total windows = spans_total done;
  plan_last : forall w, last windows = Some w -> exists f, last done = Some f /\ ms_pack f = ms_pack (mw_span w);
}.

Lemma frame_length_lemma f n :
  frame_length f = Ok n -> n = span_length f /\ 1 <= n <= SINGLE_FRAME_BYTES.
Proof.
  unfold frame_length, span_length. intros E. inv_all. apply checked_sub_Some in Hok as [-> ?].
  apply orb_false_iff in Hguard. subst n. bools. split; [done|]. lia.
Qed.

(** A frame past the last window opens one of its own. *)
Lemma plan_push done windows f :
  plan_inv done windows -> 1 <= span_length f <= SINGLE_FRAME_BYTES ->
  (forall w, last windows = Some w -> before (mw_span w) f) ->
  plan_inv (done ++ [f]) (windows ++ [mkWindow f (span_length f)]).
Proof.
  intros [Hs Hw Hc He Hb Hl] Hlen Hbef. unfold span_length in Hlen. split.
  - apply StronglySorted_app. split; [|split; [done|repeat constructor]].
    intros a b Ha Hf%list_elem_of_singleton. subst b. cbn [mw_span].
    destruct (last windows) as [w|] eqn:Ew; [|apply last_None in Ew; subst; by apply elem_of_nil in Ha].
    specialize (Hbef w eq_refl). apply last_Some in Ew as [k ->]. apply elem_of_snoc in Ha as [->|Ha]; [done|].
    apply StronglySorted_app in Hs as (Hk & _ & _). specialize (Hk a w Ha ltac:(by left)).
    apply Forall_app in Hw as [_ Hw]. apply Forall_singleton in Hw as (Hpos & _).
    destruct Hk as [Hk|[Hk1 Hk2]], Hbef as [Hf|[Hf1 Hf2]]; unfold before.
    + left. by eapply digest_ltb_trans.
    + left. congruence.
    + left. congruence.
    + right. split; [congruence|lia].
  - apply Forall_app. split; [done|]. apply Forall_singleton. unfold window_ok, span_length, READ_AMPLIFICATION. cbn. lia.
  - intros g [->|Hg]%elem_of_snoc.
    + exists (mkWindow f (span_length f)). split; [apply elem_of_snoc; by left|]. split_and!; cbn; (done || lia).
    + destruct (Hc g Hg) as (w & Hin & Hcov). exists w. split; [|done]. apply elem_of_snoc. by right.
  - intros w [->|Hin]%elem_of_snoc.
    + exists f, f. cbn. split_and!; try done; apply elem_of_snoc; by left.
    + destruct (He w Hin) as (g & k & H1 & H2 & H3). exists g, k. split_and!; try (apply elem_of_snoc; by right); tauto.
  - rewrite frames_total_app, spans_total_app, Hb. done.
  - intros w Hlast. rewrite last_snoc in Hlast. injection Hlast as <-. exists f. by rewrite last_snoc.
Qed.

(** A frame after the last window, in the same pack, may be read with it. *)
Lemma plan_extend done windows w f :
  plan_inv done (windows ++ [w]) -> 1 <= span_length f -> ms_pack (mw_span w) = ms_pack f ->
  ms_end (mw_span w) <= ms_start f -> ms_end f - ms_start (mw_span w) <= WINDOW_BYTES ->
  ms_end f - ms_start (mw_span w) <= (mw_frame_bytes w + span_length f) * READ_AMPLIFICATION ->
  plan_inv (done ++ [f])
    (windows ++ [mkWindow (mkFrameSpan (ms_pack (mw_span w)) (ms_start (mw_span w)) (ms_end f))
                   (mw_frame_bytes w + span_length f)]).
Proof.
  intros [Hs Hw Hc He Hb Hl] Hlen Hpack Hgap Hwin Hamp. apply Forall_app in Hw as [Hwk Hww].
  apply Forall_singleton in Hww as (Hpos & Hlim & Hampl).
  unfold span_length, WINDOW_BYTES, SINGLE_FRAME_BYTES, READ_AMPLIFICATION in *.
  apply StronglySorted_app in Hs as (Hs1 & Hs2 & _). split.
  - apply StronglySorted_app. split; [|split; [done|repeat constructor]]. intros a b Ha Hx%list_elem_of_singleton. subst b.
    exact (Hs1 a w Ha ltac:(by left)).
  - apply Forall_app. split; [done|]. apply Forall_singleton. unfold window_ok, span_length, SINGLE_FRAME_BYTES, READ_AMPLIFICATION. cbn. lia.
  - intros x [->|Hx]%elem_of_snoc.
    + eexists. split; [apply elem_of_snoc; by left|]. split_and!; cbn; (done || lia).
    + destruct (Hc x Hx) as (w1 & [->|Hin]%elem_of_snoc & C1 & C2 & C3).
      * eexists. split; [apply elem_of_snoc; by left|]. split_and!; cbn; (done || lia).
      * exists w1. split; [apply elem_of_snoc; by right|done].
  - intros x [->|Hin]%elem_of_snoc.
    + destruct (He w) as (g1 & g2 & H1 & H2 & H3 & H4 & H5 & _); [apply elem_of_snoc; by left|].
      exists g1, f. cbn. split_and!; try done; apply elem_of_snoc; [by right|by left].
    + destruct (He x) as (g1 & g2 & H1 & H2 & H3); [apply elem_of_snoc; by right|].
      exists g1, g2. split_and!; try (apply elem_of_snoc; by right); tauto.
  - rewrite frames_total_app in Hb |- *. rewrite spans_total_app, <- Hb.
    change (spans_total [f]) with (ms_end f - ms_start f + 0). cbn [frames_total foldr mw_frame_bytes]. lia.
  - intros x Hlast. rewrite last_snoc in Hlast. injection Hlast as <-. exists f. by rewrite last_snoc.
Qed.

Lemma plan_step_inv done windows f windows' :
  plan_inv done windows -> (forall g, last done = Some g -> span_leb g f = true) ->
  plan_step windows f = Ok windows' -> plan_inv (done ++ [f]) windows'.
Proof.
  intros Hi Hsorted E. unfold plan_step in E. inv_ok. subst windows'. apply frame_length_lemma in Hok as [-> Hlen].
  destruct (last windows) as [w|] eqn:Ew; [|inv_ok; subst a0; apply plan_push; [done..|by rewrite Ew]].
  destruct (plan_last _ _ Hi w Ew) as (g & Hg & Hpack). specialize (Hsorted g Hg). inv_ok. subst a0.
  unfold extends in Hok. destruct (bytes_eqb _ _) eqn:Epack.
  2: { inv_ok. subst a. apply plan_push; [done..|]. rewrite Ew. intros w0 [= <-]. left. apply bytes_eqb_false in Epack.
       unfold span_leb in Hsorted. rewrite Hpack in Hsorted. apply digest_ltb_lt.
       destruct (digest_compare _ _) eqn:Ec; [|done..]. apply digest_compare_eq in Ec. congruence. }
  apply bytes_eqb_true in Epack. inv_all.
  repeat match goal with
  | X : checked_sub _ _ = Some _ |- _ => apply checked_sub_Some in X as [-> ?]
  | X : checked_add _ _ = Some _ |- _ => apply checked_add_Some in X as [-> _]
  | X : checked_mul _ _ = Some _ |- _ => apply checked_mul_Some in X as [-> _]
  end. subst a.
  destruct (_ && _) eqn:Eext; cbn [fmap option_fmap option_map].
  2: { apply plan_push; [done..|]. rewrite Ew. intros w0 [= <-]. right. split; [done|lia]. }
  apply andb_true_iff in Eext as [Eext Eamp]. apply andb_true_iff in Eext as [_ Ewin]. bools.
  apply last_Some_inv in Ew as (k & -> & ->). apply plan_extend; (done || lia).
Qed.

Lemma span_leb_total a b : span_leb a b = true \/ span_leb b a = true.
Proof.
  unfold span_leb. rewrite (digest_compare_antisym (ms_pack a)). destruct (digest_compare _ _); cbn; [|auto..].
  destruct (Z.lt_trichotomy (ms_start a) (ms_start b)) as [|[Hs|]].
  - left. by rewrite (proj2 (Z.ltb_lt _ _)).
  - rewrite Hs, Z.ltb_irrefl, Z.eqb_refl. cbn. rewrite !Z.leb_le. lia.
  - right. by rewrite (proj2 (Z.ltb_lt _ _)).
Qed.

Lemma span_leb_trans a b c : span_leb a b = true -> span_leb b c = true -> span_leb a c = true.
Proof.
  unfold span_leb. destruct (digest_compare (ms_pack a) (ms_pack b)) eqn:E1; [| |done].
  - apply digest_compare_eq in E1. rewrite E1. intros H1. destruct (digest_compare _ _); [|done..]. intros H2.
    apply orb_true_iff in H1, H2. rewrite !andb_true_iff in H1, H2. apply orb_true_iff. rewrite andb_true_iff. bools. lia.
  - intros _. destruct (digest_compare (ms_pack b) (ms_pack c)) eqn:E2; [| |done]; intros _.
    + apply digest_compare_eq in E2. by rewrite <- E2, E1.
    + by rewrite (digest_compare_lt_trans _ _ _ E1 E2).
Qed.

Lemma dedup_elem l f : f ∈ dedup l <-> f ∈ l.
Proof.
  induction l as [|x [|y l] IH]; [done..|]. cbn [dedup]. case_bool_decide as Hxy.
  - subst y. rewrite IH. set_solver.
  - rewrite !elem_of_cons, IH, elem_of_cons. done.
Qed.

Lemma planned_elem frames f : f ∈ dedup (isort span_leb frames) <-> f ∈ frames.
Proof. by rewrite dedup_elem, isort_perm. Qed.

Lemma dedup_sorted l :
  StronglySorted (fun a b => span_leb a b = true) l -> StronglySorted (fun a b => span_leb a b = true) (dedup l).
Proof.
  induction l as [|x [|y l] IH]; [done..|]. intros Hs. inversion Hs as [|? ? Hl Hx]; subst. cbn [dedup].
  case_bool_decide; [by apply IH|]. constructor; [by apply IH|]. apply Forall_forall. intros z Hz.
  apply (dedup_elem (y :: l)) in Hz. rewrite Forall_forall in Hx. by apply Hx.
Qed.

Lemma plan_fold frames : forall done windows windows',
  plan_inv done windows -> StronglySorted (fun a b => span_leb a b = true) (done ++ frames) ->
  mfold plan_step windows frames = Ok windows' -> plan_inv (done ++ frames) windows'.
Proof.
  induction frames as [|f frames IH]; intros done windows windows' Hi Hs E; cbn [mfold] in E.
  - inv_ok. subst. by rewrite app_nil_r.
  - inv_ok. rewrite cons_middle, (assoc_L (++)) in Hs |- *. eapply IH; [|done..]. eapply plan_step_inv; [done| |done].
    intros g [k ->]%last_Some. apply StronglySorted_app in Hs as (_ & Hs & _).
    apply StronglySorted_app in Hs as (Hs & _ & _). apply Hs; [apply elem_of_snoc|]; by left.
Qed.

Lemma plan_spec frames windows : plan frames = Ok windows ->
  plan_inv (dedup (isort span_leb frames)) windows.
Proof.
  intros E. apply (plan_fold _ [] [] windows); [|cbn|done].
  - split; [constructor|constructor| | |done|done]; intros ? H; by apply elem_of_nil in H.
  - apply dedup_sorted, isort_sorted; [apply span_leb_total|apply span_leb_trans].
Qed.

(** The window the search finds for a covered frame is the one that covers it. *)
Lemma partition_point_app {A} (p : A -> bool) l k :
  Forall (fun x => p x = true) l -> match k with x :: _ => p x = false | [] => True end ->
  partition_point p (l ++ k) = length l.
Proof.
  induction 1 as [|x l Hx Hl IH]; intros Hk; cbn.
  - destruct k as [|y k]; [done|]. cbn. by rewrite Hk.
  - by rewrite Hx, IH.
Qed.

Lemma window_found windows w f :
  StronglySorted (fun a b => before (mw_span a) (mw_span b)) windows -> Forall window_ok windows ->
  w ∈ windows -> covers_span w f -> ms_start f < ms_end f ->
  exists i, windows !! i = Some w /\ partition_point (fun w => window_leb w f) windows = S i.
Proof.
  intros Hs Hw Hin (Hp & H1 & H2) Hf. apply list_elem_of_split in Hin as (l & k & ->).
  exists (length l). split; [by apply list_lookup_middle|]. rewrite cons_middle, (assoc_L (++)).
  apply StronglySorted_app in Hs as (Hlw & _ & Hk). inversion Hk as [|? ? _ Hwk]; subst.
  rewrite partition_point_app; [rewrite length_app; cbn; lia| |].
  - apply Forall_app. split.
    + apply Forall_forall. intros x Hx. specialize (Hlw x w Hx ltac:(by left)). unfold window_leb, before in *. rewrite <- Hp.
      rewrite Forall_forall in Hw. destruct (Hw x) as (Hpos & _); [apply elem_of_app; by left|].
      destruct Hlw as [Hlt|[-> ?]]; [apply digest_ltb_lt in Hlt; by rewrite Hlt|].
      rewrite digest_compare_refl. apply Z.leb_le. lia.
    + apply Forall_singleton. unfold window_leb. rewrite Hp, digest_compare_refl. by apply Z.leb_le.
  - destruct k as [|x k]; [done|]. inversion Hwk as [|? ? Hx _]; subst. unfold window_leb, before in *. rewrite <- Hp.
    rewrite (digest_compare_antisym (ms_pack (mw_span w))). destruct Hx as [Hlt|[<- ?]].
    + apply digest_ltb_lt in Hlt. by rewrite Hlt.
    + rewrite digest_compare_refl. cbn. apply Z.leb_gt. lia.
Qed.

(** ** Reading through the plan *)

Section Exact.
Context {HH : Hashes} {HOK : HashesOk HH} {Z0 : ZstdLib} {ZOK : ZstdOk Z0}.
Context {B : Type} {SB : StorageBackend B} {BL : BackendLaws B} {BV : BackendLive B}.

Lemma Span_frame_lemma l f :
  0 <= pk_length (fl_payload l) -> Span_frame l = Ok f ->
  ms_pack f = fl_pack l /\ ms_end f = PackRange_end (fl_payload l) /\
  HEADER_SIZE <= ms_start f < ms_end f /\ ms_start f + 117 <= pk_offset (fl_payload l).
Proof.
  intros Hn E. unfold Span_frame, FRAME_HEADER_SIZE in E. inv_all.
  repeat match goal with
  | X : checked_sub _ _ = Some _ |- _ => apply checked_sub_Some in X as [-> ?]
  | X : checked_add _ _ = Some _ |- _ => apply checked_add_Some in X as [-> ?]
  end. subst f. cbn. unfold PackRange_end. pose proof (encoded_len_pos (fl_metadata l)). bools.
  split_and!; try done; lia.
Qed.

Lemma pack_placed_unique (v : PinnedView B) pack b b' :
  pack_placed v pack b -> pack_placed v pack b' -> b = b'.
Proof.
  intros (p & r & o & Hp & Hr & _ & Hl & Ho & _ & Hb) (p' & r' & o' & Hp' & Hr' & _ & Hl' & Ho' & _ & Hb').
  simplify_eq. rewrite <- Hb, <- Hb'. do 2 f_equal. lia.
Qed.

Lemma pack_placed_length (v : PinnedView B) pack b : pack_placed v pack b -> zlen b <= U64_MAX.
Proof. intros (p & r & o & _ & _ & (_ & ? & ? & ? & ?) & Hl & _). lia. Qed.

(** The location lies in the bytes of its pack. *)
Definition located (v : PinnedView B) (l : FrameLocation) : Prop :=
  0 <= pk_length (fl_payload l) /\
  exists b, pack_placed v (fl_pack l) b /\ PackRange_end (fl_payload l) <= zlen b.

(** A window holds the bytes of its pack. *)
Definition window_bytes (v : PinnedView B) (w : Window) (buffer : bytes) : Prop :=
  exists b, pack_placed v (ms_pack (mw_span w)) b /\ 0 <= ms_start (mw_span w) /\ ms_end (mw_span w) <= zlen b /\
    buffer = slice b (ms_start (mw_span w)) (ms_end (mw_span w)).

Definition reads_inv (v : PinnedView B) (frames : list Span) (r : MaintenanceReads) : Prop :=
  plan_inv (dedup (isort span_leb frames)) (mr_windows r) /\
  forall i buffer, mr_cached r = Some (i, buffer) ->
    exists w, mr_windows r !! i = Some w /\ window_bytes v w buffer.

Lemma window_placed (v : PinnedView B) locations frames windows w :
  Forall (located v) locations -> mmap (reads_span (pn_placement v)) locations = Ok frames ->
  plan_inv (dedup (isort span_leb frames)) windows -> w ∈ windows ->
  exists b, pack_placed v (ms_pack (mw_span w)) b /\ 0 <= ms_start (mw_span w) /\ ms_end (mw_span w) <= zlen b.
Proof.
  intros Hl Hf Hi Hw. destruct (plan_ends _ _ Hi w Hw) as (f & g & Hfi & Hgi & Hfp & Hgp & Hs & He).
  rewrite planned_elem in Hfi, Hgi. apply mmap_Ok in Hf.
  assert (forall x, x ∈ frames -> exists l, l ∈ locations /\ Span_frame l = Ok x) as Hback.
  { intros x Hx. apply list_elem_of_lookup in Hx as [i Hx]. destruct (Forall2_lookup_r _ _ _ _ _ Hf Hx) as (l & Hli & Hspan).
    exists l. split; [by eapply list_elem_of_lookup_2|]. unfold reads_span in Hspan. inv_ok. by subst x. }
  rewrite Forall_forall in Hl. destruct (Hback f Hfi) as (lf & Hlf & Ef), (Hback g Hgi) as (lg & Hlg & Eg).
  destruct (Hl lf Hlf) as (Hnf & _), (Hl lg Hlg) as (Hng & b & Hb & Hend).
  apply Span_frame_lemma in Ef as (_ & _ & Hfs & _); [|done]. apply Span_frame_lemma in Eg as (Hp & Hge & _); [|done].
  exists b. unfold HEADER_SIZE in *. rewrite <- Hgp, Hp, <- Hs, <- He, Hge. split_and!; [done|lia|done].
Qed.

Lemma read_record_located (v : PinnedView B) l b :
  0 <= pk_length (fl_payload l) <= SINGLE_FRAME_BYTES -> FRAME_HEADER_SIZE <= pk_offset (fl_payload l) ->
  pack_placed v (fl_pack l) b -> PackRange_end (fl_payload l) <= zlen b ->
  read_record v l = Ok (slice b (pk_offset (fl_payload l) - FRAME_HEADER_SIZE) (PackRange_end (fl_payload l))).
Proof.
  unfold FRAME_HEADER_SIZE, PackRange_end, SINGLE_FRAME_BYTES. intros Hn Ho Hb Hend.
  pose proof (pack_placed_length _ _ _ Hb) as Hmax. unfold read_record, prefix_offset, FRAME_HEADER_SIZE.
  rewrite (proj2 (checked_sub_Some _ _ _)) by (split; [done|lia]). cbn [range ok_or rbind].
  rewrite (proj2 (checked_add_Some _ _ _)) by (split; [done|lia]). cbn [range ok_or rbind].
  set (o := pk_offset (fl_payload l) - 24). set (n := pk_length (fl_payload l) + 24).
  assert (value (StoredRange_new o n) = Ok (mkRange o n (o + n))) as ->
    by (apply value_Ok, StoredRange_new_spec; split; [done|subst o n; lia]).
  cbn [rbind]. rewrite (pin_read_placed v (fl_pack l) b); [|done|subst o; lia|subst n; unfold MAX_BATCH_BYTES; lia|subst o n; lia].
  do 2 f_equal. subst o n. lia.
Qed.

(** Whether the window is in memory or has to be read, its bytes are those of the pack. *)
Lemma fill_window_lemma (v : PinnedView B) frames r k w b :
  reads_inv v frames r -> mr_windows r !! k = Some w -> pack_placed v (ms_pack (mw_span w)) b ->
  0 <= ms_start (mw_span w) -> ms_end (mw_span w) <= zlen b ->
  exists r', fill_window (pn_storage v) (pn_placement v) k (mw_span w) r =
    (Ok (slice b (ms_start (mw_span w)) (ms_end (mw_span w))), r') /\ reads_inv v frames r'.
Proof.
  intros [Hi Hcache] Hk Hb W1 W2. destruct (Forall_lookup_1 _ _ _ _ (plan_windows _ _ Hi) Hk) as (Wp & Wl & _).
  unfold span_length, SINGLE_FRAME_BYTES in Wl. pose proof (pack_placed_length _ _ _ Hb) as Hmax.
  unfold fill_window. destruct (mr_cached r ≫= _) as [buffer|] eqn:Ec.
  - exists r. split; [|done]. destruct (mr_cached r) as [[j buffer']|] eqn:Er; [|done]. cbn in Ec.
    destruct (j =? k)%nat eqn:Ej; [|done]. apply Nat.eqb_eq in Ej. simplify_eq.
    destruct (Hcache k buffer eq_refl) as (w' & Hw' & b' & Hb' & _ & _ & ->). rewrite Hk in Hw'. injection Hw' as <-.
    by rewrite (pack_placed_unique _ _ _ _ Hb Hb').
  - set (n := ms_end (mw_span w) - ms_start (mw_span w)) in *.
    assert (value (StoredRange_new (ms_start (mw_span w)) n) = Ok (mkRange (ms_start (mw_span w)) n (ms_start (mw_span w) + n))) as ->
      by (apply value_Ok, StoredRange_new_spec; split; [done|lia]).
    cbn [rbind]. rewrite (pin_read_placed v _ b); [|done|lia|unfold MAX_BATCH_BYTES; lia|lia].
    replace (ms_start (mw_span w) + n) with (ms_end (mw_span w)) by lia. eexists. split; [done|]. split; [done|].
    cbn. intros j buffer [= <- <-]. exists w. split; [done|]. by exists b.
Qed.

Lemma reads_read_lemma (v : PinnedView B) locations frames r l :
  Forall (located v) locations -> mmap (reads_span (pn_placement v)) locations = Ok frames ->
  reads_inv v frames r -> l ∈ locations ->
  exists record r', reads_read (pn_storage v) (pn_placement v) l r = (Ok record, r') /\ reads_inv v frames r' /\
    read_record v l = Ok record.
Proof.
  intros Hloc Hf Hinv Hl. pose proof Hf as Hspan. apply mmap_Ok in Hspan. pose proof Hinv as [Hi _].
  apply list_elem_of_lookup in Hl as [i Hl]. destruct (Forall2_lookup_l _ _ _ _ _ Hspan Hl) as (f & Hfi & Ef).
  unfold reads_span in Ef. inv_ok. subst a. clear Hok0 a0 Hguard.
  destruct (Forall_lookup_1 _ _ _ _ Hloc Hl) as (Hn & b & Hb & Hend).
  pose proof (Span_frame_lemma _ _ Hn Hok) as (Hp & He & Hpos & Hoff). unfold HEADER_SIZE in Hpos.
  destruct (plan_covers _ _ Hi f) as (w & Hw & Hcov).
  { rewrite planned_elem. by eapply list_elem_of_lookup_2. }
  destruct (window_found _ _ _ (plan_sorted _ _ Hi) (plan_windows _ _ Hi) Hw Hcov) as (k & Hk & Hpart); [lia|].
  destruct Hcov as (C1 & C2 & C3). destruct (window_placed v locations frames _ w Hloc Hf Hi Hw) as (b' & Hb' & W1 & W2).
  destruct (fill_window_lemma v frames r k w b' Hinv Hk Hb' W1 W2) as (r' & Hfill & Hr').
  rewrite C1, Hp in Hb'. pose proof (pack_placed_unique _ _ _ _ Hb Hb') as <-.
  destruct (Forall_lookup_1 _ _ _ _ (plan_windows _ _ Hi) Hk) as (_ & Wl & _). unfold span_length in Wl.
  eexists _, r'. split; [|split; [done|apply (read_record_located v l b); try done; unfold PackRange_end, FRAME_HEADER_SIZE in *; lia]].
  assert (pk_offset (fl_payload l) <= PackRange_end (fl_payload l)) as Hpe by (unfold PackRange_end; lia).
  unfold reads_read, sget, slift, sbind. rewrite Hok. unfold reads_window. rewrite Hpart, Hk. cbn [ok_or rbind].
  rewrite C1, bytes_eqb_refl, (proj2 (Z.ltb_ge _ _)) by lia. cbn [negb orb fst snd]. rewrite Hfill. unfold FRAME_HEADER_SIZE.
  rewrite (proj2 (checked_sub_Some _ _ _)) by (split; [done|lia]). cbn [range ok_or rbind].
  rewrite (proj2 (checked_sub_Some _ _ _)) by (split; [done|lia]). cbn [range ok_or rbind].
  rewrite zlen_slice by lia. rewrite !(proj2 (Z.ltb_ge _ _)) by lia. cbn [orb].
  do 2 f_equal. rewrite slice_slice by lia. f_equal; lia.
Qed.

(** Visiting frames one after the other. *)
Fixpoint reads_all (b : B) (p : pin) (visits : list FrameLocation) : sm MaintenanceReads (list bytes) :=
  match visits with
  | [] => sret []
  | l :: visits =>
      let! record := reads_read b p l in
      let! records := reads_all b p visits in
      sret (record :: records)
  end.

(** ** Theorems *)

(** C20. Reading ahead changes nothing: when the packs are stored, the records of any of the
    planned frames, visited in any order and any number of times through the windows and their one
    buffer, are exactly those read one by one from their locations. *)
Theorem maintenance_reads_exact (v : PinnedView B) locations r visits :
  Forall (located v) locations -> MaintenanceReads_new (pn_placement v) locations = Ok r ->
  (forall l, l ∈ visits -> l ∈ locations) ->
  exists records r', reads_all (pn_storage v) (pn_placement v) visits r = (Ok records, r') /\
    Forall2 (fun l record => read_record v l = Ok record) visits records.
Proof.
  intros Hloc E Hv. unfold MaintenanceReads_new in E. inv_ok. subst r.
  assert (reads_inv v a (mkReads a0 None)) as Hinv by (split; [by apply plan_spec|done]).
  revert Hinv. generalize (mkReads a0 None) as r. induction visits as [|l visits IH]; intros r Hinv.
  - exists [], r. split; [done|constructor].
  - destruct (reads_read_lemma v locations a r l Hloc Hok Hinv) as (record & r1 & E1 & Hinv1 & Hr); [apply Hv; by left|].
    destruct (IH ltac:(intros; apply Hv; by right) r1 Hinv1) as (records & r2 & E2 & Hrs).
    exists (record :: records), r2. split; [|by constructor]. cbn [reads_all]. unfold sbind, sret. by rewrite E1, E2.
Qed.

(** Reading ahead is bounded: every window is at most sixteen mebibytes of one pack, the
    windows do not overlap, and together they are at most four times as long as the distinct
    frames that were asked for. *)
Theorem maintenance_reads_bounded (p : pin) locations r frames :
  mmap (reads_span p) locations = Ok frames -> MaintenanceReads_new p locations = Ok r ->
  Forall (fun w => span_length (mw_span w) <= SINGLE_FRAME_BYTES) (mr_windows r) /\
  StronglySorted (fun a b => before (mw_span a) (mw_span b)) (mr_windows r) /\
  windows_total (mr_windows r) <= READ_AMPLIFICATION * spans_total (dedup (isort span_leb frames)).
Proof.
  intros Hf E. unfold MaintenanceReads_new in E. rewrite Hf in E. cbn [rbind] in E. inv_ok. subst r. cbn [mr_windows].
  apply plan_spec in Hok as Hi. destruct Hi as [Hs Hw _ _ Hb _]. split_and!; [|done|].
  - eapply Forall_impl; [exact Hw|]. by intros w (_ & ? & _).
  - rewrite <- Hb. clear -Hw. unfold windows_total, frames_total. induction Hw as [|w l (_ & _ & Hw) Hl IH]; cbn; [done|].
    unfold READ_AMPLIFICATION in *. lia.
Qed.
End Exact.
