(* ===== verification/Samples.v ===== *)
(** Dictionary training samples (src/src/storage/samples.rs): a bounded reservoir of committed
    pages, kept by digest, its record, and the choice of a dictionary that pays for itself.

    zstd's dictionary trainer and the creation of a compressor are the parameter [ZstdTrainer];
    nothing is assumed of them. The samples file is its bytes, or the error of reading it. *)

From S2P Require Import Prelude Domain Layout Format Wire Segment Frame Backend CatalogIndex.
From stdpp Require Import base strings gmap list sorting.
From Stdlib Require Import ZArith Lia.
Open Scope Z_scope.

Class ZstdTrainer : Type := {
  zcompressor : Z -> bytes -> bool;
  zdecoder : bytes -> bool;
  ztrain : list bytes -> Z -> option bytes;
}.

Definition SAMPLE_MAGIC : bytes := ascii "ZSAMPLE1".

Record Samples : Type := mkSamples {
  sa_pages : gmap (list Z) bytes;
  sa_bytes : Z;
  sa_fresh : Z;
  sa_budget : Z;
  sa_dirty : bool;
}.

Definition Samples_new (budget : Z) : Samples := mkSamples ∅ 0 0 budget false.

(** [pages.last_key_value()] *)
Definition last_page {V} (m : gmap (list Z) V) : option (list Z * V) := last (sorted_list m).

(** The loop of [trim]; [None] is out of fuel. An empty reservoir over its budget would loop. *)
Fixpoint trim_loop (fuel : nat) (s : Samples) : option Samples :=
  if sa_bytes s <=? sa_budget s then Some s
  else match fuel with
       | O => None
       | S fuel' =>
           trim_loop fuel'
             (match last_page (sa_pages s) with
              | Some (id, b) => mkSamples (delete id (sa_pages s)) (sa_bytes s - zlen b) (sa_fresh s) (sa_budget s) true
              | None => s
              end)
       end.

(** Each round removes a page. *)
Definition trim (s : Samples) : Samples := default s (trim_loop (size (sa_pages s)) s).

Definition ready (s : Samples) : bool :=
  (1024 * 1024 <=? sa_fresh s) && (32 <=? Z.of_nat (size (sa_pages s))).

Record Evaluation : Set := mkEvaluation { ev_training : list bytes; ev_held_out : list bytes }.

(** [enumerate] and [partition] by the index. *)
Definition every_fifth (held : bool) (pages : list bytes) : list bytes :=
  map snd (List.filter (fun p => Bool.eqb (fst p mod 5 =? 0) held)
             (imap (fun i b => (Z.of_nat i, b)) pages)).

Definition evaluation (s : Samples) : option (Evaluation * Samples) :=
  if negb (ready s) then None
  else
    let pages := map snd (sorted_list (sa_pages s)) in
    Some (mkEvaluation (every_fifth false pages) (every_fifth true pages),
          mkSamples (sa_pages s) (sa_bytes s) 0 (sa_budget s) true).

Section Records.
Context `{Hashes, ZstdLib}.

Definition Samples_insert (s : Samples) (b : bytes) : Samples :=
  if (U32_MAX <? zlen b) || negb (is_ok (PageSize_new (zlen b))) then s
  else
    let id := blake3 b in
    if bool_decide (is_Some (sa_pages s !! id)) then s
    else if (sa_budget s <? sa_bytes s + zlen b)
            && match last_page (sa_pages s) with Some (last, _) => digest_leb last id | None => false end
    then s
    else
      trim (mkSamples (<[id := b]> (sa_pages s)) (sa_bytes s + zlen b)
              (Z.min (saturating_add (sa_fresh s) (zlen b)) (sa_budget s)) (sa_budget s) true).

(** The pages of the record, with the bytes they take. *)
Fixpoint decode_samples (n : nat) (pages : gmap (list Z) bytes) (total : Z)
    : dm Decoder (gmap (list Z) bytes * Z) :=
  match n with
  | O => dret (pages, total)
  | S n' =>
      do length <- wire_u32 ;;
      do _ <- dlift (value (PageSize_new length)) ;;
      do b <- wire_take length ;;
      let total := total + zlen b in
      do _ <- dfail_if ((MAX_SAMPLE_BYTES <? total) || bool_decide (is_Some (pages !! blake3 b))) (Corrupt 0) ;;
      decode_samples n' (<[blake3 b := b]> pages) total
  end.

Definition samples_body : dm Decoder (Z * (gmap (list Z) bytes * Z)) :=
  do fresh <- wire_u64 ;;
  do count <- wire_u32 ;;
  do _ <- dfail_if (MAX_SAMPLE_BYTES / 512 <? count) Range ;;
  do pages <- decode_samples (Z.to_nat count) ∅ 0 ;;
  dret (fresh, pages).

Definition Samples_decode (file : result StoreError bytes) (budget : Z) : result StoreError Samples :=
  let* encoded := file in
  fail_if MAX_SAMPLE_BYTES + 2 * 1024 * 1024 <? zlen encoded with Range ;;
  let* raw := open_envelope SAMPLE_MAGIC encoded (MAX_SAMPLE_BYTES + 1024 * 1024) in
  let* p := samples_body (Decoder_new raw) in
  let* _ := Decoder_finish (snd p) in
  let '(fresh, (pages, total)) := fst p in
  Ok (trim (mkSamples pages total (Z.min fresh budget) budget (budget <? fresh))).

Definition Samples_load (file : result StoreError bytes) (budget : Z) : Samples :=
  match Samples_decode file budget with Ok s => s | Err _ => Samples_new budget end.

Definition encode_sample (b : bytes) : result StoreError bytes :=
  fail_if U32_MAX <? zlen b with Range ;;
  Ok (u32_bytes (zlen b) ++ b).

Definition Samples_encode (s : Samples) : result StoreError (option bytes) :=
  if negb (sa_dirty s) then Ok None
  else
    let pages := map snd (sorted_list (sa_pages s)) in
    fail_if U32_MAX <? zlen pages with Range ;;
    let* records := mmap encode_sample pages in
    let* e := envelope SAMPLE_MAGIC (u64_bytes (sa_fresh s) ++ u32_bytes (zlen pages) ++ concat records) in
    Ok (Some e).

(** ** The choice of a dictionary *)

Context `{ZstdTrainer}.

Definition sum_lengths (l : list bytes) : Z := foldr (fun b n => zlen b + n) 0 l.

(** The stored size of one held-out page. *)
Definition page_cost (level : Z) (dictionary : bytes) (b : bytes) : option Z :=
  c ← zcompress level dictionary b;
  Some (Z.min (saturating_add (zlen c) (if zlen dictionary =? 0 then 0 else 32)) (zlen b)).

Fixpoint sum_costs (level : Z) (dictionary : bytes) (pages : list bytes) (total : Z) : option Z :=
  match pages with
  | [] => Some total
  | b :: pages => c ← page_cost level dictionary b; sum_costs level dictionary pages (total + c)
  end.

(** In units of stored bytes times held-out bytes. *)
Definition score (e : Evaluation) (level logical_bytes : Z) (dictionary : bytes) (added : Z) : option Z :=
  if negb (zcompressor level dictionary) then None
  else
    payload ← sum_costs level dictionary (ev_held_out e) 0;
    Some (payload * logical_bytes + added * sum_lengths (ev_held_out e)).

Definition minimum (l : list Z) : option Z :=
  match l with [] => None | x :: l => Some (fold_left Z.min l x) end.

(** [min_by_key], which keeps the first of equals. *)
Definition cheapest (l : list (Z * bytes)) : option (Z * bytes) :=
  match l with
  | [] => None
  | x :: l => Some (fold_left (fun best c => if fst c <? fst best then c else best) l x)
  end.

Definition candidate (e : Evaluation) (level logical_bytes previous : Z) (capacity : Z) : option (Z * bytes) :=
  d ← ztrain (ev_training e) capacity;
  cost ← score e level logical_bytes d (zlen d);
  if cost * 100 <=? previous * 95 then Some (cost, d) else None.

Definition select (e : Evaluation) (policy : DictionaryPolicy) (level logical_bytes : Z) (existing : list bytes)
    : option bytes :=
  previous ← minimum (omap (fun d => score e level logical_bytes d 0) existing ++
                      option_list (score e level logical_bytes [] 0));
  snd <$> cheapest (omap (candidate e level logical_bytes previous)
                      (candidates policy (sum_lengths (ev_training e)))).
End Records.
