(* ===== verification/SamplesProofs.v ===== *)
(** Correctness of the sample reservoir: it stays within its budget, holds the pages with the
    lowest digests whatever the order they came in, survives its record, and a dictionary is
    adopted only when it pays for itself. *)

From S2P Require Import Prelude Domain Layout Format Wire Segment Frame Backend CatalogIndex Placement View ViewProofs Manifest ManifestProofs Samples.
From stdpp Require Import base strings gmap list sorting.
From Stdlib Require Import ZArith Lia.
Open Scope Z_scope.

(** ** Listings by digest *)

Section Listings.
Context {V : Type}.
Implicit Types (m : gmap (list Z) V) (l : list (list Z * V)).

Lemma increasing_unique l k : increasing l -> increasing k -> l ≡ₚ k -> l = k.
Proof.
  intros Hl. revert k. induction Hl as [|x l Hl IH Hx]; intros k Hk Hp; [by apply Permutation_nil_l in Hp as ->|].
  destruct Hk as [|y k Hk Hy]; [by apply Permutation_nil_r in Hp|].
  rewrite Forall_forall in Hx, Hy. assert (x = y) as ->.
  { assert (x ∈ y :: k) as [->|Hxk]%elem_of_cons by (rewrite <- Hp; by left); [done|].
    assert (y ∈ x :: l) as [->|Hyl]%elem_of_cons by (rewrite Hp; by left); [done|].
    specialize (Hx y Hyl). specialize (Hy x Hxk). destruct (digest_leb_total x.1 y.1); congruence. }
  f_equal. apply IH; [done|]. by apply Permutation_cons_inv in Hp.
Qed.

Lemma sorted_list_increasing m : increasing (sorted_list m).
Proof. apply sorted_increasing; [apply sorted_list_sorted|apply sorted_list_NoDup]. Qed.

Lemma sorted_list_of l : increasing l -> sorted_list (list_to_map l) = l.
Proof.
  intros Hl. apply increasing_unique; [apply sorted_list_increasing|done|]. rewrite sorted_list_perm.
  apply map_to_list_to_map. by apply increasing_NoDup.
Qed.

Lemma list_to_map_sorted m : list_to_map (sorted_list m) = m.
Proof.
  rewrite (list_to_map_proper (sorted_list m) (map_to_list m)); [apply list_to_map_to_list|apply sorted_list_NoDup|apply sorted_list_perm].
Qed.

Lemma sorted_list_inj m m' : sorted_list m = sorted_list m' -> m = m'.
Proof. intros E. by rewrite <- (list_to_map_sorted m), E, list_to_map_sorted. Qed.

(** Where an entry goes. *)
Definition by_digest (a b : list Z * V) : bool := digest_leb a.1 b.1.

Lemma insert_increasing x l :
  increasing l -> x.1 ∉ map fst l -> increasing (insert_sorted by_digest x l).
Proof.
  intros Hl Hx. apply sorted_increasing.
  - apply (insert_sorted_sorted by_digest).
    + intros. apply digest_leb_total.
    + intros a b c. apply digest_leb_trans.
    + clear Hx. induction Hl as [|y l Hl IH Hy]; [constructor|]. constructor; [done|]. rewrite Forall_forall in *.
      intros z Hz. specialize (Hy z Hz). destruct (digest_leb_total y.1 z.1); unfold by_digest; congruence.
  - rewrite (Permutation_map fst (insert_sorted_perm by_digest x l)). constructor; [done|]. by apply increasing_NoDup.
Qed.

Lemma sorted_list_insert m id v :
  m !! id = None -> sorted_list (<[id := v]> m) = insert_sorted by_digest (id, v) (sorted_list m).
Proof.
  intros Hm. apply increasing_unique.
  - apply sorted_list_increasing.
  - apply insert_increasing; [apply sorted_list_increasing|]. cbn. intros ([k w] & Hk & Hin)%list_elem_of_fmap.
    apply sorted_list_elem in Hin. cbn in Hk. subst k. by rewrite Hin in Hm.
  - rewrite insert_sorted_perm, !sorted_list_perm. by apply map_to_list_insert.
Qed.

Lemma sorted_list_delete_last m id v :
  last_page m = Some (id, v) -> sorted_list m = sorted_list (delete id m) ++ [(id, v)] /\ m !! id = Some v.
Proof.
  unfold last_page. intros [k Hk]%last_Some.
  assert (m !! id = Some v) as Hm by (apply sorted_list_elem; rewrite Hk; apply elem_of_app; right; by left).
  split; [|done]. rewrite Hk. f_equal. apply increasing_unique.
  - pose proof (sorted_list_increasing m) as Hs. rewrite Hk in Hs. unfold increasing in *.
    by apply StronglySorted_app in Hs as (_ & Hs & _).
  - apply sorted_list_increasing.
  - apply (Permutation_cons_inv (a := (id, v))). rewrite Permutation_cons_append, <- Hk, !sorted_list_perm.
    symmetry. by apply map_to_list_delete.
Qed.

(** The lowest entries of a listing with one more entry are found among the lowest. *)
Lemma take_insert_sorted n x l :
  take n (insert_sorted by_digest x l) = take n (insert_sorted by_digest x (take n l)).
Proof.
  revert n. induction l as [|y l IH]; intros n; [by rewrite take_nil|]. destruct n as [|n]; [done|].
  cbn [take insert_sorted]. destruct (by_digest x y).
  - cbn [take]. f_equal. destruct n; [done|]. cbn [take]. f_equal. rewrite take_take. f_equal. lia.
  - cbn [take]. f_equal. apply IH.
Qed.

Lemma insert_sorted_last x l :
  Forall (fun y => digest_leb x.1 y.1 = false) l -> insert_sorted by_digest x l = l ++ [x].
Proof. induction 1 as [|y l Hy Hl IH]; cbn; [done|]. unfold by_digest at 1. by rewrite Hy, IH. Qed.

Lemma length_insert_sorted x l : length (insert_sorted by_digest x l) = S (length l).
Proof. by rewrite insert_sorted_perm. Qed.
Lemma take_elem {A} (k : nat) (l : list A) x : x ∈ take k l -> x ∈ l.
Proof. intros [i [Hi _]%lookup_take_Some]%list_elem_of_lookup. by eapply list_elem_of_lookup_2. Qed.

(** A page outside the lowest [k] lies above all of them. *)
Lemma beyond_lowest (k : nat) m id b y :
  m !! id = Some b -> id ∉ map fst (take k (sorted_list m)) -> y ∈ take k (sorted_list m) -> digest_leb id y.1 = false.
Proof.
  intros Hm Hid Hy. pose proof (sorted_list_increasing m) as Hs. unfold increasing in Hs.
  apply sorted_list_elem in Hm. rewrite <- (take_drop k (sorted_list m)) in Hs, Hm.
  apply StronglySorted_app in Hs as (Hs & _ & _). apply elem_of_app in Hm as [Hm|Hm].
  - exfalso. apply Hid. by apply (list_elem_of_fmap_2 fst) in Hm.
  - exact (Hs y (id, b) Hy Hm).
Qed.

(** A digest at or above the last one, and not among them, comes last. *)
Lemma rejected_last r id b lid lv :
  last_page r = Some (lid, lv) -> digest_leb lid id = true -> r !! id = None ->
  insert_sorted by_digest (id, b) (sorted_list r) = sorted_list r ++ [(id, b)].
Proof.
  intros El Hle Hr. apply sorted_list_delete_last in El as [El Hl]. apply insert_sorted_last.
  pose proof (sorted_list_increasing r) as Hinc. unfold increasing in Hinc. rewrite El in Hinc |- *.
  assert (digest_leb id lid = false) as Hlt.
  { apply not_true_iff_false. intros Hle'. assert (lid = id) as -> by by apply digest_leb_antisym. congruence. }
  apply StronglySorted_app in Hinc as (Hinc & _ & _). apply Forall_app. split; [|by apply Forall_singleton].
  apply Forall_forall. intros y Hy. specialize (Hinc y (lid, lv) Hy ltac:(by left)). cbn in Hinc |- *.
  apply not_true_iff_false. intros Hle'. apply not_true_iff_false in Hinc. apply Hinc. by eapply digest_leb_trans.
Qed.

(** A change of an entry leaves its place. *)
Definition updated (id : list Z) (v : V) (e : list Z * V) : list Z * V := if bytes_eqb e.1 id then (id, v) else e.

Lemma sorted_list_update m id v w :
  m !! id = Some w -> sorted_list (<[id := v]> m) = map (updated id v) (sorted_list m).
Proof.
  intros Hm. assert (forall l, map fst (map (updated id v) l) = map fst l) as Hfst.
  { intros l. rewrite map_map. apply map_ext. intros [i x]. unfold updated. cbn.
    destruct (bytes_eqb i id) eqn:E; [apply bytes_eqb_true in E; by subst|done]. }
  apply increasing_unique; [apply sorted_list_increasing| |].
  - pose proof (sorted_list_increasing m) as Hi. revert Hi. generalize (sorted_list m) as l. clear -Hfst.
    induction 1 as [|x l Hl IH Hx]; [constructor|]. cbn [map]. constructor; [done|]. rewrite Forall_forall in Hx |- *.
    intros z (y & -> & Hy)%list_elem_of_fmap. specialize (Hx y Hy).
    assert (forall e : list Z * V, (updated id v e).1 = e.1) as Hk by (intros e; by injection (Hfst [e])). by rewrite !Hk.
  - apply NoDup_Permutation; [apply (NoDup_fmap_1 fst), sorted_list_NoDup|apply (NoDup_fmap_1 fst)|].
    { change (NoDup (map fst (map (updated id v) (sorted_list m)))). rewrite Hfst. apply sorted_list_NoDup. }
    intros [i x]. rewrite sorted_list_elem, lookup_insert_Some, list_elem_of_fmap. split.
    + intros [[<- <-]|[Hne Hi]].
      * exists (id, w). split; [unfold updated; cbn; by rewrite bytes_eqb_refl|by apply sorted_list_elem].
      * exists (i, x). split; [|by apply sorted_list_elem]. unfold updated. cbn. destruct (bytes_eqb i id) eqn:E; [|done].
        apply bytes_eqb_true in E. congruence.
    + intros ([j y] & E & Hj). apply sorted_list_elem in Hj. unfold updated in E. cbn in E.
      destruct (bytes_eqb j id) eqn:Ej; [apply bytes_eqb_true in Ej|apply bytes_eqb_false in Ej]; injection E as -> ->; [by left|by right].
Qed.

Lemma updated_absent id v l : id ∉ map fst l -> map (updated id v) l = l.
Proof.
  intros Hl. rewrite <- (map_id l) at 2. apply map_ext_in. intros [i x] Hin%list_elem_of_In. unfold updated. cbn.
  destruct (bytes_eqb i id) eqn:E; [|done]. apply bytes_eqb_true in E. subst i. destruct Hl. by apply (list_elem_of_fmap_2 fst) in Hin.
Qed.

Lemma absent_key m id : m !! id = None -> id ∉ map fst (sorted_list m).
Proof. intros Hm ([i w] & Hi & He)%list_elem_of_fmap. cbn in Hi. subst i. apply sorted_list_elem in He. congruence. Qed.

(** An entry known to the whole, and not among its lowest, does not join them. *)
Lemma lowest_present (k : nat) m r id v w :
  sorted_list r = take k (sorted_list m) -> r !! id = None -> m !! id = Some w ->
  take k (insert_sorted by_digest (id, v) (sorted_list r)) = take k (sorted_list m).
Proof.
  intros Hs Hr Hv. pose proof (absent_key r id Hr) as Hout. rewrite Hs in Hout.
  rewrite insert_sorted_last by (rewrite Hs; apply Forall_forall; intros y Hy; by eapply beyond_lowest).
  rewrite Hs. destruct (decide (length (sorted_list m) <= k)%nat) as [Hshort|Hlong].
  - exfalso. rewrite take_ge in Hout by done. apply Hout. apply sorted_list_elem in Hv. by apply (list_elem_of_fmap_2 fst) in Hv.
  - rewrite take_app_le by (rewrite length_take; lia). rewrite take_take. f_equal. lia.
Qed.
End Listings.

(** ** The invariant *)

Definition pages_total (m : gmap (list Z) bytes) : Z := sum_lengths (map snd (sorted_list m)).

Lemma sum_lengths_app l k : sum_lengths (l ++ k) = sum_lengths l + sum_lengths k.
Proof. unfold sum_lengths. induction l as [|b l IH]; cbn [app foldr]; [done|]. rewrite IH. lia. Qed.

Lemma sum_lengths_perm l k : l ≡ₚ k -> sum_lengths l = sum_lengths k.
Proof. unfold sum_lengths. induction 1; cbn [foldr]; lia. Qed.

Lemma sum_lengths_nonneg l : 0 <= sum_lengths l.
Proof. unfold sum_lengths. induction l as [|b l IH]; cbn [foldr]; [done|]. pose proof (zlen_nonneg b). lia. Qed.

Lemma pages_total_insert m id b : m !! id = None -> pages_total (<[id := b]> m) = pages_total m + zlen b.
Proof.
  intros Hm. unfold pages_total. rewrite sorted_list_insert by done.
  rewrite (sum_lengths_perm _ _ (Permutation_map snd (insert_sorted_perm by_digest (id, b) (sorted_list m)))).
  change (map snd ((id, b) :: sorted_list m)) with ([b] ++ map snd (sorted_list m)). rewrite sum_lengths_app.
  change (sum_lengths [b]) with (zlen b + 0). lia.
Qed.

Lemma pages_total_last m id b : last_page m = Some (id, b) -> pages_total m = pages_total (delete id m) + zlen b.
Proof.
  intros E. apply sorted_list_delete_last in E as [E _]. unfold pages_total. rewrite E, map_app, sum_lengths_app.
  change (sum_lengths (map snd [(id, b)])) with (zlen b + 0). lia.
Qed.

Lemma last_page_None {V} (m : gmap (list Z) V) : last_page m = None -> m = ∅.
Proof.
  unfold last_page. intros E%last_None. apply map_eq. intros k. rewrite lookup_empty.
  destruct (m !! k) eqn:Hk; [|done]. apply sorted_list_elem in Hk. rewrite E in Hk. by apply elem_of_nil in Hk.
Qed.

Section Reservoir.
Context {HH : Hashes} {HOK : HashesOk HH} {Z0 : ZstdLib} {ZOK : ZstdOk Z0}.

(** Pages are valid, kept by their digest and counted; nothing exceeds the budget. *)
Record samples_ok (s : Samples) : Prop := {
  samples_pages : forall id b, sa_pages s !! id = Some b -> id = blake3 b /\ page_size_ok (zlen b) /\ is_bytes b;
  samples_bytes : sa_bytes s = pages_total (sa_pages s);
  samples_budget : sa_bytes s <= sa_budget s <= MAX_SAMPLE_BYTES;
  samples_fresh : 0 <= sa_fresh s <= sa_budget s;
}.

(** Trimming drops the highest digests until the rest fits. *)
Lemma trim_loop_lemma fuel : forall s,
  sa_bytes s = pages_total (sa_pages s) -> 0 <= sa_budget s -> (size (sa_pages s) <= fuel)%nat ->
  exists s' dropped, trim_loop fuel s = Some s' /\
    sorted_list (sa_pages s) = sorted_list (sa_pages s') ++ dropped /\
    sa_bytes s' = pages_total (sa_pages s') /\ sa_bytes s' <= sa_budget s /\
    sa_budget s' = sa_budget s /\ sa_fresh s' = sa_fresh s /\
    (dropped = [] /\ s' = s \/ exists e rest, dropped = e :: rest /\ sa_budget s < sa_bytes s' + zlen e.2).
Proof.
  induction fuel as [|fuel IH]; intros s Hb H0 Hf; cbn [trim_loop]; destruct (sa_bytes s <=? sa_budget s) eqn:E.
  1, 3: exists s, []; rewrite app_nil_r; split_and!; try done; [lia|by left].
  - apply Nat.le_0_r, map_size_empty_iff in Hf. rewrite Hf in Hb. change (pages_total ∅) with 0 in Hb. lia.
  - destruct (last_page (sa_pages s)) as [[id b]|] eqn:El.
    2: { apply last_page_None in El. rewrite El in Hb. change (pages_total ∅) with 0 in Hb. lia. }
    pose proof (pages_total_last _ _ _ El) as Ht. apply sorted_list_delete_last in El as [Es Hm].
    edestruct (IH (mkSamples (delete id (sa_pages s)) (sa_bytes s - zlen b) (sa_fresh s) (sa_budget s) true))
      as (s' & dropped & E' & Es' & Hb' & Hle & H1 & H2 & Hd); cbn [sa_pages sa_bytes sa_budget sa_fresh] in *; [lia|done| |].
    { rewrite map_size_delete_Some by eauto. lia. }
    exists s', (dropped ++ [(id, b)]). rewrite E', Es, Es'. split_and!; try done; [by rewrite (assoc_L (++))|].
    right. destruct Hd as [[-> ->]|(e & rest & -> & He)].
    + exists (id, b), []. split; [done|]. cbn. lia.
    + exists e, (rest ++ [(id, b)]). done.
Qed.

Lemma trim_lemma s :
  sa_bytes s = pages_total (sa_pages s) -> 0 <= sa_budget s ->
  exists dropped, sorted_list (sa_pages s) = sorted_list (sa_pages (trim s)) ++ dropped /\
    sa_bytes (trim s) = pages_total (sa_pages (trim s)) /\ sa_bytes (trim s) <= sa_budget s /\
    sa_budget (trim s) = sa_budget s /\ sa_fresh (trim s) = sa_fresh s /\
    (dropped = [] /\ trim s = s \/ exists e rest, dropped = e :: rest /\ sa_budget s < sa_bytes (trim s) + zlen e.2).
Proof.
  intros Hb H0. destruct (trim_loop_lemma (size (sa_pages s)) s Hb H0 ltac:(done)) as (s' & dropped & E & H).
  exists dropped. unfold trim. rewrite E. exact H.
Qed.

Lemma trim_pages s id b :
  sa_bytes s = pages_total (sa_pages s) -> 0 <= sa_budget s ->
  sa_pages (trim s) !! id = Some b -> sa_pages s !! id = Some b.
Proof.
  intros Hb H0 Hi. destruct (trim_lemma s Hb H0) as (dropped & E & _). apply sorted_list_elem. rewrite E.
  apply elem_of_app. left. by apply sorted_list_elem.
Qed.

Lemma insert_ok s b : samples_ok s -> is_bytes b -> samples_ok (Samples_insert s b).
Proof.
  intros [Hp Hb Hbud Hfr] Hbytes. unfold Samples_insert. destruct (_ || negb _) eqn:E; [done|].
  apply orb_false_iff in E as [_ Hsize]. apply negb_false_iff in Hsize.
  destruct (PageSize_new (zlen b)) as [x|] eqn:Ex; [|done]. apply PageSize_new_spec in Ex as [-> Hx].
  case_bool_decide as Hin; [done|]. apply eq_None_not_Some in Hin. destruct (_ && _); [done|].
  set (s1 := mkSamples _ _ _ _ true). pose proof (sum_lengths_nonneg (map snd (sorted_list (sa_pages s)))) as Hnn.
  fold (pages_total (sa_pages s)) in Hnn.
  assert (sa_bytes s1 = pages_total (sa_pages s1)) as Hb1 by (cbn; rewrite pages_total_insert by done; lia).
  assert (0 <= sa_budget s1) as H1 by (cbn; lia).
  destruct (trim_lemma s1 Hb1 H1) as (dropped & _ & Hb2 & Hle & Hbud2 & Hfr2 & _). split.
  - intros id c Hc. apply trim_pages in Hc; [|done..]. cbn in Hc. apply lookup_insert_Some in Hc as [[<- <-]|[_ Hc]]; [done|by apply Hp].
  - done.
  - rewrite Hbud2. cbn in *. lia.
  - rewrite Hfr2, Hbud2. cbn. unfold saturating_add, U64_MAX. pose proof (zlen_nonneg b). lia.
Qed.

(** ** The pages it keeps *)

(** Every page that was offered, by digest; the first of two with one digest. *)
Definition offer (m : gmap (list Z) bytes) (b : bytes) : gmap (list Z) bytes :=
  if bool_decide (is_Some (m !! blake3 b)) then m else <[blake3 b := b]> m.

Lemma sum_lengths_uniform p l : Forall (fun b => zlen b = p) l -> sum_lengths l = zlen l * p.
Proof. unfold sum_lengths. induction 1 as [|b l Hb Hl IH]; cbn [foldr]; [done|]. rewrite zlen_cons, IH. lia. Qed.

(** The reservoir holds the lowest [k] of the offered pages. *)
Definition holds_lowest (k : nat) (p : Z) (m : gmap (list Z) bytes) (s : Samples) : Prop :=
  sorted_list (sa_pages s) = take k (sorted_list m) /\ (forall id b, m !! id = Some b -> zlen b = p).

Lemma holds_total k p m s :
  holds_lowest k p m s -> pages_total (sa_pages s) = zlen (sorted_list (sa_pages s)) * p.
Proof.
  intros [Hs Hp]. unfold pages_total. rewrite (sum_lengths_uniform p); [by unfold zlen; rewrite length_map|].
  apply Forall_fmap, Forall_forall. intros [id b] Hin. cbn. rewrite Hs in Hin. apply (Hp id).
  apply sorted_list_elem. apply list_elem_of_lookup in Hin as [i Hi]. apply lookup_take_Some in Hi as [Hi _].
  by eapply list_elem_of_lookup_2.
Qed.

(** The lowest pages after one more offer. *)
Lemma offer_lowest (k : nat) (m r : gmap (list Z) bytes) b :
  sorted_list r = take k (sorted_list m) -> r !! blake3 b = None ->
  take k (sorted_list (offer m b)) = take k (insert_sorted by_digest (blake3 b, b) (sorted_list r)).
Proof.
  intros Hs Hr. unfold offer. case_bool_decide as Hmi.
  - destruct Hmi as [v Hv]. symmetry. by eapply lowest_present.
  - apply eq_None_not_Some in Hmi. rewrite sorted_list_insert by done. rewrite Hs. apply take_insert_sorted.
Qed.

(** Pages of one size are trimmed to as many as fit. *)
Lemma trim_uniform (k : nat) p s :
  sa_bytes s = pages_total (sa_pages s) -> 0 <= sa_budget s -> 0 < p ->
  Z.of_nat k * p <= sa_budget s < (Z.of_nat k + 1) * p ->
  Forall (fun e => zlen e.2 = p) (sorted_list (sa_pages s)) ->
  sorted_list (sa_pages (trim s)) = take k (sorted_list (sa_pages s)).
Proof.
  intros Hb H0 Hp Hk Hall. destruct (trim_lemma s Hb H0) as (dropped & Ed & Hb2 & Hle & _ & _ & Hd). rewrite Ed in Hall |- *.
  apply Forall_app in Hall as [Hkept Hdrop].
  assert (sa_bytes (trim s) = zlen (sorted_list (sa_pages (trim s))) * p) as Hcount.
  { rewrite Hb2. unfold pages_total. rewrite (sum_lengths_uniform p); [by unfold zlen; rewrite length_map|by apply Forall_fmap]. }
  unfold zlen in Hcount. assert (length (sorted_list (sa_pages (trim s))) <= k)%nat as Hlek by nia.
  destruct Hd as [[-> _]|(e & rest & -> & He)]; [by rewrite app_nil_r, take_ge|].
  apply Forall_cons in Hdrop as [He2 _]. rewrite take_app_le by nia. rewrite take_ge; [done|]. nia.
Qed.

Lemma insert_lowest k p m s b :
  samples_ok s -> page_size_ok p -> k = Z.to_nat (sa_budget s / p) -> holds_lowest k p m s ->
  zlen b = p -> holds_lowest k p (offer m b) (Samples_insert s b).
Proof.
  intros Hok Hp Hk Hl Hb. pose proof (page_size_ok_bounds _ Hp) as Hpb. pose proof Hl as [Hs Hm].
  pose proof (holds_total k p m s Hl) as Htot. pose proof Hok as [_ Hby Hbud _].
  pose proof (sum_lengths_nonneg (map snd (sorted_list (sa_pages s)))) as Hnn. fold (pages_total (sa_pages s)) in Hnn.
  assert (Z.of_nat k * p <= sa_budget s < (Z.of_nat k + 1) * p) as Hroom.
  { pose proof (Z.mul_succ_div_gt (sa_budget s) p ltac:(lia)). pose proof (Z.mul_div_le (sa_budget s) p ltac:(lia)).
    pose proof (Z.div_pos (sa_budget s) p). nia. }
  split.
  2: { intros id v. unfold offer. case_bool_decide; [apply Hm|]. intros [[_ <-]|[_ Hv]]%lookup_insert_Some; [done|by eapply Hm]. }
  unfold Samples_insert. rewrite Hb. assert (PageSize_new p = Ok p) as -> by by apply PageSize_new_spec. cbn [is_ok negb].
  rewrite (proj2 (Z.ltb_ge _ _)) by (unfold U32_MAX; lia). cbn [orb]. case_bool_decide as Hin.
  { unfold offer. rewrite bool_decide_true; [done|]. destruct Hin as [v Hv]. exists v. apply sorted_list_elem.
    apply sorted_list_elem in Hv. rewrite Hs in Hv. by eapply take_elem. }
  apply eq_None_not_Some in Hin. rewrite (offer_lowest k m (sa_pages s) b Hs Hin). destruct (_ && _) eqn:Erej.
  - apply andb_true_iff in Erej as [Eover Elast]. apply Z.ltb_lt in Eover. rewrite Hby, Htot in Eover. unfold zlen in Eover.
    destruct (last_page (sa_pages s)) as [[lid lv]|] eqn:El; [|done]. rewrite (rejected_last _ _ _ _ _ El Elast Hin).
    assert (length (sorted_list (sa_pages s)) = k) by (apply (f_equal length) in Hs; rewrite length_take in Hs; nia).
    rewrite take_app_le by lia. by rewrite take_ge by lia.
  - rewrite (trim_uniform k p); cbn [sa_pages sa_bytes sa_budget]; try lia.
    + by rewrite sorted_list_insert.
    + rewrite pages_total_insert by done. lia.
    + rewrite sorted_list_insert, insert_sorted_perm by done. constructor; [done|]. rewrite Hs. apply Forall_forall.
      intros [i v] Hv%take_elem. by eapply Hm, sorted_list_elem.
Qed.
(** Offers of the same pages in another order make the same map, up to a collision. *)
Lemma offers_lookup pages m id :
  fold_left offer pages m !! id =
  match m !! id with Some b => Some b | None => List.find (fun b => bytes_eqb (blake3 b) id) pages end.
Proof.
  revert m. induction pages as [|b pages IH]; intros m; cbn [fold_left List.find]; [by destruct (m !! id)|].
  rewrite IH. unfold offer. destruct (bytes_eqb (blake3 b) id) eqn:E.
  - apply bytes_eqb_true in E. subst id. case_bool_decide as Hb.
    + by destruct Hb as [x ->].
    + apply eq_None_not_Some in Hb. by rewrite lookup_insert_eq, Hb.
  - apply bytes_eqb_false in E. case_bool_decide; [done|]. by rewrite lookup_insert_ne.
Qed.

Lemma offers_perm pages pages' :
  pages ≡ₚ pages' -> fold_left offer pages ∅ = fold_left offer pages' ∅ \/ collision.
Proof.
  intros Hp. assert (forall l : list (list Z), (forall id, id ∈ l -> fold_left offer pages ∅ !! id = fold_left offer pages' ∅ !! id) \/ collision) as Hall.
  { induction l as [|id l IH]; [left; intros ? H; by apply elem_of_nil in H|]. destruct IH as [IH|]; [|by right].
    assert (fold_left offer pages ∅ !! id = fold_left offer pages' ∅ !! id \/ collision) as [He|]; [|left|by right].
    2: { by intros x [->|Hx]%elem_of_cons; [|apply IH]. }
    rewrite !offers_lookup, !lookup_empty. destruct (List.find _ pages) as [a|] eqn:Ea.
    - apply find_some in Ea as [Ha Ea]. apply list_elem_of_In in Ha. rewrite Hp in Ha. apply bytes_eqb_true in Ea.
      destruct (List.find _ pages') as [c|] eqn:Ec.
      + apply find_some in Ec as [_ Ec]. apply bytes_eqb_true in Ec. rewrite <- Ec in Ea.
        apply blake3_binds in Ea as [->|]; [by left|by right].
      + apply list_elem_of_In in Ha. pose proof (find_none _ _ Ec _ Ha) as Hn. cbn in Hn. rewrite Ea, bytes_eqb_refl in Hn. done.
    - left. symmetry. destruct (List.find _ pages') as [c|] eqn:Ec; [|done]. apply find_some in Ec as [Hc Ec].
      apply list_elem_of_In in Hc. rewrite <- Hp in Hc. apply list_elem_of_In in Hc.
      pose proof (find_none _ _ Ea _ Hc) as Hn. cbn in Hn. congruence. }
  destruct (Hall (map blake3 (pages ++ pages'))) as [H|]; [left|by right]. apply map_eq. intros id.
  destruct (decide (id ∈ map blake3 (pages ++ pages'))) as [Hin|Hno]; [by apply H|]. rewrite !offers_lookup, !lookup_empty.
  assert (forall l : list bytes, (forall b, b ∈ l -> b ∈ pages ++ pages') -> List.find (fun b => bytes_eqb (blake3 b) id) l = None) as Hf.
  { intros l Hl. destruct (List.find _ l) as [b|] eqn:Eb; [|done]. apply find_some in Eb as [Hb Eb]. apply bytes_eqb_true in Eb.
    exfalso. apply Hno. subst id. apply list_elem_of_fmap_2, Hl. by apply list_elem_of_In. }
  rewrite !Hf; [done|intros; apply elem_of_app; by right|intros; apply elem_of_app; by left].
Qed.

(** ** The record *)

Lemma reads_samples l : forall pages total,
  Forall (fun b => page_size_ok (zlen b) /\ is_bytes b) l -> NoDup (map blake3 l) ->
  (forall b, b ∈ l -> pages !! blake3 b = None) -> 0 <= total -> total + sum_lengths l <= MAX_SAMPLE_BYTES ->
  reads (decode_samples (length l) pages total) (concat (map (fun b => u32_bytes (zlen b) ++ b) l))
    (foldl (fun m e => <[e.1 := e.2]> m) pages (map (fun b => (blake3 b, b)) l), total + sum_lengths l).
Proof.
  induction l as [|b l IH]; intros pages total Hl Hnd Hf H0 Hmax; cbn [length decode_samples map concat foldl].
  - change (sum_lengths []) with 0. rewrite Z.add_0_r. apply reads_ret.
  - apply Forall_cons in Hl as [[Hs Hb] Hl]. cbn [map] in Hnd. apply NoDup_cons in Hnd as [Hn Hnd].
    change (sum_lengths (b :: l)) with (zlen b + sum_lengths l) in *. pose proof (page_size_ok_bounds _ Hs) as Hbounds.
    pose proof (sum_lengths_nonneg l). rewrite <- (assoc_L (++)).
    eapply reads_bind; [apply reads_u32; unfold is_u32; lia|].
    eapply reads_lift; [by apply PageSize_new_fwd|]. eapply reads_bind; [by apply reads_exact|].
    apply reads_guard.
    { apply orb_false_iff. split; [apply Z.ltb_ge; lia|]. apply bool_decide_eq_false. rewrite Hf by by left. by intros [? ?]. }
    rewrite Z.add_assoc. apply IH; try done; try lia. intros c Hc.
    rewrite lookup_insert_ne; [apply Hf; by right|]. cbn. intros E. apply Hn. rewrite E. by apply list_elem_of_fmap_2.
Qed.

Lemma samples_listing s :
  samples_ok s -> map (fun b => (blake3 b, b)) (map snd (sorted_list (sa_pages s))) = sorted_list (sa_pages s).
Proof.
  intros Hok. rewrite map_map. rewrite <- (map_id (sorted_list (sa_pages s))) at 2. apply map_ext_in. intros [id b] Hin.
  apply list_elem_of_In, sorted_list_elem in Hin. destruct (samples_pages s Hok _ _ Hin) as [-> _]. done.
Qed.

(** What a written record decodes to, before trimming. *)
Lemma samples_body_reads s :
  samples_ok s ->
  let pages := map snd (sorted_list (sa_pages s)) in
  reads samples_body (u64_bytes (sa_fresh s) ++ u32_bytes (zlen pages) ++ concat (map (fun b => u32_bytes (zlen b) ++ b) pages))
    (sa_fresh s, (sa_pages s, sa_bytes s)) /\
  zlen pages * 512 <= sa_bytes s.
Proof.
  intros Hok pages. pose proof (samples_budget s Hok) as Hbud. pose proof (samples_fresh s Hok) as Hfr.
  assert (Forall (fun b => page_size_ok (zlen b) /\ is_bytes b) pages) as Hall.
  { subst pages. apply Forall_fmap, Forall_forall. intros [id b] Hin. apply sorted_list_elem in Hin.
    by apply (samples_pages s Hok) in Hin as (_ & ? & ?). }
  assert (zlen pages * 512 <= sa_bytes s) as Hcount.
  { rewrite (samples_bytes s Hok). unfold pages_total. fold pages. unfold sum_lengths. clear -Hall. induction Hall as [|b l [Hb _] Hl IH]; cbn [foldr]; [done|].
    rewrite zlen_cons. apply page_size_ok_bounds in Hb. lia. }
  split; [|done]. pose proof (zlen_nonneg pages). unfold samples_body, MAX_SAMPLE_BYTES in *.
  eapply reads_bind; [apply reads_u64; unfold is_u64; lia|].
  eapply reads_bind; [apply reads_u32; unfold is_u32; lia|].
  apply reads_guard; [apply Z.ltb_ge, Z.div_le_lower_bound; lia|]. unfold zlen at 1. rewrite Nat2Z.id.
  eapply reads_bind_end; [apply reads_samples; try done|].
  - assert (map blake3 pages = map fst (sorted_list (sa_pages s))) as ->.
    { rewrite <- samples_listing at 1 by done. subst pages. by rewrite !map_map. }
    apply sorted_list_NoDup.
  - pose proof (samples_bytes s Hok) as E. unfold pages_total in E. fold pages in E. unfold MAX_SAMPLE_BYTES. lia.
  - assert (foldl (fun m e => <[e.1 := e.2]> m) ∅ (map (fun b => (blake3 b, b)) pages) = sa_pages s) as ->.
    { subst pages. rewrite samples_listing by done. apply foldl_insert_all, sorted_list_perm. }
    rewrite (samples_bytes s Hok). apply reads_ret.
Qed.

Lemma mmap_encode_sample l records :
  mmap encode_sample l = Ok records -> records = map (fun b => u32_bytes (zlen b) ++ b) l.
Proof.
  intros E%mmap_Ok. induction E as [|b r l rs Hb _ IH]; [done|]. cbn. unfold encode_sample in Hb. inv_ok. by subst.
Qed.

Lemma samples_raw s :
  samples_ok s ->
  let pages := map snd (sorted_list (sa_pages s)) in
  let raw := u64_bytes (sa_fresh s) ++ u32_bytes (zlen pages) ++ concat (map (fun b => u32_bytes (zlen b) ++ b) pages) in
  is_bytes raw /\ zlen raw <= MAX_SAMPLE_BYTES + 1024 * 1024.
Proof.
  intros Hok pages raw. subst raw. destruct (samples_body_reads s Hok) as [_ Hcount]. cbn zeta in Hcount. fold pages in Hcount.
  pose proof (samples_budget s Hok) as Hbud. split.
  - rewrite !Forall_app. split_and!; [apply is_bytes_le_bytes..|]. apply Forall_concat, Forall_fmap, Forall_fmap, Forall_forall.
    intros [id b] Hin. apply sorted_list_elem in Hin. cbn. apply (samples_pages s Hok) in Hin as (_ & _ & Hb).
    apply Forall_app. split; [apply is_bytes_le_bytes|done].
  - assert (zlen (concat (map (fun b => u32_bytes (zlen b) ++ b) pages)) = 4 * zlen pages + sum_lengths pages) as Hz.
    { clear. unfold sum_lengths. induction pages as [|b l IH]; cbn [map concat foldr]; [done|].
      rewrite !zlen_app, IH, zlen_cons. unfold u32_bytes. rewrite zlen_le_bytes. lia. }
    rewrite !zlen_app, Hz. unfold u64_bytes, u32_bytes. rewrite !zlen_le_bytes.
    pose proof (samples_bytes s Hok) as Hb. unfold pages_total in Hb. fold pages in Hb.
    unfold MAX_SAMPLE_BYTES in *. lia.
Qed.

(** ** Theorems *)

Definition reservoir (budget : Z) (pages : list bytes) : Samples := fold_left Samples_insert pages (Samples_new budget).

Lemma insert_budget s b : samples_ok s -> sa_budget (Samples_insert s b) = sa_budget s.
Proof.
  intros [_ Hb Hbud Hfr]. unfold Samples_insert. destruct (_ || negb _); [done|]. case_bool_decide as Hin; [done|].
  destruct (_ && _); [done|]. apply eq_None_not_Some in Hin. set (s1 := mkSamples _ _ _ _ true).
  destruct (trim_lemma s1) as (d & _ & _ & _ & -> & _); [cbn; rewrite pages_total_insert by done|cbn|done]; lia.
Qed.

Lemma reservoir_lemma budget p pages :
  page_size_ok p -> 0 <= budget <= MAX_SAMPLE_BYTES -> Forall (fun b => zlen b = p /\ is_bytes b) pages ->
  samples_ok (reservoir budget pages) /\
  holds_lowest (Z.to_nat (budget / p)) p (fold_left offer pages ∅) (reservoir budget pages).
Proof.
  intros Hp Hbud Hall. unfold reservoir.
  assert (forall m s, samples_ok s -> sa_budget s = budget -> holds_lowest (Z.to_nat (budget / p)) p m s ->
    samples_ok (fold_left Samples_insert pages s) /\
    holds_lowest (Z.to_nat (budget / p)) p (fold_left offer pages m) (fold_left Samples_insert pages s)) as Hgen.
  { induction Hall as [|b pages [Hb Hbytes] Hall IH]; intros m s Hs Hbs Hl; [done|]. cbn [fold_left]. apply IH.
    - by apply insert_ok.
    - rewrite <- Hbs. by apply insert_budget.
    - apply insert_lowest; [done|done|by rewrite Hbs|done|done]. }
  apply Hgen; [|done|].
  - split; cbn; [intros ? ? H; by rewrite lookup_empty in H|done|lia|lia].
  - split; [change (@nil (list Z * bytes) = take (Z.to_nat (budget / p)) []); by rewrite take_nil|]. intros ? ? H. by rewrite lookup_empty in H.
Qed.

(** C16. The reservoir is a deterministic sample: of all pages of one size offered to an empty
    reservoir it holds exactly those with the lowest digests, as many as its budget holds; it
    stays well formed, and, unless two pages collide, offering the same pages in any other order
    leaves the same reservoir. *)
Theorem reservoir_holds_lowest_digests budget p pages :
  page_size_ok p -> 0 <= budget <= MAX_SAMPLE_BYTES -> Forall (fun b => zlen b = p /\ is_bytes b) pages ->
  samples_ok (reservoir budget pages) /\
  sorted_list (sa_pages (reservoir budget pages)) =
    take (Z.to_nat (budget / p)) (sorted_list (fold_left offer pages ∅)) /\
  forall pages', pages ≡ₚ pages' -> sa_pages (reservoir budget pages') = sa_pages (reservoir budget pages) \/ collision.
Proof.
  intros Hp Hbud Hall. destruct (reservoir_lemma budget p pages Hp Hbud Hall) as [Hok [Hs _]]. split_and!; [done..|].
  intros pages' Hperm. destruct (offers_perm pages pages' Hperm) as [He|]; [left|by right].
  rewrite Hperm in Hall. destruct (reservoir_lemma budget p pages' Hp Hbud Hall) as [_ [Hs' _]].
  apply sorted_list_inj. by rewrite Hs, Hs', He.
Qed.

(** The samples survive their record: what a well-formed reservoir with changes writes is read
    back, under the same budget, as the same reservoir without changes; and one without changes
    writes nothing. *)
Theorem samples_record_roundtrip s e :
  samples_ok s -> Samples_encode s = Ok e ->
  match e with
  | None => sa_dirty s = false
  | Some e => zlen e <= MAX_SAMPLE_BYTES + 2 * 1024 * 1024 ->
      Samples_load (Ok e) (sa_budget s) =
      mkSamples (sa_pages s) (sa_bytes s) (sa_fresh s) (sa_budget s) false
  end.
Proof.
  intros Hok E. unfold Samples_encode in E. destruct (sa_dirty s); cbn [negb] in E; [|by inv_ok; subst e].
  inv_ok. subst e. intros Hlen. apply mmap_encode_sample in Hok0. subst a.
  destruct (samples_body_reads s Hok) as [Hr Hcount]. cbn zeta in Hr, Hcount. set (pages := map snd (sorted_list (sa_pages s))) in *.
  pose proof (samples_budget s Hok) as Hbud. pose proof (samples_fresh s Hok) as Hfr. set (raw := u64_bytes _ ++ _) in *.
  assert (is_bytes raw /\ zlen raw <= MAX_SAMPLE_BYTES + 1024 * 1024) as [Hrb Hrl] by by apply samples_raw.
  unfold Samples_load, Samples_decode. cbn [rbind]. rewrite (proj2 (Z.ltb_ge _ _)) by done.
  rewrite (envelope_roundtrip_lemma SAMPLE_MAGIC raw a0 (MAX_SAMPLE_BYTES + 1024 * 1024)); try done.
  - cbn [rbind]. destruct (reads_whole _ _ _ Hr) as (d & Ed & Hd); [unfold MAX_SAMPLE_BYTES, U64_MAX in *; lia|done|].
    rewrite Ed. cbn [rbind snd fst]. rewrite Hd. cbn [rbind]. rewrite Z.min_l by lia. rewrite (proj2 (Z.ltb_ge _ _)) by lia.
    destruct (trim_lemma (mkSamples (sa_pages s) (sa_bytes s) (sa_fresh s) (sa_budget s) false)) as (dr & Hs & _ & _ & _ & _ & Hd').
    + apply (samples_bytes s Hok).
    + cbn. lia.
    + destruct Hd' as [[_ ->]|(x & rest & -> & Hx)]; [done|]. exfalso. unfold trim in Hx, Hs.
      assert (trim_loop (size (sa_pages s)) (mkSamples (sa_pages s) (sa_bytes s) (sa_fresh s) (sa_budget s) false) =
        Some (mkSamples (sa_pages s) (sa_bytes s) (sa_fresh s) (sa_budget s) false)) as Hnoop.
      { destruct (size (sa_pages s)); cbn; by rewrite (proj2 (Z.leb_le _ _)) by lia. }
      cbn in Hnoop, Hs. rewrite Hnoop in Hs. cbn in Hs. apply (f_equal length) in Hs. rewrite length_app in Hs. cbn in Hs. lia.
  - apply bytes_check_ok. vm_compute. reflexivity.
  - unfold MAX_SAMPLE_BYTES, U64_MAX in *. lia.
  - eapply envelope_bytes; [|done]. apply bytes_check_ok. vm_compute. reflexivity.
  - unfold MAX_SAMPLE_BYTES, U64_MAX in *. lia.
Qed.

End Reservoir.

(** ** The choice of a dictionary *)

Section Choice.
Context {HH : Hashes} {Z0 : ZstdLib} {ZT : ZstdTrainer}.

Lemma fold_min_le l x : fold_left Z.min l x <= x /\ forall y, y ∈ l -> fold_left Z.min l x <= y.
Proof.
  revert x. induction l as [|y l IH]; intros x; cbn [fold_left]; [split; [lia|intros ? H; by apply elem_of_nil in H]|].
  destruct (IH (Z.min x y)) as [H1 H2]. split; [lia|]. intros z [->|Hz]%elem_of_cons; [lia|by apply H2].
Qed.

Lemma minimum_le l m x : minimum l = Some m -> x ∈ l -> m <= x.
Proof.
  destruct l as [|y l]; [done|]. cbn. intros [= <-] Hx. destruct (fold_min_le l y) as [H1 H2].
  apply elem_of_cons in Hx as [->|Hx]; [done|by apply H2].
Qed.

Lemma minimum_elem l m : minimum l = Some m -> m ∈ l.
Proof.
  destruct l as [|y l]; [done|]. cbn. intros [= <-]. revert y. induction l as [|z l IH]; intros y; cbn [fold_left]; [by left|].
  specialize (IH (Z.min y z)). apply elem_of_cons in IH as [->|IH].
  - destruct (Z.min_spec y z) as [[_ ->]|[_ ->]]; set_solver.
  - set_solver.
Qed.

Lemma imap_fmap_snd {A} (l : list A) : map snd (imap (fun i b => (Z.of_nat i, b)) l) = l.
Proof.
  apply list_eq. intros i. rewrite list_lookup_fmap, list_lookup_imap. by destruct (l !! i).
Qed.

Lemma cheapest_best l x : cheapest l = Some x -> x ∈ l /\ forall y, y ∈ l -> fst x <= fst y.
Proof.
  destruct l as [|y l]; [done|]. cbn [cheapest]. intros [= <-].
  assert (forall best, let r := fold_left (fun best c => if fst c <? fst best then c else best) l best in
    (r = best \/ r ∈ l) /\ fst r <= fst best /\ forall z, z ∈ l -> fst r <= fst z) as Hgen.
  { induction l as [|z l IH]; intros best; cbn [fold_left]; [split; [by left|]; split; [done|]; intros ? H; by apply elem_of_nil in H|].
    specialize (IH (if fst z <? fst best then z else best)). cbn zeta in IH |- *. destruct IH as (H1 & H2 & H3).
    set (r := fold_left _ l _) in *. split_and!.
    - destruct H1 as [->|H1]; [|right; by right]. destruct (_ <? _); [right; by left|by left].
    - destruct (fst z <? fst best) eqn:E; [|done]. apply Z.ltb_lt in E. lia.
    - intros w [->|Hw]%elem_of_cons; [|by apply H3]. destruct (fst z <? fst best) eqn:E; [done|]. apply Z.ltb_ge in E. lia. }
  specialize (Hgen y). cbn zeta in Hgen. destruct Hgen as (H1 & H2 & H3). split.
  - destruct H1 as [->|H1]; [by left|by right].
  - intros z [->|Hz]%elem_of_cons; [done|by apply H3].
Qed.

Lemma evaluation_partition s e s' :
  evaluation s = Some (e, s') -> ev_training e ++ ev_held_out e ≡ₚ map snd (sorted_list (sa_pages s)).
Proof.
  unfold evaluation. destruct (negb _); [done|]. intros [= <- _]. cbn [ev_training ev_held_out]. unfold every_fifth.
  rewrite <- map_app. generalize (map snd (sorted_list (sa_pages s))) as pages. intros pages.
  rewrite <- (imap_fmap_snd pages) at 3. apply Permutation_map. generalize (imap (fun i b => (Z.of_nat i, b)) pages) as l. clear.
  induction l as [|x l IH]; [done|]. cbn [List.filter]. destruct (fst x mod 5 =? 0); cbn [Bool.eqb].
  - rewrite <- Permutation_middle. by rewrite IH.
  - cbn [app]. by rewrite IH.
Qed.

(** C17. A dictionary is adopted only when it pays: training and held-out pages are together the
    reservoir; the chosen dictionary was trained on the training pages at a supported capacity,
    and its stored size for the held-out pages scaled to the database, its own bytes included, is
    at least five per cent below that of every existing dictionary and of none; and no other
    candidate that qualifies is cheaper. *)
Theorem selected_dictionary_pays s e s' policy level logical existing d :
  evaluation s = Some (e, s') -> select e policy level logical existing = Some d ->
  ev_training e ++ ev_held_out e ≡ₚ map snd (sorted_list (sa_pages s)) /\
  exists capacity cost, capacity ∈ candidates policy (sum_lengths (ev_training e)) /\
    ztrain (ev_training e) capacity = Some d /\ score e level logical d (zlen d) = Some cost /\
    (forall other c, other ∈ [] :: existing -> score e level logical other 0 = Some c -> cost * 100 <= c * 95) /\
    forall capacity' d' cost', capacity' ∈ candidates policy (sum_lengths (ev_training e)) ->
      ztrain (ev_training e) capacity' = Some d' -> score e level logical d' (zlen d') = Some cost' ->
      (forall other c, other ∈ [] :: existing -> score e level logical other 0 = Some c -> cost' * 100 <= c * 95) ->
      cost <= cost'.
Proof.
  intros He Hsel. split.
  - by eapply evaluation_partition.
  - unfold select in Hsel. destruct (minimum _) as [previous|] eqn:Em; [|done]. cbn [mbind option_bind] in Hsel.
    destruct (cheapest _) as [[cost d']|] eqn:Ec; [|done]. injection Hsel as ->. apply cheapest_best in Ec as [Hin Hbest].
    apply list_elem_of_omap in Hin as (capacity & Hcap & Hcand). unfold candidate in Hcand.
    destruct (ztrain _ capacity) as [d0|] eqn:Et; [|done]. cbn [mbind option_bind] in Hcand.
    destruct (score e level logical d0 (zlen d0)) as [c0|] eqn:Es; [|done]. cbn [mbind option_bind] in Hcand.
    destruct (_ <=? _) eqn:El; [|done]. simplify_eq. apply Z.leb_le in El.
    assert (forall other c, other ∈ [] :: existing -> score e level logical other 0 = Some c -> previous <= c) as Hprev.
    { intros other c Ho Hc. eapply minimum_le; [exact Em|]. apply elem_of_app. apply elem_of_cons in Ho as [->|Ho].
      - right. rewrite Hc. by left.
      - left. apply list_elem_of_omap. by exists other. }
    exists capacity, cost. split_and!; try done.
    + intros other c Ho Hc. specialize (Hprev other c Ho Hc). lia.
    + intros cap2 d2 c2 Hcap2 Ht2 Hs2 Hq2. apply (Hbest (c2, d2)). apply list_elem_of_omap. exists cap2. split; [done|].
      unfold candidate. rewrite Ht2. cbn [mbind option_bind]. rewrite Hs2. cbn [mbind option_bind].
      rewrite (proj2 (Z.leb_le _ _)); [done|].
      assert (exists other, other ∈ [] :: existing /\ score e level logical other 0 = Some previous) as (o & Ho & Hp).
      { pose proof (minimum_elem _ _ Em) as Hmin. apply elem_of_app in Hmin as [Hmin|Hp].
        { apply list_elem_of_omap in Hmin as (o & Ho & Hp). exists o. split; [by right|done]. }
        exists []. split; [by left|]. destruct (score e level logical [] 0) as [x|]; [|by apply elem_of_nil in Hp].
        by apply list_elem_of_singleton in Hp as ->. }
      by eapply Hq2.
Qed.
End Choice.
