(* ===== verification/SamplesDemo.v ===== *)
(** The witnesses of the theorems on maintenance reads and on training samples. *)

From S2P Require Import Prelude Domain Layout Format Wire Segment Frame Pack Backend CatalogIndex Catalog Placement View ViewDemo Manifest ManifestDemo Store Sealed ManifestProofs ViewProofs SealedProofs SealedDemo Samples SamplesProofs Maintenance.
From stdpp Require Import base strings gmap list sorting.
From Stdlib Require Import ZArith Lia.
Open Scope Z_scope.

#[local] Existing Instances demo_hashes demo_zstd demo_hashes_ok demo_zstd_ok.

(** ** Maintenance reads *)

Lemma demo_located : located demo_pinned demo_location4.
Proof.
  split; [vm_compute; discriminate|]. exists (fz_file demo_packed). split; [|vm_compute; discriminate].
  exists demo_placements4, demo_representation4, demo_blob4.
  split; [vm_compute; reflexivity|]. split; [vm_compute; reflexivity|]. split; [exact demo_extent4_ok|].
  split; [vm_compute; reflexivity|]. split; [vm_compute; reflexivity|]. split; [vm_compute; discriminate|]. vm_compute. reflexivity.
Qed.

Definition demo_locations : list FrameLocation := [demo_location4; demo_location4].
Definition demo_reads : MaintenanceReads := Eval vm_compute in
  unwrap (mkReads [] None) (MaintenanceReads_new (pn_placement demo_pinned) demo_locations).

(** The frame is read twice, the second time from the buffer. *)
Lemma maintenance_reads_exact_witness : exists records r',
  reads_all (pn_storage demo_pinned) (pn_placement demo_pinned) demo_locations demo_reads = (Ok records, r') /\
  Forall2 (fun l record => read_record demo_pinned l = Ok record) demo_locations records.
Proof.
  apply (maintenance_reads_exact demo_pinned demo_locations).
  - unfold demo_locations. rewrite !Forall_cons. split_and!; [exact demo_located..|constructor].
  - vm_compute. reflexivity.
  - intros l Hl. exact Hl.
Defined.

Definition demo_spans : list Span := Eval vm_compute in
  unwrap [] (mmap (reads_span (pn_placement demo_pinned)) demo_locations).

Lemma maintenance_reads_bounded_witness :
  windows_total (mr_windows demo_reads) <= READ_AMPLIFICATION * spans_total (dedup (isort span_leb demo_spans)).
Proof.
  apply (maintenance_reads_bounded (pn_placement demo_pinned) demo_locations demo_reads demo_spans); vm_compute; reflexivity.
Defined.

(** ** Samples *)

Definition demo_samples : list bytes := [demo_page 251; demo_page 7; demo_page 251; demo_page 13].

(** Two of the three distinct pages fit. *)
Lemma reservoir_holds_lowest_digests_witness :
  samples_ok (reservoir 1024 demo_samples) /\ length (sorted_list (sa_pages (reservoir 1024 demo_samples))) = 2%nat /\
  (sa_pages (reservoir 1024 (reverse demo_samples)) = sa_pages (reservoir 1024 demo_samples) \/ collision).
Proof.
  destruct (reservoir_holds_lowest_digests 1024 512 demo_samples) as (H1 & H2 & H3).
  - apply page_size_512.
  - unfold MAX_SAMPLE_BYTES. lia.
  - repeat (apply Forall_cons; split; [split; [vm_compute; reflexivity|apply bytes_check_ok; vm_compute; reflexivity]|]). constructor.
  - split; [exact H1|]. split; [vm_compute; reflexivity|]. apply H3. symmetry. apply reverse_Permutation.
Defined.

(** ** The choice of a dictionary *)

(** A compressor to which any dictionary makes every page one byte, and a trainer that always
    finds one. *)
Definition sample_zstd : ZstdLib := {|
  zcompress _ d b := Some (if zlen d =? 0 then b else [0]);
  zdecompress _ b _ := Some b;
  zstream b := Some (b, true);
|}.
Definition sample_trainer : ZstdTrainer :=
  {| zcompressor _ _ := true; zdecoder _ := true; ztrain _ c := Some (zeros (c / 1024)) |}.

(** A full reservoir whose pages are all [b]. *)
Definition sample_pages (b : bytes) : gmap (list Z) bytes := list_to_map (map (fun k => ([Z.of_nat k], b)) (seq 0 32)).
Definition sample_reservoir (b : bytes) : Samples := mkSamples (sample_pages b) 0 1048576 1048576 true.

Definition sample_policy : DictionaryPolicy := mkDictPolicy (UpTo 16384) 1048576.
Definition sample_evaluation (b : bytes) : Evaluation := mkEvaluation (repeat b 25) (repeat b 7).

Section Choice.
#[local] Existing Instances sample_zstd sample_trainer.
Context (b : bytes) (Hb : zlen b = 65536).

Lemma repeated_lengths n : sum_lengths (repeat b n) = Z.of_nat n * 65536.
Proof. unfold sum_lengths. induction n as [|n IH]; cbn [repeat foldr]; [done|]. rewrite IH, Hb. lia. Qed.

Lemma repeated_costs level d n c total : page_cost level d b = Some c -> sum_costs level d (repeat b n) total = Some (total + Z.of_nat n * c).
Proof.
  intros Hc. revert total. induction n as [|n IH]; intros total; cbn [repeat sum_costs]; [f_equal; lia|].
  rewrite Hc. cbn. rewrite IH. f_equal. lia.
Qed.

Lemma sample_score d added :
  score (sample_evaluation b) 3 1000000000 d added = Some (7 * (if zlen d =? 0 then 65536 else 33) * 1000000000 + added * 458752).
Proof.
  assert (page_cost 3 d b = Some (if zlen d =? 0 then 65536 else 33)) as Hc.
  { unfold page_cost. cbn. destruct (zlen d =? 0); rewrite Hb; reflexivity. }
  unfold score. cbn [sample_trainer zcompressor negb sample_evaluation ev_held_out]. rewrite (repeated_costs 3 d 7 _ 0 Hc), repeated_lengths.
  cbn. f_equal.
Qed.

Lemma sample_selects : select (sample_evaluation b) sample_policy 3 1000000000 [] = Some (zeros 8).
Proof.
  unfold select. rewrite sample_score. cbn [sample_evaluation ev_training]. rewrite repeated_lengths. fold (sample_evaluation b).
  replace (candidates sample_policy (Z.of_nat 25 * 65536)) with [16384; 8192] by (vm_compute; reflexivity).
  assert (forall previous capacity, candidate (sample_evaluation b) 3 1000000000 previous capacity =
    let d := zeros (capacity / 1024) in
    let cost := 7 * (if zlen d =? 0 then 65536 else 33) * 1000000000 + zlen d * 458752 in
    if cost * 100 <=? previous * 95 then Some (cost, d) else None) as Hc.
  { intros previous capacity. unfold candidate. cbn [sample_trainer ztrain mbind option_bind]. rewrite sample_score. reflexivity. }
  match goal with |- context [minimum ?l] => replace (minimum l) with (Some 458752000000000) by reflexivity end.
  cbn [omap list_omap mbind option_bind]. rewrite !Hc. vm_compute. reflexivity.
Qed.

Lemma sample_evaluated : exists s', evaluation (sample_reservoir b) = Some (sample_evaluation b, s').
Proof. unfold evaluation. eexists. reflexivity. Qed.
End Choice.

Definition sample_page : bytes := zeros 65536.

(** The smaller of two equally good dictionaries is chosen. *)
Lemma selected_dictionary_pays_witness : exists s',
  evaluation (sample_reservoir sample_page) = Some (sample_evaluation sample_page, s') /\
  @select sample_zstd sample_trainer (sample_evaluation sample_page) sample_policy 3 1000000000 [] = Some (zeros 8) /\
  (repeat sample_page 25 ++ repeat sample_page 7 ≡ₚ map snd (sorted_list (sample_pages sample_page))).
Proof.
  assert (zlen sample_page = 65536) as Hb by (unfold sample_page; apply zlen_zeros; lia).
  destruct (sample_evaluated sample_page) as [s' He]. exists s'. split; [exact He|]. split; [exact (sample_selects sample_page Hb)|].
  destruct (@selected_dictionary_pays sample_zstd sample_trainer (sample_reservoir sample_page) (sample_evaluation sample_page) s'
    sample_policy 3 1000000000 [] (zeros 8) He (sample_selects sample_page Hb)) as [H _]. exact H.
Defined.
