(* ===== verification/Prepared.v ===== *)
(** Preparing and installing a seal (src/src/storage/prepared.rs, [PackWriter] of
    src/src/storage/seal.rs, src/src/storage/parallel.rs, the worker counts of
    src/src/compression.rs, the seed record of src/src/storage/seed.rs): pages are grouped into
    frames, encoded in bounded batches by worker threads, collected into packs, and the packs,
    dictionaries and metadata installed as a new view.

    Temporary files are the bytes written to them. What the host decides is in [Workers] (the
    limits on worker threads, whether spawning one or lowering its priority fails) and in
    [paused], whether the n-th check finds the conversion paused. *)

From S2P Require Import Prelude Domain Layout Format Wire Segment Frame Pack Backend CatalogIndex Catalog Placement View Manifest Active Store Sealed Samples Maintenance.
From stdpp Require Import base strings gmap list sorting.
From Stdlib Require Import ZArith Lia.
Open Scope Z_scope.

(** ** Worker threads *)

Definition BATCH_BYTES : Z := 8 * 1024 * 1024.

Record Workers : Type := mkWorkers {
  wk_limit : option Z;
  wk_available : Z;
  wk_background : bool;
  wk_lower : result StoreError unit;
  wk_spawn : nat -> result StoreError unit;
}.

Definition worker_count (w : Workers) (jobs : Z) : Z :=
  Z.min (Z.min (default (wk_available w) (wk_limit w)) (wk_available w)) (Z.max jobs 1).

Definition apply_priority (w : Workers) : result StoreError unit :=
  if wk_background w then wk_lower w else Ok tt.

(** [run]: on a thread of its own when the priority is lowered. *)
Definition compression_run {A} (w : Workers) (work : result StoreError A) : result StoreError A :=
  if wk_background w then
    let* _ := wk_spawn w 0 in
    let* _ := apply_priority w in
    work
  else work.

Definition FramePages : Type := list (PageVersion * bytes).

(** [split_at_mut]: what is left is divided evenly among the workers that are left. *)
Fixpoint shares {A} (workers : nat) (groups : list A) : list (list A) :=
  match workers with
  | O => []
  | S rest =>
      let count := Nat.div (length groups + rest) workers in
      take count groups :: shares rest (drop count groups)
  end.

Section Encoding.
Context `{Hashes, ZstdLib, ZstdTrainer}.

(** The work of one thread, with a codec of its own. *)
Definition encode_groups (w : Workers) (size level : Z) (dictionary : option (Digest * bytes))
    (groups : list FramePages) : result StoreError (list EncodedFrame) :=
  let* _ := apply_priority w in
  let encoder := FrameEncoder_new level dictionary in
  fail_if negb (zcompressor level (fe_bytes encoder)) with Domain.Zstd ;;
  mmap (build encoder size) groups.

(** Threads are joined in the order of their work; the first error in that order is returned. *)
Definition encode_batch (w : Workers) (groups : list FramePages) (size level : Z)
    (dictionary : option (Digest * bytes)) : result StoreError (list EncodedFrame) :=
  match groups with
  | [] => Ok []
  | _ =>
      let workers := worker_count w (zlen groups) in
      if (workers =? 1) && negb (wk_background w) then encode_groups w size level dictionary groups
      else
        let* _ := mmap (wk_spawn w) (seq 0 (Z.to_nat workers)) in
        let* parts := mmap (encode_groups w size level dictionary) (shares (Z.to_nat workers) groups) in
        Ok (concat parts)
  end.
End Encoding.

(** ** The input of a seal *)

Record SealEndpoint : Type := mkEndpoint {
  se_dictionary : DictionaryPolicy;
  se_database : Digest;
  se_lineage : Digest;
  se_size : LogicalBytes;
  se_txid : Z;
  se_history : Digest;
  se_truncate : option Z;
}.

Record MaintenanceReport : Type := mkMaintenance {
  mt_repacked_packs : Z;
  mt_copied_frames : Z;
  mt_copied_bytes : Z;
  mt_decoded_input : Z;
}.

Record SealInput (B : Type) : Type := mkInput {
  si_endpoint : SealEndpoint;
  si_source : option (PinnedView B);
  si_pages : list (Z * Z);
  si_file : bytes;
  si_layout : LayoutPolicy;
  si_dictionaries : gmap (list Z) bytes;
  si_preferred : list Digest;
  si_samples : Samples;
  si_training : bool;
  si_update : bool;
  si_source_prefix : bool;
  si_repack : option (gset (list Z));
}.
Arguments mkInput {B}. Arguments si_endpoint {B}. Arguments si_source {B}. Arguments si_pages {B}.
Arguments si_file {B}. Arguments si_layout {B}. Arguments si_dictionaries {B}. Arguments si_preferred {B}.
Arguments si_samples {B}. Arguments si_training {B}. Arguments si_update {B}. Arguments si_source_prefix {B}.
Arguments si_repack {B}.

Record PreparedSeal (B : Type) : Type := mkPrepared {
  ps_endpoint : SealEndpoint;
  ps_source : option (PinnedView B);
  ps_dictionaries : gmap (list Z) bytes;
  ps_preferred : list Digest;
  ps_samples : option bytes;
  ps_dictionary_due : bool;
  ps_zeros : list Z;
  ps_frames : list (FrameMetadata * Z);
  ps_payloads : bytes;
  ps_layout : LayoutPolicy;
  ps_update : bool;
  ps_source_prefix : bool;
  ps_report : option MaintenanceReport;
}.
Arguments mkPrepared {B}. Arguments ps_endpoint {B}. Arguments ps_source {B}. Arguments ps_dictionaries {B}.
Arguments ps_preferred {B}. Arguments ps_samples {B}. Arguments ps_dictionary_due {B}. Arguments ps_zeros {B}.
Arguments ps_frames {B}. Arguments ps_payloads {B}. Arguments ps_layout {B}. Arguments ps_update {B}.
Arguments ps_source_prefix {B}. Arguments ps_report {B}.

(** The advisory files beside a catalog: the samples and the seed, and whether they can be
    written. *)
Record Sidecar (B : Type) : Type := mkSidecar {
  sc_guard : CatalogGuard B;
  sc_samples : result StoreError bytes;
  sc_seed : result StoreError bytes;
  sc_writable : bool;
}.
Arguments mkSidecar {B}. Arguments sc_guard {B}. Arguments sc_samples {B}. Arguments sc_seed {B}. Arguments sc_writable {B}.

Definition set_file {B : Type} (file : bytes) (pages : list (Z * Z)) (i : SealInput B) : SealInput B :=
  mkInput (si_endpoint i) (si_source i) pages file (si_layout i) (si_dictionaries i) (si_preferred i)
    (si_samples i) (si_training i) (si_update i) (si_source_prefix i) (si_repack i).
Definition set_dictionaries {B : Type} (dictionaries : gmap (list Z) bytes) (preferred : list Digest) (samples : Samples)
    (i : SealInput B) : SealInput B :=
  mkInput (si_endpoint i) (si_source i) (si_pages i) (si_file i) (si_layout i) dictionaries preferred
    samples (si_training i) (si_update i) (si_source_prefix i) (si_repack i).

Definition source_prefix {B : Type} (i : SealInput B) : SealInput B :=
  mkInput (si_endpoint i) (si_source i) (si_pages i) (si_file i) (si_layout i) (si_dictionaries i)
    (si_preferred i) (si_samples i) true (si_update i) true (si_repack i).
Definition with_dictionary_training {B : Type} (i : SealInput B) : SealInput B :=
  mkInput (si_endpoint i) (si_source i) (si_pages i) (si_file i) (si_layout i) (si_dictionaries i)
    (si_preferred i) (si_samples i) true (si_update i) (si_source_prefix i) (si_repack i).
Definition dictionary_update {B : Type} (i : SealInput B) : SealInput B :=
  mkInput (si_endpoint i) (si_source i) (si_pages i) (si_file i) (si_layout i) (si_dictionaries i)
    (si_preferred i) (si_samples i) true true (si_source_prefix i) (si_repack i).
Definition repack {B : Type} (packs : gset (list Z)) (i : SealInput B) : SealInput B :=
  mkInput (si_endpoint i) (si_source i) (si_pages i) (si_file i) (si_layout i) (si_dictionaries i)
    (si_preferred i) (si_samples i) (si_training i) (si_update i) (si_source_prefix i) (Some packs).

Definition trains (p : DictionaryPolicy) : bool :=
  match dp_training p with UpTo _ => true | TrainingDisabled => false end.

Definition needs_dictionary_update {B : Type} (i : SealInput B) : bool :=
  trains (se_dictionary (si_endpoint i)) && ready (si_samples i).

Section Prepare.
Context `{Hashes, ZstdLib, ZstdTrainer, StorageBackend B}.
Context (w : Workers) (paused : nat -> bool).

(** *** The seed of the first seal *)

Definition SEED_MAGIC : bytes := ascii "ZSEED001".

Definition seed_load (file : result StoreError bytes) (level : Z) : option bytes :=
  match file with
  | Err _ => None
  | Ok encoded =>
      if Layout.MAX_DICTIONARY_BYTES + 64 * 1024 <? zlen encoded then None
      else match open_envelope SEED_MAGIC encoded Layout.MAX_DICTIONARY_BYTES with
           | Err _ => None
           | Ok b => if negb (zlen b =? 0) && zdecoder b && zcompressor level b then Some b else None
           end
  end.

Definition seed_discard (s : Sidecar B) : Sidecar B := mkSidecar (sc_guard s) (sc_samples s) (if sc_writable s then Err Io else sc_seed s) (sc_writable s).

(** [source] is the view to be sealed upon; it is pinned again. *)
Definition SealInput_new (s : Sidecar B) (source : option Digest) (endpoint : SealEndpoint)
    (pages : list (Z * Z)) (file : bytes) (layout : LayoutPolicy) : result StoreError (SealInput B) :=
  let* source := match source with
                 | Some id => let* v := PinnedView_open (sc_guard s) id in Ok (Some v)
                 | None => Ok None
                 end in
  let '(dictionaries, preferred) :=
    match source with
    | Some v =>
        match last (vm_preferred (pn_view v)) with
        | Some id => match pn_dictionaries v !! id with
                     | Some b => ({[id := b]} : gmap (list Z) bytes, [id])
                     | None => (∅, [])
                     end
        | None => (∅, [])
        end
    | None =>
        match seed_load (sc_seed s) (lp_zstd_level layout) with
        | Some seed => ({[blake3 seed := seed]}, [blake3 seed])
        | None => (∅, [])
        end
    end in
  let budget := dp_samples (se_dictionary endpoint) in
  Ok (mkInput endpoint source pages file layout dictionaries preferred
        (if trains (se_dictionary endpoint) then Samples_load (sc_samples s) budget else Samples_new budget)
        false false false None).

(** *** Repacking *)

Record Rewrite : Type := mkRewrite {
  rw_file : bytes;
  rw_pages : list (Z * Z);
  rw_payloads : bytes;
  rw_frames : list (FrameMetadata * Z);
  rw_report : MaintenanceReport;
  rw_reads : MaintenanceReads;
}.

(** The decoded live pages of a partially live frame go to the page file. *)
Definition rewrite_page (v : PinnedView B) (frame : Digest) (size : Z) (acc : bytes * list (Z * Z))
    (p : PageVersion * bytes) : bytes * list (Z * Z) :=
  if is_live (pn_view v) (fst p) frame
  then (staged (fst acc) ((pv_page (fst p) - 1) * size) (snd p), snd acc ++ [(pv_page (fst p), pv_txid (fst p))])
  else acc.

Definition rewrite_frame (size : Z) (v : PinnedView B) (a : Rewrite) (l : FrameLocation) : result StoreError Rewrite :=
  let id := fm_id (fl_metadata l) in
  match List.find (fun version => is_live (pn_view v) version id) (fm_pages (fl_metadata l)) with
  | None => Ok a
  | Some first =>
      let* page := resolve v (pv_page first) in
      match page with
      | ZeroPage => Err (Corrupt 0)
      | StoredPageRef reference _ =>
          match reads_read (pn_storage v) (pn_placement v) l (rw_reads a) with
          | (Err e, _) => Err e
          | (Ok record, reads) =>
              let r := rw_report a in
              if forallb (fun version => is_live (pn_view v) version id) (fm_pages (fl_metadata l)) then
                let* f := authenticate_record reference record in
                let n := zlen (ef_payload f) in
                Ok (mkRewrite (rw_file a) (rw_pages a)
                      (staged (rw_payloads a) (zlen (rw_payloads a)) (ef_payload f))
                      (rw_frames a ++ [(ef_metadata f, zlen (rw_payloads a))])
                      (mkMaintenance (mt_repacked_packs r) (mt_copied_frames r + 1) (mt_copied_bytes r + n) (mt_decoded_input r))
                      reads)
              else
                let* p := decode_record v reference record in
                let raw := vf_bytes (snd p) in
                let '(file, pages) := fold_left (rewrite_page v id size)
                                        (zip (fm_pages (fl_metadata l)) (chunks_exact size raw)) (rw_file a, rw_pages a) in
                Ok (mkRewrite file pages (rw_payloads a) (rw_frames a)
                      (mkMaintenance (mt_repacked_packs r) (mt_copied_frames r) (mt_copied_bytes r) (mt_decoded_input r + zlen raw))
                      reads)
          end
      end
  end.

(** [sort_unstable_by_key] of (pack, payload offset), keys that differ between frames of a view. *)
Definition location_leb (a b : FrameLocation) : bool :=
  match digest_compare (fl_pack a) (fl_pack b) with
  | Lt => true
  | Gt => false
  | Eq => pk_offset (fl_payload a) <=? pk_offset (fl_payload b)
  end.

Definition read_repack (i : SealInput B)
    : result StoreError (SealInput B * bytes * list (FrameMetadata * Z) * option MaintenanceReport) :=
  match si_repack i with
  | None => Ok (i, [], [], None)
  | Some selected =>
      let* v := ok_or (si_source i) (Corrupt 0) in
      let locations := isort location_leb
        (List.filter (fun l => bool_decide (fl_pack l ∈ selected)) (map snd (sorted_list (vm_frames (pn_view v))))) in
      let* reads := MaintenanceReads_new (pn_placement v) locations in
      let* a := mfold (rewrite_frame (lb_page_size (se_size (si_endpoint i))) v)
                  (mkRewrite (si_file i) (si_pages i) [] [] (mkMaintenance (Z.of_nat (size selected)) 0 0 0) reads)
                  locations in
      Ok (set_file (rw_file a) (isort (fun p q => fst p <=? fst q) (rw_pages a)) i,
          rw_payloads a, rw_frames a, Some (rw_report a))
  end.

(** *** Reading and training *)

Definition input_read (i : SealInput B) (page : Z) : result StoreError bytes :=
  let size := lb_page_size (se_size (si_endpoint i)) in
  read_exact_at (si_file i) ((page - 1) * size) size.

(** The [n]-th check of the pause control. *)
Definition check_paused (i : SealInput B) (n : nat) : result StoreError unit :=
  fail_if si_source_prefix i && paused n with Busy ;;
  Ok tt.

Definition dictionary_values (i : SealInput B) : list bytes := map snd (sorted_list (si_dictionaries i)).

Definition train_dictionary (i : SealInput B) : result StoreError (SealInput B) :=
  let policy := se_dictionary (si_endpoint i) in
  let* i :=
    (if trains policy then
       let* samples := mfold (fun s p => let* b := input_read i (fst p) in Ok (Samples_insert s b))
                         (si_samples i) (si_pages i) in
       match (if si_training i then evaluation samples else None) with
       | None => Ok (set_dictionaries (si_dictionaries i) (si_preferred i) samples i)
       | Some (e, samples) =>
           match select e policy (lp_zstd_level (si_layout i)) (lb_bytes (se_size (si_endpoint i))) (dictionary_values i) with
           | None => Ok (set_dictionaries (si_dictionaries i) (si_preferred i) samples i)
           | Some d => Ok (set_dictionaries {[blake3 d := d]} [blake3 d] samples i)
           end
       end
     else Ok i) in
  Ok (set_dictionaries (filter (fun e => e.1 ∈ si_preferred i) (si_dictionaries i)) (si_preferred i) (si_samples i) i).

(** *** Grouping and encoding *)

Record Spill : Type := mkSpill {
  sp_zeros : list Z;
  sp_group : FramePages;
  sp_batch : list FramePages;
  sp_batch_bytes : Z;
  sp_frames : list (FrameMetadata * Z);
  sp_payloads : bytes;
  sp_checks : nat;
}.

Definition store_frame (acc : list (FrameMetadata * Z) * bytes) (f : EncodedFrame)
    : list (FrameMetadata * Z) * bytes :=
  (fst acc ++ [(ef_metadata f, zlen (snd acc))], staged (snd acc) (zlen (snd acc)) (ef_payload f)).

Definition active_dictionary (i : SealInput B) : option (Digest * bytes) :=
  id ← last (si_preferred i);
  d ← si_dictionaries i !! id;
  Some (id, d).

(** The closure [encode]: the batch is taken. *)
Definition encode_spill (i : SealInput B) (s : Spill) : result StoreError Spill :=
  let* _ := check_paused i (sp_checks s) in
  let* frames := encode_batch w (sp_batch s) (lb_page_size (se_size (si_endpoint i))) (lp_zstd_level (si_layout i))
                   (active_dictionary i) in
  let* _ := check_paused i (S (sp_checks s)) in
  let '(metadata, payloads) := fold_left store_frame frames (sp_frames s, sp_payloads s) in
  Ok (mkSpill (sp_zeros s) (sp_group s) [] 0 metadata payloads (S (S (sp_checks s)))).

(** The closure [spill]: the group is taken into the batch, after the batch is encoded when it
    would grow past its bound. *)
Definition spill (i : SealInput B) (s : Spill) : result StoreError Spill :=
  let n := lb_page_size (se_size (si_endpoint i)) * zlen (sp_group s) in
  let* s := (if BATCH_BYTES <? sp_batch_bytes s + n then encode_spill i s else Ok s) in
  Ok (mkSpill (sp_zeros s) [] (sp_batch s ++ [sp_group s]) (sp_batch_bytes s + n) (sp_frames s) (sp_payloads s) (sp_checks s)).

Definition prepare_page (i : SealInput B) (s : Spill) (p : Z * Z) : result StoreError Spill :=
  let size := lb_page_size (se_size (si_endpoint i)) in
  let* b := input_read i (fst p) in
  if all_zero b then
    Ok (mkSpill (sp_zeros s ++ [fst p]) (sp_group s) (sp_batch s) (sp_batch_bytes s) (sp_frames s) (sp_payloads s) (sp_checks s))
  else
    let* s := (if negb (zlen (sp_group s) =? 0) && (frame_bytes (si_layout i) size <? (zlen (sp_group s) + 1) * size)
               then spill i s else Ok s) in
    Ok (mkSpill (sp_zeros s) (sp_group s ++ [(PageVersion_verified (fst p) (snd p) b, b)]) (sp_batch s) (sp_batch_bytes s)
          (sp_frames s) (sp_payloads s) (sp_checks s)).

Definition prepare (i : SealInput B) : result StoreError (PreparedSeal B) :=
  let* _ := check_paused i 0 in
  let* r := read_repack i in
  let '(i, payloads, frames, report) := r in
  let* i := compression_run w (train_dictionary i) in
  let* _ := check_paused i 1 in
  let* s := mfold (prepare_page i) (mkSpill [] [] [] 0 frames payloads 2) (si_pages i) in
  let* s := (if zlen (sp_group s) =? 0 then Ok s else spill i s) in
  let* s := (if zlen (sp_batch s) =? 0 then Ok s else encode_spill i s) in
  let* samples := compression_run w (Samples_encode (si_samples i)) in
  Ok (mkPrepared (si_endpoint i) (si_source i) (si_dictionaries i) (si_preferred i) samples (needs_dictionary_update i)
        (sp_zeros s) (sp_frames s) (sp_payloads s) (si_layout i) (si_update i) (si_source_prefix i) report).

(** ** Writing packs *)

Record PackWriter : Type := mkPackWriter {
  pw_builder : BlobWriter;
  pw_identity : Identity;
  pw_offset : Z;
  pw_metadata_bytes : Z;
  pw_frames : list (Z * FrameMetadata);
  pw_cohort : Digest;
}.

Definition PackWriter_new : result StoreError PackWriter :=
  let* builder := BlobWriter_write BlobWriter_new PACK_HEADER in
  Ok (mkPackWriter builder Identity_new HEADER_SIZE 0 [] (zeros 32)).

Definition PackWriter_append (p : PackWriter) (f : EncodedFrame) : result StoreError PackWriter :=
  let m := ef_metadata f in
  let* metadata_bytes := range (checked_add (pw_metadata_bytes p) (encoded_len m + 64)) in
  fail_if 16 * 1024 * 1024 <? metadata_bytes with Range ;;
  let encoded := FrameMetadata_encode m in
  fail_if U32_MAX <? zlen encoded with Range ;;
  let* b := BlobWriter_write (pw_builder p) (u32_bytes (zlen encoded)) in
  let* b := BlobWriter_write b (fm_id m) in
  let* b := BlobWriter_write b encoded in
  let* header := Frame.record_header m in
  let* b := BlobWriter_write b (FrameHeader_encode header) in
  let offset := pw_offset p + (36 + zlen encoded + FRAME_HEADER_SIZE) in
  let* b := BlobWriter_write b (ef_payload f) in
  let* identity := Identity_frame (pw_identity p) m in
  Ok (mkPackWriter b identity (offset + zlen (ef_payload f)) metadata_bytes
        (pw_frames p ++ [(offset, m)]) (pw_cohort p)).

Definition set_cohort (s : State) (pack : Digest) (cohort : Digest) : result StoreError State :=
  let* p := placement s pack in
  Ok (set_placements s (Index_insert (st_placements s) pack
        (Placements_encode (mkPlacements (pl_pack p) (pl_length p) cohort (pl_representations p))))).

(** The blob a pack is finished into, and its extent there. *)
Definition finish_blob (p : PackWriter) : result StoreError (Digest * (Digest * bytes * BlobExtent)) :=
  let* pack := Identity_finish (pw_identity p) (pw_offset p) in
  let* b := complete_pack (pw_builder p) pack 32 in
  let* finished := BlobWriter_finish b in
  let '(blob, object, extents) := finished in
  let* extent := ok_or ((list_to_map extents : gmap (list Z) BlobExtent) !! pack) (Corrupt 0) in
  Ok (pack, (blob, object, extent)).

Definition locate_frame (pack : Digest) (v : ViewMetadata) (e : Z * FrameMetadata) : result StoreError ViewMetadata :=
  let* stored := value (StoredRange_new (fst e) (fm_payload_bytes (snd e))) in
  let* payload := PackRange_stored stored in
  ViewMetadata_insert v (mkLocation pack payload (snd e)).

Definition set_state (s : State) : sm (CatalogGuard B) unit := smod (fun g => mkGuard (cg_backend g) s).

(** [put] of the backend, whatever state it leaves behind. *)
Definition put_object (key : ObjectKey) (object : bytes) : sm (CatalogGuard B) unit := fun g =>
  let '(r, b) := backend_put (cg_backend g) key object in (backend r, mkGuard b (cg_state g)).

Definition PackWriter_finish (p : PackWriter) (v : ViewMetadata) : sm (CatalogGuard B) (Digest * ViewMetadata) :=
  let! finished := slift (finish_blob p) in
  let '(pack, (blob, object, extent)) := finished in
  let! _ := put_object (Blob blob) object in
  let! g := sget in
  let! s := slift (install_pack_extent (cg_state g) pack extent) in
  let! _ := set_state s in
  let! s := slift (set_cohort s pack (pw_cohort p)) in
  let! _ := set_state s in
  let! v := slift (mfold (locate_frame pack) v (pw_frames p)) in
  sret (pack, v).

(** ** Installing a seal *)

Definition install_dictionary (b : bytes) : sm (CatalogGuard B) Digest :=
  sfail_if (zlen b =? 0) || (Layout.MAX_DICTIONARY_BYTES <? zlen b) with Range ;;
  let! s := slift (Building_append (Building_new KDictionary) b) in
  let! f := slift (Building_finalize s) in
  let! _ := (fun g => Finalized_install g f) in
  sret (fz_id f).

(** The metadata before any frame is added. *)
Definition install_base (p : PreparedSeal B) : result StoreError ViewMetadata :=
  let e := ps_endpoint p in
  let v := match ps_source p with
           | None => ViewMetadata_empty (se_database e) (se_lineage e) (se_size e) (se_txid e) (se_history e)
           | Some source => pn_view source
           end in
  fail_if negb (bytes_eqb (vm_database v) (se_database e)) || negb (bytes_eqb (vm_lineage v) (se_lineage e))
    with IdentityMismatch ;;
  let v := mkView (vm_database v) (vm_lineage v) (se_size e) (se_txid e) (se_history e) (vm_parent_seal v)
             (vm_frames v) (vm_pages v) (vm_preferred v) in
  let v := remove_above v (lb_pages (se_size e)) in
  let v := match se_truncate e with Some last => remove_above v last | None => v end in
  Ok (fold_left remove_page (ps_zeros p) v).

Record Packing : Type := mkPacking { pg_writer : PackWriter; pg_view : ViewMetadata; pg_packs : list Digest }.

Definition install_frame (p : PreparedSeal B) (a : Packing) (e : FrameMetadata * Z) : sm (CatalogGuard B) Packing :=
  let! payload := slift (read_exact_at (ps_payloads p) (snd e) (fm_payload_bytes (fst e))) in
  let! frame := slift (EncodedFrame_authenticated (fst e) payload) in
  let! writer := slift (PackWriter_append (pg_writer a) frame) in
  if (lp_pack_target (ps_layout p) <=? pw_offset writer) || (8 * 1024 * 1024 <=? pw_metadata_bytes writer) then
    let! r := PackWriter_finish writer (pg_view a) in
    let! fresh := slift PackWriter_new in
    sret (mkPacking fresh (snd r) (pg_packs a ++ [fst r]))
  else sret (mkPacking writer (pg_view a) (pg_packs a)).

Fixpoint install_frames (p : PreparedSeal B) (a : Packing) (l : list (FrameMetadata * Z)) : sm (CatalogGuard B) Packing :=
  match l with
  | [] => sret a
  | e :: l => let! a := install_frame p a e in install_frames p a l
  end.

Fixpoint install_dictionaries (l : list bytes) : sm (CatalogGuard B) (list Digest) :=
  match l with
  | [] => sret []
  | b :: l => let! id := install_dictionary b in let! ids := install_dictionaries l in sret (id :: ids)
  end.

(** The lineage of the new view: that of the conversion source, of the parent seal, or kept. *)
Definition install_lineage (p : PreparedSeal B) (v : ViewMetadata) : ViewMetadata :=
  if ps_source_prefix p then sealed_lineage v None
  else match ps_source p with
       | None => sealed_lineage v None
       | Some source =>
           if vm_txid (pn_view source) <? se_txid (ps_endpoint p)
           then sealed_lineage v (Some (logical_hash (pn_view source)))
           else v
       end.

Definition install_builder (same_catalog : bool) (p : PreparedSeal B) (v : ViewMetadata) (packs receipts : list Digest)
    : result StoreError ManifestBuilder :=
  let* m := ManifestBuilder_new same_catalog v (pn_metadata <$> ps_source p) in
  let m := if ps_source_prefix p || ps_update p || bool_decide (is_Some (ps_report p))
           then ManifestBuilder_checkpoint m else m in
  let* m := mfold (fun m id => ManifestBuilder_pack m true id) m packs in
  mfold (fun m id => ManifestBuilder_dictionary m true id) m receipts.

Definition install_view (same_catalog : bool) (p : PreparedSeal B) : sm (CatalogGuard B) (Digest * ValidatedMetadata) :=
  let! v := slift (install_base p) in
  let! receipts := install_dictionaries (map snd (sorted_list (ps_dictionaries p))) in
  let v := mkView (vm_database v) (vm_lineage v) (vm_size v) (vm_txid v) (vm_history v) (vm_parent_seal v)
             (vm_frames v) (vm_pages v) (ps_preferred p) in
  let! writer := slift PackWriter_new in
  let! a := install_frames p (mkPacking writer v []) (ps_frames p) in
  let! r := (if zlen (pw_frames (pg_writer a)) =? 0 then sret (pg_view a, pg_packs a)
             else let! r := PackWriter_finish (pg_writer a) (pg_view a) in
                  sret (snd r, pg_packs a ++ [fst r])) in
  let v := install_lineage p (retain_frames (fst r)) in
  let! m := slift (install_builder same_catalog p v (snd r) receipts) in
  fun g => ManifestBuilder_finalize g m.

(** The samples and the seed are advisory: failing to write them is ignored. *)
Definition PreparedSeal_install (same_catalog : bool) (p : PreparedSeal B)
    : sm (Sidecar B) (Digest * ValidatedMetadata) := fun s =>
  match install_view same_catalog p (sc_guard s) with
  | (Err e, g) => (Err e, mkSidecar g (sc_samples s) (sc_seed s) (sc_writable s))
  | (Ok d, g) =>
      let samples := match ps_samples p with
                     | Some b => if sc_writable s then Ok b else sc_samples s
                     | None => sc_samples s
                     end in
      (Ok d, seed_discard (mkSidecar g samples (sc_seed s) (sc_writable s)))
  end.
End Prepare.
