(* ===== verification/Draft.v ===== *)
(** The versions of a view's pages as its metadata is edited: what removing pages, adding frames,
    dropping unused frames and renaming the lineage do to the version of every page. *)

From S2P Require Import Prelude Domain Format Wire Segment Frame Pack Backend CatalogIndex Catalog Placement View ViewProofs Manifest ManifestProofs.
From stdpp Require Import base strings gmap list sorting.
From Stdlib Require Import ZArith Lia.
Open Scope Z_scope.

(** The version of page [n] among those of a frame. *)
Definition pick (l : list PageVersion) (n : Z) : option PageVersion := List.find (fun x => pv_page x =? n) l.

Lemma pick_Some l n x : pick l n = Some x -> x ∈ l /\ pv_page x = n.
Proof. intros [Hin Hn]%find_some. split; [by apply list_elem_of_In|lia]. Qed.

Lemma pick_None l n : pick l n = None <-> n ∉ map pv_page l.
Proof.
  unfold pick. induction l as [|x l IH]; cbn [List.find map]; [split; [intros _; apply not_elem_of_nil|done]|].
  destruct (Z.eqb_spec (pv_page x) n) as [->|Hne].
  - split; [done|]. intros H. exfalso. apply H. by left.
  - rewrite IH, not_elem_of_cons. split; [intros H; split; [congruence|done]|by intros [_ H]].
Qed.

Lemma pick_here l x : NoDup (map pv_page l) -> x ∈ l -> pick l (pv_page x) = Some x.
Proof.
  intros Hnd. induction l as [|y l IH]; intros Hx; [by apply elem_of_nil in Hx|]. cbn in *.
  apply NoDup_cons in Hnd as [Hy Hnd]. apply elem_of_cons in Hx as [->|Hx]; [by rewrite Z.eqb_refl|].
  destruct (Z.eqb_spec (pv_page y) (pv_page x)) as [E|_]; [|by apply IH].
  exfalso. apply Hy. rewrite E. by apply (list_elem_of_fmap_2 pv_page).
Qed.

Lemma pick_app l k n : pick (l ++ k) n = match pick l n with Some x => Some x | None => pick k n end.
Proof. unfold pick. induction l as [|x l IH]; cbn; [done|]. destruct (_ =? n); [done|]. apply IH. Qed.

Section Drafts.
Context {HH : Hashes} {HOK : HashesOk HH}.

(** ** Removing pages *)

Lemma set_maps_ok v pages :
  draft_ok v -> (forall n p, pages !! n = Some p -> vm_pages v !! n = Some p) ->
  draft_ok (set_maps v (vm_frames v) pages).
Proof. intros [] Hp. split; try done. intros n p Hn. cbn in *. by apply draft_pages, Hp. Qed.

Lemma remove_above_ok v k : draft_ok v -> draft_ok (remove_above v k).
Proof. intros Hv. apply set_maps_ok; [done|]. by intros n p [? _]%map_lookup_filter_Some. Qed.

Lemma remove_above_version v k n :
  version_at (remove_above v k) n = if n <=? k then version_at v n else None.
Proof.
  unfold version_at, remove_above. cbn [vm_pages set_maps]. rewrite map_lookup_filter.
  destruct (vm_pages v !! n) as [p|]; cbn; [|by destruct (n <=? k)].
  destruct (Z.leb_spec n k); [by rewrite option_guard_True|by rewrite option_guard_False by lia].
Qed.

Lemma remove_page_ok v k : draft_ok v -> draft_ok (remove_page v k).
Proof. intros Hv. apply set_maps_ok; [done|]. by intros n p [_ ?]%lookup_delete_Some. Qed.

Lemma remove_page_version v k n :
  version_at (remove_page v k) n = if n =? k then None else version_at v n.
Proof.
  unfold version_at, remove_page. cbn [vm_pages set_maps]. destruct (Z.eqb_spec n k) as [->|Hne].
  - by rewrite lookup_delete_eq.
  - by rewrite lookup_delete_ne by done.
Qed.

Lemma remove_pages_lemma l : forall v,
  draft_ok v -> draft_ok (fold_left remove_page l v) /\
  (forall n, version_at (fold_left remove_page l v) n = if bool_decide (n ∈ l) then None else version_at v n) /\
  set_maps (fold_left remove_page l v) ∅ ∅ = set_maps v ∅ ∅.
Proof.
  induction l as [|k l IH]; intros v Hv; cbn [fold_left]; [done|].
  destruct (IH (remove_page v k) (remove_page_ok v k Hv)) as (H1 & H2 & H3). split_and!; [done| |done].
  intros n. rewrite H2, remove_page_version. destruct (Z.eqb_spec n k) as [->|Hne].
  - rewrite (bool_decide_true (k ∈ k :: l)) by by left. by case_bool_decide.
  - rewrite (bool_decide_ext (n ∈ k :: l) (n ∈ l)); [done|]. rewrite elem_of_cons. naive_solver.
Qed.

(** ** Adding frames *)

Lemma insert_slots_lemma size txid m l : forall k pages pages',
  mfold (insert_slot size txid m) pages (imap (fun i p => (Z.of_nat (k + i), p)) l) = Ok pages' ->
  NoDup (map pv_page l) ->
  (forall i x, l !! i = Some x -> pages' !! pv_page x = Some (mkStored (fm_id m) (Z.of_nat (k + i)))) /\
  (forall n, n ∉ map pv_page l -> pages' !! n = pages !! n).
Proof.
  induction l as [|y l IH]; intros k pages pages' E Hnd; cbn [imap mfold] in E.
  - injection E as <-. split; [by intros []|done].
  - inv_ok. unfold insert_slot in Hok. inv_ok. apply value_Ok in Hok0. unfold FrameShape_slot in Hok0.
    destruct (_ <? fs_pages _); [|done]. injection Hok0 as <-. subst a.
    apply NoDup_cons in Hnd as [Hy Hnd].
    rewrite (imap_ext _ (fun i p => (Z.of_nat (S k + i), p))) in E by (intros; cbn; f_equal; lia).
    destruct (IH _ _ _ E Hnd) as [H1 H2]. split.
    + intros [|i] x Hx; cbn in Hx.
      * injection Hx as <-. rewrite H2 by done. by rewrite lookup_insert_eq.
      * rewrite (H1 i x Hx). do 2 f_equal. lia.
    + intros n [Hn Hl]%not_elem_of_cons. rewrite H2 by done. by rewrite lookup_insert_ne.
Qed.

(** The same draft with other frames and pages. *)
Lemma draft_fields v frames pages :
  draft_ok v -> (forall id l, frames !! id = Some l -> location_ok (id, l)) ->
  (forall n p, pages !! n = Some p -> page_present (set_maps v frames pages) (n, p)) ->
  draft_ok (set_maps v frames pages).
Proof. intros [] ? ?. by split. Qed.

Lemma insert_versions v l v' :
  draft_ok v -> location_ok (fm_id (fl_metadata l), l) -> ViewMetadata_insert v l = Ok v' ->
  (draft_ok v' /\ set_maps v' ∅ ∅ = set_maps v ∅ ∅ /\
   forall n, version_at v' n = match pick (fm_pages (fl_metadata l)) n with Some x => Some x | None => version_at v n end)
  \/ collision.
Proof.
  intros Hv Hl E. unfold ViewMetadata_insert in E. inv_ok. subst v'. set (m := fl_metadata l) in *.
  pose proof (location_metadata _ Hl) as (_ & _ & _ & _ & _ & _ & _ & _ & Hnd). cbn in Hnd. fold m in Hnd.
  apply (insert_slots_lemma _ _ _ _ 0) in Hok as [Hin Hout]; [|done].
  assert ((forall old, vm_frames v !! fm_id m = Some old -> fl_metadata old = m) \/ collision) as [Hsame|]; [|left|by right].
  { destruct (vm_frames v !! fm_id m) as [old|] eqn:Eo; [|by left].
    destruct (draft_frames v Hv _ _ Eo) as [[_ Hid] _ Hm _]. cbn in Hid, Hm.
    destruct (metadata_binds _ _ Hm (location_metadata _ Hl) Hid) as [Hb|]; [|by right]. left. by intros ? [= <-]. }
  assert (forall id x, vm_frames v !! id = Some x ->
            exists y, (<[fm_id m := l]> (vm_frames v)) !! id = Some y /\ fl_metadata y = fl_metadata x) as Hkeep.
  { intros id x Hx. destruct (decide (fm_id m = id)) as [<-|Hne].
    - exists l. rewrite lookup_insert_eq. split; [done|]. symmetry. by apply Hsame.
    - exists x. by rewrite lookup_insert_ne. }
  assert (forall n x, pick (fm_pages m) n = Some x -> exists i, a !! n = Some (mkStored (fm_id m) (Z.of_nat i)) /\
            fm_pages m !! i = Some x /\ pv_page x = n) as Hpick.
  { intros n x [Hx <-]%pick_Some. apply list_elem_of_lookup in Hx as [i Hi]. exists i. by rewrite (Hin i x Hi). }
  split_and!; [apply draft_fields| |]; try done.
  - intros id x [[<- <-]|[_ Hx]]%lookup_insert_Some; [done|by apply (draft_frames v Hv)].
  - intros n p Hp. destruct (pick (fm_pages m) n) as [x|] eqn:Ex.
    + destruct (Hpick n x Ex) as (i & Ha & Hi & Hn). rewrite Ha in Hp. injection Hp as <-.
      exists l, x. cbn. rewrite lookup_insert_eq, Nat2Z.id. done.
    + rewrite Hout in Hp by by apply pick_None. destruct (draft_pages v Hv _ _ Hp) as (y & x & Hy & Hx & Hn). cbn in *.
      destruct (Hkeep _ _ Hy) as (y' & Hy' & Hm). exists y', x. cbn. by rewrite Hm.
  - intros n. unfold version_at. cbn [vm_pages set_maps]. destruct (pick (fm_pages m) n) as [x|] eqn:Ex.
    + destruct (Hpick n x Ex) as (i & -> & Hi & _). cbn. unfold page_version. cbn.
      by rewrite lookup_insert_eq, Nat2Z.id.
    + rewrite Hout by by apply pick_None. destruct (vm_pages v !! n) as [p|] eqn:Ep; [|done]. cbn.
      destruct (draft_pages v Hv _ _ Ep) as (y & x & Hy & Hx & Hn). cbn in *. destruct (Hkeep _ _ Hy) as (y' & Hy' & Hm).
      unfold page_version. cbn. by rewrite Hy', Hy, Hm.
Qed.

(** ** Dropping unused frames *)

Lemma live_frame v n p : vm_pages v !! n = Some p -> sp_frame p ∈ live_frames v.
Proof.
  intros Hp. unfold live_frames. apply elem_of_list_to_set.
  apply (list_elem_of_fmap_2 (fun e : Z * StoredPage => sp_frame e.2) _ (n, p)). by apply elem_of_map_to_list.
Qed.

Lemma retain_frame v n p : vm_pages v !! n = Some p -> vm_frames (retain_frames v) !! sp_frame p = vm_frames v !! sp_frame p.
Proof.
  intros Hp. unfold retain_frames. cbn [vm_frames set_maps]. rewrite map_lookup_filter.
  destruct (vm_frames v !! sp_frame p) as [l|]; cbn; [|done]. rewrite option_guard_True; [done|]. by eapply live_frame.
Qed.

Lemma retain_frames_version v n : version_at (retain_frames v) n = version_at v n.
Proof.
  unfold version_at. change (vm_pages (retain_frames v)) with (vm_pages v). destruct (vm_pages v !! n) as [p|] eqn:Ep; [|done].
  cbn. unfold page_version. by rewrite (retain_frame v n p Ep).
Qed.

Lemma retain_frames_ok v : draft_ok v -> draft_ok (retain_frames v).
Proof.
  intros Hv. apply draft_fields; [done| |].
  - intros id l [Hl _]%map_lookup_filter_Some. by apply (draft_frames v Hv).
  - intros n p Hp. destruct (draft_pages v Hv n p Hp) as (l & x & Hl & Hx & Hn). exists l, x. cbn in *. split; [|done].
    pose proof (retain_frame v n p Hp) as Hr. cbn in Hr. by rewrite Hr.
Qed.

(** ** The lineage *)

Lemma sealed_lineage_ok v parent :
  draft_ok v -> digest_ok (seal_bytes parent) -> draft_ok (sealed_lineage v parent).
Proof. intros [] Hp. split; try done. split; [apply blake3_length|apply blake3_bytes]. Qed.

Lemma sealed_lineage_version v parent n : version_at (sealed_lineage v parent) n = version_at v n.
Proof. done. Qed.
End Drafts.
