(* ===== verification/PreparedProofs.v ===== *)
(** Correctness of preparing and installing a seal. *)

From S2P Require Import Prelude Domain Layout Format Wire Segment Frame Pack Backend CatalogIndex Catalog Placement View ViewProofs Manifest ManifestProofs Active Store StoreProofs Sealed SealedProofs Samples Maintenance Prepared Draft.
From stdpp Require Import base strings gmap list sorting.
From Stdlib Require Import ZArith Lia.
Open Scope Z_scope.

(** ** Worker threads *)

Lemma concat_shares {A} (n : nat) (l : list A) : concat (shares (S n) l) = l.
Proof.
  revert l. induction n as [|n IH]; intros l.
  - cbn [shares concat]. rewrite Nat.add_0_r, Nat.div_1_r, app_nil_r. by rewrite firstn_all.
  - set (k := Nat.div (length l + S n) (S (S n))).
    change (take k l ++ concat (shares (S n) (drop k l)) = l). rewrite IH. apply take_drop.
Qed.

Lemma mmap_concat {E A C} (f : A -> result E C) (ls : list (list A)) :
  mmap f (concat ls) = let* parts := mmap (mmap f) ls in Ok (concat parts).
Proof.
  induction ls as [|l ls IH]; cbn [concat mmap]; [done|]. rewrite mmap_app, IH. destruct (mmap f l); [|done]. cbn [rbind].
  by destruct (mmap (mmap f) ls).
Qed.

(** One thread at the caller's priority. *)
Definition serial : Workers := mkWorkers (Some 1) 1 false (Ok tt) (fun _ => Ok tt).

(** A host that starts the threads it is asked for. *)
Definition workers_ok (w : Workers) : Prop :=
  (forall n, wk_limit w = Some n -> 1 <= n) /\ 1 <= wk_available w /\ wk_lower w = Ok tt /\ forall k, wk_spawn w k = Ok tt.

Section Encoding.
Context {HH : Hashes} {Z0 : ZstdLib} {ZT : ZstdTrainer}.

Lemma apply_priority_ok w : workers_ok w -> apply_priority w = Ok tt.
Proof. intros (_ & _ & Hl & _). unfold apply_priority. by destruct (wk_background w). Qed.

Lemma compression_run_ok {A} w (work : result StoreError A) : workers_ok w -> compression_run w work = work.
Proof.
  intros Hw. unfold compression_run. rewrite apply_priority_ok by done. destruct Hw as (_ & _ & _ & ->). by destruct (wk_background w).
Qed.

Lemma compression_run_inv {A} w (work : result StoreError A) a : compression_run w work = Ok a -> work = Ok a.
Proof. unfold compression_run. destruct (wk_background w); [|done]. intros E. by inv_ok. Qed.

Lemma encode_groups_inv w size level d groups fs :
  encode_groups w size level d groups = Ok fs -> mmap (build (FrameEncoder_new level d) size) groups = Ok fs.
Proof. unfold encode_groups. intros E. by inv_ok. Qed.

Lemma encode_batch_inv w groups size level d fs :
  1 <= worker_count w (zlen groups) -> encode_batch w groups size level d = Ok fs ->
  mmap (build (FrameEncoder_new level d) size) groups = Ok fs.
Proof.
  intros Hw E. unfold encode_batch in E. destruct groups as [|g groups]; [by injection E as <-|].
  destruct (_ && _); [by apply encode_groups_inv in E|]. inv_ok. subst fs.
  set (n := Z.to_nat _) in *. assert (exists k, n = S k) as [k Hk] by (exists (pred n); lia). rewrite Hk in Hok0.
  rewrite <- (concat_shares k (g :: groups)), mmap_concat.
  assert (mmap (mmap (build (FrameEncoder_new level d) size)) (shares (S k) (g :: groups)) = Ok a0) as ->; [|done].
  apply mmap_Ok. apply mmap_Ok in Hok0. eapply Forall2_impl; [exact Hok0|]. intros ? ?. apply encode_groups_inv.
Qed.

Lemma worker_count_pos w n : workers_ok w -> 1 <= worker_count w n.
Proof.
  intros (Hl & Ha & _). unfold worker_count. destruct (wk_limit w) as [k|] eqn:Ek; cbn; [|lia].
  specialize (Hl k eq_refl). lia.
Qed.

Lemma mmap_spawn w l : workers_ok w -> exists us, mmap (wk_spawn w) l = Ok us.
Proof. intros (_ & _ & _ & Hs). apply mmap_total. intros k _. rewrite Hs. by exists tt. Qed.

(** C15. Frames are encoded alike however many threads encode them: on a host that starts its
    threads, a batch split among any number of workers, at either priority, gives the frames, in
    order, or the error, that one thread encoding group after group gives. *)
Theorem encode_batch_serial w groups size level dictionary :
  workers_ok w -> encode_batch w groups size level dictionary = encode_batch serial groups size level dictionary.
Proof.
  intros Hw. unfold encode_batch. destruct groups as [|g groups]; [done|]. set (gs := g :: groups).
  assert (forall x, encode_groups w size level dictionary x = encode_groups serial size level dictionary x) as Hg.
  { intros x. unfold encode_groups. by rewrite (apply_priority_ok w) by done. }
  assert (worker_count serial (zlen gs) = 1) as ->.
  { unfold worker_count, serial. cbn. unfold gs. rewrite zlen_cons. pose proof (zlen_nonneg groups). lia. }
  cbn [serial wk_background Z.eqb Pos.eqb negb andb]. destruct (_ && _); [apply Hg|].
  destruct (mmap_spawn w (seq 0 (Z.to_nat (worker_count w (zlen gs)))) Hw) as [us ->]. cbn [rbind].
  pose proof (worker_count_pos w (zlen gs) Hw) as Hpos. set (n := Z.to_nat _).
  assert (exists k, n = S k) as [k ->] by (exists (pred n); lia).
  rewrite (mmap_ext_in _ (encode_groups serial size level dictionary)) by (intros; apply Hg).
  unfold encode_groups. cbn [apply_priority serial wk_background rbind].
  destruct (zcompressor _ _); cbn [negb].
  - by rewrite <- mmap_concat, concat_shares.
  - by destruct (shares (S k) gs) eqn:Es.
Qed.
End Encoding.

(** ** Preparing *)

Definition frame_versions (frames : list (FrameMetadata * Z)) : list PageVersion := concat (map (fun e => fm_pages e.1) frames).

Lemma frame_versions_app l k : frame_versions (l ++ k) = frame_versions l ++ frame_versions k.
Proof. unfold frame_versions. by rewrite map_app, concat_app. Qed.

Lemma NoDup_concat {A} (ls : list (list A)) l : NoDup (concat ls) -> l ∈ ls -> NoDup l.
Proof.
  intros Hnd Hl. apply list_elem_of_split in Hl as (a & b & ->). rewrite concat_app in Hnd. cbn in Hnd.
  apply NoDup_app in Hnd as (_ & _ & Hnd). by apply NoDup_app in Hnd as (Hnd & _).
Qed.

Lemma NoDup_filter_map {A C} (f : A -> C) (p : A -> bool) l : NoDup (map f l) -> NoDup (map f (List.filter p l)).
Proof.
  induction l as [|a l IH]; cbn; [done|]. intros [Ha Hl]%NoDup_cons. destruct (p a); [|by apply IH]. cbn. constructor; [|by apply IH].
  intros (x & Hx & Hin)%list_elem_of_fmap. apply Ha. rewrite Hx. apply (list_elem_of_fmap_2 f).
  by apply list_elem_of_In, filter_In in Hin as [Hin%list_elem_of_In _].
Qed.

Lemma slice_app_l {A} (l k : list A) a b : 0 <= a -> b <= zlen l -> slice (l ++ k) a b = slice l a b.
Proof.
  intros Ha Hb. unfold slice, zlen in *. destruct (decide (b <= a)) as [Hle|Hgt].
  - by replace (Z.to_nat (b - a)) with 0%nat by lia.
  - rewrite drop_app_le by lia. apply take_app_le. rewrite length_drop. lia.
Qed.

Lemma zlen_0_nil {A} (l : list A) : zlen l = 0 -> l = [].
Proof. destruct l; [done|]. rewrite zlen_cons. pose proof (zlen_nonneg l). lia. Qed.

Section Prepare.
Context {HH : Hashes} {HOK : HashesOk HH} {Z0 : ZstdLib} {ZOK : ZstdOk Z0} {ZT : ZstdTrainer}.
Context {B : Type} {SB : StorageBackend B} {BL : BackendLaws B}.
Context (w : Workers) (Hw : workers_ok w) (paused : nat -> bool).
Implicit Types (i : SealInput B).

Definition input_size i : Z := lb_page_size (se_size (si_endpoint i)).
Definition page_at i (n : Z) : bytes := slice (si_file i) ((n - 1) * input_size i) ((n - 1) * input_size i + input_size i).
Definition changed_version i (p : Z * Z) : PageVersion := PageVersion_verified p.1 p.2 (page_at i p.1).
Definition zero_at i (p : Z * Z) : bool := all_zero (page_at i p.1).
Definition nonzero_at i (p : Z * Z) : bool := negb (zero_at i p).
Definition entries i (l : list (Z * Z)) : FramePages := map (fun e => (changed_version i e, page_at i e.1)) l.

(** Dictionaries are kept by digest. *)
Definition dictionaries_ok (d : gmap (list Z) bytes) : Prop := forall id b, d !! id = Some b -> id = blake3 b.

Record input_ok i : Prop := {
  input_page_size : page_size_ok (input_size i);
  input_pages : Forall (fun p => page_number_ok p.1 /\ txid_ok p.2) (si_pages i);
  input_distinct : NoDup (map fst (si_pages i));
  input_layout : layout_ok (si_layout i);
  input_dictionaries : dictionaries_ok (si_dictionaries i);
}.

(** A frame whose payload is in the scratch file. *)
Definition frame_stored (dictionaries : gmap (list Z) bytes) (payloads : bytes) (e : FrameMetadata * Z) : Prop :=
  metadata_ok e.1 /\ 0 <= e.2 /\ e.2 + fm_payload_bytes e.1 <= zlen payloads /\
  exists raw, verify_payload e.1 (slice payloads e.2 (e.2 + fm_payload_bytes e.1)) dictionaries
              = Ok (mkVerified (fm_id e.1) raw).

Lemma frame_stored_app dictionaries payloads more e :
  frame_stored dictionaries payloads e -> frame_stored dictionaries (payloads ++ more) e.
Proof.
  intros (Hm & H0 & Hle & raw & Hv). pose proof (zlen_nonneg more). split_and!; [done|done|rewrite zlen_app; lia|].
  exists raw. by rewrite slice_app_l.
Qed.

Definition group_ok (g : FramePages) : Prop :=
  Forall (fun p => page_version_ok p.1) g /\ NoDup (map (pv_page ∘ fst) g).

Lemma encoder_dictionary_ok i level :
  dictionaries_ok (si_dictionaries i) -> encoder_ok (FrameEncoder_new level (active_dictionary i)) (si_dictionaries i).
Proof.
  intros Hd. unfold encoder_ok, active_dictionary. destruct (last (si_preferred i)) as [id|]; [|done]. cbn.
  destruct (si_dictionaries i !! id) as [d|] eqn:E; [|done]. cbn. split; [|done].
  rewrite (Hd _ _ E). split; [apply blake3_length|apply blake3_bytes].
Qed.

(** Storing a batch of encoded frames at the end of the scratch file. *)
Lemma store_frames_lemma frames : forall metadata payloads,
  exists new more, fold_left store_frame frames (metadata, payloads) = (metadata ++ new, payloads ++ more) /\
    map fst new = map ef_metadata frames /\
    forall dictionaries, Forall (fun f => metadata_ok (ef_metadata f) /\ zlen (ef_payload f) = fm_payload_bytes (ef_metadata f) /\
      exists raw, verify_payload (ef_metadata f) (ef_payload f) dictionaries = Ok (mkVerified (fm_id (ef_metadata f)) raw)) frames ->
    Forall (frame_stored dictionaries (payloads ++ more)) new.
Proof.
  induction frames as [|f frames IH]; intros metadata payloads; cbn [fold_left].
  - exists [], []. by rewrite !app_nil_r.
  - unfold store_frame at 2. cbn [fst snd]. rewrite staged_end by done.
    destruct (IH (metadata ++ [(ef_metadata f, zlen payloads)]) (payloads ++ ef_payload f)) as (new & more & E & Hm & Hs).
    exists ((ef_metadata f, zlen payloads) :: new), (ef_payload f ++ more). rewrite E, <- !(assoc_L (++)). split; [done|].
    split; [cbn; by rewrite Hm|]. intros dictionaries [(Hok & Hl & raw & Hv) Hf]%Forall_cons. constructor.
    + pose proof (zlen_nonneg payloads). pose proof (zlen_nonneg more). split_and!; cbn; [done|done|rewrite !zlen_app; lia|].
      exists raw. rewrite <- Hl. by rewrite slice_mid.
    + rewrite (assoc_L (++)). by apply Hs.
Qed.

(** The frames of a batch hold its pages, in order. *)
Lemma build_batch_lemma i level groups frames :
  input_ok i -> Forall group_ok groups ->
  mmap (build (FrameEncoder_new level (active_dictionary i)) (input_size i)) groups = Ok frames ->
  concat (map (fun f => fm_pages (ef_metadata f)) frames) = map fst (concat groups) /\
  Forall (fun f => fs_page_size (fm_shape (ef_metadata f)) = input_size i) frames /\
  Forall (fun f => metadata_ok (ef_metadata f) /\ zlen (ef_payload f) = fm_payload_bytes (ef_metadata f) /\
      exists raw, verify_payload (ef_metadata f) (ef_payload f) (si_dictionaries i) = Ok (mkVerified (fm_id (ef_metadata f)) raw)) frames.
Proof.
  intros Hi Hg E. apply mmap_Ok in E. induction E as [|g f groups frames Ef E IH]; [by cbn|].
  apply Forall_cons in Hg as [(Hp & Hnd) Hg]. destruct (IH Hg) as (H1 & H2 & H3).
  pose proof Ef as Ef'. apply (build_lemma _ (si_dictionaries i)) in Ef as (Hm & Hpages & Hs & Hv);
    [|by apply encoder_dictionary_ok, input_dictionaries|by apply input_page_size|done..].
  cbn [map concat]. rewrite map_app, Hpages, H1. split_and!; [done|by constructor|]. constructor; [|done].
  split_and!; [done| |by eexists]. unfold build in Ef'. inv_all. destruct a0. inv_ok. destruct a0. inv_ok. by subst f.
Qed.

(** *** The loop over the pages *)

Definition batch_pages (s : Spill) : Z := zlen (concat (sp_batch s)).

(** After the pages of [done]: those that are zero are listed; the others are, in order, in the
    frames encoded so far, in the batch and in the group, and neither exceeds its bound. *)
Record spill_inv i (old : list (FrameMetadata * Z)) (payloads : bytes) (done : list (Z * Z)) (s : Spill) : Prop := {
  spill_zeros : sp_zeros s = map fst (List.filter (zero_at i) done);
  spill_pages : exists encoded rest new more, List.filter (nonzero_at i) done = encoded ++ rest /\
    sp_frames s = old ++ new /\ sp_payloads s = payloads ++ more /\
    frame_versions new = map (changed_version i) encoded /\
    concat (sp_batch s) ++ sp_group s = entries i rest /\
    Forall (fun e => fs_page_size (fm_shape e.1) = input_size i) new /\
    Forall (frame_stored (si_dictionaries i) (sp_payloads s)) new;
  spill_batch : sp_batch_bytes s = input_size i * batch_pages s /\ sp_batch_bytes s <= BATCH_BYTES;
  spill_group : input_size i * zlen (sp_group s) <= frame_bytes (si_layout i) (input_size i);
  spill_read : Forall (fun e => e.1 * input_size i <= zlen (si_file i)) done;
}.

Lemma entries_groups i rest groups tail :
  input_ok i -> NoDup (map fst rest) -> (forall e, e ∈ rest -> e ∈ si_pages i) ->
  concat groups ++ tail = entries i rest -> Forall group_ok groups.
Proof.
  intros Hi Hnd Hin E. apply Forall_forall. intros g Hg. split.
  - apply Forall_forall. intros p Hp. assert (p ∈ entries i rest) as ((n, t) & -> & He)%list_elem_of_fmap.
    { rewrite <- E. apply elem_of_app. left. apply list_elem_of_In, in_concat. exists g. by split; apply list_elem_of_In. }
    apply Hin in He. pose proof (input_pages _ Hi) as Hok. rewrite Forall_forall in Hok. destruct (Hok _ He) as [H1 H2].
    cbn in *. split_and!; [done..|split; [apply blake3_length|apply blake3_bytes]].
  - assert (NoDup (map (pv_page ∘ fst) (concat groups))) as Hc.
    { apply (f_equal (map (pv_page ∘ fst))) in E. rewrite map_app in E.
      assert (map (pv_page ∘ fst) (entries i rest) = map fst rest) as Em by (unfold entries; rewrite map_map; done).
      rewrite Em in E. rewrite <- E in Hnd. by apply NoDup_app in Hnd as (? & _). }
    rewrite concat_map in Hc. eapply NoDup_concat; [exact Hc|]. by apply (list_elem_of_fmap_2 (map (pv_page ∘ fst))).
Qed.

Lemma encode_spill_inv i old payloads done s s' :
  input_ok i -> (forall e, e ∈ done -> e ∈ si_pages i) -> NoDup (map fst done) ->
  spill_inv i old payloads done s -> encode_spill w paused i s = Ok s' ->
  spill_inv i old payloads done s' /\ sp_batch s' = [] /\ sp_batch_bytes s' = 0 /\ sp_group s' = sp_group s.
Proof.
  intros Hi Hin Hnd [Hz (encoded & rest & new & more & Hf & Hfr & Hpl & Hv & Hb & Hsz & Hst) [Hbb Hbl] Hg Hrd] E.
  unfold encode_spill in E. inv_all. apply encode_batch_inv in Hok0; [|by apply worker_count_pos].
  assert (forall e, e ∈ rest -> e ∈ si_pages i) as Hrest.
  { intros e He. assert (e ∈ List.filter (nonzero_at i) done) as He2 by (rewrite Hf; apply elem_of_app; by right).
    by apply list_elem_of_In, filter_In in He2 as [He2%list_elem_of_In%Hin _]. }
  assert (NoDup (map fst rest)) as Hndr.
  { apply (NoDup_filter_map fst (nonzero_at i)) in Hnd. rewrite Hf, map_app in Hnd. by apply NoDup_app in Hnd as (_ & _ & ?). }
  assert (Forall group_ok (sp_batch s)) as Hgs by by eapply entries_groups.
  apply build_batch_lemma in Hok0 as (Hp & Hps & Hall); [|done..].
  destruct (store_frames_lemma a0 (sp_frames s) (sp_payloads s)) as (n2 & m2 & Es & Hm2 & Hs2). rewrite Es in E. inv_ok. subst s'.
  specialize (Hs2 _ Hall). split; [|done]. split; cbn [sp_zeros sp_frames sp_payloads sp_batch sp_group sp_batch_bytes]; [done| | |done..].
  - set (k := length (concat (sp_batch s))). exists (encoded ++ take k rest), (drop k rest), (new ++ n2), (more ++ m2).
    assert (concat (sp_batch s) = entries i (take k rest)) as Hk.
    { unfold entries in *. rewrite <- firstn_map, <- Hb. unfold k. by rewrite take_app_length. }
    split_and!.
    + by rewrite Hf, <- (assoc_L (++)), take_drop.
    + by rewrite Hfr, (assoc_L (++)).
    + by rewrite Hpl, (assoc_L (++)).
    + rewrite frame_versions_app, map_app, Hv. f_equal. unfold frame_versions.
      rewrite <- (map_map fst fm_pages), Hm2, map_map, Hp, Hk. unfold entries. by rewrite map_map.
    + unfold entries in *. cbn [concat app]. rewrite <- skipn_map, <- Hb. unfold k. by rewrite drop_app_length.
    + apply Forall_app. split; [done|]. 
      assert (Forall (fun m => fs_page_size (fm_shape m) = input_size i) (map fst n2)) as Hn2 by (rewrite Hm2; by apply Forall_fmap).
      by apply Forall_fmap in Hn2.
    + apply Forall_app. split; [|done]. eapply Forall_impl; [exact Hst|]. intros e He. by apply frame_stored_app.
  - split; [|done]. change (0 = input_size i * 0). lia.
Qed.

Lemma frame_bytes_bounds p size : layout_ok p -> page_size_ok size -> size <= frame_bytes p size <= BATCH_BYTES.
Proof.
  intros (Hp & _) Hs%page_size_ok_bounds. unfold frame_bytes, BATCH_BYTES. destruct (lp_frames p) as [b|]; [|lia].
  destruct Hp as (k & Hk & ->). pose proof (Z.pow_le_mono_r 2 k 23 ltac:(lia) ltac:(lia)). cbn in *. lia.
Qed.

Lemma spill_step_inv i old payloads done s s' :
  input_ok i -> (forall e, e ∈ done -> e ∈ si_pages i) -> NoDup (map fst done) ->
  spill_inv i old payloads done s -> spill w paused i s = Ok s' ->
  spill_inv i old payloads done s' /\ sp_group s' = [].
Proof.
  intros Hi Hin Hnd Hs E. unfold spill in E. fold (input_size i) in E. inv_ok. rename a into s1.
  assert (spill_inv i old payloads done s1 /\ sp_batch_bytes s1 + input_size i * zlen (sp_group s) <= BATCH_BYTES /\
          sp_group s1 = sp_group s) as (Hs1 & Hle & Hg1).
  { destruct (BATCH_BYTES <? _) eqn:El; [|inv_ok; subst s1; split_and!; [done|lia|done]].
    apply (encode_spill_inv _ old payloads done) in Hok as (H1 & _ & -> & H3); [|done..]. split_and!; [done| |done].
    pose proof (spill_group _ _ _ _ _ Hs). pose proof (frame_bytes_bounds _ _ (input_layout _ Hi) (input_page_size _ Hi)). lia. }
  clear Hok Hs. destruct Hs1 as [Hz (encoded & rest & new & more & Hf & Hfr & Hpl & Hv & Hb & Hsz & Hst) [Hbb Hbl] Hg Hrd].
  subst s'. split; [|done]. unfold batch_pages in *. rewrite Hg1 in *.
  split; unfold batch_pages; cbn [sp_zeros sp_frames sp_payloads sp_batch sp_group sp_batch_bytes].
  - done.
  - exists encoded, rest, new, more. split_and!; try done. rewrite concat_app. cbn [concat]. by rewrite !app_nil_r.
  - rewrite concat_app, zlen_app. cbn [concat]. rewrite app_nil_r. lia.
  - rewrite zlen_nil. pose proof (frame_bytes_bounds _ _ (input_layout _ Hi) (input_page_size _ Hi)).
    pose proof (page_size_ok_bounds _ (input_page_size _ Hi)). lia.
  - done.
Qed.

Lemma input_read_lemma i n b :
  input_ok i -> input_read i n = Ok b -> b = page_at i n /\ n * input_size i <= zlen (si_file i).
Proof.
  intros Hi E. unfold input_read, read_exact_at in E. fold (input_size i) in E. inv_ok. bools. subst b. split; [done|lia].
Qed.

Lemma prepare_page_inv i old payloads done p s s' :
  input_ok i -> (forall e, e ∈ done ++ [p] -> e ∈ si_pages i) -> NoDup (map fst (done ++ [p])) ->
  spill_inv i old payloads done s -> prepare_page w paused i s p = Ok s' ->
  spill_inv i old payloads (done ++ [p]) s'.
Proof.
  intros Hi Hin Hnd Hs E. unfold prepare_page in E. fold (input_size i) in E. inv_ok.
  apply input_read_lemma in Hok as [-> Hpage]; [|done].
  pose proof (page_size_ok_bounds _ (input_page_size _ Hi)) as Hps.
  assert (NoDup (map fst done)) as Hnd' by (rewrite map_app in Hnd; by apply NoDup_app in Hnd as (? & _)).
  assert (forall e, e ∈ done -> e ∈ si_pages i) as Hin' by (intros; apply Hin, elem_of_app; by left).
  destruct (all_zero (page_at i p.1)) eqn:Ez.
  - inv_ok. subst s'. destruct Hs as [Hz (encoded & rest & new & more & Hf & Hs) Hb Hg Hrd].
    split; unfold batch_pages; cbn [sp_zeros sp_frames sp_payloads sp_batch sp_group sp_batch_bytes]; [| |done..|].
    + rewrite List.filter_app, map_app, <- Hz. f_equal. cbn [List.filter]. unfold zero_at. by rewrite Ez.
    + exists encoded, rest, new, more. rewrite List.filter_app, Hf. cbn [List.filter]. unfold nonzero_at, zero_at. rewrite Ez. cbn [negb].
      by rewrite app_nil_r.
    + apply Forall_app. split; [done|by constructor].
  - inv_ok. rename a into s1. subst s'.
    assert (spill_inv i old payloads done s1 /\ (zlen (sp_group s1) + 1) * input_size i <= frame_bytes (si_layout i) (input_size i))
      as [[Hz (encoded & rest & new & more & Hf & Hfr & Hpl & Hv & Hb & Hsz & Hst) Hbb Hg Hrd] Hcap].
    { pose proof (frame_bytes_bounds _ _ (input_layout _ Hi) (input_page_size _ Hi)) as Hfb.
      destruct (_ && _) eqn:Es.
      - apply (spill_step_inv _ old payloads done) in Hok as [H1 H2]; [|done..]. rewrite H2, zlen_nil. split; [done|lia].
      - inv_ok. subst s1. split; [done|]. apply andb_false_iff in Es as [Es|Es].
        + apply negb_false_iff, Z.eqb_eq in Es. rewrite Es. lia.
        + lia. }
    split; unfold batch_pages; cbn [sp_zeros sp_frames sp_payloads sp_batch sp_group sp_batch_bytes]; [| |done| |].
    + rewrite List.filter_app, map_app, <- Hz. cbn [List.filter]. unfold zero_at. rewrite Ez. cbn. by rewrite app_nil_r.
    + exists encoded, (rest ++ [p]), new, more. rewrite List.filter_app, Hf. cbn [List.filter]. unfold nonzero_at, zero_at. rewrite Ez. cbn [negb].
      split_and!; try done; [by rewrite (assoc_L (++))|]. unfold entries in *. rewrite map_app. cbn [map]. rewrite <- Hb.
      by rewrite (assoc_L (++)).
    + rewrite zlen_app, zlen_cons, zlen_nil. lia.
    + apply Forall_app. split; [done|by constructor].
Qed.

(** *** Training *)

(** What training leaves alone. *)
Definition same_pages i j : Prop :=
  si_endpoint i = si_endpoint j /\ si_source i = si_source j /\ si_pages i = si_pages j /\ si_file i = si_file j /\
  si_layout i = si_layout j /\ si_update i = si_update j /\ si_source_prefix i = si_source_prefix j.

Lemma same_pages_ok i j : same_pages i j -> dictionaries_ok (si_dictionaries j) -> input_ok i -> input_ok j.
Proof.
  intros (E1 & _ & E3 & E4 & E5 & _) Hd [H1 H2 H3 H4 _]. unfold input_size in *.
  split; unfold input_size; rewrite <- ?E1, <- ?E3, <- ?E4, <- ?E5; done.
Qed.

Lemma dictionaries_ok_singleton d : dictionaries_ok {[blake3 d := d]}.
Proof. intros id b [<- <-]%lookup_singleton_Some. done. Qed.

Lemma train_dictionary_lemma i i' :
  dictionaries_ok (si_dictionaries i) -> train_dictionary i = Ok i' ->
  same_pages i i' /\ dictionaries_ok (si_dictionaries i').
Proof.
  intros Hd E. unfold train_dictionary in E. inv_ok. subst i'.
  assert (same_pages i a /\ dictionaries_ok (si_dictionaries a)) as [Ha Hda].
  { destruct (trains _); [|inv_ok; by subst a]. inv_ok.
    destruct (if si_training i then _ else _) as [[e samples]|]; [|inv_ok; by subst a].
    destruct (select _ _ _ _ _) as [d|]; inv_ok; subst a; [|done]. split; [done|apply dictionaries_ok_singleton]. }
  split; [exact Ha|]. cbn. intros id b [Hb _]%map_lookup_filter_Some. by apply Hda.
Qed.

(** *** The whole preparation *)

Lemma spill_start i old payloads checks : input_ok i -> spill_inv i old payloads [] (mkSpill [] [] [] 0 old payloads checks).
Proof.
  intros Hi. pose proof (frame_bytes_bounds _ _ (input_layout _ Hi) (input_page_size _ Hi)).
  pose proof (page_size_ok_bounds _ (input_page_size _ Hi)).
  split; unfold batch_pages; cbn [sp_zeros sp_frames sp_payloads sp_batch sp_group sp_batch_bytes concat]; [done| | | |done].
  - exists [], [], [], []. rewrite !app_nil_r. by split_and!.
  - change (0 = input_size i * 0 /\ 0 <= BATCH_BYTES). unfold BATCH_BYTES. lia.
  - change (input_size i * 0 <= frame_bytes (si_layout i) (input_size i)). lia.
Qed.

Lemma prepare_pages_inv i old payloads checks l : forall rest s,
  input_ok i -> si_pages i = l ++ rest ->
  mfold (prepare_page w paused i) (mkSpill [] [] [] 0 old payloads checks) l = Ok s -> spill_inv i old payloads l s.
Proof.
  induction l as [|p l IH] using rev_ind; intros rest s Hi Hp E.
  - injection E as <-. by apply spill_start.
  - rewrite mfold_app in E. inv_ok. cbn [mfold] in E. inv_ok. subst s. rewrite <- (assoc_L (++)) in Hp.
    specialize (IH _ _ Hi Hp Hok). pose proof (input_distinct _ Hi) as Hnd. rewrite Hp, (assoc_L (++)) in Hnd.
    rewrite map_app in Hnd. apply NoDup_app in Hnd as (Hnd & _). eapply prepare_page_inv; [done| |done..].
    intros e He. rewrite Hp, (assoc_L (++)). apply elem_of_app. by left.
Qed.

(** The last group and the last batch. *)
Lemma prepare_finish i old payloads s s1 s2 :
  input_ok i -> spill_inv i old payloads (si_pages i) s ->
  (if zlen (sp_group s) =? 0 then Ok s else spill w paused i s) = Ok s1 ->
  (if zlen (sp_batch s1) =? 0 then Ok s1 else encode_spill w paused i s1) = Ok s2 ->
  sp_zeros s2 = map fst (List.filter (zero_at i) (si_pages i)) /\
  Forall (fun e => e.1 * input_size i <= zlen (si_file i)) (si_pages i) /\
  exists new more, sp_frames s2 = old ++ new /\ sp_payloads s2 = payloads ++ more /\
    frame_versions new = map (changed_version i) (List.filter (nonzero_at i) (si_pages i)) /\
    Forall (fun e => fs_page_size (fm_shape e.1) = input_size i) new /\
    Forall (frame_stored (si_dictionaries i) (sp_payloads s2)) new.
Proof.
  intros Hi Hs E1 E2. assert (spill_inv i old payloads (si_pages i) s1 /\ sp_group s1 = []) as [Hs1 Hg1].
  { destruct (Z.eqb_spec (zlen (sp_group s)) 0) as [Ez|_].
    - injection E1 as <-. split; [done|]. by apply zlen_0_nil in Ez.
    - apply (spill_step_inv _ old payloads (si_pages i)) in E1; [done..|by apply input_distinct|done]. }
  assert (spill_inv i old payloads (si_pages i) s2 /\ sp_batch s2 = [] /\ sp_group s2 = []) as (Hs2 & Hb2 & Hg2).
  { destruct (Z.eqb_spec (zlen (sp_batch s1)) 0) as [Ez|_].
    - injection E2 as <-. split_and!; [done| |done]. by apply zlen_0_nil in Ez.
    - apply (encode_spill_inv _ old payloads (si_pages i)) in E2 as (? & ? & _ & Hg); [split_and!; [done..|congruence]|done..|by apply input_distinct|done]. }
  destruct Hs2 as [Hz (encoded & rest & new & more & Hf & Hfr & Hpl & Hv & Hb & Hsz & Hst) _ _ Hrd]. split; [done|]. split; [done|].
  exists new, more. split_and!; try done. rewrite Hf, Hb2, Hg2 in *. destruct rest; [|done]. by rewrite app_nil_r.
Qed.

Lemma prepare_lemma i p :
  prepare w paused i = Ok p ->
  exists i1 payloads frames report, read_repack i = Ok (i1, payloads, frames, report) /\
    (input_ok i1 ->
     ps_endpoint p = si_endpoint i1 /\ ps_source p = si_source i1 /\ ps_layout p = si_layout i1 /\
     ps_source_prefix p = si_source_prefix i1 /\ dictionaries_ok (ps_dictionaries p) /\ ps_report p = report /\
     ps_zeros p = map fst (List.filter (zero_at i1) (si_pages i1)) /\
     Forall (fun e => e.1 * input_size i1 <= zlen (si_file i1)) (si_pages i1) /\
     exists new more, ps_frames p = frames ++ new /\ ps_payloads p = payloads ++ more /\
       frame_versions new = map (changed_version i1) (List.filter (nonzero_at i1) (si_pages i1)) /\
       Forall (fun e => fs_page_size (fm_shape e.1) = input_size i1) new /\
       Forall (frame_stored (ps_dictionaries p) (ps_payloads p)) new).
Proof.
  intros E. unfold prepare in E. inv_ok. destruct a0 as [[[i1 payloads] frames] report]. inv_ok.
  apply compression_run_inv in Hok1. rename a0 into i2. subst p.
  exists i1, payloads, frames, report. split; [done|]. intros Hi1.
  apply train_dictionary_lemma in Hok1 as [Hsame Hd2]; [|by apply input_dictionaries].
  assert (input_ok i2) as Hi2 by by eapply same_pages_ok.
  destruct Hsame as (E1 & E2 & E3 & E4 & E5 & E6 & E7).
  apply (prepare_pages_inv _ _ _ _ _ []) in Hok3; [|done|by rewrite app_nil_r].
  destruct (prepare_finish _ _ _ _ _ _ Hi2 Hok3 Hok4 Hok5) as (Hz & Hrd & new & more & Hnew).
  cbn [ps_endpoint ps_source ps_layout ps_source_prefix ps_dictionaries ps_report ps_zeros ps_frames ps_payloads].
  unfold zero_at, nonzero_at, changed_version, zero_at, page_at, input_size in *. rewrite E1, E2, E3, E4, E5, E7.
  split_and!; try done. exists new, more. exact Hnew.
Qed.
End Prepare.
