(* ===== verification/InstallProofs.v ===== *)
(** Correctness of installing a prepared seal: the view that is published holds, for every page,
    the version the seal was prepared with, and otherwise that of the view it was made from. *)

From S2P Require Import Prelude Domain Layout Format Wire Segment Frame Pack Backend CatalogIndex Catalog Placement View ViewProofs Manifest ManifestProofs Active Store StoreProofs Sealed SealedProofs Samples Maintenance Prepared Draft PreparedProofs.
From stdpp Require Import base strings gmap list sorting.
From Stdlib Require Import ZArith Lia.
Open Scope Z_scope.

(** ** Stateful code that succeeded *)

Lemma sbind_Ok {S A C} (m : sm S A) (k : A -> sm S C) s c s' :
  sbind m k s = (Ok c, s') <-> exists a s1, m s = (Ok a, s1) /\ k a s1 = (Ok c, s').
Proof. unfold sbind. destruct (m s) as [[a|e] s1]; naive_solver. Qed.

Lemma slift_Ok {S A} (c : result StoreError A) (s : S) a s' : slift c s = (Ok a, s') <-> c = Ok a /\ s = s'.
Proof. unfold slift. naive_solver. Qed.

Lemma sret_Ok {S A} (c : A) (s : S) a s' : sret c s = (Ok a, s') <-> c = a /\ s = s'.
Proof. unfold sret. naive_solver. Qed.

Lemma sget_Ok {S} (s a s' : S) : sget s = (Ok a, s') <-> s = a /\ s = s'.
Proof. unfold sget. naive_solver. Qed.

Ltac run_step :=
  match goal with
  | X : sbind _ _ _ = (Ok _, _) |- _ =>
      let a := fresh "a" in let s := fresh "s" in let R := fresh "Hrun" in
      apply sbind_Ok in X as (a & s & R & X)
  | X : slift _ _ = (Ok _, _) |- _ => let R := fresh "Hok" in apply slift_Ok in X as [R X]; subst
  | X : sret _ _ = (Ok _, _) |- _ => apply sret_Ok in X as [? X]; subst
  | X : sget _ = (Ok _, _) |- _ => apply sget_Ok in X as [? X]; subst
  end.
Ltac run := repeat run_step.

Lemma guard_Ok {S A} (c : bool) e (k : sm S A) s a s' : (if c then serr e else k) s = (Ok a, s') <-> c = false /\ k s = (Ok a, s').
Proof. destruct c; cbn; naive_solver. Qed.

Lemma smod_Ok {S} (f : S -> S) s a s' : smod f s = (Ok a, s') <-> a = tt /\ f s = s'.
Proof. destruct a. unfold smod. naive_solver. Qed.

Ltac runs := repeat (run_step || match goal with
  | X : (if _ then serr _ else _) _ = (Ok _, _) |- _ => let R := fresh "Hguard" in apply guard_Ok in X as [R X]
  | X : smod _ _ = (Ok _, _) |- _ => apply smod_Ok in X as [-> X]; subst
  end).

(** ** The versions a list of frames leaves *)

Definition overlay_frames (frames : list FrameMetadata) (f : Z -> option PageVersion) (n : Z) : option PageVersion :=
  fold_left (fun acc m => match pick (fm_pages m) n with Some x => Some x | None => acc end) frames (f n).

Lemma overlay_frames_app l k f n : overlay_frames (l ++ k) f n = overlay_frames k (overlay_frames l f) n.
Proof. unfold overlay_frames. by rewrite fold_left_app. Qed.

Lemma overlay_frames_ext l f g : (forall n, f n = g n) -> forall n, overlay_frames l f n = overlay_frames l g n.
Proof. intros E n. unfold overlay_frames. by rewrite E. Qed.

(** When no page is in two frames, the order does not matter. *)
Lemma overlay_frames_distinct l f n :
  NoDup (map pv_page (concat (map fm_pages l))) ->
  overlay_frames l f n = match pick (concat (map fm_pages l)) n with Some x => Some x | None => f n end.
Proof.
  unfold overlay_frames. induction l as [|m l IH] using rev_ind; intros Hnd; [done|].
  rewrite map_app, concat_app in *. cbn [map concat] in *. rewrite app_nil_r, map_app in *.
  apply NoDup_app in Hnd as (Hl & Hdis & Hm). rewrite fold_left_app. cbn [fold_left]. rewrite IH, pick_app by done.
  destruct (pick (fm_pages m) n) as [x|] eqn:Ex; [|by destruct (pick _ n)].
  apply pick_Some in Ex as [Hx <-]. assert (pick (concat (map fm_pages l)) (pv_page x) = None) as ->; [|done].
  apply pick_None. intros Hin. apply (Hdis _ Hin). by apply (list_elem_of_fmap_2 pv_page).
Qed.

Section Install.
Context {HH : Hashes} {HOK : HashesOk HH} {Z0 : ZstdLib} {ZOK : ZstdOk Z0} {ZT : ZstdTrainer}.
Context {B : Type} {SB : StorageBackend B} {BL : BackendLaws B}.

(** Every other field of a view. *)
Definition fields_of (v : ViewMetadata) : ViewMetadata := set_maps v ∅ ∅.

Lemma Identity_finish_ok i n id : Identity_finish i n = Ok id -> digest_ok id.
Proof. unfold Identity_finish. intros E. inv_all. subst id. split; [apply blake3_length|apply blake3_bytes]. Qed.

(** Locating the frames of a finished pack. *)
Lemma locate_frames_lemma pack l : forall v v',
  draft_ok v -> digest_ok pack -> Forall (fun e => metadata_ok e.2 /\ 0 <= e.1) l -> mfold (locate_frame pack) v l = Ok v' ->
  (draft_ok v' /\ fields_of v' = fields_of v /\
   forall n, version_at v' n = overlay_frames (map snd l) (version_at v) n) \/ collision.
Proof.
  induction l as [|[o m] l IH]; intros v v' Hv Hpack Hl E; cbn [mfold] in E; [injection E as <-; by left|].
  inv_ok. apply Forall_cons in Hl as [[Hm Ho] Hl]. cbn [fst snd] in *. unfold locate_frame in Hok. inv_ok. cbn [fst snd] in *.
  pose proof Hm as (_ & _ & _ & Hp & _). apply value_Ok, StoredRange_new_spec in Hok0 as [-> Hend].
  unfold PackRange_stored in Hok1. apply value_Ok, PackRange_new_spec in Hok1 as [-> Hr]; [|cbn; lia]. cbn [sr_offset sr_length] in *.
  apply insert_versions in Hok as [(H1 & H2 & H3)|]; [|by right|done|].
  - destruct (IH _ _ H1 Hpack Hl E) as [(G1 & G2 & G3)|]; [|by right]. left. split_and!; [done|by rewrite G2|].
    intros n. rewrite G3. cbn [map]. unfold overlay_frames. cbn [fold_left]. by rewrite H3.
  - split; cbn; [|done|done|].
    + split; [|done]. by apply (metadata_id_ok m).
    + unfold PackRange_end. cbn. lia.
Qed.

(** ** Writing a pack *)

Lemma authenticated_intact m payload f :
  metadata_ok m -> EncodedFrame_authenticated m payload = Ok f -> f = mkEncoded m payload /\ frame_intact f.
Proof.
  intros Hm E. unfold EncodedFrame_authenticated, authenticate_payload in E. inv_ok. subst f. split; [done|].
  apply orb_false_iff in Hguard as [H1 H2]. bools. apply bytes_eqb_true in H2. split; [split|]; cbn; (done || lia).
Qed.

(** Where the record of [f] ends in [b]: [e] is the offset of its payload. *)
Definition recorded (b : bytes) (e : Z * FrameMetadata) (f : EncodedFrame) : Prop :=
  e.2 = ef_metadata f /\ FRAME_HEADER_SIZE <= e.1 /\ e.1 + zlen (ef_payload f) <= zlen b /\
  exists h, Frame.record_header (ef_metadata f) = Ok h /\
    slice b (e.1 - FRAME_HEADER_SIZE) (e.1 + zlen (ef_payload f)) = FrameHeader_encode h ++ ef_payload f.

Lemma recorded_app b more e f : recorded b e f -> recorded (b ++ more) e f.
Proof.
  intros (H1 & H2 & H3 & h & H4 & H5). pose proof (zlen_nonneg more). split_and!; [done..|rewrite zlen_app; lia|].
  exists h. split; [done|]. by rewrite slice_app_l by lia.
Qed.

(** A pack being written is its header and the records of its frames. *)
Record packing (p : PackWriter) (frames : list EncodedFrame) : Prop := {
  packing_bytes : bw_bytes (pw_builder p) = put (zeros 32) 0 BLOB_MAGIC ++ pack_bytes frames;
  packing_length : bw_offset (pw_builder p) = 32 + zlen (pack_bytes frames) /\ bw_offset (pw_builder p) <= U64_MAX;
  packing_ranges : bw_ranges (pw_builder p) = ∅;
  packing_offset : pw_offset p = zlen (pack_bytes frames);
  packing_identity : mfold Identity_frame Identity_new (map ef_metadata frames) = Ok (pw_identity p);
  packing_intact : Forall frame_intact frames;
  packing_frames : Forall2 (recorded (pack_bytes frames)) (pw_frames p) frames;
}.

Lemma BlobWriter_write_lemma b x b' :
  BlobWriter_write b x = Ok b' ->
  bw_bytes b' = bw_bytes b ++ x /\ bw_offset b' = bw_offset b + zlen x /\ bw_offset b' <= U64_MAX /\ bw_ranges b' = bw_ranges b.
Proof. intros E. unfold BlobWriter_write in E. inv_ok. subst b'. by apply checked_add_Some in Hok as [-> ?]. Qed.

Lemma pack_bytes_snoc frames f : pack_bytes (frames ++ [f]) = pack_bytes frames ++ frame_record f.
Proof. unfold pack_bytes. rewrite map_app, concat_app. cbn [map concat]. by rewrite app_nil_r, (assoc_L (++)). Qed.

Lemma packing_new p : PackWriter_new = Ok p -> packing p [] /\ pw_frames p = [].
Proof.
  intros E. unfold PackWriter_new in E. inv_ok. subst p. apply BlobWriter_write_lemma in Hok as (H1 & H2 & H3 & H4).
  split; [|done]. split; cbn [pw_builder pw_offset pw_identity pw_frames]; done.
Qed.

Lemma packing_append p frames f p' :
  packing p frames -> frame_intact f -> PackWriter_append p f = Ok p' ->
  packing p' (frames ++ [f]) /\ map snd (pw_frames p') = map snd (pw_frames p) ++ [ef_metadata f].
Proof.
  intros [Hb [Hl Hm] Hr Ho Hid Hin Hfr] Hf E. unfold PackWriter_append in E. inv_ok. subst p'.
  repeat match goal with X : BlobWriter_write _ _ = Ok _ |- _ => apply BlobWriter_write_lemma in X as (? & ? & ? & ?) end.
  pose proof Hf as [[Hmeta Hpay] _]. destruct (metadata_id_ok _ Hmeta) as [Hidl _].
  pose proof (zlen_FrameHeader_encode a3) as Hhl. unfold FRAME_HEADER_SIZE in *.
  assert (frame_record f = (u32_bytes (zlen (FrameMetadata_encode (ef_metadata f))) ++ fm_id (ef_metadata f) ++
            FrameMetadata_encode (ef_metadata f)) ++ FrameHeader_encode a3 ++ ef_payload f) as Hrec.
  { unfold frame_record. rewrite Hok3. by rewrite <- !(assoc_L (++)). }
  assert (zlen (frame_record f) = 36 + zlen (FrameMetadata_encode (ef_metadata f)) + 24 + zlen (ef_payload f)) as Hrl.
  { rewrite Hrec, !zlen_app, Hidl, Hhl. unfold u32_bytes. rewrite zlen_le_bytes. lia. }
  split; [|cbn; by rewrite map_app].
  split; rewrite ?pack_bytes_snoc, ?zlen_app; cbn [pw_builder pw_offset pw_identity pw_frames].
  - rewrite Hrec. repeat match goal with X : bw_bytes _ = _ |- _ => rewrite X; clear X end. by rewrite <- !(assoc_L (++)).
  - unfold u32_bytes in *. rewrite zlen_le_bytes in *. lia.
  - congruence.
  - lia.
  - rewrite map_app, mfold_app, Hid. cbn [rbind map mfold].
    by match goal with X : Identity_frame _ _ = Ok _ |- _ => rewrite X end.
  - apply Forall_app. split; [done|by constructor].
  - apply Forall2_app.
    + eapply Forall2_impl; [exact Hfr|]. intros. by apply recorded_app.
    + constructor; [|constructor]. pose proof (zlen_nonneg (pack_bytes frames)). pose proof (zlen_nonneg (FrameMetadata_encode (ef_metadata f))).
      unfold recorded, FRAME_HEADER_SIZE. cbn [fst snd]. split_and!; [done|lia|rewrite zlen_app; lia|]. exists a3. split; [done|].
      rewrite Hrec, (assoc_L (++)). rewrite <- (app_nil_r (_ ++ ef_payload f)) at 1. apply slice_mid;
        rewrite !zlen_app, ?Hidl, ?Hhl; unfold u32_bytes; rewrite zlen_le_bytes; lia.
Qed.

(** A finished pack is stored whole in a blob of its own. *)
Lemma finish_blob_lemma p frames pack blob object extent :
  packing p frames -> finish_blob p = Ok (pack, (blob, object, extent)) ->
  digest_ok pack /\ pack_id frames = Ok pack /\ extent_ok extent /\ be_blob extent = blob /\ be_offset extent = 32 /\
  be_length extent = zlen (pack_bytes frames) /\ 32 + zlen (pack_bytes frames) <= zlen object /\
  slice object 32 (32 + zlen (pack_bytes frames)) = pack_bytes frames.
Proof.
  intros [Hb [Hl Hm] Hr Ho Hid _ _] E. unfold finish_blob in E. inv_ok. destruct a1 as [[bl ob] es]. inv_ok. simplify_eq.
  pose proof (Identity_finish_ok _ _ _ Hok) as Hd. unfold complete_pack in Hok0. inv_ok. subst a0. rewrite Hr in *.
  apply finish_shape in Hok1 as (_ & Ht & Hblob & Hobj & Hfst & Hext). cbn [bw_ranges bw_offset bw_bytes] in *.
  rewrite insert_empty in *. set (footer := blob_footer _) in *. pose proof (zlen_nonneg (pack_bytes frames)) as Hn.
  assert (zlen (pack_bytes frames) >= 128) as Hge.
  { unfold pack_bytes. rewrite zlen_app, zlen_PACK_HEADER. pose proof (zlen_nonneg (concat (map frame_record frames))). lia. }
  assert (sorted_list ({[pack := (32, bw_offset (pw_builder p) - 32)]} : gmap (list Z) (Z * Z)) =
          [(pack, (32, bw_offset (pw_builder p) - 32))]) as Hsort.
  { unfold sorted_list. by rewrite map_to_list_singleton. }
  rewrite Hsort in Hfst, Hext. inversion Hext as [|x y l k Hxy Hnil]; subst. inversion Hnil; subst. destruct y as [k e].
  cbn [map fst snd] in *. injection Hfst as ->. apply value_Ok, BlobExtent_new_spec in Hxy as [-> He]; [|lia..|done].
  cbn in Hok2. rewrite insert_empty, lookup_singleton_eq in Hok2. injection Hok2 as <-. cbn [be_blob be_offset be_length].
  split_and!; try done.
  - unfold pack_id. rewrite Hid. cbn [rbind]. by rewrite <- Ho.
  - unfold extent_ok. cbn. split; [split; [apply blake3_length|apply blake3_bytes]|lia].
  - lia.
  - rewrite Hb, !zlen_app. change (zlen (put (zeros 32) 0 BLOB_MAGIC)) with 32.
    pose proof (zlen_nonneg footer). pose proof (zlen_nonneg (blake3 footer)). rewrite zlen_le_bytes. change (zlen BLOB_END) with 8. lia.
  - rewrite Hb, <- !(assoc_L (++)). apply slice_mid; done.
Qed.

(** ** The view that is installed *)

Lemma finish_view p v g pack v' g' frames :
  packing p frames -> draft_ok v -> PackWriter_finish p v g = (Ok (pack, v'), g') ->
  (draft_ok v' /\ fields_of v' = fields_of v /\
   forall n, version_at v' n = overlay_frames (map snd (pw_frames p)) (version_at v) n) \/ collision.
Proof.
  intros Hp Hv E. unfold PackWriter_finish in E. run. destruct a as [id [[blob object] extent]]. run. simplify_eq.
  destruct (finish_blob_lemma _ _ _ _ _ _ Hp Hok) as (Hid & _).
  eapply locate_frames_lemma; [done..| |exact Hok0].
  apply Forall_forall. intros e He. apply list_elem_of_lookup in He as [k Hk].
  destruct (Forall2_lookup_l _ _ _ _ _ (packing_frames _ _ Hp) Hk) as (f & Hf & -> & Ho & _).
  pose proof (Forall_lookup_1 _ _ _ _ (packing_intact _ _ Hp) Hf) as [[Hm _] _]. unfold FRAME_HEADER_SIZE in Ho. split; [done|lia].
Qed.

(** The versions once the frames still in the writer are added. *)
Definition packing_version (a : Packing) (n : Z) : option PageVersion :=
  overlay_frames (map snd (pw_frames (pg_writer a))) (version_at (pg_view a)) n.

Record packing_ok (a : Packing) (v : ViewMetadata) (done : list FrameMetadata) : Prop := {
  packing_writer : exists frames, packing (pg_writer a) frames;
  packing_draft : draft_ok (pg_view a);
  packing_fields : fields_of (pg_view a) = fields_of v;
  packing_versions : forall n, packing_version a n = overlay_frames done (version_at v) n;
}.

Lemma install_frame_lemma (p : PreparedSeal B) a v done e g a' g' :
  packing_ok a v done -> metadata_ok e.1 -> install_frame p a e g = (Ok a', g') ->
  packing_ok a' v (done ++ [e.1]) \/ collision.
Proof.
  intros [[frames Hw] Hd Hf Hv] Hm E. unfold install_frame in E. run.
  apply authenticated_intact in Hok0 as [-> Hi]; [|done].
  destruct (packing_append _ _ _ _ Hw Hi Hok) as [Hw' Hs]. cbn [ef_metadata] in Hs.
  assert (forall n, overlay_frames (map snd (pw_frames a2)) (version_at (pg_view a)) n = overlay_frames (done ++ [e.1]) (version_at v) n) as Hv'.
  { intros n. rewrite Hs, !overlay_frames_app. apply overlay_frames_ext. exact Hv. }
  destruct (_ || _); run; [|left; by split; eauto].
  destruct a1 as [pack v1]. apply (finish_view _ _ _ _ _ _ _ Hw') in Hrun as [(H1 & H2 & H3)|]; [left|by right|done].
  match goal with X : PackWriter_new = Ok _ |- _ => apply packing_new in X as [Hn Hnil] end. split; cbn [pg_writer pg_view fst snd]; [by exists []|done|by rewrite H2|].
  intros n. unfold packing_version. cbn [pg_writer pg_view]. rewrite Hnil. cbn. by rewrite H3.
Qed.

Lemma install_frames_lemma (p : PreparedSeal B) l : forall a v done g a' g',
  packing_ok a v done -> Forall (fun e => metadata_ok e.1) l -> install_frames p a l g = (Ok a', g') ->
  packing_ok a' v (done ++ map fst l) \/ collision.
Proof.
  induction l as [|e l IH]; intros a v done g a' g' Ha Hl E; cbn [install_frames] in E; run.
  - left. cbn. by rewrite app_nil_r.
  - apply Forall_cons in Hl as [He Hl]. apply (install_frame_lemma _ _ v done) in Hrun as [H1|]; [|by right|done..].
    cbn [map]. change (e.1 :: map fst l) with ([e.1] ++ map fst l). rewrite (assoc_L (++)). by eapply IH.
Qed.

(** The endpoint of a seal, as the store computes it. *)
Record endpoint_ok (e : SealEndpoint) : Prop := {
  endpoint_database : digest_ok (se_database e);
  endpoint_lineage : digest_ok (se_lineage e);
  endpoint_size : logical_ok (se_size e);
  endpoint_txid : txid_ok (se_txid e);
  endpoint_history : digest_ok (se_history e);
}.

Definition source_ok (source : option (PinnedView B)) : Prop :=
  forall s, source = Some s -> view_wf (pn_view s) /\ span_ok (vd_span (pn_metadata s)).

(** What the seal keeps of the view it is made from. *)
Definition source_version (source : option (PinnedView B)) (n : Z) : option PageVersion :=
  source ≫= fun s => version_at (pn_view s) n.

Definition within (e : SealEndpoint) (n : Z) : bool :=
  (n <=? lb_pages (se_size e)) && match se_truncate e with Some last => n <=? last | None => true end.

Definition base_version (p : PreparedSeal B) (n : Z) : option PageVersion :=
  if bool_decide (n ∈ ps_zeros p) then None
  else if within (ps_endpoint p) n then source_version (ps_source p) n else None.

Lemma install_base_lemma (p : PreparedSeal B) v :
  endpoint_ok (ps_endpoint p) -> source_ok (ps_source p) -> install_base p = Ok v ->
  draft_ok v /\ vm_database v = se_database (ps_endpoint p) /\ vm_lineage v = se_lineage (ps_endpoint p) /\
  vm_size v = se_size (ps_endpoint p) /\ vm_txid v = se_txid (ps_endpoint p) /\
  forall n, version_at v n = base_version p n.
Proof.
  intros [E1 E2 E3 E4 E5] Hs E. unfold install_base in E. set (v0 := match ps_source p with Some _ => _ | None => _ end) in E.
  assert (draft_ok v0 /\ forall n, version_at v0 n = source_version (ps_source p) n) as [Hd0 Hv0].
  { unfold v0, source_version. destruct (ps_source p) as [s|] eqn:Es; cbn.
    - split; [|done]. by apply view_wf_draft, (Hs s).
    - split; [|done]. split; try done. split; [done|apply is_bytes_zeros]. }
  inv_ok. apply orb_false_iff in Hguard as [G1 G2]. apply negb_false_iff, bytes_eqb_true in G1, G2.
  set (v1 := mkView _ _ _ _ _ _ _ _ _) in E.
  assert (draft_ok v1) as Hd1 by (destruct Hd0; by split).
  assert (forall n, version_at v1 n = source_version (ps_source p) n) as Hv1 by exact Hv0.
  set (v2 := match se_truncate _ with Some _ => _ | None => _ end) in E.
  assert (draft_ok v2 /\ fields_of v2 = fields_of v1 /\
          forall n, version_at v2 n = if within (ps_endpoint p) n then source_version (ps_source p) n else None) as (Hd2 & Hf2 & Hv2).
  { unfold v2, within. destruct (se_truncate _) as [k|].
    - split_and!; [by do 2 apply remove_above_ok|done|]. intros n. rewrite !remove_above_version, Hv1.
      by destruct (n <=? k), (n <=? lb_pages _).
    - split_and!; [by apply remove_above_ok|done|]. intros n. rewrite remove_above_version, Hv1. by rewrite andb_true_r. }
  destruct (remove_pages_lemma (ps_zeros p) v2 Hd2) as (Hd3 & Hv3 & Hf3). subst v.
  assert (fields_of (fold_left remove_page (ps_zeros p) v2) = fields_of v1) as Hf by (unfold fields_of in *; congruence).
  unfold fields_of, set_maps in Hf. injection Hf as F1 F2 F3 F4 F5 F6 F7.
  split_and!; [done|congruence..|]. intros n. rewrite Hv3. unfold base_version. by rewrite Hv2.
Qed.

Lemma install_lineage_lemma (p : PreparedSeal B) v :
  draft_ok v -> source_ok (ps_source p) ->
  draft_ok (install_lineage p v) /\ (forall n, version_at (install_lineage p v) n = version_at v n) /\
  vm_database (install_lineage p v) = vm_database v /\ vm_lineage (install_lineage p v) = vm_lineage v /\
  vm_size (install_lineage p v) = vm_size v /\ vm_txid (install_lineage p v) = vm_txid v.
Proof.
  intros Hv Hs. assert (digest_ok (seal_bytes None)) as H0 by (split; [done|apply is_bytes_zeros]).
  unfold install_lineage. destruct (ps_source_prefix p); [by split; [apply sealed_lineage_ok|]|].
  destruct (ps_source p) as [s|]; [|by split; [apply sealed_lineage_ok|]].
  destruct (_ <? _); [|done]. split; [|done]. apply sealed_lineage_ok; [done|]. apply logical_hash_ok.
Qed.

Lemma receipts_keep (f : ManifestBuilder -> bool -> Digest -> result StoreError ManifestBuilder) l : forall m m',
  (forall m id m', f m true id = Ok m' -> mb_metadata m' = mb_metadata m /\ (builder_ok m -> builder_ok m')) ->
  mfold (fun m id => f m true id) m l = Ok m' ->
  mb_metadata m' = mb_metadata m /\ (builder_ok m -> builder_ok m').
Proof.
  intros m m' Hf. revert m m'. induction l as [|id l IH]; intros m m' E; cbn [mfold] in E; inv_ok; [by subst|].
  destruct (Hf _ _ _ Hok) as [H1 H2]. destruct (IH _ _ E) as [H3 H4]. split; [congruence|auto].
Qed.

Lemma install_builder_lemma same (p : PreparedSeal B) v packs receipts m :
  draft_ok v -> source_ok (ps_source p) -> install_builder same p v packs receipts = Ok m ->
  builder_ok m /\ mb_metadata m = v.
Proof.
  intros Hv Hs E. unfold install_builder in E. inv_ok.
  destruct (builder_new_ok same v (pn_metadata <$> ps_source p) a) as [Hb Hm]; [apply Hv| |done|].
  { intros s Es. destruct (ps_source p) as [q|] eqn:Eq; [|done]. injection Es as <-. destruct (Hs q eq_refl) as [H1 H2].
    split; [|done]. apply (view_wf_draft _ H1). }
  apply receipts_keep in E as [E1 E2]; [|intros ? ? ? X; unfold ManifestBuilder_dictionary in X; inv_ok; subst; split; [done|by intros []]].
  apply receipts_keep in Hok0 as [E3 E4]; [|intros ? ? ? X; unfold ManifestBuilder_pack in X; inv_ok; subst; split; [done|by intros []]].
  rewrite E1, E3. split; [apply E2, E4|]; destruct (_ || _); try done. by destruct Hb.
Qed.

Lemma install_view_lemma same (p : PreparedSeal B) g id d g' :
  endpoint_ok (ps_endpoint p) -> source_ok (ps_source p) -> Forall (fun e => metadata_ok e.1) (ps_frames p) ->
  stored_bytes (cg_backend g') -> install_view same p g = (Ok (id, d), g') ->
  (view_wf (vd_view d) /\ vm_database (vd_view d) = se_database (ps_endpoint p) /\
   vm_size (vd_view d) = se_size (ps_endpoint p) /\ vm_txid (vd_view d) = se_txid (ps_endpoint p) /\
   forall n, version_at (vd_view d) n = overlay_frames (map fst (ps_frames p)) (base_version p) n) \/ collision.
Proof.
  intros He Hs Hf Hb E. unfold install_view in E. run.
  match goal with X : install_base _ = Ok _ |- _ => rename X into Hbase end.
  match goal with X : PackWriter_new = Ok _ |- _ => apply packing_new in X as [Hw Hnil] end.
  match goal with X : install_frames _ _ _ _ = (Ok _, _) |- _ => rename X into Hframes end.
  match goal with X : install_builder _ _ _ _ _ = Ok _ |- _ => rename X into Hbuilder end.
  match goal with X : (if _ then _ else _) _ = (Ok _, _) |- _ => rename X into Hlast end.
  apply install_base_lemma in Hbase as (Hd & B1 & B2 & B3 & B4 & Hv); [|done..].
  set (v1 := mkView _ _ _ _ _ _ _ _ _) in *.
  assert (draft_ok v1) as Hd1 by (destruct Hd; by split).
  apply (install_frames_lemma p _ _ v1 []) in Hframes as [[[frames Hw'] Hd' Hf' Hv']|]; [|by right| |done].
  2: { split; cbn [pg_writer pg_view]; eauto. intros n. unfold packing_version. cbn [pg_writer pg_view]. by rewrite Hnil. }
  cbn [app] in Hv'. assert ((draft_ok a3.1 /\ fields_of a3.1 = fields_of v1 /\
           forall n, version_at a3.1 n = overlay_frames (map fst (ps_frames p)) (version_at v1) n) \/ collision)
    as [(Hd2 & Hf2 & Hv2)|]; [|clear Hlast|by right].
  { destruct (Z.eqb_spec (zlen (pw_frames (pg_writer a2))) 0) as [Ez|_]; run.
    - left. split_and!; [done..|]. intros n. rewrite <- (Hv' n). unfold packing_version. cbn [fst].
      apply zlen_0_nil in Ez. by rewrite Ez.
    - match goal with X : PackWriter_finish _ _ _ = (Ok ?r, _) |- _ => destruct r as [pack v2]; rename X into Hfin end.
      apply (finish_view _ _ _ _ _ _ _ Hw') in Hfin as [(H1 & H2 & H3)|]; [left|by right|done].
      cbn [fst snd]. split_and!; [done|by rewrite H2|]. intros n. rewrite H3. apply Hv'. }
  destruct (install_lineage_lemma p (retain_frames a3.1) (retain_frames_ok _ Hd2) Hs) as (Hd3 & Hv3 & L1 & L2 & L3 & L4).
  apply install_builder_lemma in Hbuilder as [Hbo Hm]; [|done..].
  pose proof (finalize_loads _ _ _ _ _ E) as Hload. apply finalize_lemma in E as (_ & _ & _ & c & _ & _ & Hh & _); [|done].
  destruct (load_metadata_wf _ _ _ _ Hb Hload) as [Hwf|]; [|by right].
  rewrite Hm in Hh. apply draft_binds in Hh as [(S1 & S2 & S3 & S4 & _ & _ & S7)|]; [left|by right|by apply view_wf_draft|done].
  unfold fields_of, set_maps in Hf2. injection Hf2 as F1 F2 F3 F4 F5 F6 F7.
  split_and!; [done|rewrite S1, L1; etrans; [exact F1|done]|rewrite S3, L3; etrans; [exact F3|done]|rewrite S4, L4; etrans; [exact F4|done]|].
  intros n. rewrite S7, Hv3, retain_frames_version, Hv2. by apply overlay_frames_ext.
Qed.

(** ** A seal, from its input to the pages that are read back *)

Context (w : Workers) (Hw : workers_ok w) (paused : nat -> bool).

Lemma install_guard same (p : PreparedSeal B) s d s' :
  PreparedSeal_install same p s = (Ok d, s') -> install_view same p (sc_guard s) = (Ok d, sc_guard s').
Proof. unfold PreparedSeal_install. destruct (install_view _ _ _) as [[x|e] g]; intros E; [|done]. by injection E as <- <-. Qed.

(** The prepared frames, without what was repacked. *)
Lemma pick_changed (i : SealInput B) l n :
  pick (map (changed_version i) l) n =
  match List.find (fun e => e.1 =? n) l with Some e => Some (changed_version i e) | None => None end.
Proof. unfold pick. induction l as [|e l IH]; cbn; [done|]. by destruct (_ =? n). Qed.

Lemma zlen_page_at (i : SealInput B) n :
  input_ok i -> page_number_ok n -> n * input_size i <= zlen (si_file i) -> zlen (page_at i n) = input_size i.
Proof.
  intros Hi Hn Hl. pose proof (page_size_ok_bounds _ (input_page_size _ Hi)). unfold page_number_ok in Hn.
  unfold page_at. rewrite zlen_slice; [lia|nia..].
Qed.

Lemma zeros_of_all_zero b : all_zero b = true -> b = zeros (zlen b).
Proof.
  unfold all_zero, zeros, zlen. rewrite Nat2Z.id. induction b as [|x b IH]; cbn; [done|]. intros [Hx Hb]%andb_true_iff.
  apply Z.eqb_eq in Hx. subst x. f_equal. by apply IH.
Qed.

(** Reading the bytes a version was made from. *)
Lemma authentic_verified v n t b data :
  version_at v n = Some (PageVersion_verified n t data) -> authentic v n b -> b = data \/ collision.
Proof.
  intros Hv [_ Ha]. rewrite Hv in Ha. destruct Ha as [_ Hc]. cbn in Hc. unfold checksum in Hc.
  apply blake3_binds in Hc as [Hc|]; [|by right]. left. by do 3 apply app_inv_head in Hc.
Qed.

Lemma authentic_same v s n b b' :
  version_at v n = version_at s n -> lb_page_size (vm_size v) = lb_page_size (vm_size s) ->
  authentic v n b -> authentic s n b' -> b = b' \/ collision.
Proof.
  intros Hv Hs Ha [Hl Hb]. apply (authentic_unique v n); [done|]. unfold authentic. by rewrite Hv, Hs.
Qed.

(** What page [n] must read as, once the input has been sealed. *)
Definition sealed_page (i : SealInput B) (n : Z) (b : bytes) : Prop :=
  if bool_decide (n ∈ map fst (si_pages i)) then b = page_at i n
  else if within (si_endpoint i) n then
    match si_source i with
    | Some s => if lb_pages (vm_size (pn_view s)) <? n then b = zeros (input_size i)
                else forall b', view_read s n = Ok b' -> b = b'
    | None => b = zeros (input_size i)
    end
  else b = zeros (input_size i).

Definition source_sized (i : SealInput B) : Prop :=
  forall s, si_source i = Some s -> lb_page_size (vm_size (pn_view s)) = input_size i.

Lemma version_zeros v n b : version_at v n = None -> authentic v n b -> b = zeros (lb_page_size (vm_size v)).
Proof. intros Hv [_ Ha]. by rewrite Hv in Ha. Qed.

Lemma version_past v n : view_wf v -> lb_pages (vm_size v) < n -> version_at v n = None.
Proof.
  intros [_ Hs] Hn. unfold version_at. destruct (vm_pages v !! n) as [p|] eqn:Ep; [|done].
  destruct (shape_pages v Hs n p Ep) as (l & x & _ & _ & _ & _ & Hle). cbn in Hle. lia.
Qed.

Lemma seal_versions (i : SealInput B) p n :
  input_ok i -> si_repack i = None -> prepare w paused i = Ok p ->
  Forall (fun e => metadata_ok e.1) (ps_frames p) /\ ps_endpoint p = si_endpoint i /\ ps_source p = si_source i /\
  Forall (fun e => e.1 * input_size i <= zlen (si_file i)) (si_pages i) /\
  overlay_frames (map fst (ps_frames p)) (base_version p) n =
  match List.find (fun e => e.1 =? n) (List.filter (nonzero_at i) (si_pages i)) with
  | Some e => Some (changed_version i e)
  | None => if bool_decide (n ∈ map fst (List.filter (zero_at i) (si_pages i))) then None
            else if within (si_endpoint i) n then source_version (si_source i) n else None
  end.
Proof.
  intros Hi Hr E. apply prepare_lemma in E as (i1 & payloads & frames & report & Er & Hp); [|done].
  unfold read_repack in Er. rewrite Hr in Er. injection Er as <- <- <- <-.
  destruct (Hp Hi) as (E1 & E2 & E3 & E4 & E5 & E6 & E7 & Hrd & new & more & Hf & _ & Hv & Hs & Hst). cbn [app] in Hf.
  assert (map fst (ps_frames p) = map fst new) as -> by by rewrite Hf.
  assert (concat (map fm_pages (map fst new)) = map (changed_version i) (List.filter (nonzero_at i) (si_pages i))) as Hc
    by (rewrite map_map; exact Hv).
  split_and!; try done.
  - rewrite Hf. eapply Forall_impl; [exact Hst|]. by intros e (? & _).
  - rewrite overlay_frames_distinct, Hc, pick_changed.
    2: { rewrite Hc, map_map. apply NoDup_filter_map. apply (input_distinct _ Hi). }
    destruct (List.find _ _) as [e|]; [done|]. unfold base_version. by rewrite E7, E1, E2.
Qed.

(** The bytes of a version the seal decided on. *)
Lemma sealed_version (i : SealInput B) (v : PinnedView B) n b :
  input_ok i -> source_ok (si_source i) -> source_sized i ->
  Forall (fun e => e.1 * input_size i <= zlen (si_file i)) (si_pages i) ->
  lb_page_size (vm_size (pn_view v)) = input_size i -> authentic (pn_view v) n b ->
  version_at (pn_view v) n =
    match List.find (fun e => e.1 =? n) (List.filter (nonzero_at i) (si_pages i)) with
    | Some e => Some (changed_version i e)
    | None => if bool_decide (n ∈ map fst (List.filter (zero_at i) (si_pages i))) then None
              else if within (si_endpoint i) n then source_version (si_source i) n else None
    end ->
  sealed_page i n b \/ collision.
Proof.
  intros Hi Hs Hz Hrd Hps Ha Hver. unfold sealed_page. destruct (List.find _ _) as [[m t]|] eqn:Ef.
  - apply find_some in Ef as [Hin Hm]. cbn in Hm. apply Z.eqb_eq in Hm. subst m. apply filter_In in Hin as [Hin _].
    rewrite bool_decide_true by (apply (list_elem_of_fmap_2 fst _ (n, t)); by apply list_elem_of_In).
    by eapply authentic_verified.
  - case_bool_decide as Hzero.
    + apply list_elem_of_fmap in Hzero as ([m t] & Hm & Hin). cbn in Hm. subst m.
      apply list_elem_of_In, filter_In in Hin as [Hin%list_elem_of_In Hzb].
      rewrite bool_decide_true by by apply (list_elem_of_fmap_2 fst _ (n, t)).
      left. rewrite (version_zeros _ _ _ Hver Ha), Hps. unfold zero_at in Hzb. cbn in Hzb.
      rewrite (zeros_of_all_zero _ Hzb), zlen_page_at; [done|done| |].
      * pose proof (input_pages _ Hi) as Hp. rewrite Forall_forall in Hp. by destruct (Hp _ Hin).
      * rewrite Forall_forall in Hrd. by apply (Hrd _ Hin).
    + rewrite bool_decide_false.
      2: { intros ([m t] & Hm & Hin)%list_elem_of_fmap. cbn in Hm. subst m. apply list_elem_of_In in Hin. apply Hzero.
           destruct (zero_at i (n, t)) eqn:Ez.
           - apply (list_elem_of_fmap_2 fst _ (n, t)), list_elem_of_In, filter_In. done.
           - apply find_none with (x := (n, t)) in Ef; [cbn in Ef; lia|]. apply filter_In. split; [done|]. unfold nonzero_at. by rewrite Ez. }
      destruct (within _ n) eqn:Ew; [|left; by rewrite (version_zeros _ _ _ Hver Ha), Hps].
      unfold source_version in Hver. destruct (si_source i) as [src|] eqn:Es; cbn in Hver; [|left; by rewrite (version_zeros _ _ _ Hver Ha), Hps].
      destruct (Hs src eq_refl) as [Hwfs _]. destruct (Z.ltb_spec (lb_pages (vm_size (pn_view src))) n) as [Hpast|_].
      { left. rewrite <- Hps. apply (version_zeros _ n); [|done]. rewrite Hver. by apply version_past. }
      destruct (view_read src n) as [b'|] eqn:Eb; [|by left].
      destruct (authentic_same (pn_view v) (pn_view src) n b b') as [->|]; [done|by rewrite Hps, (Hz src)|done| |left; congruence|by right].
      cbn [view_read PinnedView_sealed] in Eb. destruct (resolve src n) as [q|] eqn:Eq; [|done]. by eapply read_authentic.
Qed.

Lemma seal_image same (i : SealInput B) p s id d s' :
  input_ok i -> si_repack i = None -> endpoint_ok (si_endpoint i) -> source_ok (si_source i) -> source_sized i ->
  prepare w paused i = Ok p -> PreparedSeal_install same p s = (Ok (id, d), s') ->
  stored_bytes (cg_backend (sc_guard s')) ->
  (view_wf (vd_view d) /\ vm_size (vd_view d) = se_size (si_endpoint i) /\ vm_txid (vd_view d) = se_txid (si_endpoint i) /\
   forall (v : PinnedView B) n b, pn_metadata v = d -> view_read v n = Ok b ->
     (n <= lb_pages (se_size (si_endpoint i)) /\ sealed_page i n b) \/ collision) \/ collision.
Proof.
  intros Hi Hr He Hs Hz Ep Ei Hb. apply install_guard in Ei.
  destruct (seal_versions i p 0 Hi Hr Ep) as (Hf & E1 & E2 & Hrd & _).
  apply install_view_lemma in Ei as [(Hwf & _ & Hsz & Htx & Hver)|]; [left|by right|by rewrite ?E1, ?E2..].
  rewrite E1 in *. split_and!; [done..|]. intros v n b <- Hread. fold (pn_view v) in *.
  destruct (seal_versions i p n Hi Hr Ep) as (_ & _ & _ & _ & Hn). specialize (Hver n). rewrite Hn in Hver.
  cbn [view_read PinnedView_sealed] in Hread. destruct (resolve v n) as [page|] eqn:Epage; [|done]. cbn [rbind] in Hread.
  assert (n <= lb_pages (vm_size (pn_view v))) as Hle by (unfold resolve in Epage; inv_ok; lia). rewrite Hsz in Hle.
  destruct (sealed_version i v n b Hi Hs Hz Hrd) as [|]; [by rewrite Hsz|by eapply read_authentic|done|by left|by right].
Qed.

(** Sealing keeps the image: when pages are prepared and the seal is installed, every page
    read through the view it published is, up to a collision of the hash, the snapshot's page if it
    was changed, the page of the view the seal was made from if it was neither changed nor cut
    off, and zeros otherwise; whatever the grouping, the dictionaries, the number of threads and
    the bytes the backend returns. The view's size and transaction are the endpoint's. *)
Theorem seal_keeps_image same (i : SealInput B) p s id d s' (v : PinnedView B) n b :
  input_ok i -> si_repack i = None -> endpoint_ok (si_endpoint i) -> source_ok (si_source i) -> source_sized i ->
  prepare w paused i = Ok p -> PreparedSeal_install same p s = (Ok (id, d), s') ->
  stored_bytes (cg_backend (sc_guard s')) -> pn_metadata v = d -> view_read v n = Ok b ->
  (vm_size (pn_view v) = se_size (si_endpoint i) /\ vm_txid (pn_view v) = se_txid (si_endpoint i) /\
   n <= lb_pages (se_size (si_endpoint i)) /\ sealed_page i n b) \/ collision.
Proof.
  intros Hi Hr He Hs Hz Ep Ei Hb Hv Hread.
  destruct (seal_image same i p s id d s' Hi Hr He Hs Hz Ep Ei Hb) as [(_ & Hsz & Htx & Hall)|]; [|by right].
  destruct (Hall v n b Hv Hread) as [[Hle Hp]|]; [left|by right]. unfold pn_view. by rewrite Hv.
Qed.
End Install.
