(* ===== verification/RepackProofs.v ===== *)
(** Correctness of repacking: frames whose pages are all live are copied, the live pages of the
    others are decoded and encoded again, and the view that results holds the same pages. *)

From S2P Require Import Prelude Domain Layout Format Wire Segment Frame Pack Backend CatalogIndex Catalog Placement View ViewProofs Manifest ManifestProofs Active Store StoreProofs Sealed SealedProofs Samples Maintenance Prepared Draft PreparedProofs InstallProofs.
From stdpp Require Import base strings gmap list sorting.
From Stdlib Require Import ZArith Lia.
Open Scope Z_scope.

(** ** Pages in the scratch file *)

Section Scratch.
Context (size : Z) (Hsize : 1 <= size).

Definition file_page (f : bytes) (n : Z) : bytes := slice f ((n - 1) * size) ((n - 1) * size + size).

Lemma zlen_staged f o b : 0 <= o -> zlen (staged f o b) = Z.max (zlen f) (o + zlen b).
Proof.
  intros Ho. unfold staged. pose proof (zlen_nonneg f). pose proof (zlen_nonneg b).
  assert (zlen (f ++ zeros (o + zlen b - zlen f)) = Z.max (zlen f) (o + zlen b)) as Hl.
  { rewrite zlen_app. unfold zeros, zlen at 2. rewrite length_replicate. lia. }
  rewrite zlen_put; [done|lia..].
Qed.

Lemma staged_page f n b :
  1 <= n -> zlen b = size ->
  file_page (staged f ((n - 1) * size) b) n = b /\ n * size <= zlen (staged f ((n - 1) * size) b) /\
  forall m, 1 <= m -> m <> n -> m * size <= zlen f ->
    file_page (staged f ((n - 1) * size) b) m = file_page f m /\ m * size <= zlen (staged f ((n - 1) * size) b).
Proof.
  intros Hn Hb. assert (0 <= (n - 1) * size) as Ho by nia. pose proof (zlen_staged f _ b Ho) as Hl. split_and!; [|lia|].
  - unfold file_page, staged. apply slice_put_same; [done|lia|]. rewrite zlen_app. unfold zeros, zlen at 2.
    rewrite length_replicate. lia.
  - intros m Hm Hne Hf. split; [|lia]. unfold file_page, staged. destruct (decide (m < n)).
    + rewrite slice_put_before by nia. apply slice_app_l; nia.
    + rewrite slice_put_after by nia. apply slice_app_l; nia.
Qed.
End Scratch.

(** ** Frames that leave versions as they are *)

Lemma overlay_frames_agree (g : Z -> option PageVersion) l f n :
  (forall m x, m ∈ l -> x ∈ fm_pages m -> g (pv_page x) = Some x) ->
  overlay_frames l f n = g n \/ overlay_frames l f n = f n /\ pick (concat (map fm_pages l)) n = None.
Proof.
  unfold overlay_frames. induction l as [|m l IH] using rev_ind; intros Hl; [by right|].
  rewrite fold_left_app, map_app, concat_app. cbn [fold_left map concat]. rewrite app_nil_r, pick_app.
  destruct (pick (fm_pages m) n) as [x|] eqn:Ex.
  - left. apply pick_Some in Ex as [Hx <-]. symmetry. apply (Hl m); [apply elem_of_app; right; by left|done].
  - destruct IH as [->|[-> Hnone]]; [|by left|right; by rewrite Hnone].
    intros m' x Hm. apply Hl. apply elem_of_app. by left.
Qed.

Section Repack.
Context {HH : Hashes} {HOK : HashesOk HH} {Z0 : ZstdLib} {ZOK : ZstdOk Z0} {ZT : ZstdTrainer}.
Context {B : Type} {SB : StorageBackend B} {BL : BackendLaws B}.
Context (v : PinnedView B) (Hv : view_wf (pn_view v)).

Abbreviation view := (pn_view v).
Abbreviation size := (lb_page_size (vm_size (pn_view v))).

Lemma size_pos : 1 <= size.
Proof. destruct (fields_size _ (proj1 Hv)) as [H%page_size_ok_bounds _]. lia. Qed.

(** A location of the view. *)
Definition placed_in (l : FrameLocation) : Prop := vm_frames view !! fm_id (fl_metadata l) = Some l.

Lemma placed_ok l : placed_in l -> metadata_ok (fl_metadata l) /\ fs_page_size (fm_shape (fl_metadata l)) = size.
Proof.
  intros Hl. split; [by destruct (fields_frames _ (proj1 Hv) _ _ Hl)|]. by destruct (shape_frames _ (proj2 Hv) _ _ Hl) as (_ & ? & _).
Qed.

Definition from_frame (id : Digest) (n : Z) : Prop := exists p, vm_pages view !! n = Some p /\ sp_frame p = id.

(** A live page of a frame has the version the frame lists. *)
Lemma live_version l x :
  placed_in l -> x ∈ fm_pages (fl_metadata l) -> is_live view x (fm_id (fl_metadata l)) = true ->
  version_at view (pv_page x) = Some x /\ from_frame (fm_id (fl_metadata l)) (pv_page x).
Proof.
  intros Hl Hx E. unfold is_live in E. destruct (vm_pages view !! pv_page x) as [p|] eqn:Ep; [|done].
  apply bytes_eqb_true in E. split; [|by exists p]. unfold version_at. rewrite Ep. cbn. unfold page_version. rewrite E.
  destruct (shape_pages _ (proj2 Hv) _ _ Ep) as (l' & y & Hl' & Hy & Hn & _). cbn in *. rewrite E in Hl'.
  unfold placed_in in Hl. rewrite Hl in Hl' |- *. injection Hl' as <-. rewrite Hy. f_equal.
  destruct (placed_ok l Hl) as [(_ & _ & _ & _ & _ & _ & _ & _ & Hnd) _].
  apply list_elem_of_lookup in Hx as [i Hi]. assert (i = Z.to_nat (sp_slot p)) as ->.
  { eapply (NoDup_lookup (map pv_page (fm_pages (fl_metadata l)))); [done| |]; change (@map PageVersion Z) with (@fmap list _ PageVersion Z);
      rewrite list_lookup_fmap; [rewrite Hi; done|rewrite Hy; cbn; by rewrite Hn]. }
  congruence.
Qed.

(** ** Decoded pages *)

(** A page of the scratch file that is the source's version. *)
Definition page_good (f : bytes) (e : Z * Z) : Prop :=
  1 <= e.1 /\ e.1 * size <= zlen f /\
  exists x, version_at view e.1 = Some x /\ pv_txid x = e.2 /\ checksum e.1 e.2 (file_page size f e.1) = pv_checksum x.

Definition chunk_good (l : FrameLocation) (c : PageVersion * bytes) : Prop :=
  c.1 ∈ fm_pages (fl_metadata l) /\ zlen c.2 = size /\ checksum (pv_page c.1) (pv_txid c.1) c.2 = pv_checksum c.1.

Lemma page_good_staged f n b e :
  1 <= n -> zlen b = size -> e.1 <> n -> page_good f e -> page_good (staged f ((n - 1) * size) b) e.
Proof.
  intros Hn Hb Hne (H1 & H2 & x & Hx & Ht & Hc).
  destruct (staged_page size size_pos f n b Hn Hb) as (_ & _ & Hother). destruct (Hother e.1 H1 Hne H2) as [E1 E2].
  split_and!; [done..|]. exists x. by rewrite E1.
Qed.

Lemma rewrite_pages_lemma l cs : forall f pages f' pages',
  placed_in l -> Forall (chunk_good l) cs -> NoDup (map (pv_page ∘ fst) cs) ->
  Forall (page_good f) pages -> NoDup (map fst pages) ->
  (forall n c, n ∈ map fst pages -> c ∈ cs -> pv_page c.1 = n -> is_live view c.1 (fm_id (fl_metadata l)) = false) ->
  fold_left (rewrite_page v (fm_id (fl_metadata l)) size) cs (f, pages) = (f', pages') ->
  Forall (page_good f') pages' /\ NoDup (map fst pages') /\
  (forall n, n ∈ map fst pages' -> n ∈ map fst pages \/ from_frame (fm_id (fl_metadata l)) n).
Proof.
  induction cs as [|[x c] cs IH]; intros f pages f' pages' Hl Hcs Hnd Hp Hndp Hdis E; cbn [fold_left] in E.
  - injection E as <- <-. split_and!; try done. by left.
  - apply Forall_cons in Hcs as [(Hx & Hlen & Hsum) Hcs]. cbn [map fst snd] in *. apply NoDup_cons in Hnd as [Hnx Hnd].
    unfold rewrite_page at 2 in E. cbn [fst snd] in E. destruct (is_live _ x _) eqn:Elive.
    2: { eapply (IH f pages); try done. intros n d Hn Hd. apply Hdis; [done|by right]. }
    destruct (live_version l x Hl Hx Elive) as [Hver Hfrom].
    destruct (version_at_ok _ _ _ (view_wf_draft _ Hv) Hver) as [_ ([Hn1 _] & _ & _)].
    assert (pv_page x ∉ map fst pages) as Hnew.
    { intros Hin. pose proof (Hdis _ (x, c) Hin ltac:(by left) eq_refl) as Hdead. cbn in Hdead. congruence. }
    destruct (staged_page size size_pos f (pv_page x) c Hn1 Hlen) as (Hhere & Hend & _).
    edestruct (IH (staged f ((pv_page x - 1) * size) c) (pages ++ [(pv_page x, pv_txid x)])) as (G1 & G2 & G3); [done..| | | |exact E|].
    + apply Forall_app. split.
      * apply Forall_forall. intros e He. rewrite Forall_forall in Hp. apply page_good_staged; [done..| |by apply Hp].
        intros Heq. apply Hnew. rewrite <- Heq. by apply (list_elem_of_fmap_2 fst).
      * apply Forall_singleton. split_and!; [done..|]. exists x. cbn. by rewrite Hhere.
    + rewrite map_app. cbn. apply NoDup_app. split_and!; [done| |apply NoDup_singleton].
      intros n Hn ->%list_elem_of_singleton. done.
    + intros n d Hn Hd Hdn. rewrite map_app in Hn. cbn in Hn. apply elem_of_snoc in Hn as [->|Hn].
      * exfalso. apply Hnx. change (pv_page x ∈ map (pv_page ∘ fst) cs). rewrite <- Hdn. by apply (list_elem_of_fmap_2 (pv_page ∘ fst)).
      * apply (Hdis n d Hn); [by right|done].
    + split_and!; [done..|]. intros n Hn. apply G3 in Hn as [Hn|]; [|by right]. rewrite map_app in Hn. cbn in Hn.
      apply elem_of_snoc in Hn as [->|]; [by right|by left].
Qed.

(** The pages of a decoded frame, with the bytes their versions were made from. *)
Lemma decoded_chunks l record e f :
  placed_in l -> decode_record v l record = Ok (e, f) ->
  Forall (chunk_good l) (zip (fm_pages (fl_metadata l)) (chunks_exact size (vf_bytes f))) /\
  NoDup (map (pv_page ∘ fst) (zip (fm_pages (fl_metadata l)) (chunks_exact size (vf_bytes f)))).
Proof.
  intros Hl E. destruct (placed_ok l Hl) as [Hm Hs]. unfold decode_record in E. inv_ok. unfold EncodedFrame_verified in E. inv_ok.
  simplify_eq. destruct (verify_payload_lemma _ _ _ _ Hm Hok0) as (_ & _ & Hlen & Hsum).
  destruct Hm as (_ & Hsh & _ & _ & _ & _ & Hn & _ & Hnd). pose proof size_pos as Hpos. rewrite <- Hs in *.
  set (ps := fs_page_size (fm_shape (fl_metadata l))) in *. split.
  - apply Forall_lookup. intros k [x c] [Hx Hc]%lookup_zip_Some.
    unfold chunks_exact in Hc. change (@map nat bytes) with (@fmap list _ nat bytes) in Hc. rewrite list_lookup_fmap in Hc.
    destruct (seq _ _ !! k) as [j|] eqn:Ej; [|done]. cbn in Hc. injection Hc as <-. apply lookup_seq in Ej as [-> Hj]. cbn [Nat.add] in *.
    split_and!; cbn; [by eapply list_elem_of_lookup_2| |by apply Hsum].
    rewrite Hlen in Hj. unfold decoded in Hj. fold ps in Hj. rewrite Z.div_mul in Hj by lia.
    rewrite zlen_slice; [lia|..]; rewrite ?Hlen; unfold decoded; fold ps; nia.
  - change (@map (PageVersion * bytes) Z) with (@fmap list _ (PageVersion * bytes) Z).
    rewrite list_fmap_compose, fst_zip; [done|]. unfold chunks_exact. rewrite length_map, length_seq, Hlen. unfold decoded. fold ps.
    rewrite Z.div_mul by lia. unfold zlen in Hn. lia.
Qed.

(** ** The rewrite *)

Definition frame_good (m : FrameMetadata) : Prop :=
  metadata_ok m /\ forall x, x ∈ fm_pages m -> version_at view (pv_page x) = Some x.

Record rewrite_ok (done : list FrameLocation) (a : Rewrite) : Prop := {
  rewrite_pages : Forall (page_good (rw_file a)) (rw_pages a);
  rewrite_distinct : NoDup (map fst (rw_pages a));
  rewrite_from : forall n, n ∈ map fst (rw_pages a) -> exists l, l ∈ done /\ from_frame (fm_id (fl_metadata l)) n;
  rewrite_frames : Forall (fun e => frame_good e.1) (rw_frames a);
}.

Lemma resolve_live l x reference slot :
  placed_in l -> is_live view x (fm_id (fl_metadata l)) = true ->
  resolve v (pv_page x) = Ok (StoredPageRef reference slot) -> reference = l.
Proof.
  intros Hl E Hr. unfold resolve in Hr. inv_ok. unfold is_live in E. destruct (vm_pages view !! pv_page x) as [p|]; [|done].
  apply bytes_eqb_true in E. inv_ok. rewrite E in Hok. unfold placed_in in Hl. rewrite Hl in Hok. by simplify_eq.
Qed.

Lemma rewrite_frame_ok done a l a' :
  rewrite_ok done a -> placed_in l -> Forall placed_in done -> l ∉ done -> rewrite_frame size v a l = Ok a' ->
  rewrite_ok (done ++ [l]) a'.
Proof.
  intros [Hp Hd Hf Hg] Hl Hdone Hnew E. unfold rewrite_frame in E.
  assert (forall n, n ∈ map fst (rw_pages a) -> exists k, k ∈ done ++ [l] /\ from_frame (fm_id (fl_metadata k)) n) as Hf'.
  { intros n Hn. destruct (Hf n Hn) as (k & Hk & Hfrom). exists k. split; [apply elem_of_app; by left|done]. }
  destruct (List.find _ _) as [x|] eqn:Ex; [|inv_ok; by subst a'].
  apply find_some in Ex as [Hx%list_elem_of_In Hlive]. inv_ok.
  match goal with X : resolve _ _ = Ok ?r |- _ => destruct r as [|reference slot]; [done|rename X into Hres] end.
  apply (resolve_live l) in Hres; [|done..]. subst reference.
  destruct (reads_read _ _ l (rw_reads a)) as [[record|] reads]; [|done].
  destruct (forallb _ _) eqn:Eall.
  - inv_ok. subst a'. split; cbn; try done. apply Forall_app. split; [done|]. apply Forall_singleton. cbn.
    unfold authenticate_record, EncodedFrame_authenticated in Hok. inv_ok. subst. cbn.
    destruct (placed_ok l Hl) as [Hm _]. split; [done|]. intros y Hy. rewrite forallb_forall in Eall.
    eapply live_version; [done..|]. apply Eall. by apply list_elem_of_In.
  - inv_ok. match goal with X : decode_record _ _ _ = Ok ?q |- _ => destruct q as [enc f]; rename X into Hdec end.
    cbn [snd] in E. destruct (fold_left _ _ _) as [file pages] eqn:Efold. inv_ok. subst a'.
    destruct (decoded_chunks l record enc f Hl Hdec) as [Hc Hnd].
    apply rewrite_pages_lemma in Efold as (G1 & G2 & G3); [|done..|].
    + split; cbn; [done..| |done]. intros n Hn. apply G3 in Hn as [Hn|Hn]; [by apply Hf'|]. exists l. split; [apply elem_of_app; right; by left|done].
    + intros n c Hn _ Hcn. destruct (Hf n Hn) as (k & Hk & q & Hq & Hqf). apply not_true_iff_false. intros Hliv. apply Hnew.
      unfold is_live in Hliv. rewrite Hcn, Hq in Hliv. apply bytes_eqb_true in Hliv. rewrite Forall_forall in Hdone.
      specialize (Hdone k Hk). unfold placed_in in *. rewrite <- Hqf, Hliv, Hl in Hdone. by simplify_eq.
Qed.

Lemma rewrite_frames_ok l : forall done a a',
  rewrite_ok done a -> Forall placed_in (done ++ l) -> NoDup (done ++ l) -> mfold (rewrite_frame size v) a l = Ok a' ->
  rewrite_ok (done ++ l) a'.
Proof.
  induction l as [|x l IH]; intros done a a' Ha Hp Hnd E; cbn [mfold] in E; inv_ok.
  - subst. by rewrite app_nil_r.
  - assert (done ++ x :: l = (done ++ [x]) ++ l) as Eq by by rewrite <- (assoc_L (++)).
    rewrite Eq in *. eapply IH; [|done..|exact E]. apply Forall_app in Hp as [Hp _]. apply Forall_app in Hp as [Hp Hx].
    apply NoDup_app in Hnd as (Hnd & _). apply NoDup_app in Hnd as (_ & Hnd & _).
    rewrite Forall_singleton in Hx. apply (rewrite_frame_ok done a x); [done..| |done]. intros Hin. apply (Hnd x Hin). by left.
Qed.

(** *** The frames of the selected packs *)

Definition selected_frames (selected : gset (list Z)) : list FrameLocation :=
  isort location_leb (List.filter (fun l => bool_decide (fl_pack l ∈ selected)) (map snd (sorted_list (vm_frames view)))).

Lemma selected_placed selected : Forall placed_in (selected_frames selected).
Proof.
  apply Forall_forall. intros l Hl. unfold selected_frames in Hl. rewrite isort_perm in Hl.
  apply list_elem_of_In, filter_In in Hl as [Hl%list_elem_of_In _]. apply list_elem_of_fmap in Hl as ([id k] & -> & Hk%sorted_list_elem).
  unfold placed_in. cbn. destruct (shape_frames _ (proj2 Hv) _ _ Hk) as (Hid & _). cbn in Hid. by rewrite Hid.
Qed.

Lemma selected_distinct selected : NoDup (selected_frames selected).
Proof.
  unfold selected_frames. rewrite isort_perm.
  apply (NoDup_fmap_1 (fun l => fm_id (fl_metadata l))), (NoDup_filter_map (fun l => fm_id (fl_metadata l))). rewrite map_map.
  assert (map (fun e : list Z * FrameLocation => fm_id (fl_metadata e.2)) (sorted_list (vm_frames view)) = map fst (sorted_list (vm_frames view))) as ->;
    [|apply sorted_list_NoDup].
  apply map_ext_in. intros [id l] Hk%list_elem_of_In%sorted_list_elem. cbn. destruct (shape_frames _ (proj2 Hv) _ _ Hk) as (Hid & _). cbn in Hid. by rewrite Hid.
Qed.

Lemma read_repack_lemma (i : SealInput B) i1 payloads frames report :
  is_Some (si_repack i) -> si_source i = Some v -> si_pages i = [] -> input_size i = size ->
  read_repack i = Ok (i1, payloads, frames, report) ->
  same_pages (set_file (si_file i1) (si_pages i1) i) i1 /\ si_dictionaries i1 = si_dictionaries i /\
  Forall (page_good (si_file i1)) (si_pages i1) /\ NoDup (map fst (si_pages i1)) /\
  Forall (fun e => frame_good e.1) frames.
Proof.
  intros [selected Hsel] Hs Hp Hsize E. unfold read_repack in E. rewrite Hsel, Hs, Hp in E. cbn [ok_or rbind] in E.
  fold (selected_frames selected) in E. inv_ok. simplify_eq. fold (input_size i) in Hok0. rewrite Hsize in Hok0.
  apply (rewrite_frames_ok _ []) in Hok0 as [R1 R2 R3 R4]; cbn [app].
  - cbn [set_file si_pages si_file si_dictionaries]. split_and!; try done.
    + apply Forall_forall. intros e He. rewrite isort_perm in He. rewrite Forall_forall in R1. by apply R1.
    + by rewrite (Permutation_map fst (isort_perm _ _)).
  - split; cbn; [constructor|constructor| |constructor]. intros n Hn. by apply elem_of_nil in Hn.
  - apply selected_placed.
  - apply selected_distinct.
Qed.

(** ** The view that results *)

(** The input of a repack: no pages of its own, and the endpoint of the view it is made from. *)
Record repack_input (i : SealInput B) : Prop := {
  repack_selected : is_Some (si_repack i);
  repack_source : si_source i = Some v;
  repack_pages : si_pages i = [];
  repack_size : se_size (si_endpoint i) = vm_size view;
  repack_truncate : se_truncate (si_endpoint i) = None;
  repack_span : span_ok (vd_span (pn_metadata v));
  repack_endpoint : endpoint_ok (si_endpoint i);
  repack_layout : layout_ok (si_layout i);
  repack_dictionaries : dictionaries_ok (si_dictionaries i);
}.

Lemma changed_good (i : SealInput B) e :
  input_size i = size -> page_good (si_file i) e -> version_at view e.1 = Some (changed_version i e).
Proof.
  intros Hs (_ & _ & x & Hx & Ht & Hc). rewrite Hx. destruct (version_at_ok _ _ _ (view_wf_draft _ Hv) Hx) as [Hn _].
  unfold changed_version, PageVersion_verified, page_at. rewrite Hs. fold (file_page size (si_file i) e.1). rewrite Hc.
  destruct x. cbn in *. congruence.
Qed.

(** Either the version of a page is the source's, or it was dropped because the page is zero. *)
Definition same_or_zero (a b : option PageVersion) (n : Z) : Prop :=
  a = b \/ a = None /\ exists x, b = Some x /\ checksum n (pv_txid x) (zeros size) = pv_checksum x.

Context (w : Workers) (Hw : workers_ok w) (paused : nat -> bool).

Lemma repacked_input (i : SealInput B) i1 payloads frames report :
  repack_input i -> read_repack i = Ok (i1, payloads, frames, report) ->
  input_ok i1 /\ si_endpoint i1 = si_endpoint i /\ si_source i1 = Some v /\
  Forall (page_good (si_file i1)) (si_pages i1) /\ Forall (fun e => frame_good e.1) frames.
Proof.
  intros [R1 R2 R3 R4 R5 R6 R7 R8 R9] E. assert (input_size i = size) as Hsize by (unfold input_size; by rewrite R4).
  apply read_repack_lemma in E as ((E1 & E2 & _ & _ & E5 & _) & Hd & Hg & Hnd & Hf); [|done..].
  cbn in E1, E2, E5. split_and!; try done; [|congruence]. unfold input_size in *. split; unfold input_size; rewrite <- ?E1, <- ?E5, ?Hd; try done.
  - rewrite R4. by destruct (fields_size _ (proj1 Hv)).
  - eapply Forall_impl; [exact Hg|]. intros e (_ & _ & x & Hx & Ht & _).
    destruct (version_at_ok _ _ _ (view_wf_draft _ Hv) Hx) as [Hn (Hp & Htx & _)]. by rewrite <- Hn, <- Ht.
Qed.

Lemma repack_versions (i : SealInput B) p n :
  repack_input i -> prepare w paused i = Ok p -> n <= lb_pages (vm_size view) ->
  Forall (fun e => metadata_ok e.1) (ps_frames p) /\ ps_endpoint p = si_endpoint i /\ ps_source p = Some v /\
  same_or_zero (overlay_frames (map fst (ps_frames p)) (base_version p) n) (version_at view n) n.
Proof.
  intros Hr E Hn. apply prepare_lemma in E as (i1 & payloads & frames & report & Er & Hp); [|done].
  destruct (repacked_input _ _ _ _ _ Hr Er) as (Hi1 & Ee & Es & Hg & Hf).
  assert (input_size i1 = size) as Hsize by (unfold input_size; rewrite Ee; by rewrite (repack_size _ Hr)).
  destruct (Hp Hi1) as (E1 & E2 & _ & _ & _ & _ & E7 & Hrd & new & more & Hfr & _ & Hver & _ & Hst).
  rewrite Es in E2. rewrite Ee in E1. split_and!; [|done|done|].
  { rewrite Hfr. apply Forall_app. split; (eapply Forall_impl; [eassumption|]); [by intros e [? _]|by intros e (? & _)]. }
  destruct (overlay_frames_agree (version_at view) (map fst (ps_frames p)) (base_version p) n) as [->|[-> Hnone]]; [|by left|].
  { intros m x ([m' o] & -> & Hm)%list_elem_of_fmap Hx. cbn in Hx. rewrite Hfr in Hm. apply elem_of_app in Hm as [Hm|Hm].
    - rewrite Forall_forall in Hf. by apply (Hf _ Hm).
    - assert (x ∈ frame_versions new) as Hxn.
      { unfold frame_versions. apply list_elem_of_In, in_concat. exists (fm_pages m'). split; [|by apply list_elem_of_In].
        apply in_map_iff. exists (m', o). split; [done|by apply list_elem_of_In]. }
      rewrite Hver in Hxn. apply list_elem_of_fmap in Hxn as (e & -> & He). apply list_elem_of_In, filter_In in He as [He%list_elem_of_In _].
      rewrite Forall_forall in Hg. exact (changed_good i1 e Hsize (Hg _ He)). }
  unfold base_version. rewrite E7, E1, E2. cbn [source_version mbind option_bind].
  assert (within (si_endpoint i) n = true) as -> by (unfold within; rewrite (repack_size _ Hr), (repack_truncate _ Hr); apply andb_true_iff; split; [lia|done]).
  case_bool_decide as Hz; [|by left]. right. split; [done|].
  apply list_elem_of_fmap in Hz as (e & -> & He). apply list_elem_of_In, filter_In in He as [He%list_elem_of_In Hze].
  rewrite Forall_forall in Hg. destruct (Hg _ He) as (H1 & H2 & x & Hx & Ht & Hc). exists x. split; [done|]. rewrite Ht, <- Hc. f_equal.
  unfold zero_at, page_at in Hze. rewrite Hsize in Hze. unfold file_page.
  etrans; [|symmetry; exact (zeros_of_all_zero _ Hze)]. f_equal. pose proof size_pos. rewrite zlen_slice; nia.
Qed.

End Repack.
