(* ===== verification/Work.v ===== *)
(** Sealing, repacking and compaction of an open database (src/src/store.rs, the selection of packs
    in src/src/storage/repack.rs): a seal is prepared from a snapshot without holding the database,
    finished under its publication lock when nothing was committed meanwhile, and its view becomes
    the base of a new, empty active file.

    [Database] is the open store with the catalog it locks and the local directory. What the host
    answers is in [Host]: opening and locking the catalog, and everything from staging the new
    active file to its rename becoming durable. Scheduling (the background flags and deadlines) and
    the page cache are not part of the state. *)

From S2P Require Import Prelude Domain Layout Format Wire Segment Frame Pack Backend CatalogIndex Catalog Placement View Manifest Active Store Sealed Seal Retention Samples Maintenance Prepared.
From stdpp Require Import base strings gmap list sorting.
From Stdlib Require Import ZArith Lia.
Open Scope Z_scope.

#[export] Instance HeadState_eq_dec : EqDecision HeadState.
Proof. solve_decision. Defined.

Record Database (B : Type) : Type := mkDatabase {
  db_store : Store (PinnedView B);
  db_catalog : Sidecar B;
  db_local : Local;
}.
Arguments mkDatabase {B}. Arguments db_store {B}. Arguments db_catalog {B}. Arguments db_local {B}.

Record Host (B : Type) : Type := mkHost {
  ho_env : Env (PinnedView B);
  ho_catalog : result StoreError unit;
  ho_install : result StoreError unit;
}.
Arguments mkHost {B}. Arguments ho_env {B}. Arguments ho_catalog {B}. Arguments ho_install {B}.

(** [SealWork] and [PreparedWork] of an active seal. *)
Record SealWork (B : Type) : Type := mkWork {
  aw_input : SealInput B;
  aw_header : ActiveHeader;
  aw_head : HeadState;
  aw_restore : PublicationPhase;
}.
Arguments mkWork {B}. Arguments aw_input {B}. Arguments aw_header {B}. Arguments aw_head {B}. Arguments aw_restore {B}.

Record PreparedWork (B : Type) : Type := mkPreparedWork {
  fw_seal : PreparedSeal B;
  fw_header : ActiveHeader;
  fw_head : HeadState;
  fw_restore : PublicationPhase;
}.
Arguments mkPreparedWork {B}. Arguments fw_seal {B}. Arguments fw_header {B}. Arguments fw_head {B}. Arguments fw_restore {B}.

Inductive ViewPublication (B : Type) : Type :=
| Installed (active : ActiveFile) (view : PinnedView B)
| ReloadRequired (e : StoreError).
Arguments Installed {B}. Arguments ReloadRequired {B}.

Section Work.
Context `{Hashes, ZstdLib, ZstdTrainer, StorageBackend B, Collectable B}.

Abbreviation Store := (Store (PinnedView B)).
Abbreviation Database := (Database B).

(** A part of the database. *)
Definition on_store {A} (m : sm Store A) : sm Database A := fun d =>
  let '(r, s) := m (db_store d) in (r, mkDatabase s (db_catalog d) (db_local d)).
Definition on_catalog {A} (m : sm (Sidecar B) A) : sm Database A := fun d =>
  let '(r, c) := m (db_catalog d) in (r, mkDatabase (db_store d) c (db_local d)).
Definition on_guard {A} (m : sm (CatalogGuard B) A) : sm Database A :=
  on_catalog (fun c => let '(r, g) := m (sc_guard c) in (r, mkSidecar g (sc_samples c) (sc_seed c) (sc_writable c))).

(** ** Exclusion *)

Definition acquire_maintenance (e : Env (PinnedView B)) : sm Store unit :=
  let! s := sget in
  if bool_decide (st_owner s = Maintenance) then sret tt
  else
    sfail_if bool_decide (st_owner s = Checkpoint) with Busy ;;
    let acquired := negb (is_locked s) in
    sfail_if acquired && negb (env_lock_free e) with Busy ;;
    let! _ := smod (fun s => if acquired then set_owner Transaction s else s) in
    fun s => match refresh e s with
             | (Err error, s) => (Err error, if acquired then release_publication s else s)
             | (Ok _, s) => (Ok tt, transition Maintenance s)
             end.

Definition release_maintenance (s : Store) : Store :=
  release_publication (if bool_decide (st_owner s = Maintenance) then transition Transaction s else s).

(** ** Preparing work *)

Definition dictionary_policy (s : Store) : result StoreError DictionaryPolicy :=
  let p := ah_policy (af_header (st_active s)) in
  DictionaryPolicy_new (pol_dictionary_bytes p) (pol_sample_bytes p).

Definition active_pages (s : Store) (size : LogicalBytes) (txid : Z) : result StoreError (list (Z * Z)) :=
  mmap (fun page => let* number := value (PageNumber_new page) in Ok (number, txid))
    (List.filter (fun page => page <=? lb_pages size) (map fst (sorted_pages (records s)))).

(** The private copy of the pages to be sealed. *)
Definition snapshot (s : Store) (pages : list (Z * Z)) : result StoreError bytes :=
  mfold (fun f p => let* b := read_mutable_page s (fst p) in
                    Ok (staged f ((fst p - 1) * page_size s) b)) [] pages.

Definition active_endpoint (s : Store) : result StoreError SealEndpoint :=
  let* ps := value (PageSize_new (page_size s)) in
  let* size := value (LogicalBytes_new (hd_logical_size (st_head s)) ps) in
  let* txid := value (TransactionId_new (hd_txid (st_head s))) in
  let* dictionary := dictionary_policy s in
  let database := ah_database_id (af_header (st_active s)) in
  Ok (mkEndpoint dictionary database database size txid (hd_history (st_head s)) (af_truncate_pages (st_active s))).

Definition active_work (h : Host B) (c : Sidecar B) (restore : PublicationPhase) (s : Store) : result StoreError (SealWork B) :=
  let* _ := ho_catalog h in
  let* endpoint := active_endpoint s in
  let* pages := active_pages s (se_size endpoint) (se_txid endpoint) in
  let* file := snapshot s pages in
  let* input := SealInput_new c (pn_id <$> st_view s) endpoint pages file (st_layout s) in
  Ok (mkWork input (af_header (st_active s)) (st_head s) restore).

Definition prepare_active_work (h : Host B) : sm Database (option (SealWork B)) :=
  let! d := sget in
  let s := db_store d in
  if hd_txid (st_head s) <? ah_start_txid (af_header (st_active s)) then sret None
  else
    let restore := st_owner s in
    let! _ := on_store (acquire_maintenance (ho_env h)) in
    let! d := sget in
    let result := active_work h (db_catalog d) restore (db_store d) in
    let! _ := on_store (smod (set_owner Unlocked)) in
    slift (rmap Some result).

(** The endpoint of a view that is rewritten in place. *)
Definition view_endpoint (s : Store) (v : PinnedView B) (dictionary : DictionaryPolicy) : SealEndpoint :=
  mkEndpoint dictionary (vm_database (pn_view v)) (ah_database_id (af_header (st_active s))) (vm_size (pn_view v))
    (vm_txid (pn_view v)) (vm_history (pn_view v)) None.

(** Nothing is pending and everything committed is sealed. *)
Definition settled (s : Store) : option (PinnedView B) :=
  if has_pending s || (ah_start_txid (af_header (st_active s)) <=? hd_txid (st_head s)) then None else st_view s.

(** Most reclaimable bytes per byte of surviving work first. *)
Definition plan_leb (a b : Digest * RepackPlan) : bool :=
  let x := plan_reclaimable (snd a) * Z.max (rp_live_frame_decoded_bytes (snd b)) 1 in
  let y := plan_reclaimable (snd b) * Z.max (rp_live_frame_decoded_bytes (snd a)) 1 in
  match y ?= x with Lt => true | Gt => false | Eq => digest_leb (fst a) (fst b) end.

Definition take_affordable (acc : Z * list (Digest * RepackPlan)) (p : Digest * RepackPlan)
    : Z * list (Digest * RepackPlan) :=
  let cost := rp_live_frame_decoded_bytes (snd p) in
  if fst acc <? cost then acc else (fst acc - cost, snd acc ++ [p]).

Definition eligible_packs (l : Local) (g : CatalogGuard B) (v : PinnedView B) (policy : LayoutPolicy)
    : result StoreError (list (Digest * RepackPlan)) :=
  if lp_maintenance_input policy =? 0 then Ok []
  else
    let* retained := retained_packs_except l g (pn_id v) in
    let* plans := plans v in
    let candidates := List.filter (fun p =>
      (rp_frame_bytes (snd p) / 2 <? plan_reclaimable (snd p))
      && (rp_live_frame_decoded_bytes (snd p) <=? lp_maintenance_input policy)
      && negb (bool_decide (fst p ∈ retained))) plans in
    Ok (snd (fold_left take_affordable (isort plan_leb candidates) (lp_maintenance_input policy, []))).

Definition prepare_repack_work (h : Host B) : sm Database (option (SealWork B)) :=
  let! d := sget in
  let s := db_store d in
  match settled s with
  | None => sret None
  | Some v =>
      slift (
        let* _ := ho_catalog h in
        let* selected := eligible_packs (db_local d) (sc_guard (db_catalog d)) v (st_layout s) in
        if zlen selected =? 0 then Ok None
        else
          let* p := dictionary_policy s in
          let* dictionary := DictionaryPolicy_new 0 (dp_samples p) in
          let* input := SealInput_new (db_catalog d) (Some (pn_id v)) (view_endpoint s v dictionary) [] [] (st_layout s) in
          Ok (Some (mkWork (repack (list_to_set (map fst selected)) input) (af_header (st_active s)) (st_head s) (st_owner s))))
  end.

Definition prepare_dictionary_work (h : Host B) : sm Database (option (SealWork B)) :=
  let! d := sget in
  let s := db_store d in
  let! policy := slift (dictionary_policy s) in
  match settled s with
  | None => sret None
  | Some v =>
      if negb (trains policy) then sret None
      else
        slift (
          let* _ := ho_catalog h in
          let* input := SealInput_new (db_catalog d) (Some (pn_id v)) (view_endpoint s v policy) [] [] (st_layout s) in
          if negb (needs_dictionary_update input) then Ok None
          else Ok (Some (mkWork (dictionary_update input) (af_header (st_active s)) (st_head s) (st_owner s))))
  end.

Definition SealWork_prepare (w : Workers) (paused : nat -> bool) (a : SealWork B) : result StoreError (PreparedWork B) :=
  let* seal := prepare w paused (aw_input a) in
  Ok (mkPreparedWork seal (aw_header a) (aw_head a) (aw_restore a)).

(** ** Publishing a view *)

(** [ActiveBase::Installed]: the history is that of the new view. *)
Definition validate_installed (s : Store) (d : Digest * ValidatedMetadata) : result StoreError Digest :=
  let v := vd_view (snd d) in
  fail_if negb (bytes_eqb (vm_database v) (ah_database_id (af_header (st_active s))))
          || negb (lb_bytes (vm_size v) =? hd_logical_size (st_head s))
          || negb (vm_txid v =? hd_txid (st_head s)) with IdentityMismatch ;;
  Ok (fst d).

Definition installed_header (s : Store) (d : Digest * ValidatedMetadata) (policy : StoragePolicyRecord)
    : result StoreError ActiveHeader :=
  let old := af_header (st_active s) in
  let* parent := validate_installed s d in
  let* start := range (checked_add (hd_txid (st_head s)) 1) in
  Ok {|
    ah_attachment_id := ah_attachment_id old;
    ah_database_id := ah_database_id old;
    ah_page_size := page_size s;
    ah_start_txid := start;
    ah_base_history := vm_history (vd_view (snd d));
    ah_parent_physical_digest := parent;
    ah_base_logical_size := hd_logical_size (st_head s);
    ah_policy := policy;
    ah_layout := st_layout s;
    ah_source_bytes := ah_source_bytes old;
    ah_source_header_digest := ah_source_header_digest old;
  |}.

Definition installed_state (s : Store) (header : ActiveHeader) : ActiveState := {|
  as_database_id := ah_database_id header;
  as_sequence := 1;
  as_txid := hd_txid (st_head s);
  as_logical_size := hd_logical_size (st_head s);
  as_page_size := page_size s;
  as_history := ah_base_history header;
  as_commit_unix := 0;
  as_first_commit_unix := 0;
  as_record_count := 0;
  as_truncate_pages := None;
|}.

Definition installed_active (s : Store) (header : ActiveHeader) : ActiveFile :=
  let f := write_all_at [] 0 (ActiveHeader_encode header) in
  let f := write_all_at f ACTIVE_STATE_A_OFFSET (ActiveState_encode (installed_state s header)) in
  mkActiveFile (set_len f ACTIVE_METADATA_END) header 1 ∅ None.

(** The seal is announced in the catalog before the new active file replaces the old one. *)
Definition create_installed (h : Host B) (l : Local) (s : Store) (d : Digest * ValidatedMetadata)
    (policy : StoragePolicyRecord) : sm (CatalogGuard B) ActiveFile :=
  let! header := slift (installed_header s d policy) in
  let! _ := prepare_seal l header in
  let! _ := slift (ho_install h) in
  sret (installed_active s header).

Definition prepare_view_publication (h : Host B) (d : Digest * ValidatedMetadata) : sm Database (ViewPublication B) :=
  let! db := sget in
  let s := db_store db in
  let! view := slift (PinnedView_open (sc_guard (db_catalog db)) (fst d)) in
  let! _ := slift (if is_locked s then Ok tt else Err Busy) in
  fun db =>
    match on_guard (create_installed h (db_local db) s d (ah_policy (af_header (st_active s)))) db with
    | (Ok active, db) => (Ok (Installed active view), db)
    | (Err e, db) => (Ok (ReloadRequired e), db)
    end.

Definition set_view (v : option (PinnedView B)) (s : Store) : Store :=
  mkStore (st_writable s) (st_owner s) (st_head s) v (st_layout s) (st_active s) (st_source s) (st_raw_pages s)
    (st_originals s) (st_pending_size s) (st_pending_truncate s) (st_pending_dirty s) (st_bootstrap s).

Definition finish_view_publication (h : Host B) (p : ViewPublication B) : sm Database unit :=
  match p with
  | Installed active view =>
      let! _ := on_store (smod (fun s => adopt_active active (set_view (Some view) s))) in
      let! d := sget in
      on_guard (finish_seal (db_local d) (af_header active))
  | ReloadRequired e => fun d =>
      let '(_, d) := on_store (reload (ho_env h)) d in (Err e, d)
  end.

(** ** Finishing work *)

Definition finish_inner (h : Host B) (w : PreparedWork B) : sm Database unit :=
  let! d := sget in
  let s := db_store d in
  sfail_if negb (bool_decide (af_header (st_active s) = fw_header w)) || negb (bool_decide (st_head s = fw_head w)) with Busy ;;
  let! _ := slift (ho_catalog h) in
  let! durable := on_catalog (PreparedSeal_install true (fw_seal w)) in
  let! publication := prepare_view_publication h durable in
  let! _ := finish_view_publication h publication in
  if bool_decide (is_Some (ps_report (fw_seal w))) then sret tt
  else
    let! d := sget in
    let! _ := on_guard (collect (db_local d) (lp_deletion_budget (st_layout (db_store d)))) in
    sret tt.

Definition finish_work (h : Host B) (w : PreparedWork B) : sm Database unit :=
  let! d := sget in
  sfail_if has_pending (db_store d) with Busy ;;
  let! _ := on_store (acquire_maintenance (ho_env h)) in
  fun d =>
    let '(r, d) := finish_inner h w d in
    let s := db_store d in
    let s := if is_ok r && negb (bool_decide (fw_restore w = Unlocked)) then transition (fw_restore w) s
             else release_maintenance s in
    (r, mkDatabase s (db_catalog d) (db_local d)).

Definition seal_active (w : Workers) (paused : nat -> bool) (h : Host B) : sm Database unit :=
  let! d := sget in
  sfail_if bool_decide (is_Some (st_source (db_store d))) with Busy ;;
  let! work := prepare_active_work h in
  match work with
  | None => sret tt
  | Some work => let! prepared := slift (SealWork_prepare w paused work) in finish_work h prepared
  end.

(** ** Compaction *)

Definition checkpoint_manifest (v : PinnedView B) : sm (CatalogGuard B) (Digest * ValidatedMetadata) :=
  let! m := slift (ManifestBuilder_new true (pn_view v) (Some (pn_metadata v))) in
  fun g => ManifestBuilder_finalize g (ManifestBuilder_checkpoint m).

Definition is_checkpoint (v : PinnedView B) : bool :=
  match vd_parent (pn_metadata v) with Segment.Checkpoint => true | Previous _ => false end.

Definition compact_inner (h : Host B) : sm Database unit :=
  let! d := sget in
  let s := db_store d in
  sfail_if has_pending s || (ah_start_txid (af_header (st_active s)) <=? hd_txid (st_head s)) with Busy ;;
  match st_view s with
  | None => sret tt
  | Some v =>
      let! _ := slift (ho_catalog h) in
      if is_checkpoint v then sret tt
      else
        let! durable := on_guard (checkpoint_manifest v) in
        let! publication := prepare_view_publication h durable in
        finish_view_publication h publication
  end.

Definition compact (h : Host B) : sm Database unit :=
  let! _ := on_store (acquire_maintenance (ho_env h)) in
  fun d => let '(r, d) := compact_inner h d in
           (r, mkDatabase (release_maintenance (db_store d)) (db_catalog d) (db_local d)).
End Work.
