(* ===== verification/WorkProofs.v ===== *)
(** Correctness of sealing an open database: the image it serves is the one it served before, stale
    work is refused before anything is written, and compaction changes no page. *)

From S2P Require Import Prelude Domain Layout Format Wire Segment Frame Pack Backend CatalogIndex Catalog Placement View ViewProofs Manifest ManifestProofs Active Store StoreProofs Sealed SealedProofs Seal Retention Samples Maintenance Prepared Draft PreparedProofs InstallProofs RepackProofs Work.
From stdpp Require Import base strings gmap list sorting.
From Stdlib Require Import ZArith Lia.
Open Scope Z_scope.

Section Work.
Context {HH : Hashes} {HOK : HashesOk HH} {Z0 : ZstdLib} {ZOK : ZstdOk Z0} {ZT : ZstdTrainer}.
Context {B : Type} {SB : StorageBackend B} {BL : BackendLaws B} {CB : Collectable B}.

Abbreviation Store := (Store (PinnedView B)).

(** ** The snapshot *)

(** The types of the index of the active file. *)
Definition offsets_ok (s : Store) : Prop := forall n o, records s !! n = Some o -> is_u32 n /\ 0 <= o.

Lemma zlen_mutable_page (s : Store) n b :
  offsets_ok s -> 0 <= page_size s -> read_mutable_page s n = Ok b -> zlen b = page_size s.
Proof.
  intros Ho Hp E. unfold read_mutable_page, active_record_offset in E. inv_all. unfold read_exact_at in E. inv_ok. bools. subst b.
  match goal with X : records s !! n = Some _ |- _ => apply Ho in X as [_ X] end. unfold FRAME_HEADER_SIZE in *. rewrite zlen_slice; lia.
Qed.

Lemma snapshot_lemma (s : Store) pages f :
  offsets_ok s -> 1 <= page_size s -> Forall (fun p => 1 <= p.1) pages -> NoDup (map fst pages) -> snapshot s pages = Ok f ->
  Forall (fun p => p.1 * page_size s <= zlen f /\ read_mutable_page s p.1 = Ok (file_page (page_size s) f p.1)) pages.
Proof.
  intros Ho Hps. revert f. induction pages as [|[n t] pages IH] using rev_ind; intros f Hp Hnd E; [done|]. unfold snapshot in E, IH.
  rewrite mfold_app in E. inv_ok. cbn [mfold] in E. inv_ok. subst f. cbn [fst] in *. subst a0.
  apply Forall_app in Hp as [Hp Hn]. rewrite Forall_singleton in Hn. cbn in Hn.
  rewrite map_app in Hnd. apply NoDup_app in Hnd as (Hnd & Hdis & _). specialize (IH _ Hp Hnd Hok).
  pose proof (zlen_mutable_page _ _ _ Ho ltac:(lia) Hok1) as Hlen.
  destruct (staged_page (page_size s) Hps a n a1 Hn Hlen) as (Hhere & Hend & Hother).
  apply Forall_app. split; [|apply Forall_singleton; cbn; split; [done|by rewrite Hhere]].
  apply Forall_forall. intros [m u] Hm. rewrite Forall_forall in IH, Hp. destruct (IH _ Hm) as [H1 H2]. cbn in *.
  destruct (Hother m (Hp _ Hm)) as [E1 E2]; [|done|by rewrite E1].
  intros ->. apply (Hdis n); [by apply (list_elem_of_fmap_2 fst _ (n, u))|by left].
Qed.

(** ** The input of an active seal *)

(** A store whose commits can be sealed: nothing is pending, no conversion is under way, and the
    catalog pins the view the store reads through. *)
Record sealable (c : Sidecar B) (s : Store) : Prop := {
  sealable_source : st_source s = None;
  sealable_pending : st_pending_truncate s = None;
  sealable_offsets : offsets_ok s;
  sealable_layout : layout_ok (st_layout s);
  sealable_database : digest_ok (ah_database_id (af_header (st_active s)));
  sealable_history : digest_ok (hd_history (st_head s));
  sealable_numbers : is_u64 (hd_logical_size (st_head s)) /\ is_u64 (hd_txid (st_head s));
  sealable_view : forall v, st_view s = Some v ->
    view_wf (pn_view v) /\ span_ok (vd_span (pn_metadata v)) /\ lb_page_size (vm_size (pn_view v)) = page_size s /\
    PinnedView_open (sc_guard c) (pn_id v) = Ok v;
}.

Lemma open_dictionaries (g : CatalogGuard B) id (v : PinnedView B) d b :
  PinnedView_open g id = Ok v -> pn_dictionaries v !! d = Some b -> d = blake3 b.
Proof.
  intros E Hd. unfold PinnedView_open in E. inv_ok. subst v. cbn in Hd.
  apply load_dictionaries_lemma in Hok0 as [H1 _]; [|intros ? ? [=]]. symmetry. by apply H1.
Qed.

Lemma input_new_lemma c source (v : option (PinnedView B)) endpoint pages file layout i :
  SealInput_new c source endpoint pages file layout = Ok i ->
  (forall id, source = Some id -> exists x, v = Some x /\ PinnedView_open (sc_guard c) id = Ok x) ->
  (source = None -> v = None) ->
  si_endpoint i = endpoint /\ si_source i = v /\ si_pages i = pages /\ si_file i = file /\ si_layout i = layout /\
  si_repack i = None /\ dictionaries_ok (si_dictionaries i).
Proof.
  intros E Hv Hn. unfold SealInput_new in E. inv_ok. destruct source as [id|].
  - destruct (Hv id eq_refl) as (x & -> & Hx). rewrite Hx in Hok. cbn [rbind] in Hok. injection Hok as <-.
    destruct (last _) as [k|]; [destruct (pn_dictionaries x !! k) as [b|] eqn:Ek|]; inv_ok; subst i; split_and!; try done.
    cbn. intros k' b' [<- <-]%lookup_singleton_Some. by eapply open_dictionaries.
  - rewrite (Hn eq_refl). injection Hok as <-. destruct (seed_load _ _) as [b|]; inv_ok; subst i; split_and!; try done.
    apply dictionaries_ok_singleton.
Qed.

Lemma active_pages_lemma (s : Store) size txid pages :
  offsets_ok s -> active_pages s size txid = Ok pages ->
  Forall (fun p => page_number_ok p.1 /\ p.2 = txid) pages /\ NoDup (map fst pages) /\
  forall n, n ∈ map fst pages <-> is_Some (records s !! n) /\ n <= lb_pages size.
Proof.
  intros Ho E. unfold active_pages in E. set (l := List.filter _ _) in E.
  assert (Forall is_u32 l) as Hu.
  { apply Forall_forall. intros n Hn. apply list_elem_of_In, filter_In in Hn as [Hn _].
    apply list_elem_of_In, list_elem_of_fmap in Hn as ([k o] & -> & Hk%sorted_pages_elem). by apply Ho in Hk as [? _]. }
  assert (map fst pages = l /\ Forall (fun p => page_number_ok p.1 /\ p.2 = txid) pages) as [Hl Hp].
  { apply mmap_Ok in E. clear -E Hu. induction E as [|n p l pages Hn E IH]; [done|]. apply Forall_cons in Hu as [Hu Hl].
    destruct (IH Hl) as [IH1 IH2]. inv_ok. subst p. apply value_Ok, PageNumber_new_spec in Hok as [-> Hok]; [|unfold is_u32, U32_MAX in *; lia]. cbn. rewrite IH1. split; [done|by constructor]. }
  split; [done|]. rewrite Hl. unfold l. split.
  - rewrite <- (map_id (List.filter _ _)). apply NoDup_filter_map. rewrite map_id. apply sorted_pages_NoDup.
  - intros n. rewrite list_elem_of_In, filter_In, <- list_elem_of_In, Z.leb_le. apply and_iff_compat_r.
    rewrite list_elem_of_fmap. split.
    + intros ([k o] & -> & Hk%sorted_pages_elem). by exists o.
    + intros [o Hk]. exists (n, o). split; [done|by apply sorted_pages_elem].
Qed.

(** What an active seal is prepared from. *)
Record active_input (s : Store) (i : SealInput B) : Prop := {
  active_ok : input_ok i;
  active_repack : si_repack i = None;
  active_endpoint_ok : endpoint_ok (si_endpoint i);
  active_source_ok : source_ok (si_source i);
  active_sized : source_sized i;
  active_source : si_source i = st_view s;
  active_size : se_size (si_endpoint i) = mkLogical (hd_logical_size (st_head s)) (page_size s);
  active_txid : se_txid (si_endpoint i) = hd_txid (st_head s);
  active_truncate : se_truncate (si_endpoint i) = af_truncate_pages (st_active s);
  active_changed : forall n, n ∈ map fst (si_pages i) <-> is_Some (records s !! n) /\ n <= lb_pages (se_size (si_endpoint i));
  active_snapshot : forall n, n ∈ map fst (si_pages i) -> read_mutable_page s n = Ok (page_at i n);
}.

Lemma active_work_lemma h c restore (s : Store) a :
  sealable c s -> active_work h c restore s = Ok a ->
  active_input s (aw_input a) /\ aw_header a = af_header (st_active s) /\ aw_head a = st_head s /\ aw_restore a = restore.
Proof.
  intros Hs E. unfold active_work in E. inv_ok. rename a1 into e, a2 into pages, a3 into file, a4 into i. subst a. cbn.
  split_and!; [|done..]. unfold active_endpoint in Hok0. inv_ok. inv_all. rename a1 into ps, a2 into size, a3 into txid.
  apply PageSize_new_spec in Hok4 as [-> Hps]. destruct (sealable_numbers _ _ Hs) as [Hn1 Hn2]. unfold is_u64 in *.
  apply LogicalBytes_new_spec in Hok5 as [-> Hsize]; [|lia|done].
  apply TransactionId_new_spec in Hok6 as [-> Htx]; [|unfold U64_MAX; lia].
  apply active_pages_lemma in Hok1 as (Hp & Hnd & Hch); [|apply Hs]. subst e. cbn [se_size se_txid] in *.
  pose proof (page_size_ok_bounds _ Hps) as Hb.
  apply snapshot_lemma in Hok2; [|by apply sealable_offsets in Hs|lia| |done].
  2: { eapply Forall_impl; [exact Hp|]. intros p [[? _] _]. done. }
  apply (input_new_lemma _ _ (st_view s)) in Hok3 as (I1 & I2 & I3 & I4 & I5 & I6 & I7).
  2: { intros id Hid. destruct (st_view s) as [v|] eqn:Ev; [|done]. injection Hid as <-. exists v. split; [done|].
       by destruct (sealable_view _ _ Hs v Ev) as (_ & _ & _ & ?). }
  2: { by destruct (st_view s). }
  assert (input_size i = page_size s) as Hisz by (unfold input_size; rewrite I1; done).
  split; try (rewrite ?I1, ?I2, ?I3; done).
  - split; [by rewrite Hisz| |by rewrite I3|rewrite I5; apply Hs|done]. rewrite I3. eapply Forall_impl; [exact Hp|].
    intros p [? ->]. done.
  - rewrite I1. split; cbn; try done; apply Hs.
  - rewrite I2. intros v Hv. destruct (sealable_view _ _ Hs v Hv) as (? & ? & _). done.
  - intros v Hv. rewrite I2 in Hv. destruct (sealable_view _ _ Hs v Hv) as (_ & _ & ? & _). by rewrite Hisz.
  - intros n Hn. rewrite I3 in Hn. apply list_elem_of_fmap in Hn as (p & -> & Hp'). rewrite Forall_forall in Hok2.
    destruct (Hok2 _ Hp') as [_ Hr]. unfold page_at. by rewrite Hisz, I4.
Qed.

(** ** What reads of the store depend on *)

Lemma on_catalog_store {A} (m : sm (Sidecar B) A) d r d' : on_catalog m d = (r, d') -> db_store d' = db_store d /\ m (db_catalog d) = (r, db_catalog d').
Proof. unfold on_catalog. destruct (m _). by intros [= <- <-]. Qed.

Lemma on_guard_store {A} (m : sm (CatalogGuard B) A) d r d' :
  on_guard m d = (r, d') -> db_store d' = db_store d /\ m (sc_guard (db_catalog d)) = (r, sc_guard (db_catalog d')).
Proof. unfold on_guard. intros E. apply on_catalog_store in E as [E1 E2]. destruct (m _). injection E2 as <- E2. by rewrite <- E2. Qed.

Lemma on_store_catalog {A} (m : sm Store A) d r d' : on_store m d = (r, d') -> db_catalog d' = db_catalog d /\ m (db_store d) = (r, db_store d').
Proof. unfold on_store. destruct (m _). by intros [= <- <-]. Qed.

Lemma refresh_truncate e (s : Store) u s' : st_pending_truncate s = None -> refresh e s = (Ok u, s') -> st_pending_truncate s' = None.
Proof.
  intros Hs E. unfold refresh in E. runs. destruct (has_pending _); runs; [done|]. destruct (_ || _); runs; [|done].
  unfold reload in E. runs. match goal with X : load_local _ _ _ _ _ = (Ok _, ?t) |- _ => assert (st_pending_truncate t = None) as Hn end.
  { match goal with X : load_local _ _ _ _ _ = _ |- _ => unfold load_local in X end. runs.
    match goal with X : context [let '(_, _) := ?p in _] |- _ => destruct p end. by runs. }
  destruct (_ && _); by runs.
Qed.

Lemma acquire_truncate e (s : Store) s' :
  st_pending_truncate s = None -> acquire_maintenance e s = (Ok tt, s') -> st_pending_truncate s' = None.
Proof.
  intros Hs E. unfold acquire_maintenance in E. runs. case_bool_decide; runs; [done|]. destruct (refresh e _) as [[u|] s1] eqn:Er; [|done].
  injection E as <-. assert (st_pending_truncate s1 = None) as Hn; [|unfold transition; by destruct (is_locked s1)].
  eapply refresh_truncate; [|exact Er]. by destruct (negb _).
Qed.

(** Publishing a view: the store reads through it, and its active file is empty. *)
Lemma publication_lemma h (durable : Digest * ValidatedMetadata) d pub d1 d2 :
  prepare_view_publication h durable d = (Ok pub, d1) -> finish_view_publication h pub d1 = (Ok tt, d2) ->
  exists active view, PinnedView_open (sc_guard (db_catalog d)) (fst durable) = Ok view /\
    af_records active = ∅ /\ af_truncate_pages active = None /\
    db_store d2 = adopt_active active (set_view (Some view) (db_store d)).
Proof.
  intros E1 E2. unfold prepare_view_publication in E1. run. destruct (on_guard _ _) as [[active|e] d3] eqn:Eg.
  - injection E1 as <- <-. exists active. apply on_guard_store in Eg as [Hs Eg]. unfold create_installed in Eg. run. subst.
    eexists. split_and!; [eassumption|done..|]. cbn [finish_view_publication] in E2. run.
    apply on_guard_store in E2 as [-> _]. apply on_store_catalog in Hrun as [_ Hrun]. injection Hrun as <- <-. by rewrite Hs.
  - injection E1 as <- <-. cbn in E2. by destruct (on_store _ _).
Qed.

Lemma owner_shape (s : Store) : set_owner (st_owner s) s = s.
Proof. by destruct s. Qed.

Lemma transition_shape o (s : Store) : exists o', transition o s = set_owner o' s.
Proof. unfold transition. destruct (is_locked s); [by exists o|]. exists (st_owner s). by rewrite owner_shape. Qed.

Lemma release_maintenance_shape (s : Store) : exists o, release_maintenance s = set_owner o s.
Proof.
  unfold release_maintenance, release_publication. destruct (transition_shape Transaction s) as [o ->].
  repeat case_bool_decide; try (by exists Unlocked); try (by exists o); exists (st_owner s); by rewrite owner_shape.
Qed.

(** Reads of a store whose active file is empty go to the view. *)
Record settled_on (s : Store) (v : PinnedView B) : Prop := {
  settled_records : records s = ∅;
  settled_truncate : af_truncate_pages (st_active s) = None;
  settled_pending : st_pending_truncate s = None;
  settled_view : st_view s = Some v;
}.

Lemma settled_read (s : Store) v n b :
  settled_on s v -> is_u32 n -> read_page s n = Ok b ->
  if lb_pages (vm_size (pn_view v)) <? n then b = zeros (page_size s) else view_read v n = Ok b.
Proof.
  intros [Hr Ht Hp Hv] Hn E. unfold read_page, read_local_page in E. rewrite Hr, Ht, Hp, Hv, lookup_empty in E. cbn [beyond andb] in E.
  rewrite bool_decide_false in E by by intros []. cbn [view_size PinnedView_sealed] in E. inv_ok.
  destruct (_ <? n).
  - apply value_Ok, PageSize_new_spec in Hok0 as [-> _]. by simplify_eq.
  - injection Hok as <-. cbn [ok_or rbind] in E. inv_ok. apply value_Ok, PageNumber_new_spec in Hok as [-> _]; [done|]. unfold is_u32, U32_MAX in *. lia.
Qed.

Lemma published_settled active view (s : Store) o :
  af_records active = ∅ -> af_truncate_pages active = None -> st_pending_truncate s = None ->
  settled_on (set_owner o (adopt_active active (set_view (Some view) s))) view.
Proof. by intros. Qed.

Lemma install_loads same (p : PreparedSeal B) c id m c' v :
  PreparedSeal_install same p c = (Ok (id, m), c') -> PinnedView_open (sc_guard c') id = Ok v -> pn_metadata v = m.
Proof.
  intros E Ev. apply install_guard in E. unfold install_view in E. run. apply finalize_loads in E.
  unfold PinnedView_open in Ev. rewrite E in Ev. cbn [rbind] in Ev. inv_ok. by subst v.
Qed.

(** A page of the sealed view is the page of the store it was sealed from. *)
Lemma sealed_page_read (s : Store) i n b b' :
  active_input s i -> st_pending_truncate s = None -> st_source s = None -> is_u32 n ->
  n <= lb_pages (se_size (si_endpoint i)) -> sealed_page i n b' -> read_page s n = Ok b -> b' = b.
Proof.
  intros Hi Hp Hsrc Hn Hle Hb E. assert (input_size i = page_size s) as Hsz by (unfold input_size; by rewrite (active_size _ _ Hi)).
  unfold read_page, read_local_page in E. rewrite Hp, Hsrc in E. cbn [beyond andb] in E. inv_ok.
  match goal with X : value (PageSize_new _) = Ok _ |- _ => apply value_Ok, PageSize_new_spec in X as [-> _] end.
  unfold sealed_page in Hb. rewrite (active_source _ _ Hi), Hsz in Hb. unfold within in Hb. rewrite (active_truncate _ _ Hi) in Hb.
  pose proof (active_changed _ _ Hi n) as Hch. destruct (decide (n ∈ map fst (si_pages i))) as [Hin|Hin].
  - rewrite !bool_decide_true in * by tauto. rewrite (active_snapshot _ _ Hi n Hin) in *. injection Hok as <-. by injection E as <-.
  - rewrite !bool_decide_false in * by tauto. rewrite (proj2 (Z.leb_le n (lb_pages _)) Hle) in Hb. cbn [andb] in Hb.
    assert (match af_truncate_pages (st_active s) with Some last => n <=? last | None => true end = negb (beyond n (af_truncate_pages (st_active s)))) as Ht.
    { destruct (af_truncate_pages _) as [t|]; [|done]. cbn. by rewrite Z.leb_antisym. }
    rewrite Ht in Hb. destruct (beyond _ _); cbn [negb] in Hb; [by simplify_eq|].
    destruct (st_view s) as [v|] eqn:Ev; [|by simplify_eq].
    cbn [view_size PinnedView_sealed] in *. destruct (_ <? n); [by simplify_eq|]. injection Hok as <-. cbn [ok_or rbind] in E. inv_ok. apply Hb.
    match goal with X : value (PageNumber_new n) = Ok _ |- _ => apply value_Ok, PageNumber_new_spec in X as [-> _]; [done|] end.
    unfold is_u32, U32_MAX in *. lia.
Qed.

(** ** Finishing work *)

(** The objects the catalog holds once the seal is installed are bytes. *)
Definition installs_bytes (p : PreparedSeal B) (c : Sidecar B) : Prop :=
  forall durable c', PreparedSeal_install true p c = (Ok durable, c') -> stored_bytes (cg_backend (sc_guard c')).

Lemma finish_inner_lemma h p d d' :
  finish_inner h p d = (Ok tt, d') ->
  st_head (db_store d) = fw_head p /\
  exists durable c' active view,
    PreparedSeal_install true (fw_seal p) (db_catalog d) = (Ok durable, c') /\
    PinnedView_open (sc_guard c') (fst durable) = Ok view /\ af_records active = ∅ /\ af_truncate_pages active = None /\
    db_store d' = adopt_active active (set_view (Some view) (db_store d)).
Proof.
  intros E. unfold finish_inner in E. runs. apply orb_false_iff in Hguard as [_ Hh]. apply negb_false_iff, bool_decide_eq_true in Hh.
  split; [done|]. match goal with X : on_catalog _ _ = _ |- _ => apply on_catalog_store in X as [Hs2 Hi] end.
  match goal with X : prepare_view_publication _ _ _ = _, Y : finish_view_publication _ _ _ = (Ok ?u, _) |- _ =>
    destruct u; destruct (publication_lemma _ _ _ _ _ _ X Y) as (active & view & Ho & Hr & Ht & Hs3) end.
  rewrite Hs2 in Hs3. do 4 eexists. split_and!; [eassumption..|]. rewrite <- Hs3. case_bool_decide; runs; [done|].
  match goal with X : on_guard _ _ = _ |- _ => by apply on_guard_store in X as [-> _] end.
Qed.

(** Finished work was not stale, and the store reads through the view it installed. *)
Lemma finish_lemma h p d d' :
  st_pending_truncate (db_store d) = None -> finish_work h p d = (Ok tt, d') ->
  exists s c' durable active view o,
    st_pending_truncate s = None /\ st_head s = fw_head p /\ PreparedSeal_install true (fw_seal p) (db_catalog d) = (Ok durable, c') /\
    PinnedView_open (sc_guard c') (fst durable) = Ok view /\ af_records active = ∅ /\ af_truncate_pages active = None /\
    db_store d' = set_owner o (adopt_active active (set_view (Some view) s)).
Proof.
  intros Hp E. unfold finish_work in E. runs. destruct (finish_inner h p _) as [r d3] eqn:Ef. injection E as -> <-. cbn [is_ok andb db_store].
  match goal with X : on_store _ _ = (Ok ?u, _) |- _ => destruct u; apply on_store_catalog in X as [Hc Ha] end.
  apply acquire_truncate in Ha; [|done]. apply finish_inner_lemma in Ef as (Hh & durable & c' & active & view & Hi & Ho & Hr & Ht & Hst).
  rewrite Hc in Hi. rewrite Hst. set (s3 := adopt_active _ _).
  destruct (transition_shape (fw_restore p) s3) as [o1 ->]. destruct (release_maintenance_shape s3) as [o2 ->].
  destruct (negb _); eauto 15.
Qed.



(** ** Compaction *)

Definition checkpoints_bytes (v : PinnedView B) (g : CatalogGuard B) : Prop :=
  forall durable g', checkpoint_manifest v g = (Ok durable, g') -> stored_bytes (cg_backend g').

Lemma checkpoint_lemma (v v' : PinnedView B) g id m g' :
  view_wf (pn_view v) -> span_ok (vd_span (pn_metadata v)) -> stored_bytes (cg_backend g') ->
  checkpoint_manifest v g = (Ok (id, m), g') -> PinnedView_open g' id = Ok v' ->
  (view_wf (pn_view v') /\ same_draft (pn_view v') (pn_view v)) \/ collision.
Proof.
  intros Hv Hspan Hb E Eo. unfold checkpoint_manifest in E. run.
  destruct (builder_new_ok true (pn_view v) (Some (pn_metadata v)) a) as [Hok1 Hm]; [by destruct (view_wf_draft _ Hv)| |done|].
  { intros ? [= <-]. split; [by destruct (view_wf_draft _ Hv)|done]. }
  pose proof (finalize_loads _ _ _ _ _ E) as Hl. apply finalize_lemma in E as (_ & _ & _ & c & _ & _ & Hh & _); [|by destruct Hok1].
  assert (pn_metadata v' = m) as Hmv by (unfold PinnedView_open in Eo; rewrite Hl in Eo; cbn [rbind] in Eo; inv_ok; by subst v').
  destruct (load_metadata_wf _ _ _ _ Hb Hl) as [Hwf|]; [|by right]. unfold pn_view at 1 2. rewrite Hmv.
  cbn [ManifestBuilder_checkpoint mb_metadata] in Hh. rewrite Hm in Hh.
  apply draft_binds in Hh as [|]; [by left|by right|by apply view_wf_draft..].
Qed.

End Work.
