(* ===== verification/WorkDemo.v ===== *)
(** A seal of an open database in the in-memory backend: one commit over the view of [SealedDemo]
    is taken as work, prepared by two threads and finished; a repack and a compaction of the view.
    The witnesses of the theorems on prepared seals and on the work of an open database. *)

From S2P Require Import Prelude Domain Layout Format Wire Segment Frame Pack Backend CatalogIndex Catalog Placement View ViewProofs ViewDemo Manifest ManifestProofs ManifestDemo Active Store StoreProofs Sealed SealedProofs SealedDemo Seal Retention RetentionDemo Samples Maintenance Prepared PreparedProofs InstallProofs RepackProofs Work WorkProofs.
From stdpp Require Import base strings gmap list sorting.
From Stdlib Require Import ZArith Lia.
Open Scope Z_scope.

#[local] Existing Instances demo_hashes demo_zstd demo_hashes_ok demo_zstd_ok.

(** No dictionary can be trained. *)
#[export] Instance demo_trainer : ZstdTrainer := {|
  zcompressor _ _ := true;
  zdecoder _ := true;
  ztrain _ _ := None;
|}.

Definition demo_workers : Workers := mkWorkers None 2 false (Ok tt) (fun _ => Ok tt).

Lemma demo_workers_ok : workers_ok demo_workers.
Proof. split_and!; [done|cbn; lia|done|done]. Qed.

(** ** The open database *)

(** [demo_view4] as a database that was never forked, installed and pinned. *)
Definition work_view : ViewMetadata :=
  mkView (demo_id 1) (demo_id 1) (mkLogical 2048 512) 9 (demo_id 3) None (vm_frames demo_view4) (vm_pages demo_view4) [].
Definition work_builder : ManifestBuilder :=
  unwrap demo_failed (let* m := ManifestBuilder_new true work_view None in ManifestBuilder_pack m true (fz_id demo_packed)).
Definition work_sealed := Eval vm_compute in ManifestBuilder_finalize demo_installed work_builder.
Definition work_id : Digest := Eval vm_compute in match work_sealed.1 with Ok p => p.1 | Err _ => [] end.
Definition work_guard : CatalogGuard MemoryBackend := Eval vm_compute in
  with_state (fun s => set_branch (set_database s (Some (demo_id 1))) (Some (demo_digest 1)) None None) work_sealed.2.
Definition work_pinned : PinnedView MemoryBackend := Eval vm_compute in
  unwrap demo_unpinned (PinnedView_open work_guard work_id).

Definition work_raw : bytes := Eval vm_compute in unwrap [] (encode_raw work_view).
Definition work_valid : ValidatedMetadata := Eval vm_compute in unwrap demo_invalid (validate work_view).

Lemma work_view_wf : view_wf work_view.
Proof. apply (decoded_view_wf work_view work_raw work_valid); try (vm_compute; reflexivity). vm_compute. discriminate. Qed.

Lemma work_pinned_wf : view_wf (pn_view work_pinned).
Proof. replace (pn_view work_pinned) with work_view by (vm_compute; reflexivity). exact work_view_wf. Qed.

(** Page 3 was committed over the view. *)
Definition work_header : ActiveHeader := Eval vm_compute in
  mkActiveHeader (demo_digest 1) (demo_id 1) 512 10 (demo_id 3) work_id 2048 (ah_policy demo_header) demo_layout 0 ZERO_DIGEST.

Definition work_older : ActiveState := Eval vm_compute in
  mkActiveState (demo_id 1) 1 9 2048 512 (demo_id 3) 0 0 0 None.
Definition work_state : ActiveState := Eval vm_compute in
  mkActiveState (demo_id 1) 2 10 2048 512 (demo_id 3) 7 7 1 None.

Definition work_records : list (Z * bytes) := [(3, demo_page_of 7)].
Definition work_file : bytes := Eval vm_compute in
  put (put (put (zeros ACTIVE_METADATA_END) 0 (ActiveHeader_encode work_header)) (active_state_offset 1) (ActiveState_encode work_older))
    (active_state_offset 2) (ActiveState_encode work_state) ++ records_bytes 512 work_records.

Definition work_store : Store (PinnedView MemoryBackend) :=
  mkStore true Unlocked
    (mkHeadState 512 2048 10 (demo_id 3) (active_state_offset 2) (rec_offset 512 1) 7 7)
    (Some work_pinned) demo_layout
    (mkActiveFile work_file work_header 2 {[3 := rec_offset 512 0]} None)
    None ∅ ∅ 2048 None false None.

Definition work_sidecar : Sidecar MemoryBackend := mkSidecar work_guard (Err Io) (Err Io) true.
Definition work_local : Local := mkLocal (demo_id 50) (Ok []) None (Ok None) (Ok []) (Ok []) (Ok []).
Definition work_database : Database MemoryBackend := mkDatabase work_store work_sidecar work_local.

Definition work_host : Host MemoryBackend :=
  mkHost (mkEnv true [] false None 9 true true (fun _ _ => Ok tt) (fun _ => Err Io) (fun _ => Ok tt)) (Ok tt) (Ok tt).

(** ** Sealing *)

(** The work, without the snapshot's view spelled out. *)
Definition work_failed : SealWork MemoryBackend :=
  mkWork (mkInput (mkEndpoint (mkDictPolicy TrainingDisabled 0) [] [] (mkLogical 0 0) 0 [] None) None [] [] demo_layout ∅ []
            (Samples_new 0) false false false None) work_header (st_head work_store) Unlocked.
Definition work_taken : SealWork MemoryBackend := Eval vm_compute in
  unwrap work_failed (active_work work_host work_sidecar Unlocked work_store).
Definition work_unprepared : PreparedWork MemoryBackend :=
  mkPreparedWork (mkPrepared (si_endpoint (aw_input work_failed)) None ∅ [] None false [] [] [] demo_layout false false None)
    work_header (st_head work_store) Unlocked.
Definition work_prepared : PreparedWork MemoryBackend := Eval vm_compute in
  unwrap work_unprepared (SealWork_prepare demo_workers (fun _ => false) work_taken).

Lemma unwrap_ok {A} (d : A) (r : result StoreError A) : is_ok r = true -> r = Ok (unwrap d r).
Proof. by destruct r. Qed.

Lemma run_ready (r : result StoreError unit * Database MemoryBackend) n m :
  (let '(o, d) := r in is_ok o && (is_ok (read_page (db_store d) n) && is_ok (read_page (db_store d) m))) = true ->
  r = (Ok tt, r.2) /\ is_ok (read_page (db_store r.2) n) = true /\ is_ok (read_page (db_store r.2) m) = true.
Proof. destruct r as [[[]|] d]; [|done]. cbn. by intros [H1 H2]%andb_true_iff. Qed.

Lemma run_acquired (r : result StoreError unit * Store (PinnedView MemoryBackend)) : is_ok r.1 = true -> r = (Ok tt, r.2).
Proof. by destruct r as [[[]|] ?]. Qed.

Lemma install_ready same (p : PreparedSeal MemoryBackend) c n :
  match PreparedSeal_install same p c with
  | (Ok (id, _), c') =>
      match PinnedView_open (sc_guard c') id with
      | Ok v => is_ok (view_read v n) && forallb (fun e => bytes_check e.2) (map_to_list (mb_objects (cg_backend (sc_guard c'))))
      | Err _ => false
      end
  | _ => false
  end = true ->
  exists id d c' v b, PreparedSeal_install same p c = (Ok (id, d), c') /\ PinnedView_open (sc_guard c') id = Ok v /\
    view_read v n = Ok b /\ stored_bytes (cg_backend (sc_guard c')).
Proof.
  destruct (PreparedSeal_install same p c) as [[[id d]|] c']; [|done]. destruct (PinnedView_open _ id) as [v|] eqn:Ev; [|done].
  intros [Hr Hs]%andb_true_iff. destruct (view_read v n) as [b|] eqn:Eb; [|done]. apply memory_stored_bytes in Hs. eauto 10.
Qed.

Lemma is_ok_inv {A} (r : result StoreError A) : is_ok r = true -> exists a, r = Ok a.
Proof. destruct r as [a|]; [by exists a|done]. Qed.

Lemma work_taken_eq : active_work work_host work_sidecar Unlocked work_store = Ok work_taken.
Proof. vm_compute. reflexivity. Qed.
Lemma work_prepared_eq : SealWork_prepare demo_workers (fun _ => false) work_taken = Ok work_prepared.
Proof. vm_compute. reflexivity. Qed.

(** The seal is finished, and its pages can be read. *)
Lemma work_finishes : exists d, finish_work work_host work_prepared work_database = (Ok tt, d) /\
  is_ok (read_page (db_store d) 3) = true /\ is_ok (read_page (db_store d) 4) = true.
Proof.
  exists (finish_work work_host work_prepared work_database).2. apply (run_ready (finish_work work_host work_prepared work_database) 3 4). vm_compute. reflexivity.
Qed.

Lemma work_sealable : sealable work_sidecar work_store.
Proof.
  split; try done.
  - intros n o Ho. unfold records, work_store in Ho. cbn in Ho. apply lookup_singleton_Some in Ho as [<- <-].
    split; [unfold is_u32; lia|vm_compute; discriminate].
  - apply demo_layout_ok.
  - split; [reflexivity|]. apply bytes_check_ok. reflexivity.
  - split; [reflexivity|]. apply bytes_check_ok. reflexivity.
  - intros v [= <-]. split_and!; [exact work_pinned_wf|vm_compute; split_and!; discriminate|reflexivity|vm_compute; reflexivity].
Qed.

Lemma memory_check (c : Sidecar MemoryBackend) :
  forallb (fun e => bytes_check e.2) (map_to_list (mb_objects (cg_backend (sc_guard c)))) = true -> stored_bytes (cg_backend (sc_guard c)).
Proof. apply memory_stored_bytes. Qed.

Lemma work_installs_bytes : installs_bytes (fw_seal work_prepared) (db_catalog work_database).
Proof.
  intros durable c' E. change c' with (durable, c').2. apply (f_equal snd) in E. cbn [snd] in E. subst c'.
  apply memory_check. vm_compute. reflexivity.
Qed.


(** ** Stale work *)

Definition work_moved : PreparedWork MemoryBackend :=
  mkPreparedWork (fw_seal work_prepared) work_header (mkHeadState 512 2048 9 (demo_id 3) 0 ACTIVE_METADATA_END 0 0) Unlocked.


(** ** Repacking *)

(** Both pages of the frame are live, so it is copied. *)
Definition repack_endpoint4 : SealEndpoint :=
  mkEndpoint (mkDictPolicy TrainingDisabled 1048576) (demo_id 1) (demo_id 1) (mkLogical 2048 512) 9 (demo_id 3) None.
Definition work_repack : SealInput MemoryBackend := Eval vm_compute in
  repack {[fz_id demo_packed]}
    (unwrap (aw_input work_failed) (SealInput_new work_sidecar (Some work_id) repack_endpoint4 [] [] demo_layout)).
Definition work_repacked : PreparedSeal MemoryBackend := Eval vm_compute in
  unwrap (fw_seal work_unprepared) (prepare demo_workers (fun _ => false) work_repack).

Lemma work_repack_input : repack_input work_pinned work_repack.
Proof.
  split; try done.
  - split; cbn; try done; try (split; [reflexivity|apply bytes_check_ok; reflexivity]). exact (fields_size _ (proj1 work_view_wf)).
  - apply demo_layout_ok.
Qed.


(** ** Encoding *)

Definition many_workers : Workers := mkWorkers (Some 3) 8 true (Ok tt) (fun _ => Ok tt).

(** Three groups among three low-priority threads. *)
Lemma encode_batch_serial_witness :
  encode_batch many_workers [demo_pages; demo_pages; demo_pages] 512 19 None =
    encode_batch serial [demo_pages; demo_pages; demo_pages] 512 19 None /\
  is_ok (encode_batch serial [demo_pages; demo_pages; demo_pages] 512 19 None) = true.
Proof.
  split; [|vm_compute; reflexivity]. apply (encode_batch_serial many_workers). split_and!; try reflexivity; [intros n [= <-]; lia|cbn; lia].
Defined.

(** ** Compaction *)

(** The database the seal left. *)
Definition compact_database : Database MemoryBackend := Eval vm_compute in (finish_work work_host work_prepared work_database).2.
Definition compact_view : PinnedView MemoryBackend := Eval vm_compute in default work_pinned (st_view (db_store compact_database)).
Definition compact_raw : bytes := Eval vm_compute in unwrap [] (encode_raw (pn_view compact_view)).
Definition compact_valid : ValidatedMetadata := Eval vm_compute in unwrap demo_invalid (validate (pn_view compact_view)).

Lemma compact_view_wf : view_wf (pn_view compact_view).
Proof. apply (decoded_view_wf (pn_view compact_view) compact_raw compact_valid); try (vm_compute; reflexivity). vm_compute. discriminate. Qed.


Lemma compact_acquired_eq : acquire_maintenance (ho_env work_host) (db_store compact_database) = (Ok tt, (acquire_maintenance (ho_env work_host) (db_store compact_database)).2).
Proof. apply (run_acquired (acquire_maintenance (ho_env work_host) (db_store compact_database))). vm_compute. reflexivity. Qed.

Lemma compact_settled : settled_on (acquire_maintenance (ho_env work_host) (db_store compact_database)).2 compact_view.
Proof. split; vm_compute; reflexivity. Qed.

Lemma compact_runs : exists d, compact work_host compact_database = (Ok tt, d) /\
  is_ok (read_page (db_store d) 3) = true /\ is_ok (read_page (db_store d) 4) = true.
Proof. exists (compact work_host compact_database).2. apply (run_ready (compact work_host compact_database) 3 4). vm_compute. reflexivity. Qed.

Lemma compact_checkpoints_bytes : checkpoints_bytes compact_view (sc_guard (db_catalog compact_database)).
Proof.
  intros durable g' E. apply (f_equal snd) in E. cbn [snd] in E. subst g'. apply memory_stored_bytes. vm_compute. reflexivity.
Qed.

