(* ===== verification/Vfs.v ===== *)
(** The SQLite VFS over the page store (src/src/vfs/runtime.rs, and the callbacks of
    src/src/vfs.rs that reach it): what a connection's file does for SQLite's reads, writes, locks,
    shared-memory locks and file controls, and when a transaction or a WAL checkpoint is published.

    [FileState] is one open file; the store it shares with the other files of its database is in
    [Conn], with the file of the parent VFS. The parent VFS is C code that is not part of the
    repository: it is the parameter [ParentVfs], of which nothing is assumed. [VEnv] is what the
    outside answers during one callback. Result codes are SQLite's. The buffer of a failed read,
    the counters of a handle, the strength of a sync and the catching of panics at the C boundary
    are not modelled. *)

From S2P Require Import Prelude Domain Layout Format Segment Active Store.
From stdpp Require Import base strings gmap list sorting.
From Stdlib Require Import ZArith Lia.
Open Scope Z_scope.

(** ** Codes *)

Definition SQLITE_OK : Z := 0.
Definition SQLITE_BUSY : Z := 5.
Definition SQLITE_READONLY : Z := 8.
Definition SQLITE_IOERR : Z := 10.
Definition SQLITE_FULL : Z := 13.
Definition SQLITE_CANTOPEN : Z := 14.
Definition SQLITE_NOTADB : Z := 26.
Definition SQLITE_IOERR_READ : Z := 266.
Definition SQLITE_IOERR_SHORT_READ : Z := 522.
Definition SQLITE_IOERR_WRITE : Z := 778.
Definition SQLITE_IOERR_FSYNC : Z := 1034.
Definition SQLITE_IOERR_TRUNCATE : Z := 1546.
Definition SQLITE_IOERR_FSTAT : Z := 1802.
Definition SQLITE_IOERR_UNLOCK : Z := 2058.
Definition SQLITE_IOERR_LOCK : Z := 3850.
Definition SQLITE_IOERR_SHMLOCK : Z := 5130.
Definition SQLITE_IOERR_DATA : Z := 8202.

Definition SQLITE_LOCK_NONE : Z := 0.
Definition SQLITE_LOCK_SHARED : Z := 1.
Definition SQLITE_LOCK_RESERVED : Z := 2.
Definition SQLITE_SHM_UNLOCK : Z := 1.
Definition SQLITE_SHM_LOCK : Z := 2.
Definition SQLITE_SHM_EXCLUSIVE : Z := 8.
Definition SQLITE_SYNC_FULL : Z := 3.
Definition SQLITE_FCNTL_SIZE_HINT : Z := 5.
Definition SQLITE_FCNTL_CHUNK_SIZE : Z := 6.
Definition SQLITE_FCNTL_SYNC : Z := 21.
Definition SQLITE_FCNTL_COMMIT_PHASETWO : Z := 22.
Definition SQLITE_FCNTL_CKPT_DONE : Z := 37.
Definition SQLITE_FCNTL_CKPT_START : Z := 39.
Definition WAL_CHECKPOINT_LOCK : Z := 1.

(** [flags & bit != 0] *)
Definition has_flag (flags bit : Z) : bool := negb (Z.land flags bit =? 0).

(** ** The state of a file *)

Inductive CheckpointState : Set := Idle | ShmWriting | ShmFinishing | FallbackWriting | FallbackFinishing.

#[export] Instance CheckpointState_eq_dec : EqDecision CheckpointState.
Proof. solve_decision. Defined.

Definition is_writing (k : CheckpointState) : bool :=
  match k with ShmWriting | FallbackWriting => true | _ => false end.
Definition uses_shm (k : CheckpointState) : bool :=
  match k with ShmWriting | ShmFinishing => true | _ => false end.
Definition holds_publication (k : CheckpointState) : bool := uses_shm k || bool_decide (k = FallbackWriting).

Inductive PendingState : Set := Clean | Owned | NeedsSync | OwnedNeedsSync.
Inductive SyncStrength : Set := SyncNone | SyncNormal | SyncFull.

#[export] Instance PendingState_eq_dec : EqDecision PendingState.
Proof. solve_decision. Defined.
#[export] Instance SyncStrength_eq_dec : EqDecision SyncStrength.
Proof. solve_decision. Defined.

Record PublicationState : Set := mkPublication { pu_pending : PendingState; pu_main_sync : SyncStrength }.

Definition owns_pending (p : PublicationState) : bool :=
  match pu_pending p with Owned | OwnedNeedsSync => true | _ => false end.
Definition needs_sync (p : PublicationState) : bool :=
  match pu_pending p with NeedsSync | OwnedNeedsSync => true | _ => false end.
Definition pub_begin_write (p : PublicationState) : PublicationState :=
  mkPublication (if needs_sync p then OwnedNeedsSync else Owned) SyncNone.
Definition clear_owned (p : PublicationState) : PublicationState :=
  mkPublication (if needs_sync p then NeedsSync else Clean) (pu_main_sync p).
Definition require_sync (p : PublicationState) : PublicationState :=
  mkPublication (if owns_pending p then OwnedNeedsSync else NeedsSync) (pu_main_sync p).
Definition clear_pending (p : PublicationState) : PublicationState := mkPublication Clean (pu_main_sync p).
Definition pub_reset : PublicationState := mkPublication Clean SyncNone.
Definition record_parent_sync (full : bool) (p : PublicationState) : PublicationState :=
  mkPublication (pu_pending p) (if full then SyncFull else SyncNormal).

(** [fi_managed]: the file has a store. *)
Record FileState : Set := mkFile {
  fi_managed : bool;
  fi_read_only : bool;
  fi_lock_level : Z;
  fi_publication : PublicationState;
  fi_checkpoint : CheckpointState;
}.

Definition set_lock_level (level : Z) (f : FileState) : FileState :=
  mkFile (fi_managed f) (fi_read_only f) level (fi_publication f) (fi_checkpoint f).
Definition set_publication (p : PublicationState) (f : FileState) : FileState :=
  mkFile (fi_managed f) (fi_read_only f) (fi_lock_level f) p (fi_checkpoint f).
Definition set_checkpoint (k : CheckpointState) (f : FileState) : FileState :=
  mkFile (fi_managed f) (fi_read_only f) (fi_lock_level f) (fi_publication f) k.
Definition set_read_only (b : bool) (f : FileState) : FileState :=
  mkFile (fi_managed f) b (fi_lock_level f) (fi_publication f) (fi_checkpoint f).

(** The file state [prepare_open] returns. *)
Definition file_opened (managed read_only : bool) : FileState :=
  mkFile managed read_only SQLITE_LOCK_NONE (mkPublication Clean SyncNone) Idle.

(** Any callback that cannot be the truncation of a fallback checkpoint ends its last phase. *)
Definition fallback_over (f : FileState) : FileState :=
  if bool_decide (fi_checkpoint f = FallbackFinishing) then set_checkpoint Idle f else f.

(** ** The parent VFS and the outside *)

Class ParentVfs (P : Type) : Type := {
  parent_read : Z -> Z -> P -> (Z * option bytes) * P;
  parent_write : bytes -> Z -> P -> Z * P;
  parent_truncate : Z -> P -> Z * P;
  parent_sync : Z -> P -> Z * P;
  parent_file_size : P -> (Z * Z) * P;
  parent_lock : Z -> P -> Z * P;
  parent_unlock : Z -> P -> Z * P;
  parent_supports_shm : P -> bool;
  parent_shm_lock : Z -> Z -> Z -> P -> Z * P;
  parent_has_moved : P -> result Z bool;
  parent_close : P -> Z * P;
}.

(** [ve_poisoned]: a panic has poisoned the store's mutex; [ve_disk_full]: an I/O error is ENOSPC;
    [ve_path]: whether the database path exists. *)
Record VEnv (V : Type) : Type := mkVEnv {
  ve_env : Env V;
  ve_poisoned : bool;
  ve_disk_full : bool;
  ve_path : result StoreError bool;
}.
Arguments mkVEnv {V}. Arguments ve_env {V}. Arguments ve_poisoned {V}. Arguments ve_disk_full {V}. Arguments ve_path {V}.

Record Conn (V P : Type) : Type := mkConn { cn_file : FileState; cn_parent : P; cn_store : Store V }.
Arguments mkConn {V P}. Arguments cn_file {V P}. Arguments cn_parent {V P}. Arguments cn_store {V P}.

Section Vfs.
Context {HS : Hashes} {V : Type} {VV : SealedView V} {P : Type} {PV : ParentVfs P}.

Abbreviation Store := (Store V).
Abbreviation VEnv := (VEnv V).
Abbreviation Conn := (Conn V P).

Definition on_file (f : FileState -> FileState) (c : Conn) : Conn := mkConn (f (cn_file c)) (cn_parent c) (cn_store c).
Definition on_parent {A} (m : P -> A * P) (c : Conn) : A * Conn :=
  let '(a, p) := m (cn_parent c) in (a, mkConn (cn_file c) p (cn_store c)).

Definition sqlite_result (v : VEnv) (e : StoreError) : Z :=
  match e with
  | PageChecksumError _ | Format _ | Corrupt _ | Zstd | IdentityMismatch => SQLITE_IOERR_DATA
  | NotZsqlite | MissingSidecar => SQLITE_NOTADB
  | Busy => SQLITE_BUSY
  | ReadOnly => SQLITE_READONLY
  | UnknownPageSize | InvalidPageSize _ => SQLITE_NOTADB
  | InvalidConfiguration => SQLITE_CANTOPEN
  | Io => if ve_disk_full v then SQLITE_FULL else SQLITE_IOERR
  | _ => SQLITE_IOERR
  end.

(** Contention is never reported as [SQLITE_BUSY] from a write. *)
Definition write_result (v : VEnv) (operation : Z) (e : StoreError) : Z :=
  match e with Busy => operation | _ => sqlite_result v e end.

(** [store.lock().map_err(poison).and_then(..)] *)
Definition with_store {A} (v : VEnv) (poison : Z) (code : StoreError -> Z) (m : sm Store A) (c : Conn)
    : result Z A * Conn :=
  if ve_poisoned v then (Err poison, c)
  else let '(r, s) := m (cn_store c) in (map_err code r, mkConn (cn_file c) (cn_parent c) s).

Definition discard_pending : sm Store unit := smod discard_mutable_pending.
Definition finish_checkpoint : sm Store unit := smod finish_checkpoint_publication.
(** The strength of the sync is the platform's. *)
Definition publish_synced (v : VEnv) : sm Store unit := publish_inner (ve_env v) true false.
Definition publish_checkpoint_synced (v : VEnv) : sm Store unit := publish_inner (ve_env v) true true.

Definition discard_owned_pending (v : VEnv) (lock_error : Z) (c : Conn) : Z * Conn :=
  if negb (owns_pending (fi_publication (cn_file c))) then (SQLITE_OK, c)
  else
    let cleared := on_file (fun f => set_publication (clear_pending (fi_publication f)) f) in
    if negb (fi_managed (cn_file c)) then (SQLITE_OK, cleared c)
    else match with_store v lock_error (fun _ => lock_error) discard_pending c with
         | (Ok _, c) => (SQLITE_OK, cleared c)
         | (Err e, c) => (e, c)
         end.

(** ** File callbacks *)

Definition vfs_close (v : VEnv) (c : Conn) : Z * Conn :=
  let checkpoint_open := holds_publication (fi_checkpoint (cn_file c)) in
  let '(rc, c) := discard_owned_pending v SQLITE_IOERR c in
  let '(rc, c) :=
    (if checkpoint_open && fi_managed (cn_file c) then
       match with_store v SQLITE_IOERR (sqlite_result v) finish_checkpoint c with
       | (Ok _, c) => (rc, c)
       | (Err _, c) => (if rc =? SQLITE_OK then SQLITE_IOERR else rc, c)
       end
     else (rc, c)) in
  (rc, on_file (set_checkpoint Idle) c).

(** [None]: the loop of [read_at] ran out of fuel. *)
Definition vfs_read (v : VEnv) (n offset : Z) (c : Conn) : option (Z * option bytes) * Conn :=
  let c := on_file fallback_over c in
  if fi_managed (cn_file c) then
    (if ve_poisoned v then Some (SQLITE_IOERR, None)
     else match read_at (cn_store c) offset n with
          | None => None
          | Some (Ok (count, b)) => Some (if count =? n then SQLITE_OK else SQLITE_IOERR_SHORT_READ, Some b)
          | Some (Err e) => Some (sqlite_result v e, None)
          end, c)
  else let '(r, c) := on_parent (parent_read n offset) c in (Some r, c).

Definition write_store (v : VEnv) (checkpoint_active : bool) (data : bytes) (offset : Z) : sm Store Z :=
  let! written := write_at (ve_env v) offset data in
  let! _ := (if (written =? zlen data) && checkpoint_active
             then publish_checkpoint (ve_env v) false else sret tt) in
  sret written.

Definition vfs_write (v : VEnv) (data : bytes) (offset : Z) (c : Conn) : Z * Conn :=
  if fi_managed (cn_file c) then
    if fi_read_only (cn_file c) then (SQLITE_READONLY, c)
    else
      let c := on_file fallback_over c in
      let checkpoint_active := is_writing (fi_checkpoint (cn_file c)) in
      if ve_poisoned v then
        let '(_, c) := discard_owned_pending v SQLITE_IOERR_WRITE c in (SQLITE_IOERR, c)
      else
        let c := on_file (fun f => set_publication (pub_begin_write (fi_publication f)) f) c in
        match with_store v SQLITE_IOERR (write_result v SQLITE_IOERR_WRITE) (write_store v checkpoint_active data offset) c with
        | (Ok written, c) =>
            if written =? zlen data then
              (SQLITE_OK, if checkpoint_active
                          then on_file (fun f => set_publication (clear_owned (fi_publication f)) f) c else c)
            else let '(_, c) := discard_owned_pending v SQLITE_IOERR_WRITE c in (SQLITE_IOERR_WRITE, c)
        | (Err e, c) => let '(_, c) := discard_owned_pending v SQLITE_IOERR_WRITE c in (e, c)
        end
  else on_parent (parent_write data offset) c.

Definition truncate_store (v : VEnv) (retain fallback : bool) (size : Z) : sm Store unit :=
  let! _ := truncate (ve_env v) size in
  if retain then publish_checkpoint (ve_env v) false
  else if fallback then publish (ve_env v) false
  else sret tt.

Definition vfs_truncate (v : VEnv) (size : Z) (c : Conn) : Z * Conn :=
  if size <? 0 then (SQLITE_IOERR_TRUNCATE, c)
  else if fi_managed (cn_file c) then
    if fi_read_only (cn_file c) then (SQLITE_READONLY, c)
    else
      let retain := uses_shm (fi_checkpoint (cn_file c)) in
      let fallback := bool_decide (fi_checkpoint (cn_file c) = FallbackFinishing) in
      let over := fun c => if fallback then on_file (set_checkpoint Idle) c else c in
      if ve_poisoned v then
        let '(_, c) := discard_owned_pending v SQLITE_IOERR_TRUNCATE c in (SQLITE_IOERR, over c)
      else
        let c := on_file (fun f => set_publication (pub_begin_write (fi_publication f)) f) c in
        match with_store v SQLITE_IOERR (write_result v SQLITE_IOERR_TRUNCATE) (truncate_store v retain fallback size) c with
        | (Ok _, c) =>
            (SQLITE_OK, over (if retain || fallback
                              then on_file (fun f => set_publication (require_sync (clear_owned (fi_publication f))) f) c else c))
        | (Err e, c) => let '(_, c) := discard_owned_pending v SQLITE_IOERR_TRUNCATE c in (e, over c)
        end
  else on_parent (parent_truncate size) c.

Definition full_sync (flags : Z) : bool := Z.land flags 15 =? SQLITE_SYNC_FULL.

Definition sync_parent (flags : Z) (c : Conn) : Z * Conn :=
  let '(rc, c) := on_parent (parent_sync flags) c in
  (rc, if (rc =? SQLITE_OK) && fi_managed (cn_file c)
       then on_file (fun f => set_publication (record_parent_sync (full_sync flags) (fi_publication f)) f) c else c).

Definition vfs_sync (v : VEnv) (flags : Z) (c : Conn) : Z * Conn :=
  let p := fi_publication (cn_file c) in
  if fi_managed (cn_file c) && (owns_pending p || needs_sync p) then
    match with_store v SQLITE_IOERR_FSYNC (write_result v SQLITE_IOERR_FSYNC)
            (if uses_shm (fi_checkpoint (cn_file c)) then publish_checkpoint_synced v else publish_synced v) c with
    | (Err e, c) => (e, c)
    | (Ok _, c) => sync_parent flags (on_file (fun f => set_publication (clear_pending (fi_publication f)) f) c)
    end
  else sync_parent flags c.

(** The size, when the code is [SQLITE_OK]. *)
Definition vfs_file_size (v : VEnv) (c : Conn) : (Z * Z) * Conn :=
  let c := on_file fallback_over c in
  if fi_managed (cn_file c) then
    if ve_poisoned v then ((SQLITE_IOERR_FSTAT, 0), c)
    else if st_pending_size (cn_store c) <=? 2 ^ 63 - 1 then ((SQLITE_OK, st_pending_size (cn_store c)), c)
    else ((SQLITE_IOERR_FSTAT, 0), c)
  else on_parent parent_file_size c.

Definition vfs_lock (v : VEnv) (level : Z) (c : Conn) : Z * Conn :=
  let c := on_file fallback_over c in
  let previous := fi_lock_level (cn_file c) in
  let '(rc, c) := on_parent (parent_lock level) c in
  if negb (rc =? SQLITE_OK) then (rc, c)
  else if (previous =? SQLITE_LOCK_NONE) && (level =? SQLITE_LOCK_SHARED) && fi_managed (cn_file c) then
    match with_store v SQLITE_IOERR_LOCK (sqlite_result v) (refresh (ve_env v)) c with
    | (Err e, c) => let '(_, c) := on_parent (parent_unlock SQLITE_LOCK_NONE) c in (e, c)
    | (Ok _, c) => (SQLITE_OK, on_file (set_lock_level level) c)
    end
  else (SQLITE_OK, on_file (set_lock_level level) c).

(** The parent lock is released whatever the store says. *)
Definition vfs_unlock (v : VEnv) (level : Z) (c : Conn) : Z * Conn :=
  let c := on_file fallback_over c in
  let below := level <? SQLITE_LOCK_RESERVED in
  let '(store_rc, c) := (if below then discard_owned_pending v SQLITE_IOERR_UNLOCK c else (SQLITE_OK, c)) in
  let '(rc, c) := on_parent (parent_unlock level) c in
  let c := if rc =? SQLITE_OK then on_file (set_lock_level level) c else c in
  let c := if below && (store_rc =? SQLITE_OK) then on_file (set_publication pub_reset) c else c in
  (if store_rc =? SQLITE_OK then rc else store_rc, c).

Definition database_has_moved (v : VEnv) (s : Store) : result StoreError bool :=
  let* present := ve_path v in
  if negb present then Ok true
  else if negb (env_inode_changed (ve_env v)) then Ok false
  else match read_active_header (env_path_file (ve_env v)) with
       | Ok header => Ok (negb (bytes_eqb (ah_database_id header) (ah_database_id (af_header (st_active s)))))
       | Err _ => Ok true
       end.

Definition vfs_has_moved (v : VEnv) (c : Conn) : result Z bool :=
  let* parent_moved := parent_has_moved (cn_parent c) in
  if negb (fi_managed (cn_file c)) then Err SQLITE_IOERR
  else if ve_poisoned v then Err SQLITE_IOERR
  else
    let* moved := map_err (sqlite_result v) (database_has_moved v (cn_store c)) in
    Ok (parent_moved || moved).

(** ** File controls *)

Definition fcntl_ckpt_start (v : VEnv) (c : Conn) : option Z * Conn :=
  let c := on_file fallback_over c in
  if bool_decide (fi_checkpoint (cn_file c) = Idle) then
    let c := on_file (set_checkpoint FallbackWriting) c in
    match with_store v SQLITE_IOERR (sqlite_result v) (begin_checkpoint_publication (ve_env v)) c with
    | (Err e, c) => (Some e, c)
    | (Ok _, c) => (None, c)
    end
  else (None, c).

Definition fcntl_sync (v : VEnv) (c : Conn) : option Z * Conn :=
  let c := on_file (fun f => set_publication (require_sync (fi_publication f)) f) c in
  if owns_pending (fi_publication (cn_file c)) then
    match with_store v SQLITE_IOERR (sqlite_result v) (publish (ve_env v) false) c with
    | (Err e, c) => (Some e, c)
    | (Ok _, c) => (None, on_file (fun f => set_publication (clear_owned (fi_publication f)) f) c)
    end
  else (None, c).

Definition fcntl_ckpt_done (v : VEnv) (c : Conn) : option Z * Conn :=
  let fallback := bool_decide (fi_checkpoint (cn_file c) = FallbackWriting) in
  let c := if bool_decide (fi_checkpoint (cn_file c) = ShmWriting) then on_file (set_checkpoint ShmFinishing) c else c in
  let '(_, c) := discard_owned_pending v SQLITE_IOERR c in
  if fallback then
    let '(_, c) := with_store v SQLITE_IOERR (sqlite_result v) finish_checkpoint c in
    (None, on_file (set_checkpoint FallbackFinishing) c)
  else (None, c).

Definition fcntl_commit_phasetwo (v : VEnv) (c : Conn) : option Z * Conn :=
  let p := fi_publication (cn_file c) in
  let reset := on_file (set_publication pub_reset) in
  if owns_pending p then
    match with_store v SQLITE_IOERR (sqlite_result v)
            (if negb (bool_decide (pu_main_sync p = SyncNone)) then publish_synced v else publish (ve_env v) false) c with
    | (Err e, c) => (Some e, c)
    | (Ok _, c) => (None, reset c)
    end
  else (None, reset c).

(** [None]: the operation is passed on. *)
Definition vfs_file_control (v : VEnv) (operation : Z) (c : Conn) : option Z * Conn :=
  if negb (fi_managed (cn_file c)) then (None, c)
  else if operation =? SQLITE_FCNTL_CKPT_START then fcntl_ckpt_start v c
  else if operation =? SQLITE_FCNTL_CKPT_DONE then fcntl_ckpt_done v c
  else
    let c := on_file fallback_over c in
    if operation =? SQLITE_FCNTL_SYNC then fcntl_sync v c
    else if operation =? SQLITE_FCNTL_COMMIT_PHASETWO then fcntl_commit_phasetwo v c
    else if (operation =? SQLITE_FCNTL_SIZE_HINT) || (operation =? SQLITE_FCNTL_CHUNK_SIZE) then (Some SQLITE_OK, c)
    else (None, c).

(** ** Shared-memory locks *)

Definition checkpoint_slot (offset count : Z) : bool := (offset =? WAL_CHECKPOINT_LOCK) && (count =? 1).

(** The checkpoint lock is given up: its lease ends. *)
Definition shm_cleanup (v : VEnv) (c : Conn) : Z * Conn :=
  let c := on_file (set_checkpoint Idle) c in
  let '(rc, c) := discard_owned_pending v SQLITE_IOERR_SHMLOCK c in
  let '(rc, c) :=
    (if fi_managed (cn_file c) then
       match with_store v SQLITE_IOERR_SHMLOCK (sqlite_result v) finish_checkpoint c with
       | (Ok _, c) => (rc, c)
       | (Err _, c) => (if rc =? SQLITE_OK then SQLITE_IOERR_SHMLOCK else rc, c)
       end
     else (rc, c)) in
  (rc, if rc =? SQLITE_OK then on_file (set_publication pub_reset) c else c).

Definition vfs_shm_lock (v : VEnv) (offset count flags : Z) (c : Conn) : Z * Conn :=
  if negb (parent_supports_shm (cn_parent c)) then (SQLITE_IOERR_SHMLOCK, c)
  else
    let '(cleanup_rc, c) :=
      (if has_flag flags SQLITE_SHM_UNLOCK && has_flag flags SQLITE_SHM_EXCLUSIVE && checkpoint_slot offset count
          && uses_shm (fi_checkpoint (cn_file c))
       then shm_cleanup v c else (SQLITE_OK, c)) in
    let '(rc, c) := on_parent (parent_shm_lock offset count flags) c in
    let result := fun c : Conn => (if cleanup_rc =? SQLITE_OK then rc else cleanup_rc, c) in
    let checkpoint_lock := (rc =? SQLITE_OK) && has_flag flags SQLITE_SHM_LOCK && has_flag flags SQLITE_SHM_EXCLUSIVE
                           && checkpoint_slot offset count in
    if (rc =? SQLITE_OK) && has_flag flags SQLITE_SHM_LOCK && fi_managed (cn_file c) then
      match with_store v SQLITE_IOERR_SHMLOCK (sqlite_result v)
              (if checkpoint_lock then begin_checkpoint_publication (ve_env v) else refresh (ve_env v)) c with
      | (Err e, c) =>
          let unlock := Z.lor (Z.land flags (Z.lnot SQLITE_SHM_LOCK)) SQLITE_SHM_UNLOCK in
          let '(_, c) := on_parent (parent_shm_lock offset count unlock) c in (e, c)
      | (Ok _, c) => result (if checkpoint_lock then on_file (set_checkpoint ShmWriting) c else c)
      end
    else result c.

(** ** The callbacks of the C boundary *)

(** [null]: the buffer is a null pointer. *)
Definition x_read (v : VEnv) (null : bool) (amount offset : Z) (c : Conn) : option (Z * option bytes) * Conn :=
  if (amount <? 0) || (offset <? 0) || null && negb (amount =? 0) then (Some (SQLITE_IOERR_READ, None), c)
  else if amount =? 0 then (Some (SQLITE_OK, None), c)
  else vfs_read v amount offset c.

(** [input]: what the buffer holds. *)
Definition x_write (v : VEnv) (null : bool) (amount : Z) (input : bytes) (offset : Z) (c : Conn) : Z * Conn :=
  if (amount <? 0) || (offset <? 0) || null && negb (amount =? 0) then (SQLITE_IOERR_WRITE, c)
  else if amount =? 0 then (SQLITE_OK, c)
  else vfs_write v (slice input 0 amount) offset c.

(** The file is gone whatever the result. *)
Definition x_close (v : VEnv) (c : Conn) : Z * Conn :=
  let '(state_rc, c) := vfs_close v c in
  let '(rc, c) := on_parent parent_close c in
  (if state_rc =? SQLITE_OK then rc else state_rc, c).

(** A callback of SQLite on an open file. *)
Inductive Callback : Type :=
| XRead (null : bool) (amount offset : Z)
| XWrite (null : bool) (amount : Z) (input : bytes) (offset : Z)
| XTruncate (size : Z)
| XSync (flags : Z)
| XFileSize
| XLock (level : Z)
| XUnlock (level : Z)
| XShmLock (offset count flags : Z)
| XFileControl (operation : Z)
| XClose.

(** What it does to the connection. *)
Definition run_callback (v : VEnv) (k : Callback) (c : Conn) : Conn :=
  match k with
  | XRead null amount offset => snd (x_read v null amount offset c)
  | XWrite null amount input offset => snd (x_write v null amount input offset c)
  | XTruncate size => snd (vfs_truncate v size c)
  | XSync flags => snd (vfs_sync v flags c)
  | XFileSize => snd (vfs_file_size v c)
  | XLock level => snd (vfs_lock v level c)
  | XUnlock level => snd (vfs_unlock v level c)
  | XShmLock offset count flags => snd (vfs_shm_lock v offset count flags c)
  | XFileControl operation => snd (vfs_file_control v operation c)
  | XClose => snd (x_close v c)
  end.
End Vfs.
