(* ===== verification/VfsProofs.v ===== *)
(** Correctness of the VFS: no sequence of callbacks leaves a checkpoint lease or pending writes
    behind without a file that will give them up; contention is never reported from a write;
    callbacks on a database in a transaction are operations on a plain file, a failed one rolls the
    transaction back, and a commit publishes. *)

From S2P Require Import Prelude Domain Layout Format Segment Active Store StoreProofs StoreRead StoreCommit Vfs.
From stdpp Require Import base strings gmap list sorting.
From Stdlib Require Import ZArith Lia.
Open Scope Z_scope.

Section Store.
Context {HS : Hashes} {V : Type} {VV : SealedView V}.

Abbreviation Store := (Store V).

(** ** What store operations do to leases and pending writes *)

(** Code that starts no checkpoint, whatever its result. *)
Definition leaseless {A} (m : sm Store A) : Prop := forall s, st_owner (snd (m s)) = Checkpoint -> st_owner s = Checkpoint.

(** Code that starts no transaction: what is pending afterwards was pending before. *)
Definition quiet {A} (m : sm Store A) : Prop :=
  forall s, has_pending (snd (m s)) = true -> has_pending s = true /\ page_size (snd (m s)) = page_size s.

Lemma leaseless_bind {A B} (m : sm Store A) (k : A -> sm Store B) :
  leaseless m -> (forall a, leaseless (k a)) -> leaseless (sbind m k).
Proof.
  intros Hm Hk s. specialize (Hm s). unfold sbind. destruct (m s) as [[a|e] s1]; cbn in *; [|done].
  intros H. apply Hm. by eapply Hk.
Qed.

Lemma quiet_bind {A B} (m : sm Store A) (k : A -> sm Store B) :
  quiet m -> (forall a, quiet (k a)) -> quiet (sbind m k).
Proof.
  intros Hm Hk s. specialize (Hm s). unfold sbind. destruct (m s) as [[a|e] s1]; cbn in *; [|done].
  intros H. apply Hk in H as [H ->]. by apply Hm.
Qed.

Lemma leaseless_sfold {A} (f : A -> sm Store unit) l : (forall a, leaseless (f a)) -> leaseless (sfold f l).
Proof. intros Hf. induction l as [|a l IH]; cbn [sfold]; [by intros s|]. by apply leaseless_bind. Qed.

Create HintDb vfs.

(** Follows the structure of monadic code. *)
Ltac follow :=
  repeat match goal with
  | |- leaseless (sbind _ _) => apply leaseless_bind; [|intros ?]
  | |- leaseless (sfold _ _) => apply leaseless_sfold; intros ?
  | |- quiet (sbind _ _) => apply quiet_bind; [|intros ?]
  | |- leaseless _ => progress auto with vfs
  | |- quiet _ => progress auto with vfs
  | |- _ (if ?c then _ else _) => destruct c
  | |- _ (match ?x with _ => _ end) => destruct x
  | |- leaseless _ => intros ?; cbn; done
  | |- quiet _ => intros ?; cbn; done
  end.

Lemma release_leaseless (s : Store) : st_owner (release_publication s) = Checkpoint -> st_owner s = Checkpoint.
Proof. unfold release_publication. case_bool_decide; [done|by intros]. Qed.

Lemma release_pending (s : Store) : has_pending (release_publication s) = has_pending s /\ page_size (release_publication s) = page_size s.
Proof. unfold release_publication. by case_bool_decide. Qed.

Lemma reload_leaseless e : leaseless (reload e).
Proof. unfold reload, load_local. follow. Qed.
Lemma reload_quiet e : quiet (reload e).
Proof. unfold reload, load_local. follow. Qed.
Hint Resolve reload_leaseless reload_quiet : vfs.

Lemma cut_tail_leaseless : leaseless cut_tail.
Proof. unfold cut_tail. follow. Qed.
Lemma cut_tail_quiet : quiet cut_tail.
Proof. unfold cut_tail. follow. Qed.
Hint Resolve cut_tail_leaseless cut_tail_quiet : vfs.

Lemma begin_write_leaseless e : leaseless (begin_write e).
Proof.
  unfold begin_write. follow. intros s. pose proof (leaseless_bind (reload e) (fun _ => cut_tail)) as H.
  specialize (H ltac:(follow) ltac:(intros; follow) (set_owner Transaction s)). cbn in H.
  destruct (sbind _ _ _) as [[u|err] s']; cbn in *; [by intros ?%H|by intros ?%release_leaseless%H].
Qed.

Lemma begin_write_quiet e : quiet (begin_write e).
Proof.
  unfold begin_write. follow. intros s. pose proof (quiet_bind (reload e) (fun _ => cut_tail)) as H.
  specialize (H ltac:(follow) ltac:(intros; follow) (set_owner Transaction s)).
  destruct (sbind _ _ _) as [[u|err] s']; cbn in *; [done|].
  destruct (release_pending s') as [-> ->]. done.
Qed.
Hint Resolve begin_write_leaseless begin_write_quiet : vfs.

Lemma refresh_leaseless e : leaseless (refresh e).
Proof. unfold refresh. follow. Qed.
Lemma refresh_quiet e : quiet (refresh e).
Proof. unfold refresh. follow. Qed.

Lemma write_page_leaseless n page : leaseless (write_mutable_page n page).
Proof. unfold write_mutable_page, save_original, overwrite_active_record, append_active_record. follow. Qed.
Hint Resolve write_page_leaseless : vfs.

Lemma write_at_leaseless e offset input : leaseless (write_at e offset input).
Proof. unfold write_at, write_bootstrap, ensure_active, install_active, write_mutable_pages, write_span. follow. Qed.

Lemma truncate_leaseless e size : leaseless (truncate e size).
Proof. unfold truncate, truncate_pages. follow. Qed.

Lemma transition_pending o (s : Store) : has_pending (transition o s) = has_pending s /\ page_size (transition o s) = page_size s.
Proof. unfold transition. by destruct (is_locked s). Qed.

(** What a publication does: it starts a checkpoint only when it is told to keep the lock, it
    leaves nothing pending when it succeeds, and what it was to publish when it fails. *)
Lemma publish_leaseless e durable : leaseless (publish_inner e durable false).
Proof.
  unfold publish_inner, commit_state. follow; intros s' ?%release_leaseless; done.
Qed.

Lemma commit_settles e state raw_end retain (s : Store) : has_pending (commit_state e state raw_end retain s) = false.
Proof.
  unfold commit_state. destruct retain; [rewrite (proj1 (transition_pending _ _))|rewrite (proj1 (release_pending _))]; reflexivity.
Qed.

Lemma publish_spec e durable retain (s : Store) r s' :
  publish_inner e durable retain s = (r, s') -> has_pending s' = true ->
  page_size s' = 0 \/ (exists err, r = Err err) /\ has_pending s = true /\ page_size s' = page_size s.
Proof.
  intros E Hp. unfold publish_inner in E. unfold sbind at 1, sget at 1 in E.
  destruct (has_pending s) eqn:Eh; cbn [negb] in E.
  - destruct (Z.eqb_spec (page_size s) 0) as [Hz|].
    { left. destruct (_ =? 0); injection E as <- <-; [|done]. destruct retain; [done|by rewrite (proj2 (release_pending _))]. }
    apply sbind_inv in E as [(txid & s1 & E1 & E)|(err & E1 & ->)]; [|right; injection E1 as _ <-; eauto].
    injection E1 as _ <-.
    apply sbind_inv in E as [(u & s1 & E1 & E)|(err & E1 & ->)]; [|right; injection E1 as _ <-; eauto].
    injection E1 as _ <-.
    apply sbind_inv in E as [(q & s1 & E1 & E)|(err & E1 & ->)]; [|right; injection E1 as _ <-; eauto].
    injection E1 as _ <-. unfold sbind, smod, slift in E. injection E as _ <-. by rewrite commit_settles in Hp.
  - assert (quiet (sbind (if durable then sbind (begin_write e) (fun _ => slift (if env_data_sync e then Ok tt else Err Io)) else sret tt)
                     (fun _ => smod (fun s => if retain then s else release_publication s)))) as Hq.
    { follow. intros t. cbn. destruct retain; [done|]. by destruct (release_pending t) as [-> ->]. }
    specialize (Hq s). rewrite E in Hq. apply Hq in Hp as [? ?]. congruence.
Qed.

Lemma begin_checkpoint_spec e (s : Store) r s' :
  begin_checkpoint_publication e s = (r, s') ->
  (forall err, r = Err err -> st_owner s' = Checkpoint -> st_owner s = Checkpoint) /\
  (has_pending s' = true -> has_pending s = true /\ page_size s' = page_size s).
Proof.
  intros E. assert (quiet (begin_checkpoint_publication e)) as Hq.
  { unfold begin_checkpoint_publication. follow. intros t. cbn. by destruct (transition_pending Checkpoint t) as [-> ->]. }
  specialize (Hq s). rewrite E in Hq. split; [|exact Hq]. intros err -> Ho.
  unfold begin_checkpoint_publication in E. unfold sbind at 1, sget at 1 in E.
  case_bool_decide; [done|]. destruct (_ || _); [by injection E as _ <-|].
  apply sbind_inv in E as [([] & s1 & E1 & E)|(x & E1 & _)]; [done|].
  pose proof (begin_write_leaseless e s) as Hl. rewrite E1 in Hl. by apply Hl.
Qed.

Lemma released_lease o : released o <> Checkpoint.
Proof. by destruct o. Qed.

(** Rolling back gives up the lock and leaves nothing pending. *)
Lemma discard_gives_up (s : Store) :
  st_owner (discard_mutable_pending s) <> Checkpoint /\ has_pending (discard_mutable_pending s) = false.
Proof. unfold discard_mutable_pending. cbn zeta. rewrite release_shape. split; [apply released_lease|reflexivity]. Qed.

Lemma finish_gives_up (s : Store) :
  st_owner (finish_checkpoint_publication s) <> Checkpoint /\
  has_pending (finish_checkpoint_publication s) = has_pending s /\
  page_size (finish_checkpoint_publication s) = page_size s.
Proof. unfold finish_checkpoint_publication. cbn zeta. rewrite release_shape. split; [apply released_lease|done]. Qed.
End Store.

Section Connection.
Context {HS : Hashes} {V : Type} {VV : SealedView V} {P : Type} {PV : ParentVfs P}.

Abbreviation Store := (Store V).
Abbreviation VEnv := (VEnv V).
Abbreviation Conn := (Conn V P).

(** ** Leases and pending writes have an owner *)

Definition holds (f : FileState) : bool := holds_publication (fi_checkpoint f).
Definition owns (f : FileState) : bool := owns_pending (fi_publication f).

(** What a callback of one file does to the obligations of the store: a checkpoint that is open
    afterwards is this file's, or was open before and not this file's; so is what is pending, once
    the page size of the database is known. *)
Record conn_step (c c' : Conn) : Prop := {
  cs_managed : fi_managed (cn_file c') = fi_managed (cn_file c);
  cs_lease : st_owner (cn_store c') = Checkpoint ->
    holds (cn_file c') = true \/ st_owner (cn_store c) = Checkpoint /\ holds (cn_file c) = false;
  cs_pending : has_pending (cn_store c') = true -> page_size (cn_store c') = 0 \/ owns (cn_file c') = true \/
    has_pending (cn_store c) = true /\ owns (cn_file c) = false /\ page_size (cn_store c') = page_size (cn_store c);
}.

Lemma step_refl c : conn_step c c.
Proof. split; [done|..]; intros H; rewrite H; [destruct (holds _)|destruct (owns _)]; auto. Qed.

Lemma step_trans a b c : conn_step a b -> conn_step b c -> conn_step a c.
Proof.
  intros [M1 L1 P1] [M2 L2 P2]. split; [congruence|..].
  - intros [H|[H1 H2]]%L2; [by left|]. destruct (L1 H1) as [H3|H3]; [congruence|by right].
  - intros [H|[H|(H1 & H2 & H3)]]%P2; [by left|by right; left|]. rewrite H3.
    destruct (P1 H1) as [H4|[H4|H4]]; [by left|congruence|by right; right].
Qed.

#[local] Instance conn_step_preorder : PreOrder conn_step.
Proof. split; [exact step_refl|exact step_trans]. Qed.

(** A change of the file that keeps its obligations. *)
Lemma step_file g c :
  fi_managed (g (cn_file c)) = fi_managed (cn_file c) -> (holds (cn_file c) = true -> holds (g (cn_file c)) = true) ->
  (owns (cn_file c) = true -> owns (g (cn_file c)) = true) -> conn_step c (on_file g c).
Proof.
  intros Hm Hh Ho. split; [done|..]; cbn [on_file cn_file cn_store]; intros H; rewrite H.
  - destruct (holds (cn_file c)); [left; by apply Hh|by right].
  - destruct (owns (cn_file c)); [right; left; by apply Ho|by right; right].
Qed.

Lemma step_fallback_over c : conn_step c (on_file fallback_over c).
Proof.
  apply step_file; unfold fallback_over, holds, owns; case_bool_decide as H; try done. by rewrite H.
Qed.

Lemma step_parent {A} (m : P -> A * P) c a c' : on_parent m c = (a, c') -> conn_step c c'.
Proof.
  unfold on_parent. destruct (m (cn_parent c)) as [x p]. intros [= _ <-]. destruct (step_refl c) as [H1 H2 H3]. by split.
Qed.

(** Store code run with the file as it is. *)
Lemma step_store {A} v p code (m : sm Store A) c r c' :
  ve_poisoned v = false -> leaseless m -> quiet m -> with_store v p code m c = (r, c') -> conn_step c c'.
Proof.
  intros Hv Hl Hq. unfold with_store. rewrite Hv. specialize (Hl (cn_store c)). specialize (Hq (cn_store c)).
  destruct (m (cn_store c)) as [x s]. cbn [snd] in *. intros [= _ <-]. split; cbn [cn_file cn_store]; [done|..].
  - intros H%Hl. rewrite H. destruct (holds (cn_file c)); auto.
  - intros [H ->]%Hq. rewrite H. destruct (owns (cn_file c)); auto.
Qed.

(** A publication, after which the file may forget what it had pending. *)
Lemma step_publish v p code durable retain g c r c' :
  ve_poisoned v = false -> (retain = true -> holds (cn_file c) = true) ->
  with_store v p code (publish_inner (ve_env v) durable retain) c = (r, c') ->
  (forall f, fi_managed (g f) = fi_managed f) -> (forall f, fi_checkpoint (g f) = fi_checkpoint f) ->
  conn_step c (match r with Ok _ => on_file g c' | Err _ => c' end).
Proof.
  intros Hv Hr E Hm Hk. unfold with_store in E. rewrite Hv in E.
  destruct (publish_inner _ _ _ (cn_store c)) as [x s] eqn:Ep. injection E as <- <-.
  assert (st_owner s = Checkpoint -> holds (cn_file c) = true \/ st_owner (cn_store c) = Checkpoint /\ holds (cn_file c) = false) as Hl.
  { intros Ho. destruct (holds (cn_file c)) eqn:Eh; [by left|right]. split; [|done]. destruct retain; [by specialize (Hr eq_refl)|].
    pose proof (publish_leaseless (ve_env v) durable (cn_store c)) as H. rewrite Ep in H. by apply H. }
  pose proof (publish_spec _ _ _ _ _ _ Ep) as Hp.
  destruct x as [u|err]; cbn [map_err]; (split; cbn [on_file cn_file cn_store]; [by rewrite ?Hm|unfold holds in *; by rewrite ?Hk|]).
  - intros H. destruct (Hp H) as [|([err [=]] & _)]. by left.
  - intros H. destruct (Hp H) as [|(_ & ? & ?)]; [by left|right]. destruct (owns (cn_file c)); auto.
Qed.

Lemma step_discard v p c rc c' :
  ve_poisoned v = false -> discard_owned_pending v p c = (rc, c') ->
  fi_managed (cn_file c) = true ->
  conn_step c c' /\ rc = SQLITE_OK /\ owns (cn_file c') = false /\ fi_checkpoint (cn_file c') = fi_checkpoint (cn_file c).
Proof.
  intros Hv E Hm. unfold discard_owned_pending in E. unfold owns at 1.
  destruct (owns_pending (fi_publication (cn_file c))) eqn:Eo; cbn [negb] in E.
  - rewrite Hm in E. cbn [negb] in E. unfold with_store, discard_pending, smod in E. rewrite Hv in E. cbn [map_err] in E.
    injection E as <- <-. destruct (discard_gives_up (cn_store c)) as [H1 H2]. split; [|done].
    split; cbn [on_file cn_file cn_store]; [done|done|by rewrite H2].
  - injection E as <- <-. split; [reflexivity|done].
Qed.

(** Giving up the checkpoint lease, after which the file may forget it. *)
Lemma step_finish v p code g c :
  ve_poisoned v = false -> (forall f, fi_managed (g f) = fi_managed f) -> (forall f, fi_publication (g f) = fi_publication f) ->
  exists u c', with_store v p code finish_checkpoint c = (Ok u, c') /\ conn_step c (on_file g c') /\ cn_file c' = cn_file c.
Proof.
  intros Hv Hm Hp. unfold with_store, finish_checkpoint, smod. rewrite Hv. cbn [map_err]. do 2 eexists. split; [done|].
  destruct (finish_gives_up (cn_store c)) as (H1 & H2 & H3).
  split; [|done]. split; cbn [on_file cn_file cn_store]; [by rewrite Hm|done|]. rewrite H2, H3. unfold owns. rewrite Hp. intros ->.
  destruct (owns_pending _); auto.
Qed.

(** *** Callbacks *)

Context (v : VEnv) (Hv : ve_poisoned v = false).

Lemma step_write_store c g r c' p code active data offset :
  (active = true -> holds (cn_file c) = true) -> owns (cn_file c) = true ->
  with_store v p code (write_store v active data offset) c = (r, c') ->
  (forall f, fi_managed (g f) = fi_managed f) -> (forall f, fi_checkpoint (g f) = fi_checkpoint f) ->
  conn_step c c' /\ (forall n, r = Ok n -> active = true -> n = zlen data -> conn_step c (on_file g c')).
Proof.
  intros Ha Ho E Hm Hk. unfold with_store in E. rewrite Hv in E.
  destruct (write_store v active data offset (cn_store c)) as [x s] eqn:Ew. injection E as <- <-.
  unfold write_store in Ew.
  assert ((st_owner s = Checkpoint -> active = true \/ st_owner (cn_store c) = Checkpoint) /\
          (forall n, x = Ok n -> active = true -> n = zlen data -> has_pending s = true -> page_size s = 0)) as [Hl Hp].
  { pose proof (write_at_leaseless (ve_env v) offset data (cn_store c)) as Hw.
    apply sbind_inv in Ew as [(n & s1 & E1 & E)|(err & E1 & ->)]; rewrite E1 in Hw; cbn [snd] in Hw; [|by split; auto].
    destruct ((n =? zlen data) && active) eqn:En.
    - apply andb_true_iff in En as [En ->]. split; [by left|]. intros k ? _ ? Hs.
      apply sbind_inv in E as [([] & s2 & E2 & E3)|(err & E2 & ->)]; [|done]. injection E3 as _ <-.
      by destruct (publish_spec (ve_env v) false true _ _ _ E2 Hs) as [|([err [=]] & _)].
    - injection E as <- <-. split; [by auto|]. intros k [= ->] -> ->. by rewrite Z.eqb_refl in En. }
  assert (st_owner s = Checkpoint -> holds (cn_file c) = true \/ st_owner (cn_store c) = Checkpoint /\ holds (cn_file c) = false) as Hl'.
  { intros H. destruct (holds (cn_file c)); [by left|right]. destruct (Hl H) as [?%Ha|]; done. }
  split; [split; cbn [cn_file cn_store]; auto|]. intros n Hn Hac Hz. destruct x as [k|]; [|done]. injection Hn as ->.
  split; cbn [on_file cn_file cn_store]; [by rewrite Hm|unfold holds in *; by rewrite Hk|]. intros H. left. by eapply Hp.
Qed.

(** A failed write or truncation ends with the rollback of what the file has pending. *)
Lemma step_roll_back p c c1 :
  conn_step c c1 -> fi_managed (cn_file c) = true -> conn_step c (snd (discard_owned_pending v p c1)).
Proof.
  intros H1 Hm. destruct (discard_owned_pending v p c1) as [rc c2] eqn:Ed.
  apply step_discard in Ed as [Hs _]; [by etrans|done|by rewrite (cs_managed _ _ H1)].
Qed.

Lemma managed_fallback (c : Conn) : fi_managed (cn_file (on_file fallback_over c)) = fi_managed (cn_file c).
Proof. cbn. unfold fallback_over. by case_bool_decide. Qed.

Lemma writing_holds f : is_writing (fi_checkpoint f) = true -> holds f = true.
Proof. unfold holds. by destruct (fi_checkpoint f). Qed.

Lemma begin_owns c : conn_step c (on_file (fun f => set_publication (pub_begin_write (fi_publication f)) f) c) /\
  owns (cn_file (on_file (fun f => set_publication (pub_begin_write (fi_publication f)) f) c)) = true.
Proof.
  assert (forall f, owns (set_publication (pub_begin_write (fi_publication f)) f) = true) as H
    by (intros f; unfold owns, owns_pending; cbn; by destruct (needs_sync _)).
  split; [apply step_file; auto|apply H].
Qed.

Lemma step_write data offset c :
  fi_managed (cn_file c) = true -> conn_step c (snd (vfs_write v data offset c)).
Proof.
  intros Hm. unfold vfs_write. rewrite Hm. destruct (fi_read_only _); [reflexivity|]. rewrite Hv.
  etrans; [apply step_fallback_over|]. rewrite <- managed_fallback in Hm. revert Hm. generalize (on_file fallback_over c) as d.
  clear c. intros c Hm. destruct (begin_owns c) as [Hb Ho]. etrans; [exact Hb|]. set (d := on_file _ c) in *.
  change (fi_checkpoint (cn_file c)) with (fi_checkpoint (cn_file d)). assert (fi_managed (cn_file d) = true) as Hd by done.
  clearbody d. clear Hb Hm c. destruct (with_store _ _ _ _ d) as [[n|err] c1] eqn:E;
    (edestruct (step_write_store d (fun f => set_publication (clear_owned (fi_publication f)) f)) as [H1 H2];
      [intros; by apply writing_holds|exact Ho|exact E|done|done|]).
  - destruct (Z.eqb_spec n (zlen data)) as [Hn|Hn].
    + destruct (is_writing _) eqn:Ew; [by eapply H2|done].
    + pose proof (step_roll_back SQLITE_IOERR_WRITE d c1 H1 Hd) as H. by destruct (discard_owned_pending _ _ c1).
  - pose proof (step_roll_back SQLITE_IOERR_WRITE d c1 H1 Hd) as H. by destruct (discard_owned_pending _ _ c1).
Qed.

Lemma step_truncate_store c g r c' p code retain fallback size :
  (retain = true -> holds (cn_file c) = true) -> owns (cn_file c) = true ->
  with_store v p code (truncate_store v retain fallback size) c = (r, c') ->
  (forall f, fi_managed (g f) = fi_managed f) -> (forall f, fi_checkpoint (g f) = fi_checkpoint f) ->
  conn_step c c' /\ (r = Ok tt -> retain || fallback = true -> conn_step c (on_file g c')).
Proof.
  intros Ha Ho E Hm Hk. unfold with_store in E. rewrite Hv in E.
  destruct (truncate_store v retain fallback size (cn_store c)) as [x s] eqn:Ew. injection E as <- <-.
  unfold truncate_store in Ew.
  assert ((st_owner s = Checkpoint -> retain = true \/ st_owner (cn_store c) = Checkpoint) /\
          (x = Ok tt -> retain || fallback = true -> has_pending s = true -> page_size s = 0)) as [Hl Hp].
  { pose proof (truncate_leaseless (ve_env v) size (cn_store c)) as Hw.
    apply sbind_inv in Ew as [([] & s1 & E1 & E)|(err & E1 & ->)]; rewrite E1 in Hw; cbn [snd] in Hw; [|by split; auto].
    destruct retain.
    - split; [by left|]. intros -> _ Hs. by destruct (publish_spec (ve_env v) false true _ _ _ E Hs) as [|([err [=]] & _)].
    - destruct fallback; [|injection E as <- <-; by split; auto].
      pose proof (publish_leaseless (ve_env v) false s1) as Hu. unfold publish in E. rewrite E in Hu. split; [by auto|].
      intros -> _ Hs. by destruct (publish_spec _ _ _ _ _ _ E Hs) as [|([err [=]] & _)]. }
  assert (st_owner s = Checkpoint -> holds (cn_file c) = true \/ st_owner (cn_store c) = Checkpoint /\ holds (cn_file c) = false) as Hl'.
  { intros H. destruct (holds (cn_file c)); [by left|right]. destruct (Hl H) as [?%Ha|]; done. }
  split; [split; cbn [cn_file cn_store]; auto|]. intros Hn Hac. destruct x as [[]|]; [|done].
  split; cbn [on_file cn_file cn_store]; [by rewrite Hm|unfold holds in *; by rewrite Hk|]. intros H. left. by eapply Hp.
Qed.

Lemma discard_checkpoint p (c : Conn) : fi_checkpoint (cn_file (snd (discard_owned_pending v p c))) = fi_checkpoint (cn_file c).
Proof.
  unfold discard_owned_pending, with_store. rewrite Hv. destruct (negb (owns_pending _)); [done|]. destruct (negb _); done.
Qed.

Lemma with_store_file {A} p code (m : sm Store A) (c : Conn) r c' : with_store v p code m c = (r, c') -> cn_file c' = cn_file c.
Proof. unfold with_store. destruct (ve_poisoned v); [by intros [= _ <-]|]. destruct (m _). by intros [= _ <-]. Qed.

(** The end of a fallback checkpoint gives up no lease. *)
Lemma step_over c c1 :
  conn_step c c1 ->
  conn_step c (if bool_decide (fi_checkpoint (cn_file c1) = FallbackFinishing) then on_file (set_checkpoint Idle) c1 else c1).
Proof.
  intros H. case_bool_decide as Hk; [|done]. etrans; [exact H|]. apply step_file; unfold holds; [done| |done]. by rewrite Hk.
Qed.

Lemma step_truncate size c :
  fi_managed (cn_file c) = true -> conn_step c (snd (vfs_truncate v size c)).
Proof.
  intros Hm. unfold vfs_truncate. destruct (_ <? 0); [reflexivity|]. rewrite Hm. destruct (fi_read_only _); [reflexivity|]. rewrite Hv.
  destruct (begin_owns c) as [Hb Ho]. etrans; [exact Hb|]. set (d := on_file _ c) in *.
  change (fi_checkpoint (cn_file c)) with (fi_checkpoint (cn_file d)). assert (fi_managed (cn_file d) = true) as Hd by done.
  clearbody d. clear Hb Hm c. destruct (with_store _ _ _ _ d) as [[[]|err] c1] eqn:E;
    (destruct (fun X => step_truncate_store d (fun f => set_publication (require_sync (clear_owned (fi_publication f))) f)
       _ _ _ _ _ _ _ X Ho E (fun _ => eq_refl) (fun _ => eq_refl)) as [H1 H2];
      [intros Hu; unfold holds, holds_publication; by rewrite Hu|]);
    pose proof (with_store_file _ _ _ _ _ _ E) as Hf.
  - cbn [snd]. set (c2 := if _ || _ then _ else c1). assert (fi_checkpoint (cn_file d) = fi_checkpoint (cn_file c2)) as ->.
    { rewrite <- Hf. unfold c2. by destruct (_ || _). }
    apply step_over. unfold c2. destruct (_ || _) eqn:Ea; [by apply H2|done].
  - pose proof (step_roll_back SQLITE_IOERR_TRUNCATE d c1 H1 Hd) as H. pose proof (discard_checkpoint SQLITE_IOERR_TRUNCATE c1) as Hk.
    rewrite Hf in Hk. rewrite <- Hk. destruct (discard_owned_pending _ _ c1) as [rc c2]. by apply step_over.
Qed.

Lemma step_sync_parent flags c : conn_step c (snd (sync_parent flags c)).
Proof.
  unfold sync_parent. destruct (on_parent _ c) as [rc c1] eqn:E. apply step_parent in E. etrans; [exact E|].
  cbn [snd]. destruct (_ && _); [|reflexivity]. by apply step_file.
Qed.

Lemma step_sync flags c : fi_managed (cn_file c) = true -> conn_step c (snd (vfs_sync v flags c)).
Proof.
  intros Hm. unfold vfs_sync. rewrite Hm. cbn [andb]. destruct (_ || _); [|apply step_sync_parent].
  assert ((if uses_shm (fi_checkpoint (cn_file c)) then publish_checkpoint_synced v else publish_synced v) =
          publish_inner (ve_env v) true (uses_shm (fi_checkpoint (cn_file c)))) as -> by (by destruct (uses_shm _)).
  destruct (with_store _ _ _ _ c) as [[[]|err] c1] eqn:E; cbn [snd];
    (destruct (fun X => step_publish v _ _ _ _ (fun f => set_publication (clear_pending (fi_publication f)) f) _ _ _ Hv X E
       (fun _ => eq_refl) (fun _ => eq_refl)) as [H1 H2 H3]; [unfold holds, holds_publication; by intros ->|]); [|by split].
  etrans; [split; [exact H1|exact H2|exact H3]|]. apply step_sync_parent.
Qed.

Lemma step_lock level c : fi_managed (cn_file c) = true -> conn_step c (snd (vfs_lock v level c)).
Proof.
  intros Hm. unfold vfs_lock. etrans; [apply step_fallback_over|]. generalize (on_file fallback_over c) as d. clear Hm c. intros c.
  destruct (on_parent _ c) as [rc c1] eqn:E. apply step_parent in E. etrans; [exact E|].
  destruct (negb _); [reflexivity|]. destruct (_ && _ && _); [|by apply step_file].
  destruct (with_store _ _ _ _ c1) as [[[]|err] c2] eqn:E2;
    apply step_store in E2; try done; try apply refresh_leaseless; try apply refresh_quiet; (etrans; [exact E2|]).
  - by apply step_file.
  - destruct (on_parent _ c2) as [rc2 c3] eqn:E3. by eapply step_parent.
Qed.

Lemma step_unlock level c : fi_managed (cn_file c) = true -> conn_step c (snd (vfs_unlock v level c)).
Proof.
  intros Hm. unfold vfs_unlock. etrans; [apply step_fallback_over|]. rewrite <- managed_fallback in Hm. revert Hm.
  generalize (on_file fallback_over c) as d. clear c. intros c Hm.
  set (r := if _ <? _ then _ else _). destruct r as [rc c1] eqn:E. subst r.
  assert (conn_step c c1 /\ (level <? SQLITE_LOCK_RESERVED = true -> owns (cn_file c1) = false)) as [H1 Ho].
  { destruct (_ <? _); [|injection E as _ <-; by split; [reflexivity|]]. apply step_discard in E as (? & _ & ? & _); done. }
  clear E. etrans; [exact H1|]. destruct (on_parent _ c1) as [rc2 c2] eqn:E2. pose proof (step_parent _ _ _ _ E2) as H2.
  assert (cn_file c2 = cn_file c1) as Hf by (unfold on_parent in E2; destruct (parent_unlock _ _); by injection E2 as _ <-).
  rewrite <- Hf in Ho. etrans; [exact H2|]. clear H2 E2 Hf. cbn [snd].
  set (c3 := if rc2 =? _ then _ else c2). assert (conn_step c2 c3) as H3 by (unfold c3; destruct (_ =? _); [by apply step_file|reflexivity]).
  assert (owns (cn_file c3) = owns (cn_file c2)) as Ho3 by (unfold c3; by destruct (_ =? _)). clearbody c3. etrans; [exact H3|].
  destruct (_ <? _); cbn [andb]; [|reflexivity]. destruct (_ =? _); [|reflexivity].
  apply step_file; [done|done|]. by rewrite Ho3, Ho.
Qed.

Lemma step_begin_checkpoint p code c r c' :
  with_store v p code (begin_checkpoint_publication (ve_env v)) c = (r, c') ->
  (forall e, r = Err e -> conn_step c c') /\ (forall g, (forall f, fi_managed (g f) = fi_managed f) ->
    (forall f, fi_publication (g f) = fi_publication f) -> holds (g (cn_file c)) = true -> conn_step c (on_file g c')).
Proof.
  unfold with_store. rewrite Hv. destruct (begin_checkpoint_publication _ _) as [x s] eqn:E. intros [= <- <-].
  apply begin_checkpoint_spec in E as [Hl Hp]. split.
  - intros e He. destruct x as [|x]; [done|]. split; cbn [cn_file cn_store]; [done|..].
    + intros H. rewrite (Hl x eq_refl H). destruct (holds _); auto.
    + intros [H ->]%Hp. rewrite H. destruct (owns _); auto.
  - intros g Hm Hg Hh. split; cbn [on_file cn_file cn_store]; [by rewrite Hm|by left|].
    intros [H ->]%Hp. rewrite H. unfold owns. rewrite Hg. destruct (owns_pending _); auto.
Qed.

Lemma step_ckpt_start c : conn_step c (snd (fcntl_ckpt_start v c)).
Proof.
  unfold fcntl_ckpt_start. etrans; [apply step_fallback_over|]. generalize (on_file fallback_over c) as d. clear c. intros c.
  case_bool_decide as Hk; [|reflexivity]. etrans; [apply (step_file (set_checkpoint FallbackWriting)); [done|by intros|done]|].
  set (d := on_file _ c). destruct (with_store _ _ _ _ d) as [[[]|err] c1] eqn:E; pose proof (with_store_file _ _ _ _ _ _ E) as Hf;
    apply step_begin_checkpoint in E as [H1 H2].
  - destruct (H2 (fun f => f)) as [? ? ?]; try done.
  - by eapply H1.
Qed.

Lemma step_fcntl_sync c : conn_step c (snd (fcntl_sync v c)).
Proof.
  unfold fcntl_sync. etrans; [apply (step_file (fun f => set_publication (require_sync (fi_publication f)) f)); try done|].
  { intros H. change (owns_pending (require_sync (fi_publication (cn_file c))) = true). unfold owns in H. unfold require_sync. by rewrite H. }
  set (d := on_file _ c). destruct (owns_pending _); [|reflexivity].
  destruct (with_store _ _ _ _ d) as [[[]|err] c1] eqn:E;
    exact (step_publish v _ _ false false (fun f => set_publication (clear_owned (fi_publication f)) f) _ _ _ Hv
       ltac:(done) E (fun _ => eq_refl) (fun _ => eq_refl)).
Qed.

Lemma step_ckpt_done c : fi_managed (cn_file c) = true -> conn_step c (snd (fcntl_ckpt_done v c)).
Proof.
  intros Hm. unfold fcntl_ckpt_done. generalize (bool_decide (fi_checkpoint (cn_file c) = FallbackWriting)) as fallback. intros fallback.
  set (c1 := if bool_decide _ then _ else c).
  assert (conn_step c c1) as H1.
  { unfold c1. case_bool_decide as Hk; [|reflexivity]. by apply step_file. }
  assert (fi_managed (cn_file c1) = true) as Hm1 by (by rewrite (cs_managed _ _ H1)). clearbody c1. etrans; [exact H1|].
  destruct (discard_owned_pending v _ c1) as [rc c2] eqn:E. apply step_discard in E as [H2 _]; [|done..]. etrans; [exact H2|].
  destruct fallback; [|reflexivity].
  destruct (step_finish v SQLITE_IOERR (sqlite_result v) (set_checkpoint FallbackFinishing) c2) as (u & c3 & -> & H & _); done.
Qed.

Lemma step_phasetwo c : conn_step c (snd (fcntl_commit_phasetwo v c)).
Proof.
  unfold fcntl_commit_phasetwo. destruct (owns_pending _) eqn:Eo.
  - set (durable := negb (bool_decide (pu_main_sync _ = SyncNone))).
    assert ((if durable then publish_synced v else publish (ve_env v) false) = publish_inner (ve_env v) durable false) as ->
      by (by destruct durable).
    destruct (with_store _ _ _ _ c) as [[[]|err] c1] eqn:E;
      exact (step_publish v _ _ _ false (set_publication pub_reset) _ _ _ Hv ltac:(done) E (fun _ => eq_refl) (fun _ => eq_refl)).
  - apply step_file; [done|done|]. unfold owns. by rewrite Eo.
Qed.

Lemma step_file_control operation c : conn_step c (snd (vfs_file_control v operation c)).
Proof.
  unfold vfs_file_control. destruct (fi_managed (cn_file c)) eqn:Hm; [cbn [negb]|reflexivity].
  destruct (_ =? _); [apply step_ckpt_start|]. destruct (_ =? _); [by apply step_ckpt_done|].
  etrans; [apply step_fallback_over|]. destruct (_ =? _); [apply step_fcntl_sync|].
  destruct (_ =? _); [apply step_phasetwo|]. by destruct (_ || _).
Qed.

Lemma step_shm_cleanup c : fi_managed (cn_file c) = true -> conn_step c (snd (shm_cleanup v c)).
Proof.
  intros Hm. unfold shm_cleanup. set (idle := on_file (set_checkpoint Idle) c).
  destruct (discard_owned_pending v _ idle) as [rc c1] eqn:E.
  assert (fi_managed (cn_file c1) = true /\ owns (cn_file c1) = false /\ rc = SQLITE_OK) as (Hm1 & Ho & ->).
  { apply step_discard in E as (H & -> & ? & _); [|done..]. by rewrite (cs_managed _ _ H). }
  rewrite Hm1. unfold with_store, finish_checkpoint, smod. rewrite Hv. cbn [map_err Z.eqb SQLITE_OK snd].
  destruct (finish_gives_up (cn_store c1)) as (H1 & H2 & H3).
  split; cbn [on_file cn_file cn_store]; [by rewrite <- Hm in Hm1|done|]. rewrite H2, H3. intros Hp.
  assert (owns (cn_file c) = false /\ cn_store c1 = cn_store c) as [Hf Hs]; [|rewrite Hs in *; auto].
  unfold discard_owned_pending in E. change (owns_pending (fi_publication (cn_file idle))) with (owns (cn_file c)) in E.
  destruct (owns (cn_file c)); cbn [negb] in E; [|by injection E as <-].
  change (fi_managed (cn_file idle)) with (fi_managed (cn_file c)) in E. rewrite Hm in E. cbn [negb] in E.
  unfold with_store, discard_pending, smod in E. rewrite Hv in E. injection E as <-. cbn in Hp.
  by rewrite (proj2 (discard_gives_up _)) in Hp.
Qed.

Lemma step_shm_lock offset count flags c : fi_managed (cn_file c) = true -> conn_step c (snd (vfs_shm_lock v offset count flags c)).
Proof.
  intros Hm. unfold vfs_shm_lock. destruct (negb _); [reflexivity|].
  set (r := if _ && uses_shm _ then _ else _). destruct r as [rc0 c1] eqn:E. subst r.
  assert (conn_step c c1) as H1.
  { destruct (_ && uses_shm _); [|by injection E as _ <-]. pose proof (step_shm_cleanup c Hm) as H. by rewrite E in H. }
  clear E. etrans; [exact H1|]. rewrite <- (cs_managed _ _ H1) in Hm. clear H1 c.
  destruct (on_parent _ c1) as [rc c2] eqn:E. apply step_parent in E. etrans; [exact E|].
  destruct (_ && _ && fi_managed _); [|reflexivity]. set (lock := _ && checkpoint_slot _ _).
  assert (forall p r c3 c4, on_parent (parent_shm_lock offset count p) c3 = (r, c4) -> conn_step c3 c4) as Hpar
    by (intros; by eapply step_parent). clearbody lock.
  destruct lock; destruct (with_store _ _ _ _ c2) as [[[]|err] c3] eqn:E3.
  - apply step_begin_checkpoint in E3 as [_ H]. by apply H.
  - apply step_begin_checkpoint in E3 as [H _]. etrans; [by eapply H|]. destruct (on_parent _ c3) eqn:E4. by eapply Hpar.
  - apply step_store in E3; [done|done|apply refresh_leaseless|apply refresh_quiet].
  - apply step_store in E3; [|done|apply refresh_leaseless|apply refresh_quiet]. etrans; [exact E3|].
    destruct (on_parent _ c3) eqn:E4. by eapply Hpar.
Qed.

Lemma step_close c :
  fi_managed (cn_file c) = true ->
  let c' := snd (x_close v c) in conn_step c c' /\ holds (cn_file c') = false /\ owns (cn_file c') = false.
Proof.
  intros Hm. cbn zeta. unfold x_close. assert (let c' := snd (vfs_close v c) in
    conn_step c c' /\ holds (cn_file c') = false /\ owns (cn_file c') = false) as Hc.
  { cbn zeta. unfold vfs_close. destruct (discard_owned_pending v _ c) as [rc c1] eqn:E.
    apply step_discard in E as (H1 & -> & Ho & Hk); [|done..]. rewrite <- (cs_managed _ _ H1) in Hm. rewrite Hm, andb_true_r.
    destruct (holds_publication (fi_checkpoint (cn_file c))) eqn:Eh.
    - destruct (step_finish v SQLITE_IOERR (sqlite_result v) (set_checkpoint Idle) c1) as (u & c2 & -> & H & Hf); try done.
      cbn [snd]. split; [by etrans|]. split; [done|]. cbn. by rewrite Hf.
    - cbn [snd]. split; [|done]. etrans; [exact H1|]. apply step_file; [done| |done]. unfold holds. by rewrite Hk, Eh. }
  destruct (vfs_close v c) as [rc c1]. cbn [snd] in Hc. destruct Hc as (H1 & H2 & H3).
  destruct (on_parent parent_close c1) as [rc2 c2] eqn:E. pose proof (step_parent _ _ _ _ E) as H4. cbn [snd].
  assert (cn_file c2 = cn_file c1) as -> by (unfold on_parent in E; destruct (parent_close _); by injection E as _ <-).
  split; [by etrans|done].
Qed.

Lemma step_callback k c : fi_managed (cn_file c) = true -> conn_step c (run_callback v k c).
Proof.
  intros Hm. destruct k; cbn [run_callback].
  - unfold x_read. destruct (_ || _); [reflexivity|]. destruct (_ =? 0); [reflexivity|]. unfold vfs_read.
    rewrite managed_fallback, Hm. apply step_fallback_over.
  - unfold x_write. destruct (_ || _); [reflexivity|]. destruct (_ =? 0); [reflexivity|]. by apply step_write.
  - by apply step_truncate.
  - by apply step_sync.
  - unfold vfs_file_size. rewrite managed_fallback, Hm, Hv. destruct (_ <=? _); apply step_fallback_over.
  - by apply step_lock.
  - by apply step_unlock.
  - by apply step_shm_lock.
  - apply step_file_control.
  - by apply step_close.
Qed.
End Connection.

(** ** The files of one database *)

Section System.
Context {HS : Hashes} {V : Type} {VV : SealedView V} {P : Type} {PV : ParentVfs P}.

Abbreviation VEnv := (VEnv V).

(** The open files of a database share its store; each has a file of the parent VFS. *)
Record System : Type := mkSystem { sy_store : Store V; sy_files : gmap nat (FileState * P) }.

(** SQLite opens a file, calls back on an open one, or closes it. *)
Inductive sys_step : System -> System -> Prop :=
| sys_open s files i read_only p :
    files !! i = None -> sys_step (mkSystem s files) (mkSystem s (<[i := (file_opened true read_only, p)]> files))
| sys_call (v : VEnv) k s files i f p c :
    ve_poisoned v = false -> files !! i = Some (f, p) -> run_callback v k (mkConn f p s) = c ->
    sys_step (mkSystem s files) (mkSystem (cn_store c) (<[i := (cn_file c, cn_parent c)]> files))
| sys_close (v : VEnv) s files i f p c :
    ve_poisoned v = false -> files !! i = Some (f, p) -> run_callback v XClose (mkConn f p s) = c ->
    sys_step (mkSystem s files) (mkSystem (cn_store c) (delete i files)).

(** Some open file satisfies [q]. *)
Definition some_file (q : FileState -> bool) (y : System) : Prop :=
  exists i f p, sy_files y !! i = Some (f, p) /\ q f = true.

Record sys_inv (y : System) : Prop := {
  si_managed : forall i f p, sy_files y !! i = Some (f, p) -> fi_managed f = true;
  si_lease : st_owner (sy_store y) = Checkpoint -> some_file holds y;
  si_pending : has_pending (sy_store y) = true -> page_size (sy_store y) = 0 \/ some_file owns y;
}.

(** The other files keep what they have. *)
Lemma some_other q s files i f p s' files' :
  files !! i = Some (f, p) -> q f = false -> (forall j, j <> i -> files' !! j = files !! j) ->
  some_file q (mkSystem s files) -> some_file q (mkSystem s' files').
Proof.
  intros Hi Hq Hf (j & g & o & Hj & Hg). cbn [sy_files] in *.
  assert (j <> i) as Hne by (intros ->; rewrite Hi in Hj; injection Hj as -> _; congruence).
  exists j, g, o. cbn [sy_files]. by rewrite Hf.
Qed.

(** A callback of file [i], whatever becomes of the file. *)
Lemma inv_conn_step s files files' i f p c :
  sys_inv (mkSystem s files) -> files !! i = Some (f, p) -> conn_step (mkConn f p s) c ->
  (forall j, j <> i -> files' !! j = files !! j) ->
  (forall g o, files' !! i = Some (g, o) -> g = cn_file c) ->
  (holds (cn_file c) = true \/ owns (cn_file c) = true -> exists o, files' !! i = Some (cn_file c, o)) ->
  sys_inv (mkSystem (cn_store c) files').
Proof.
  intros [Hm Hl Hp] Hi [Sm Sl Sp] Hf Hg Hk. cbn [sy_store sy_files cn_file cn_store] in *. split; cbn [sy_store sy_files].
  - intros j g o Hj. destruct (decide (j = i)) as [->|Hne]; [|rewrite Hf in Hj by done; by eapply Hm].
    rewrite (Hg _ _ Hj), Sm. by eapply Hm.
  - intros [H|[H1 H2]]%Sl.
    + destruct Hk as [o Ho]; [by left|]. by exists i, (cn_file c), o.
    + eapply some_other; [exact Hi|exact H2|exact Hf|by apply Hl].
  - intros [H|[H|(H1 & H2 & ->)]]%Sp; [by left|right|].
    + destruct Hk as [o Ho]; [by right|]. by exists i, (cn_file c), o.
    + destruct (Hp H1) as [H|H]; [by left|right]. eapply some_other; [exact Hi|exact H2|exact Hf|done].
Qed.

Lemma inv_step y y' : sys_step y y' -> sys_inv y -> sys_inv y'.
Proof.
  intros [s files i ro p Hi|v k s files i f p c Hv Hi Hc|v s files i f p c Hv Hi Hc] Hy.
  - destruct Hy as [Hm Hl Hp]. cbn [sy_store sy_files] in *.
    assert (forall q, some_file q (mkSystem s files) -> some_file q (mkSystem s (<[i := (file_opened true ro, p)]> files))) as Hk.
    { intros q (j & g & o & Hj & Hg). exists j, g, o. cbn [sy_files] in *. rewrite lookup_insert_ne; [done|]. congruence. }
    split; cbn [sy_store sy_files]; [|by auto|intros [|]%Hp; auto].
    intros j g o Hj. destruct (decide (i = j)) as [<-|]; [rewrite lookup_insert_eq in Hj; by injection Hj as <- _|].
    rewrite lookup_insert_ne in Hj by done. by eapply Hm.
  - assert (conn_step (mkConn f p s) c) as Hs by (subst c; apply step_callback; [done|]; by eapply (si_managed _ Hy)).
    eapply inv_conn_step; [exact Hy|exact Hi|exact Hs|..].
    + intros j Hj. by rewrite lookup_insert_ne.
    + intros g o. rewrite lookup_insert_eq. by intros [= <- _].
    + intros _. rewrite lookup_insert_eq. by eexists.
  - destruct (step_close v Hv (mkConn f p s)) as (Hs & Hh & Ho); [by eapply (si_managed _ Hy)|].
    cbn [run_callback] in Hc. rewrite Hc in *.
    eapply inv_conn_step; [exact Hy|exact Hi|exact Hs|..].
    + intros j Hj. by rewrite lookup_delete_ne.
    + intros g o. by rewrite lookup_delete_eq.
    + intros [|]; congruence.
Qed.

(** C8. No checkpoint and no write is left without an owner. Whatever files of a database SQLite
    opens, whatever callbacks it makes on them, in any order and with any outcome, and however
    many it closes: while a checkpoint holds the publication lock, an open file is in a checkpoint;
    while pages are pending in a database with a page size, an open file owns them. So once the
    last file is closed, no checkpoint is open and nothing is pending. *)
Theorem obligations_have_owner (y y' : System) :
  rtc sys_step y y' -> sy_files y = ∅ -> st_owner (sy_store y) <> Checkpoint -> has_pending (sy_store y) = false ->
  (st_owner (sy_store y') = Checkpoint -> some_file holds y') /\
  (has_pending (sy_store y') = true -> page_size (sy_store y') <> 0 -> some_file owns y') /\
  (sy_files y' = ∅ -> st_owner (sy_store y') <> Checkpoint /\ (page_size (sy_store y') <> 0 -> has_pending (sy_store y') = false)).
Proof.
  intros Hr Hf Ho Hp. assert (sys_inv y) as Hy.
  { split; [by rewrite Hf|done|by rewrite Hp]. }
  assert (sys_inv y') as [_ Hl Hq] by (clear -Hr Hy; induction Hr; eauto using inv_step).
  assert (forall q, sy_files y' = ∅ -> ~ some_file q y') as Hn by (intros q Hz (i & f & p & Hi & _); by rewrite Hz in Hi).
  split_and!; [done|by intros [|]%Hq ?|]. intros Hz. split; [by intros ?%Hl%Hn|].
  intros Hs. apply not_true_is_false. intros [|H]%Hq; [done|by apply Hn in H].
Qed.
End System.

(** ** Transactions *)

Section Transaction.
Context {HS : Hashes} {HOK : HashesOk HS} {V : Type} {VV : SealedView V} {P : Type} {PV : ParentVfs P}.

Abbreviation VEnv := (VEnv V).
Abbreviation Conn := (Conn V P).

(** A writable database file outside any checkpoint, whose store is in a transaction. *)
Record in_transaction (c : Conn) : Prop := {
  tx_managed : fi_managed (cn_file c) = true;
  tx_writable : fi_read_only (cn_file c) = false;
  tx_idle : fi_checkpoint (cn_file c) = Idle;
  tx_store : store_inv (cn_store c);
  tx_committed : committed_inv (cn_store c);
  tx_open : st_writable (cn_store c) = true;
  tx_locked : is_locked (cn_store c) = true;
}.

(** The file has been rolled back to the published image. *)
Definition rolled_back (c c' : Conn) : Prop :=
  db_inv (cn_store c') /\ image (cn_store c') = committed_image (cn_store c) /\
  committed_image (cn_store c') = committed_image (cn_store c) /\ has_pending (cn_store c') = false /\
  owns (cn_file c') = false.

(** A step of the transaction kept its promise to the published image. *)
Definition continues (c c' : Conn) : Prop :=
  in_transaction c' /\ committed_image (cn_store c') = committed_image (cn_store c) /\ owns (cn_file c') = true.

Lemma txn_committed (s s' : Store V) :
  txn s s' -> store_inv s -> committed_inv s -> st_writable s = true -> is_locked s = true ->
  store_inv s' /\ committed_inv s' /\ st_writable s' = true /\ is_locked s' = true /\ committed_image s' = committed_image s.
Proof.
  intros H Hi (Z2 & Z4 & Z6) Hw Hl. destruct (H Hi Hw Hl) as (I' & W' & L' & Hh & _ & Ht & K).
  assert (page_size s' = page_size s) as Hps by (unfold page_size; by rewrite Hh).
  pose proof (page_size_ok_bounds _ (store_page_size s Hi)) as Hb.
  split_and!; try done.
  - unfold committed_inv. rewrite Hh, Ht, Hps. split_and!; try done. intros i Hge. rewrite <- (Z4 i Hge).
    unfold committed_byte. rewrite Hps, K; [done|]. pose proof (Z.div_pos i (page_size s)). lia.
  - apply committed_image_frame; [by apply store_page_size|done..].
Qed.

Lemma write_result_error (v : VEnv) operation e :
  operation <> SQLITE_OK -> operation <> SQLITE_BUSY ->
  write_result v operation e <> SQLITE_OK /\ write_result v operation e <> SQLITE_BUSY.
Proof.
  intros H1 H2. destruct e; cbn [write_result sqlite_result]; try (by split); by destruct (ve_disk_full v).
Qed.

Lemma roll_back_lemma v p (c : Conn) :
  ve_poisoned v = false -> fi_managed (cn_file c) = true -> owns (cn_file c) = true ->
  store_inv (cn_store c) -> committed_inv (cn_store c) -> rolled_back c (snd (discard_owned_pending v p c)).
Proof.
  intros Hv Hm Ho Hi Hc. unfold discard_owned_pending. change (owns_pending (fi_publication (cn_file c))) with (owns (cn_file c)).
  rewrite Ho, Hm. cbn [negb]. unfold with_store, discard_pending, smod. rewrite Hv. cbn [map_err snd].
  destruct (rollback_lemma (cn_store c) Hi Hc) as (? & ? & ? & ?). by split_and!.
Qed.

(** Store code that is part of a transaction, run for a file that owns what is pending; the
    result is checked and the transaction rolled back on an error. *)
Lemma modify_lemma {A} v p operation (m : sm (Store V) A) (c : Conn) r c' :
  ve_poisoned v = false -> operation <> SQLITE_OK -> operation <> SQLITE_BUSY -> owns (cn_file c) = true ->
  (forall x s', m (cn_store c) = (x, s') -> txn (cn_store c) s') -> in_transaction c ->
  with_store v SQLITE_IOERR (write_result v operation) m c = (r, c') ->
  match r with
  | Ok _ => continues c c'
  | Err e => e <> SQLITE_OK /\ e <> SQLITE_BUSY /\ rolled_back c (snd (discard_owned_pending v p c'))
  end.
Proof.
  intros Hv H1 H2 Ho Ht [Tm Tw Ti Ts Tc Tp Tl] E. unfold with_store in E. rewrite Hv in E.
  destruct (m (cn_store c)) as [x s] eqn:Em. injection E as <- <-.
  destruct (txn_committed _ _ (Ht _ _ eq_refl) Ts Tc Tp Tl) as (I' & C' & W' & L' & K').
  destruct x as [a|e]; cbn [map_err].
  - split_and!; try done.
  - destruct (write_result_error v operation e H1 H2) as [? ?]. split_and!; try done.
    destruct (roll_back_lemma v p (mkConn (cn_file c) (cn_parent c) s)) as (? & ? & ? & ? & ?); try done.
    cbn [cn_store] in *. unfold rolled_back. split_and!; try done; congruence.
Qed.

(** What a write of a plain file needs of the store: page-aligned data, or no truncation pending;
    a first page that keeps a SQLite header; page numbers and an active file within their widths. *)
Definition write_fits (s : Store V) (offset : Z) (data : bytes) : Prop :=
  offset + zlen data <= (U32_MAX - 1) * page_size s /\
  (st_pending_truncate s = None \/ offset mod page_size s = 0 /\ zlen data mod page_size s = 0) /\
  (offset < page_size s -> parse_page_size (put (content s 1) offset
     (slice data 0 (Z.min (zlen data) (page_size s - offset)))) = Some (page_size s)) /\
  zlen (file s) + zlen data * (FRAME_HEADER_SIZE + page_size s) <= U64_MAX.

Lemma idle_fallback (c : Conn) : fi_checkpoint (cn_file c) = Idle -> on_file fallback_over c = c.
Proof. intros H. unfold on_file, fallback_over. rewrite bool_decide_false by (by rewrite H). by destruct c. Qed.

(** The file owns what is pending from the start of a write on. *)
Definition owning (c : Conn) : Conn := on_file (fun f => set_publication (pub_begin_write (fi_publication f)) f) c.

Lemma owning_transaction c : in_transaction c -> in_transaction (owning c) /\ owns (cn_file (owning c)) = true.
Proof. intros [? ? ? ? ? ? ?]. split; [by split|]. apply begin_owns. Qed.

Lemma vfs_write_lemma v data offset (c : Conn) rc c' :
  in_transaction c -> ve_poisoned v = false -> 0 <= offset -> vfs_write v data offset c = (rc, c') ->
  (rc = SQLITE_OK /\ continues c c' /\ write_at (ve_env v) offset data (cn_store c) = (Ok (zlen data), cn_store c')) \/
  (rc <> SQLITE_OK /\ rc <> SQLITE_BUSY /\ rolled_back c c' /\ forall n s', write_at (ve_env v) offset data (cn_store c) <> (Ok n, s')).
Proof.
  intros Hc Hv Ho E. pose proof (tx_managed _ Hc) as Hm. pose proof (tx_idle _ Hc) as Hk. unfold vfs_write in E.
  rewrite Hm, (tx_writable _ Hc), (idle_fallback c Hk), Hk, Hv in E. cbn [is_writing] in E. fold (owning c) in E.
  destruct (owning_transaction c Hc) as [Hoc Hown]. destruct (with_store _ _ _ _ (owning c)) as [r c1] eqn:Ew.
  pose proof Ew as Ew'. apply (modify_lemma v SQLITE_IOERR_WRITE) in Ew' as Hr; try done.
  2:{ intros x s' Ex. unfold write_store in Ex. apply sbind_inv in Ex as [(n & s1 & E1 & E2)|(e & E1 & _)].
      - rewrite andb_false_r in E2. injection E2 as _ <-. by eapply write_at_txn.
      - by eapply write_at_txn. }
  destruct r as [n|e].
  - left. assert (write_at (ve_env v) offset data (cn_store c) = (Ok n, cn_store c1)) as Hw.
    { unfold with_store in Ew. rewrite Hv in Ew. unfold write_store in Ew. unfold sbind at 1 in Ew.
      change (cn_store (owning c)) with (cn_store c) in Ew. destruct (write_at _ _ _ (cn_store c)) as [[k|] s1]; [|done].
      rewrite andb_false_r in Ew. by injection Ew as -> <-. }
    assert (n = zlen data) as ->.
    { unfold write_at in Hw. destruct (Z.eqb_spec (zlen data) 0) as [->|]; [by injection Hw as <-|].
      repeat match goal with X : sbind _ _ _ = (Ok _, _) |- _ => apply sbind_inv in X as [(? & ? & ? & X)|(? & ? & [=])] end.
      destruct (_ =? 0) in Hw; repeat match goal with X : sbind _ _ _ = (Ok _, _) |- _ => apply sbind_inv in X as [(? & ? & ? & X)|(? & ? & [=])] end;
        by injection Hw as <-. }
    rewrite Z.eqb_refl in E. injection E as <- <-. by split_and!.
  - right. destruct Hr as (? & ? & Hr). destruct (discard_owned_pending _ _ c1) as [rc2 c2]. injection E as <- <-. split_and!; try done.
    intros n s' Hw. unfold with_store, write_store, sbind in Ew. rewrite Hv in Ew. change (cn_store (owning c)) with (cn_store c) in Ew.
    by rewrite Hw, andb_false_r in Ew.
Qed.

Lemma vfs_truncate_lemma v size (c : Conn) rc c' :
  in_transaction c -> ve_poisoned v = false -> 0 <= size -> vfs_truncate v size c = (rc, c') ->
  (rc = SQLITE_OK /\ continues c c' /\ truncate (ve_env v) size (cn_store c) = (Ok tt, cn_store c')) \/
  (rc <> SQLITE_OK /\ rc <> SQLITE_BUSY /\ rolled_back c c' /\ forall s', truncate (ve_env v) size (cn_store c) <> (Ok tt, s')).
Proof.
  intros Hc Hv Hs E. pose proof (tx_managed _ Hc) as Hm. pose proof (tx_idle _ Hc) as Hk. unfold vfs_truncate in E.
  rewrite (proj2 (Z.ltb_ge size 0) Hs), Hm, (tx_writable _ Hc), Hk, Hv in E. cbn [uses_shm bool_decide orb] in E.
  rewrite bool_decide_false in E by done. fold (owning c) in E. cbn [orb] in E.
  destruct (owning_transaction c Hc) as [Hoc Hown]. destruct (with_store _ _ _ _ (owning c)) as [r c1] eqn:Ew.
  pose proof Ew as Ew'. apply (modify_lemma v SQLITE_IOERR_TRUNCATE) in Ew' as Hr; try done.
  2:{ intros x s' Ex. unfold truncate_store in Ex. apply sbind_inv in Ex as [(n & s1 & E1 & E2)|(e & E1 & _)].
      - injection E2 as _ <-. by eapply truncate_txn.
      - by eapply truncate_txn. }
  destruct r as [[]|e].
  - left. injection E as <- <-. split_and!; try done. unfold with_store in Ew. rewrite Hv in Ew. unfold truncate_store, sbind in Ew.
    change (cn_store (owning c)) with (cn_store c) in Ew. destruct (truncate _ _ (cn_store c)) as [[[]|] s1]; [|done].
    by injection Ew as <-.
  - right. destruct Hr as (? & ? & Hr). destruct (discard_owned_pending _ _ c1) as [rc2 c2]. injection E as <- <-. split_and!; try done.
    intros s' Hw. unfold with_store, truncate_store, sbind in Ew. rewrite Hv in Ew. change (cn_store (owning c)) with (cn_store c) in Ew.
    by rewrite Hw in Ew.
Qed.

(** *** Sequences of changes *)

(** What SQLite does to its file inside a transaction. *)
Inductive Change : Type := Put (data : bytes) (offset : Z) | Cut (size : Z).

Definition change_ok (k : Change) : Prop :=
  match k with Put data offset => 0 <= offset /\ 1 <= zlen data | Cut size => 0 <= size end.

(** The result code and the connection afterwards. *)
Definition change (v : VEnv) (k : Change) (c : Conn) : Z * Conn :=
  match k with Put data offset => x_write v false (zlen data) data offset c | Cut size => vfs_truncate v size c end.

(** The same change of a plain file. *)
Definition file_change (b : bytes) (k : Change) : bytes :=
  match k with Put data offset => write_all_at b offset data | Cut size => set_len b size end.

Definition change_fits (s : Store V) (k : Change) : Prop :=
  match k with
  | Put data offset => write_fits s offset data
  | Cut size => size mod page_size s = 0 /\ size <= (U32_MAX - 1) * page_size s /\ (size = 0 -> records s !! 1 = None)
  end.

Lemma change_lemma v k c rc c' :
  in_transaction c -> ve_poisoned v = false -> change_ok k -> change v k c = (rc, c') ->
  (rc = SQLITE_OK /\ continues c c') \/ (rc <> SQLITE_OK /\ rc <> SQLITE_BUSY /\ rolled_back c c').
Proof.
  intros Hc Hv Hk E. destruct k as [data offset|size]; cbn [change change_ok] in *.
  - destruct Hk as [H1 H2]. unfold x_write in E. rewrite (proj2 (Z.ltb_ge offset 0) H1) in E.
    rewrite (proj2 (Z.eqb_neq (zlen data) 0)), (proj2 (Z.ltb_ge (zlen data) 0)), slice_all in E by lia.
    destruct (vfs_write_lemma v data offset c rc c' Hc Hv H1 E) as [(? & ? & _)|(? & ? & ? & _)]; auto.
  - destruct (vfs_truncate_lemma v size c rc c' Hc Hv Hk E) as [(? & ? & _)|(? & ? & ? & _)]; auto.
Qed.

Lemma change_image v k c rc c' :
  in_transaction c -> ve_poisoned v = false -> change_ok k -> db_inv (cn_store c) -> change_fits (cn_store c) k ->
  change v k c = (rc, c') ->
  rc = SQLITE_OK /\ continues c c' /\ db_inv (cn_store c') /\ image (cn_store c') = file_change (image (cn_store c)) k.
Proof.
  intros Hc Hv Hk Hdb Hf E. pose proof (begin_write_locked (ve_env v) _ (tx_open _ Hc) (tx_locked _ Hc)) as Hb.
  destruct k as [data offset|size]; cbn [change change_ok change_fits file_change] in *.
  - destruct Hk as [H1 H2]. unfold x_write in E. rewrite (proj2 (Z.ltb_ge offset 0) H1) in E.
    rewrite (proj2 (Z.eqb_neq (zlen data) 0)), (proj2 (Z.ltb_ge (zlen data) 0)), slice_all in E by lia. destruct Hf as (F1 & F2 & F3 & F4).
    destruct (write_at_lemma (ve_env v) _ _ offset data Hb Hdb H1 H2 F1 F2 F3 F4) as (s' & Ew & D' & I' & _).
    destruct (vfs_write_lemma v data offset c rc c' Hc Hv H1 E) as [(? & ? & Ew')|(_ & _ & _ & Hn)]; [|by apply Hn in Ew].
    rewrite Ew in Ew'. injection Ew' as ->. by split_and!.
  - destruct Hf as (F1 & F2 & F3). destruct (truncate_lemma (ve_env v) _ _ size Hb Hdb Hk F1 F2 F3) as (s' & Ew & D' & I' & _).
    destruct (vfs_truncate_lemma v size c rc c' Hc Hv Hk E) as [(? & ? & Ew')|(_ & _ & _ & Hn)]; [|by apply Hn in Ew].
    rewrite Ew in Ew'. injection Ew' as ->. by split_and!.
Qed.

(** A change that was made is pending. *)
Lemma change_pending v k c rc c' :
  in_transaction c -> ve_poisoned v = false -> change_ok k -> change v k c = (rc, c') -> rc = SQLITE_OK ->
  has_pending (cn_store c') = true.
Proof.
  intros Hc Hv Hk E Hrc. pose proof (page_size_ok_bounds _ (store_page_size _ (tx_store _ Hc))) as Hps.
  pose proof (begin_write_locked (ve_env v) _ (tx_open _ Hc) (tx_locked _ Hc)) as Hb.
  enough (st_pending_dirty (cn_store c') = true) as H by (unfold has_pending; by rewrite H).
  destruct k as [data offset|size]; cbn [change change_ok] in *.
  - destruct Hk as [H1 H2]. unfold x_write in E. rewrite (proj2 (Z.ltb_ge offset 0) H1) in E.
    rewrite (proj2 (Z.eqb_neq (zlen data) 0)), (proj2 (Z.ltb_ge (zlen data) 0)), slice_all in E by lia.
    destruct (vfs_write_lemma v data offset c rc c' Hc Hv H1 E) as [(_ & _ & Ew)|(? & _)]; [|done].
    unfold write_at in Ew. rewrite (proj2 (Z.eqb_neq (zlen data) 0)) in Ew by lia. unfold sbind at 1 in Ew. rewrite Hb in Ew.
    apply sbind_inv in Ew as [(stop & s1 & E1 & Ew)|(? & _ & [=])]. injection E1 as _ <-.
    unfold sbind at 1, sget in Ew. rewrite (proj2 (Z.eqb_neq (page_size _) 0)) in Ew by lia.
    apply sbind_inv in Ew as [([] & s1 & _ & Ew)|(? & _ & [=])]. unfold sbind, smod, sret in Ew. by injection Ew as <-.
  - destruct (vfs_truncate_lemma v size c rc c' Hc Hv Hk E) as [(_ & _ & Ew)|(? & _)]; [|done].
    unfold truncate in Ew. unfold sbind at 1 in Ew. rewrite Hb in Ew. apply sbind_inv in Ew as [(s0 & s1 & _ & Ew)|(? & _ & [=])].
    do 3 (apply sbind_inv in Ew as [(? & ? & _ & Ew)|(? & _ & [=])]). unfold smod in Ew. by injection Ew as <-.
Qed.

(** The changes one after the other, as long as each of them returns [SQLITE_OK]. *)
Fixpoint changes (l : list (VEnv * Change)) (c : Conn) : option Conn :=
  match l with
  | [] => Some c
  | (v, k) :: l => let '(rc, c) := change v k c in if rc =? SQLITE_OK then changes l c else None
  end.

(** Each change fits the store it comes to. *)
Fixpoint changes_fit (l : list (VEnv * Change)) (c : Conn) : Prop :=
  match l with
  | [] => True
  | (v, k) :: l => ve_poisoned v = false /\ change_ok k /\ change_fits (cn_store c) k /\ changes_fit l (snd (change v k c))
  end.

Lemma changes_lemma l : forall c,
  in_transaction c -> db_inv (cn_store c) -> changes_fit l c ->
  exists c', changes l c = Some c' /\ in_transaction c' /\ db_inv (cn_store c') /\
    image (cn_store c') = fold_left file_change (map snd l) (image (cn_store c)) /\
    committed_image (cn_store c') = committed_image (cn_store c) /\
    (l <> [] -> owns (cn_file c') = true /\ has_pending (cn_store c') = true).
Proof.
  induction l as [|[v k] l IH]; intros c Hc Hdb Hf; cbn [changes changes_fit map fold_left snd] in *; [by exists c|].
  destruct Hf as (Hv & Hk & Hfit & Hf). destruct (change v k c) as [rc c1] eqn:E.
  destruct (change_image v k c rc c1 Hc Hv Hk Hdb Hfit E) as (Hrc & (Hc1 & Hci & Ho) & Hdb1 & Him).
  pose proof (change_pending v k c rc c1 Hc Hv Hk E Hrc) as Hp. rewrite Hrc. cbn [Z.eqb SQLITE_OK].
  destruct (IH c1 Hc1 Hdb1 Hf) as (c' & E' & Hc' & Hdb' & Him' & Hci' & Ho'). exists c'. rewrite <- Him, <- Hci.
  split_and!; try done. intros _. destruct l as [|x l]; [|by apply Ho']. injection E' as <-. done.
Qed.

Lemma unlock_rolls_back v level (c : Conn) :
  ve_poisoned v = false -> in_transaction c -> owns (cn_file c) = true -> level < SQLITE_LOCK_RESERVED ->
  rolled_back c (snd (vfs_unlock v level c)).
Proof.
  intros Hv Hc Ho Hl. unfold vfs_unlock. rewrite (idle_fallback c (tx_idle _ Hc)), (proj2 (Z.ltb_lt _ _) Hl).
  pose proof (roll_back_lemma v SQLITE_IOERR_UNLOCK c Hv (tx_managed _ Hc) Ho (tx_store _ Hc) (tx_committed _ Hc)) as Hr.
  destruct (discard_owned_pending v _ c) as [rc c1]. cbn [snd] in Hr. unfold on_parent.
  destruct (parent_unlock level (cn_parent c1)) as [rc2 p]. cbn [snd andb].
  destruct Hr as (? & ? & ? & ? & ?). destruct (rc2 =? _), (rc =? _); by split_and!.
Qed.

Lemma phasetwo_commits v (c : Conn) :
  ve_poisoned v = false -> env_data_sync (ve_env v) = true -> env_state_sync (ve_env v) = true ->
  in_transaction c -> db_inv (cn_store c) -> owns (cn_file c) = true -> has_pending (cn_store c) = true ->
  hd_txid (st_head (cn_store c)) + 1 <= U64_MAX -> af_state_sequence (st_active (cn_store c)) + 1 <= U64_MAX ->
  exists c', vfs_file_control v SQLITE_FCNTL_COMMIT_PHASETWO c = (None, c') /\ db_inv (cn_store c') /\
    image (cn_store c') = image (cn_store c) /\ committed_image (cn_store c') = image (cn_store c) /\
    has_pending (cn_store c') = false /\ owns (cn_file c') = false.
Proof.
  intros Hv Hd Hs Hc Hdb Ho Hp Ht Hq. unfold vfs_file_control. rewrite (tx_managed _ Hc), (idle_fallback c (tx_idle _ Hc)).
  cbn [negb Z.eqb Pos.eqb SQLITE_FCNTL_COMMIT_PHASETWO SQLITE_FCNTL_CKPT_START SQLITE_FCNTL_CKPT_DONE SQLITE_FCNTL_SYNC].
  unfold fcntl_commit_phasetwo. change (owns_pending (fi_publication (cn_file c))) with (owns (cn_file c)). rewrite Ho.
  pose proof (page_size_ok_bounds _ (store_page_size _ (tx_store _ Hc))) as Hps.
  set (durable := negb (bool_decide (pu_main_sync _ = SyncNone))).
  assert ((if durable then publish_synced v else publish (ve_env v) false) = publish_inner (ve_env v) durable false) as ->
    by (by destruct durable).
  unfold with_store. rewrite Hv, publish_run by (done || lia). rewrite Hd, Hs, !andb_false_r. cbn [map_err].
  destruct (published_image (ve_env v) false (cn_store c) Hdb) as (? & ? & ? & ?). eexists. split; [done|]. by split_and!.
Qed.


(** C7. A transaction through the VFS is a transaction on a plain file. Whatever writes and
    truncations SQLite makes in it, as long as each fits, they all return [SQLITE_OK]; the database
    then reads as the file to which the same changes were made, while the published image is the
    old one; releasing the lock instead of committing brings the old image back; and committing
    publishes exactly the changed file, with nothing left pending. *)
Theorem vfs_transaction_refines_file (l : list (VEnv * Change)) (c : Conn) :
  in_transaction c -> db_inv (cn_store c) -> changes_fit l c -> l <> [] ->
  let changed := fold_left file_change (map snd l) (image (cn_store c)) in
  exists c1, changes l c = Some c1 /\ image (cn_store c1) = changed /\
    committed_image (cn_store c1) = committed_image (cn_store c) /\
    (forall v level, ve_poisoned v = false -> level < SQLITE_LOCK_RESERVED -> rolled_back c (snd (vfs_unlock v level c1))) /\
    (forall v, ve_poisoned v = false -> env_data_sync (ve_env v) = true -> env_state_sync (ve_env v) = true ->
       hd_txid (st_head (cn_store c1)) + 1 <= U64_MAX -> af_state_sequence (st_active (cn_store c1)) + 1 <= U64_MAX ->
       exists c2, vfs_file_control v SQLITE_FCNTL_COMMIT_PHASETWO c1 = (None, c2) /\
         image (cn_store c2) = changed /\ committed_image (cn_store c2) = changed /\
         has_pending (cn_store c2) = false /\ owns (cn_file c2) = false).
Proof.
  intros Hc Hdb Hf Hl. cbn zeta. destruct (changes_lemma l c Hc Hdb Hf) as (c1 & E & Hc1 & Hdb1 & Him & Hci & Ho).
  destruct (Ho Hl) as [Ho1 Hp]. exists c1. split_and!; try done.
  - intros v level Hv Hlv. destruct (unlock_rolls_back v level c1 Hv Hc1 Ho1 Hlv) as (? & ? & ? & ? & ?). split_and!; congruence.
  - intros v Hv Hd Hs Ht Hq. destruct (phasetwo_commits v c1 Hv Hd Hs Hc1 Hdb1 Ho1 Hp Ht Hq) as (c2 & E2 & _ & I2 & C2 & P2 & O2).
    exists c2. rewrite I2, C2. by split_and!.
Qed.
End Transaction.
