(* ===== verification/VfsDemo.v ===== *)
(** The VFS over the page store of [StoreDemo]: one open file in a transaction that writes across
    a page boundary and cuts the file. The theorems about the VFS are applied to it here. *)

From S2P Require Import Prelude Domain Layout Format Segment Active Store StoreProofs StoreRead StoreCommit StoreDemo Vfs VfsProofs.
From stdpp Require Import base strings gmap list sorting.
From Stdlib Require Import ZArith Lia.
Open Scope Z_scope.

#[local] Existing Instance demo_hashes.
#[local] Existing Instance demo_hashes_ok.

(** A parent VFS that grants everything and keeps nothing. *)
#[export] Instance demo_parent : ParentVfs unit := {|
  parent_read _ _ p := ((SQLITE_OK, None), p);
  parent_write _ _ p := (SQLITE_OK, p);
  parent_truncate _ p := (SQLITE_OK, p);
  parent_sync _ p := (SQLITE_OK, p);
  parent_file_size p := ((SQLITE_OK, 0), p);
  parent_lock _ p := (SQLITE_OK, p);
  parent_unlock _ p := (SQLITE_OK, p);
  parent_supports_shm _ := true;
  parent_shm_lock _ _ _ p := (SQLITE_OK, p);
  parent_has_moved _ := Ok false;
  parent_close p := (SQLITE_OK, p);
|}.

Definition demo_venv : VEnv Empty_set := mkVEnv demo_env false false (Ok true).

Definition demo_conn : Conn Empty_set unit := mkConn (file_opened true false) tt demo_store.

Lemma demo_in_transaction : in_transaction demo_conn.
Proof.
  split; try done; [exact demo_store_inv|]. destruct demo_db_inv as [_ (_ & Z2 & _ & Z4 & _ & Z6)]. by split_and!.
Qed.

Definition demo_changes : list (VEnv Empty_set * Change) :=
  [(demo_venv, Put demo_input 1000); (demo_venv, Cut 1024)].

Lemma demo_changes_fit : changes_fit demo_changes demo_conn.
Proof.
  split; [done|]. split; [split; [lia|vm_compute; discriminate]|]. split.
  - split; [vm_compute; discriminate|]. split; [by left|]. split; [|vm_compute; discriminate].
    intros H. vm_compute in H. discriminate.
  - split; [done|]. split; [cbn; lia|]. split; [|exact I].
    split; [vm_compute; reflexivity|]. split; [vm_compute; discriminate|]. intros H. discriminate.
Qed.

Lemma vfs_transaction_refines_file_witness :
  exists c1 c2, changes demo_changes demo_conn = Some c1 /\
    vfs_file_control demo_venv SQLITE_FCNTL_COMMIT_PHASETWO c1 = (None, c2) /\
    committed_image (cn_store c2) = set_len (write_all_at (image demo_store) 1000 demo_input) 1024.
Proof.
  destruct (vfs_transaction_refines_file demo_changes demo_conn demo_in_transaction demo_db_inv demo_changes_fit)
    as (c1 & E & _ & _ & _ & Hc); [discriminate|].
  assert (hd_txid (st_head (cn_store c1)) + 1 <= U64_MAX /\ af_state_sequence (st_active (cn_store c1)) + 1 <= U64_MAX) as [H1 H2].
  { assert (option_map (fun c => (hd_txid (st_head (cn_store c)), af_state_sequence (st_active (cn_store c)))) (changes demo_changes demo_conn)
            = Some (2, 3)) as Hs by (vm_compute; reflexivity).
    rewrite E in Hs. cbn [option_map] in Hs. injection Hs as -> ->. vm_compute. split; discriminate. }
  destruct (Hc demo_venv eq_refl eq_refl eq_refl H1 H2) as (c2 & E2 & _ & Hi & _).
  exists c1, c2. split; [exact E|]. split; [exact E2|exact Hi].
Defined.


(** A database whose only file was opened and then made one callback. *)
Definition after_callback (k : Callback) (s : Store Empty_set) : System (V := Empty_set) (P := unit) :=
  let c := run_callback demo_venv k (mkConn (file_opened true false) tt s) in
  mkSystem (cn_store c) (<[0%nat := (cn_file c, cn_parent c)]> (<[0%nat := (file_opened true false, tt)]> ∅)).

Lemma callback_reached k s : rtc sys_step (mkSystem s ∅) (after_callback k s).
Proof.
  eapply rtc_l; [by apply (sys_open s ∅ 0%nat false tt)|]. eapply rtc_l; [|apply rtc_refl].
  by eapply (sys_call demo_venv k s _ 0%nat (file_opened true false) tt).
Qed.

Lemma obligations_have_owner_witness :
  let y := after_callback (XWrite false 100 demo_input 1000) demo_store in
  has_pending (sy_store y) = true /\ some_file owns y.
Proof.
  intros y. assert (has_pending (sy_store y) = true) as Hp by (vm_compute; reflexivity). split; [exact Hp|].
  assert (page_size (sy_store y) <> 0) as Hs by (vm_compute; discriminate).
  destruct (obligations_have_owner _ _ (callback_reached (XWrite false 100 demo_input 1000) demo_store)) as (_ & Ho & _).
  - reflexivity.
  - discriminate.
  - vm_compute. reflexivity.
  - exact (Ho Hp Hs).
Defined.
