(* ===== verification/Relocate.v ===== *)
(** Relocation of packs (src/src/storage/placement.rs): packs that readers need are copied from
    where they are placed into one new blob, which becomes their preferred representation. Every
    byte is authenticated on the way, nothing is deleted, and the catalog is published once. *)

From S2P Require Import Prelude Domain Layout Format Wire Segment Frame Pack Backend CatalogIndex Catalog Placement View ViewProofs Manifest ManifestProofs Active Store StoreProofs Sealed SealedProofs Seal Retention RetentionTrace RetentionPlan RetentionProofs RetentionViews Maintenance Samples Prepared.
From stdpp Require Import base strings gmap list sorting.
From Stdlib Require Import ZArith Lia.
Open Scope Z_scope.

Record RelocationReport : Set := mkRelocation { rl_packs : Z; rl_copied_bytes : Z; rl_blob : option Digest }.

(** What the loop over the packs carries: the writer, the bytes copied and their cohort. *)
Record Relocating : Type := mkRelocating { rg_writer : BlobWriter; rg_total : Z; rg_cohort : option bytes }.

Section Relocation.
Context `{Hashes, ZstdLib, StorageBackend B, Collectable B}.

Definition relocate_pack (g : CatalogGuard B) (reachable : list Digest) (p : pin) (budget : Z) (r : Relocating) (pack : Digest)
    : result StoreError Relocating :=
  fail_if negb (bool_decide (pack ∈ reachable)) with Busy ;;
  let* placements := placement (cg_state g) pack in
  fail_if match rg_cohort r with Some cohort => negb (bytes_eqb cohort (pl_cohort placements)) | None => false end
    with InvalidConfiguration ;;
  let* total := range (checked_add (rg_total r) (pl_length placements)) in
  fail_if budget <? total with Range ;;
  let start := bw_offset (rg_writer r) in
  let* copied := copy_pack (cg_backend g) p pack in
  let* w := BlobWriter_write (rg_writer r) (snd copied) in
  let* w := complete_pack w pack start in
  Ok (mkRelocating w total (Some (pl_cohort placements))).

(** An extent that is missing would be a panic: the writer completed every pack. *)
Definition relocated_extent (extents : list (list Z * BlobExtent)) (s : State) (pack : Digest) : result StoreError State :=
  let* placements := placement s pack in
  let* extent := ok_or ((list_to_map extents : gmap (list Z) BlobExtent) !! pack) (Corrupt 0) in
  let* placements := Placements_add placements extent in
  Ok (set_placements s (Index_insert (st_placements s) pack (Placements_encode placements))).

Definition install_extent (extents : list (list Z * BlobExtent)) (pack : Digest) : sm (CatalogGuard B) unit :=
  let! g := sget in
  let! s := slift (relocated_extent extents (cg_state g) pack) in
  set_state s.

Definition relocate (l : Local) (packs : list Digest) (budget : Z) : sm (CatalogGuard B) RelocationReport :=
  sfail_if (zlen packs =? 0) || (4096 <? zlen packs) || negb (bool_decide (NoDup packs)) with Range ;;
  let! g := sget in
  let! reachable := slift (reachable_packs l g) in
  let! p := slift (pin_new (cg_state g) packs) in
  let! done := slift (mfold (relocate_pack g reachable p budget) (mkRelocating BlobWriter_new 0 None) packs) in
  let expected := st_revision (cg_state g) in
  let! finished := slift (BlobWriter_finish (rg_writer done)) in
  let '(blob, object, extents) := finished in
  let! _ := put_object (Blob blob) object in
  let! g := sget in
  let! root := slift (backend (read_root (cg_backend g))) in
  sfail_if negb (bool_decide (option_map rr_revision root = expected)) with Domain.Backend BStale ;;
  let! _ := sfold (install_extent extents) packs in
  let! _ := (fun g => publish_catalog g) in
  sret (mkRelocation (zlen packs) (rg_total done) (Some blob)).
End Relocation.
