(* ===== verification/RelocateProofs.v ===== *)
(** Correctness of relocation: a pack that was stored where its placement says is stored whole in
    the new blob afterwards, under the same name, and reads as before. *)

From S2P Require Import Prelude Domain Layout Format Wire Segment Frame Pack Backend CatalogIndex Catalog Placement View ViewProofs Manifest ManifestProofs Active Store StoreProofs Sealed SealedProofs Seal Retention RetentionTrace RetentionPlan RetentionProofs RetentionViews Maintenance Samples Prepared Draft PreparedProofs InstallProofs Relocate.
From stdpp Require Import base strings gmap list sorting.
From Stdlib Require Import ZArith Lia.
Open Scope Z_scope.

(** ** Streaming a pack from wherever it is *)

Section Copying.
Context {HH : Hashes} {HOK : HashesOk HH}.

(** [rd] reads [b] as long as it asks for no more than one batch. *)
Definition serves_batches (rd : reader) (b : bytes) : Prop :=
  forall offset length, 0 <= offset -> 0 <= length <= MAX_BATCH_BYTES -> offset + length <= zlen b ->
    rd offset length = read_exact_at b offset length.

Context (rd : reader) (b : bytes) (Hrd : serves_batches rd b) (Hb : is_bytes b) (Hl : zlen b <= U64_MAX).

Lemma copy_payload_same fuel : forall offset stop acc,
  0 <= offset -> stop <= zlen b -> copy_payload fuel rd offset stop acc = copy_payload fuel (read_exact_at b) offset stop acc.
Proof.
  induction fuel as [|fuel IH]; intros offset stop acc Ho Hs; cbn [copy_payload]; [done|].
  destruct (Z.leb_spec stop offset); [done|]. unfold BUFFER.
  rewrite Hrd by (unfold MAX_BATCH_BYTES; lia). destruct (read_exact_at _ _ _); [|done]. apply IH; lia.
Qed.

Lemma copy_metadata_same offset : 0 <= offset -> copy_metadata rd (zlen b) offset = copy_metadata (read_exact_at b) (zlen b) offset.
Proof.
  intros Ho. unfold copy_metadata, FRAME_HEADER_SIZE. destruct (Z.ltb_spec (zlen b - offset) 36); [done|].
  rewrite Hrd by (unfold MAX_BATCH_BYTES; lia). destruct (read_exact_at b offset 36) as [prefix|] eqn:Ep; [|done]. cbn [rbind].
  assert (is_u32 (le_val (slice prefix 0 4))) as Hc.
  { rewrite (read_exact_serves b) in Ep by lia. injection Ep as <-. apply le_val_u32; [auto with bytedb|].
    rewrite zlen_slice; rewrite ?zlen_slice; lia. }
  unfold is_u32 in Hc. destruct (Z.ltb_spec (1024 * 1024) (le_val (slice prefix 0 4))); [done|].
  destruct (Z.ltb_spec (zlen b - offset) (36 + le_val (slice prefix 0 4) + 24)); [done|].
  rewrite Hrd by (unfold MAX_BATCH_BYTES; lia). destruct (read_exact_at b (offset + 36) _); [|done]. cbn [rbind].
  destruct (FrameMetadata_decode _ _); [|done]. cbn [rbind]. by rewrite Hrd by (unfold MAX_BATCH_BYTES; lia).
Qed.

Lemma copy_loop_same fuel payloads : forall offset i out,
  0 <= offset -> copy_loop fuel rd (zlen b) payloads offset i out = copy_loop fuel (read_exact_at b) (zlen b) payloads offset i out.
Proof.
  induction fuel as [|fuel IH]; intros offset i out Ho; cbn [copy_loop]; [done|].
  destruct (zlen b <=? offset); [done|]. rewrite copy_metadata_same by done.
  destruct (copy_metadata (read_exact_at b) _ _) as [[[m w] o]|] eqn:Em; [|done].
  apply copy_metadata_sound in Em as (Hmo & _ & _ & -> & Ho1); [|done..]. pose proof Hmo as (_ & _ & _ & Hp & _).
  destruct (checked_add _ _) as [stop|] eqn:Es; [|done].
  apply checked_add_Some in Es as [-> _]. destruct (Z.ltb_spec (zlen b) (offset + 60 + encoded_len m + fm_payload_bytes m)); [done|].
  pose proof (encoded_len_bounds m Hmo) as Hlen. rewrite copy_payload_same by lia.
  destruct (if payloads then _ else _) as [[x|]|]; [|done|done]. destruct (_ && _); [done|].
  destruct (Identity_frame _ _); [|done]. apply IH. lia.
Qed.

(** Streaming reads nothing but the pack. *)
Lemma copy_same payloads : copy rd (zlen b) payloads = copy (read_exact_at b) (zlen b) payloads.
Proof.
  unfold copy. rewrite zlen_PACK_HEADER. destruct (Z.ltb_spec (zlen b) 128); [done|].
  rewrite Hrd by (unfold MAX_BATCH_BYTES; lia). destruct (read_exact_at b 0 128) as [h|]; [|done]. destruct (negb _); [done|].
  by apply copy_loop_same.
Qed.
End Copying.

Section Relocation.
Context {HH : Hashes} {HOK : HashesOk HH} {Z0 : ZstdLib} {ZOK : ZstdOk Z0}.
Context {B : Type} {SB : StorageBackend B} {BL : BackendLaws B} {BV : BackendLive B} {CB : Collectable B} {CL : CollectableLaws B}.

Implicit Types (g : CatalogGuard B) (p : pin).

Lemma placed_serves (s : B) p pack content : placed s p pack content -> zlen content <= U64_MAX -> serves_batches (pin_reader s p pack) content.
Proof.
  intros Hp Hm offset length Ho Hl Hle. unfold pin_reader.
  assert (value (StoredRange_new offset length) = Ok (mkRange offset length (offset + length))) as ->
    by (apply value_Ok, StoredRange_new_spec; split; [done|lia]).
  cbn [rbind]. rewrite (read_exact_serves content) by lia. destruct (decide (length = 0)) as [->|].
  - unfold pin_read. cbn. by rewrite slice_nil_ge by lia.
  - apply placed_read; [done|lia..].
Qed.

(** What is copied from a placed pack is the pack. *)
Lemma copy_pack_placed (s : B) p pack content n out :
  placed s p pack content -> is_bytes content -> (forall placements, p !! pack = Some placements -> placements_ok placements) ->
  copy_pack s p pack = Ok (n, out) -> out = content /\ zlen content <= U64_MAX.
Proof.
  intros Hp Hb Hok E. pose proof Hp as (pl & r & o & Hpl & Hr & (_ & He) & Hl & Ho & Hz & Hs).
  assert (zlen content <= U64_MAX) as Hm by lia. split; [|done].
  destruct (Hok _ Hpl) as (_ & _ & _ & _ & Hrs & _). unfold preferred in Hr.
  destruct (pl_representations pl) as [|r' rs] eqn:Ers; [done|]. injection Hr as ->.
  apply Forall_cons in Hrs as [(_ & _ & Hlen & _) _]. unfold copy_pack, pin_length in E. rewrite Hpl in E. cbn [ok_or rbind] in E.
  rewrite <- Hlen, Hl, (copy_same _ content (placed_serves _ _ _ _ Hp Hm) Hb Hm) in E.
  destruct (copy _ _ _) as [[[id x]|]|] eqn:Ec; cbn [rbind] in E; [|done|done]. inv_ok. cbn [fst snd] in *. simplify_eq.
  apply pack_copy_sound_lemma in Ec as (fs & _ & _ & Hc & _); [|done..]. by apply Hc.
Qed.

(** ** The blob that is written *)

(** Every pack completed so far is where its range says, as it was copied. *)
Record writing (s : B) p (w : BlobWriter) (packs : list Digest) : Prop := {
  wr_offset : bw_offset w = zlen (bw_bytes w);
  wr_header : 32 <= zlen (bw_bytes w);
  wr_done : forall pack, pack ∈ packs <-> is_Some (bw_ranges w !! pack);
  wr_range : forall pack start n, bw_ranges w !! pack = Some (start, n) ->
    exists k content, copy_pack s p pack = Ok (k, content) /\ n = zlen content /\ 1 <= n /\
      BLOB_HEADER <= start /\ start + n <= zlen (bw_bytes w) /\ slice (bw_bytes w) start (start + n) = content;
}.

Lemma writing_new s p : writing s p BlobWriter_new [].
Proof.
  split; try done. intros pack. unfold BlobWriter_new; cbn [bw_ranges]. rewrite lookup_empty.
  split; [by intros ?%elem_of_nil|by intros [? ?]].
Qed.

Lemma slice_prefix (x y : bytes) start n : 0 <= start -> 0 <= n -> start + n <= zlen x -> slice (x ++ y) start (start + n) = slice x start (start + n).
Proof. intros H0 Hn Hx. apply slice_app_l; lia. Qed.

Lemma writing_pack g reachable p budget r pack r' packs :
  writing (cg_backend g) p (rg_writer r) packs -> relocate_pack g reachable p budget r pack = Ok r' ->
  writing (cg_backend g) p (rg_writer r') (packs ++ [pack]).
Proof.
  intros [W1 W2 W3 W4] E. unfold relocate_pack in E. inv_ok. subst r'. cbn [rg_writer].
  destruct a1 as [k content]. cbn [snd] in *. unfold BlobWriter_write in *. inv_ok. subst a2. unfold complete_pack in *. inv_ok.
  cbn [bw_offset bw_ranges bw_bytes] in *. subst a3. pose proof (zlen_nonneg content) as Hn.
  assert (bw_ranges (rg_writer r) !! pack = None) as Hfresh.
  { apply eq_None_not_Some. intros Hs. rewrite !orb_false_iff in *. destruct_and?. by case_bool_decide. }
  assert (1 <= zlen content) as H1 by (rewrite !orb_false_iff in *; destruct_and?; bools; lia).
  split; cbn [bw_offset bw_bytes bw_ranges].
  - rewrite zlen_app. lia.
  - rewrite zlen_app. lia.
  - intros q. rewrite elem_of_app, list_elem_of_singleton, W3. destruct (decide (q = pack)) as [->|Hne].
    + rewrite lookup_insert_eq. split; [by eauto|by right].
    + rewrite lookup_insert_ne by done. split; [by intros [|]|by left].
  - intros q start n Hq. destruct (decide (q = pack)) as [->|Hne].
    + rewrite lookup_insert_eq in Hq. injection Hq as <- <-. exists k, content. rewrite W1, zlen_app. unfold BLOB_HEADER.
      split_and!; try done; try lia. replace (zlen (bw_bytes (rg_writer r)) + zlen content - zlen (bw_bytes (rg_writer r))) with (zlen content) by lia.
      pose proof (slice_mid (bw_bytes (rg_writer r)) content [] (zlen (bw_bytes (rg_writer r))) (zlen (bw_bytes (rg_writer r)) + zlen content)) as Hs.
      rewrite app_nil_r in Hs. apply Hs; lia.
    + rewrite lookup_insert_ne in Hq by done. destruct (W4 q start n Hq) as (k' & c & ? & -> & ? & ? & ? & Hs).
      exists k', c. rewrite zlen_app. unfold BLOB_HEADER in *. split_and!; try done; try lia. rewrite slice_prefix by lia. done.
Qed.

Lemma writing_packs g reachable p budget packs : forall r r' before,
  writing (cg_backend g) p (rg_writer r) before -> mfold (relocate_pack g reachable p budget) r packs = Ok r' ->
  writing (cg_backend g) p (rg_writer r') (before ++ packs).
Proof.
  induction packs as [|pack packs IH]; intros r r' before Hw E; cbn [mfold] in E; inv_ok; [subst; by rewrite app_nil_r|].
  replace (before ++ pack :: packs) with ((before ++ [pack]) ++ packs) by (by rewrite <- (assoc_L (++))).
  eapply IH; [|exact E]. by eapply writing_pack.
Qed.

(** The extents of the finished blob hold the copies. *)
Lemma finish_extents (s : B) p w packs blob object extents pack :
  writing s p w packs -> BlobWriter_finish w = Ok (blob, object, extents) -> pack ∈ packs ->
  exists k content extent, copy_pack s p pack = Ok (k, content) /\
    (list_to_map extents : gmap (list Z) BlobExtent) !! pack = Some extent /\ extent_ok extent /\ be_blob extent = blob /\
    be_length extent = zlen content /\ BLOB_HEADER <= be_offset extent /\ be_offset extent + zlen content <= zlen object /\
    slice object (be_offset extent) (be_offset extent + zlen content) = content.
Proof.
  intros [W1 W2 W3 W4] E Hin. apply finish_shape in E as (_ & Ht & Hblob & Hobj & Hfst & Hext).
  apply W3 in Hin as [[start n] Hrow]. destruct (W4 pack start n Hrow) as (k & content & Hc & -> & Hn & Hs & Hle & Hsl).
  apply sorted_list_elem in Hrow as Hel. apply list_elem_of_lookup in Hel as [i Hi].
  destruct (Forall2_lookup_l _ _ _ _ _ Hext Hi) as ([k' e] & Hi' & He). cbn [fst snd] in He.
  assert (k' = pack) as ->.
  { pose proof (f_equal (fun l => l !! i) Hfst) as Hk. cbn in Hk. rewrite !list_lookup_fmap, Hi, Hi' in Hk. by injection Hk. }
  apply value_Ok, BlobExtent_new_spec in He as (-> & _ & _ & Hle'); [|unfold BLOB_HEADER in *; lia..].
  exists k, content, (mkExtent blob start (zlen content) (bw_offset w + (zlen (blob_footer (bw_ranges w)) + 48))).
  cbn [be_blob be_offset be_length]. pose proof (zlen_nonneg (blob_footer (bw_ranges w))). unfold BLOB_HEADER in *.
  split_and!; try done; try lia.
  - apply elem_of_list_to_map_1; [change (NoDup (map fst extents)); rewrite Hfst; apply sorted_list_NoDup|]. by eapply list_elem_of_lookup_2.
  - split; [subst blob; split; [apply blake3_length|apply blake3_bytes]|]. cbn. lia.
  - rewrite Hobj, zlen_app. pose proof (zlen_nonneg (blob_footer (bw_ranges w) ++ blake3 (blob_footer (bw_ranges w)) ++ le_bytes 8 (bw_offset w) ++ BLOB_END)). lia.
  - rewrite Hobj, slice_prefix by lia. done.
Qed.

(** ** The placements that are recorded *)

Abbreviation rows s := (ix_entries (st_placements s)).

(** The row of a relocated pack. *)
Definition moved (extents : list (list Z * BlobExtent)) (s s' : State) (pack : Digest) : Prop :=
  exists before extent after, placement s pack = Ok before /\
    (list_to_map extents : gmap (list Z) BlobExtent) !! pack = Some extent /\
    Placements_add before extent = Ok after /\ rows s' !! pack = Some (Placements_encode after).

Lemma install_one extents q g g' :
  install_extent extents q g = (Ok tt, g') ->
  cg_backend g' = cg_backend g /\ moved extents (cg_state g) (cg_state g') q /\
  (forall pack, pack <> q -> rows (cg_state g') !! pack = rows (cg_state g) !! pack).
Proof.
  intros E. unfold install_extent, sbind, sget, slift, set_state, smod in E.
  destruct (relocated_extent extents (cg_state g) q) as [s|] eqn:Er; [|done]. injection E as <-.
  unfold relocated_extent in Er. destruct (placement (cg_state g) q) as [p0|] eqn:E0; [|done]. cbn [rbind] in Er.
  destruct (list_to_map _ !! q) as [e|] eqn:Ee; [|done]. cbn [ok_or rbind] in Er.
  destruct (Placements_add p0 e) as [p1|] eqn:E1; [|done]. injection Er as <-. cbn [cg_backend cg_state]. split_and!; [done| |].
  - exists p0, e, p1. split_and!; try done. cbn. rewrite index_insert_lookup. by rewrite decide_True.
  - intros k Hk. cbn. rewrite index_insert_lookup. by rewrite decide_False.
Qed.

Lemma install_extents extents packs : forall g g',
  NoDup packs -> sfold (install_extent extents) packs g = (Ok tt, g') ->
  cg_backend g' = cg_backend g /\ (forall pack, pack ∈ packs -> moved extents (cg_state g) (cg_state g') pack) /\
  (forall pack, pack ∉ packs -> rows (cg_state g') !! pack = rows (cg_state g) !! pack).
Proof.
  induction packs as [|q packs IH]; intros g g' Hnd E; cbn [sfold] in E.
  { injection E as <-. split_and!; try done. by intros ? ?%elem_of_nil. }
  apply NoDup_cons in Hnd as [Hq Hnd]. apply sbind_Ok in E as ([] & g1 & E1 & E).
  apply install_one in E1 as (Hb1 & Hm1 & Hk1). destruct (IH _ _ Hnd E) as (Hb & Hm & Hk). split_and!; [congruence| |].
  - intros k [->|Hin]%elem_of_cons.
    + destruct Hm1 as (p0 & e & p1 & H1 & H2 & H3 & H4). exists p0, e, p1. by rewrite Hk by done.
    + destruct (Hm k Hin) as (b0 & e & b1 & H1 & H2 & H3 & H4). exists b0, e, b1. split_and!; try done.
      unfold placement in *. rewrite Hk1 in H1; [done|]. by intros ->.
  - intros k Hin. apply not_elem_of_cons in Hin as [Hkq Hin]. by rewrite Hk, Hk1.
Qed.

Lemma placement_ok s pack placements : placement_bytes s -> placement s pack = Ok placements -> placements_ok placements /\ pl_pack placements = pack.
Proof.
  intros Hr E. unfold placement in E. destruct (rows s !! pack) as [b|] eqn:Eb; [|done]. cbn [ok_or rbind] in E.
  destruct (Hr pack b Eb). by apply placements_decode_ok in E.
Qed.

Lemma moved_placement extents s s' pack extent :
  placement_bytes s -> moved extents s s' pack -> (list_to_map extents : gmap (list Z) BlobExtent) !! pack = Some extent ->
  extent_ok extent -> BLOB_HEADER <= be_offset extent ->
  exists placements r, placement s' pack = Ok placements /\ preferred placements = Some r /\ rp_extent r = extent.
Proof.
  intros Hr (p0 & e & p1 & H1 & H2 & H3 & H4) He Hok Ho. rewrite He in H2. injection H2 as <-.
  destruct (placement_ok _ _ _ Hr H1) as [Hp Hpk].
  destruct (placements_add_lemma p0 extent p1) as (Hp1 & Hpref & Hpk1 & _); [by left|done..|].
  exists p1, (Representation_new (pl_pack p0) extent). split_and!; try done.
  unfold placement. rewrite H4. cbn [ok_or rbind]. rewrite <- Hpk, <- Hpk1. by apply placements_roundtrip_lemma.
Qed.

(** The steps of a relocation that succeeds. *)
Lemma relocate_inv l packs budget g report g' p :
  relocate l packs budget g = (Ok report, g') -> pin_new (cg_state g) packs = Ok p ->
  NoDup packs /\ exists w blob object extents s2,
    writing (cg_backend g) p w packs /\ BlobWriter_finish w = Ok (blob, object, extents) /\ rl_blob report = Some blob /\
    contents (cg_backend g') !! Blob blob = Some object /\
    (forall k o, contents (cg_backend g) !! k = Some o -> contents (cg_backend g') !! k = Some o) /\
    (forall pack, pack ∈ packs -> moved extents (cg_state g) s2 pack) /\
    (forall pack, pack ∉ packs -> rows s2 !! pack = rows (cg_state g) !! pack) /\ rows (cg_state g') = rows s2.
Proof.
  intros E Hpin. unfold relocate in E. runs. rewrite !orb_false_iff in *. destruct_and?. bools.
  rewrite Hpin in Hok1. injection Hok1 as <-. pose proof (writing_packs _ _ _ _ packs (mkRelocating BlobWriter_new 0 None) a2 [] (writing_new _ _) Hok0) as Hw.
  destruct a3 as [[blob object] extents]. runs. split; [done|].
  match goal with X : put_object _ _ _ = _ |- _ => unfold put_object in X; rename X into Hput end.
  match goal with X : sfold _ _ _ = (Ok ?u, _) |- _ => destruct u; apply install_extents in X as (Hb & Hm & Hk); [|done] end.
  match goal with X : publish_catalog _ = _ |- _ => unfold publish_catalog in X; rename X into Hpub end.
  destruct (backend_put _ _ _) as [rp b1] eqn:Ep. destruct rp as [[]|]; cbn in Hput; [|done]. injection Hput as <- <-. cbn [cg_backend cg_state] in *.
  destruct (Catalog.publish _ _) as [[r s4] b4] eqn:Epub. destruct r as [[]|]; [|done]. injection Hpub as <- <-. cbn [cg_backend cg_state] in *.
  apply put_ok in Ep as (Hc & Hsame & _). pose proof (publish_lemma _ _ _ _ _ Epub) as [Hadds _]. apply publish_adds in Epub as [Hrows _].
  rewrite Hb in Hadds. do 5 eexists. split_and!; [exact Hw|exact Hok|done| | |exact Hm|exact Hk|exact Hrows].
  - apply Hadds. rewrite Hc. apply lookup_insert_eq.
  - intros k o Ho. apply Hadds. rewrite Hc. destruct (decide (k = Blob blob)) as [->|Hne]; [|by rewrite lookup_insert_ne].
    rewrite lookup_insert_eq. f_equal. symmetry. by apply Hsame.
Qed.

(** C14. Relocation moves packs, not bytes. When packs have been relocated, every one of them that
    was stored where its placement said is now preferred in the one new blob, with exactly the bytes
    it had, so that every range of it reads as before; the placements of other packs are what they
    were, and no object is gone. *)
Theorem relocation_keeps_packs l packs budget g report g' p pack content :
  stored_bytes (cg_backend g) -> placement_bytes (cg_state g) ->
  relocate l packs budget g = (Ok report, g') -> pin_new (cg_state g) packs = Ok p ->
  pack ∈ packs -> placed (cg_backend g) p pack content ->
  exists p', pin_new (cg_state g') packs = Ok p' /\
    (exists placements r, p' !! pack = Some placements /\ preferred placements = Some r /\
       rl_blob report = Some (be_blob (rp_extent r))) /\
    (forall offset length, 0 <= offset -> 1 <= length <= MAX_BATCH_BYTES -> offset + length <= zlen content ->
       pin_read (cg_backend g') p' pack (mkRange offset length (offset + length)) = Ok (slice content offset (offset + length))) /\
    (forall other, other ∉ packs -> placement (cg_state g') other = placement (cg_state g) other) /\
    (forall key object, contents (cg_backend g) !! key = Some object -> contents (cg_backend g') !! key = Some object).
Proof.
  intros Hsb Hrb E Hpin Hin Hpl. destruct (relocate_inv _ _ _ _ _ _ _ E Hpin) as (Hnd & w & blob & object & extents & s2 & Hw & Hf & Hrep & Hobj & Hkeep & Hm & Hk & Hrows).
  assert (forall q, placement (cg_state g') q = placement s2 q) as Hplace by (intros q; unfold placement; by rewrite Hrows).
  assert (forall q, q ∈ packs -> exists pl r e, placement (cg_state g') q = Ok pl /\ preferred pl = Some r /\ rp_extent r = e /\
            (list_to_map extents : gmap (list Z) BlobExtent) !! q = Some e) as Hnew.
  { intros q Hq. destruct (finish_extents _ _ _ _ _ _ _ q Hw Hf Hq) as (k & c & e & _ & He & Hok & _ & _ & Ho & _).
    destruct (moved_placement extents (cg_state g) s2 q e Hrb (Hm q Hq) He Hok Ho) as (pl & r & H1 & H2 & H3).
    exists pl, r, e. by rewrite Hplace. }
  destruct (pin_new_total (cg_state g') packs ∅) as [p' Hp'].
  { intros q Hq. destruct (Hnew q Hq) as (pl & _ & _ & ? & _). by exists pl. }
  exists p'. destruct (pin_new_lemma _ _ _ _ Hp' pack Hin) as (pl & Hpl1 & Hpl2).
  destruct (Hnew pack Hin) as (pl' & r & e & Hpl' & Hr & Hre & He). rewrite Hpl' in Hpl1. injection Hpl1 as ->.
  destruct (finish_extents _ _ _ _ _ _ _ pack Hw Hf Hin) as (k & c & e' & Hcp & He' & Hok & Hbl & Hlen & Ho & Hle & Hsl).
  rewrite He in He'. injection He' as <-. subst e.
  assert (is_bytes content) as Hcb.
  { destruct Hpl as (? & ? & o & _ & _ & _ & _ & Hc & _ & <-). apply is_bytes_slice. by eapply Hsb. }
  assert (c = content) as ->.
  { destruct (copy_pack_placed _ _ _ _ k c Hpl Hcb) as [-> _]; try done. intros pl0 Hpl0. destruct (pin_new_lemma _ _ _ _ Hpin pack Hin) as (pl1 & H1 & H2). rewrite Hpl0 in H2. injection H2 as ->.
    by apply (placement_ok _ _ _ Hrb) in H1 as [? _]. }
  split; [exact Hp'|]. split; [exists pl, r; split_and!; try done; by rewrite Hrep, Hbl|]. split_and!; try done.
  - intros offset length H1 H2 H3. apply placed_read; try done. exists pl, r, object. rewrite Hbl. split_and!; done.
  - intros other Hother. rewrite Hplace. unfold placement. by rewrite Hk.
Qed.
End Relocation.
