(* ===== verification/RelocateDemo.v ===== *)
(** The pack of [SealedDemo], which a reader needs, relocated in the in-memory backend; the witness
    of the theorem on relocation. *)

From S2P Require Import Prelude Domain Layout Format Wire Segment Frame Pack Backend CatalogIndex Catalog Placement View ViewProofs ViewDemo Manifest ManifestProofs ManifestDemo Active Store StoreProofs Sealed SealedProofs SealedDemo Seal Retention RetentionTrace RetentionPlan RetentionProofs RetentionViews RetentionDemo Maintenance Samples Prepared Relocate RelocateProofs.
From stdpp Require Import base strings gmap list sorting.
From Stdlib Require Import ZArith Lia.
Open Scope Z_scope.

#[local] Existing Instances demo_hashes demo_zstd demo_hashes_ok demo_zstd_ok.

Definition demo_packs : list Digest := Eval vm_compute in [fz_id demo_packed].

Definition demo_relocated := Eval vm_compute in relocate demo_local demo_packs 4096 demo_littered.

Definition demo_move : RelocationReport := Eval vm_compute in unwrap (mkRelocation 0 0 None) demo_relocated.1.

Definition demo_source : pin := Eval vm_compute in unwrap ∅ (pin_new (cg_state demo_littered) demo_packs).

Lemma littered_bytes : stored_bytes (cg_backend demo_littered).
Proof.
  apply memory_stored_bytes. vm_compute. reflexivity.
Qed.

Lemma littered_placements : placement_bytes (cg_state demo_littered).
Proof.
  intros k e Hk. assert (forallb (fun x => bytes_check (snd x) && (zlen (snd x) <=? U64_MAX))
    (map_to_list (ix_entries (st_placements (cg_state demo_littered)))) = true) as Hall by (vm_compute; reflexivity).
  rewrite forallb_forall in Hall. specialize (Hall (k, e)). cbn [snd] in Hall.
  apply elem_of_map_to_list, list_elem_of_In in Hk. apply Hall, andb_true_iff in Hk as [Hb Hl].
  split; [by apply bytes_check_ok|by apply Z.leb_le].
Qed.

Lemma demo_placed_pack : placed (cg_backend demo_littered) demo_source (fz_id demo_packed) (fz_file demo_packed).
Proof.
  exists demo_placements4, demo_representation4, demo_blob4.
  split; [vm_compute; reflexivity|]. split; [vm_compute; reflexivity|]. split; [exact demo_extent4_ok|].
  split; [vm_compute; reflexivity|]. split; [vm_compute; reflexivity|]. split; [vm_compute; discriminate|].
  vm_compute. reflexivity.
Qed.

Lemma relocation_keeps_packs_witness :
  exists p', pin_new (cg_state demo_relocated.2) demo_packs = Ok p' /\
    pin_read (cg_backend demo_relocated.2) p' (fz_id demo_packed) (mkRange 0 128 128) = Ok (slice (fz_file demo_packed) 0 128).
Proof.
  destruct (relocation_keeps_packs demo_local demo_packs 4096 demo_littered demo_move demo_relocated.2 demo_source
    (fz_id demo_packed) (fz_file demo_packed) littered_bytes littered_placements) as (p' & Hp & _ & Hr & _).
  - vm_compute. reflexivity.
  - vm_compute. reflexivity.
  - apply (bool_decide_unpack _). vm_compute. exact I.
  - exact demo_placed_pack.
  - exists p'. split; [exact Hp|]. apply (Hr 0 128); [lia|unfold MAX_BATCH_BYTES; lia|vm_compute; discriminate].
Defined.
