(* ===== verification/Seeds.v ===== *)
(** The first dictionary of a new database (src/src/storage/seed.rs), chosen among those that
    related databases prefer: a pool of the samples they keep, and the estimate of what each
    dictionary would save on it.

    A path is its list of components, ordered as paths are. The storage of a related database, its
    sealed view and the file of samples of a namespace are what opening them gave. The record that
    the first seal consumes is loaded in [Prepared]. *)

From S2P Require Import Prelude Domain Layout Format Wire Segment Frame Pack Backend CatalogIndex Catalog Placement View Manifest Active Store Sealed Seal Retention Maintenance Samples Prepared.
From stdpp Require Import base strings gmap list sorting.
From Stdlib Require Import ZArith Lia.
Open Scope Z_scope.

Definition POOL_BYTES : Z := 8 * 1024 * 1024.
Definition SCREEN_BYTES : Z := 1024 * 1024.
Definition FINALISTS : nat := 4.

Record Sample : Type := mkSample { sd_bytes : bytes; sd_origins : gset Z; sd_plain : Z }.
Record Score : Set := mkScore { so_payload : Z; so_plain : Z }.
Record Pool : Type := mkPool { po_pages : gmap (list Z) Sample; po_bytes : Z; po_budget : Z }.

Definition Pool_new (budget : Z) : Pool := mkPool ∅ 0 budget.

(** The loop of [insert] that drops the highest digests. It ends without a page: [fuel] is their
    number. *)
Fixpoint pool_trim (fuel : nat) (p : Pool) : Pool :=
  match fuel with
  | O => p
  | S fuel =>
      if po_bytes p <=? po_budget p then p
      else match last_page (po_pages p) with
           | Some (id, s) => pool_trim fuel (mkPool (delete id (po_pages p)) (po_bytes p - zlen (sd_bytes s)) (po_budget p))
           | None => p
           end
  end.

(** Returns false once a digest can no longer enter the full pool. *)
Definition Pool_insert (id : Digest) (b : bytes) (origin : Z) (p : Pool) : bool * Pool :=
  match po_pages p !! id with
  | Some s => (true, mkPool (<[id := mkSample (sd_bytes s) ({[origin]} ∪ sd_origins s) (sd_plain s)]> (po_pages p))
                      (po_bytes p) (po_budget p))
  | None =>
      if (po_budget p <? po_bytes p + zlen b)
         && match last_page (po_pages p) with Some (last, _) => digest_leb last id | None => false end
      then (false, p)
      else
        let pages := <[id := mkSample b {[origin]} 0]> (po_pages p) in
        (true, pool_trim (size pages) (mkPool pages (po_bytes p + zlen b) (po_budget p)))
  end.

Abbreviation Path := (list (list Z)).
(** A related database: the namespace directory of its storage, and its sealed view. *)
Record Related (B : Type) : Type := mkRelated {
  re_namespace : result StoreError Path;
  re_sealed : result StoreError (PinnedView B);
}.
Arguments re_namespace {B}. Arguments re_sealed {B}. Arguments mkRelated {B}.

(** An estimate, with the dictionary it is of. *)
Abbreviation Finalist := (Z * Digest * bytes)%type.

Section Seeds.
Context `{Hashes, ZstdLib, ZstdTrainer}.

(** The pages of a reservoir in their stored order, up to the pool's cutoff. *)
Fixpoint read_pages (n : nat) (previous : option (list Z)) (origin : Z) (r : ReadDecoder) (p : Pool)
    : result StoreError unit * Pool :=
  match n with
  | O => (Ok tt, p)
  | S n =>
      match (do length <- wire_u32 ;;
             do _ <- dlift (value (PageSize_new length)) ;;
             wire_take length) r with
      | Err e => (Err e, p)
      | Ok (b, r) =>
          let id := blake3 b in
          if match previous with Some previous => digest_leb id previous | None => false end then (Err (Corrupt 0), p)
          else
            let '(more, p) := Pool_insert id b origin p in
            if more then read_pages n (Some id) origin r p else (Ok tt, p)
      end
  end.

(** The stream behind the header of a reservoir. *)
Definition reservoir_stream (file : result StoreError bytes) : result StoreError ReadDecoder :=
  let* b := file in
  let* header := read_exact_at b 0 48 in
  fail_if negb (bytes_eqb (slice header 0 8) SAMPLE_MAGIC) with Corrupt 0 ;;
  let length := le_val (slice header 8 16) in
  fail_if MAX_SAMPLE_BYTES + 1024 * 1024 <? length with Range ;;
  let* s := zstd (zstream (drop 48 b)) in
  Ok (ReadDecoder_new (fst s) (snd s) length).

Definition read_reservoir (file : result StoreError bytes) (origin : Z) (p : Pool) : result StoreError unit * Pool :=
  match (let* r := reservoir_stream file in
         (do _ <- wire_u64 ;; do count <- wire_u32 ;; dret count) r) with
  | Err e => (Err e, p)
  | Ok (count, r) => read_pages (Z.to_nat count) None origin r p
  end.

Definition measure_sample (level : Z) (s : Sample) : option Sample :=
  c ← zcompress level [] (sd_bytes s);
  Some (mkSample (sd_bytes s) (sd_origins s) (Z.min (zlen c) (zlen (sd_bytes s)))).

(** The pages are visited in order of their digests. *)
Definition measure (level : Z) (p : Pool) : option Pool :=
  if negb (zcompressor level []) then None
  else
    measured ← mapM (fun e => s ← measure_sample level (snd e); Some (fst e, s)) (sorted_list (po_pages p));
    Some (mkPool (list_to_map measured) (po_bytes p) (po_budget p)).

(** [take_while]: pages until [limit] bytes have been taken. *)
Fixpoint prefix (limit used : Z) (pages : list Sample) : list Sample :=
  match pages with
  | [] => []
  | s :: pages => if used <? limit then s :: prefix limit (used + zlen (sd_bytes s)) pages else []
  end.

Definition foreign (holders : gset Z) (s : Sample) : bool := negb (bool_decide (sd_origins s ⊆ holders)).

Fixpoint sum_scores (level : Z) (dictionary : bytes) (pages : list Sample) (score : Score) : option Score :=
  match pages with
  | [] => Some score
  | s :: pages =>
      c ← zcompress level dictionary (sd_bytes s);
      sum_scores level dictionary pages
        (mkScore (so_payload score + Z.min (saturating_add (zlen c) 32) (zlen (sd_bytes s))) (so_plain score + sd_plain s))
  end.

Definition pool_score (level : Z) (dictionary : bytes) (holders : gset Z) (limit : Z) (p : Pool) : option Score :=
  let pages := prefix limit 0 (map snd (sorted_list (po_pages p))) in
  let independent := existsb (foreign holders) pages in
  if negb (zcompressor level dictionary) then None
  else
    score ← sum_scores level dictionary (List.filter (fun s => negb independent || foreign holders s) pages) (mkScore 0 0);
    if 0 <? so_plain score then Some score else None.

Inductive SeedTarget : Set := RelatedMedian | Logical (bytes : Z).

Definition adoption_estimate (score : Score) (baseline dictionary_bytes : Z) : option Z :=
  let estimate := so_payload score * baseline / so_plain score + dictionary_bytes in
  if estimate * 100 <=? baseline * 95 then Some estimate else None.

(** ** The choice *)

Record DictionarySeed : Type := mkSeed {
  ds_dictionary : option Digest;
  ds_dictionary_bytes : Z;
  ds_related : Z;
  ds_skipped : Z;
  ds_candidates : Z;
  ds_sample_bytes : Z;
}.

Context {B : Type}.

Fixpoint path_leb (a b : Path) : bool :=
  match a, b with
  | [], _ => true
  | _ :: _, [] => false
  | x :: a, y :: b => if bytes_eqb x y then path_leb a b else digest_leb x y
  end.

(** The storages that open, with the number of their namespace, and how many did not. *)
Fixpoint storages (related : list (Related B)) (namespaces : gmap Path Z) (skipped : Z)
    : list (Related B * Z) * gmap Path Z * Z :=
  match related with
  | [] => ([], namespaces, skipped)
  | r :: related =>
      match re_namespace r with
      | Err _ => storages related namespaces (skipped + 1)
      | Ok path =>
          let origin := default (Z.of_nat (size namespaces)) (namespaces !! path) in
          let '(opened, namespaces, skipped) := storages related (<[path := origin]> namespaces) skipped in
          ((r, origin) :: opened, namespaces, skipped)
      end
  end.

Definition related_pool (samples : Path -> result StoreError bytes) (namespaces : gmap Path Z) : Pool :=
  fold_left (fun p e => snd (read_reservoir (samples (fst e)) (snd e) p))
    (isort (fun a b => path_leb (fst a) (fst b)) (map_to_list namespaces)) (Pool_new POOL_BYTES).

Definition finalist_leb (a b : Finalist) : bool :=
  let '(x, i, _) := a in let '(y, j, _) := b in
  if x =? y then digest_leb i j else x <=? y.

(** What the screening carries. *)
Record Screen : Type := mkScreen {
  sn_holders : gmap Digest (gset Z);
  sn_finalists : list Finalist;
  sn_candidates : Z;
}.

Definition screen_dictionary (level : Z) (p : Pool) (v : PinnedView B) (origin : Z) (s : Screen) (id : Digest) : Screen :=
  let first := negb (bool_decide (is_Some (sn_holders s !! id))) in
  let held := {[origin]} ∪ default ∅ (sn_holders s !! id) in
  let s := mkScreen (<[id := held]> (sn_holders s)) (sn_finalists s) (sn_candidates s) in
  match (if first then pn_dictionaries v !! id else None) with
  | None => s
  | Some dictionary =>
      mkScreen (sn_holders s)
        (match pool_score level dictionary held SCREEN_BYTES p with
         | Some score =>
             take FINALISTS (isort finalist_leb (sn_finalists s ++ [(so_payload score * 2 ^ 32 / so_plain score, id, dictionary)]))
         | None => sn_finalists s
         end)
        (sn_candidates s + 1)
  end.

(** The screening of every readable view, their sizes, and how many could not be opened. *)
Fixpoint screen (level : Z) (p : Pool) (opened : list (Related B * Z)) (s : Screen) (sizes : list Z) (skipped : Z)
    : Screen * list Z * Z :=
  match opened with
  | [] => (s, sizes, skipped)
  | (r, origin) :: opened =>
      match re_sealed r with
      | Err _ => screen level p opened s sizes (skipped + 1)
      | Ok v =>
          screen level p opened (fold_left (screen_dictionary level p v origin) (vm_preferred (pn_view v)) s)
            (sizes ++ [lb_bytes (vm_size (pn_view v))]) skipped
      end
  end.

Definition seed_target (target : SeedTarget) (sizes : list Z) : option Z :=
  match target with
  | RelatedMedian => isort Z.leb sizes !! (length sizes / 2)%nat
  | Logical b => match sizes with [] => None | _ => Some b end
  end.

Definition adopt (level baseline : Z) (p : Pool) (holders : gmap Digest (gset Z)) (f : Finalist) : option Finalist :=
  let '(_, id, dictionary) := f in
  score ← pool_score level dictionary (default ∅ (holders !! id)) U64_MAX p;
  estimate ← adoption_estimate score baseline (zlen dictionary);
  Some (estimate, id, dictionary).

(** [min_by_key], which keeps the first of equals. *)
Definition least (l : list Finalist) : option Finalist :=
  match l with
  | [] => None
  | x :: l => Some (fold_left (fun best f => if finalist_leb best f then best else f) l x)
  end.

Definition sum_plain (l : list Sample) : Z := foldr (fun s n => sd_plain s + n) 0 l.
Definition sum_raw (l : list Sample) : Z := foldr (fun s n => zlen (sd_bytes s) + n) 0 l.

Definition choose (samples : Path -> result StoreError bytes) (related : list (Related B)) (level : Z) (target : SeedTarget)
    : option (Digest * bytes) * DictionarySeed :=
  let '(opened, namespaces, skipped) := storages related ∅ 0 in
  let pool := related_pool samples namespaces in
  match measure level pool with
  | None => (None, mkSeed None 0 0 skipped 0 (po_bytes pool))
  | Some pool =>
      let '(s, sizes, skipped) := screen level pool opened (mkScreen ∅ [] 0) [] skipped in
      let pages := map snd (sorted_list (po_pages pool)) in
      let report := mkSeed None 0 (zlen sizes) skipped (sn_candidates s) (po_bytes pool) in
      match seed_target target sizes with
      | None => (None, report)
      | Some target =>
          if negb (0 <? sum_raw pages) then (None, report)
          else
            match least (omap (adopt level (sum_plain pages * target / sum_raw pages) pool (sn_holders s)) (sn_finalists s)) with
            | None => (None, report)
            | Some (_, id, dictionary) =>
                (Some (id, dictionary),
                 mkSeed (Some id) (zlen dictionary) (zlen sizes) skipped (sn_candidates s) (po_bytes pool))
            end
      end
  end.

(** ** The record of a seed *)

Definition seed_record `{StorageBackend B} (s : Sidecar B) (dictionary : bytes) : result StoreError unit * Sidecar B :=
  if bool_decide (is_Some (st_sealed (cg_state (sc_guard s)))) then (Err InvalidConfiguration, s)
  else if (zlen dictionary =? 0) || (Layout.MAX_DICTIONARY_BYTES <? zlen dictionary) then (Err Range, s)
  else match envelope SEED_MAGIC dictionary with
       | Err e => (Err e, s)
       | Ok e => if sc_writable s then (Ok tt, mkSidecar (sc_guard s) (sc_samples s) (Ok e) true) else (Err Io, s)
       end.
End Seeds.
