(* ===== verification/SeedsProofs.v ===== *)
(** Correctness of seeding: the pool is a bounded sample of all related databases, the early end
    of its reading skips nothing, and a seed is adopted only when it repays its own bytes. *)

From S2P Require Import Prelude Domain Layout Format Wire Segment Frame Pack Backend CatalogIndex Catalog Placement View ViewProofs Manifest ManifestProofs Active Store Sealed Seal Retention Maintenance Samples SamplesProofs Prepared Seeds.
From stdpp Require Import base strings gmap list sorting.
From Stdlib Require Import ZArith Lia.
Open Scope Z_scope.

(** ** The pool *)

(** One page of one namespace joins all those known: the first bytes of a digest stay. *)
Definition contribute (origin : Z) (all : gmap (list Z) Sample) (e : list Z * bytes) : gmap (list Z) Sample :=
  <[e.1 := match all !! e.1 with
           | Some s => mkSample (sd_bytes s) ({[origin]} ∪ sd_origins s) (sd_plain s)
           | None => mkSample e.2 {[origin]} 0
           end]> all.

Section Pool.
Context (L budget : Z) (HL : 0 < L) (Hbudget : 0 <= budget).

Definition pool_capacity : nat := Z.to_nat (budget / L).

(** The pool holds the lowest digests of [all], as many pages of [L] bytes as fit. *)
Record pool_lowest (all : gmap (list Z) Sample) (p : Pool) : Prop := {
  pool_pages : sorted_list (po_pages p) = take pool_capacity (sorted_list all);
  pool_bytes : po_bytes p = zlen (sorted_list (po_pages p)) * L;
  pool_budget : po_budget p = budget;
  pool_sizes : forall id s, all !! id = Some s -> zlen (sd_bytes s) = L;
}.

Lemma capacity_bounds : Z.of_nat pool_capacity * L <= budget < (Z.of_nat pool_capacity + 1) * L.
Proof.
  unfold pool_capacity. pose proof (Z.mul_succ_div_gt budget L HL). pose proof (Z.mul_div_le budget L HL).
  pose proof (Z.div_pos budget L). nia.
Qed.

Lemma pool_page_size all p id s : pool_lowest all p -> po_pages p !! id = Some s -> zlen (sd_bytes s) = L /\ all !! id = Some s.
Proof.
  intros Hp Hs. apply sorted_list_elem in Hs. rewrite (pool_pages _ _ Hp) in Hs. apply take_elem, sorted_list_elem in Hs.
  split; [by eapply (pool_sizes _ _ Hp)|done].
Qed.

Lemma pool_trim_lemma fuel : forall p,
  po_bytes p = zlen (sorted_list (po_pages p)) * L -> po_budget p = budget ->
  Forall (fun e => zlen (sd_bytes e.2) = L) (sorted_list (po_pages p)) -> (size (po_pages p) <= fuel)%nat ->
  let p' := pool_trim fuel p in
  sorted_list (po_pages p') = take pool_capacity (sorted_list (po_pages p)) /\
  po_bytes p' = zlen (sorted_list (po_pages p')) * L /\ po_budget p' = budget.
Proof.
  pose proof capacity_bounds as Hc. induction fuel as [|fuel IH]; intros p Hb Hbud Hall Hf; cbn [pool_trim].
  - apply Nat.le_0_r, map_size_empty_iff in Hf. rewrite Hf in *. change (sorted_list (∅ : gmap (list Z) Sample)) with (@nil (list Z * Sample)).
    by rewrite take_nil.
  - destruct (po_bytes p <=? po_budget p) eqn:E.
    + apply Z.leb_le in E. split_and!; try done. rewrite take_ge; [done|]. unfold zlen in Hb. nia.
    + apply Z.leb_gt in E. destruct (last_page (po_pages p)) as [[id s]|] eqn:El.
      2: { apply last_page_None in El. rewrite El in Hb. change (po_bytes p = 0) in Hb. lia. }
      apply sorted_list_delete_last in El as [Es Hm]. rewrite Es in Hb, Hall |- *. rewrite zlen_app in Hb.
      apply Forall_app in Hall as [Hall Hl]. apply Forall_cons in Hl as [Hl _]. cbn in Hl. change (zlen [(id, s)]) with 1 in Hb.
      edestruct (IH (mkPool (delete id (po_pages p)) (po_bytes p - zlen (sd_bytes s)) (po_budget p))) as (H1 & H2 & H3);
        cbn [po_pages po_bytes po_budget]; try done; [lia| |].
      { rewrite map_size_delete_Some by eauto. lia. }
      cbn zeta in H1, H2, H3. split_and!; try done. rewrite H1. cbn [po_pages]. unfold zlen in Hb. rewrite take_app_le; [done|]. nia.
Qed.

Lemma contribute_sizes origin all e :
  (forall id s, all !! id = Some s -> zlen (sd_bytes s) = L) -> zlen e.2 = L ->
  forall id s, contribute origin all e !! id = Some s -> zlen (sd_bytes s) = L.
Proof.
  intros Hs He id s. unfold contribute. intros [[_ <-]|[_ Hi]]%lookup_insert_Some; [|by eapply Hs].
  destruct (all !! e.1) eqn:E; cbn [sd_bytes]; [exact (Hs _ _ E)|done].
Qed.

(** A page joins the pool as it joins the whole. *)
Lemma Pool_insert_lowest all p id b origin :
  pool_lowest all p -> zlen b = L ->
  pool_lowest (contribute origin all (id, b)) (snd (Pool_insert id b origin p)).
Proof.
  intros Hp Hb. pose proof capacity_bounds as Hc. pose proof Hp as [Hs Hby Hbud Hsz]. unfold Pool_insert.
  destruct (po_pages p !! id) as [s|] eqn:Ep.
  { destruct (pool_page_size _ _ _ _ Hp Ep) as [_ Ha]. unfold contribute. cbn [fst snd]. rewrite Ha. split; cbn [po_pages po_bytes po_budget]; try done.
    - by rewrite (sorted_list_update _ _ _ _ Ep), (sorted_list_update _ _ _ _ Ha), Hs, fmap_take.
    - rewrite (sorted_list_update _ _ _ _ Ep). unfold zlen in *. by rewrite length_map.
    - intros i x [[<- <-]|[_ Hi]]%lookup_insert_Some; [exact (Hsz _ _ Ha)|by eapply Hsz]. }
  set (v := mkSample b {[origin]} 0).
  assert (take pool_capacity (sorted_list (contribute origin all (id, b))) =
    take pool_capacity (insert_sorted by_digest (id, v) (sorted_list (po_pages p)))) as Hnew.
  { unfold contribute. cbn [fst snd]. destruct (all !! id) as [w|] eqn:Ea.
    - rewrite (sorted_list_update _ _ _ _ Ea), <- fmap_take. rewrite (updated_absent id); [symmetry; by eapply lowest_present|].
      rewrite <- Hs. by apply absent_key.
    - fold v. rewrite sorted_list_insert, Hs by done. apply take_insert_sorted. }
  pose proof (contribute_sizes origin all (id, b) Hsz Hb) as Hsz'.
  destruct (_ && _) eqn:Erej; cbn [snd].
  - apply andb_true_iff in Erej as [Eover Elast]. apply Z.ltb_lt in Eover. unfold zlen in Hby, Hb.
    destruct (last_page (po_pages p)) as [[lid lv]|] eqn:El; [|done]. split; try done. rewrite Hnew, (rejected_last _ _ _ _ _ El Elast Ep).
    assert (length (sorted_list (po_pages p)) = pool_capacity) by (apply (f_equal length) in Hs; rewrite length_take in Hs; unfold zlen in Eover; nia).
    rewrite take_app_le by lia. by rewrite take_ge by lia.
  - fold v. set (q := mkPool _ _ _). assert (sorted_list (po_pages q) = insert_sorted by_digest (id, v) (sorted_list (po_pages p))) as Hq
      by by apply sorted_list_insert.
    destruct (pool_trim_lemma (size (po_pages q)) q) as (H1 & H2 & H3); try done.
    + rewrite Hq. unfold zlen. rewrite length_insert_sorted. cbn. unfold zlen in *. lia.
    + rewrite Hq, insert_sorted_perm. constructor; [done|]. apply Forall_forall. intros [i x] Hi. apply sorted_list_elem in Hi.
      by eapply pool_page_size.
    + split; try done. change (po_pages q) with (<[id:=v]> (po_pages p)) in *. rewrite Hnew, <- Hq. exact H1.
Qed.

(** Once a digest cannot enter, no higher one can. *)
Lemma Pool_insert_full p id b origin p' id' b' :
  Pool_insert id b origin p = (false, p') -> digest_leb id' id = false -> zlen b' = zlen b ->
  p' = p /\ Pool_insert id' b' origin p = (false, p).
Proof.
  unfold Pool_insert. intros E Hlt Hb'. destruct (po_pages p !! id) as [s|] eqn:Ep; [done|]. destruct (_ && _) eqn:Erej; [|done].
  injection E as <-. split; [done|]. rewrite Hb'. apply andb_true_iff in Erej as [Eover Elast].
  destruct (last_page (po_pages p)) as [[lid lv]|] eqn:El; [|done].
  assert (digest_leb id id' = true) as Hle by (destruct (digest_leb_total id id'); congruence).
  assert (po_pages p !! id' = None) as ->.
  { destruct (po_pages p !! id') as [x|] eqn:Ex; [|done]. exfalso. apply sorted_list_elem in Ex.
    apply sorted_list_delete_last in El as [El _]. pose proof (sorted_list_increasing (po_pages p)) as Hinc. rewrite El in Ex, Hinc.
    assert (digest_leb id' lid = true) as H1.
    { apply elem_of_app in Ex as [Ex|Ex%list_elem_of_singleton]; [|injection Ex as -> ->; destruct (digest_leb_total lid lid); done].
      apply StronglySorted_app in Hinc as (Hinc & _ & _). specialize (Hinc _ (lid, lv) Ex ltac:(by left)). cbn in Hinc.
      destruct (digest_leb_total id' lid); congruence. }
    assert (digest_leb id' id = true) by by eapply digest_leb_trans. congruence. }
  rewrite Eover. cbn [andb]. by rewrite (digest_leb_trans _ _ _ Elast Hle).
Qed.
End Pool.

(** ** Reading a reservoir *)

Section Reading.
Context {HH : Hashes} {HOK : HashesOk HH} {Z0 : ZstdLib} {ZOK : ZstdOk Z0}.
Context (L budget : Z) (HL : page_size_ok L) (Hbudget : 0 <= budget).

Lemma page_positive : 0 < L.
Proof. pose proof (page_size_ok_bounds _ HL). lia. Qed.

(** The pages behind one that could not enter could not enter either. *)
Lemma skipped_pages l : forall all p id b origin,
  pool_lowest L budget all p -> Pool_insert id b origin p = (false, p) -> zlen b = L ->
  Forall (fun e => digest_leb e.1 id = false /\ zlen e.2 = L) l ->
  pool_lowest L budget (fold_left (contribute origin) l all) p.
Proof.
  induction l as [|[i c] l IH]; intros all p id b origin Hp E Hb Hl; [done|]. apply Forall_cons in Hl as [[Hi Hc] Hl]. cbn in Hi, Hc.
  cbn [fold_left]. destruct (Pool_insert_full p id b origin p i c E Hi ltac:(lia)) as [_ Ei].
  pose proof (Pool_insert_lowest L budget page_positive Hbudget all p i c origin Hp Hc) as Hp'. rewrite Ei in Hp'.
  eapply IH; [exact Hp'|exact E|done|done].
Qed.

Lemma reads_page {W} {WI : Wire W} {WV : WireView W} {WL : WireLaws W} b :
  zlen b = L -> is_bytes b ->
  reads (do length <- wire_u32 ;; do _ <- dlift (value (PageSize_new length)) ;; wire_take length) (u32_bytes (zlen b) ++ b) b.
Proof.
  intros Hb Hbytes. pose proof (page_size_ok_bounds _ HL). eapply reads_bind; [apply reads_u32; unfold is_u32; lia|].
  eapply reads_lift; [apply PageSize_new_fwd; by rewrite Hb|]. by apply reads_exact.
Qed.

Lemma read_pages_lowest {V : WireView ReadDecoder} {WL : WireLaws ReadDecoder} l : forall previous origin r p all rest,
  increasing l -> Forall (fun e => e.1 = blake3 e.2 /\ zlen e.2 = L /\ is_bytes e.2) l ->
  (forall x, previous = Some x -> Forall (fun e => digest_leb e.1 x = false) l) ->
  wire_ok r -> remaining r = concat (map (fun e => u32_bytes (zlen e.2) ++ e.2) l) ++ rest -> pool_lowest L budget all p ->
  exists p', read_pages (length l) previous origin r p = (Ok tt, p') /\
    pool_lowest L budget (fold_left (contribute origin) l all) p'.
Proof.
  induction l as [|[id b] l IH]; intros previous origin r p all rest Hinc Hl Hprev Hr Hrem Hp; cbn [length read_pages]; [by exists p|].
  apply Forall_cons in Hl as [(Hid & Hb & Hbytes) Hl]. cbn in Hid, Hb, Hbytes. apply StronglySorted_inv in Hinc as [Hinc Habove].
  cbn [map concat snd] in Hrem. rewrite <- (assoc_L (++)) in Hrem.
  destruct (reads_page b Hb Hbytes r _ Hr Hrem) as (r' & -> & Hr' & Hrem'). rewrite <- Hid.
  assert (match previous with Some x => digest_leb id x | None => false end = false) as ->.
  { destruct previous as [x|]; [|done]. specialize (Hprev x eq_refl). by apply Forall_cons in Hprev as [Hx _]. }
  pose proof (Pool_insert_lowest L budget page_positive Hbudget all p id b origin Hp Hb) as Hp'. cbn [fold_left].
  destruct (Pool_insert id b origin p) as [[] p'] eqn:Ei; cbn [snd] in Hp'.
  - eapply IH; try done. by intros x [= <-].
  - exists p'. split; [done|].
    assert (p' = p) as -> by (revert Ei; unfold Pool_insert; destruct (_ !! id); [done|]; destruct (_ && _); [by intros [= <-]|done]).
    eapply skipped_pages; [done|exact Ei|done|]. rewrite Forall_forall in Hl, Habove |- *. intros e He. split; [by apply Habove|]. by apply Hl.
Qed.

(** A reservoir with changes to write, of pages of [L] bytes, and the file it writes. *)
Definition written (s : Samples) (file : result StoreError bytes) : Prop :=
  samples_ok s /\ (forall id b, sa_pages s !! id = Some b -> zlen b = L) /\
  exists e, Samples_encode s = Ok (Some e) /\ file = Ok e.

Lemma reservoir_stream_written s file :
  written s file ->
  let raw := u64_bytes (sa_fresh s) ++ u32_bytes (zlen (sorted_list (sa_pages s))) ++
    concat (map (fun e => u32_bytes (zlen e.2) ++ e.2) (sorted_list (sa_pages s))) in
  reservoir_stream file = Ok (ReadDecoder_new raw true (zlen raw)) /\ is_bytes raw /\ zlen raw <= MAX_SAMPLE_BYTES + 1024 * 1024.
Proof.
  intros (Hok & _ & e & He & ->) raw. destruct (samples_raw s Hok) as [Hrb Hrl]. cbn zeta in Hrb, Hrl.
  assert (zlen (map snd (sorted_list (sa_pages s))) = zlen (sorted_list (sa_pages s))) as Hlen by (unfold zlen; by rewrite length_map).
  rewrite map_map, Hlen in Hrb, Hrl. fold raw in Hrb, Hrl. split; [|done].
  unfold Samples_encode in He. destruct (sa_dirty s); [|done]. cbn [negb] in He. inv_ok. apply mmap_encode_sample in Hok0. subst a.
  rewrite map_map, Hlen in Hok1. fold raw in Hok1. unfold envelope, zstd in Hok1. inv_ok.
  pose proof (zstream_compress _ _ _ Hok0) as Hz. subst. unfold reservoir_stream. cbn [rbind].
  set (h := SAMPLE_MAGIC ++ u64_bytes (zlen raw) ++ blake3 raw).
  assert (zlen h = 48) as Hh by (unfold h; rewrite !zlen_app; unfold u64_bytes; rewrite zlen_le_bytes, blake3_length; reflexivity).
  replace (SAMPLE_MAGIC ++ u64_bytes (zlen raw) ++ blake3 raw ++ a) with (h ++ a) by (unfold h; by rewrite <- !(assoc_L (++))).
  unfold read_exact_at. rewrite zlen_app, Hh. pose proof (zlen_nonneg a). rewrite (proj2 (Z.ltb_ge _ _)) by lia. cbn [rbind].
  assert (slice h 0 8 = SAMPLE_MAGIC) as Hmagic by by apply (slice_mid []).
  assert (le_val (slice h 8 16) = zlen raw) as Hlength.
  { unfold h. rewrite (slice_mid SAMPLE_MAGIC (u64_bytes (zlen raw))) by (unfold u64_bytes; rewrite ?zlen_le_bytes; reflexivity).
    apply le_val_8. pose proof (zlen_nonneg raw). unfold is_u64, MAX_SAMPLE_BYTES in *. lia. }
  assert (slice (h ++ a) 0 (0 + 48) = h) as -> by (apply (slice_mid [] h a); by rewrite ?Hh).
  rewrite Hmagic, Hlength, bytes_eqb_refl. cbn [negb].
  rewrite (proj2 (Z.ltb_ge _ _)) by done. replace 48%nat with (length h) by (unfold zlen in Hh; lia). rewrite drop_app_length, Hz. done.
Qed.

(** What a pool is after reading a written reservoir. *)
Lemma read_reservoir_lemma s file origin all p :
  written s file -> pool_lowest L budget all p ->
  exists p', read_reservoir file origin p = (Ok tt, p') /\
    pool_lowest L budget (fold_left (contribute origin) (sorted_list (sa_pages s)) all) p'.
Proof.
  intros Hw Hp. pose proof (reservoir_stream_written s file Hw) as Hs. cbn zeta in Hs. destruct Hw as (Hok & Hsize & _).
  unfold read_reservoir. set (body := concat _) in Hs. set (raw := u64_bytes _ ++ _) in Hs. destruct Hs as (-> & Hrb & Hrl). cbn [rbind].
  pose proof (ReadDecoder_laws raw true (zlen raw) None) as WL. pose proof (zlen_nonneg raw).
  assert (ViewProofs.fresh (ReadDecoder_new raw true (zlen raw))) as Hfr by (split_and!; cbn; unfold MAX_SAMPLE_BYTES, U64_MAX in *; (done || lia)).
  destruct (samples_body_reads s Hok) as [_ Hcount]. cbn zeta in Hcount. pose proof (samples_budget s Hok). pose proof (samples_fresh s Hok).
  assert (zlen (map snd (sorted_list (sa_pages s))) = zlen (sorted_list (sa_pages s))) as Hlen by (unfold zlen; by rewrite length_map).
  rewrite Hlen in Hcount. pose proof (zlen_nonneg (sorted_list (sa_pages s))).
  pose proof (fresh_ok _ Hfr) as Hr0. cbn [ReadDecoder_new rd_reader rd_clean rd_length rd_expected] in Hr0.
  assert (@reads _ (stream_view raw true (zlen raw) None) _ (do _ <- wire_u64 ;; do count <- wire_u32 ;; dret count)
    (u64_bytes (sa_fresh s) ++ u32_bytes (zlen (sorted_list (sa_pages s)))) (zlen (sorted_list (sa_pages s)))) as Hread.
  { eapply reads_bind; [apply reads_u64; unfold is_u64, MAX_SAMPLE_BYTES in *; lia|].
    eapply reads_bind_end; [apply reads_u32; unfold is_u32, MAX_SAMPLE_BYTES in *; lia|]. apply reads_ret. }
  destruct (Hread (ReadDecoder_new raw true (zlen raw)) body Hr0) as (r & -> & Hr & Hrem).
  { cbn. rewrite Z.sub_0_r, take_ge by (unfold zlen; lia). unfold raw, u64_bytes, u32_bytes. by rewrite <- (assoc_L (++)). }
  unfold zlen. rewrite Nat2Z.id. apply (@read_pages_lowest _ WL (sorted_list (sa_pages s)) None origin r p all []); try done.
  - apply sorted_list_increasing.
  - apply Forall_forall. intros [id b] Hin%sorted_list_elem. cbn. destruct (samples_pages s Hok _ _ Hin) as (? & _ & ?).
    split_and!; try done. by eapply Hsize.
  - by rewrite app_nil_r.
Qed.

(** A reservoir that cannot be read contributes nothing. *)
Definition available (reservoir : option Samples) (file : result StoreError bytes) : Prop :=
  match reservoir with Some s => written s file | None => exists e, file = Err e end.

Definition held (reservoir : option Samples) (id : list Z) : Prop :=
  exists s b, reservoir = Some s /\ sa_pages s !! id = Some b.

(** [all] is every page of every namespace, with the namespaces that hold it. *)
Record union_of (R : Z -> list Z -> Prop) (all : gmap (list Z) Sample) : Prop := {
  union_known : forall id, is_Some (all !! id) <-> exists o, R o id;
  union_page : forall id s, all !! id = Some s -> blake3 (sd_bytes s) = id /\ sd_plain s = 0 /\ forall o, o ∈ sd_origins s <-> R o id;
}.

#[global] Instance union_of_proper : Proper (pointwise_relation Z (pointwise_relation (list Z) iff) ==> eq ==> iff) union_of.
Proof.
  intros R R' HR all ? <-. split; intros [H1 H2]; split.
  1, 3: intros id; rewrite H1; apply exist_proper; intros o; by rewrite (HR o id).
  all: intros id s Hs; destruct (H2 id s Hs) as (? & ? & H3); split_and!; try done; intros o; rewrite H3; by rewrite (HR o id).
Qed.

Lemma contribute_union R all origin e :
  union_of R all -> e.1 = blake3 e.2 ->
  union_of (fun o id => R o id \/ o = origin /\ id = e.1) (contribute origin all e).
Proof.
  intros [H1 H2] He. unfold contribute. split.
  - intros id. destruct (decide (id = e.1)) as [->|Hne].
    + rewrite lookup_insert_eq. split; [intros _; exists origin; by right|eauto].
    + rewrite lookup_insert_ne, H1 by done. split; [intros [o Ho]; exists o; by left|]. intros (o & [Ho|[_ ?]]); [by exists o|done].
  - intros id s [[<- <-]|[Hne Hs]]%lookup_insert_Some.
    + destruct (all !! e.1) as [w|] eqn:Ew.
      * destruct (H2 _ _ Ew) as (? & ? & Ho). cbn. split_and!; try done. intros o. rewrite elem_of_union, elem_of_singleton, Ho. intuition.
      * cbn. split_and!; try done. intros o. rewrite elem_of_singleton. split; [by right|]. intros [Ho|[? _]]; [|done].
        assert (is_Some (all !! e.1)) as [? ?] by (apply H1; by exists o). congruence.
    + destruct (H2 _ _ Hs) as (? & ? & Ho). split_and!; try done. intros o. rewrite Ho. intuition congruence.
Qed.

Lemma contributions_union l : forall R all origin,
  union_of R all -> Forall (fun e => e.1 = blake3 e.2) l ->
  union_of (fun o id => R o id \/ o = origin /\ id ∈ map fst l) (fold_left (contribute origin) l all).
Proof.
  induction l as [|e l IH]; intros R all origin Hu Hl; cbn [fold_left map].
  - eapply union_of_proper; [|done|exact Hu]. intros o id. rewrite elem_of_nil. intuition.
  - apply Forall_cons in Hl as [He Hl]. eapply union_of_proper; [|done|apply (IH _ _ origin (contribute_union _ _ origin e Hu He) Hl)].
    intros o id. rewrite elem_of_cons. intuition.
Qed.

Lemma held_keys s id : samples_ok s -> id ∈ map fst (sorted_list (sa_pages s)) <-> held (Some s) id.
Proof.
  intros Hok. rewrite list_elem_of_fmap. unfold held. split.
  - intros ([i b] & -> & Hi%sorted_list_elem). by exists s, b.
  - intros (s' & b & [= <-] & Hb). exists (id, b). split; [done|]. by apply sorted_list_elem.
Qed.

(** Reading the namespaces one after the other. *)
Lemma read_all_lemma (P : Type) (files : P -> result StoreError bytes) (reservoirs : P -> option Samples) l : forall R all p,
  Forall (fun e => available (reservoirs e.1) (files e.1)) l -> union_of R all -> pool_lowest L budget all p ->
  exists all', union_of (fun o id => R o id \/ exists path, (path, o) ∈ l /\ held (reservoirs path) id) all' /\
    pool_lowest L budget all' (fold_left (fun p e => snd (read_reservoir (files e.1) e.2 p)) l p).
Proof.
  induction l as [|[path origin] l IH]; intros R all p Hl Hu Hp; cbn [fold_left fst snd].
  - exists all. split; [|done]. eapply union_of_proper; [|done|exact Hu]. intros o id. split; [|by left].
    intros [?|(? & H%elem_of_nil & _)]; done.
  - apply Forall_cons in Hl as [Hf Hl]. cbn in Hf. unfold available in Hf. destruct (reservoirs path) as [s|] eqn:Es.
    + pose proof Hf as (Hok & _). destruct (read_reservoir_lemma s _ origin all p Hf Hp) as (p' & -> & Hp'). cbn [snd].
      edestruct (IH _ _ p' Hl (contributions_union (sorted_list (sa_pages s)) R all origin Hu ltac:(
        apply Forall_forall; intros [i b] Hi%sorted_list_elem; by apply (samples_pages s Hok) in Hi as [? _])) Hp') as (all' & Hu' & Hfin).
      exists all'. split; [|done]. eapply union_of_proper; [|done|exact Hu']. intros o id. rewrite held_keys, <- Es by done. split.
      * intros [?|(x & [E|Hx]%elem_of_cons & Hh)]; [by left; left| |right; by exists x]. injection E as -> ->. left. by right.
      * intros [[?|[-> ?]]|(x & Hx & Hh)]; [by left|right; exists path; split; [by left|done]|right; exists x; split; [by right|done]].
    + destruct Hf as [e ->]. cbn [read_reservoir reservoir_stream rbind snd]. destruct (IH R all p Hl Hu Hp) as (all' & Hu' & Hfin).
      exists all'. split; [|done]. eapply union_of_proper; [|done|exact Hu']. intros o id. split.
      * intros [?|(x & [E|Hx]%elem_of_cons & Hh)]; [by left| |right; by exists x]. injection E as -> ->.
        destruct Hh as (? & ? & Hh & _). congruence.
      * intros [?|(x & Hx & Hh)]; [by left|right; exists x; split; [by right|done]].
Qed.
End Reading.

(** C18. The pool is one bounded sample of all related databases: whatever their number, when their
    reservoirs hold pages of one size, the pool holds exactly the lowest digests of the union of
    the readable ones, as many as its budget holds, and each page knows exactly the namespaces
    whose reservoir holds it; stopping a reservoir at the pool's cutoff skips nothing that belongs
    to it. *)
Theorem pool_is_lowest_of_related {HH : Hashes} {HOK : HashesOk HH} {Z0 : ZstdLib} {ZOK : ZstdOk Z0}
    (L : Z) (samples : Path -> result StoreError bytes) (reservoirs : Path -> option Samples) (namespaces : gmap Path Z) :
  page_size_ok L ->
  (forall path o, namespaces !! path = Some o -> available L (reservoirs path) (samples path)) ->
  let pool := related_pool samples namespaces in
  exists all,
    union_of (fun o id => exists path, namespaces !! path = Some o /\ held (reservoirs path) id) all /\
    sorted_list (po_pages pool) = take (Z.to_nat (POOL_BYTES / L)) (sorted_list all) /\
    po_bytes pool = zlen (sorted_list (po_pages pool)) * L.
Proof.
  intros HL Hfiles pool. set (l := isort (fun a b => path_leb (fst a) (fst b)) (map_to_list namespaces)).
  assert (forall e, e ∈ l <-> namespaces !! e.1 = Some e.2) as Hl.
  { intros [x o]. unfold l. rewrite isort_perm. apply elem_of_map_to_list. }
  destruct (read_all_lemma L POOL_BYTES HL ltac:(unfold POOL_BYTES; lia) Path samples reservoirs l (fun _ _ => False) ∅ (Pool_new POOL_BYTES))
    as (all & Hu & [Hpages Hbytes _ _]).
  - apply Forall_forall. intros e He%Hl. by eapply Hfiles.
  - split; [|by intros id s Hs; rewrite lookup_empty in Hs]. intros id. rewrite lookup_empty. split; [by intros [? ?]|by intros (? & [])].
  - split; [symmetry; apply take_nil|done|done|]. intros ? ? Hs. by rewrite lookup_empty in Hs.
  - exists all. split; [|done]. eapply union_of_proper; [|done|exact Hu]. intros o id. split.
    + intros (x & Hx & Hh). right. exists x. split; [by apply (Hl (x, o))|done].
    + intros [[]|(x & Hx & Hh)]. exists x. split; [by apply (Hl (x, o))|done].
Qed.

(** ** The choice *)

Lemma finalist_leb_total a b : finalist_leb a b = true \/ finalist_leb b a = true.
Proof.
  destruct a as [[x i] d], b as [[y j] d']. cbn. rewrite (Z.eqb_sym y x). destruct (x =? y) eqn:E; [apply digest_leb_total|].
  rewrite !Z.leb_le. lia.
Qed.

Lemma finalist_leb_trans a b c : finalist_leb a b = true -> finalist_leb b c = true -> finalist_leb a c = true.
Proof.
  destruct a as [[x i] d], b as [[y j] d'], c as [[z k] d'']. cbn.
  destruct (Z.eqb_spec x y), (Z.eqb_spec y z), (Z.eqb_spec x z); subst; rewrite ?Z.leb_le; try lia; try done.
  apply digest_leb_trans.
Qed.

Lemma least_best l x : least l = Some x -> x ∈ l /\ forall y, y ∈ l -> finalist_leb x y = true.
Proof.
  assert (forall l b, let r := fold_left (fun best f => if finalist_leb best f then best else f) l b in
    r ∈ b :: l /\ forall y, y ∈ b :: l -> finalist_leb r y = true) as Hgen.
  { clear. induction l as [|z l IH]; intros b; cbn [fold_left].
    - split; [by left|]. intros y ->%list_elem_of_singleton. destruct (finalist_leb_total b b); done.
    - destruct (IH (if finalist_leb b z then b else z)) as [H1 H2]. cbn zeta in *. set (r := fold_left _ l _) in *. split.
      + apply elem_of_cons in H1 as [->|H1]; [|by do 2 right]. destruct (finalist_leb b z); [by left|by right; left].
      + intros y Hy. destruct (finalist_leb b z) eqn:E.
        * apply elem_of_cons in Hy as [->|[->|Hy]%elem_of_cons]; [apply H2; by left| |apply H2; by right].
          eapply finalist_leb_trans; [apply H2; by left|done].
        * apply elem_of_cons in Hy as [->|[->|Hy]%elem_of_cons]; [|apply H2; by left|apply H2; by right].
          eapply finalist_leb_trans; [apply H2; by left|]. destruct (finalist_leb_total b z); congruence. }
  destruct l as [|b l]; [done|]. cbn [least]. intros [= <-]. apply Hgen.
Qed.

(** [best] are the best [k] of [l]. *)
Definition best_of (k : nat) (l best : list Finalist) : Prop :=
  (length best <= k)%nat /\ (forall f, f ∈ best -> f ∈ l) /\
  forall f, f ∈ l -> f ∈ best \/ length best = k /\ forall g, g ∈ best -> finalist_leb g f = true.

Lemma best_of_step k l best x :
  best_of k l best -> best_of k (l ++ [x]) (take k (isort finalist_leb (best ++ [x]))).
Proof.
  intros (Hk & Hin & Hout). set (sorted := isort finalist_leb (best ++ [x])).
  assert (sorted ≡ₚ best ++ [x]) as Hp by apply isort_perm.
  assert (StronglySorted (fun a b => finalist_leb a b = true) sorted) as Hs
    by (apply isort_sorted; [apply finalist_leb_total|apply finalist_leb_trans]).
  pose proof (Permutation_length Hp) as Hlen. rewrite length_app in Hlen. cbn in Hlen.
  rewrite <- (take_drop k sorted) in Hs, Hp. apply StronglySorted_app in Hs as (Hs & _ & _).
  assert (forall f, f ∈ best \/ f = x -> f ∈ take k sorted \/ f ∈ drop k sorted) as Hcase.
  { intros f Hf. rewrite <- elem_of_app, Hp, elem_of_app, list_elem_of_singleton. done. }
  assert (forall f, f ∈ take k sorted -> f ∈ best \/ f = x) as Htake.
  { intros f Hf. rewrite <- list_elem_of_singleton, <- elem_of_app, <- Hp. apply elem_of_app. by left. }
  assert (forall f, f ∈ drop k sorted -> (f ∈ best \/ f = x) /\ length (take k sorted) = k) as Hdrop.
  { intros f Hf. split; [rewrite <- list_elem_of_singleton, <- elem_of_app, <- Hp; apply elem_of_app; by right|].
    rewrite length_take. destruct (drop k sorted) eqn:E; [by apply elem_of_nil in Hf|]. apply (f_equal length) in E. rewrite length_drop in E. cbn in E. lia. }
  split_and!.
  - rewrite length_take. lia.
  - intros f [Hf| ->]%Htake; apply elem_of_app; [left; by apply Hin|right; by left].
  - intros f Hf. assert (f ∈ best \/ f = x \/ (length best = k /\ forall g, g ∈ best -> finalist_leb g f = true)) as Hf'.
    { apply elem_of_app in Hf as [Hf| ->%list_elem_of_singleton]; [destruct (Hout f Hf); tauto|tauto]. }
    destruct Hf' as [Hb|[->|[Hfull Hall]]].
    + destruct (Hcase f (or_introl Hb)) as [Ht|Hd]; [by left|right]. split; [by eapply Hdrop|]. intros g Hg. exact (Hs g f Hg Hd).
    + destruct (Hcase x (or_intror eq_refl)) as [Ht|Hd]; [by left|right]. split; [by eapply Hdrop|]. intros g Hg. exact (Hs g x Hg Hd).
    + right. assert (exists y, drop k sorted = [y]) as [y Hy].
      { pose proof (length_drop sorted k) as Hl. destruct (drop k sorted) as [|y [|z t]]; cbn in Hl; [lia|by exists y|lia]. }
      rewrite Hy in Hp, Hdrop, Hs. destruct (Hdrop y ltac:(by left)) as [Hyb Hlt]. split; [done|]. intros g Hg.
      destruct (Htake g Hg) as [?| ->]; [by apply Hall|]. destruct Hyb as [Hyb| ->].
      * eapply finalist_leb_trans; [exact (Hs x y Hg ltac:(by left))|by apply Hall].
      * apply Permutation_app_inv_r in Hp. rewrite Hp in Hg. by apply Hall.
Qed.

Section Choice.
Context {Z0 : ZstdLib} {ZT : ZstdTrainer} {B : Type}.
Implicit Types (opened : list (Related B * Z)) (v : PinnedView B).

(** Every preferred dictionary of every readable view, with the number of its namespace. *)
Abbreviation Occurrence := (Z * PinnedView B * list Z)%type.

Definition occurrences opened : list Occurrence :=
  concat (map (fun e => match re_sealed e.1 with
                        | Ok v => map (fun id => (e.2, v, id)) (vm_preferred (pn_view v))
                        | Err _ => []
                        end) opened).

Definition logical_sizes opened : list Z :=
  concat (map (fun e => match re_sealed e.1 with Ok v => [lb_bytes (vm_size (pn_view v))] | Err _ => [] end) opened).

(** The namespaces that prefer a dictionary. *)
Definition holders_of (l : list Occurrence) (id : list Z) : gset Z :=
  list_to_set (map (fun x => x.1.1) (List.filter (fun x => bytes_eqb x.2 id) l)).

(** The screening score of a dictionary where it is first met. *)
Definition screened (level : Z) (p : Pool) (x : Occurrence) : option Finalist :=
  d ← pn_dictionaries x.1.2 !! x.2;
  score ← pool_score level d {[x.1.1]} SCREEN_BYTES p;
  Some (so_payload score * 2 ^ 32 / so_plain score, x.2, d).

Fixpoint candidates_of (level : Z) (p : Pool) (seen : list (list Z)) (l : list Occurrence) : list Finalist :=
  match l with
  | [] => []
  | x :: l => (if bool_decide (x.2 ∈ seen) then [] else option_list (screened level p x)) ++ candidates_of level p (x.2 :: seen) l
  end.

Lemma candidates_of_snoc level p l x : forall seen,
  candidates_of level p seen (l ++ [x]) =
  candidates_of level p seen l ++ (if bool_decide (x.2 ∈ seen \/ x.2 ∈ map snd l) then [] else option_list (screened level p x)).
Proof.
  induction l as [|y l IH]; intros seen; cbn [app candidates_of map].
  - rewrite app_nil_r. cbn [app]. rewrite (bool_decide_ext (x.2 ∈ seen \/ x.2 ∈ []) (x.2 ∈ seen)) by (rewrite elem_of_nil; tauto). done.
  - rewrite IH, (assoc_L (++)). f_equal. rewrite (bool_decide_ext (x.2 ∈ y.2 :: seen \/ x.2 ∈ map snd l) (x.2 ∈ seen \/ x.2 ∈ y.2 :: map snd l)); [done|].
    rewrite !elem_of_cons. tauto.
Qed.

Definition screen_step (level : Z) (p : Pool) (s : Screen) (x : Occurrence) : Screen := screen_dictionary level p x.1.2 x.1.1 s x.2.

Lemma screen_occurrences level p opened : forall s sizes skipped,
  exists skipped', screen level p opened s sizes skipped =
    (fold_left (screen_step level p) (occurrences opened) s, sizes ++ logical_sizes opened, skipped').
Proof.
  induction opened as [|[r o] opened IH]; intros s sizes skipped; cbn [screen].
  - exists skipped. by rewrite app_nil_r.
  - unfold occurrences, logical_sizes. cbn [map concat fst snd]. destruct (re_sealed r) as [v|].
    + rewrite fold_left_app. fold (occurrences opened) (logical_sizes opened).
      assert (forall l s0, fold_left (screen_step level p) (map (fun id => (o, v, id)) l) s0 = fold_left (screen_dictionary level p v o) l s0) as ->
        by (clear; induction l as [|i l IHl]; intros s0; [done|]; apply IHl).
      rewrite (assoc_L (++)). apply IH.
    + apply IH.
Qed.

(** What the screening holds after some occurrences. *)
Record screened_ok (level : Z) (p : Pool) (l : list Occurrence) (s : Screen) : Prop := {
  screened_known : forall id, is_Some (sn_holders s !! id) <-> id ∈ map snd l;
  screened_holders : forall id, default ∅ (sn_holders s !! id) = holders_of l id;
  screened_best : best_of FINALISTS (candidates_of level p [] l) (sn_finalists s);
}.

Lemma holders_of_snoc l x id : holders_of (l ++ [x]) id = (if bytes_eqb x.2 id then {[x.1.1]} else ∅) ∪ holders_of l id.
Proof.
  unfold holders_of. rewrite List.filter_app, map_app, list_to_set_app_L. cbn [List.filter]. destruct (bytes_eqb x.2 id); cbn; set_solver.
Qed.

Lemma holders_of_absent l id : id ∉ map snd l -> holders_of l id = ∅.
Proof.
  intros Hl. unfold holders_of. assert (List.filter (fun x => bytes_eqb x.2 id) l = []) as ->; [|done].
  induction l as [|y l IH]; [done|]. cbn in *. apply not_elem_of_cons in Hl as [Hy Hl]. destruct (bytes_eqb y.2 id) eqn:E; [|by apply IH].
  apply bytes_eqb_true in E. congruence.
Qed.

Lemma screen_step_ok level p l s x : screened_ok level p l s -> screened_ok level p (l ++ [x]) (screen_step level p s x).
Proof.
  intros [Hk Hh Hb]. unfold screen_step, screen_dictionary. set (first := negb _). set (held := {[x.1.1]} ∪ default ∅ _).
  assert (first = negb (bool_decide (x.2 ∈ [] \/ x.2 ∈ map snd l))) as Hfirst.
  { unfold first. f_equal. apply bool_decide_ext. rewrite Hk, elem_of_nil. tauto. }
  match goal with |- screened_ok _ _ _ ?s' => assert (sn_holders s' = <[x.2 := held]> (sn_holders s)) as Hholders
    by (destruct (if first then _ else None); done);
    assert (sn_finalists s' = match (if first then screened level p x else None) with
      | Some f => take FINALISTS (isort finalist_leb (sn_finalists s ++ [f])) | None => sn_finalists s end) as Hfin end.
  { assert (first = true -> held = {[x.1.1]}) as Hheld.
    { intros Hf. unfold held. rewrite Hh, holders_of_absent; [set_solver|]. rewrite Hfirst in Hf. apply negb_true_iff, bool_decide_eq_false in Hf. tauto. }
    destruct first; [|done]. unfold screened. rewrite <- Hheld by done. destruct (pn_dictionaries x.1.2 !! x.2) as [d|]; [|done]. cbn [sn_finalists mbind option_bind].
    by destruct (pool_score level d held SCREEN_BYTES p). }
  split.
  - intros id. rewrite Hholders, map_app, elem_of_app. cbn [map]. rewrite list_elem_of_singleton. destruct (decide (id = x.2)) as [->|Hne].
    + rewrite lookup_insert_eq. split; [by right|eauto].
    + rewrite lookup_insert_ne, Hk by done. tauto.
  - intros id. rewrite Hholders, holders_of_snoc. destruct (bytes_eqb x.2 id) eqn:E.
    + apply bytes_eqb_true in E as <-. rewrite lookup_insert_eq. cbn. unfold held. by rewrite Hh.
    + apply bytes_eqb_false in E. rewrite lookup_insert_ne, Hh by done. set_solver.
  - rewrite Hfin, candidates_of_snoc, Hfirst. case_bool_decide; cbn [negb]; [by rewrite app_nil_r|].
    destruct (screened level p x); cbn [option_list]; [by apply best_of_step|by rewrite app_nil_r].
Qed.

Lemma screen_ok level p l : screened_ok level p l (fold_left (screen_step level p) l (mkScreen ∅ [] 0)).
Proof.
  induction l as [|x l IH] using rev_ind.
  - split; cbn; [intros id; rewrite lookup_empty, elem_of_nil; split; [by intros [? ?]|done]|done|].
    split_and!; [cbn; lia|done|]. intros f H. by apply elem_of_nil in H.
  - rewrite fold_left_app. by apply screen_step_ok.
Qed.

(** Storages of one namespace share a number, those of two do not. *)
Definition numbered (ns : gmap Path Z) : Prop :=
  (forall path o, ns !! path = Some o -> o < Z.of_nat (size ns)) /\
  forall path path' o, ns !! path = Some o -> ns !! path' = Some o -> path = path'.

Lemma numbered_step ns path :
  numbered ns -> numbered (<[path := default (Z.of_nat (size ns)) (ns !! path)]> ns).
Proof.
  intros [Hlt Hinj]. destruct (ns !! path) as [o|] eqn:E; cbn [default]; [by rewrite insert_id by done|].
  split.
  - intros x o. rewrite map_size_insert_None by done. intros [[_ <-]|[_ Hx]]%lookup_insert_Some; [lia|]. apply Hlt in Hx. lia.
  - intros x y o [[<- <-]|[_ Hx]]%lookup_insert_Some [[<- Hy]|[_ Hy]]%lookup_insert_Some; try done.
    + apply Hlt in Hy. lia.
    + subst o. apply Hlt in Hx. lia.
    + by eapply Hinj.
Qed.

Lemma storages_lemma (related : list (Related B)) : forall ns skipped opened ns' skipped',
  storages related ns skipped = (opened, ns', skipped') -> numbered ns ->
  numbered ns' /\ (forall path o, ns !! path = Some o -> ns' !! path = Some o) /\
  forall r o, (r, o) ∈ opened <-> r ∈ related /\ exists path, re_namespace r = Ok path /\ ns' !! path = Some o.
Proof.
  induction related as [|r related IH]; intros ns skipped opened ns' skipped' E Hn; cbn [storages] in E.
  - injection E as <- <- <-. split_and!; try done. intros r o. rewrite !elem_of_nil. tauto.
  - destruct (re_namespace r) as [path|] eqn:Er.
    + set (ns1 := <[path := _]> ns) in E. destruct (storages related ns1 skipped) as [[opened1 ns2] k] eqn:E1. injection E as <- <- <-.
      destruct (IH _ _ _ _ _ E1 (numbered_step ns path Hn)) as (Hn' & Hkeep & Hin).
      assert (ns2 !! path = Some (default (Z.of_nat (size ns)) (ns !! path))) as Hpath by (apply Hkeep; apply lookup_insert_eq).
      split_and!; [done| |].
      * intros x o Hx. apply Hkeep. unfold ns1. destruct (decide (x = path)) as [->|Hne]; [|by rewrite lookup_insert_ne].
        by rewrite lookup_insert_eq, Hx.
      * intros q o. rewrite !elem_of_cons, Hin. split.
        { intros [[= -> ->]|[Hq Hp]]; [split; [by left|by exists path]|split; [by right|done]]. }
        intros [[->|Hq] (x & Hx & Ho)]; [left|right; split; [done|by exists x]]. rewrite Er in Hx. injection Hx as <-. by rewrite Hpath in Ho; injection Ho as <-.
    + destruct (IH _ _ _ _ _ E Hn) as (Hn' & Hkeep & Hin). split_and!; try done. intros q o. rewrite Hin, elem_of_cons. split.
      * intros [? ?]. split; [by right|done].
      * intros [[->|?] (x & Hx & ?)]; [congruence|]. split; [done|by exists x].
Qed.

Lemma candidates_origin level p l : forall seen x id d,
  (x, id, d) ∈ candidates_of level p seen l -> exists o v, (o, v, id) ∈ l /\ pn_dictionaries v !! id = Some d.
Proof.
  induction l as [|[[o v] i] l IH]; intros seen x id d; cbn [candidates_of]; [by intros H%elem_of_nil|].
  intros [H|H]%elem_of_app.
  - case_bool_decide; [by apply elem_of_nil in H|]. unfold screened in H. cbn [fst snd] in H. destruct (pn_dictionaries v !! i) as [d'|] eqn:Ed; [|by apply elem_of_nil in H].
    cbn [mbind option_bind] in H. destruct (pool_score _ _ _ _ _); [|by apply elem_of_nil in H]. apply list_elem_of_singleton in H. injection H as _ -> ->.
    exists o, v. split; [by left|done].
  - destruct (IH _ _ _ _ H) as (o' & v' & Hin & ?). exists o', v'. split; [by right|done].
Qed.

(** The stored size a dictionary projects for a database whose plain size would be [baseline]. *)
Definition projected (level : Z) (pool : Pool) (l : list Occurrence) (baseline : Z) (id d : list Z) (estimate : Z) : Prop :=
  exists score, pool_score level d (holders_of l id) U64_MAX pool = Some score /\
    estimate = so_payload score * baseline / so_plain score + zlen d /\ estimate * 100 <= baseline * 95.

Lemma adopt_projected level baseline pool l s f id d e :
  screened_ok level pool l s ->
  adopt level baseline pool (sn_holders s) f = Some (e, id, d) <-> f.1.2 = id /\ f.2 = d /\ projected level pool l baseline id d e.
Proof.
  intros Hs. destruct f as [[x i] c]. unfold adopt, projected. cbn [fst snd]. rewrite (screened_holders _ _ _ _ Hs).
  split.
  - destruct (pool_score _ _ _ _ _) as [score|] eqn:Es; [|done]. cbn [mbind option_bind]. unfold adoption_estimate.
    destruct (_ <=? _) eqn:El; [|done]. intros [= <- <- <-]. apply Z.leb_le in El. split_and!; try done. by exists score.
  - intros (-> & -> & score & -> & -> & Hle). cbn [mbind option_bind]. unfold adoption_estimate. by rewrite (proj2 (Z.leb_le _ _)).
Qed.

Lemma occurrences_elem opened o v id :
  (o, v, id) ∈ occurrences opened <-> exists r, (r, o) ∈ opened /\ re_sealed r = Ok v /\ id ∈ vm_preferred (pn_view v).
Proof.
  unfold occurrences. induction opened as [|[r o'] opened IH]; cbn [map concat fst snd].
  - split; [by intros H%elem_of_nil|]. by intros (? & H%elem_of_nil & _).
  - rewrite elem_of_app, IH. split.
    + intros [H|(q & Hq & ?)]; [|exists q; split; [by right|done]]. destruct (re_sealed r) as [w|] eqn:Er; [|by apply elem_of_nil in H].
      apply list_elem_of_fmap in H as (i & [= -> -> ->] & Hi). exists r. split; [by left|done].
    + intros (q & [[= -> ->]|Hq]%elem_of_cons & Hs & Hi); [left|right; by exists q]. rewrite Hs. apply list_elem_of_fmap. by exists id.
Qed.

(** C19. A seed repays its own bytes. Of the preferred dictionaries of the related databases that
    open, each screened where it is first met, the four best become finalists; the chosen one is a
    finalist, comes from a related database, and its projected size for the target, its own bytes
    included and, if any others are known, only pages of namespaces that do not prefer it counted,
    is at least five per cent below that of plain compression and not above that of any other
    finalist that qualifies; when none is chosen, no finalist qualifies. *)
Theorem seed_repays {HH : Hashes} samples (related : list (Related B)) level target opened ns skipped pool t :
  let pages := map snd (sorted_list (po_pages pool)) in
  let baseline := sum_plain pages * t / sum_raw pages in
  let projects := projected level pool (occurrences opened) baseline in
  storages related ∅ 0 = (opened, ns, skipped) ->
  measure level (related_pool samples ns) = Some pool ->
  seed_target target (logical_sizes opened) = Some t -> 0 < sum_raw pages ->
  let '(chosen, report) := Seeds.choose samples related level target in
  exists finalists, best_of FINALISTS (candidates_of level pool [] (occurrences opened)) finalists /\
    ds_dictionary report = fst <$> chosen /\
    match chosen with
    | Some (id, d) =>
        (exists r v, r ∈ related /\ re_sealed r = Ok v /\ id ∈ vm_preferred (pn_view v) /\ pn_dictionaries v !! id = Some d) /\
        (exists x, (x, id, d) ∈ finalists) /\ ds_dictionary_bytes report = zlen d /\
        exists estimate, projects id d estimate /\
          forall x id' d' e, (x, id', d') ∈ finalists -> projects id' d' e -> estimate <= e
    | None => forall x id d e, (x, id, d) ∈ finalists -> ~ projects id d e
    end.
Proof.
  intros pages baseline projects Hst Hm Ht Hraw. unfold Seeds.choose. rewrite Hst, Hm.
  destruct (screen_occurrences level pool opened (mkScreen ∅ [] 0) [] skipped) as (skipped' & ->). cbn [app].
  rewrite Ht. fold pages. rewrite (proj2 (Z.ltb_lt _ _)) by done. cbn [negb].
  pose proof (screen_ok level pool (occurrences opened)) as Hs. set (s := fold_left _ (occurrences opened) _) in *.
  fold baseline. pose proof (screened_best _ _ _ _ Hs) as Hbest.
  destruct (least _) as [[[e id] d]|] eqn:El; exists (sn_finalists s); split; try done; split; try done.
  - apply least_best in El as [Hin Hmin]. apply list_elem_of_omap in Hin as ([[x i] c] & Hx & Ha).
    apply (adopt_projected _ _ _ _ _ _ _ _ _ Hs) in Ha as (Hi & Hc & Hp). cbn in Hi, Hc. subst i c. split_and!; [|by exists x|done|].
    + destruct (candidates_origin _ _ _ _ _ _ _ (proj1 (proj2 Hbest) _ Hx)) as (o & v & Ho & Hd).
      apply occurrences_elem in Ho as (r & Hr & Hv & Hi). exists r, v. split_and!; try done.
      apply (storages_lemma _ _ _ _ _ _ Hst) in Hr as [Hr _]; [done|]. split; intros ? ?; [|intros ?]; rewrite ?lookup_empty; done.
    + exists e. split; [done|]. intros x' id' d' e' Hf Hp'.
      assert (finalist_leb (e, id, d) (e', id', d') = true) as Hle.
      { apply Hmin, list_elem_of_omap. exists (x', id', d'). split; [done|]. by apply (adopt_projected _ _ _ _ _ _ _ _ _ Hs). }
      cbn in Hle. destruct (Z.eqb_spec e e'); [lia|]. by apply Z.leb_le in Hle.
  - intros x id d e Hf Hp. destruct (omap _ _) as [|y l] eqn:Eo; [|done].
    assert ((e, id, d) ∈ omap (adopt level baseline pool (sn_holders s)) (sn_finalists s)) as Hin.
    { apply list_elem_of_omap. exists (x, id, d). split; [done|]. by apply (adopt_projected _ _ _ _ _ _ _ _ _ Hs). }
    rewrite Eo in Hin. by apply elem_of_nil in Hin.
Qed.
End Choice.
