(* ===== verification/SeedsDemo.v ===== *)
(** Related databases whose reservoirs overlap and one dictionary they share; the witnesses of the
    theorems on seeding. *)

From S2P Require Import Prelude Domain Layout Format Wire Segment Frame Pack Backend CatalogIndex Catalog Placement View ViewDemo Manifest ManifestDemo Store Sealed SealedDemo Samples SamplesProofs SamplesDemo Prepared Seeds SeedsProofs.
From stdpp Require Import base strings gmap list sorting.
From Stdlib Require Import ZArith Lia.
Open Scope Z_scope.

Definition demo_path (n : Z) : Path := [[n]; [n + 1]].
Definition demo_namespaces : gmap Path Z := list_to_map [(demo_path 5, 0); (demo_path 3, 1); (demo_path 4, 2)].

Definition samples_file `{Hashes, ZstdLib} (s : Samples) : result StoreError bytes :=
  match Samples_encode s with Ok (Some e) => Ok e | _ => Err Io end.

(** ** The pool *)

Section Pool.
#[local] Existing Instances demo_hashes demo_zstd demo_hashes_ok demo_zstd_ok.

(** Two namespaces share pages; the third has no readable reservoir. *)
Definition demo_reservoir (path : Path) : option Samples :=
  if bool_decide (path = demo_path 5) then Some (reservoir 4096 demo_samples)
  else if bool_decide (path = demo_path 3) then Some (reservoir 4096 [demo_page 13; demo_page 7; demo_page 9])
  else None.

Definition demo_samples_file (path : Path) : result StoreError bytes :=
  match demo_reservoir path with Some s => samples_file s | None => Err Io end.

Lemma reservoir_written budget pages :
  0 <= budget <= MAX_SAMPLE_BYTES -> Forall (fun b => zlen b = 512 /\ is_bytes b) pages ->
  is_ok (samples_file (reservoir budget pages)) = true -> written 512 (reservoir budget pages) (samples_file (reservoir budget pages)).
Proof.
  intros Hb Hp He. destruct (reservoir_lemma budget 512 pages page_size_512 Hb Hp) as [Hok [Hs Hsize]]. split; [done|]. split.
  - intros id b Hin%sorted_list_elem. rewrite Hs in Hin. apply take_elem, sorted_list_elem in Hin. by eapply Hsize.
  - unfold samples_file in *. destruct (Samples_encode _) as [[e|]|]; [by exists e|done..].
Qed.

Lemma demo_available path o : demo_namespaces !! path = Some o -> available 512 (demo_reservoir path) (demo_samples_file path).
Proof.
  intros _. unfold demo_samples_file, demo_reservoir. case_bool_decide; [|case_bool_decide; [|by exists Io]].
  all: apply reservoir_written; [unfold MAX_SAMPLE_BYTES; lia| |vm_compute; reflexivity].
  all: repeat (apply Forall_cons; split; [split; [vm_compute; reflexivity|apply bytes_check_ok; vm_compute; reflexivity]|]); constructor.
Qed.

(** Four distinct pages, two of them in both reservoirs. *)
Lemma pool_is_lowest_of_related_witness :
  let pool := related_pool demo_samples_file demo_namespaces in
  zlen (sorted_list (po_pages pool)) = 4 /\ po_bytes pool = 2048 /\
  exists all, union_of (fun o id => exists path, demo_namespaces !! path = Some o /\ held (demo_reservoir path) id) all /\
    sorted_list (po_pages pool) = take 16384 (sorted_list all).
Proof.
  destruct (pool_is_lowest_of_related 512 demo_samples_file demo_reservoir demo_namespaces page_size_512 demo_available) as (all & H1 & H2 & _).
  split; [vm_compute; reflexivity|]. split; [vm_compute; reflexivity|]. exists all. split; [exact H1|exact H2].
Defined.
End Pool.

(** ** The choice *)

#[local] Existing Instances demo_hashes sample_zstd sample_trainer.

Definition seed_dictionary : bytes := zeros 8.
Definition seed_view (database : Digest) : PinnedView MemoryBackend :=
  let m := pn_view demo_pinned in
  let v := mkView database (vm_lineage m) (vm_size m) (vm_txid m) (vm_history m) (vm_parent_seal m) (vm_frames m) (vm_pages m)
             [blake3 seed_dictionary] in
  mkPinned (pn_id demo_pinned) (mkValidated v (vd_span (pn_metadata demo_pinned)) [] 0 (vd_parent (pn_metadata demo_pinned)))
    {[blake3 seed_dictionary := seed_dictionary]} [] (pn_storage demo_pinned) (pn_placement demo_pinned).

(** Two databases of one namespace, one of another, one whose view cannot be opened and one whose
    storage cannot. *)
Definition seed_related : list (Related MemoryBackend) :=
  [mkRelated (Ok (demo_path 5)) (Ok (seed_view (demo_digest 1))); mkRelated (Ok (demo_path 5)) (Ok (seed_view (demo_digest 2)));
   mkRelated (Ok (demo_path 3)) (Ok (seed_view (demo_digest 3))); mkRelated (Ok (demo_path 4)) (Err Io); mkRelated (Err Io) (Err Io)].

Definition seed_samples (path : Path) : result StoreError bytes :=
  samples_file (reservoir 4096 (if bool_decide (path = demo_path 5) then demo_samples else [demo_page 9; demo_page 13])).

Definition seed_storages := Eval vm_compute in storages seed_related ∅ 0.
Definition seed_pool : Pool := Eval vm_compute in default (Pool_new 0) (measure 3 (related_pool seed_samples seed_storages.1.2)).

(** The shared dictionary is worth its eight bytes for a database of a megabyte. *)
Lemma seed_repays_witness : exists report,
  Seeds.choose seed_samples seed_related 3 (Logical 1048576) = (Some (blake3 seed_dictionary, seed_dictionary), report) /\
  ds_candidates report = 1 /\ ds_related report = 3 /\ ds_skipped report = 2 /\
  exists estimate, projected 3 seed_pool (occurrences seed_storages.1.1) 1048576 (blake3 seed_dictionary) seed_dictionary estimate.
Proof.
  pose proof (seed_repays seed_samples seed_related 3 (Logical 1048576) seed_storages.1.1 seed_storages.1.2 seed_storages.2 seed_pool 1048576
    ltac:(vm_compute; reflexivity) ltac:(vm_compute; reflexivity) ltac:(vm_compute; reflexivity) ltac:(vm_compute; reflexivity)) as H.
  destruct (Seeds.choose seed_samples seed_related 3 (Logical 1048576)) as [chosen report] eqn:E. exists report.
  assert (chosen = Some (blake3 seed_dictionary, seed_dictionary)) as -> by (apply (f_equal fst) in E; cbn [fst] in E; rewrite <- E; vm_compute; reflexivity).
  destruct H as (finalists & _ & _ & _ & _ & _ & estimate & He & _).
  split; [reflexivity|]. apply (f_equal snd) in E. cbn [snd] in E. subst report.
  split; [vm_compute; reflexivity|]. split; [vm_compute; reflexivity|]. split; [vm_compute; reflexivity|]. exists estimate. exact He.
Defined.
